(* ===== verification/_CoqProject ===== *)
-Q . S2P
Prelude.v
Addr.v
Buddy.v
BuddyBlocks.v
BuddyRepr.v
BuddyLists.v
BuddySpec.v
BuddyInit.v
BuddyThms.v
KernelAlloc.v
KernelSpec.v
KernelInit.v
KernelHeap.v
KernelProps.v
BootInfo.v
X86.v
Paging.v
PagingSpec.v
PagingWalk.v
PagingMmio.v
PagingOps.v
PagingInit.v
PagingMap.v
PagingProps.v
Context.v
ContextProps.v
BTree.v
Task.v
Sched.v
SchedSpec.v
SchedThms.v
SchedOps.v
SchedProps.v
Sync.v
SyncThms.v
SyncProps.v
Timer.v
TimerThms.v
TimerProps.v
Font.v
Graphics.v
GraphicsSpec.v
GraphicsThms.v
Writer.v
WriterThms.v
GraphicsProps.v
TimerDevice.v
Apic.v
ClockThms.v
ClockProps.v
Pci.v
PciThms.v
PciProps.v
Msi.v
MsiThms.v
MsiProps.v
Acpi.v
AcpiThms.v
AcpiProps.v
Boot.v
BootTables.v
BootThms.v
BootProps.v
Cpu.v
Gdt.v
GdtThms.v
Idt.v
IdtThms.v
Interrupts.v
IdtProps.v
Serial.v
Mtrr.v
Main.v
MainProps.v
Apps.v
Visual.v
VisualUI.v
VisualProps.v
VisualUIProps.v
AllocVisual.v
