(* ===== verification/Prelude.v ===== *)
(** * VitrOS: a verification library

    VitrOS is a single-processor x86-64 kernel in Rust with a UEFI bootloader.
    This library translates its core into Rocq definitions and proves what makes
    them correct.

    ** The parts and their files

    Code is a function of an explicit state in the monad [M] below; [None] is a
    panic of the dev profile (the one the launch script builds: overflow checks
    and [debug_assert!] on) or an access Rust leaves undefined.  Machine integers
    are [Z] with their wrap-around or overflow check written out.

    - [Addr] ([kernel/src/addr.rs], two functions of [paging.rs]): alignment and
      the conversions between physical and virtual addresses.
    - [Buddy] ([allocator.rs], [BuddyAllocator]): the buddy allocator on memory
      words, its free lists threaded through the free blocks, its bitmaps.
      [BuddyBlocks], [BuddyRepr], [BuddyLists] are its arithmetic and block
      geometry, representation and per-operation lemmas; [BuddySpec] states the
      abstract allocator (a set of free blocks) and [BuddyInit], [BuddyThms] the
      theorems.
    - [KernelAlloc] ([allocator.rs], [SlabCache] and [KernelAllocator]): the slab
      caches and the global allocator above the buddy one; [KernelSpec],
      [KernelInit], [KernelHeap] the invariant and lemmas (a client that follows
      the [GlobalAlloc] protocol), [KernelProps] the theorems.
    - [BootInfo] ([common/]): the boot information, the UEFI memory types, the
      layouts of the structures shared with the firmware.
    - [Paging] ([paging.rs], [stack.rs]): page table entries, the static tables,
      [init], MMIO and huge page mappings.  [X86] is the processor's page walk,
      the specification the tables are measured with.  [PagingSpec],
      [PagingWalk], [PagingMmio], [PagingOps], [PagingInit], [PagingMap] the
      lemmas, [PagingProps] the theorems.
    - [Context] ([sched/context.rs]): the first stack frame of a task and
      [switch_context], one step per instruction; [ContextProps].
    - [BTree]: ordered maps (the standard library's [BTreeMap]) for any key with
      a strict total order, the interface [OrderedKey].
    - [Task] ([sched/task.rs]): the control block, its constructors, weights and
      virtual run time.
    - [Sched] ([sched/scheduler.rs], [sched/blocking.rs]): queues, [schedule],
      blocking and waking.  [SchedSpec] is the invariant, [SchedThms] the effect
      of [schedule], [SchedOps] the other operations and the events in any order,
      [SchedProps] the theorems.
    - [Sync] ([sync/]): wait queues and the blocking mutex, as functions and as a
      program counter per task interleaved with the scheduler; [SyncThms] the
      invariant, [SyncProps] the theorems.
    - [Timer] ([timer.rs], the timer interrupt of [idt.rs], [sleep_ms],
      [check_resched_on_interrupt_exit]): the timer queue over an interface for
      priority queues ([Heap]), softirq, sleeping; [TimerThms], [TimerProps].
    - [Font], [Graphics], [Writer] ([graphics/]): glyphs, drawing, the console,
      regions, the shadow buffer, the command buffers of the writers and the
      compositor; [GraphicsSpec] says which pixels an operation paints,
      [GraphicsThms], [WriterThms] the lemmas, [GraphicsProps] the theorems.
    - [TimerDevice] ([timer_device.rs], [hpet.rs], [pit.rs]): the [TimerDevice]
      trait as a class and its two instances; [Apic] ([apic.rs]): the local APIC
      and the calibration of its timer with either; [ClockThms], [ClockProps].
    - [Pci] ([pci.rs]) and [Msi] ([msi.rs]): both mechanisms of access to the
      configuration space behind the class [PciConfigAccess], capabilities, the
      bus scan, MSI and MSI-X; [PciThms], [PciProps], [MsiThms], [MsiProps].
    - [Acpi] ([acpi.rs]): the tables from the root pointer on; [AcpiThms],
      [AcpiProps].
    - [Boot] ([bootloader/src/main.rs], [common/src/elf.rs]): the loader from the
      firmware's answers to the jump; [BootTables], [BootThms], [BootProps].
    - [Gdt] ([gdt.rs]) and [Idt] ([idt.rs]): the descriptor tables as bytes in
      memory and the handlers as lists of instructions.  [Cpu] is the processor
      they are measured with: loading of segments, delivery of interrupts, IRETQ.
      [GdtThms], [IdtThms], [Interrupts] the lemmas, [IdtProps] the
      theorems.
    - [Serial] ([serial.rs], [io.rs], [test_runner.rs]): the serial port on a log
      of port accesses, measured with a 16550; [Mtrr] ([msr.rs], [mtrr.rs]): the
      report of the memory types.
    - [Main] ([kernel/src/main.rs]): the kernel's start, on one state that has the
      parts' states as fields; [MainProps].
    - [Apps] ([main.rs], [debug_overlay.rs], [graphics/compositor.rs]): the tasks
      the kernel starts, each a start and a round of its loop, on the compositor's
      buffers, the scheduler and the HPET.
    - [Visual], [VisualUI] ([pipeline_visualization.rs],
      [graphics/compositor_observer.rs], the hook of [graphics/writer.rs]): the
      pipeline visualisation, a feature of the build.  The shared state and its
      animations in single precision, the visualising compositor among other
      tasks, the observer; the picture of the user interface and the
      demonstration's tasks.  [VisualProps], [VisualUIProps] the theorems.
    - [AllocVisual] ([allocator_visualization.rs], the hooks of [allocator.rs]):
      the allocator's visualisation, another feature: the counts, the grids, the
      demonstration, and its theorems.

    ** How they interact

    [Boot] makes the [BootInfo] and the first page tables; [Main] runs [Gdt],
    [Paging], [Idt], [Acpi], [Pci], [Apic], [Mtrr], the heap, [Timer] and [Task] in
    the kernel's order, up to the first [schedule]; [Apps] goes on from there, each
    task with a [Writer], a place on the screen and [sleep_ms].
    [KernelAlloc] calls [Buddy]; [Paging] reads [BootInfo] and uses [Addr];
    [Acpi] hands the APIC's address to [Apic], the HPET's to [TimerDevice] and the
    configuration window to [Pci], which [Msi] programs through;
    [Task] builds stacks with [Context]; [Sched] moves tasks between its queues
    and answers the pair of contexts that [Context.switch_context] switches
    between; [Sync] and [Timer] act on the scheduler through [mark_blocked],
    [schedule] and [unblock_task]; the writers of [Graphics] lock their buffers
    with [Sync]'s mutex.

    ** What the theorems show

    Allocator: no client that follows the protocol makes it panic, allocations
    are disjoint, inside the heap and fully recovered; each operation refines the
    abstract set of blocks; initialisation; two defects (alignment, capacity).
    Paging: the processor's walk of the tables [init] builds, for every address;
    the permissions of text, read-only data and data; every branch of the mapping
    functions.
    Contexts and tasks: a switch away and back restores the task.
    Scheduler: [schedule] picks the best task and places the old one; a sequence
    of events panics exactly where a product overflows, and loses no task; a
    wake-up is kept in every order but one, in which it is shown to be lost.
    Mutex: mutual exclusion and
    that sleepers can be found, in every interleaving; a lost wake-up.  Timers:
    due timers, and only they, run, and their tasks wake.
    Graphics: a frame of the compositor is the rendering of the queued commands
    and the transfer of the dirty rectangle; no writer draws outside its region;
    batched text looks like unbatched text.
    Clocks: exact time conversion, loops that end, calibration by the median.
    PCI, MSI, ACPI: both access mechanisms agree; the capability walk ends and
    finds the first match; exactly the requested vectors are programmed, by writes
    in the order that keeps the function silent meanwhile; parsing what encodes a
    table has the table's effect, on the HPET too.
    Loader: its page tables show physical memory twice; the kernel's bytes are in
    place; the first check that fails decides where it halts, before it touches
    the tables.
    Serial port: printing ends exactly when the line is ready often enough.
    Interrupts: the tables lead each vector to its handler, an interrupt leaves
    the interrupted code as it was, a stack overflow is reported as one.
    The whole: from what the loader hands over to the first switch, every part is
    as its own theorems want it; then what the tasks write is what the screen
    shows after the next frame.
    Visualisation: among any other tasks a frame ends as long as the user
    interface runs and nobody is preempted inside a section of its spin locks, and
    shows what the buffers held; with a task preempted there it never ends; the
    picture stays inside its buffer; a fifth buffer stops it for good.  The allocator's hooks count
    what is in use, its grids show the counts, its demonstration leaks nothing.

    ** Bounds and fuel

    The buddy loops recurse on the order (at most [MAX_ORDER]) or on the number of
    free pages; [check_timers] has one round more than the heap has timers,
    [wake_all] one more than there are waiters, the softirq two more than there
    are pending timers: the theorems show that these suffice, as running out is
    a panic.  The HPET's delay loop and the loops over MADT and MCFG entries take
    their fuel from the caller; the theorems give the amount that suffices, and
    where no amount does the loop is endless in the code.  The polls of the visualisation
    have fuel too: 14 is enough, as an animation has at most 13 ticks.  The PIT's polling and
    the capability walk have the bounds of the code.  The serial port's polls take
    fuel, and the theorem says for which answers some amount is enough.  The one
    bound on times is where the code overflows: 2^54 ns charged to a normal task
    between two switches is a panic.

    ** What is not modelled

    Spin locks taken with interrupts off: on the only processor they are always
    free.  Those of the pipeline visualisation are taken with interrupts on and are
    flags of its state ([Visual.in_state], [Visual.in_tracking]).
    The text of log lines, except the MTRR report's.  Devices beyond the registers the code uses:
    their answers are parameters.  The processor beyond the page walk, descriptor
    tables and the instructions of the switch and the handlers; user mode, which
    the kernel does not have.  Function pointers of the firmware's tables: the
    answers of the calls are parameters.  What the other tasks do while the
    visualising compositor sleeps: a parameter, any list of events.  The tests. *)
From Stdlib Require Export ZArith Lia Bool.
From stdpp Require Export base gmap sets list strings functions.

#[global] Open Scope Z_scope.
#[global] Set Default Goal Selector "!".

(** ** The monad of kernel code

    [M S A] is code that reads and writes a state [S].  [None] is the end of
    the run: a Rust panic (arithmetic overflow and [debug_assert!] in the dev
    profile the launch script builds, an index out of bounds, an [expect] on an
    error) or an access the language leaves undefined (null or misaligned
    pointers, memory never initialised). *)
Definition M (S A : Type) : Type := S → option (A * S).

#[export] Instance M_ret {S} : MRet (M S) := λ A a s, Some (a, s).
#[export] Instance M_bind {S} : MBind (M S) := λ A B k m s,
  match m s with Some (a, s') => k a s' | None => None end.

(** Rust's [Result]. *)
Inductive result (A E : Type) := Ok (a : A) | Err (e : E).
Arguments Ok {A E} a.
Arguments Err {A E} e.
(** [e?] inside code of type [M S (result B E)]. *)
Definition try_bind {S A B E} (m : M S (result A E)) (k : A → M S (result B E)) : M S (result B E) :=
  m ≫= λ r, match r with Ok a => k a | Err e => mret (Err e) end.
Notation "x ←? y ; z" := (try_bind y (λ x, z))
  (at level 20, y at level 100, z at level 200, format "x  ←?  y ;  '/' z").
Definition result_is_ok {A E} (r : result A E) : bool := match r with Ok _ => true | Err _ => false end.

Definition panic {S A} : M S A := λ _, None.
Definition gets {S A} (f : S → A) : M S A := λ s, Some (f s, s).
Definition modify {S} (f : S → S) : M S unit := λ s, Some (tt, f s).
Definition lift {S A} (o : option A) : M S A :=
  λ s, match o with Some a => Some (a, s) | None => None end.
(** [assert!] / [debug_assert!]. *)
Definition assert_ {S} (b : bool) : M S unit := λ s, if b then Some (tt, s) else None.
(** Code on a part of the state, seen through a getter and a setter. *)
Definition zoom {S T A} (get : T → S) (set : S → T → T) (m : M S A) : M T A :=
  λ t, match m (get t) with Some (a, s) => Some (a, set s t) | None => None end.

(** [for x in xs { body }]. *)
Fixpoint for_each {S A} (xs : list A) (body : A → M S unit) : M S unit :=
  match xs with
  | [] => mret tt
  | x :: xs' => body x ;; for_each xs' body
  end.

(** [for x in xs { body }] where the body may leave the function with an error. *)
Fixpoint try_for_each {S A E} (xs : list A) (body : A → M S (result unit E)) : M S (result unit E) :=
  match xs with
  | [] => mret (Ok tt)
  | x :: xs' => _ ←? body x; try_for_each xs' body
  end.

(** [(a..b).step_by(step)]. *)
Definition step_by (a b step : Z) : list Z := (λ i, a + i * step) <$> seqZ 0 ((b - a + step - 1) / step).

(** ** Machine integers

    Values of a [w]-bit unsigned type are integers in [0, 2^w). *)
Definition u64_max : Z := 2 ^ 64 - 1.
Definition u32_max : Z := 2 ^ 32 - 1.
Definition is_u64 (x : Z) : Prop := 0 ≤ x < 2 ^ 64.
Definition is_u32 (x : Z) : Prop := 0 ≤ x < 2 ^ 32.
(** Checked operators: what [+], [-], [*] do in the dev profile. *)
Definition cadd (w a b : Z) : option Z := if a + b <? 2 ^ w then Some (a + b) else None.
Definition csub (a b : Z) : option Z := if b <=? a then Some (a - b) else None.
Definition cmul (w a b : Z) : option Z := if a * b <? 2 ^ w then Some (a * b) else None.
Definition saturating_sub (a b : Z) : Z := Z.max 0 (a - b).
Definition saturating_add (w a b : Z) : Z := Z.min (2 ^ w - 1) (a + b).
Definition wrap (w x : Z) : Z := x mod 2 ^ w.
(** [!x] at width [w]. *)
Definition bnot (w x : Z) : Z := Z.lxor x (2 ^ w - 1).
(** Number of significant bits; [w - leading_zeros]. *)
Definition bit_length (x : Z) : Z := if x =? 0 then 0 else Z.log2 x + 1.
Definition leading_zeros (w x : Z) : Z := w - bit_length x.
Fixpoint trailing_zeros_pos (p : positive) : Z :=
  match p with xO p' => 1 + trailing_zeros_pos p' | _ => 0 end.
Definition trailing_zeros (w x : Z) : Z :=
  match x with Zpos p => trailing_zeros_pos p | _ => w end.

(** ** Weakest preconditions (total: the code must not end in [None]) *)
Definition wp {S A} (m : M S A) (Q : A → S → Prop) (s : S) : Prop :=
  match m s with Some (a, s') => Q a s' | None => False end.

Section wp_rules.
Context {S : Type}.
Implicit Types s : S.

Lemma wp_bind {A B} (m : M S A) (k : A → M S B) Q s :
  wp m (λ a s', wp (k a) Q s') s → wp (m ≫= k) Q s.
Proof. unfold wp, mbind, M_bind. by destruct (m s) as [[a s']|]. Qed.

Lemma wp_ret {A} (a : A) Q s : Q a s → wp (mret a) Q s.
Proof. done. Qed.

Lemma wp_gets {A} (f : S → A) Q s : Q (f s) s → wp (gets f) Q s.
Proof. done. Qed.

Lemma wp_modify (f : S → S) Q s : Q tt (f s) → wp (modify f) Q s.
Proof. done. Qed.

Lemma wp_lift {A} (o : option A) a Q s : o = Some a → Q a s → wp (lift o) Q s.
Proof. by intros ->. Qed.

Lemma wp_assert (b : bool) Q s : b = true → Q tt s → wp (assert_ b) Q s.
Proof. by intros ->. Qed.

Lemma wp_mono {A} (m : M S A) (Q Q' : A → S → Prop) s :
  wp m Q s → (∀ a s', Q a s' → Q' a s') → wp m Q' s.
Proof. unfold wp. destruct (m s) as [[a s']|]; eauto. Qed.

Lemma wp_run {A} (m : M S A) Q s :
  wp m Q s ↔ ∃ a s', m s = Some (a, s') ∧ Q a s'.
Proof.
  unfold wp. destruct (m s) as [[a s']|].
  - split; [eauto | by intros (? & ? & [= <- <-] & ?)].
  - split; [done | by intros (? & ? & ? & ?)].
Qed.

Lemma wp_elim {A} (m : M S A) (Q : A → S → Prop) s a s' : wp m Q s → m s = Some (a, s') → Q a s'.
Proof. unfold wp. intros H Hm. by rewrite Hm in H. Qed.

Lemma wp_eq {A} (m m' : M S A) (Q : A → S → Prop) s : m s = m' s → wp m' Q s → wp m Q s.
Proof. unfold wp. by intros ->. Qed.

(** The run of code whose first part is known. *)
Lemma run_bind {A B} (m : M S A) (k : A → M S B) s r : wp m (λ a s', k a s' = r) s → (m ≫= k) s = r.
Proof. unfold wp, mbind, M_bind. by destruct (m s) as [[a s']|]. Qed.
Lemma fails_bind {A B} (m : M S A) (k : A → M S B) s : m s = None → (m ≫= k) s = None.
Proof. unfold mbind, M_bind. by intros ->. Qed.
Lemma fails_next {A B} (m : M S A) (k : A → M S B) s : (∀ a s', m s = Some (a, s') → k a s' = None) → (m ≫= k) s = None.
Proof. unfold mbind, M_bind. intros Hk. destruct (m s) as [[a s']|]; [by apply Hk|done]. Qed.

(** The loop rule: an invariant on the elements done and the state. *)
Lemma wp_for_each {A} (body : A → M S unit) (I : list A → S → Prop) (xs : list A) s :
  I [] s →
  (∀ done_ x todo s', xs = done_ ++ x :: todo → I done_ s' →
     wp (body x) (λ _ s'', I (done_ ++ [x]) s'') s') →
  wp (for_each xs body) (λ _ s', I xs s') s.
Proof.
  intros H0 Hstep.
  assert (Hgen : ∀ ys dn s', xs = dn ++ ys → I dn s' →
    wp (for_each ys body) (λ _ s', I xs s') s').
  { induction ys as [|y ys IH]; intros dn s' Heq HI; simpl.
    - apply wp_ret. rewrite app_nil_r in Heq. by subst.
    - apply wp_bind. eapply wp_mono; [by eapply Hstep|].
      intros [] s'' HI'. eapply (IH (dn ++ [y])); [|done].
      by rewrite <-app_assoc. }
  by eapply (Hgen xs []).
Qed.

Lemma wp_try_for_each {A E} (body : A → M S (result unit E)) (I : list A → S → Prop) (xs : list A) s :
  I [] s →
  (∀ done_ x todo s', xs = done_ ++ x :: todo → I done_ s' →
     wp (body x) (λ r s'', r = Ok tt ∧ I (done_ ++ [x]) s'') s') →
  wp (try_for_each xs body) (λ r s', r = Ok tt ∧ I xs s') s.
Proof.
  intros H0 Hstep.
  assert (Hgen : ∀ ys dn s', xs = dn ++ ys → I dn s' →
    wp (try_for_each ys body) (λ r s', r = Ok tt ∧ I xs s') s').
  { induction ys as [|y ys IH]; intros dn s' Heq HI; simpl.
    - apply wp_ret. rewrite app_nil_r in Heq. by subst.
    - apply wp_bind. eapply wp_mono; [by eapply Hstep|].
      intros ? s'' [-> HI']. eapply (IH (dn ++ [y])); [|done].
      by rewrite <-app_assoc. }
  by eapply (Hgen xs []).
Qed.

(** A call whose error is passed on. *)
Lemma wp_try_bind {A B E} (m : M S (result A E)) (k : A → M S (result B E)) Q s :
  wp m (λ r s', match r with Ok a => wp (k a) Q s' | Err e => Q (Err e) s' end) s → wp (try_bind m k) Q s.
Proof.
  intros H. apply wp_bind. eapply wp_mono; [exact H|]. by intros [a|e] s'.
Qed.

(** Counting loops: the invariant is on the number of rounds done. *)
Lemma wp_for_range (n : Z) (body : Z → M S unit) (I : Z → S → Prop) s :
  0 ≤ n → I 0 s →
  (∀ i s', 0 ≤ i < n → I i s' → wp (body i) (λ _ s'', I (i + 1) s'') s') →
  wp (for_each (seqZ 0 n) body) (λ _ s', I n s') s.
Proof.
  intros Hn H0 Hstep.
  eapply wp_mono; [apply (wp_for_each body (λ dn s', I (Z.of_nat (length dn)) s'))|].
  - done.
  - intros dn x todo s' Heq HI.
    assert (Hx : seqZ 0 n !! length dn = Some x) by (by rewrite Heq, list_lookup_middle).
    apply lookup_seqZ in Hx as [-> Hx]. rewrite Z.add_0_l.
    eapply wp_mono; [apply Hstep; [lia|done]|]. intros [] s''. rewrite length_app. simpl.
    by replace (Z.of_nat (length dn + 1)) with (Z.of_nat (length dn) + 1) by lia.
  - intros [] s'. rewrite length_seqZ. by rewrite Z2Nat.id.
Qed.

Lemma wp_for_seqZ (a n : Z) (body : Z → M S unit) (I : Z → S → Prop) s :
  0 ≤ n → I a s →
  (∀ i s', a ≤ i < a + n → I i s' → wp (body i) (λ _ s'', I (i + 1) s'') s') →
  wp (for_each (seqZ a n) body) (λ _ s', I (a + n) s') s.
Proof.
  intros Hn H0 Hstep.
  eapply wp_mono; [apply (wp_for_each body (λ dn s', I (a + Z.of_nat (length dn)) s'))|].
  - by rewrite Z.add_0_r.
  - intros dn x todo s' Heq HI.
    assert (Hx : seqZ a n !! length dn = Some x) by (by rewrite Heq, list_lookup_middle).
    apply lookup_seqZ in Hx as [-> Hx].
    eapply wp_mono; [apply Hstep; [lia|done]|]. intros [] s''. rewrite length_app. simpl.
    by replace (a + Z.of_nat (length dn + 1)) with (a + Z.of_nat (length dn) + 1) by lia.
  - intros [] s'. rewrite length_seqZ. by rewrite Z2Nat.id.
Qed.

Lemma wp_try_for_range {E} (n : Z) (body : Z → M S (result unit E)) (I : Z → S → Prop) s :
  0 ≤ n → I 0 s →
  (∀ i s', 0 ≤ i < n → I i s' → wp (body i) (λ r s'', r = Ok tt ∧ I (i + 1) s'') s') →
  wp (try_for_each (seqZ 0 n) body) (λ r s', r = Ok tt ∧ I n s') s.
Proof.
  intros Hn H0 Hstep.
  eapply wp_mono; [apply (wp_try_for_each body (λ dn s', I (Z.of_nat (length dn)) s'))|].
  - done.
  - intros dn x todo s' Heq HI.
    assert (Hx : seqZ 0 n !! length dn = Some x) by (by rewrite Heq, list_lookup_middle).
    apply lookup_seqZ in Hx as [-> Hx]. rewrite Z.add_0_l.
    eapply wp_mono; [apply Hstep; [lia|done]|]. intros r s'' [-> HI']. rewrite length_app. simpl.
    replace (Z.of_nat (length dn + 1)) with (Z.of_nat (length dn) + 1) by lia. done.
  - intros r s'. rewrite length_seqZ. by rewrite Z2Nat.id.
Qed.

Lemma wp_zoom {T A} (get : T → S) (set : S → T → T) (m : M S A) Q (t : T) :
  wp m (λ a s, Q a (set s t)) (get t) → wp (zoom get set m) Q t.
Proof. unfold wp, zoom. by destruct (m (get t)) as [[a s]|]. Qed.
End wp_rules.

(** Loops over lists that are put together. *)
Lemma for_each_app {S A} (f : A → M S unit) l1 l2 s : for_each (l1 ++ l2) f s = (for_each l1 f ;; for_each l2 f) s.
Proof.
  revert s. induction l1 as [|x l1 IH]; intros s; [done|]. cbn [app for_each]. unfold mbind, M_bind in *.
  destruct (f x s) as [[[] s']|]; [|done]. apply IH.
Qed.
Lemma for_each_snoc {S A} (f : A → M S unit) l x s : for_each (l ++ [x]) f s = (for_each l f ;; f x) s.
Proof.
  rewrite for_each_app. cbn [for_each]. unfold mbind, M_bind. destruct (for_each l f s) as [[[] s']|]; [|done].
  by destruct (f x s') as [[[] s'']|].
Qed.
Lemma for_each_fails {S A} (f : A → M S unit) l1 x l2 s :
  (∀ s', for_each l1 f s = Some (tt, s') → f x s' = None) → for_each (l1 ++ x :: l2) f s = None.
Proof.
  intros H. rewrite for_each_app. cbn [for_each]. unfold mbind, M_bind. destruct (for_each l1 f s) as [[[] s']|]; [|done].
  by rewrite H.
Qed.

(** What every round keeps, the loop keeps, if it ends. *)
Lemma for_each_keeps {S A} (P : S → Prop) (f : A → M S unit) l s s' :
  (∀ x s s', f x s = Some (tt, s') → P s → P s') → for_each l f s = Some (tt, s') → P s → P s'.
Proof.
  intros Hf. revert s. induction l as [|x l IH]; intros s; cbn [for_each].
  - by intros [= <-].
  - unfold mbind, M_bind. destruct (f x s) as [[[] s1]|] eqn:Hx; [|done]. intros Hl Hs. eapply IH; eauto.
Qed.

(** Code that keeps what [P] says of the state, if it comes to an end. *)
Definition keeps {S A} (P : S → Prop) (m : M S A) : Prop := ∀ s a s', m s = Some (a, s') → P s → P s'.
Lemma keeps_bind {S A B} (P : S → Prop) (m : M S A) (k : A → M S B) : keeps P m → (∀ a, keeps P (k a)) → keeps P (m ≫= k).
Proof. intros Hm Hk s b s'. unfold mbind, M_bind. destruct (m s) as [[a s1]|] eqn:Hs; [|done]. intros Hb HP. eapply Hk, Hm; eauto. Qed.
Lemma keeps_modify {S} (P : S → Prop) (f : S → S) : (∀ s, P s → P (f s)) → keeps P (modify f).
Proof. intros Hf s a s' [= <- <-]. apply Hf. Qed.
Lemma keeps_pure {S A} (P : S → Prop) (m : M S A) : (∀ s a s', m s = Some (a, s') → s' = s) → keeps P m.
Proof. intros Hm s a s' Hr. by rewrite (Hm _ _ _ Hr). Qed.
Lemma keeps_get {S A} (P : S → Prop) (f : S → A) : keeps P (gets f).
Proof. apply keeps_pure. by intros ??? [= _ ->]. Qed.
Lemma keeps_ret {S A} (P : S → Prop) (a : A) : keeps P (mret a).
Proof. apply keeps_pure. by intros ??? [= _ ->]. Qed.
Lemma keeps_lift {S A} (P : S → Prop) (o : option A) : keeps P (lift o).
Proof. apply keeps_pure. intros s a s'. unfold lift. destruct o; [by intros [= -> ->]|done]. Qed.

Definition ends {S A} (P : S → Prop) (m : M S A) : Prop := ∀ s a s', m s = Some (a, s') → P s'.
Lemma ends_bind {S A B} (P : S → Prop) (m : M S A) (k : A → M S B) : (∀ a, ends P (k a)) → ends P (m ≫= k).
Proof. intros Hk s b s'. unfold mbind, M_bind. destruct (m s) as [[a s1]|]; [apply Hk|done]. Qed.
Lemma ends_then {S B} (P : S → Prop) (f : S → S) (k : M S B) : (∀ s, P (f s)) → keeps P k → ends P (modify f ;; k).
Proof. intros Hf Hk s b s' Hr. eapply Hk; [exact Hr|apply Hf]. Qed.

(** One symbolic step of the code in the goal. *)
Ltac wp_step :=
  lazymatch goal with
  | |- wp (mbind _ _) _ _ => apply wp_bind
  | |- wp (mret _) _ _ => apply wp_ret
  | |- wp (gets _) _ _ => apply wp_gets
  | |- wp (modify _) _ _ => apply wp_modify
  | |- wp (lift _) _ _ => eapply wp_lift
  | |- wp (assert_ _) _ _ => apply wp_assert
  end; cbv beta.
Ltac wp_pure := repeat (wp_step; [..|]); cbn beta.

(** Linear arithmetic with quotients and remainders. *)
Ltac dlia := Z.to_euclidean_division_equations; lia.

(** ** Checked arithmetic *)
Lemma cadd_some w a b : a + b < 2 ^ w → cadd w a b = Some (a + b).
Proof. intros. unfold cadd. by rewrite (proj2 (Z.ltb_lt _ _)). Qed.
Lemma csub_some a b : b ≤ a → csub a b = Some (a - b).
Proof. intros. unfold csub. by rewrite (proj2 (Z.leb_le _ _)). Qed.
Lemma cmul_some w a b : a * b < 2 ^ w → cmul w a b = Some (a * b).
Proof. intros. unfold cmul. by rewrite (proj2 (Z.ltb_lt _ _)). Qed.

(** ** Bits *)
Lemma testbit_pow2_mul n k i : 0 ≤ n → 0 ≤ i → Z.testbit (k * 2 ^ n) i = (if i <? n then false else Z.testbit k (i - n)).
Proof.
  intros Hn Hi. destruct (Z.ltb_spec i n).
  - by rewrite Z.mul_pow2_bits_low.
  - by rewrite Z.mul_pow2_bits by lia.
Qed.

Lemma testbit_pow2 n i : 0 ≤ n → Z.testbit (2 ^ n) i = (n =? i).
Proof. apply Z.pow2_bits_eqb. Qed.

(** [!m] at width [w] for [m] in range complements each bit. *)
Lemma bnot_lnot w x : 0 ≤ w → 0 ≤ x < 2 ^ w → bnot w x = 2 ^ w - 1 - x.
Proof.
  intros Hw Hx. unfold bnot.
  assert (Hl : Z.lxor x (2 ^ w - 1) = Z.land (Z.lnot x) (Z.ones w)).
  { rewrite Z.ones_equiv. rewrite <-Z.sub_1_r.
    apply Z.bits_inj'. intros i Hi.
    rewrite Z.lxor_spec, Z.land_spec, Z.lnot_spec by lia.
    replace (2 ^ w - 1) with (Z.ones w) by (rewrite Z.ones_equiv; lia).
    destruct (Z.ltb_spec i w).
    - rewrite Z.ones_spec_low by lia. by destruct (Z.testbit x i).
    - rewrite Z.ones_spec_high by lia.
      rewrite <-(Z.mod_small x (2 ^ w)) by done.
      rewrite Z.mod_pow2_bits_high by lia. done. }
  rewrite Hl, Z.land_ones by lia. unfold Z.lnot.
  symmetry. apply Z.mod_unique with (q := -1); lia.
Qed.

(** Masking with the complement of [2^n - 1] rounds down. *)
Lemma land_not_mask w n x : 0 ≤ n ≤ w → 0 ≤ x < 2 ^ w →
  Z.land x (bnot w (2 ^ n - 1)) = x / 2 ^ n * 2 ^ n.
Proof.
  intros Hn Hx. rewrite <-Z.shiftr_div_pow2, <-Z.shiftl_mul_pow2 by lia.
  apply Z.bits_inj'. intros i Hi. unfold bnot.
  replace (2 ^ n - 1) with (Z.ones n) by (rewrite Z.ones_equiv; lia).
  replace (2 ^ w - 1) with (Z.ones w) by (rewrite Z.ones_equiv; lia).
  rewrite Z.land_spec, Z.lxor_spec, Z.shiftl_spec by lia.
  destruct (Z.ltb_spec i n) as [Hlt|Hge].
  - rewrite !Z.ones_spec_low by lia. rewrite andb_false_r.
    symmetry. apply Z.testbit_neg_r. lia.
  - rewrite Z.ones_spec_high by lia.
    rewrite Z.shiftr_spec by lia. replace (i - n + n) with i by lia.
    destruct (Z.ltb_spec i w).
    + rewrite Z.ones_spec_low by lia. simpl. apply andb_true_r.
    + rewrite <-(Z.mod_small x (2 ^ w)) by done.
      by rewrite Z.mod_pow2_bits_high by lia.
Qed.

(** ** Lists *)
(** Removing an element from a duplicate-free list. *)
Lemma NoDup_middle {A} (l1 l2 : list A) x : NoDup (l1 ++ x :: l2) →
  NoDup (l1 ++ l2) ∧ ∀ y, y ∈ l1 ++ l2 ↔ y ∈ l1 ++ x :: l2 ∧ y ≠ x.
Proof.
  rewrite <-Permutation_middle, list.NoDup_cons. intros [Hx Hnd]. split; [done|].
  intros y. rewrite <-Permutation_middle, elem_of_cons. split.
  - intros Hy. split; [by right|]. by intros ->.
  - by intros [[->|?] ?].
Qed.

(** ** Little-endian numbers and lists of bytes *)
Definition is_byte (b : Z) : Prop := 0 ≤ b < 256.
Fixpoint from_le (bs : list Z) : Z := match bs with [] => 0 | b :: bs => b + 256 * from_le bs end.
Fixpoint to_le (n : nat) (v : Z) : list Z := match n with O => [] | S n => v mod 256 :: to_le n (v / 256) end.
Lemma length_to_le n v : length (to_le n v) = n.
Proof. revert v. induction n; intros v; simpl; auto. Qed.
Lemma to_le_bytes n v : Forall is_byte (to_le n v).
Proof. revert v. induction n; intros v; simpl; constructor; [apply Z.mod_pos_bound; lia|done]. Qed.
Lemma from_le_to_le n v : 0 ≤ v < 2 ^ (8 * Z.of_nat n) → from_le (to_le n v) = v.
Proof.
  revert v. induction n as [|n IH]; intros v Hv; cbn [to_le from_le]; [change (2 ^ _) with 1 in Hv; lia|].
  assert (Hp : 2 ^ (8 * Z.of_nat (S n)) = 256 * 2 ^ (8 * Z.of_nat n)).
  { replace (8 * Z.of_nat (S n)) with (8 + 8 * Z.of_nat n) by lia. rewrite Z.pow_add_r by lia. done. }
  rewrite IH; [dlia|]. split; [dlia|]. apply Z.div_lt_upper_bound; lia.
Qed.
Lemma from_le_bound bs : Forall is_byte bs → 0 ≤ from_le bs < 2 ^ (8 * Z.of_nat (length bs)).
Proof.
  induction 1 as [|b bs Hb _ IH]; cbn [from_le length]; [done|]. unfold is_byte in Hb.
  replace (8 * Z.of_nat (S (length bs))) with (8 + 8 * Z.of_nat (length bs)) by lia. rewrite Z.pow_add_r by lia. lia.
Qed.
