(* ===== verification/Addr.v ===== *)
(** * Addresses: alignment and the direct map ([kernel/src/addr.rs], and the
    conversions of [kernel/src/paging.rs]).

    Alignment checks, rounding up and down at 64 bits, the conversion of
    physical to higher-half virtual addresses and back, and the checked
    conversions to references, whose result is the virtual address the
    reference holds. *)
From S2P Require Import Prelude.
Set Default Goal Selector "!".

Inductive PagingError :=
  | InvalidAddress | AddressConversionFailed | GuardPageSetupFailed
  | PageTableInitFailed | AddressOutOfRange | FeatureNotSupported
  | ExistingMappingConflict.
#[export] Instance PagingError_eq_dec : EqDecision PagingError.
Proof. solve_decision. Defined.

Inductive AddressError := Null | Unaligned | OutOfRange | ConversionFailed.
#[export] Instance AddressError_eq_dec : EqDecision AddressError.
Proof. solve_decision. Defined.

(** [impl From<PagingError> for AddressError]. *)
Definition address_error_from (err : PagingError) : AddressError :=
  match err with
  | InvalidAddress => Null
  | AddressConversionFailed => ConversionFailed
  | _ => ConversionFailed
  end.

Definition KERNEL_VIRTUAL_BASE : Z := 0xFFFF800000000000.

Definition is_power_of_two (x : Z) : bool := (0 <? x) && (Z.land x (x - 1) =? 0).

(** [None] is the failed [debug_assert!] (or the overflow of [addr + align]). *)
Definition is_aligned (addr align : Z) : option bool :=
  if is_power_of_two align then Some (addr mod align =? 0) else None.

Definition align_up (addr align : Z) : option Z :=
  if is_power_of_two align then
    sum ← cadd 64 addr align; Some (Z.land (sum - 1) (bnot 64 (align - 1)))
  else None.

Definition align_down (addr align : Z) : option Z :=
  if is_power_of_two align then Some (Z.land addr (bnot 64 (align - 1))) else None.

Definition phys_to_virt (phys_addr : Z) : option (result Z PagingError) :=
  if phys_addr =? 0 then Some (Err InvalidAddress)
  else v ← cadd 64 phys_addr KERNEL_VIRTUAL_BASE; Some (Ok v).

(** [checked_sub] answers [None] below zero. *)
Definition virt_to_phys (virt_addr : Z) : result Z PagingError :=
  if virt_addr <? KERNEL_VIRTUAL_BASE then Err InvalidAddress
  else match csub virt_addr KERNEL_VIRTUAL_BASE with
       | Some p => Ok p
       | None => Err AddressConversionFailed
       end.

(** [phys_to_ref] and [phys_to_mut]: the address of the reference. *)
Definition phys_to_ref (phys_addr : Z) : option (result Z AddressError) :=
  if phys_addr =? 0 then Some (Err Null)
  else r ← phys_to_virt phys_addr;
       Some (match r with Ok v => Ok v | Err e => Err (address_error_from e) end).
Definition phys_to_mut (phys_addr : Z) : option (result Z AddressError) :=
  if phys_addr =? 0 then Some (Err Null)
  else r ← phys_to_virt phys_addr;
       Some (match r with Ok v => Ok v | Err e => Err (address_error_from e) end).

(** [virt_to_ref] and [virt_to_mut], for a type of alignment [align]. *)
Definition virt_to_ref (align virt_addr : Z) : option (result Z AddressError) :=
  if virt_addr =? 0 then Some (Err Null)
  else a ← is_aligned virt_addr align;
       Some (if negb a then Err Unaligned else Ok virt_addr).
Definition virt_to_mut (align virt_addr : Z) : option (result Z AddressError) :=
  if virt_addr =? 0 then Some (Err Null)
  else a ← is_aligned virt_addr align;
       Some (if negb a then Err Unaligned else Ok virt_addr).

(** ** Lemmas *)
Lemma is_power_of_two_pow2 n : 0 ≤ n → is_power_of_two (2 ^ n) = true.
Proof.
  intros Hn. unfold is_power_of_two.
  assert (0 < 2 ^ n) by lia.
  rewrite (proj2 (Z.ltb_lt _ _)) by done. apply Z.eqb_eq.
  replace (2 ^ n - 1) with (Z.ones n) by (rewrite Z.ones_equiv; lia).
  rewrite Z.land_ones, Z.mod_same by lia. done.
Qed.

(** The mask expression at [2^n] is rounding to a multiple of [2^n]. *)
Lemma mask_down_pow2 x n : 0 ≤ n ≤ 64 → is_u64 x →
  Z.land x (bnot 64 (2 ^ n - 1)) = x / 2 ^ n * 2 ^ n.
Proof. intros. by apply land_not_mask. Qed.

Lemma align_down_pow2 x n : 0 ≤ n ≤ 64 → is_u64 x → align_down x (2 ^ n) = Some (x / 2 ^ n * 2 ^ n).
Proof.
  intros. unfold align_down. rewrite is_power_of_two_pow2 by lia.
  by rewrite mask_down_pow2.
Qed.

Lemma align_up_pow2 x n : 0 ≤ n ≤ 64 → 0 ≤ x → x + 2 ^ n < 2 ^ 64 →
  align_up x (2 ^ n) = Some ((x + 2 ^ n - 1) / 2 ^ n * 2 ^ n).
Proof.
  intros. unfold align_up. rewrite is_power_of_two_pow2 by lia.
  rewrite cadd_some by lia. simpl. rewrite mask_down_pow2; [done|lia|].
  unfold is_u64. lia.
Qed.

Lemma phys_to_virt_ok p : 0 < p → p + KERNEL_VIRTUAL_BASE < 2 ^ 64 →
  phys_to_virt p = Some (Ok (p + KERNEL_VIRTUAL_BASE)).
Proof.
  intros. unfold phys_to_virt. rewrite (proj2 (Z.eqb_neq _ _)) by lia.
  by rewrite cadd_some.
Qed.

Lemma virt_to_phys_ok v : KERNEL_VIRTUAL_BASE ≤ v → virt_to_phys v = Ok (v - KERNEL_VIRTUAL_BASE).
Proof.
  intros. unfold virt_to_phys. rewrite (proj2 (Z.ltb_ge _ _)) by done.
  by rewrite csub_some.
Qed.
