(* ===== verification/Buddy.v ===== *)
(** * The buddy allocator: data and operations ([kernel/src/allocator.rs],
    [BuddyAllocator]).

    The free blocks are nodes of intrusive doubly linked lists, one list per
    order, kept in the memory the allocator hands out; a bitmap per order tells
    in O(1) whether a block is free.  The state is the memory and the
    allocator's static fields.  Orders are [nat] (array indices), addresses and
    sizes are 64-bit integers. *)
From S2P Require Import Prelude.
Set Default Goal Selector "!".

Definition MIN_BLOCK_SIZE : Z := 4096.
Definition MIN_BLOCK_SIZE_LOG2 : Z := 12.
Definition MAX_ORDER : nat := 13.
Definition MAX_BITMAP_WORDS : Z := 4096.

(** [Option<NonNull<_>>] is a nullable pointer: [None] is the word 0. *)
Abbreviation ptr := (option Z).
Definition ptr_enc (p : ptr) : Z := default 0 p.
Definition ptr_dec (w : Z) : ptr := if w =? 0 then None else Some w.
(** [NonNull::new]. *)
Definition nonnull_new (a : Z) : ptr := if a =? 0 then None else Some a.

(** Memory: the 64-bit words that were written. *)
Abbreviation memory := (gmap Z Z).

Record BuddyAllocator := mkBuddy {
  free_lists : list ptr;
  region_start : Z;
  region_size : Z;
  free_bitmaps : list (list Z);
}.

Record bstate := mkB { bmem : memory; buddy : BuddyAllocator }.

(** [core::alloc::Layout]. *)
Record Layout := mkLayout { lsize : Z; lalign : Z }.

(** ** Raw memory *)
(** A pointer that is dereferenced must be non-null and aligned. *)
Definition ptr_ok (a : Z) : bool := (0 <? a) && (a mod 8 =? 0).

Definition store (a w : Z) : M bstate unit :=
  assert_ (ptr_ok a) ;; modify (λ s, mkB (<[a := w]> (bmem s)) (buddy s)).

Definition load (a : Z) : M bstate Z :=
  assert_ (ptr_ok a) ;; m ← gets bmem; lift (m !! a).

(** [#[repr(C)] struct BuddyFreeNode { next, prev }]. *)
Definition node_next (node : Z) : Z := node.
Definition node_prev (node : Z) : Z := node + 8.

Definition load_ptr (a : Z) : M bstate ptr := w ← load a; mret (ptr_dec w).
Definition store_ptr (a : Z) (p : ptr) : M bstate unit := store a (ptr_enc p).

(** ** The static fields *)
Definition new : BuddyAllocator :=
  mkBuddy (replicate MAX_ORDER None) 0 0
    (replicate MAX_ORDER (replicate (Z.to_nat MAX_BITMAP_WORDS) 0)).

Definition set_free_list (order : nat) (p : ptr) : M bstate unit :=
  modify (λ s, mkB (bmem s) (mkBuddy (<[order := p]> (free_lists (buddy s)))
    (region_start (buddy s)) (region_size (buddy s)) (free_bitmaps (buddy s)))).

Definition get_free_list (order : nat) : M bstate ptr :=
  b ← gets buddy; lift (free_lists b !! order).

Definition set_region (start size : Z) : M bstate unit :=
  modify (λ s, mkB (bmem s) (mkBuddy (free_lists (buddy s)) start size (free_bitmaps (buddy s)))).

Definition set_bitmap (order : nat) (bm : list Z) : M bstate unit :=
  modify (λ s, mkB (bmem s) (mkBuddy (free_lists (buddy s)) (region_start (buddy s))
    (region_size (buddy s)) (<[order := bm]> (free_bitmaps (buddy s))))).

(** ** Sizes and orders *)
Definition order_to_size (order : nat) : Z := Z.shiftl MIN_BLOCK_SIZE (Z.of_nat order).

Definition size_to_order (size : Z) : nat :=
  if size <=? MIN_BLOCK_SIZE then 0%nat
  else let bits := 64 - leading_zeros 64 (size - 1) in
       Z.to_nat (saturating_sub bits MIN_BLOCK_SIZE_LOG2).

Definition max_order_for_size (size : Z) : nat :=
  if size <? MIN_BLOCK_SIZE then 0%nat
  else let bits := 64 - 1 - leading_zeros 64 size in
       Z.to_nat (saturating_sub bits MIN_BLOCK_SIZE_LOG2).

Definition buddy_address (addr : Z) (order : nat) : M bstate Z :=
  b ← gets buddy;
  let rs := region_start b in
  assert_ (rs <=? addr) ;;
  relative ← lift (csub addr rs);
  let buddy_relative := Z.lxor relative (order_to_size order) in
  lift (cadd 64 rs buddy_relative).

(** ** Bitmaps *)
Definition addr_to_bit_index (addr : Z) (order : nat) : M bstate Z :=
  b ← gets buddy;
  let rs := region_start b in
  assert_ (rs <=? addr) ;;
  d ← lift (csub addr rs);
  mret (Z.shiftr d (MIN_BLOCK_SIZE_LOG2 + Z.of_nat order)).

Definition mark_free (addr : Z) (order : nat) : M bstate unit :=
  index ← addr_to_bit_index addr order;
  let word_index := index / 64 in
  assert_ (word_index <? MAX_BITMAP_WORDS) ;;
  b ← gets buddy;
  bitmap ← lift (free_bitmaps b !! order);
  word ← lift (bitmap !! Z.to_nat word_index);
  set_bitmap order (<[Z.to_nat word_index := Z.lor word (Z.shiftl 1 (index mod 64))]> bitmap).

Definition unmark_free (addr : Z) (order : nat) : M bstate unit :=
  index ← addr_to_bit_index addr order;
  let word_index := index / 64 in
  assert_ (word_index <? MAX_BITMAP_WORDS) ;;
  b ← gets buddy;
  bitmap ← lift (free_bitmaps b !! order);
  word ← lift (bitmap !! Z.to_nat word_index);
  set_bitmap order
    (<[Z.to_nat word_index := Z.land word (bnot 64 (Z.shiftl 1 (index mod 64)))]> bitmap).

Definition is_free (addr : Z) (order : nat) : M bstate bool :=
  index ← addr_to_bit_index addr order;
  let word_index := index / 64 in
  assert_ (word_index <? MAX_BITMAP_WORDS) ;;
  b ← gets buddy;
  bitmap ← lift (free_bitmaps b !! order);
  word ← lift (bitmap !! Z.to_nat word_index);
  mret (negb (Z.land (Z.shiftr word (index mod 64)) 1 =? 0)).

(** ** Free lists *)
Definition add_to_free_list (addr : Z) (order : nat) : M bstate unit :=
  head ← get_free_list order;
  store_ptr (node_prev addr) None ;;
  store_ptr (node_next addr) head ;;
  (match head with
   | Some h => store_ptr (node_prev h) (nonnull_new addr)
   | None => mret tt
   end) ;;
  set_free_list order (nonnull_new addr) ;;
  mark_free addr order.

Definition remove_from_free_list (order : nat) : M bstate ptr :=
  free_list ← get_free_list order;
  match free_list with
  | Some head =>
      next ← load_ptr (node_next head);
      (match next with
       | Some next_node => store_ptr (node_prev next_node) None
       | None => mret tt
       end) ;;
      set_free_list order next ;;
      unmark_free head order ;;
      mret (Some head)
  | None => mret None
  end.

Definition remove_node_from_free_list (addr : Z) (order : nat) : M bstate unit :=
  prev ← load_ptr (node_prev addr);
  next ← load_ptr (node_next addr);
  (match prev with
   | Some prev_node => store_ptr (node_next prev_node) next
   | None => set_free_list order next
   end) ;;
  (match next with
   | Some next_node => store_ptr (node_prev next_node) prev
   | None => mret tt
   end) ;;
  unmark_free addr order.

(** The [while let Some(node)] of [count_free_blocks]; [fuel] bounds the
    number of nodes. *)
Fixpoint count_loop (fuel : nat) (current : ptr) (count : Z) : M bstate Z :=
  match current with
  | None => mret count
  | Some node =>
      match fuel with
      | O => panic
      | S fuel' =>
          next ← load_ptr (node_next node);
          count' ← lift (cadd 64 count 1);
          count_loop fuel' next count'
      end
  end.

Definition count_free_blocks (fuel : nat) (order : nat) : M bstate Z :=
  free_list ← get_free_list order;
  count_loop fuel free_list 0.

(** ** Initialisation *)
Definition align_up (addr align : Z) : option Z :=
  sum ← cadd 64 addr align; Some (Z.land (sum - 1) (bnot 64 (align - 1))).
Definition align_down (addr align : Z) : Z := Z.land addr (bnot 64 (align - 1)).

(** The order [init] chooses at [current] with [remaining] bytes to go. *)
Definition init_order (aligned_start current remaining : Z) : nat :=
  let max_order_by_size := Nat.min (max_order_for_size remaining) (MAX_ORDER - 1) in
  let relative := current - aligned_start in
  let max_order_by_align :=
    if relative =? 0 then (MAX_ORDER - 1)%nat
    else Z.to_nat (saturating_sub (trailing_zeros 64 relative) MIN_BLOCK_SIZE_LOG2) in
  Nat.min max_order_by_size max_order_by_align.

(** [while remaining >= MIN_BLOCK_SIZE]: each round takes at least
    [MIN_BLOCK_SIZE] off [remaining]. *)
Fixpoint init_loop (fuel : nat) (aligned_start current remaining : Z) : M bstate unit :=
  if remaining <? MIN_BLOCK_SIZE then mret tt else
  match fuel with
  | O => panic
  | S fuel' =>
      let order := init_order aligned_start current remaining in
      let block_size := order_to_size order in
      add_to_free_list current order ;;
      current' ← lift (cadd 64 current block_size);
      remaining' ← lift (csub remaining block_size);
      init_loop fuel' aligned_start current' remaining'
  end.

Definition init (rstart rsize : Z) : M bstate unit :=
  aligned_start ← lift (align_up rstart MIN_BLOCK_SIZE);
  rend ← lift (cadd 64 rstart rsize);
  let aligned_end := align_down rend MIN_BLOCK_SIZE in
  let aligned_size := saturating_sub aligned_end aligned_start in
  set_region aligned_start aligned_size ;;
  let fuel := Z.to_nat (aligned_size / MIN_BLOCK_SIZE) in
  init_loop fuel aligned_start aligned_start aligned_size ;;
  for_each (seq 0 MAX_ORDER) (λ order, count_free_blocks fuel order ;; mret tt).

(** ** Allocation *)
(** [for order in required_order..MAX_ORDER]: the first non-empty list. *)
Definition find_order (lists : list ptr) (required_order : nat) : option nat :=
  List.find (λ order, match lists !! order with Some (Some _) => true | _ => false end)
    (seq required_order (MAX_ORDER - required_order)).

Definition block_request (layout : Layout) : Z :=
  Z.max (Z.max (lsize layout) (lalign layout)) MIN_BLOCK_SIZE.

Definition allocate (layout : Layout) : M bstate ptr :=
  let required_order := size_to_order (block_request layout) in
  if (MAX_ORDER <=? required_order)%nat then mret None else
  b ← gets buddy;
  match find_order (free_lists b) required_order with
  | None => mret None
  | Some found_order =>
      block ← remove_from_free_list found_order;
      match block with
      | None => mret None
      | Some block_addr =>
          for_each (rev (seq required_order (found_order - required_order)))
            (λ order,
               buddy_addr ← lift (cadd 64 block_addr (order_to_size order));
               add_to_free_list buddy_addr order) ;;
          mret (Some block_addr)
      end
  end.

(** ** Deallocation *)
(** [while order < MAX_ORDER - 1]: merge with the buddy while it is free. *)
Fixpoint merge_loop (fuel : nat) (rstart rend : Z) (block_addr : Z) (order : nat)
    : M bstate (Z * nat) :=
  if negb (order <? MAX_ORDER - 1)%nat then mret (block_addr, order) else
  match fuel with
  | O => panic
  | S fuel' =>
      buddy_addr ← buddy_address block_addr order;
      if (buddy_addr <? rstart) || (rend <=? buddy_addr)
      then mret (block_addr, order) else
      free ← is_free buddy_addr order;
      if negb free then mret (block_addr, order) else
      remove_node_from_free_list buddy_addr order ;;
      merge_loop fuel' rstart rend (Z.min block_addr buddy_addr) (S order)
  end.

Definition deallocate (p : Z) (layout : Layout) : M bstate unit :=
  let order := size_to_order (block_request layout) in
  b ← gets buddy;
  region_end ← lift (cadd 64 (region_start b) (region_size b));
  '(block_addr, order') ← merge_loop MAX_ORDER (region_start b) region_end p order;
  add_to_free_list block_addr order'.
