(* ===== verification/BuddyBlocks.v ===== *)
(** * The buddy allocator: arithmetic of orders, sizes and buddies; the free
    blocks, abstractly. *)
From S2P Require Import Prelude Buddy.
Set Default Goal Selector "!".

(** ** The buddy allocator: arithmetic of orders, sizes and buddies.

    Facts about [order_to_size], [size_to_order], [max_order_for_size], the
    trailing zeros of an offset and the XOR that names a block's buddy. *)
(** Bytes of a block of order [o]. *)
Definition bsize (o : nat) : Z := 2 ^ (12 + Z.of_nat o).

(** The buddy of the block at offset [d] from the region. *)
Definition buddy_off (d : Z) (o : nat) : Z := Z.lxor d (bsize o).

Lemma bsize_pos o : 0 < bsize o.
Proof. unfold bsize. lia. Qed.
Lemma bsize_S o : bsize (S o) = 2 * bsize o.
Proof. unfold bsize. rewrite <-Z.pow_succ_r by lia. f_equal. lia. Qed.
Lemma bsize_0 : bsize 0 = 4096.
Proof. done. Qed.
Lemma bsize_mono o o' : (o ≤ o')%nat → bsize o ≤ bsize o'.
Proof. intros. unfold bsize. apply Z.pow_le_mono_r; lia. Qed.
Lemma bsize_mono_lt o o' : (o < o')%nat → 2 * bsize o ≤ bsize o'.
Proof. intros. rewrite <-bsize_S. apply bsize_mono. lia. Qed.
Lemma bsize_ge o : 4096 ≤ bsize o.
Proof. rewrite <-bsize_0. apply bsize_mono. lia. Qed.
Lemma bsize_div o o' : (o ≤ o')%nat → (bsize o | bsize o').
Proof.
  intros. unfold bsize. exists (2 ^ (Z.of_nat (o' - o))).
  rewrite <-Z.pow_add_r by lia. f_equal. lia.
Qed.
Lemma bsize_4096 o : (4096 | bsize o).
Proof. rewrite <-bsize_0. apply bsize_div. lia. Qed.
Lemma bsize_bound o : (o < MAX_ORDER)%nat → bsize o ≤ 2 ^ 24.
Proof. intros. unfold MAX_ORDER in *. change (2^24) with (bsize 12). apply bsize_mono. lia. Qed.

Create HintDb buddy.
#[export] Hint Resolve bsize_pos bsize_ge bsize_4096 : buddy.

Lemma order_to_size_bsize o : order_to_size o = bsize o.
Proof.
  unfold order_to_size, MIN_BLOCK_SIZE, bsize. rewrite Z.shiftl_mul_pow2 by lia.
  rewrite Z.pow_add_r by lia. done.
Qed.

(** [bit_length] brackets its argument. *)
Lemma bit_length_spec x : 0 < x → 2 ^ (bit_length x - 1) ≤ x < 2 ^ bit_length x.
Proof.
  intros. unfold bit_length. rewrite (proj2 (Z.eqb_neq _ _)) by lia.
  pose proof (Z.log2_spec x ltac:(lia)).
  replace (Z.log2 x + 1 - 1) with (Z.log2 x) by lia.
  replace (Z.log2 x + 1) with (Z.succ (Z.log2 x)) by lia. lia.
Qed.

Lemma bit_length_ge x n : 0 ≤ n → 2 ^ n ≤ x → n < bit_length x.
Proof.
  intros. assert (0 < 2 ^ n) by lia.
  pose proof (bit_length_spec x ltac:(lia)).
  apply (Z.pow_lt_mono_r_iff 2); [lia| |lia].
  unfold bit_length. case_match; [lia|]. pose proof (Z.log2_nonneg x). lia.
Qed.

(** [size_to_order] is the least order whose block holds [size] bytes. *)
Lemma size_to_order_fits size : 0 ≤ size → size ≤ bsize (size_to_order size).
Proof.
  intros Hs. unfold size_to_order, MIN_BLOCK_SIZE, MIN_BLOCK_SIZE_LOG2.
  destruct (Z.leb_spec size 4096); [rewrite bsize_0; lia|].
  pose proof (bit_length_spec (size - 1) ltac:(lia)).
  pose proof (bit_length_ge (size - 1) 12 ltac:(lia) ltac:(lia)).
  unfold leading_zeros, saturating_sub, bsize.
  replace (12 + Z.of_nat _) with (bit_length (size - 1)) by lia. lia.
Qed.

Lemma size_to_order_least size o : size ≤ bsize o → (size_to_order size ≤ o)%nat.
Proof.
  intros Hs. unfold size_to_order, MIN_BLOCK_SIZE, MIN_BLOCK_SIZE_LOG2.
  destruct (Z.leb_spec size 4096); [lia|].
  pose proof (bit_length_spec (size - 1) ltac:(lia)).
  assert (bit_length (size - 1) - 1 < 12 + Z.of_nat o).
  { apply (Z.pow_lt_mono_r_iff 2); [lia|lia|]. unfold bsize in Hs. lia. }
  unfold leading_zeros, saturating_sub. lia.
Qed.

Lemma max_order_for_size_spec size : 4096 ≤ size →
  bsize (max_order_for_size size) ≤ size < bsize (S (max_order_for_size size)).
Proof.
  intros Hs. unfold max_order_for_size, MIN_BLOCK_SIZE, MIN_BLOCK_SIZE_LOG2.
  rewrite (proj2 (Z.ltb_ge _ _)) by lia.
  pose proof (bit_length_spec size ltac:(lia)).
  pose proof (bit_length_ge size 12 ltac:(lia) ltac:(lia)).
  unfold leading_zeros, saturating_sub, bsize.
  replace (12 + Z.of_nat (Z.to_nat _)) with (bit_length size - 1) by lia.
  replace (12 + Z.of_nat (S (Z.to_nat _))) with (bit_length size) by lia. lia.
Qed.

(** Trailing zeros of a positive number. *)
Lemma trailing_zeros_pos_spec p :
  0 ≤ trailing_zeros_pos p ∧ ∃ k, Zpos p = (2 * k + 1) * 2 ^ trailing_zeros_pos p.
Proof.
  induction p as [p IH|p IH|]; cbn [trailing_zeros_pos].
  - split; [lia|]. exists (Zpos p). rewrite Pos2Z.inj_xI. lia.
  - destruct IH as [Hn [k Hk]]. split; [lia|]. exists k.
    rewrite Pos2Z.inj_xO, Hk, Z.pow_add_r by lia. lia.
  - split; [lia|]. by exists 0.
Qed.

Lemma trailing_zeros_divide d n : 0 < d → 0 ≤ n → (2 ^ n | d) ↔ n ≤ trailing_zeros 64 d.
Proof.
  intros Hd Hn. destruct d as [|p|p]; [lia| |lia]. simpl.
  destruct (trailing_zeros_pos_spec p) as [Ht [k Hk]].
  set (t := trailing_zeros_pos p) in *. split.
  - intros [q Hq]. destruct (Z.le_gt_cases n t) as [|Hgt]; [done|]. exfalso.
    rewrite Hk in Hq. replace n with ((n - t - 1) + 1 + t) in Hq by lia.
    rewrite !Z.pow_add_r in Hq by lia.
    assert (2 * k + 1 = q * (2 ^ (n - t - 1) * 2)); [|lia].
    apply (Z.mul_cancel_r _ _ (2 ^ t)); lia.
  - intros Hle. exists ((2 * k + 1) * 2 ^ (t - n)). rewrite Hk.
    rewrite <-Z.mul_assoc, <-Z.pow_add_r by lia. f_equal. f_equal. lia.
Qed.

(** ** Buddies *)
Lemma lxor_one k : Z.lxor k 1 = if Z.even k then k + 1 else k - 1.
Proof.
  destruct (Z.even k) eqn:He.
  - apply Z.even_spec in He as [m ->].
    rewrite <-Z.add_nocarry_lxor; [done|].
    apply Z.bits_inj'. intros i Hi. rewrite Z.land_spec, Z.bits_0.
    destruct (decide (i = 0)) as [->|]; [by rewrite Z.testbit_even_0|].
    change 1 with (Z.ones 1). rewrite Z.ones_spec_high by lia. apply andb_false_r.
  - assert (Ho : Z.odd k = true) by (rewrite <-Z.negb_even, He; done).
    apply Z.odd_spec in Ho as [m ->].
    rewrite (Z.add_nocarry_lxor (2 * m) 1).
    + rewrite Z.lxor_assoc, Z.lxor_nilpotent, Z.lxor_0_r.
      rewrite <-Z.add_nocarry_lxor; [lia|].
      apply Z.bits_inj'. intros i Hi. rewrite Z.land_spec, Z.bits_0.
      destruct (decide (i = 0)) as [->|]; [by rewrite Z.testbit_even_0|].
      change 1 with (Z.ones 1). rewrite Z.ones_spec_high by lia. apply andb_false_r.
    + apply Z.bits_inj'. intros i Hi. rewrite Z.land_spec, Z.bits_0.
      destruct (decide (i = 0)) as [->|]; [by rewrite Z.testbit_even_0|].
      change 1 with (Z.ones 1). rewrite Z.ones_spec_high by lia. apply andb_false_r.
Qed.

Lemma buddy_off_mul k o :
  buddy_off (k * bsize o) o = (if Z.even k then k + 1 else k - 1) * bsize o.
Proof.
  unfold buddy_off, bsize. set (n := 12 + Z.of_nat o).
  rewrite <-(Z.mul_1_l (2 ^ n)) at 2.
  rewrite <-!Z.shiftl_mul_pow2 by lia.
  rewrite <-Z.shiftl_lxor, lxor_one. done.
Qed.

(** The buddy of an aligned block is the other half of the block one order up. *)
Lemma buddy_off_cases d o : (bsize o | d) →
  (bsize (S o) | d) ∧ buddy_off d o = d + bsize o ∨
  (bsize (S o) | d - bsize o) ∧ buddy_off d o = d - bsize o.
Proof.
  intros [k ->]. rewrite buddy_off_mul, bsize_S. destruct (Z.even k) eqn:He.
  - left. apply Z.even_spec in He as [m ->]. split; [exists m|]; lia.
  - right. assert (Ho : Z.odd k = true) by (rewrite <-Z.negb_even, He; done).
    apply Z.odd_spec in Ho as [m ->]. split; [exists m|]; lia.
Qed.

Lemma buddy_off_invol d o : (bsize o | d) → buddy_off (buddy_off d o) o = d.
Proof. intros _. unfold buddy_off. rewrite Z.lxor_assoc, Z.lxor_nilpotent. apply Z.lxor_0_r. Qed.

Lemma buddy_off_aligned d o : (bsize o | d) → (bsize o | buddy_off d o).
Proof.
  intros Hd. destruct (buddy_off_cases d o Hd) as [[_ ->]|[_ ->]].
  - apply Z.divide_add_r; [done|apply Z.divide_refl].
  - apply Z.divide_sub_r; [done|apply Z.divide_refl].
Qed.

(** ** The buddy allocator: the free blocks, abstractly.

    The abstract state is the contents of the free lists, [FL : nat → list Z].
    This file states when such a state is well formed (blocks aligned to their
    size, inside the region, pairwise disjoint), what bytes it covers, when it
    is fully coalesced (no two free buddies), and how pushing, removing,
    splitting and merging blocks act on these; and it proves that a coalesced
    state is determined by the bytes it covers. *)
Section blocks.
Context (rs sz : Z).
Implicit Types (FL : nat → list Z) (a x p : Z) (o k : nat).

Definition block_ok a o : Prop :=
  (o < MAX_ORDER)%nat ∧ rs ≤ a ∧ (bsize o | a - rs) ∧ a + bsize o ≤ rs + sz.

Definition free FL o a : Prop := (o < MAX_ORDER)%nat ∧ a ∈ FL o.

Definition disjoint_blocks a o a' o' : Prop := a + bsize o ≤ a' ∨ a' + bsize o' ≤ a.

Definition in_block a o p : Prop := a ≤ p < a + bsize o.

(** The bytes of the free blocks. *)
Definition covers FL p : Prop := ∃ o a, free FL o a ∧ in_block a o p.

(** The buddy, as an address. *)
Definition buddy_of a o : Z := rs + buddy_off (a - rs) o.

Record wf FL : Prop := {
  wf_ok : ∀ o a, free FL o a → block_ok a o;
  wf_disj : ∀ o o' a a', free FL o a → free FL o' a' →
    (o = o' ∧ a = a') ∨ disjoint_blocks a o a' o';
  wf_nodup : ∀ o, (o < MAX_ORDER)%nat → NoDup (FL o);
}.

(** A valid block none of whose bytes is free. *)
Definition hole FL a o : Prop :=
  block_ok a o ∧ ∀ o' a', free FL o' a' → disjoint_blocks a o a' o'.

(** No block is free together with its buddy. *)
Definition coalesced FL : Prop :=
  ∀ o a, (o < MAX_ORDER - 1)%nat → free FL o a → ¬ free FL o (buddy_of a o).

(** ** Alignment *)
(** Aligned blocks are nested or disjoint. *)
Lemma nested d d' o o' : (o ≤ o')%nat → (bsize o | d) → (bsize o' | d') →
  (d' ≤ d ∧ d + bsize o ≤ d' + bsize o') ∨ d + bsize o ≤ d' ∨ d' + bsize o' ≤ d.
Proof.
  intros Ho [k ->] [k' ->]. destruct (bsize_div o o' Ho) as [c Hc].
  rewrite Hc. pose proof (bsize_pos o) as Hb. set (b := bsize o) in *.
  assert (k < k' * c ∨ k' * c + c ≤ k ∨ (k' * c ≤ k ∧ k + 1 ≤ k' * c + c)) as [H|[H|[H1 H2]]] by lia.
  - right; left. assert ((k + 1) * b ≤ k' * c * b) by (apply Z.mul_le_mono_nonneg_r; lia). lia.
  - right; right. assert ((k' * c + c) * b ≤ k * b) by (apply Z.mul_le_mono_nonneg_r; lia). lia.
  - left. assert (k' * c * b ≤ k * b) by (apply Z.mul_le_mono_nonneg_r; lia).
    assert ((k + 1) * b ≤ (k' * c + c) * b) by (apply Z.mul_le_mono_nonneg_r; lia). lia.
Qed.

(** Two valid blocks sharing a byte are nested. *)
Lemma blocks_nested a o a' o' p : (o ≤ o')%nat → block_ok a o → block_ok a' o' →
  in_block a o p → in_block a' o' p → a' ≤ a ∧ a + bsize o ≤ a' + bsize o'.
Proof.
  intros Ho (_ & _ & Hd & _) (_ & _ & Hd' & _) Hp Hp'. unfold in_block in *.
  destruct (nested (a - rs) (a' - rs) o o' Ho Hd Hd') as [?|[?|?]]; lia.
Qed.

Lemma block_ok_page a o : block_ok a o → (4096 | rs) → (4096 | a).
Proof.
  intros (_ & _ & Hd & _) Hr. replace a with ((a - rs) + rs) by lia.
  apply Z.divide_add_r; [|done]. eapply Z.divide_trans; [apply bsize_4096|done].
Qed.

Lemma buddy_of_cases a o : block_ok a o →
  (bsize (S o) | a - rs) ∧ buddy_of a o = a + bsize o ∨
  (bsize (S o) | buddy_of a o - rs) ∧ buddy_of a o = a - bsize o.
Proof.
  intros (_ & _ & Hd & _). unfold buddy_of.
  destruct (buddy_off_cases (a - rs) o Hd) as [[H Heq]|[H Heq]]; rewrite Heq; [left|right].
  - split; [done|lia].
  - replace (rs + (a - rs - bsize o) - rs) with (a - rs - bsize o) by lia. split; [done|lia].
Qed.

Lemma buddy_of_invol a o : block_ok a o → buddy_of (buddy_of a o) o = a.
Proof.
  intros (_ & _ & Hd & _). unfold buddy_of.
  replace (rs + buddy_off (a - rs) o - rs) with (buddy_off (a - rs) o) by lia.
  rewrite buddy_off_invol by done. lia.
Qed.

(** ** Updates of one list *)
Lemma free_insert FL o l o' a :
  free (<[o:=l]> FL) o' a ↔ (o' < MAX_ORDER)%nat ∧ (if decide (o = o') then a ∈ l else a ∈ FL o').
Proof.
  unfold free. case_decide as H.
  - subst. by rewrite fn_lookup_insert.
  - by rewrite fn_lookup_insert_ne.
Qed.

Lemma free_push FL o b o' a : free (<[o:=b :: FL o]> FL) o' a ↔
  free FL o' a ∨ ((o < MAX_ORDER)%nat ∧ o' = o ∧ a = b).
Proof.
  rewrite free_insert. unfold free. case_decide; subst; rewrite ?elem_of_cons; naive_solver.
Qed.

(** Replacing a list by one without [b] (and otherwise the same elements). *)
Lemma free_drop FL o b l o' a : (∀ y, y ∈ l ↔ y ∈ FL o ∧ y ≠ b) →
  free (<[o:=l]> FL) o' a ↔ free FL o' a ∧ ¬ (o' = o ∧ a = b).
Proof.
  intros Hl. rewrite free_insert. unfold free.
  case_decide; subst; [rewrite Hl|]; naive_solver.
Qed.

Lemma covers_push FL o b p : (o < MAX_ORDER)%nat →
  covers (<[o:=b :: FL o]> FL) p ↔ covers FL p ∨ in_block b o p.
Proof.
  intros Ho. unfold covers. setoid_rewrite free_push. naive_solver.
Qed.

Lemma hole_not_covered FL a o p : hole FL a o → in_block a o p → ¬ covers FL p.
Proof.
  intros [_ Hd] Hp (o' & a' & Hf & Hp'). specialize (Hd _ _ Hf).
  unfold disjoint_blocks, in_block in *. lia.
Qed.

Lemma hole_not_free FL a o o' : hole FL a o → ¬ free FL o' a.
Proof.
  intros [_ Hd] Hf. specialize (Hd _ _ Hf). unfold disjoint_blocks in Hd.
  pose proof (bsize_pos o). pose proof (bsize_pos o'). lia.
Qed.

Lemma wf_push FL a o : wf FL → hole FL a o → wf (<[o:=a :: FL o]> FL).
Proof.
  intros Hwf Hh. pose proof (proj1 (proj1 Hh)) as Ho. split.
  - intros o' x. rewrite free_push. intros [Hf|(_ & -> & ->)].
    + by apply (wf_ok FL Hwf).
    + apply Hh.
  - intros o1 o2 x1 x2. rewrite !free_push.
    intros [H1|(_ & -> & ->)] [H2|(_ & -> & ->)]; [by apply (wf_disj FL Hwf)| | |by left].
    + right. destruct (proj2 Hh _ _ H1); [right|left]; done.
    + right. by apply (proj2 Hh).
  - intros o' Ho'. destruct (decide (o = o')) as [<-|].
    + rewrite fn_lookup_insert. apply list.NoDup_cons. split; [|by apply (wf_nodup FL Hwf)].
      intros Hin. by apply (hole_not_free FL a o o Hh).
    + rewrite fn_lookup_insert_ne by done. by apply (wf_nodup FL Hwf).
Qed.

Lemma wf_drop FL o b l : wf FL → (∀ y, y ∈ l ↔ y ∈ FL o ∧ y ≠ b) → NoDup l →
  wf (<[o:=l]> FL).
Proof.
  intros Hwf Hl Hnd. split.
  - intros o' x. rewrite (free_drop FL o b l) by done. intros [Hf _]. by apply (wf_ok FL Hwf).
  - intros o1 o2 x1 x2. rewrite !(free_drop FL o b l) by done. intros [H1 _] [H2 _].
    by apply (wf_disj FL Hwf).
  - intros o' Ho'. destruct (decide (o = o')) as [<-|].
    + by rewrite fn_lookup_insert.
    + rewrite fn_lookup_insert_ne by done. by apply (wf_nodup FL Hwf).
Qed.

(** A block taken out of its list leaves a hole. *)
Lemma hole_drop FL o b l : wf FL → free FL o b → (∀ y, y ∈ l ↔ y ∈ FL o ∧ y ≠ b) →
  hole (<[o:=l]> FL) b o.
Proof.
  intros Hwf Hf Hl. split; [by apply (wf_ok FL Hwf)|].
  intros o' x. rewrite (free_drop FL o b l) by done. intros [Hx Hne].
  destruct (wf_disj FL Hwf _ _ _ _ Hf Hx) as [[-> ->]|?]; [|done].
  destruct Hne. done.
Qed.

Lemma covers_drop FL o b l p : wf FL → free FL o b → (∀ y, y ∈ l ↔ y ∈ FL o ∧ y ≠ b) →
  covers FL p ↔ covers (<[o:=l]> FL) p ∨ in_block b o p.
Proof.
  intros Hwf Hf Hl. unfold covers. setoid_rewrite (free_drop FL o b l); [|done].
  split.
  - intros (o' & x & Hx & Hp). destruct (decide (o' = o ∧ x = b)) as [[-> ->]|]; [by right|].
    left. exists o', x. naive_solver.
  - intros [(o' & x & [Hx _] & Hp)|Hp]; [by exists o', x|by exists o, b].
Qed.

Lemma coalesced_drop FL o b l : coalesced FL → (∀ y, y ∈ l ↔ y ∈ FL o ∧ y ≠ b) →
  coalesced (<[o:=l]> FL).
Proof.
  intros Hc Hl o' x Ho'. rewrite !(free_drop FL o b l) by done.
  intros [Hx _] [Hx' _]. by apply (Hc o' x Ho').
Qed.

(** Pushing a block whose buddy is not free keeps the state coalesced. *)
Lemma coalesced_push FL a o : wf FL → hole FL a o → coalesced FL →
  (o < MAX_ORDER - 1 → ¬ free FL o (buddy_of a o))%nat →
  coalesced (<[o:=a :: FL o]> FL).
Proof.
  intros Hwf Hh Hc Hb o' x Ho'. rewrite !free_push.
  assert (Hneq : ∀ y o1, block_ok y o1 → buddy_of y o1 ≠ y).
  { intros y o1 Hok. pose proof (bsize_pos o1). destruct (buddy_of_cases y o1 Hok) as [[_ ?]|[_ ?]]; lia. }
  intros [Hx|(_ & -> & ->)] [Hy|(_ & Heq & Hy)].
  - by apply (Hc o' x).
  - subst o'. apply Hb; [done|]. rewrite <-Hy, buddy_of_invol; [done|by apply (wf_ok FL Hwf)].
  - by apply Hb.
  - by eapply (Hneq a o); [apply Hh|].
Qed.

(** ** Splitting *)
(** The right half of a hole can be freed; the left half is a hole. *)
Lemma hole_split FL a k : wf FL → hole FL a (S k) →
  hole FL (a + bsize k) k ∧
  hole (<[k:=(a + bsize k) :: FL k]> FL) a k.
Proof.
  intros Hwf [(Ho & Hrs & Hd & Hend) Hdisj].
  pose proof (bsize_S k) as Hb. pose proof (bsize_pos k) as Hpos.
  assert (Hdk : (bsize k | a - rs)) by (eapply Z.divide_trans; [apply (bsize_div k (S k)); lia|done]).
  assert (Hright : hole FL (a + bsize k) k).
  { split.
    - repeat split; [lia|lia| |lia].
      replace (a + bsize k - rs) with (a - rs + bsize k) by lia.
      apply Z.divide_add_r; [done|apply Z.divide_refl].
    - intros o' x Hx. specialize (Hdisj _ _ Hx). unfold disjoint_blocks in *.
      pose proof (bsize_pos o'). lia. }
  split; [done|]. split; [repeat split; [lia|lia|done|lia]|].
  intros o' x. rewrite free_push. intros [Hx|(_ & -> & ->)].
  - specialize (Hdisj _ _ Hx). unfold disjoint_blocks in *. lia.
  - unfold disjoint_blocks. lia.
Qed.

(** ** Merging *)
(** A hole and its free buddy make the hole one order up. *)
Lemma hole_merge FL a o l : wf FL → hole FL a o → (o < MAX_ORDER - 1)%nat →
  free FL o (buddy_of a o) →
  (∀ y, y ∈ l ↔ y ∈ FL o ∧ y ≠ buddy_of a o) →
  hole (<[o:=l]> FL) (Z.min a (buddy_of a o)) (S o) ∧
  (∀ p, in_block (Z.min a (buddy_of a o)) (S o) p ↔
        in_block a o p ∨ in_block (buddy_of a o) o p).
Proof.
  intros Hwf Hh Ho Hf Hl. pose proof (bsize_S o) as Hb. pose proof (bsize_pos o) as Hpos.
  pose proof (hole_drop FL o _ l Hwf Hf Hl) as Hh'.
  destruct (proj1 Hh) as (_ & Hrs & Hd & Hend).
  destruct (wf_ok FL Hwf _ _ Hf) as (_ & Hrs' & Hd' & Hend').
  assert (Hin : ∀ p, in_block (Z.min a (buddy_of a o)) (S o) p ↔
        in_block a o p ∨ in_block (buddy_of a o) o p).
  { intros p. unfold in_block. destruct (buddy_of_cases a o (proj1 Hh)) as [[_ He]|[_ He]]; lia. }
  split; [|done]. split.
  - unfold block_ok, MAX_ORDER in *. repeat split; [lia|lia| |].
    + destruct (buddy_of_cases a o (proj1 Hh)) as [[H He]|[H He]].
      * by replace (Z.min a (buddy_of a o)) with a by lia.
      * by replace (Z.min a (buddy_of a o)) with (buddy_of a o) by lia.
    + destruct (buddy_of_cases a o (proj1 Hh)) as [[H He]|[H He]]; lia.
  - intros o' x Hx. pose proof (proj2 Hh' _ _ Hx) as H1.
    apply (free_drop FL o (buddy_of a o) l) in Hx; [|done].
    pose proof (proj2 Hh _ _ (proj1 Hx)) as H2. unfold disjoint_blocks in *.
    pose proof (bsize_pos o').
    destruct (buddy_of_cases a o (proj1 Hh)) as [[_ He]|[_ He]].
    + rewrite He in *. lia.
    + rewrite He in *. lia.
Qed.

(** ** Canonicity *)
(** A block whose bytes are all free lies in one free block. *)
Lemma coalesced_block_contained FL k B : wf FL → coalesced FL → block_ok B k →
  (∀ p, in_block B k p → covers FL p) →
  ∃ o a, free FL o a ∧ (k ≤ o)%nat ∧ a ≤ B ∧ B + bsize k ≤ a + bsize o.
Proof.
  intros Hwf Hc. revert B. induction k as [|k IH]; intros B Hok Hcov.
  - pose proof (bsize_pos 0).
    destruct (Hcov B) as (o & a & Hf & Hp); [unfold in_block; lia|].
    exists o, a. split; [done|]. split; [lia|].
    apply (blocks_nested B 0 a o B); [lia|done|by apply (wf_ok FL Hwf)|unfold in_block; lia|done].
  - pose proof (bsize_S k) as Hb. pose proof (bsize_pos k) as Hpos.
    destruct Hok as (Ho & Hrs & Hd & Hend).
    assert (Hdk : (bsize k | B - rs)) by (eapply Z.divide_trans; [apply (bsize_div k (S k)); lia|done]).
    assert (HokL : block_ok B k) by (repeat split; [lia|done|done|lia]).
    assert (HokR : block_ok (B + bsize k) k).
    { repeat split; [lia|lia| |lia]. replace (B + bsize k - rs) with (B - rs + bsize k) by lia.
      apply Z.divide_add_r; [done|apply Z.divide_refl]. }
    destruct (IH B HokL) as (o1 & a1 & Hf1 & Hk1 & Ha1 & He1).
    { intros p Hp. apply Hcov. unfold in_block in *. lia. }
    destruct (IH _ HokR) as (o2 & a2 & Hf2 & Hk2 & Ha2 & He2).
    { intros p Hp. apply Hcov. unfold in_block in *. lia. }
    assert (Hup : ∀ o a q, free FL o a → (S k ≤ o)%nat → in_block B (S k) q → in_block a o q →
      ∃ o a, free FL o a ∧ (S k ≤ o)%nat ∧ a ≤ B ∧ B + bsize (S k) ≤ a + bsize o).
    { intros o a q Hf Hle Hq Hq'. exists o, a. do 2 (split; [done|]).
      eapply (blocks_nested B (S k) a o q); [lia|by repeat split|by apply (wf_ok FL Hwf)|done|done]. }
    destruct (decide (S k ≤ o1)%nat); [eapply (Hup o1 a1 B); unfold in_block; [done|done|lia|lia]|].
    destruct (decide (S k ≤ o2)%nat); [eapply (Hup o2 a2 (B + bsize k)); unfold in_block; [done|done|lia|lia]|].
    assert (o1 = k) as -> by lia. assert (o2 = k) as -> by lia.
    assert (a1 = B) as -> by lia. assert (a2 = B + bsize k) as -> by lia.
    exfalso. apply (Hc k B); [lia|done|].
    destruct (buddy_of_cases B k HokL) as [[_ ->]|[Hd' Heq]]; [done|].
    exfalso. rewrite Heq in Hd'. replace (B - bsize k - rs) with ((B - rs) - bsize k) in Hd' by lia.
    destruct Hd as [u Hu], Hd' as [v Hv]. rewrite Hu, Hb in Hv.
    assert ((2 * u - 1 - 2 * v) * bsize k = 0) as [?|?]%Z.mul_eq_0 by lia; lia.
Qed.

(** Coalesced states with the same free bytes have the same free blocks. *)
Lemma coalesced_unique FL1 FL2 : wf FL1 → wf FL2 → coalesced FL1 → coalesced FL2 →
  (∀ p, covers FL1 p ↔ covers FL2 p) → ∀ o a, free FL1 o a → free FL2 o a.
Proof.
  intros Hwf1 Hwf2 Hc1 Hc2 Hcov o a Hf.
  pose proof (wf_ok FL1 Hwf1 _ _ Hf) as Hok. pose proof (bsize_pos o).
  destruct (coalesced_block_contained FL2 o a Hwf2 Hc2 Hok) as (o2 & a2 & Hf2 & Ho2 & Ha2 & He2).
  { intros p Hp. apply Hcov. by exists o, a. }
  destruct (coalesced_block_contained FL1 o2 a2 Hwf1 Hc1 (wf_ok FL2 Hwf2 _ _ Hf2))
    as (o1 & a1 & Hf1 & Ho1 & Ha1 & He1).
  { intros p Hp. apply Hcov. by exists o2, a2. }
  destruct (wf_disj FL1 Hwf1 _ _ _ _ Hf Hf1) as [[-> ->]|Hd].
  - assert (o2 = o1) as -> by lia. by assert (a2 = a1) as -> by lia.
  - exfalso. unfold disjoint_blocks in Hd. pose proof (bsize_pos o1). pose proof (bsize_mono o o1 ltac:(lia)). lia.
Qed.

Lemma coalesced_perm FL1 FL2 : wf FL1 → wf FL2 → coalesced FL1 → coalesced FL2 →
  (∀ p, covers FL1 p ↔ covers FL2 p) → ∀ o, (o < MAX_ORDER)%nat → FL1 o ≡ₚ FL2 o.
Proof.
  intros Hwf1 Hwf2 Hc1 Hc2 Hcov o Ho.
  apply list.NoDup_Permutation; [by apply (wf_nodup FL1)|by apply (wf_nodup FL2)|].
  intros x. split; intros Hx.
  - by apply (coalesced_unique FL1 FL2 Hwf1 Hwf2 Hc1 Hc2 Hcov o x).
  - apply (coalesced_unique FL2 FL1 Hwf2 Hwf1 Hc2 Hc1 (λ p, iff_sym (Hcov p)) o x). done.
Qed.
End blocks.
