(* ===== verification/BuddyRepr.v ===== *)
(** * The buddy allocator: the representation in memory, and the list and bitmap
    primitives on it. *)
From S2P Require Import Prelude Buddy BuddyBlocks.
Set Default Goal Selector "!".

(** ** The buddy allocator: the representation in memory.

    [brepr rs sz FL s] says that the memory and static fields [s] of the
    allocator represent the abstract free lists [FL] of the region
    [[rs, rs + sz)]: each list is a doubly linked list through the blocks'
    first two words, and each bitmap has exactly the bits of the free blocks.
    The file proves what the list and bitmap primitives do to it. *)
(** ** Doubly linked segments *)
(** The first node of [l ++ ...], where [t] follows [l]. *)
Definition hd_ptr (l : list Z) (t : ptr) : ptr := match l with [] => t | a :: _ => Some a end.
(** The last node of [l], where [p] precedes [l]. *)
Fixpoint last_ptr (p : ptr) (l : list Z) : ptr :=
  match l with [] => p | a :: l' => last_ptr (Some a) l' end.

Fixpoint dseg (m : memory) (prev : ptr) (l : list Z) (t : ptr) : Prop :=
  match l with
  | [] => True
  | a :: l' => m !! node_prev a = Some (ptr_enc prev) ∧
               m !! node_next a = Some (ptr_enc (hd_ptr l' t)) ∧
               dseg m (Some a) l' t
  end.

(** Nodes sit at page boundaries, so their words never coincide. *)
Definition page (a : Z) : Prop := 0 < a ∧ (4096 | a).

Lemma page_ne a b : page a → page b → a ≠ b + 8.
Proof. intros [_ [k ->]] [_ [k' ->]]. lia. Qed.
Lemma page_ptr_ok a : page a → ptr_ok a = true.
Proof.
  intros [H0 [k ->]]. unfold ptr_ok. rewrite (proj2 (Z.ltb_lt _ _)) by done.
  replace (k * 4096) with (k * 512 * 8) by lia. by rewrite Z.mod_mul.
Qed.
Lemma page_ptr_ok8 a : page a → ptr_ok (a + 8) = true.
Proof.
  intros [H0 [k ->]]. unfold ptr_ok. rewrite (proj2 (Z.ltb_lt _ _)) by lia.
  replace (k * 4096 + 8) with ((k * 512 + 1) * 8) by lia. by rewrite Z.mod_mul.
Qed.
Lemma ptr_dec_enc p : p ≠ Some 0 → ptr_dec (ptr_enc p) = p.
Proof.
  intros Hp. destruct p as [a|]; [|done]. simpl. unfold ptr_dec.
  rewrite (proj2 (Z.eqb_neq _ _)); [done|congruence].
Qed.
Lemma nonnull_new_pos a : 0 < a → nonnull_new a = Some a.
Proof. intros. unfold nonnull_new. rewrite (proj2 (Z.eqb_neq a 0)) by lia. done. Qed.
Lemma hd_ptr_nz l : Forall page l → hd_ptr l None ≠ Some 0.
Proof. destruct l as [|a l]; [done|]. rewrite list.Forall_cons. intros [[? _] _] [= ->]. lia. Qed.
Lemma last_ptr_nz p l : Forall page l → p ≠ Some 0 → last_ptr p l ≠ Some 0.
Proof.
  revert p. induction l as [|a l IH]; intros p; [done|]. rewrite list.Forall_cons. intros [[? _] ?] _.
  apply IH; [done|]. intros [= ->]. lia.
Qed.

Lemma hd_ptr_app l1 l2 t : hd_ptr (l1 ++ l2) t = hd_ptr l1 (hd_ptr l2 t).
Proof. by destruct l1. Qed.

Lemma last_ptr_snoc p l b : last_ptr p (l ++ [b]) = Some b.
Proof. revert p. by induction l; intros p; simpl. Qed.

Lemma dseg_app m p l1 l2 t :
  dseg m p (l1 ++ l2) t ↔ dseg m p l1 (hd_ptr l2 t) ∧ dseg m (last_ptr p l1) l2 t.
Proof.
  revert p. induction l1 as [|a l1 IH]; intros p; simpl; [naive_solver|].
  rewrite hd_ptr_app, IH. naive_solver.
Qed.

Lemma dseg_frame m m' p l t : dseg m p l t →
  (∀ a, a ∈ l → m' !! node_prev a = m !! node_prev a ∧ m' !! node_next a = m !! node_next a) →
  dseg m' p l t.
Proof.
  revert p. induction l as [|a l IH]; intros p; simpl; [done|].
  intros (H1 & H2 & H3) Hf. destruct (Hf a) as [-> ->]; [by left|].
  split; [done|]. split; [done|]. apply IH; [done|]. intros b Hb. apply Hf. by right.
Qed.

(** Writing words of nodes outside the segment leaves it alone. *)
Lemma dseg_insert_prev m p l t b w : Forall page l → page b → b ∉ l →
  dseg m p l t → dseg (<[node_prev b := w]> m) p l t.
Proof.
  intros Hl Hb Hn Hd. apply (dseg_frame m); [done|]. intros a Ha.
  pose proof (proj1 (list.Forall_forall _ _) Hl a Ha). unfold node_prev, node_next.
  assert (a ≠ b) by (by intros ->). pose proof (page_ne a b).
  split; rewrite lookup_insert_ne; [done|lia|done|intros Heq; by apply (page_ne a b)].
Qed.
Lemma dseg_insert_next m p l t b w : Forall page l → page b → b ∉ l →
  dseg m p l t → dseg (<[node_next b := w]> m) p l t.
Proof.
  intros Hl Hb Hn Hd. apply (dseg_frame m); [done|]. intros a Ha.
  pose proof (proj1 (list.Forall_forall _ _) Hl a Ha). unfold node_prev, node_next.
  assert (a ≠ b) by (by intros ->).
  split; rewrite lookup_insert_ne; [done|by apply page_ne|done|done].
Qed.

(** Write [p'] to [prev] of the first node of a segment. *)
Definition set_head_prev (h p' : ptr) (m : memory) : memory :=
  match h with Some b => <[node_prev b := ptr_enc p']> m | None => m end.
(** Write [t'] to [next] of the last node. *)
Definition set_last_next (b t' : ptr) (m : memory) : memory :=
  match b with Some b => <[node_next b := ptr_enc t']> m | None => m end.

Lemma dseg_set_head m p p' l : Forall page l → NoDup l →
  dseg m p l None → dseg (set_head_prev (hd_ptr l None) p' m) p' l None.
Proof.
  destruct l as [|a l]; [done|]. rewrite list.Forall_cons, list.NoDup_cons.
  intros [Ha Hl] [Hn _] (H1 & H2 & H3). cbn [dseg hd_ptr set_head_prev].
  split; [by rewrite lookup_insert_eq|]. split.
  - rewrite lookup_insert_ne; [done|]. intros Heq. by apply (page_ne a a).
  - by apply dseg_insert_prev.
Qed.

Lemma dseg_set_last m l t t' : Forall page l → NoDup l →
  dseg m None l t → dseg (set_last_next (last_ptr None l) t' m) None l t'.
Proof.
  destruct l as [|b l _] using rev_ind; [done|].
  rewrite list.Forall_app, list.NoDup_app, !dseg_app.
  intros [Hl Hb] (Hnd & Hn & _) (H1 & H2 & H3 & _).
  rewrite last_ptr_snoc. rewrite list.Forall_singleton in Hb. split; simpl.
  - apply dseg_insert_next; [done|exact Hb| |exact H1]. intros Hin. apply (Hn b Hin). by left.
  - split; [|split; [by rewrite lookup_insert_eq|done]].
    rewrite lookup_insert_ne; [done|]. by apply page_ne.
Qed.

(** ** Bitmaps *)
Definition bit_of (bm : list Z) (i : Z) : bool :=
  match bm !! Z.to_nat (i / 64) with Some w => Z.testbit w (i mod 64) | None => false end.

(** Bit [i] of the bitmap of order [o] is set iff block [i] is in [l]. *)
Definition bm_repr (rs : Z) (o : nat) (l : list Z) (bm : list Z) : Prop :=
  length bm = Z.to_nat MAX_BITMAP_WORDS ∧
  ∀ i, 0 ≤ i < 64 * MAX_BITMAP_WORDS → bit_of bm i = bool_decide (rs + i * bsize o ∈ l).

Lemma testbit_one_shift k j : 0 ≤ k → 0 ≤ j → Z.testbit (Z.shiftl 1 k) j = (k =? j).
Proof. intros. rewrite Z.shiftl_mul_pow2, Z.mul_1_l by done. by apply testbit_pow2. Qed.

Lemma testbit_clear_mask k j : 0 ≤ k < 64 → 0 ≤ j < 64 →
  Z.testbit (bnot 64 (Z.shiftl 1 k)) j = negb (k =? j).
Proof.
  intros. unfold bnot. rewrite Z.lxor_spec, testbit_one_shift by lia.
  change (2 ^ 64 - 1) with (Z.ones 64). rewrite Z.ones_spec_low by lia. by destruct (k =? j).
Qed.

(** Rewriting one bit of one word. *)
Lemma bit_of_update (bm : list Z) i j w w' (b : bool) :
  0 ≤ i → 0 ≤ j → bm !! Z.to_nat (i / 64) = Some w →
  (∀ k, 0 ≤ k < 64 → Z.testbit w' k = if i mod 64 =? k then b else Z.testbit w k) →
  bit_of (<[Z.to_nat (i / 64) := w']> bm) j = if i =? j then b else bit_of bm j.
Proof.
  intros Hi Hj Hw Hw'. unfold bit_of.
  destruct (decide (i / 64 = j / 64)) as [Heq|Hne].
  - rewrite <-Heq, list_lookup_insert_eq by (by eapply lookup_lt_Some).
    rewrite Hw, Hw' by (apply Z.mod_pos_bound; lia).
    destruct (Z.eqb_spec (i mod 64) (j mod 64)), (Z.eqb_spec i j); try done.
    + pose proof (Z.div_mod i 64). pose proof (Z.div_mod j 64). lia.
    + subst. lia.
  - rewrite list_lookup_insert_ne.
    + destruct (Z.eqb_spec i j); [by subst|done].
    + pose proof (Z.div_pos i 64). pose proof (Z.div_pos j 64). lia.
Qed.

Lemma bm_word (bm : list Z) i : length bm = Z.to_nat MAX_BITMAP_WORDS → 0 ≤ i < 64 * MAX_BITMAP_WORDS →
  i / 64 < MAX_BITMAP_WORDS ∧ ∃ w, bm !! Z.to_nat (i / 64) = Some w.
Proof.
  intros Hl Hi. assert (i / 64 < MAX_BITMAP_WORDS) by (apply Z.div_lt_upper_bound; lia).
  split; [done|]. apply lookup_lt_is_Some. rewrite Hl. pose proof (Z.div_pos i 64). lia.
Qed.

Lemma bm_repr_ext rs o l l' bm : (∀ x, x ∈ l ↔ x ∈ l') → bm_repr rs o l bm → bm_repr rs o l' bm.
Proof.
  intros Hx [Hl Hb]. split; [done|]. intros i Hi. rewrite Hb by done.
  apply bool_decide_ext. apply Hx.
Qed.

(** Setting the bit of block [i] adds it to the set of marked blocks. *)
Lemma bm_repr_update rs o l l' bm i w w' (b : bool) :
  bm_repr rs o l bm → 0 ≤ i < 64 * MAX_BITMAP_WORDS →
  bm !! Z.to_nat (i / 64) = Some w →
  (∀ k, 0 ≤ k < 64 → Z.testbit w' k = if i mod 64 =? k then b else Z.testbit w k) →
  (∀ x, x ∈ l' ↔ if decide (x = rs + i * bsize o) then b = true else x ∈ l) →
  bm_repr rs o l' (<[Z.to_nat (i / 64) := w']> bm).
Proof.
  intros [Hl Hb] Hi Hw Hw' Hl'. split; [by rewrite length_insert|].
  intros j Hj. rewrite (bit_of_update bm i j w w' b) by (done || lia).
  rewrite Hb by done. pose proof (bsize_pos o).
  destruct (Z.eqb_spec i j) as [<-|Hne].
  - destruct b; symmetry; [apply bool_decide_eq_true|apply bool_decide_eq_false]; rewrite Hl', decide_True by done; done.
  - apply bool_decide_ext. rewrite Hl', decide_False; [done|]. intros Heq.
    apply Hne. apply (Z.mul_cancel_r _ _ (bsize o)); lia.
Qed.

(** The representation of the abstract lists [FL]. *)
Record geometry (rs sz : Z) : Prop := {
  geo_pos : 0 < rs;
  geo_page : (4096 | rs);
  geo_size : 0 ≤ sz ≤ 2 ^ 30;
  geo_pages : (4096 | sz);
  geo_end : rs + sz < 2 ^ 64;
}.

Record brepr (rs sz : Z) (FL : nat → list Z) (s : bstate) : Prop := {
  br_start : region_start (buddy s) = rs;
  br_size : region_size (buddy s) = sz;
  br_heads : ∀ o, (o < MAX_ORDER)%nat → free_lists (buddy s) !! o = Some (hd_ptr (FL o) None);
  br_dseg : ∀ o, (o < MAX_ORDER)%nat → dseg (bmem s) None (FL o) None;
  br_bits : ∀ o, (o < MAX_ORDER)%nat →
    ∃ bm, free_bitmaps (buddy s) !! o = Some bm ∧ bm_repr rs o (FL o) bm;
}.

(** Memory outside [P] is as it was. *)
Definition frame (P : Z → Prop) (s s' : bstate) : Prop :=
  ∀ c, ¬ P c → bmem s' !! c = bmem s !! c.

(** ** The buddy allocator: the list and bitmap primitives, verified.

    Each primitive of [Buddy] run on a state that represents the abstract lists
    [FL] ends normally (no panic, no access to memory outside the nodes of free
    blocks) in a state that represents the updated lists. *)
Lemma wp_load m b a w Q : ptr_ok a = true → m !! a = Some w →
  Q w (mkB m b) → wp (load a) Q (mkB m b).
Proof. intros Hok Hm HQ. unfold load. do 2 wp_step; [done|]. do 2 wp_step. by eapply wp_lift. Qed.

Lemma wp_load_ptr m b a p Q : ptr_ok a = true → p ≠ Some 0 → m !! a = Some (ptr_enc p) →
  Q p (mkB m b) → wp (load_ptr a) Q (mkB m b).
Proof.
  intros Hok Hp Hm HQ. unfold load_ptr. wp_step. eapply wp_load; [done|done|].
  wp_step. by rewrite ptr_dec_enc.
Qed.

Lemma wp_store_ptr m b a p Q : ptr_ok a = true →
  Q tt (mkB (<[a := ptr_enc p]> m) b) → wp (store_ptr a p) Q (mkB m b).
Proof. intros Hok HQ. unfold store_ptr, store. do 2 wp_step; [done|]. by wp_step. Qed.

(** The conditional writes of the list code. *)
Lemma wp_store_head m b h p' Q : (∀ x, h = Some x → page x) →
  Q tt (mkB (set_head_prev h p' m) b) →
  wp (match h with Some x => store_ptr (node_prev x) p' | None => mret tt end) Q (mkB m b).
Proof.
  intros Hh HQ. destruct h as [x|]; [|by wp_step].
  apply wp_store_ptr; [by apply page_ptr_ok8, Hh|done].
Qed.

Section ops.
Context (rs sz : Z) (Hgeo : geometry rs sz).
Implicit Types (FL : nat → list Z) (s : bstate) (a : Z) (o : nat).

Abbreviation brepr := (brepr rs sz).
Abbreviation wf := (wf rs sz).
Abbreviation hole := (hole rs sz).
Abbreviation block_ok := (block_ok rs sz).

Lemma block_index a o : block_ok a o →
  ∃ i, a = rs + i * bsize o ∧ 0 ≤ i < 64 * MAX_BITMAP_WORDS.
Proof.
  intros (Ho & Hrs & [i Hi] & Hend). exists i. split; [lia|].
  pose proof (bsize_ge o). pose proof (geo_size _ _ Hgeo). unfold MAX_BITMAP_WORDS. nia.
Qed.

Lemma free_page FL o a : wf FL → free FL o a → page a.
Proof.
  intros Hwf Hf. pose proof (wf_ok _ _ _ Hwf _ _ Hf) as Hok. split.
  - pose proof (geo_pos _ _ Hgeo). destruct Hok as (_ & ? & _). lia.
  - by eapply block_ok_page; [|apply Hgeo].
Qed.
Lemma hole_page FL o a : hole FL a o → page a.
Proof.
  intros [Hok _]. split.
  - pose proof (geo_pos _ _ Hgeo). destruct Hok as (_ & ? & _). lia.
  - by eapply block_ok_page; [|apply Hgeo].
Qed.
Lemma pages FL o : wf FL → (o < MAX_ORDER)%nat → Forall page (FL o).
Proof. intros. apply list.Forall_forall. intros x Hx. by eapply (free_page FL o). Qed.

(** Free lists of different orders share no node. *)
Lemma free_ne FL o o' a a' : wf FL → free FL o a → free FL o' a' → o ≠ o' → a ≠ a'.
Proof.
  intros Hwf H1 H2 Hne ->. destruct (wf_disj _ _ _ Hwf _ _ _ _ H1 H2) as [[? _]|[?|?]]; [done| |].
  - pose proof (bsize_pos o). lia.
  - pose proof (bsize_pos o'). lia.
Qed.

(** Words of a node lie in its block. *)
Lemma node_in_block a o : in_block a o (node_next a) ∧ in_block a o (node_prev a).
Proof. unfold in_block, node_next, node_prev. pose proof (bsize_ge o). lia. Qed.

Lemma bit_index_spec a o i s Q : region_start (buddy s) = rs → a = rs + i * bsize o → 0 ≤ i →
  Q i s → wp (addr_to_bit_index a o) Q s.
Proof.
  intros Hs -> Hi HQ. unfold addr_to_bit_index. rewrite <-Hs in *.
  pose proof (bsize_pos o).
  do 2 wp_step. wp_step. wp_step; [apply Z.leb_le; nia|].
  wp_step. wp_step; [apply csub_some; nia|]. wp_step.
  replace (region_start (buddy s) + i * bsize o - region_start (buddy s)) with (i * bsize o) by lia.
  unfold bsize, MIN_BLOCK_SIZE_LOG2. rewrite Z.shiftr_div_pow2 by lia. by rewrite Z.div_mul by lia.
Qed.

(** Membership in the bitmap of the blocks of order [o]. *)
Lemma is_free_spec FL s a o Q : brepr FL s → (o < MAX_ORDER)%nat →
  (∃ i, a = rs + i * bsize o ∧ 0 ≤ i < 64 * MAX_BITMAP_WORDS) →
  Q (bool_decide (a ∈ FL o)) s → wp (is_free a o) Q s.
Proof.
  intros Hr Ho (i & Ha & Hi) HQ. destruct (br_bits _ _ _ _ Hr o Ho) as (bm & Hbm & Hlen & Hbits).
  destruct (bm_word bm i Hlen Hi) as [Hlt [w Hw]].
  unfold is_free. wp_step. eapply bit_index_spec; [apply Hr|done|lia|].
  wp_step. wp_step; [by apply Z.ltb_lt|]. do 2 wp_step. wp_step. eapply wp_lift; [done|].
  wp_step. eapply wp_lift; [done|]. wp_step.
  specialize (Hbits i Hi). rewrite Ha in *. rewrite <-Hbits in HQ. unfold bit_of in HQ. rewrite Hw in HQ.
  replace (negb (Z.land (Z.shiftr w (i mod 64)) 1 =? 0)) with (Z.testbit w (i mod 64)); [done|].
  pose proof (Z.mod_pos_bound i 64).
  rewrite <-(Z.add_0_l (i mod 64)), <-Z.shiftr_spec by lia.
  change 1 with (Z.ones 1). rewrite Z.land_ones, <-Z.bit0_mod by lia.
  rewrite Z.add_0_l. by destruct (Z.testbit _ 0).
Qed.

(** [mark_free] and [unmark_free] on the bitmap of one order. *)
Lemma mark_free_spec s a o i l l' bm Q :
  region_start (buddy s) = rs → a = rs + i * bsize o → 0 ≤ i < 64 * MAX_BITMAP_WORDS →
  free_bitmaps (buddy s) !! o = Some bm → bm_repr rs o l bm →
  (∀ x, x ∈ l' ↔ x = a ∨ x ∈ l) →
  (∀ bm', bm_repr rs o l' bm' →
     Q tt (mkB (bmem s) (mkBuddy (free_lists (buddy s)) (region_start (buddy s))
       (region_size (buddy s)) (<[o:=bm']> (free_bitmaps (buddy s)))))) →
  wp (mark_free a o) Q s.
Proof.
  intros Hs Ha Hi Hbm Hrep Hl' HQ. destruct (bm_word bm i (proj1 Hrep) Hi) as [Hlt [w Hw]].
  unfold mark_free. wp_step. eapply bit_index_spec; [done|done|lia|].
  wp_step. wp_step; [by apply Z.ltb_lt|]. do 2 wp_step. wp_step. eapply wp_lift; [done|].
  wp_step. eapply wp_lift; [done|]. unfold set_bitmap. wp_step. apply HQ.
  pose proof (Z.mod_pos_bound i 64).
  eapply (bm_repr_update rs o l l' bm i w _ true); [done|done|done| |].
  - intros k Hk. rewrite Z.lor_spec, testbit_one_shift by lia.
    destruct (_ =? k); [by rewrite orb_true_r|by rewrite orb_false_r].
  - intros x. rewrite Hl'. subst a. case_decide; naive_solver.
Qed.

Lemma unmark_free_spec s a o i l l' bm Q :
  region_start (buddy s) = rs → a = rs + i * bsize o → 0 ≤ i < 64 * MAX_BITMAP_WORDS →
  free_bitmaps (buddy s) !! o = Some bm → bm_repr rs o l bm →
  (∀ x, x ∈ l' ↔ x ∈ l ∧ x ≠ a) →
  (∀ bm', bm_repr rs o l' bm' →
     Q tt (mkB (bmem s) (mkBuddy (free_lists (buddy s)) (region_start (buddy s))
       (region_size (buddy s)) (<[o:=bm']> (free_bitmaps (buddy s)))))) →
  wp (unmark_free a o) Q s.
Proof.
  intros Hs Ha Hi Hbm Hrep Hl' HQ. destruct (bm_word bm i (proj1 Hrep) Hi) as [Hlt [w Hw]].
  unfold unmark_free. wp_step. eapply bit_index_spec; [done|done|lia|].
  wp_step. wp_step; [by apply Z.ltb_lt|]. do 2 wp_step. wp_step. eapply wp_lift; [done|].
  wp_step. eapply wp_lift; [done|]. unfold set_bitmap. wp_step. apply HQ.
  pose proof (Z.mod_pos_bound i 64).
  eapply (bm_repr_update rs o l l' bm i w _ false); [done|done|done| |].
  - intros k Hk. rewrite Z.land_spec, testbit_clear_mask by lia.
    destruct (_ =? k); simpl; [by rewrite andb_false_r|by rewrite andb_true_r].
  - intros x. rewrite Hl'. subst a. case_decide; naive_solver.
Qed.

(** Lists and bitmaps of the orders an update leaves alone. *)
Lemma brepr_update FL FL' s m' o h bm' l' : brepr FL s → (o < MAX_ORDER)%nat →
  FL' = <[o:=l']> FL →
  (∀ o', (o' < MAX_ORDER)%nat → o' ≠ o → dseg m' None (FL o') None) →
  dseg m' None l' None → h = hd_ptr l' None → bm_repr rs o l' bm' →
  brepr FL' (mkB m' (mkBuddy (<[o:=h]> (free_lists (buddy s))) (region_start (buddy s))
    (region_size (buddy s)) (<[o:=bm']> (free_bitmaps (buddy s))))).
Proof.
  intros Hr Ho -> Hother Hd -> Hb. split; simpl; [apply Hr|apply Hr| | |].
  - intros o' Ho'. destruct (decide (o = o')) as [<-|].
    + rewrite fn_lookup_insert, list_lookup_insert_eq; [done|].
      eapply lookup_lt_Some, (br_heads _ _ _ _ Hr); done.
    + rewrite fn_lookup_insert_ne, list_lookup_insert_ne by done. by apply Hr.
  - intros o' Ho'. destruct (decide (o = o')) as [<-|]; [by rewrite fn_lookup_insert|].
    rewrite fn_lookup_insert_ne by done. by apply Hother.
  - intros o' Ho'. destruct (br_bits _ _ _ _ Hr o' Ho') as (bm & Hbm & Hrep).
    destruct (decide (o = o')) as [<-|].
    + rewrite fn_lookup_insert, list_lookup_insert_eq by (by eapply lookup_lt_Some). eauto.
    + rewrite fn_lookup_insert_ne, list_lookup_insert_ne by done. eauto.
Qed.
End ops.
