(* ===== verification/BuddyLists.v ===== *)
(** * The buddy allocator: pushing to and removing from the free lists.

    The three list operations of the allocator, against the representation:
    push a block that is not free, pop the first block, unlink a block. *)
From S2P Require Import Prelude Buddy BuddyBlocks BuddyRepr.
Set Default Goal Selector "!".

Section lists.
Context (rs sz : Z) (Hgeo : geometry rs sz).
Implicit Types (FL : nat → list Z) (s : bstate) (a : Z) (o : nat).

Abbreviation brepr := (brepr rs sz).
Abbreviation wf := (wf rs sz).
Abbreviation hole := (hole rs sz).

(** Writes to words of the nodes [xs] are invisible outside the blocks of [P]. *)
Lemma frame_refl P s : frame P s s.
Proof. done. Qed.
Lemma frame_trans P s1 s2 s3 : frame P s1 s2 → frame P s2 s3 → frame P s1 s3.
Proof. intros H1 H2 c Hc. by rewrite H2, H1. Qed.
Lemma frame_mono (P P' : Z → Prop) s s' : (∀ c, P c → P' c) → frame P s s' → frame P' s s'.
Proof. intros Hp Hf c Hc. apply Hf. auto. Qed.

Lemma set_head_prev_other h p m c : (∀ x, h = Some x → c ≠ node_prev x) →
  set_head_prev h p m !! c = m !! c.
Proof.
  intros Hh. destruct h as [x|]; [|done]. simpl. rewrite lookup_insert_ne; [done|].
  intros Heq. by apply (Hh x).
Qed.
Lemma set_last_next_other h p m c : (∀ x, h = Some x → c ≠ node_next x) →
  set_last_next h p m !! c = m !! c.
Proof.
  intros Hh. destruct h as [x|]; [|done]. simpl. rewrite lookup_insert_ne; [done|].
  intros Heq. by apply (Hh x).
Qed.

Lemma hd_ptr_in l x : hd_ptr l None = Some x → x ∈ l.
Proof. destruct l; simpl; [done|]. intros [= ->]. by left. Qed.
Lemma last_ptr_in p l x : last_ptr p l = Some x → x ∈ l ∨ p = Some x.
Proof.
  revert p. induction l as [|b l IH]; intros p; simpl; [by right|].
  intros [?|[= ->]]%IH; [by left; right|by left; left].
Qed.

(** A node's words are bytes its block covers. *)
Lemma free_covers FL o x : (o < MAX_ORDER)%nat → x ∈ FL o →
  covers FL (node_next x) ∧ covers FL (node_prev x).
Proof. intros Ho Hx. destruct (node_in_block x o). split; by exists o, x. Qed.

Lemma dseg_head_write FL o o' l h p m : wf FL → (o < MAX_ORDER)%nat → (o' < MAX_ORDER)%nat → o' ≠ o →
  (∀ x, h = Some x → x ∈ FL o) → l = FL o' → dseg m None l None →
  dseg (set_head_prev h p m) None l None.
Proof.
  intros Hwf Ho Ho' Hne Hh -> Hd. destruct h as [x|]; [|done]. simpl.
  apply dseg_insert_prev; [by eapply pages| | |done].
  - eapply (free_page rs sz Hgeo FL o); [done|]. split; [done|]. by apply Hh.
  - intros Hin. by eapply (free_ne rs sz FL o' o x x); [done|split; [done|]..|done|]; auto.
Qed.

Lemma dseg_last_write FL o o' l h p m : wf FL → (o < MAX_ORDER)%nat → (o' < MAX_ORDER)%nat → o' ≠ o →
  (∀ x, h = Some x → x ∈ FL o) → l = FL o' → dseg m None l None →
  dseg (set_last_next h p m) None l None.
Proof.
  intros Hwf Ho Ho' Hne Hh -> Hd. destruct h as [x|]; [|done]. simpl.
  apply dseg_insert_next; [by eapply pages| | |done].
  - eapply (free_page rs sz Hgeo FL o); [done|]. split; [done|]. by apply Hh.
  - intros Hin. by eapply (free_ne rs sz FL o' o x x); [done|split; [done|]..|done|]; auto.
Qed.

(** [add_to_free_list]. *)
Lemma add_to_free_list_spec FL s a o Q : brepr FL s → wf FL → hole FL a o →
  (∀ s', brepr (<[o:=a :: FL o]> FL) s' →
     frame (λ c, covers FL c ∨ in_block a o c) s s' → Q tt s') →
  wp (add_to_free_list a o) Q s.
Proof.
  intros Hr Hwf Hh HQ. destruct s as [m b].
  pose proof (proj1 (proj1 Hh)) as Ho. pose proof (hole_page rs sz Hgeo FL o a Hh) as Hpa.
  pose proof (pages rs sz Hgeo FL o Hwf Ho) as Hpages.
  assert (Hhd : ∀ x, hd_ptr (FL o) None = Some x → page x).
  { intros x Hx%hd_ptr_in. by eapply list.Forall_forall in Hpages. }
  unfold add_to_free_list, get_free_list, set_free_list.
  wp_step. wp_step. wp_step. eapply wp_lift; [by apply (br_heads _ _ _ _ Hr)|].
  wp_step. apply wp_store_ptr; [by apply page_ptr_ok8|].
  wp_step. apply wp_store_ptr; [by apply page_ptr_ok|].
  rewrite nonnull_new_pos by apply Hpa.
  wp_step. apply wp_store_head; [done|]. wp_step. wp_step.
  destruct (block_index rs sz Hgeo a o (proj1 Hh)) as (i & Ha & Hi).
  destruct (br_bits _ _ _ _ Hr o Ho) as (bm & Hbm & Hrep).
  eapply (mark_free_spec rs sz Hgeo _ a o i (FL o) (a :: FL o) bm); simpl;
    [apply Hr|done|done|done|done|by intros x; rewrite elem_of_cons|].
  intros bm' Hbm'. apply HQ.
  - eapply (brepr_update rs sz FL _ (mkB m b) _ o _ bm' (a :: FL o)); [done|done|done| | |done|done].
    + intros o' Ho' Hne. apply (dseg_head_write FL o o'); [done|done|done|done| |done|].
      { apply hd_ptr_in. }
      assert (a ∉ FL o'). { intros Hin. by apply (hole_not_free rs sz FL a o o' Hh). }
      apply dseg_insert_next; [by eapply pages|done|done|].
      apply dseg_insert_prev; [by eapply pages|done|done|]. by apply Hr.
    + assert (a ∉ FL o). { intros Hin. by apply (hole_not_free rs sz FL a o o Hh). }
      assert (Hax : ∀ x, hd_ptr (FL o) None = Some x → a ≠ x) by (intros x Hx%hd_ptr_in ->; done).
      cbn [dseg]. split; [|split].
      * rewrite set_head_prev_other; [|unfold node_prev; intros x Hx; specialize (Hax x Hx); lia].
        rewrite lookup_insert_ne; [by rewrite lookup_insert_eq|]. by apply page_ne.
      * rewrite set_head_prev_other; [by rewrite lookup_insert_eq|].
        intros x Hx. apply page_ne; [done|by apply Hhd].
      * apply dseg_set_head with (p := None); [done|by apply (wf_nodup _ _ _ Hwf)|].
        apply dseg_insert_next; [done|done|done|].
        apply dseg_insert_prev; [done|done|done|]. by apply Hr.
  - intros c Hc. simpl. destruct (node_in_block a o). rewrite set_head_prev_other.
    + rewrite !lookup_insert_ne; [done| |]; intros <-; apply Hc; by right.
    + intros x Hx%hd_ptr_in ->. apply Hc. left. by eapply free_covers.
Qed.

(** [remove_from_free_list] on a non-empty list. *)
Lemma remove_from_free_list_spec FL s a l o Q : brepr FL s → wf FL →
  (o < MAX_ORDER)%nat → FL o = a :: l →
  (∀ s', brepr (<[o:=l]> FL) s' → frame (covers FL) s s' → Q (Some a) s') →
  wp (remove_from_free_list o) Q s.
Proof.
  intros Hr Hwf Ho HFL HQ. destruct s as [m b].
  assert (Hfa : free FL o a) by (split; [done|]; rewrite HFL; by left).
  pose proof (free_page rs sz Hgeo FL o a Hwf Hfa) as Hpa.
  pose proof (pages rs sz Hgeo FL o Hwf Ho) as Hpages. rewrite HFL in Hpages.
  pose proof (wf_nodup _ _ _ Hwf o Ho) as Hnd. rewrite HFL in Hnd.
  rewrite list.Forall_cons in Hpages. destruct Hpages as [_ Hpl].
  rewrite list.NoDup_cons in Hnd. destruct Hnd as [Hnin Hndl].
  pose proof (br_dseg _ _ _ _ Hr o Ho) as Hd. rewrite HFL in Hd. destruct Hd as (_ & Hnext & Hd).
  assert (Hlin : ∀ x, hd_ptr l None = Some x → x ∈ FL o).
  { intros x Hx%hd_ptr_in. rewrite HFL. by right. }
  unfold remove_from_free_list, get_free_list, set_free_list.
  wp_step. wp_step. wp_step. eapply wp_lift; [by apply (br_heads _ _ _ _ Hr)|]. rewrite HFL. simpl.
  wp_step. apply (wp_load_ptr m b _ (hd_ptr l None)); [by apply page_ptr_ok|by apply hd_ptr_nz|done|].
  wp_step. apply wp_store_head.
  { intros x Hx%hd_ptr_in. by eapply list.Forall_forall in Hpl. }
  wp_step. wp_step. wp_step.
  destruct (block_index rs sz Hgeo a o (wf_ok _ _ _ Hwf _ _ Hfa)) as (i & Ha & Hi).
  destruct (br_bits _ _ _ _ Hr o Ho) as (bm & Hbm & Hrep).
  eapply (unmark_free_spec rs sz Hgeo _ a o i (FL o) l bm); simpl; [apply Hr|done|done|done|done| |].
  { intros x. rewrite HFL, elem_of_cons. split; [|naive_solver]. intros Hx. split; [by right|]. by intros ->. }
  intros bm' Hbm'. wp_step. apply HQ.
  - eapply (brepr_update rs sz FL _ (mkB m b) _ o _ bm' l); [done|done|done| | |done|done].
    + intros o' Ho' Hne. apply (dseg_head_write FL o o'); [done|done|done|done|done|done|by apply Hr].
    + by apply dseg_set_head with (p := Some a).
  - intros c Hc. simpl. rewrite set_head_prev_other; [done|].
    intros x Hx%Hlin ->. apply Hc. by eapply free_covers.
Qed.

(** [remove_from_free_list] on an empty list. *)
Lemma remove_from_free_list_empty FL s o Q : brepr FL s → (o < MAX_ORDER)%nat → FL o = [] →
  Q None s → wp (remove_from_free_list o) Q s.
Proof.
  intros Hr Ho HFL HQ. unfold remove_from_free_list, get_free_list.
  wp_step. wp_step. wp_step. eapply wp_lift; [by apply (br_heads _ _ _ _ Hr)|].
  rewrite HFL. cbn. by apply wp_ret.
Qed.

(** [remove_node_from_free_list]: unlink [a] from the middle of its list. *)
Lemma remove_node_spec FL s a l1 l2 o Q : brepr FL s → wf FL →
  (o < MAX_ORDER)%nat → FL o = l1 ++ a :: l2 →
  (∀ s', brepr (<[o:=l1 ++ l2]> FL) s' → frame (covers FL) s s' → Q tt s') →
  wp (remove_node_from_free_list a o) Q s.
Proof.
  intros Hr Hwf Ho HFL HQ. destruct s as [m b].
  assert (Hfa : free FL o a) by (split; [done|]; rewrite HFL; set_solver).
  pose proof (free_page rs sz Hgeo FL o a Hwf Hfa) as Hpa.
  pose proof (pages rs sz Hgeo FL o Hwf Ho) as Hpages. rewrite HFL in Hpages.
  pose proof (wf_nodup _ _ _ Hwf o Ho) as Hnd. rewrite HFL in Hnd.
  rewrite list.Forall_app, list.Forall_cons in Hpages. destruct Hpages as (Hp1 & _ & Hp2).
  rewrite list.NoDup_app, list.NoDup_cons in Hnd. destruct Hnd as (Hnd1 & Hn12 & Hna & Hnd2).
  pose proof (br_dseg _ _ _ _ Hr o Ho) as Hd. rewrite HFL, dseg_app in Hd.
  destruct Hd as (Hd1 & Hprev & Hnext & Hd2). simpl in Hd1.
  set (pv := last_ptr None l1) in *. set (nx := hd_ptr l2 None) in *.
  assert (Hpv : ∀ x, pv = Some x → x ∈ l1). { by intros x [?|?]%last_ptr_in. }
  assert (Hnx : ∀ x, nx = Some x → x ∈ l2). { by intros x Hx%hd_ptr_in. }
  unfold remove_node_from_free_list.
  wp_step. apply (wp_load_ptr m b _ pv); [by apply page_ptr_ok8|by apply last_ptr_nz|done|].
  wp_step. apply (wp_load_ptr m b _ nx); [by apply page_ptr_ok|by apply hd_ptr_nz|done|].
  destruct (block_index rs sz Hgeo a o (wf_ok _ _ _ Hwf _ _ Hfa)) as (i & Ha & Hi).
  destruct (br_bits _ _ _ _ Hr o Ho) as (bm & Hbm & Hrep).
  set (m1 := set_last_next pv nx m).
  assert (Hfin : ∀ h b' m1', m1' = m1 → h = hd_ptr (l1 ++ l2) None →
    b' = mkBuddy (<[o:=h]> (free_lists b)) (region_start b) (region_size b) (free_bitmaps b) →
    wp (match nx with Some x => store_ptr (node_prev x) pv | None => mret tt end ;;
        unmark_free a o) Q (mkB m1' b')).
  { intros h b' m1' -> -> ->. wp_step. apply wp_store_head.
    { intros x Hx%Hnx. by eapply list.Forall_forall in Hp2. }
    eapply (unmark_free_spec rs sz Hgeo _ a o i (FL o) (l1 ++ l2) bm); simpl; [apply Hr|done|done|done|done| |].
    { intros x. rewrite HFL. set_solver. }
    intros bm' Hbm'. apply HQ.
    - eapply (brepr_update rs sz FL _ (mkB m b) _ o _ bm' (l1 ++ l2)); [done|done|done| | |done|done].
      + intros o' Ho' Hne. apply (dseg_head_write FL o o'); [done|done|done|done| |done|].
        { intros x Hx%Hnx. rewrite HFL. set_solver. }
        apply (dseg_last_write FL o o'); [done|done|done|done| |done|by apply Hr].
        intros x Hx%Hpv. rewrite HFL. set_solver.
      + apply dseg_app. fold nx pv. split.
        * assert (Hs := dseg_set_last m l1 (Some a) nx Hp1 Hnd1 Hd1). fold pv m1 in Hs.
          destruct nx as [x|] eqn:Enx; [|done]. simpl. specialize (Hnx x eq_refl).
          apply dseg_insert_prev; [done|by eapply list.Forall_forall in Hp2| |done].
          intros Hin. apply (Hn12 x Hin). by right.
        * apply dseg_set_head with (p := Some a); [done|done|].
          unfold m1. destruct pv as [x|] eqn:Epv; [|done]. simpl. specialize (Hpv x eq_refl).
          apply dseg_insert_next; [done|by eapply list.Forall_forall in Hp1| |done].
          intros Hin. apply (Hn12 x Hpv). by right.
    - intros c Hc. simpl. unfold m1. rewrite set_head_prev_other, set_last_next_other; [done| |].
      + intros x Hx%Hpv ->. apply Hc. apply (free_covers FL o); [done|]. rewrite HFL. set_solver.
      + intros x Hx%Hnx ->. apply Hc. apply (free_covers FL o); [done|]. rewrite HFL. set_solver. }
  wp_step. destruct pv as [x|] eqn:Epv.
  - apply wp_store_ptr.
    { apply page_ptr_ok. specialize (Hpv x eq_refl). by eapply list.Forall_forall in Hp1. }
    eapply (Hfin (hd_ptr (FL o) None)); [done| |].
    + rewrite HFL. destruct l1; [by apply (f_equal (λ p, p)) in Epv|done].
    + destruct b. simpl. f_equal. symmetry. apply list_insert_id. by apply (br_heads _ _ _ _ Hr o Ho).
  - unfold set_free_list. wp_step. eapply (Hfin nx); [done| |done].
    destruct l1 as [|y l1]; [done|]. exfalso. revert Epv. unfold pv. simpl.
    clear. generalize y. induction l1; simpl; [done|]. intros _. apply IHl1.
Qed.
End lists.
