(* ===== verification/BuddySpec.v ===== *)
(** * The buddy allocator: specification and proofs.

    The abstract allocator owns a set of bytes, [covers FL]; allocation takes a
    block of the least sufficient order out of it, deallocation puts one back,
    and the free blocks stay fully coalesced.  The theorems say that
    [Buddy.allocate], [Buddy.deallocate] and [Buddy.init], run on the memory of
    [BuddyRepr], implement this: they never panic, never touch memory outside
    the free blocks (and the block being freed), and keep the invariant
    [binv]. *)
From S2P Require Import Prelude Buddy BuddyBlocks BuddyRepr BuddyLists.
Set Default Goal Selector "!".

(** The invariant of the allocator of the region [[rs, rs + sz)]. *)
Record binv (rs sz : Z) (FL : nat → list Z) (s : bstate) : Prop := {
  bi_geo : geometry rs sz;
  bi_repr : brepr rs sz FL s;
  bi_wf : wf rs sz FL;
  bi_coal : coalesced rs FL;
}.

(** What an allocation promises of its result. *)
Definition alloc_post (rs sz : Z) (FL : nat → list Z) (s : bstate) (o : nat) (r : ptr) (s' : bstate) : Prop :=
  match r with
  | Some a =>
      ∃ FL', binv rs sz FL' s' ∧ hole rs sz FL' a o ∧
        (∀ p, covers FL p ↔ covers FL' p ∨ in_block a o p) ∧ frame (covers FL) s s'
  | None => s' = s ∧ ∀ o' a', free FL o' a' → (o' < o)%nat
  end.

Section spec.
Context (rs sz : Z).
Implicit Types (FL : nat → list Z) (s : bstate) (a : Z) (o : nat).

Abbreviation brepr := (brepr rs sz).
Abbreviation wf := (wf rs sz).
Abbreviation hole := (hole rs sz).
Abbreviation block_ok := (block_ok rs sz).
Abbreviation binv := (binv rs sz).

(** The representation only reads the free blocks. *)
Lemma brepr_client FL s m' : brepr FL s → (∀ c, covers FL c → m' !! c = bmem s !! c) →
  brepr FL (mkB m' (buddy s)).
Proof.
  intros Hr Hm. split; simpl; [apply Hr|apply Hr|apply Hr| |apply Hr].
  intros o Ho. apply (dseg_frame (bmem s)); [by apply Hr|].
  intros x Hx. destruct (free_covers FL o x Ho Hx). split; by apply Hm.
Qed.

(** ** Finding a list *)
Lemma find_seq (P : nat → bool) k n :
  match List.find P (seq k n) with
  | Some f => (k ≤ f < k + n)%nat ∧ P f = true ∧ ∀ o, (k ≤ o < f)%nat → P o = false
  | None => ∀ o, (k ≤ o < k + n)%nat → P o = false
  end.
Proof.
  revert k. induction n as [|n IH]; intros k; simpl; [lia|].
  destruct (P k) eqn:Hk.
  - split; [lia|]. split; [done|]. lia.
  - specialize (IH (S k)). destruct (List.find P (seq (S k) n)).
    + destruct IH as (? & ? & Hlt). split; [lia|]. split; [done|].
      intros o Ho. destruct (decide (o = k)) as [->|]; [done|]. apply Hlt. lia.
    + intros o Ho. destruct (decide (o = k)) as [->|]; [done|]. apply IH. lia.
Qed.

Lemma find_order_spec FL s req : brepr FL s → (req < MAX_ORDER)%nat →
  match find_order (free_lists (buddy s)) req with
  | Some f => (req ≤ f < MAX_ORDER)%nat ∧ FL f ≠ [] ∧ ∀ o, (req ≤ o < f)%nat → FL o = []
  | None => ∀ o, (req ≤ o < MAX_ORDER)%nat → FL o = []
  end.
Proof.
  intros Hr Hreq. unfold find_order.
  set (P := λ order : nat, match free_lists (buddy s) !! order with Some (Some _) => true | _ => false end).
  assert (HP : ∀ o, (o < MAX_ORDER)%nat → P o = false ↔ FL o = []).
  { intros o Ho. unfold P. cbv beta. rewrite (br_heads _ _ _ _ Hr o Ho). by destruct (FL o). }
  pose proof (find_seq P req (MAX_ORDER - req)) as Hf.
  destruct (List.find P (seq req (MAX_ORDER - req))) as [f|].
  - destruct Hf as (Hrange & Hf & Hlt). split; [lia|]. split.
    + intros HFL. apply HP in HFL; [congruence|lia].
    + intros o Ho. apply HP; [lia|]. by apply Hlt.
  - intros o Ho. apply HP; [lia|]. apply Hf. lia.
Qed.

Context (Hgeo : geometry rs sz).

(** ** Allocation *)
(** Splitting [a] from order [req + n] down to [req]. *)
Lemma split_loop_spec req n a FL s :
  brepr FL s → wf FL → coalesced rs FL → hole FL a (req + n) →
  (∀ o, (req ≤ o < req + n)%nat → FL o = []) →
  wp (for_each (rev (seq req n))
       (λ order, buddy_addr ← lift (cadd 64 a (order_to_size order));
                 add_to_free_list buddy_addr order))
     (λ _ s', ∃ FL', brepr FL' s' ∧ wf FL' ∧ coalesced rs FL' ∧ hole FL' a req ∧
        (∀ p, covers FL p ∨ in_block a (req + n) p ↔ covers FL' p ∨ in_block a req p) ∧
        frame (λ c, covers FL c ∨ in_block a (req + n) c) s s') s.
Proof.
  revert FL s. induction n as [|n IH]; intros FL s Hr Hwf Hc Hh Hemp.
  - rewrite Nat.add_0_r in *. apply wp_ret. exists FL. do 4 (split; [done|]). by split.
  - rewrite seq_S, rev_app_distr. simpl.
    replace (req + S n)%nat with (S (req + n)) in * by lia.
    set (k := (req + n)%nat) in *.
    destruct (hole_split rs sz FL a k Hwf Hh) as [Hright Hleft].
    pose proof (bsize_S k) as HbS. pose proof (bsize_pos k).
    wp_step. wp_step. wp_step.
    { rewrite order_to_size_bsize. apply cadd_some.
      destruct (proj1 Hright) as (_ & _ & _ & ?). pose proof (geo_end _ _ Hgeo). lia. }
    eapply add_to_free_list_spec; [done|done|done|done|].
    intros s1 Hr1 Hf1.
    assert (Hk : (k < MAX_ORDER)%nat) by apply Hright.
    assert (Hnb : ∀ y, free FL k y → False).
    { intros y [_ Hy]. rewrite Hemp in Hy by lia. by apply not_elem_of_nil in Hy. }
    eapply wp_mono; [apply (IH _ s1 Hr1)|].
    + by apply wf_push.
    + apply (coalesced_push rs sz); [done|done|done|]. intros _ Hy. by eapply Hnb.
    + done.
    + intros o Ho. rewrite fn_lookup_insert_ne by lia. apply Hemp. lia.
    + intros [] s2 (FL' & Hr2 & Hwf2 & Hc2 & Hh2 & Hcov & Hf2). exists FL'.
      assert (Hsplit : ∀ p, in_block a (S k) p ↔ in_block (a + bsize k) k p ∨ in_block a k p).
      { intros p. unfold in_block. lia. }
      do 4 (split; [done|]). split.
      * intros p. rewrite <-Hcov, covers_push, Hsplit by done. tauto.
      * eapply frame_trans; (eapply frame_mono; [|done]); intros c; simpl; rewrite ?covers_push, Hsplit by done; tauto.
Qed.

Lemma allocate_spec FL s layout : binv FL s →
  wp (allocate layout) (alloc_post rs sz FL s (size_to_order (block_request layout))) s.
Proof.
  intros [_ Hr Hwf Hc]. unfold allocate. set (req := size_to_order (block_request layout)).
  destruct (Nat.leb_spec MAX_ORDER req) as [Hbig|Hreq].
  { apply wp_ret. split; [done|]. intros o' a' [? _]. lia. }
  wp_step. wp_step. pose proof (find_order_spec FL s req Hr Hreq) as Hfind.
  destruct (find_order _ req) as [f|].
  - destruct Hfind as (Hf & Hne & Hemp). destruct (FL f) as [|a l] eqn:HFL; [done|].
    assert (Hfa : free FL f a) by (split; [lia|]; rewrite HFL; by left).
    pose proof (wf_nodup _ _ _ Hwf f ltac:(lia)) as Hnd. rewrite HFL in Hnd.
    apply (NoDup_middle [] l a) in Hnd as [Hnd Hl]. simpl in *. rewrite <-HFL in Hl.
    wp_step. eapply remove_from_free_list_spec; [done|done|done|lia|done|].
    intros s1 Hr1 Hf1. wp_step.
    replace f with (req + (f - req))%nat in * by lia. set (n := (f - req)%nat) in *.
    replace (req + n - req)%nat with n by lia.
    eapply wp_mono; [apply (split_loop_spec req n a _ s1 Hr1)|].
    + by eapply wf_drop.
    + by eapply coalesced_drop.
    + by eapply hole_drop.
    + intros o Ho. rewrite fn_lookup_insert_ne by lia. by apply Hemp.
    + intros [] s2 (FL' & Hr2 & Hwf2 & Hc2 & Hh2 & Hcov & Hf2). apply wp_ret.
      pose proof (λ p, covers_drop rs sz FL (req + n) a l p Hwf Hfa Hl) as Hcd.
      exists FL'. split; [by split|]. split; [done|]. split.
      * intros p. by rewrite Hcd, <-Hcov.
      * eapply frame_trans; [done|]. eapply frame_mono; [|done]. intros c Hcc. by apply Hcd.
  - apply wp_ret. split; [done|]. intros o' a' [Ho' Hin].
    destruct (Nat.lt_ge_cases o' req); [done|]. rewrite Hfind in Hin by done. set_solver.
Qed.

(** ** Deallocation *)
Lemma buddy_address_spec s a o Q : region_start (buddy s) = rs → block_ok a o →
  Q (buddy_of rs a o) s → wp (buddy_address a o) Q s.
Proof.
  intros Hs Hok HQ. pose proof (buddy_of_cases rs sz a o Hok) as Hcases.
  destruct Hok as (_ & Ha & _ & Hend). pose proof (geo_end _ _ Hgeo). pose proof (bsize_pos o).
  unfold buddy_address. rewrite <-Hs in *.
  wp_step. wp_step. wp_step. wp_step; [by apply Z.leb_le|]. wp_step. wp_step; [by apply csub_some|].
  rewrite order_to_size_bsize. unfold buddy_of, buddy_off in *.
  wp_step; [apply cadd_some; lia|]. done.
Qed.

Lemma merge_loop_spec fuel a o FL s :
  brepr FL s → wf FL → coalesced rs FL → hole FL a o → (MAX_ORDER - 1 ≤ o + fuel)%nat →
  wp (merge_loop fuel rs (rs + sz) a o)
     (λ r s', ∃ FL', brepr FL' s' ∧ wf FL' ∧ coalesced rs FL' ∧ hole FL' r.1 r.2 ∧
        (r.2 < MAX_ORDER - 1 → ¬ free FL' r.2 (buddy_of rs r.1 r.2))%nat ∧
        (∀ p, covers FL p ∨ in_block a o p ↔ covers FL' p ∨ in_block r.1 r.2 p) ∧
        frame (covers FL) s s') s.
Proof.
  revert a o FL s. induction fuel as [|fuel IH]; intros a o FL s Hr Hwf Hc Hh Hfuel; simpl.
  { rewrite (proj2 (Nat.ltb_ge o 12)) by (unfold MAX_ORDER in *; lia). apply wp_ret.
    exists FL. do 4 (split; [done|]). split; [intros ?; unfold MAX_ORDER in *; simpl in *; lia|]. by split. }
  destruct (Nat.ltb_spec o 12) as [Ho|Ho]; simpl.
  2: { apply wp_ret. exists FL. do 4 (split; [done|]). split; [intros ?; unfold MAX_ORDER in *; simpl in *; lia|]. by split. }
  assert (Hstop : ¬ free FL o (buddy_of rs a o) →
    wp (mret (a, o)) (λ r s', ∃ FL', brepr FL' s' ∧ wf FL' ∧ coalesced rs FL' ∧ hole FL' r.1 r.2 ∧
        (r.2 < 12 → ¬ free FL' r.2 (buddy_of rs r.1 r.2))%nat ∧
        (∀ p, covers FL p ∨ in_block a o p ↔ covers FL' p ∨ in_block r.1 r.2 p) ∧
        frame (covers FL) s s') s).
  { intros Hnf. apply wp_ret. exists FL. do 4 (split; [done|]). by split. }
  wp_step. eapply buddy_address_spec; [apply Hr|apply Hh|].
  destruct (Z.ltb_spec (buddy_of rs a o) rs) as [Hlo|Hlo]; simpl.
  { apply Hstop. intros Hf. destruct (wf_ok _ _ _ Hwf _ _ Hf) as (_ & ? & _). lia. }
  destruct (Z.leb_spec (rs + sz) (buddy_of rs a o)) as [Hhi|Hhi]; simpl.
  { apply Hstop. intros Hf. destruct (wf_ok _ _ _ Hwf _ _ Hf) as (_ & _ & _ & ?). pose proof (bsize_pos o). lia. }
  wp_step. eapply is_free_spec; [done|done|unfold MAX_ORDER; lia| |].
  { assert (Hal : (bsize o | buddy_of rs a o - rs)).
    { unfold buddy_of. replace (rs + _ - rs) with (buddy_off (a - rs) o) by lia. apply buddy_off_aligned, Hh. }
    destruct Hal as [i Hi]. exists i. pose proof (bsize_ge o). pose proof (geo_size _ _ Hgeo).
    unfold MAX_BITMAP_WORDS. split; [lia|]. nia. }
  case_bool_decide as Hin; simpl.
  2: { apply Hstop. by intros [_ ?]. }
  apply list_elem_of_split in Hin as (l1 & l2 & HFL).
  assert (Hf : free FL o (buddy_of rs a o)).
  { split; [unfold MAX_ORDER; lia|]. rewrite HFL. apply elem_of_app. right. by left. }
  pose proof (wf_nodup _ _ _ Hwf o ltac:(unfold MAX_ORDER; lia)) as Hnd. rewrite HFL in Hnd.
  apply NoDup_middle in Hnd as [Hndl Hl]. rewrite <-HFL in Hl.
  wp_step. eapply remove_node_spec; [done|done|done|unfold MAX_ORDER; lia|done|].
  intros s1 Hr1 Hf1.
  destruct (hole_merge rs sz FL a o (l1 ++ l2)) as [Hm Hin]; [done|done|unfold MAX_ORDER; lia|done|done|].
  pose proof (λ p, covers_drop rs sz FL o _ (l1 ++ l2) p Hwf Hf Hl) as Hcd.
  eapply wp_mono; [apply (IH _ (S o) _ s1 Hr1)|].
  - by eapply wf_drop.
  - by eapply coalesced_drop.
  - done.
  - lia.
  - intros [a' o'] s2 (FL' & Hr2 & Hwf2 & Hc2 & Hh2 & Hnf & Hcov & Hf2). exists FL'.
    do 5 (split; [done|]). split.
    + intros p. rewrite <-Hcov, Hin, Hcd. tauto.
    + eapply frame_trans; [done|]. eapply frame_mono; [|done]. intros c Hcc. apply Hcd. by left.
Qed.

Lemma deallocate_spec FL s p layout : binv FL s →
  hole FL p (size_to_order (block_request layout)) →
  wp (deallocate p layout) (λ _ s', ∃ FL', binv FL' s' ∧
      (∀ q, covers FL' q ↔ covers FL q ∨ in_block p (size_to_order (block_request layout)) q) ∧
      frame (λ c, covers FL c ∨ in_block p (size_to_order (block_request layout)) c) s s') s.
Proof.
  intros [_ Hr Hwf Hc]. set (o := size_to_order (block_request layout)). intros Hh.
  unfold deallocate. fold o. wp_step. wp_step. rewrite (br_start _ _ _ _ Hr), (br_size _ _ _ _ Hr).
  wp_step. wp_step; [apply cadd_some, Hgeo|]. wp_step.
  eapply wp_mono; [eapply merge_loop_spec; [done|done|done|done|lia]|].
  intros [a' o'] s1 (FL1 & Hr1 & Hwf1 & Hc1 & Hh1 & Hnf & Hcov & Hf1). simpl in *.
  eapply add_to_free_list_spec; [done|done|done|done|]. intros s2 Hr2 Hf2.
  exists (<[o':=a' :: FL1 o']> FL1). split; [split; [done|done|by apply wf_push|]|].
  - by apply (coalesced_push rs sz).
  - assert (Ho' : (o' < MAX_ORDER)%nat) by apply Hh1. split.
    + intros q. rewrite covers_push by done. by rewrite Hcov.
    + eapply frame_trans; (eapply frame_mono; [|done]); intros c; simpl; [by left|]. by rewrite Hcov.
Qed.
End spec.
