(* ===== verification/BuddyInit.v ===== *)
(** * The buddy allocator: initialisation.

    [Buddy.init] cuts a region into the largest aligned blocks; the loop
    terminates, the result satisfies the allocator's invariant and covers
    exactly the pages of the region.  [count_free_blocks] counts a list. *)
From S2P Require Import Prelude Buddy BuddyBlocks BuddyRepr BuddyLists BuddySpec.
Set Default Goal Selector "!".

(** ** The order of the next block *)
Lemma init_order_spec rs cur rem : rs ≤ cur → (4096 | cur - rs) → 4096 ≤ rem →
  (init_order rs cur rem < MAX_ORDER)%nat ∧ bsize (init_order rs cur rem) ≤ rem ∧
  (bsize (init_order rs cur rem) | cur - rs) ∧
  ((init_order rs cur rem < MAX_ORDER - 1)%nat → (bsize (S (init_order rs cur rem)) | cur - rs) →
    rem < bsize (S (init_order rs cur rem))).
Proof.
  intros Hle Hdiv Hrem. unfold init_order. set (d := cur - rs) in *.
  destruct (max_order_for_size_spec rem Hrem) as [Hm1 Hm2]. set (m := max_order_for_size rem) in *.
  set (al := if d =? 0 then (MAX_ORDER - 1)%nat else _).
  assert (Hal : ∀ k, (k ≤ MAX_ORDER - 1)%nat → (bsize k | d) ↔ (k ≤ al)%nat).
  { intros k Hk. unfold al. destruct (Z.eqb_spec d 0) as [->|Hne].
    - split; [done|]. intros _. apply Z.divide_0_r.
    - assert (Hd : 0 < d) by lia. unfold bsize.
      assert (H12 : 12 ≤ trailing_zeros 64 d) by (by apply trailing_zeros_divide).
      rewrite trailing_zeros_divide by lia. unfold saturating_sub, MIN_BLOCK_SIZE_LOG2. lia. }
  set (o := Nat.min (Nat.min m (MAX_ORDER - 1)) al).
  assert (Ho : (o ≤ MAX_ORDER - 1)%nat) by lia. repeat split.
  - unfold MAX_ORDER in *. lia.
  - etrans; [apply (bsize_mono o m); lia|done].
  - apply Hal; lia.
  - intros Hlt HS. assert (S o ≤ al)%nat by (apply Hal; [lia|done]).
    assert (o = m) as -> by lia. done.
Qed.

Section init.
Context (rs sz : Z) (Hgeo : geometry rs sz).
Implicit Types (FL : nat → list Z) (s : bstate).

Abbreviation brepr := (brepr rs sz).
Abbreviation wf := (wf rs sz).

(** Left halves of a block whose right half would fit are never free. *)
Definition greedy FL : Prop := ∀ o a, (o < MAX_ORDER - 1)%nat → free FL o a →
  (bsize (S o) | a - rs) → rs + sz < a + bsize (S o).

Lemma greedy_coalesced FL : wf FL → greedy FL → coalesced rs FL.
Proof.
  intros Hwf Hg o a Ho Ha Hb. pose proof (bsize_S o).
  pose proof (wf_ok _ _ _ Hwf _ _ Ha) as Hoka. pose proof (wf_ok _ _ _ Hwf _ _ Hb) as Hokb.
  destruct (buddy_of_cases rs sz a o Hoka) as [[Hd He]|[Hd He]].
  - specialize (Hg o a Ho Ha Hd). destruct Hokb as (_ & _ & _ & ?). lia.
  - specialize (Hg o _ Ho Hb Hd). destruct Hoka as (_ & _ & _ & ?). lia.
Qed.

Lemma init_loop_spec fuel cur rem FL s :
  brepr FL s → wf FL → greedy FL →
  rs ≤ cur → cur + rem = rs + sz → (4096 | rem) → 0 ≤ rem ≤ 4096 * Z.of_nat fuel →
  (∀ p, covers FL p ↔ rs ≤ p < cur) →
  wp (init_loop fuel rs cur rem)
     (λ _ s', ∃ FL', brepr FL' s' ∧ wf FL' ∧ coalesced rs FL' ∧
        (∀ p, covers FL' p ↔ rs ≤ p < rs + sz) ∧ frame (λ c, rs ≤ c < rs + sz) s s') s.
Proof.
  revert cur rem FL s. induction fuel as [|fuel IH]; intros cur rem FL s Hr Hwf Hg Hcur Hsum Hdiv Hfuel Hcov.
  all: assert (Hdone : rem < 4096 → wp (mret tt) (λ (_ : ()) s', ∃ FL', brepr FL' s' ∧ wf FL' ∧ coalesced rs FL' ∧
        (∀ p, covers FL' p ↔ rs ≤ p < rs + sz) ∧ frame (λ c, rs ≤ c < rs + sz) s s') s).
  1, 3: intros Hlt; apply wp_ret; exists FL; do 2 (split; [done|]); (split; [by apply greedy_coalesced|]); split; [|done];
     assert (rem = 0) as -> by (destruct Hdiv as [k ->]; lia); by replace (rs + sz) with cur by lia.
  - simpl. rewrite (proj2 (Z.ltb_lt rem MIN_BLOCK_SIZE)) by (unfold MIN_BLOCK_SIZE; lia). apply Hdone. lia.
  - simpl. unfold MIN_BLOCK_SIZE. destruct (Z.ltb_spec rem 4096) as [|Hge]; [by apply Hdone|].
    assert (Hd : (4096 | cur - rs)).
    { replace (cur - rs) with (sz - rem) by lia. apply Z.divide_sub_r; [apply Hgeo|done]. }
    destruct (init_order_spec rs cur rem Hcur Hd Hge) as (Ho & Hsize & Hal & Hgr).
    set (o := init_order rs cur rem) in *. rewrite order_to_size_bsize.
    pose proof (bsize_ge o). pose proof (geo_end _ _ Hgeo).
    assert (Hh : hole rs sz FL cur o).
    { split; [by repeat split; [..|lia]|]. intros o' x Hx.
      destruct (wf_ok _ _ _ Hwf _ _ Hx) as (_ & Hx1 & _ & _). right.
      assert (covers FL (x + bsize o' - 1)) as Hc.
      { exists o', x. split; [done|]. unfold in_block. pose proof (bsize_pos o'). lia. }
      apply Hcov in Hc. lia. }
    wp_step. eapply add_to_free_list_spec; [done|done|done|done|]. intros s1 Hr1 Hf1.
    wp_step. wp_step; [apply cadd_some; lia|]. wp_step. wp_step; [by apply csub_some|].
    eapply wp_mono; [apply (IH _ _ _ s1 Hr1)|].
    + by apply wf_push.
    + intros o' x Ho'. rewrite free_push. intros [Hx|(_ & -> & ->)]; [by apply Hg|]. intros HS.
      specialize (Hgr Ho' HS). lia.
    + lia.
    + lia.
    + apply Z.divide_sub_r; [done|apply bsize_4096].
    + lia.
    + intros p. rewrite covers_push, Hcov by done. unfold in_block. lia.
    + intros [] s2 (FL' & Hr2 & Hwf2 & Hc2 & Hcov2 & Hf2). exists FL'. do 4 (split; [done|]).
      eapply frame_trans; [|done]. eapply frame_mono; [|done]. intros c. simpl. rewrite Hcov. unfold in_block. lia.
Qed.

(** ** Counting *)
Lemma count_loop_spec m b fuel p l n Q : Forall page l → dseg m p l None → (length l ≤ fuel)%nat →
  n + Z.of_nat (length l) < 2 ^ 64 → Q (n + Z.of_nat (length l)) (mkB m b) →
  wp (count_loop fuel (hd_ptr l None) n) Q (mkB m b).
Proof.
  revert fuel p n. induction l as [|a l IH]; intros fuel p n Hp Hd Hl Hn HQ.
  - replace (n + Z.of_nat (length [])) with n in HQ by (simpl; lia). by destruct fuel.
  - simpl in *. rewrite list.Forall_cons in Hp. destruct Hp as [Ha Hp], Hd as (_ & Hnext & Hd).
    destruct fuel as [|fuel]; [lia|]. simpl.
    wp_step. apply (wp_load_ptr m b _ (hd_ptr l None)); [by apply page_ptr_ok|by apply hd_ptr_nz|done|].
    wp_step. wp_step; [apply cadd_some; lia|]. eapply IH; [done|done|lia|lia|].
    by replace (n + 1 + Z.of_nat (length l)) with (n + Z.of_nat (S (length l))) by lia.
Qed.

(** The blocks of a list are distinct pages of the region. *)
Lemma free_list_length FL o : wf FL → (o < MAX_ORDER)%nat → Z.of_nat (length (FL o)) ≤ sz / 4096.
Proof.
  intros Hwf Ho. pose proof (geo_size _ _ Hgeo).
  assert (Hsub : FL o ⊆+ (λ i, rs + i * 4096) <$> seqZ 0 (sz / 4096)).
  { apply NoDup_submseteq; [by apply (wf_nodup _ _ _ Hwf)|]. intros x Hx.
    destruct (wf_ok _ _ _ Hwf o x (conj Ho Hx)) as (_ & ? & Hd & ?). pose proof (bsize_ge o).
    assert ((4096 | x - rs)) as [i Hi] by (eapply Z.divide_trans; [apply bsize_4096|done]).
    apply list_elem_of_fmap. exists i. split; [lia|]. apply elem_of_seqZ.
    assert (i + 1 ≤ sz / 4096) by (apply Z.div_le_lower_bound; lia). lia. }
  apply submseteq_length in Hsub. rewrite length_fmap, length_seqZ in Hsub. 
  pose proof (Z.div_pos sz 4096). lia.
Qed.

Lemma count_free_blocks_spec FL s fuel o Q : brepr FL s → wf FL → (o < MAX_ORDER)%nat →
  sz / 4096 ≤ Z.of_nat fuel → Q (Z.of_nat (length (FL o))) s → wp (count_free_blocks fuel o) Q s.
Proof.
  intros Hr Hwf Ho Hfuel HQ. destruct s as [m b]. pose proof (free_list_length FL o Hwf Ho) as Hlen.
  unfold count_free_blocks, get_free_list. wp_step. wp_step. wp_step.
  eapply wp_lift; [by apply (br_heads _ _ _ _ Hr)|].
  eapply count_loop_spec; [by eapply pages|by apply (br_dseg _ _ _ _ Hr)|lia| |done].
  pose proof (geo_size _ _ Hgeo).
  assert (sz / 4096 ≤ 2 ^ 30) by (apply Z.div_le_upper_bound; lia). lia.
Qed.
End init.

(** The rounded region. *)
Definition region_up (a : Z) : Z := (a + 4095) / 4096 * 4096.
Definition region_down (a : Z) : Z := a / 4096 * 4096.

Lemma brepr_new rs sz m : 
  brepr rs sz (λ _, []) (mkB m (mkBuddy (free_lists new) rs sz (free_bitmaps new))).
Proof.
  split; [done|done| | |].
  - intros o Ho. simpl. by apply (lookup_replicate_2 MAX_ORDER (None : ptr)).
  - done.
  - intros o Ho. exists (replicate (Z.to_nat MAX_BITMAP_WORDS) 0). split.
    + by apply (lookup_replicate_2 MAX_ORDER).
    + split; [apply length_replicate|]. intros i Hi. unfold bit_of.
      rewrite lookup_replicate_2; [by rewrite Z.bits_0|].
      unfold MAX_BITMAP_WORDS in *. pose proof (Z.div_pos i 64).
      assert (i / 64 < 4096) by (apply Z.div_lt_upper_bound; lia). lia.
Qed.

Lemma init_run m rstart rsize : 0 < rstart → 0 ≤ rsize →
  rstart + 4096 < 2 ^ 64 → rstart + rsize < 2 ^ 64 →
  region_down (rstart + rsize) - region_up rstart ≤ 2 ^ 30 →
  wp (init rstart rsize)
     (λ _ s', ∃ FL, binv (region_up rstart) (Z.max 0 (region_down (rstart + rsize) - region_up rstart)) FL s' ∧
        (∀ p, covers FL p ↔ region_up rstart ≤ p < region_down (rstart + rsize)) ∧
        frame (λ c, rstart ≤ c < rstart + rsize) (mkB m new) s')
     (mkB m new).
Proof.
  intros Hpos Hsz Hup Hend Hmax. unfold init.
  assert (Hau : align_up rstart MIN_BLOCK_SIZE = Some (region_up rstart)).
  { unfold align_up, MIN_BLOCK_SIZE. rewrite cadd_some by done. simpl.
    change (4096 - 1) with (2 ^ 12 - 1). rewrite land_not_mask by lia.
    unfold region_up. by replace (rstart + 4096 - 1) with (rstart + 4095) by lia. }
  assert (Had : align_down (rstart + rsize) MIN_BLOCK_SIZE = region_down (rstart + rsize)).
  { unfold align_down, MIN_BLOCK_SIZE. change (4096 - 1) with (2 ^ 12 - 1). by rewrite land_not_mask by lia. }
  assert (Hu : rstart ≤ region_up rstart < rstart + 4096).
  { unfold region_up. pose proof (Z.div_mod (rstart + 4095) 4096). pose proof (Z.mod_pos_bound (rstart + 4095) 4096). lia. }
  assert (Hd : region_down (rstart + rsize) ≤ rstart + rsize).
  { unfold region_down. pose proof (Z.div_mod (rstart + rsize) 4096). pose proof (Z.mod_pos_bound (rstart + rsize) 4096). lia. }
  set (rs := region_up rstart) in *. set (re := region_down (rstart + rsize)) in *.
  assert (Hsat : saturating_sub re rs = Z.max 0 (re - rs)) by done.
  set (sz := Z.max 0 (re - rs)) in *.
  assert (Hgeo : geometry rs sz).
  { split; [lia|by exists ((rstart + 4095) / 4096)|lia| |lia].
    unfold sz. destruct (Z.max_spec 0 (re - rs)) as [[_ ->]|[_ ->]]; [|apply Z.divide_0_r].
    apply Z.divide_sub_r; [by exists ((rstart + rsize) / 4096)|by exists ((rstart + 4095) / 4096)]. }
  wp_step. wp_step; [done|]. wp_step. wp_step; [by apply cadd_some|]. rewrite Had, Hsat.
  unfold set_region. wp_step. wp_step. simpl.
  assert (Hnone : ∀ o a, ¬ free (λ _ : nat, []) o a) by (intros o a [_ Hin]; set_solver).
  assert (Hsz0 : 0 ≤ sz / MIN_BLOCK_SIZE) by (apply Z.div_pos; unfold MIN_BLOCK_SIZE; lia).
  wp_step. eapply wp_mono; [apply (init_loop_spec rs sz Hgeo _ rs sz (λ _, []))|].
  - apply (brepr_new rs sz m).
  - split; [intros o a []%Hnone|intros o o' a a' []%Hnone|intros; apply list.NoDup_nil; done].
  - intros o a _ []%Hnone.
  - lia.
  - lia.
  - apply Hgeo.
  - rewrite Z2Nat.id by done. unfold MIN_BLOCK_SIZE. destruct (geo_pages _ _ Hgeo) as [k Hk].
    rewrite Hk, Z.div_mul by lia. lia.
  - intros p. split; [intros (o & a & []%Hnone & _)|lia].
  - intros [] s1 (FL & Hr & Hwf & Hc & Hcov & Hf).
    assert (Hlog : wp (for_each (seq 0 MAX_ORDER)
       (λ order, count_free_blocks (Z.to_nat (sz / MIN_BLOCK_SIZE)) order ;; mret tt)) (λ _ s', s' = s1) s1).
    { eapply wp_mono; [apply (wp_for_each _ (λ _ s', s' = s1)); [done|]|by intros []].
      intros dn o todo s' Heq ->. assert (Ho : o ∈ seq 0 MAX_ORDER) by (rewrite Heq; set_solver).
      apply elem_of_seq in Ho. wp_step. eapply (count_free_blocks_spec rs sz Hgeo FL); [done|done|lia| |by apply wp_ret].
      unfold MIN_BLOCK_SIZE. rewrite Z2Nat.id by (apply Z.div_pos; lia). lia. }
    eapply wp_mono; [exact Hlog|]. intros [] s2 ->. exists FL. split; [by split|]. split.
    + intros p. rewrite Hcov. lia.
    + eapply frame_mono; [|exact Hf]. simpl. intros c. lia.
Qed.
