(* ===== verification/BuddyThms.v ===== *)
(** * The buddy allocator: the theorems.

    Statements about the results of running [Buddy.init], [Buddy.allocate] and
    [Buddy.deallocate], with a witness run on a 64 KiB region for each theorem
    that has hypotheses. *)
From S2P Require Import Prelude Buddy BuddyBlocks BuddyRepr BuddyLists BuddySpec BuddyInit.
Set Default Goal Selector "!".

(** ** A concrete region for the witnesses *)
Definition demo_init : option (unit * bstate) := init 0x10800 0x10000 (mkB ∅ new).

Lemma demo_geometry :
  ∃ FL s, demo_init = Some (tt, s) ∧ binv 0x11000 0xF000 FL s ∧
    (∀ p, covers FL p ↔ 0x11000 ≤ p < 0x20000) ∧
    frame (λ c, 0x10800 ≤ c < 0x20800) (mkB ∅ new) s.
Proof.
  destruct (proj1 (wp_run _ _ _) (init_run ∅ 0x10800 0x10000 ltac:(lia) ltac:(lia) ltac:(lia) ltac:(lia)
    ltac:(vm_compute; discriminate))) as ([] & s & Hs & FL & Hinv & Hcov & Hf).
  exists FL, s. split; [exact Hs|]. split; [exact Hinv|]. split; [exact Hcov|exact Hf].
Defined.

(** C30: run on a state that satisfies the invariant, [allocate] never panics
    and never reads or writes memory outside the free blocks.  It hands out a
    block of the least order that holds [max size align], which was free, was
    nobody's before, and is not free afterwards; every other free byte stays
    free; the lists, links, bitmaps and full coalescing are preserved.  It
    answers [None] (changing nothing) exactly when every free block is
    smaller. *)
Theorem buddy_allocate_correct (rs sz : Z) (FL : nat → list Z) (s : bstate) (layout : Layout)
    (Hinv : binv rs sz FL s) (Hsize : 0 ≤ lsize layout) :
  let o := size_to_order (block_request layout) in
  (∃ r s', allocate layout s = Some (r, s') ∧ alloc_post rs sz FL s o r s') ∧
  Z.max (lsize layout) (lalign layout) ≤ bsize o ∧
  (∀ k, Z.max (lsize layout) (lalign layout) ≤ bsize k → (o ≤ k)%nat).
Proof.
  simpl. split; [|split].
  - apply wp_run. apply allocate_spec; [apply Hinv|done].
  - etrans; [|apply size_to_order_fits]; unfold block_request; lia.
  - intros k Hk. apply size_to_order_least. unfold block_request, MIN_BLOCK_SIZE.
    pose proof (bsize_ge k). lia.
Qed.

(** Witness: 8000 bytes out of 60 KiB. *)
Lemma buddy_allocate_correct_witness :
  ∃ s r s', demo_init = Some (tt, s) ∧ allocate (mkLayout 8000 16) s = Some (r, s') ∧ r = Some 0x1D000.
Proof.
  destruct demo_geometry as (FL & s & Hs & Hinv & _).
  destruct (buddy_allocate_correct 0x11000 0xF000 FL s (mkLayout 8000 16) Hinv ltac:(simpl; lia))
    as [(r & s' & Ha & _) _].
  exists s, r, s'. split; [exact Hs|]. split; [exact Ha|].
  assert (Hc : (match demo_init with
                | Some (_, s0) => fst <$> allocate (mkLayout 8000 16) s0
                | None => None end) = Some (Some 0x1D000)) by (vm_compute; reflexivity).
  rewrite Hs in Hc. rewrite Ha in Hc. simpl in Hc. congruence.
Defined.

(** C31: freeing a block that is allocated (valid, none of its bytes free) never
    panics; afterwards exactly its bytes are free in addition, whatever merging
    with buddies took place, only free blocks and the block itself are written,
    and the invariant with full coalescing holds again. *)
Theorem buddy_deallocate_correct (rs sz : Z) (FL : nat → list Z) (s : bstate) (p : Z) (layout : Layout)
    (Hinv : binv rs sz FL s) (Hblock : hole rs sz FL p (size_to_order (block_request layout))) :
  ∃ s' FL', deallocate p layout s = Some (tt, s') ∧ binv rs sz FL' s' ∧
    (∀ q, covers FL' q ↔ covers FL q ∨ in_block p (size_to_order (block_request layout)) q) ∧
    frame (λ c, covers FL c ∨ in_block p (size_to_order (block_request layout)) c) s s'.
Proof.
  destruct (proj1 (wp_run _ _ _) (deallocate_spec rs sz (bi_geo _ _ _ _ Hinv) FL s p layout Hinv Hblock))
    as ([] & s' & Hs & FL' & H).
  exists s', FL'. split; [exact Hs|exact H].
Qed.

(** Witness: free the block of the previous run. *)
Lemma buddy_deallocate_correct_witness :
  ∃ s p s' s'', demo_init = Some (tt, s) ∧ allocate (mkLayout 8000 16) s = Some (Some p, s') ∧
    deallocate p (mkLayout 8000 16) s' = Some (tt, s'').
Proof.
  destruct demo_geometry as (FL & s & Hs & Hinv & _).
  destruct (proj1 (wp_run _ _ _) (allocate_spec 0x11000 0xF000 (bi_geo _ _ _ _ Hinv) FL s (mkLayout 8000 16) Hinv))
    as (r & s' & Ha & Hpost).
  assert (Hc : (match demo_init with
                | Some (_, s0) => fst <$> allocate (mkLayout 8000 16) s0
                | None => None end) = Some (Some 0x1D000)) by (vm_compute; reflexivity).
  rewrite Hs in Hc. rewrite Ha in Hc. simpl in Hc. injection Hc as ->.
  destruct Hpost as (FL' & Hinv' & Hh & _).
  destruct (buddy_deallocate_correct 0x11000 0xF000 FL' s' 0x1D000 (mkLayout 8000 16) Hinv' Hh)
    as (s'' & FL'' & Hd & _).
  exists s, 0x1D000, s', s''. split; [exact Hs|]. split; [exact Ha|exact Hd].
Defined.

(** allocating a block, writing anything at all into it, and freeing it
    brings back the free lists of before, up to the order inside each list:
    splitting and merging cancel exactly. *)
Theorem buddy_alloc_dealloc_roundtrip (rs sz : Z) (FL : nat → list Z) (s s1 : bstate) (layout : Layout)
    (p : Z) (m : memory)
    (Hinv : binv rs sz FL s) (Halloc : allocate layout s = Some (Some p, s1))
    (Hwrites : ∀ c, ¬ in_block p (size_to_order (block_request layout)) c → m !! c = bmem s1 !! c) :
  ∃ s2 FL2, deallocate p layout (mkB m (buddy s1)) = Some (tt, s2) ∧ binv rs sz FL2 s2 ∧
    ∀ o, (o < MAX_ORDER)%nat → FL2 o ≡ₚ FL o.
Proof.
  pose proof (bi_geo _ _ _ _ Hinv) as Hgeo.
  destruct (proj1 (wp_run _ _ _) (allocate_spec rs sz Hgeo FL s layout Hinv)) as (r & s' & Ha & Hpost).
  rewrite Halloc in Ha. injection Ha as <- <-.
  destruct Hpost as (FL1 & [_ Hr1 Hwf1 Hc1] & Hh & Hcov & _).
  set (o := size_to_order (block_request layout)) in *.
  assert (Hinv1 : binv rs sz FL1 (mkB m (buddy s1))).
  { split; [done| |done|done]. apply brepr_client; [done|].
    intros c Hc. apply Hwrites. intros Hin. by apply (hole_not_covered rs sz FL1 p o c). }
  destruct (proj1 (wp_run _ _ _) (deallocate_spec rs sz Hgeo FL1 _ p layout Hinv1 Hh))
    as ([] & s2 & Hd & FL2 & Hinv2 & Hcov2 & _).
  exists s2, FL2. split; [done|]. split; [done|].
  apply (coalesced_perm rs sz); [apply Hinv2|apply Hinv|apply Hinv2|apply Hinv|].
  intros q. rewrite Hcov2, Hcov. done.
Qed.

(** Witness: the client overwrites the block's first word. *)
Lemma buddy_alloc_dealloc_roundtrip_witness :
  ∃ s p s1 s2, demo_init = Some (tt, s) ∧ allocate (mkLayout 8000 16) s = Some (Some p, s1) ∧
    deallocate p (mkLayout 8000 16) (mkB (<[p := 42]> (bmem s1)) (buddy s1)) = Some (tt, s2).
Proof.
  destruct demo_geometry as (FL & s & Hs & Hinv & _).
  destruct (proj1 (wp_run _ _ _) (allocate_spec 0x11000 0xF000 (bi_geo _ _ _ _ Hinv) FL s (mkLayout 8000 16) Hinv))
    as (r & s' & Ha & _).
  assert (Hc : (match demo_init with
                | Some (_, s0) => fst <$> allocate (mkLayout 8000 16) s0
                | None => None end) = Some (Some 0x1D000)) by (vm_compute; reflexivity).
  rewrite Hs in Hc. rewrite Ha in Hc. simpl in Hc. injection Hc as ->.
  destruct (buddy_alloc_dealloc_roundtrip 0x11000 0xF000 FL s s' (mkLayout 8000 16) 0x1D000
    (<[0x1D000 := 42]> (bmem s')) Hinv Ha) as (s2 & FL2 & Hd & _).
  { intros c Hc. apply lookup_insert_ne. intros <-. apply Hc. vm_compute. by split. }
  exists s, 0x1D000, s', s2. split; [exact Hs|]. split; [exact Ha|exact Hd].
Defined.

(** [init] on a fresh allocator and any non-null region whose pages are at
    most 1 GiB (the bitmaps' capacity) terminates without panic; the free bytes
    are exactly the whole pages of the region, in a state that satisfies the
    invariant; no word outside the region is written. *)
Theorem buddy_init_correct (m : memory) (rstart rsize : Z)
    (Hpos : 0 < rstart) (Hsize : 0 ≤ rsize)
    (Hup : rstart + 4096 < 2 ^ 64) (Hend : rstart + rsize < 2 ^ 64)
    (Hcap : region_down (rstart + rsize) - region_up rstart ≤ 2 ^ 30) :
  ∃ s' FL, init rstart rsize (mkB m new) = Some (tt, s') ∧
    binv (region_up rstart) (Z.max 0 (region_down (rstart + rsize) - region_up rstart)) FL s' ∧
    (∀ p, covers FL p ↔ region_up rstart ≤ p < region_down (rstart + rsize)) ∧
    frame (λ c, rstart ≤ c < rstart + rsize) (mkB m new) s'.
Proof.
  destruct (proj1 (wp_run _ _ _) (init_run m rstart rsize Hpos Hsize Hup Hend Hcap)) as ([] & s & Hs & FL & H).
  exists s, FL. split; [exact Hs|exact H].
Qed.

(** Witness: a region that starts and ends inside pages. *)
Lemma buddy_init_correct_witness :
  ∃ s FL, init 0x10800 0x10000 (mkB ∅ new) = Some (tt, s) ∧ (∀ p, covers FL p ↔ 0x11000 ≤ p < 0x20000).
Proof.
  destruct (buddy_init_correct ∅ 0x10800 0x10000 ltac:(lia) ltac:(lia) ltac:(lia) ltac:(lia)
    ltac:(vm_compute; discriminate)) as (s & FL & Hs & _ & Hcov & _).
  exists s, FL. split; [exact Hs|exact Hcov].
Defined.

(** beyond 1 GiB the bitmaps are too short: [init] on a region of one page
    more than 1 GiB panics. *)
Theorem buddy_init_over_capacity : init 0x100000 (2 ^ 30 + 4096) (mkB ∅ new) = None.
Proof. vm_compute. reflexivity. Qed.
