(* ===== verification/KernelAlloc.v ===== *)
(** * The kernel allocator: slab caches over the buddy allocator
    ([kernel/src/allocator.rs], [SlabCache] and [KernelAllocator]).

    A slab cache is a singly linked list of free blocks of one size class,
    threaded through the blocks' first word.  [KernelAllocator] tries the cache
    of the request's class and falls back to the buddy allocator; a pointer is
    given back to the part whose address range it lies in.  The state is the
    memory, the ten caches and the buddy allocator's fields. *)
From S2P Require Import Prelude Buddy.
Set Default Goal Selector "!".

Definition SIZE_CLASSES : list Z := [8; 16; 32; 64; 128; 256; 512; 1024; 2048; 4096].
Definition NUM_SIZE_CLASSES : nat := length SIZE_CLASSES.
Definition MIN_SLAB_SIZE_LOG2 : Z := 3.

Record SlabCache := mkCache { free_list : ptr; block_size : Z }.

Record kstate := mkK { kmem : memory; slab_caches : list SlabCache; kbuddy : BuddyAllocator }.

(** The part of the state the buddy allocator works on. *)
Definition buddy_part (k : kstate) : bstate := mkB (kmem k) (kbuddy k).
Definition with_buddy_part (b : bstate) (k : kstate) : kstate :=
  mkK (bmem b) (slab_caches k) (buddy b).
Definition on_buddy {A} (m : M bstate A) : M kstate A := zoom buddy_part with_buddy_part m.

(** ** Slab caches *)
Definition get_cache (idx : nat) : M kstate SlabCache :=
  cs ← gets slab_caches; lift (cs !! idx).
Definition set_free_list (idx : nat) (p : ptr) : M kstate unit :=
  c ← get_cache idx;
  modify (λ k, mkK (kmem k) (<[idx := mkCache p (block_size c)]> (slab_caches k)) (kbuddy k)).

(** [SlabCache::allocate]. *)
Definition slab_allocate (idx : nat) : M kstate ptr :=
  c ← get_cache idx;
  match free_list c with
  | Some node =>
      next ← on_buddy (load_ptr node);
      set_free_list idx next ;;
      mret (nonnull_new node)
  | None => mret None
  end.

(** [SlabCache::deallocate]. *)
Definition slab_deallocate (idx : nat) (p : Z) : M kstate unit :=
  c ← get_cache idx;
  on_buddy (store_ptr p (free_list c)) ;;
  set_free_list idx (nonnull_new p).

(** [SlabCache::add_slab]. *)
Definition add_slab (idx : nat) (slab_start slab_size : Z) : M kstate unit :=
  c ← get_cache idx;
  assert_ (negb (block_size c =? 0)) ;;
  let num_blocks := slab_size / block_size c in
  for_each (seqZ 0 num_blocks) (λ i,
    off ← lift (cmul 64 i (block_size c));
    block_addr ← lift (cadd 64 slab_start off);
    slab_deallocate idx block_addr).

(** ** The allocator *)
(** [KernelAllocator::new]. *)
Definition knew (m : memory) : kstate :=
  mkK m ((λ size, mkCache None size) <$> SIZE_CLASSES) new.

(** [for (i, &size) in SIZE_CLASSES.iter().enumerate()], with [current]. *)
Fixpoint init_slabs (classes : list (nat * Z)) (slab_region_size current : Z) : M kstate unit :=
  match classes with
  | [] => mret tt
  | (i, size) :: rest =>
      let slab_size := slab_region_size / Z.of_nat NUM_SIZE_CLASSES in
      let aligned_size := align_down slab_size size in
      add_slab i current aligned_size ;;
      current' ← lift (cadd 64 current aligned_size);
      init_slabs rest slab_region_size current'
  end.

(** [KernelAllocator::init]; the sum is the one of the log line. *)
Definition kinit (heap_start heap_size : Z) : M kstate unit :=
  lift (cadd 64 heap_start heap_size) ;;
  let slab_region_size := heap_size / 2 in
  buddy_region_start ← lift (cadd 64 heap_start slab_region_size);
  buddy_region_size ← lift (csub heap_size slab_region_size);
  init_slabs (imap pair SIZE_CLASSES) slab_region_size heap_start ;;
  on_buddy (Buddy.init buddy_region_start buddy_region_size).

Definition size_to_class (size : Z) : option nat :=
  if size =? 0 then Some 0%nat
  else if 4096 <? size then None
  else let bits := 64 - leading_zeros 64 (size - 1) in
       Some (Z.to_nat (saturating_sub bits MIN_SLAB_SIZE_LOG2)).

(** [GlobalAlloc::alloc]; the null pointer is 0. *)
Definition alloc (layout : Layout) : M kstate Z :=
  let size := Z.max (lsize layout) (lalign layout) in
  let fallback : M kstate Z := p ← on_buddy (Buddy.allocate layout); mret (default 0 p) in
  match size_to_class size with
  | Some class_idx =>
      p ← slab_allocate class_idx;
      match p with
      | Some a => mret a
      | None => fallback
      end
  | None => fallback
  end.

(** [GlobalAlloc::dealloc]. *)
Definition dealloc (p : Z) (layout : Layout) : M kstate unit :=
  if lsize layout =? 0 then mret tt else
  b ← gets kbuddy;
  let buddy_start := region_start b in
  if buddy_start <=? p then on_buddy (Buddy.deallocate p layout)
  else let size := Z.max (lsize layout) (lalign layout) in
       match size_to_class size with
       | Some class_idx => slab_deallocate class_idx p
       | None => mret tt
       end.
