(* ===== verification/KernelSpec.v ===== *)
(** * The kernel allocator: the invariant of the slab caches and of the whole, and
    its operations against it. *)
From S2P Require Import Prelude Buddy BuddyBlocks BuddyRepr BuddyLists BuddySpec BuddyInit KernelAlloc.
Set Default Goal Selector "!".

(** ** The kernel allocator: invariant of the slab caches and of the whole.

    The slab caches own disjoint ranges below the buddy region; each cache's
    list holds distinct blocks of its range.  The file proves that the slab
    operations keep the lists, the combined invariant [kinv], and what the
    set of free bytes [kcovers] becomes. *)
(** Bytes of a block of class [c]. *)
Definition csize (c : nat) : Z := 2 ^ (3 + Z.of_nat c).

(** A singly linked list through the blocks' first word. *)
Fixpoint sseg (m : memory) (l : list Z) : Prop :=
  match l with
  | [] => True
  | a :: l' => m !! a = Some (ptr_enc (hd_ptr l' None)) ∧ sseg m l'
  end.

(** The ranges [[st c, en c)] of the classes. *)
Record ranges := mkRanges { st : nat → Z; en : nat → Z }.

Record slab_geo (R : ranges) : Prop := {
  sg_pos : ∀ c, (c < NUM_SIZE_CLASSES)%nat → 0 < st R c;
  sg_word : ∀ c, (c < NUM_SIZE_CLASSES)%nat → (8 | st R c);
  sg_disj : ∀ c c', (c < c' < NUM_SIZE_CLASSES)%nat → en R c ≤ st R c';
}.

Definition slab_block (R : ranges) (c : nat) (a : Z) : Prop :=
  (c < NUM_SIZE_CLASSES)%nat ∧ st R c ≤ a ∧ (csize c | a - st R c) ∧ a + csize c ≤ en R c.

Definition in_slab_block (c : nat) (a p : Z) : Prop := a ≤ p < a + csize c.

(** The caches hold the lists [SL]. *)
Record sinv (R : ranges) (SL : nat → list Z) (k : kstate) : Prop := {
  si_geo : slab_geo R;
  si_caches : ∀ c, (c < NUM_SIZE_CLASSES)%nat →
    slab_caches k !! c = Some (mkCache (hd_ptr (SL c) None) (csize c));
  si_seg : ∀ c, (c < NUM_SIZE_CLASSES)%nat → sseg (kmem k) (SL c);
  si_blocks : ∀ c a, (c < NUM_SIZE_CLASSES)%nat → a ∈ SL c → slab_block R c a;
  si_nodup : ∀ c, (c < NUM_SIZE_CLASSES)%nat → NoDup (SL c);
}.

Definition scovers (SL : nat → list Z) (p : Z) : Prop :=
  ∃ c a, (c < NUM_SIZE_CLASSES)%nat ∧ a ∈ SL c ∧ in_slab_block c a p.

(** The whole allocator. *)
Record kinv (R : ranges) (rs sz : Z) (SL FL : nat → list Z) (k : kstate) : Prop := {
  ki_slab : sinv R SL k;
  ki_buddy : binv rs sz FL (buddy_part k);
  ki_below : ∀ c, (c < NUM_SIZE_CLASSES)%nat → en R c ≤ rs;
}.

(** The free bytes. *)
Definition kcovers (SL FL : nat → list Z) (p : Z) : Prop := scovers SL p ∨ covers FL p.

(** ** Size classes *)
Lemma csize_pos c : 0 < csize c.
Proof. unfold csize. lia. Qed.
Lemma csize_8 c : (8 | csize c).
Proof. unfold csize. rewrite Z.pow_add_r by lia. apply Z.divide_factor_l. Qed.
Lemma csize_mono c c' : (c ≤ c')%nat → csize c ≤ csize c'.
Proof. intros. unfold csize. apply Z.pow_le_mono_r; lia. Qed.

Lemma size_classes_csize c : (c < NUM_SIZE_CLASSES)%nat → SIZE_CLASSES !! c = Some (csize c).
Proof.
  unfold NUM_SIZE_CLASSES. simpl. intros Hc.
  by do 10 (destruct c as [|c]; [done|]); lia.
Qed.

(** [size_to_class] finds the least class that holds the request. *)
Lemma size_to_class_spec size c : 0 ≤ size → size_to_class size = Some c →
  (c < NUM_SIZE_CLASSES)%nat ∧ size ≤ csize c ∧ ∀ c', size ≤ csize c' → (c ≤ c')%nat.
Proof.
  intros Hs. unfold size_to_class, NUM_SIZE_CLASSES, MIN_SLAB_SIZE_LOG2.
  destruct (Z.eqb_spec size 0) as [->|Hne].
  { intros [= <-]. pose proof (csize_pos 0). split; [simpl; lia|]. split; [lia|]. lia. }
  destruct (Z.ltb_spec 4096 size) as [|Hle]; [done|]. intros [= <-].
  unfold leading_zeros, saturating_sub.
  replace (64 - (64 - bit_length (size - 1))) with (bit_length (size - 1)) by lia.
  destruct (decide (size = 1)) as [->|Hne1].
  { change (Z.to_nat (Z.max 0 (bit_length (1 - 1) - 3))) with 0%nat. pose proof (csize_pos 0).
    split; [simpl; lia|]. split; [lia|]. lia. }
  destruct (bit_length_spec (size - 1) ltac:(lia)) as [Hlo Hhi].
  set (b := bit_length (size - 1)) in *.
  assert (b - 1 < 12) by (apply (Z.pow_lt_mono_r_iff 2); lia).
  assert (Hnn : 1 ≤ b).
  { pose proof (bit_length_ge (size - 1) 0 ltac:(lia) ltac:(lia)) as Hge. fold b in Hge. lia. }
  split; [simpl; lia|]. split.
  - unfold csize. apply Z.le_trans with (2 ^ b); [lia|]. apply Z.pow_le_mono_r; lia.
  - intros c' Hc'. unfold csize in Hc'.
    assert (b - 1 < 3 + Z.of_nat c') by (apply (Z.pow_lt_mono_r_iff 2); lia). lia.
Qed.

Lemma size_to_class_none size : size_to_class size = None → 4096 < size.
Proof.
  unfold size_to_class. destruct (Z.eqb_spec size 0); [done|].
  destruct (Z.ltb_spec 4096 size); [done|discriminate].
Qed.

Section slab.
Context (R : ranges).
Implicit Types (SL : nat → list Z) (k : kstate) (a : Z) (c : nat).

Lemma slab_block_ptr_ok c a : slab_geo R → slab_block R c a → ptr_ok a = true ∧ 0 < a.
Proof.
  intros Hg (Hc & Hst & Hd & _). pose proof (sg_pos R Hg c Hc). split; [|lia].
  unfold ptr_ok. rewrite (proj2 (Z.ltb_lt 0 a)) by lia. apply Z.eqb_eq, Z.mod_divide; [done|].
  replace a with ((a - st R c) + st R c) by lia. apply Z.divide_add_r; [|by apply sg_word].
  eapply Z.divide_trans; [apply csize_8|done].
Qed.

(** Blocks are equal or disjoint. *)
Lemma slab_blocks_disjoint c c' a a' : slab_geo R → slab_block R c a → slab_block R c' a' →
  (c = c' ∧ a = a') ∨ a + csize c ≤ a' ∨ a' + csize c' ≤ a.
Proof.
  intros Hg (Hc & Hst & [i Hi] & Hen) (Hc' & Hst' & [j Hj] & Hen').
  destruct (Nat.lt_trichotomy c c') as [Hlt|[<-|Hlt]].
  - pose proof (sg_disj R Hg c c' ltac:(lia)). lia.
  - pose proof (csize_pos c). assert (i = j ∨ i + 1 ≤ j ∨ j + 1 ≤ i) as [->|[H1|H1]] by lia.
    + left. split; [done|lia].
    + right; left. assert ((i + 1) * csize c ≤ j * csize c) by (apply Z.mul_le_mono_nonneg_r; lia). lia.
    + right; right. assert ((j + 1) * csize c ≤ i * csize c) by (apply Z.mul_le_mono_nonneg_r; lia). lia.
  - pose proof (sg_disj R Hg c' c ltac:(lia)). lia.
Qed.

Lemma sseg_frame m m' l : sseg m l → (∀ a, a ∈ l → m' !! a = m !! a) → sseg m' l.
Proof.
  induction l as [|a l IH]; simpl; [done|]. intros [H1 H2] Hm. split.
  - rewrite Hm; [done|by left].
  - apply IH; [done|]. intros b Hb. apply Hm. by right.
Qed.

(** A slab list survives writes outside its blocks. *)
Lemma sinv_mem SL k m' b' : sinv R SL k → (∀ p, scovers SL p → m' !! p = kmem k !! p) →
  sinv R SL (mkK m' (slab_caches k) b').
Proof.
  intros Hs Hm. split; simpl; [apply Hs|apply Hs| |apply Hs|apply Hs].
  intros c Hc. eapply sseg_frame; [by apply (si_seg _ _ _ Hs)|]. intros a Ha. apply Hm.
  exists c, a. split; [done|]. split; [done|]. unfold in_slab_block. pose proof (csize_pos c). lia.
Qed.

(** Updates of one cache. *)
Lemma sinv_update SL k c l m' : sinv R SL k → (c < NUM_SIZE_CLASSES)%nat →
  NoDup l → (∀ a, a ∈ l → slab_block R c a) → sseg m' l →
  (∀ c', (c' < NUM_SIZE_CLASSES)%nat → c' ≠ c → sseg m' (SL c')) →
  sinv R (<[c:=l]> SL)
    (mkK m' (<[c:=mkCache (hd_ptr l None) (csize c)]> (slab_caches k)) (kbuddy k)).
Proof.
  intros Hs Hc Hnd Hb Hl Hother. split; simpl; [apply Hs| | | |].
  all: intros c'; destruct (decide (c = c')) as [<-|Hne];
    rewrite ?fn_lookup_insert, ?fn_lookup_insert_ne by done.
  - intros _. rewrite list_lookup_insert_eq; [done|]. eapply lookup_lt_Some, (si_caches _ _ _ Hs); done.
  - intros Hc'. rewrite list_lookup_insert_ne by done. by apply Hs.
  - done.
  - intros Hc'. by apply Hother.
  - intros a _. apply Hb.
  - apply Hs.
  - done.
  - apply Hs.
Qed.

(** [SlabCache::allocate]: the head of the list, or nothing. *)
Lemma slab_allocate_spec SL k c Q : sinv R SL k → (c < NUM_SIZE_CLASSES)%nat →
  (match SL c with
   | [] => Q None k
   | a :: l => ∀ k', sinv R (<[c:=l]> SL) k' → kmem k' = kmem k → kbuddy k' = kbuddy k → Q (Some a) k'
   end) →
  wp (slab_allocate c) Q k.
Proof.
  intros Hs Hc HQ. unfold slab_allocate, set_free_list, get_cache.
  do 3 wp_step. eapply wp_lift; [by apply (si_caches _ _ _ Hs)|]. simpl.
  pose proof (si_seg _ _ _ Hs c Hc) as Hseg.
  pose proof (si_nodup _ _ _ Hs c Hc) as Hnd. pose proof (si_blocks _ _ _ Hs c) as Hb.
  pose proof (si_caches _ _ _ Hs c Hc) as Hcache.
  destruct (SL c) as [|a l]; simpl; [by apply wp_ret|].
  destruct Hseg as [Hnext Hseg]. rewrite list.NoDup_cons in Hnd.
  assert (Hba : slab_block R c a) by (apply Hb; [done|by left]).
  destruct (slab_block_ptr_ok c a (si_geo _ _ _ Hs) Hba) as [Hok Hpos].
  assert (Hnz : hd_ptr l None ≠ Some 0).
  { destruct l as [|x l]; [done|]. intros [= ->].
    assert (Hbx : slab_block R c 0) by (apply Hb; [done|right; by left]).
    destruct (slab_block_ptr_ok c 0 (si_geo _ _ _ Hs) Hbx). lia. }
  wp_step. apply wp_zoom. apply (wp_load_ptr _ _ _ (hd_ptr l None)); [done|done|done|].
  replace (with_buddy_part _ k) with k by (by destruct k).
  wp_step. wp_step. wp_step. wp_step. eapply wp_lift; [done|]. wp_step. wp_step.
  rewrite nonnull_new_pos by done. apply HQ; [|done|done].
  apply (sinv_update SL k c l (kmem k)); [done|done|apply Hnd| |done|].
  - intros x Hx. apply Hb; [done|by right].
  - intros c' Hc' _. by apply Hs.
Qed.

(** [SlabCache::deallocate] of a block that is not in the list. *)
Lemma slab_deallocate_spec SL k c a Q : sinv R SL k → slab_block R c a → a ∉ SL c →
  (∀ k', sinv R (<[c:=a :: SL c]> SL) k' → kbuddy k' = kbuddy k →
     (∀ p, p ≠ a → kmem k' !! p = kmem k !! p) → Q tt k') →
  wp (slab_deallocate c a) Q k.
Proof.
  intros Hs Hba Hnin HQ. pose proof (proj1 Hba) as Hc.
  destruct (slab_block_ptr_ok c a (si_geo _ _ _ Hs) Hba) as [Hok Hpos].
  unfold slab_deallocate, set_free_list, get_cache.
  do 3 wp_step. eapply wp_lift; [by apply (si_caches _ _ _ Hs)|]. simpl.
  wp_step. apply wp_zoom. apply wp_store_ptr; [done|]. simpl.
  rewrite nonnull_new_pos by done.
  wp_step. wp_step. wp_step. eapply wp_lift; [by apply (si_caches _ _ _ Hs)|]. wp_step.
  unfold with_buddy_part. simpl. apply HQ; [|done|].
  - apply (sinv_update SL k c (a :: SL c)); [done|done| | | |].
    + apply list.NoDup_cons. split; [done|by apply Hs].
    + intros x. rewrite elem_of_cons. intros [->|Hx]; [done|]. by apply (si_blocks _ _ _ Hs).
    + simpl. split; [by rewrite lookup_insert_eq|].
      eapply sseg_frame; [by apply (si_seg _ _ _ Hs)|]. intros x Hx.
      rewrite lookup_insert_ne; [done|]. by intros ->.
    + intros c' Hc' Hne. eapply sseg_frame; [by apply (si_seg _ _ _ Hs)|]. intros x Hx.
      rewrite lookup_insert_ne; [done|]. intros ->.
      destruct (slab_blocks_disjoint c c' x x) as [[? _]|?]; [apply Hs|done|by apply (si_blocks _ _ _ Hs)|done|].
      pose proof (csize_pos c). pose proof (csize_pos c'). lia.
  - intros p Hp. simpl. by rewrite lookup_insert_ne.
Qed.

(** What the updates do to the free bytes. *)
Lemma scovers_push SL c a p : (c < NUM_SIZE_CLASSES)%nat →
  scovers (<[c:=a :: SL c]> SL) p ↔ scovers SL p ∨ in_slab_block c a p.
Proof.
  intros Hc. unfold scovers. split.
  - intros (c' & x & Hc' & Hx & Hp). destruct (decide (c = c')) as [<-|].
    + rewrite fn_lookup_insert, elem_of_cons in Hx. destruct Hx as [->|Hx]; [by right|left].
      by exists c, x.
    + rewrite fn_lookup_insert_ne in Hx by done. left. by exists c', x.
  - intros [(c' & x & Hc' & Hx & Hp)|Hp].
    + exists c', x. split; [done|]. split; [|done]. destruct (decide (c = c')) as [<-|].
      * rewrite fn_lookup_insert. by right.
      * by rewrite fn_lookup_insert_ne.
    + exists c, a. split; [done|]. split; [|done]. rewrite fn_lookup_insert. by left.
Qed.

Lemma scovers_pop SL k c a l p : sinv R SL k → (c < NUM_SIZE_CLASSES)%nat → SL c = a :: l →
  (scovers SL p ↔ scovers (<[c:=l]> SL) p ∨ in_slab_block c a p) ∧
  (in_slab_block c a p → ¬ scovers (<[c:=l]> SL) p).
Proof.
  intros Hs Hc HSL. split.
  - rewrite <-scovers_push by done. rewrite fn_lookup_insert. unfold scovers.
    split; intros (c' & x & Hc' & Hx & Hp); exists c', x; (split; [done|]); (split; [|done]);
      destruct (decide (c = c')) as [<-|];
      rewrite ?fn_lookup_insert, ?fn_lookup_insert_ne in *; by rewrite ?HSL in *.
  - intros Hp (c' & x & Hc' & Hx & Hp').
    assert (Hba : slab_block R c a) by (apply (si_blocks _ _ _ Hs); [done|rewrite HSL; by left]).
    assert (Hin : x ∈ SL c' ∧ (c = c' → x ≠ a)).
    { pose proof (si_nodup _ _ _ Hs c Hc) as Hnd. rewrite HSL, list.NoDup_cons in Hnd.
      destruct (decide (c = c')) as [<-|].
      - rewrite fn_lookup_insert in Hx. split; [rewrite HSL; by right|]. intros _ ->. by apply Hnd.
      - by rewrite fn_lookup_insert_ne in Hx. }
    destruct Hin as [Hin Hne].
    destruct (slab_blocks_disjoint c c' a x (si_geo _ _ _ Hs) Hba) as [[? ?]|?].
    + by apply (si_blocks _ _ _ Hs).
    + by apply Hne.
    + unfold in_slab_block in *. lia.
Qed.
End slab.

(** ** The kernel allocator: theorems.

    [alloc] and [dealloc] of the global allocator against the combined
    invariant, initialisation of the heap, and the alignment of the pointers
    handed out. *)
Definition request (layout : Layout) : Z := Z.max (lsize layout) (lalign layout).

(** Bytes behind a pointer handed out for [layout]. *)
Definition granted (rs a : Z) (layout : Layout) : Z :=
  if rs <=? a then bsize (size_to_order (block_request layout))
  else match size_to_class (request layout) with Some c => csize c | None => 0 end.

(** [a] is a live allocation of [layout]: a block of the part it lies in, not free. *)
Definition owned (R : ranges) (rs sz : Z) (SL FL : nat → list Z) (a : Z) (layout : Layout) : Prop :=
  (rs ≤ a ∧ hole rs sz FL a (size_to_order (block_request layout))) ∨
  (a < rs ∧ ∃ c, size_to_class (request layout) = Some c ∧ slab_block R c a ∧ a ∉ SL c).

Definition kalloc_post (R : ranges) (rs sz : Z) (SL FL : nat → list Z) (k : kstate)
    (layout : Layout) (r : Z) (k' : kstate) : Prop :=
  (r = 0 ∧ k' = k ∧ (∀ c, size_to_class (request layout) = Some c → SL c = []) ∧
   ∀ o a, free FL o a → (o < size_to_order (block_request layout))%nat) ∨
  (0 < r ∧ request layout ≤ granted rs r layout ∧
   ∃ SL' FL', kinv R rs sz SL' FL' k' ∧ owned R rs sz SL' FL' r layout ∧
     (∀ p, kcovers SL FL p ↔ kcovers SL' FL' p ∨ r ≤ p < r + granted rs r layout) ∧
     (∀ p, r ≤ p < r + granted rs r layout → ¬ kcovers SL' FL' p) ∧
     (∀ p, ¬ kcovers SL FL p → kmem k' !! p = kmem k !! p)).

Section kernel.
Context (R : ranges) (rs sz : Z).
Implicit Types (SL FL : nat → list Z) (k : kstate) (layout : Layout).

Abbreviation kinv := (kinv R rs sz).
Abbreviation owned := (owned R rs sz).

(** The slabs lie below the buddy region, so they never meet its blocks. *)
Lemma scovers_below SL FL k p : kinv SL FL k → scovers SL p → p < rs.
Proof.
  intros Hk (c & a & Hc & Ha & Hp). destruct (si_blocks _ _ _ (ki_slab _ _ _ _ _ _ Hk) c a Hc Ha) as (_ & _ & _ & ?).
  pose proof (ki_below _ _ _ _ _ _ Hk c Hc). unfold in_slab_block in *. lia.
Qed.
Lemma covers_above FL p : wf rs sz FL → covers FL p → rs ≤ p.
Proof.
  intros Hwf (o & a & Hf & Hp). destruct (wf_ok _ _ _ Hwf _ _ Hf) as (_ & ? & _). unfold in_block in *. lia.
Qed.

(** A step of the buddy part keeps the slabs. *)
Lemma kinv_buddy_step SL FL FL' k b' : kinv SL FL k → binv rs sz FL' b' →
  (∀ p, p < rs → bmem b' !! p = kmem k !! p) → kinv SL FL' (with_buddy_part b' k).
Proof.
  intros Hk Hb Hf. split; [|by destruct b'|by apply Hk].
  apply sinv_mem; [apply Hk|]. intros p Hp. apply Hf. by eapply scovers_below.
Qed.

(** A step of the slabs keeps the buddy part. *)
Lemma kinv_slab_step SL SL' FL k k' : kinv SL FL k → sinv R SL' k' → kbuddy k' = kbuddy k →
  (∀ p, rs ≤ p → kmem k' !! p = kmem k !! p) → kinv SL' FL k'.
Proof.
  intros Hk Hs Hb Hf. split; [done| |by apply Hk].
  destruct (ki_buddy _ _ _ _ _ _ Hk) as [Hgeo Hr Hwf Hc]. split; [done| |done|done].
  unfold buddy_part. rewrite Hb. apply (brepr_client rs sz FL (buddy_part k)); [done|].
  intros c Hcov. apply Hf. by eapply covers_above.
Qed.

Lemma granted_buddy a layout : rs ≤ a →
  granted rs a layout = bsize (size_to_order (block_request layout)).
Proof. intros. unfold granted. by rewrite (proj2 (Z.leb_le _ _)). Qed.
Lemma granted_slab a c layout : a < rs → size_to_class (request layout) = Some c →
  granted rs a layout = csize c.
Proof. intros Ha Hc. unfold granted. rewrite (proj2 (Z.leb_gt _ _)) by done. by rewrite Hc. Qed.

(** The buddy path of [alloc]. *)
Lemma alloc_fallback_spec SL FL k layout : kinv SL FL k → 0 ≤ lsize layout →
  (∀ c, size_to_class (request layout) = Some c → SL c = []) →
  wp (p ← on_buddy (Buddy.allocate layout); mret (default 0 p)) (kalloc_post R rs sz SL FL k layout) k.
Proof.
  intros Hk Hsz Hempty. pose proof (ki_buddy _ _ _ _ _ _ Hk) as Hb. pose proof (bi_geo _ _ _ _ Hb) as Hgeo.
  wp_step. apply wp_zoom. eapply wp_mono; [by eapply (allocate_spec rs sz)|].
  intros [a|] b' Hpost; apply wp_ret; simpl in *.
  - right. destruct Hpost as (FL' & Hb' & Hh & Hcov & Hf).
    assert (Ha : rs ≤ a) by apply (proj1 Hh). pose proof (geo_pos _ _ Hgeo).
    rewrite !granted_buddy by done. split; [lia|]. split.
    { etrans; [|apply size_to_order_fits]; unfold request, block_request; lia. }
    assert (Hlow : ∀ p, p < rs → bmem b' !! p = kmem k !! p).
    { intros p Hp. apply Hf. intros Hc. apply covers_above in Hc; [lia|apply Hb]. }
    exists SL, FL'. split; [by eapply kinv_buddy_step|]. split; [by left|].
    unfold kcovers. split; [intros p; rewrite Hcov; unfold in_block; tauto|]. split.
    + intros p Hp [Hs|Hc]; [|by apply (hole_not_covered rs sz FL' a _ p Hh)].
      pose proof (scovers_below SL FL k p Hk Hs). lia.
    + intros p Hp. apply Hf. tauto.
  - left. destruct Hpost as [-> Hnone]. split; [done|]. split; [by destruct k|]. by split.
Qed.

Lemma alloc_spec SL FL k layout : kinv SL FL k → 0 ≤ lsize layout →
  wp (alloc layout) (kalloc_post R rs sz SL FL k layout) k.
Proof.
  intros Hk Hsz. unfold alloc. fold (request layout).
  destruct (size_to_class (request layout)) as [c|] eqn:Hclass.
  2: { apply alloc_fallback_spec; [done|done|congruence]. }
  destruct (size_to_class_spec (request layout) c) as (Hc & Hfit & _); [unfold request; lia|done|].
  pose proof (ki_slab _ _ _ _ _ _ Hk) as Hs.
  wp_step. eapply slab_allocate_spec; [done|done|].
  destruct (SL c) as [|a l] eqn:HSL.
  { apply alloc_fallback_spec; [done|done|congruence]. }
  intros k' Hs' Hmem Hbud. apply wp_ret. right.
  assert (Hb : slab_block R c a) by (apply (si_blocks _ _ _ Hs); [done|rewrite HSL; by left]).
  destruct (slab_block_ptr_ok R c a (si_geo _ _ _ Hs) Hb) as [_ Hpos].
  assert (Ha : a < rs).
  { pose proof (ki_below _ _ _ _ _ _ Hk c Hc). destruct Hb as (_ & _ & _ & ?). pose proof (csize_pos c). lia. }
  rewrite !(granted_slab a c) by done. split; [done|]. split; [done|].
  exists (<[c:=l]> SL), FL.
  assert (Hcov : ∀ p, (scovers SL p ↔ scovers (<[c:=l]> SL) p ∨ in_slab_block c a p) ∧
     (in_slab_block c a p → ¬ scovers (<[c:=l]> SL) p)) by (intros p; by apply (scovers_pop R SL k)).
  split; [eapply kinv_slab_step; [done|done|done|intros p _; by rewrite Hmem]|].
  split; [right; split; [done|]; exists c; split; [done|]; split; [done|]|].
  { rewrite fn_lookup_insert. pose proof (si_nodup _ _ _ Hs c Hc) as Hnd. rewrite HSL, list.NoDup_cons in Hnd. apply Hnd. }
  unfold kcovers. split; [intros p; rewrite (proj1 (Hcov p)); unfold in_slab_block; tauto|]. split.
  - intros p Hp [Hx|Hx]; [by apply (Hcov p)|]. apply covers_above in Hx; [|apply Hk].
    pose proof (ki_below _ _ _ _ _ _ Hk c Hc). destruct Hb as (_ & _ & _ & ?). lia.
  - intros p _. by rewrite Hmem.
Qed.

Lemma dealloc_spec SL FL k a layout : kinv SL FL k → owned SL FL a layout → 0 < lsize layout →
  wp (dealloc a layout) (λ _ k', ∃ SL' FL', kinv SL' FL' k' ∧
      (∀ p, kcovers SL' FL' p ↔ kcovers SL FL p ∨ a ≤ p < a + granted rs a layout) ∧
      (a < rs → ∃ c, size_to_class (request layout) = Some c ∧ SL' = <[c:=a :: SL c]> SL ∧ FL' = FL) ∧
      (rs ≤ a → SL' = SL) ∧
      (∀ p, ¬ kcovers SL FL p → ¬ a ≤ p < a + granted rs a layout → kmem k' !! p = kmem k !! p)) k.
Proof.
  intros Hk Ho Hsz. pose proof (ki_buddy _ _ _ _ _ _ Hk) as Hb.
  unfold dealloc. rewrite (proj2 (Z.eqb_neq _ 0)) by lia. fold (request layout).
  wp_step. wp_step. rewrite (br_start _ _ _ _ (bi_repr _ _ _ _ Hb) : region_start (kbuddy k) = rs).
  destruct Ho as [[Ha Hh]|[Ha (c & Hclass & Hblk & Hnin)]].
  - rewrite (proj2 (Z.leb_le _ _)) by done. rewrite granted_buddy by done.
    apply wp_zoom. eapply wp_mono; [apply (deallocate_spec rs sz (bi_geo _ _ _ _ Hb) FL); done|].
    intros [] b' (FL' & Hb' & Hcov & Hf). exists SL, FL'. split; [|split; [|split; [lia|split; [done|]]]].
    + eapply kinv_buddy_step; [done|done|]. intros p Hp. apply Hf. unfold in_block.
      intros [Hc|Hc]; [apply covers_above in Hc; [lia|apply Hb]|lia].
    + intros p. unfold kcovers. rewrite Hcov. unfold in_block. tauto.
    + intros p Hp Hp'. apply Hf. unfold kcovers in Hp. unfold in_block. tauto.
  - rewrite (proj2 (Z.leb_gt _ _)) by done. rewrite (granted_slab a c), Hclass by done.
    pose proof (ki_slab _ _ _ _ _ _ Hk) as Hs.
    eapply slab_deallocate_spec; [done|done|done|]. intros k' Hs' Hbud Hmem.
    exists (<[c:=a :: SL c]> SL), FL. split; [|split; [|split; [|split; [lia|]]]].
    + eapply kinv_slab_step; [done|done|done|]. intros p Hp. apply Hmem. lia.
    + intros p. unfold kcovers. rewrite scovers_push by apply Hblk. unfold in_slab_block. tauto.
    + intros _. by exists c.
    + intros p _ Hp. apply Hmem. intros ->. pose proof (csize_pos c). lia.
Qed.
End kernel.
