(* ===== verification/KernelInit.v ===== *)
(** * The kernel allocator: initialisation of the heap. *)
From S2P Require Import Prelude Buddy BuddyBlocks BuddyRepr BuddyLists BuddySpec BuddyInit KernelAlloc KernelSpec.
Set Default Goal Selector "!".

(** The bytes each class gets, and where its slab starts. *)
Definition aligned_bytes (region : Z) (c : nat) : Z := region / 10 / csize c * csize c.
Fixpoint slab_start (hs region : Z) (c : nat) : Z :=
  match c with O => hs | S c' => slab_start hs region c' + aligned_bytes region c' end.
Definition ranges_of (hs region : Z) : ranges :=
  mkRanges (slab_start hs region) (λ c, slab_start hs region (S c)).

Section init.
Context (hs region : Z) (Hhs : 0 < hs) (Hal : (8 | hs)) (Hreg : 0 ≤ region) (Hend : hs + region < 2 ^ 64).

Abbreviation R := (ranges_of hs region).
Abbreviation start := (slab_start hs region).

Lemma aligned_bytes_bound c : 0 ≤ aligned_bytes region c ≤ region / 10.
Proof.
  unfold aligned_bytes. pose proof (csize_pos c). pose proof (Z.div_pos region 10 Hreg ltac:(lia)) as H0.
  pose proof (Z.div_pos (region / 10) (csize c) H0 ltac:(lia)).
  pose proof (Z.mul_div_le (region / 10) (csize c) ltac:(lia)). nia.
Qed.

Lemma start_mono c c' : (c ≤ c')%nat → start c ≤ start c'.
Proof.
  induction 1 as [|c' _ IH]; [done|]. simpl. pose proof (aligned_bytes_bound c'). lia.
Qed.

Lemma start_bound c : start c ≤ hs + Z.of_nat c * (region / 10).
Proof. induction c as [|c IH]; simpl; [lia|]. pose proof (aligned_bytes_bound c). lia. Qed.

Lemma start_last : start NUM_SIZE_CLASSES ≤ hs + region.
Proof.
  pose proof (start_bound NUM_SIZE_CLASSES) as Hb.
  replace (Z.of_nat NUM_SIZE_CLASSES) with 10 in Hb by done.
  pose proof (Z.mul_div_le region 10 ltac:(lia)). lia.
Qed.

Lemma ranges_geo : slab_geo R.
Proof.
  split; simpl.
  - intros c _. pose proof (start_mono 0 c ltac:(lia)). simpl in *. lia.
  - intros c _. induction c as [|c IH]; [done|]. simpl. apply Z.divide_add_r; [done|].
    apply Z.divide_mul_r, csize_8.
  - intros c c' Hc. apply (start_mono (S c) c'). lia.
Qed.

(** One slab. *)
Lemma add_slab_spec SL k c : sinv R SL k → (c < NUM_SIZE_CLASSES)%nat → SL c = [] →
  wp (add_slab c (start c) (aligned_bytes region c))
     (λ _ k', ∃ SL', sinv R SL' k' ∧ (∀ c', c' ≠ c → SL' c' = SL c') ∧ kbuddy k' = kbuddy k ∧
        (∀ p, scovers SL' p ↔ scovers SL p ∨ start c ≤ p < start (S c)) ∧
        (∀ p, ¬ start c ≤ p < start (S c) → kmem k' !! p = kmem k !! p)) k.
Proof.
  intros Hs Hc Hemp. pose proof (csize_pos c) as Hpos. pose proof (start_mono 0 c ltac:(lia)) as H0. change (start 0) with hs in H0.
  pose proof (start_mono (S c) NUM_SIZE_CLASSES ltac:(lia)) as Hlast. pose proof start_last as HL.
  unfold add_slab, get_cache. do 3 wp_step. eapply wp_lift; [by apply (si_caches _ _ _ Hs)|]. simpl.
  wp_step. wp_step; [destruct (Z.eqb_spec (csize c) 0); [lia|done]|].
  assert (Hn : aligned_bytes region c / csize c = region / 10 / csize c).
  { unfold aligned_bytes. by rewrite Z.div_mul by lia. }
  rewrite Hn. set (n := region / 10 / csize c) in *.
  assert (HS : start (S c) = start c + n * csize c) by done.
  eapply wp_mono; [apply (wp_for_each _ (λ dn k', ∃ SL', sinv R SL' k' ∧ (∀ c', c' ≠ c → SL' c' = SL c') ∧
    kbuddy k' = kbuddy k ∧ (∀ x, x ∈ SL' c → x < start c + Z.of_nat (length dn) * csize c) ∧
    (∀ p, scovers SL' p ↔ scovers SL p ∨ start c ≤ p < start c + Z.of_nat (length dn) * csize c) ∧
    (∀ p, ¬ start c ≤ p < start (S c) → kmem k' !! p = kmem k !! p)))|].
  - exists SL. rewrite Hemp. split; [done|]. split; [done|]. split; [done|].
    split; [intros x Hx; by apply not_elem_of_nil in Hx|]. split; [|done].
    intros p. simpl. split; [by left|]. intros [?|?]; [done|lia].
  - intros dn x todo k1 Heq (SL1 & Hs1 & Hoth & Hbud & Hlt & Hcov & Hmem).
    assert (Hx : seqZ 0 n !! length dn = Some x) by (by rewrite Heq, list_lookup_middle).
    apply lookup_seqZ in Hx as [Hx Hxn]. simpl in Hx. subst x.
    set (i := Z.of_nat (length dn)) in *.
    assert (i * csize c ≤ n * csize c - csize c) by nia. assert (0 ≤ i * csize c) by nia.
    wp_step. wp_step; [apply cmul_some; lia|]. wp_step. wp_step; [apply cadd_some; lia|].
    assert (Hblk : slab_block R c (start c + i * csize c)).
    { split; [done|]. cbn [st en ranges_of]. split; [lia|]. split; [|lia].
      exists i. lia. }
    eapply slab_deallocate_spec; [done|exact Hblk|intros Hin; specialize (Hlt _ Hin); lia|].
    intros k2 Hs2 Hbud2 Hmem2.
    exists (<[c:=(start c + i * csize c) :: SL1 c]> SL1). rewrite length_app. cbn [length].
    replace (Z.of_nat (length dn + 1)) with (i + 1) by lia.
    split; [done|]. split; [intros c' Hc'; rewrite fn_lookup_insert_ne by done; by apply Hoth|].
    split; [by rewrite Hbud2|]. split.
    + intros y. rewrite fn_lookup_insert, elem_of_cons. intros [->|Hy]; [lia|]. specialize (Hlt _ Hy). lia.
    + split.
      * intros p. rewrite scovers_push, Hcov by done. unfold in_slab_block. 
        split; [intros [[?|?]|?]|intros [?|?]]; [by left|right; lia|right; nia|by left; left|].
        destruct (decide (p < start c + i * csize c)); [left; right; lia|right; lia].
      * intros p Hp. rewrite Hmem2; [by apply Hmem|]. intros ->. apply Hp. lia.
  - intros [] k' (SL' & Hs' & Hoth & Hbud & _ & Hcov & Hmem). exists SL'.
    do 3 (split; [done|]). split; [|done]. intros p. rewrite Hcov, length_seqZ.
    assert (0 ≤ n) by (apply Z.div_pos; [apply Z.div_pos; lia|lia]).
    rewrite Z2Nat.id by lia. by rewrite <-HS.
Qed.

(** All the slabs from class [c] on. *)
Lemma init_slabs_spec n c SL k : (c + n = NUM_SIZE_CLASSES)%nat → sinv R SL k →
  (∀ c', (c ≤ c')%nat → SL c' = []) → (∀ p, scovers SL p ↔ hs ≤ p < start c) →
  wp (init_slabs (drop c (imap pair SIZE_CLASSES)) region (start c))
     (λ _ k', ∃ SL', sinv R SL' k' ∧ kbuddy k' = kbuddy k ∧
        (∀ p, scovers SL' p ↔ hs ≤ p < start NUM_SIZE_CLASSES) ∧
        (∀ p, ¬ hs ≤ p < start NUM_SIZE_CLASSES → kmem k' !! p = kmem k !! p)) k.
Proof.
  revert c SL k. induction n as [|n IH]; intros c SL k Hn Hs Hemp Hcov.
  - rewrite drop_ge by (rewrite length_imap; unfold NUM_SIZE_CLASSES in *; lia).
    assert (c = NUM_SIZE_CLASSES) as -> by lia. apply wp_ret. by exists SL.
  - assert (Hc : (c < NUM_SIZE_CLASSES)%nat) by lia.
    rewrite (drop_S _ (c, csize c)) by (rewrite list_lookup_imap, size_classes_csize by done; done).
    cbn [init_slabs].
    assert (Hsize : align_down (region / Z.of_nat NUM_SIZE_CLASSES) (csize c) = aligned_bytes region c).
    { unfold align_down, csize. rewrite land_not_mask; [done| |].
      - unfold NUM_SIZE_CLASSES in Hc. simpl in Hc. lia.
      - change (Z.of_nat NUM_SIZE_CLASSES) with 10. pose proof (Z.div_pos region 10 Hreg ltac:(lia)).
        pose proof (Z.mul_div_le region 10 ltac:(lia)). lia. }
    rewrite Hsize. wp_step. eapply wp_mono; [by apply (add_slab_spec SL k c); [| |apply Hemp]|].
    intros [] k1 (SL1 & Hs1 & Hoth1 & Hbud1 & Hcov1 & Hmem1).
    pose proof (start_mono 0 c ltac:(lia)) as H0. simpl in H0.
    pose proof (start_mono c (S c) ltac:(lia)) as H1.
    pose proof (start_mono (S c) NUM_SIZE_CLASSES ltac:(lia)) as H2. pose proof start_last as H3.
    wp_step. wp_step; [apply cadd_some; simpl in *; lia|].
    eapply wp_mono; [apply (IH (S c) SL1 k1)|].
    + lia.
    + done.
    + intros c' Hc'. rewrite Hoth1 by lia. apply Hemp. lia.
    + intros p. rewrite Hcov1, Hcov. lia.
    + intros [] k2 (SL2 & Hs2 & Hbud2 & Hcov2 & Hmem2). exists SL2. split; [done|].
      split; [congruence|]. split; [done|]. intros p Hp. rewrite Hmem2, Hmem1; [done| |done]. lia.
Qed.
End init.

Lemma sinv_new hs region m : 0 < hs → (8 | hs) → 0 ≤ region → sinv (ranges_of hs region) (λ _, []) (knew m).
Proof.
  intros. split; [by apply ranges_geo| |done| |].
  - intros c Hc. unfold knew. cbn [slab_caches]. rewrite list_lookup_fmap. by rewrite size_classes_csize.
  - intros c a _ Ha. by apply not_elem_of_nil in Ha.
  - intros c _. apply list.NoDup_nil. done.
Qed.

Lemma kinit_spec m hs size : 0 < hs → (8 | hs) → 0 ≤ size → hs + size + 4096 < 2 ^ 64 →
  region_down (hs + size) - region_up (hs + size / 2) ≤ 2 ^ 30 →
  wp (kinit hs size)
    (λ _ k, ∃ SL FL, kinv (ranges_of hs (size / 2)) (region_up (hs + size / 2))
        (Z.max 0 (region_down (hs + size) - region_up (hs + size / 2))) SL FL k ∧
      (∀ p, kcovers SL FL p ↔ hs ≤ p < slab_start hs (size / 2) NUM_SIZE_CLASSES ∨
         region_up (hs + size / 2) ≤ p < region_down (hs + size)) ∧
      (∀ p, ¬ hs ≤ p < hs + size → kmem k !! p = m !! p)) (knew m).
Proof.
  intros Hhs Hal Hsz Hend Hcap. unfold kinit.
  assert (Hhalf : 0 ≤ size / 2 ≤ size).
  { pose proof (Z.div_pos size 2 Hsz ltac:(lia)). pose proof (Z.mul_div_le size 2 ltac:(lia)). lia. }
  set (region := size / 2) in *.
  wp_step. wp_step; [apply cadd_some; lia|]. wp_step. wp_step; [apply cadd_some; lia|].
  wp_step. wp_step; [apply csub_some; lia|]. wp_step.
  eapply wp_mono; [apply (init_slabs_spec hs region Hhs ltac:(lia) ltac:(lia) NUM_SIZE_CLASSES 0 (λ _, []))|].
  - done.
  - apply sinv_new; [done|done|lia].
  - done.
  - intros p. simpl. split; [|lia]. intros (c & a & _ & Ha & _). by apply not_elem_of_nil in Ha.
  - intros [] k1 (SL & Hs & Hbud & Hcov & Hmem). apply wp_zoom.
    pose proof (start_last hs region ltac:(lia)) as Hlast.
    unfold buddy_part. rewrite Hbud. simpl.
    replace (hs + size) with (hs + region + (size - region)) in Hcap |- * by lia.
    assert (Hup : hs + region ≤ region_up (hs + region)).
    { unfold region_up. pose proof (Z.div_mod (hs + region + 4095) 4096). pose proof (Z.mod_pos_bound (hs + region + 4095) 4096). lia. }
    eapply wp_mono; [apply (init_run (kmem k1) (hs + region) (size - region)); lia|].
    intros [] b (FL & Hinv & Hcovb & Hf). exists SL, FL.
    assert (Hlow : ∀ p, ¬ hs + region ≤ p < hs + size → bmem b !! p = kmem k1 !! p).
    { intros p Hp. apply Hf. lia. }
    assert (Hbelow : ∀ c, (c < NUM_SIZE_CLASSES)%nat → slab_start hs region (S c) ≤ hs + region).
    { intros c Hc. etrans; [|exact Hlast]. by apply start_mono; lia. }
    split; [|split].
    + split; [|by destruct b|].
      * apply sinv_mem; [done|]. intros p Hp%Hcov. apply Hlow. lia.
      * intros c Hc. specialize (Hbelow c Hc). cbn [en ranges_of]. lia.
    + intros p. unfold kcovers. by rewrite Hcov, Hcovb.
    + intros p Hp. simpl. rewrite Hlow, Hmem; [done|lia|lia].
Qed.
