(* ===== verification/KernelHeap.v ===== *)
(** * The kernel allocator: a client's whole run.

    A client of the global allocator allocates, writes to what it holds, and
    frees; [hstep] is that protocol as a step relation on the allocator's state
    and the list of live allocations.  The invariant [hinv] says that the live
    allocations and the free bytes partition the heap. *)
From S2P Require Import Prelude Buddy BuddyBlocks BuddyRepr BuddyLists BuddySpec BuddyInit KernelAlloc KernelSpec KernelInit.
Set Default Goal Selector "!".

(** The block behind a live pointer, whatever the free lists are. *)
Definition valid_at (R : ranges) (rs sz a : Z) (layout : Layout) : Prop :=
  (rs ≤ a ∧ block_ok rs sz a (size_to_order (block_request layout))) ∨
  (a < rs ∧ ∃ c, size_to_class (request layout) = Some c ∧ slab_block R c a).

Definition in_alloc (rs : Z) (x : Z * Layout) (p : Z) : Prop := x.1 ≤ p < x.1 + granted rs x.1 x.2.

(** The client's steps; [rs] only delimits what it may write. *)
Inductive hstep (rs : Z) : kstate * list (Z * Layout) → kstate * list (Z * Layout) → Prop :=
  | h_alloc k live layout r k' : 0 < lsize layout → alloc layout k = Some (r, k') → r ≠ 0 →
      hstep rs (k, live) (k', (r, layout) :: live)
  | h_alloc_null k live layout k' : 0 < lsize layout → alloc layout k = Some (0, k') →
      hstep rs (k, live) (k', live)
  | h_write k live x p v : x ∈ live → in_alloc rs x p →
      hstep rs (k, live) (mkK (<[p := v]> (kmem k)) (slab_caches k) (kbuddy k), live)
  | h_dealloc k l1 x l2 k' : dealloc x.1 x.2 k = Some (tt, k') →
      hstep rs (k, l1 ++ x :: l2) (k', l1 ++ l2).

(** [total]: the bytes the allocator started with. *)
Record hinv (R : ranges) (rs sz : Z) (total : Z → Prop) (st : kstate * list (Z * Layout)) : Prop := {
  hi_inv : ∃ SL FL, kinv R rs sz SL FL st.1 ∧
    (∀ p, total p ↔ kcovers SL FL p ∨ ∃ x, x ∈ st.2 ∧ in_alloc rs x p) ∧
    (∀ x p, x ∈ st.2 → in_alloc rs x p → ¬ kcovers SL FL p);
  hi_valid : ∀ x, x ∈ st.2 → valid_at R rs sz x.1 x.2 ∧ 0 < lsize x.2;
  hi_disj : ∀ i j x y p, st.2 !! i = Some x → st.2 !! j = Some y → in_alloc rs x p → in_alloc rs y p → i = j;
}.

Section heap.
Context (R : ranges) (rs sz : Z).
Implicit Types (SL FL : nat → list Z) (k : kstate) (layout : Layout).

Lemma bsize_in_block a o : in_block a o a.
Proof. unfold in_block. pose proof (bsize_pos o). lia. Qed.

(** Ownership is validity plus "no byte is free". *)
Lemma owned_split SL FL k a layout : kinv R rs sz SL FL k → owned R rs sz SL FL a layout →
  valid_at R rs sz a layout ∧ ∀ p, in_alloc rs (a, layout) p → ¬ kcovers SL FL p.
Proof.
  intros Hk [[Ha Hh]|[Ha (c & Hcl & Hb & Hn)]]; split.
  - left. split; [done|]. apply Hh.
  - unfold in_alloc. simpl. rewrite granted_buddy by done. intros p Hp [Hs|Hc].
    + pose proof (scovers_below R rs sz SL FL k p Hk Hs). lia.
    + by apply (hole_not_covered rs sz FL a _ p Hh).
  - right. split; [done|]. by exists c.
  - unfold in_alloc. simpl. rewrite (granted_slab rs a c) by done. intros p Hp [(c' & x & Hc' & Hx & Hp')|Hc].
    + pose proof (ki_slab _ _ _ _ _ _ Hk) as Hs.
      destruct (slab_blocks_disjoint R c c' a x (si_geo _ _ _ Hs) Hb) as [[<- <-]|?]; [by apply (si_blocks _ _ _ Hs)|done|].
      unfold in_slab_block in *. lia.
    + apply (covers_above rs sz) in Hc; [|apply Hk].
      destruct Hb as (Hcn & _ & _ & Hen). pose proof (ki_below _ _ _ _ _ _ Hk c Hcn). lia.
Qed.

Lemma owned_join SL FL a layout : valid_at R rs sz a layout →
  (∀ p, in_alloc rs (a, layout) p → ¬ kcovers SL FL p) → owned R rs sz SL FL a layout.
Proof.
  intros [[Ha Hb]|[Ha (c & Hcl & Hb)]] Hnc; unfold in_alloc in Hnc; simpl in Hnc.
  - left. split; [done|]. split; [done|]. rewrite granted_buddy in Hnc by done.
    intros o' a' Hf. unfold disjoint_blocks. pose proof (bsize_pos o').
    pose proof (bsize_pos (size_to_order (block_request layout))).
    destruct (decide (a + bsize (size_to_order (block_request layout)) ≤ a')); [by left|].
    destruct (decide (a' + bsize o' ≤ a)); [by right|]. exfalso.
    apply (Hnc (Z.max a a')); [lia|]. right. exists o', a'. split; [done|]. unfold in_block. lia.
  - right. split; [done|]. exists c. split; [done|]. split; [done|]. intros Hin.
    rewrite (granted_slab rs a c) in Hnc by done. pose proof (csize_pos c).
    apply (Hnc a); [lia|]. left. exists c, a. split; [apply Hb|]. split; [done|]. unfold in_slab_block. lia.
Qed.

(** Writing to bytes that are not free keeps the invariant. *)
Lemma kinv_client SL FL k m : kinv R rs sz SL FL k → (∀ p, kcovers SL FL p → m !! p = kmem k !! p) →
  kinv R rs sz SL FL (mkK m (slab_caches k) (kbuddy k)).
Proof.
  intros Hk Hm. split; [| |apply Hk].
  - apply sinv_mem; [apply Hk|]. intros p Hp. apply Hm. by left.
  - destruct (ki_buddy _ _ _ _ _ _ Hk) as [Hgeo Hr Hwf Hc]. split; [done| |done|done].
    apply (brepr_client rs sz FL (buddy_part k)); [done|]. intros p Hp. apply Hm. by right.
Qed.

(** A successful allocation: the new block was free and is disjoint from the others. *)
Lemma hinv_alloc total k live layout r k' : hinv R rs sz total (k, live) → 0 < lsize layout →
  alloc layout k = Some (r, k') → r ≠ 0 → hinv R rs sz total (k', (r, layout) :: live).
Proof.
  intros [(SL & FL & Hk & Htot & Hfree) Hval Hdis] Hsz Hr Hnz; simpl in *.
  destruct (proj1 (wp_run _ _ _) (alloc_spec R rs sz SL FL k layout Hk ltac:(lia))) as (r' & k1 & Hr' & Hpost).
  rewrite Hr in Hr'. injection Hr' as <- <-.
  destruct Hpost as [[? _]|(Hpos & _ & SL' & FL' & Hk' & Ho & Hcov & Hnc & _)]; [done|].
  destruct (owned_split SL' FL' k' r layout Hk' Ho) as [Hv Hn].
  assert (Hnew : ∀ p, in_alloc rs (r, layout) p → kcovers SL FL p).
  { intros p Hp. apply Hcov. by right. }
  split; simpl.
  - exists SL', FL'. split; [done|]. split.
    + intros p. rewrite Htot, Hcov. setoid_rewrite elem_of_cons. split.
      * intros [[?|?]|(y & ? & ?)]; [by left|right; exists (r, layout); auto|right; exists y; auto].
      * intros [?|(y & [->|?] & ?)]; [by left; left|left; by right|right; by exists y].
    + intros x p. rewrite elem_of_cons. intros [->|Hx] Hp; [by apply Hn|].
      intros Hc. apply (Hfree x p Hx Hp). apply Hcov. by left.
  - intros x. rewrite elem_of_cons. intros [->|Hx]; [done|by apply Hval].
  - intros [|i] [|j] x y p Hi Hj Hxp Hyp; simpl in *; [done| | |f_equal; by eapply Hdis].
    + injection Hi as <-. destruct (Hfree y p); [by eapply list_elem_of_lookup_2|done|by apply Hnew].
    + injection Hj as <-. destruct (Hfree x p); [by eapply list_elem_of_lookup_2|done|by apply Hnew].
Qed.

(** Positions in a list with one element removed. *)
Lemma lookup_remove {A} (l1 l2 : list A) z i y : (l1 ++ l2) !! i = Some y →
  ∃ i', (l1 ++ z :: l2) !! i' = Some y ∧ i' ≠ length l1 ∧ i' = if decide (i < length l1)%nat then i else S i.
Proof.
  intros Hi. destruct (decide (i < length l1)%nat).
  - exists i. rewrite lookup_app_l in Hi |- * by done. split; [done|]. split; [lia|done].
  - exists (S i). rewrite lookup_app_r in Hi |- * by lia. rewrite Nat.sub_succ_l by lia. simpl.
    split; [done|]. split; [lia|done].
Qed.

(** Freeing a live allocation. *)
Lemma hinv_dealloc total k l1 x l2 k' : hinv R rs sz total (k, l1 ++ x :: l2) →
  dealloc x.1 x.2 k = Some (tt, k') → hinv R rs sz total (k', l1 ++ l2).
Proof.
  intros [(SL & FL & Hk & Htot & Hfree) Hval Hdis] Hd; simpl in *.
  destruct (Hval x) as [Hv Hsz]; [apply elem_of_app; right; by left|]. destruct x as [a layout]. simpl in *.
  assert (Ho : owned R rs sz SL FL a layout).
  { apply owned_join; [done|]. intros p. apply Hfree, elem_of_app. right. by left. }
  destruct (proj1 (wp_run _ _ _) (dealloc_spec R rs sz SL FL k a layout Hk Ho Hsz)) as ([] & k1 & Hd' & SL' & FL' & Hk' & Hcov & _).
  rewrite Hd in Hd'. injection Hd' as <-.
  assert (Hsub : ∀ y, y ∈ l1 ++ l2 → y ∈ l1 ++ (a, layout) :: l2).
  { intros y. rewrite !elem_of_app, elem_of_cons. tauto. }
  assert (Hmid : (l1 ++ (a, layout) :: l2) !! length l1 = Some (a, layout)) by by rewrite list_lookup_middle.
  split; simpl.
  - exists SL', FL'. split; [done|]. split.
    + intros p. rewrite Htot, Hcov. setoid_rewrite elem_of_app. setoid_rewrite elem_of_cons. split.
      * intros [?|(y & [?|[->|?]] & ?)]; [by left; left|right; exists y; auto|left; by right|right; exists y; auto].
      * intros [[?|?]|(y & [?|?] & ?)]; [by left|right; exists (a, layout); auto|right; exists y; auto|right; exists y; auto].
    + intros y p Hy Hp Hc. apply Hcov in Hc as [Hc|Hc]; [by apply (Hfree y p (Hsub y Hy) Hp)|].
      apply list_elem_of_lookup_1 in Hy as [i Hi].
      destruct (lookup_remove l1 l2 (a, layout) i y Hi) as (i' & Hi' & Hne & _).
      apply Hne. by eapply Hdis.
  - intros y Hy. apply Hval. by apply Hsub.
  - intros i j x y p Hi Hj Hxp Hyp.
    destruct (lookup_remove l1 l2 (a, layout) i x Hi) as (i' & Hi' & _ & Ei),
      (lookup_remove l1 l2 (a, layout) j y Hj) as (j' & Hj' & _ & Ej).
    assert (i' = j') by by eapply Hdis.
    destruct (decide (i < length l1)%nat), (decide (j < length l1)%nat); lia.
Qed.

(** Every step the client can take keeps the invariant. *)
Lemma hinv_step total st st' : hinv R rs sz total st → hstep rs st st' → hinv R rs sz total st'.
Proof.
  intros Hi Hst. destruct Hst as [k live layout r k' Hsz Hr Hnz|k live layout k' Hsz Hr|k live x p v Hx Hp|k l1 x l2 k' Hd].
  - by apply hinv_alloc with k.
  - destruct Hi as [(SL & FL & Hk & Hrest) Hval Hdis]. simpl in *.
    destruct (proj1 (wp_run _ _ _) (alloc_spec R rs sz SL FL k layout Hk ltac:(lia))) as (r' & k1 & Hr' & Hpost).
    rewrite Hr in Hr'. injection Hr' as <- <-.
    destruct Hpost as [(_ & -> & _)|(? & _)]; [|lia]. split; simpl; [|done|done]. by exists SL, FL.
  - destruct Hi as [(SL & FL & Hk & Htot & Hfree) Hval Hdis]. simpl in *.
    split; simpl; [|done|done]. exists SL, FL. split; [|done]. apply (kinv_client SL FL k); [done|].
    intros q Hq. rewrite lookup_insert_ne; [done|]. intros ->. by apply (Hfree x q).
  - by apply hinv_dealloc with k x.
Qed.

Lemma hinv_steps total st st' : hinv R rs sz total st → rtc (hstep rs) st st' → hinv R rs sz total st'.
Proof. intros Hi Hr. induction Hr as [|? ? ? Hs _ IH]; [done|]. apply IH. by eapply hinv_step. Qed.

(** In an invariant state no call of the client can panic. *)
Lemma hinv_alloc_total total st layout : hinv R rs sz total st → 0 < lsize layout →
  is_Some (alloc layout st.1).
Proof.
  intros [(SL & FL & Hk & _) _ _] Hsz.
  destruct (proj1 (wp_run _ _ _) (alloc_spec R rs sz SL FL st.1 layout Hk ltac:(lia))) as (r & k & -> & _). done.
Qed.
Lemma hinv_dealloc_total total st x : hinv R rs sz total st → x ∈ st.2 → is_Some (dealloc x.1 x.2 st.1).
Proof.
  intros [(SL & FL & Hk & _ & Hfree) Hval _] Hx. destruct (Hval x Hx) as [Hv Hsz]. destruct x as [a layout].
  destruct (proj1 (wp_run _ _ _) (dealloc_spec R rs sz SL FL st.1 a layout Hk
    ltac:(apply owned_join; [done|intros p; by apply Hfree]) Hsz)) as ([] & k & Hd & _).
  simpl. by rewrite Hd.
Qed.
End heap.
