(* ===== verification/KernelProps.v ===== *)
(** * The kernel allocator: the theorems.

    What initialisation, one call of [alloc] or [dealloc], and a whole run of a
    client of the global allocator guarantee; the alignment of the pointers. *)
From S2P Require Import Prelude Buddy BuddyBlocks BuddyRepr BuddyLists BuddySpec BuddyInit KernelAlloc KernelSpec KernelInit KernelHeap.
Set Default Goal Selector "!".

(** Initialising the heap of the kernel over any 8-byte aligned region whose
    upper half has at most 1 GiB of pages terminates without panic: the free
    bytes are exactly the slabs at the bottom (ten runs of whole blocks) and the
    whole pages of the upper half; no word outside the heap is written. *)
Theorem kernel_init_correct (m : memory) (hs size : Z)
    (Hpos : 0 < hs) (Halign : (8 | hs)) (Hsize : 0 ≤ size) (Hend : hs + size + 4096 < 2 ^ 64)
    (Hcap : region_down (hs + size) - region_up (hs + size / 2) ≤ 2 ^ 30) :
  ∃ k SL FL, kinit hs size (knew m) = Some (tt, k) ∧
    kinv (ranges_of hs (size / 2)) (region_up (hs + size / 2))
      (Z.max 0 (region_down (hs + size) - region_up (hs + size / 2))) SL FL k ∧
    (∀ p, kcovers SL FL p ↔ hs ≤ p < slab_start hs (size / 2) NUM_SIZE_CLASSES ∨
       region_up (hs + size / 2) ≤ p < region_down (hs + size)) ∧
    (∀ p, ¬ hs ≤ p < hs + size → kmem k !! p = m !! p).
Proof.
  destruct (proj1 (wp_run _ _ _) (kinit_spec m hs size Hpos Halign Hsize Hend Hcap)) as ([] & k & Hk & SL & FL & H).
  exists k, SL, FL. split; [exact Hk|exact H].
Qed.

(** Witness: the 256 KiB heap of the allocator's visualisation. *)
Lemma kernel_init_correct_witness :
  ∃ k SL FL, kinit 0x100000 0x40000 (knew ∅) = Some (tt, k) ∧
    kinv (ranges_of 0x100000 0x20000) 0x120000 0x20000 SL FL k.
Proof.
  destruct (kernel_init_correct ∅ 0x100000 0x40000 ltac:(lia) ltac:(exists 0x20000; lia) ltac:(lia) ltac:(lia)
    ltac:(vm_compute; discriminate)) as (k & SL & FL & Hk & Hinv & _).
  exists k, SL, FL. split; [exact Hk|exact Hinv].
Defined.

(** The heap of the other witnesses. *)
Definition demo_kinit : option (unit * kstate) := kinit 0x100000 0x40000 (knew ∅).
Definition demo_rs : Z := 0x120000.
Definition demo_sz : Z := 0x20000.
Definition demo_ranges : ranges := ranges_of 0x100000 0x20000.

Lemma demo_heap : ∃ k SL FL, demo_kinit = Some (tt, k) ∧ kinv demo_ranges demo_rs demo_sz SL FL k.
Proof.
  destruct (proj1 (wp_run _ _ _) (kinit_spec ∅ 0x100000 0x40000 ltac:(lia) ltac:(exists 0x20000; lia) ltac:(lia) ltac:(lia)
    ltac:(vm_compute; discriminate))) as ([] & k & Hk & SL & FL & Hinv & _).
  exists k, SL, FL. split; [exact Hk|exact Hinv].
Defined.

(** C32: On a heap in the invariant, [alloc] never panics.  It answers null, changing
    nothing, only if the cache of the request's class is empty and every free
    buddy block is smaller than the request; otherwise it hands out a pointer to
    at least [max size align] bytes, all of which were free and none of which
    is free afterwards; every other free byte stays free and no word that was
    in use is written. *)
Theorem kernel_alloc_correct (R : ranges) (rs sz : Z) (SL FL : nat → list Z) (k : kstate) (layout : Layout)
    (Hinv : kinv R rs sz SL FL k) (Hsize : 0 ≤ lsize layout) :
  ∃ r k', alloc layout k = Some (r, k') ∧ kalloc_post R rs sz SL FL k layout r k'.
Proof. apply wp_run. by apply alloc_spec. Qed.

(** Witness: one request served by a slab, one by the buddy allocator. *)
Lemma kernel_alloc_correct_witness :
  ∃ k r1 k1 r2 k2, demo_kinit = Some (tt, k) ∧
    alloc (mkLayout 100 8) k = Some (r1, k1) ∧ alloc (mkLayout 5000 8) k = Some (r2, k2).
Proof.
  destruct demo_heap as (k & SL & FL & Hk & Hinv).
  destruct (kernel_alloc_correct _ _ _ SL FL k (mkLayout 100 8) Hinv ltac:(simpl; lia)) as (r1 & k1 & H1 & _).
  destruct (kernel_alloc_correct _ _ _ SL FL k (mkLayout 5000 8) Hinv ltac:(simpl; lia)) as (r2 & k2 & H2 & _).
  exists k, r1, k1, r2, k2. split; [exact Hk|]. split; [exact H1|exact H2].
Defined.

(** [dealloc] of a live allocation never panics, gives exactly the bytes of its
    block back, and writes only to it and to bytes that were free. *)
Theorem kernel_dealloc_correct (R : ranges) (rs sz : Z) (SL FL : nat → list Z) (k : kstate) (a : Z) (layout : Layout)
    (Hinv : kinv R rs sz SL FL k) (Hown : owned R rs sz SL FL a layout) (Hsize : 0 < lsize layout) :
  ∃ k' SL' FL', dealloc a layout k = Some (tt, k') ∧ kinv R rs sz SL' FL' k' ∧
    (∀ p, kcovers SL' FL' p ↔ kcovers SL FL p ∨ a ≤ p < a + granted rs a layout) ∧
    (∀ p, ¬ kcovers SL FL p → ¬ a ≤ p < a + granted rs a layout → kmem k' !! p = kmem k !! p).
Proof.
  destruct (proj1 (wp_run _ _ _) (dealloc_spec R rs sz SL FL k a layout Hinv Hown Hsize))
    as ([] & k' & Hd & SL' & FL' & Hinv' & Hcov & _ & _ & Hmem).
  exists k', SL', FL'. split; [exact Hd|]. split; [exact Hinv'|]. split; [exact Hcov|exact Hmem].
Qed.

(** Witness: give the first block of the 128-byte slab back. *)
Lemma kernel_dealloc_correct_witness :
  ∃ k k1 r k2, demo_kinit = Some (tt, k) ∧ alloc (mkLayout 100 8) k = Some (r, k1) ∧
    dealloc r (mkLayout 100 8) k1 = Some (tt, k2).
Proof.
  destruct demo_heap as (k & SL & FL & Hk & Hinv).
  destruct (proj1 (wp_run _ _ _) (alloc_spec _ _ _ SL FL k (mkLayout 100 8) Hinv ltac:(simpl; lia))) as (r & k1 & H1 & Hpost).
  assert (Hr : (match demo_kinit with Some (_, k0) => fst <$> alloc (mkLayout 100 8) k0 | None => None end) ≠ Some 0).
  { vm_compute. discriminate. }
  rewrite Hk in Hr. rewrite H1 in Hr. simpl in Hr.
  destruct Hpost as [[-> _]|(_ & _ & SL' & FL' & Hk' & Ho & _)]; [congruence|].
  destruct (kernel_dealloc_correct _ _ _ SL' FL' k1 r (mkLayout 100 8) Hk' Ho ltac:(simpl; lia))
    as (k2 & _ & _ & Hd & _).
  exists k, k1, r, k2. split; [exact Hk|]. split; [exact H1|exact Hd].
Defined.

(** C1: A client of the global allocator that follows its protocol (allocate,
    write to what it holds, free what it holds, in any order and any number of
    times) can never make it panic; at every moment the live allocations are
    pairwise disjoint and lie in the heap, and the free bytes are exactly the
    initial ones less theirs, so when everything is freed everything is free. *)
Theorem kernel_heap_safe (R : ranges) (rs sz : Z) (SL FL : nat → list Z) (k0 k : kstate) (live : list (Z * Layout))
    (Hinv : kinv R rs sz SL FL k0) (Hrun : rtc (hstep rs) (k0, []) (k, live)) :
  (∀ layout, 0 < lsize layout → is_Some (alloc layout k)) ∧
  (∀ x, x ∈ live → is_Some (dealloc x.1 x.2 k) ∧ ∀ p, in_alloc rs x p → kcovers SL FL p) ∧
  (∀ i j x y p, live !! i = Some x → live !! j = Some y → in_alloc rs x p → in_alloc rs y p → i = j) ∧
  (∃ SL' FL', kinv R rs sz SL' FL' k ∧
     (∀ p, kcovers SL' FL' p ↔ kcovers SL FL p ∧ ¬ ∃ x, x ∈ live ∧ in_alloc rs x p)).
Proof.
  assert (Hi : hinv R rs sz (kcovers SL FL) (k, live)).
  { eapply hinv_steps; [|done]. split; simpl; [|intros x Hx; by apply not_elem_of_nil in Hx|by intros [|?]].
    exists SL, FL. split; [done|]. split; [|intros x p Hx; by apply not_elem_of_nil in Hx].
    intros p. split; [by left|]. intros [?|(x & Hx & _)]; [done|by apply not_elem_of_nil in Hx]. }
  split; [intros layout; by apply (hinv_alloc_total R rs sz _ _ layout Hi)|]. pose proof Hi as [Hex Hval Hdis].
  split; [|split; [exact Hdis|]].
  - intros x Hx. split; [apply (hinv_dealloc_total R rs sz (kcovers SL FL) (k, live)); done|].
    destruct Hex as (SL1 & FL1 & _ & Htot & _). intros p Hp. apply Htot. right. by exists x.
  - destruct Hex as (SL' & FL' & Hk & Htot & Hfree). exists SL', FL'. split; [done|].
    intros p. rewrite Htot. split.
    + intros Hc. split; [by left|]. intros (x & Hx & Hp). by apply (Hfree x p).
    + intros [[?|?] Hn]; [done|by destruct Hn].
Qed.

(** Witness: a slab block allocated, written and freed. *)
Lemma kernel_heap_safe_witness :
  ∃ k k1, demo_kinit = Some (tt, k) ∧ rtc (hstep demo_rs) (k, []) (k1, []) ∧ is_Some (alloc (mkLayout 64 8) k1).
Proof.
  destruct demo_heap as (k & SL & FL & Hk & Hinv).
  destruct (proj1 (wp_run _ _ _) (alloc_spec _ _ _ SL FL k (mkLayout 100 8) Hinv ltac:(simpl; lia))) as (r & k1 & H1 & Hpost).
  assert (Hr : (match demo_kinit with Some (_, k0) => fst <$> alloc (mkLayout 100 8) k0 | None => None end) ≠ Some 0).
  { vm_compute. discriminate. }
  rewrite Hk in Hr. rewrite H1 in Hr. simpl in Hr.
  destruct Hpost as [[-> _]|(Hpos & _ & SL' & FL' & Hk' & Ho & _)]; [congruence|].
  destruct (proj1 (wp_run _ _ _) (dealloc_spec _ _ _ SL' FL' k1 r (mkLayout 100 8) Hk' Ho ltac:(simpl; lia)))
    as ([] & k2 & Hd & _).
  assert (Hrun : rtc (hstep demo_rs) (k, []) (k2, [])).
  { eapply rtc_l; [apply (h_alloc _ k [] (mkLayout 100 8) r k1); [simpl; lia|exact H1|lia]|].
    eapply rtc_l; [apply (h_dealloc _ k1 [] (r, mkLayout 100 8) [] k2); exact Hd|]. apply rtc_refl. }
  exists k, k2. split; [exact Hk|]. split; [exact Hrun|].
  apply (kernel_heap_safe _ _ _ SL FL k k2 [] Hinv Hrun). simpl. lia.
Defined.

(** Every pointer [alloc] hands out is a multiple of 8, and one that comes from
    the buddy allocator is page aligned. *)
Theorem kernel_alloc_alignment (R : ranges) (rs sz : Z) (SL FL : nat → list Z) (k k' : kstate) (layout : Layout) (r : Z)
    (Hinv : kinv R rs sz SL FL k) (Hsize : 0 ≤ lsize layout) (Hrun : alloc layout k = Some (r, k')) :
  (8 | r) ∧ (rs ≤ r → (4096 | r)).
Proof.
  destruct (proj1 (wp_run _ _ _) (alloc_spec R rs sz SL FL k layout Hinv Hsize)) as (r' & k1 & Hr & Hpost).
  rewrite Hrun in Hr. injection Hr as <- <-.
  destruct Hpost as [[-> _]|(Hpos & _ & SL' & FL' & Hk' & Ho & _)]; [split; [|intros _]; apply Z.divide_0_r|].
  pose proof (bi_geo _ _ _ _ (ki_buddy _ _ _ _ _ _ Hinv)) as Hgeo.
  assert (Hpage : rs ≤ r → (4096 | r)).
  { intros Hrs. destruct Ho as [[_ [(_ & _ & Hd & _) _]]|[? _]]; [|lia].
    replace r with ((r - rs) + rs) by lia. apply Z.divide_add_r; [|apply Hgeo].
    eapply Z.divide_trans; [|exact Hd]. unfold bsize. rewrite Z.pow_add_r by lia. apply Z.divide_factor_l. }
  split; [|exact Hpage]. destruct (Z.le_gt_cases rs r) as [Hle|Hgt].
  - eapply Z.divide_trans; [|by apply Hpage]. by exists 512.
  - destruct Ho as [[? _]|[_ (c & _ & Hb & _)]]; [lia|].
    destruct (slab_block_ptr_ok R c r (si_geo _ _ _ (ki_slab _ _ _ _ _ _ Hinv)) Hb) as [Hok _].
    unfold ptr_ok in Hok. apply andb_true_iff in Hok as [_ Hok]. by apply Z.mod_divide, Z.eqb_eq.
Qed.

(** Witness: a slab pointer and a buddy pointer. *)
Lemma kernel_alloc_alignment_witness :
  ∃ k r k1, demo_kinit = Some (tt, k) ∧ alloc (mkLayout 5000 8) k = Some (r, k1) ∧ (4096 | r).
Proof.
  destruct demo_heap as (k & SL & FL & Hk & Hinv).
  destruct (proj1 (wp_run _ _ _) (alloc_spec _ _ _ SL FL k (mkLayout 5000 8) Hinv ltac:(simpl; lia))) as (r & k1 & H1 & _).
  assert (Hr : (match demo_kinit with Some (_, k0) => fst <$> alloc (mkLayout 5000 8) k0 | None => None end) = Some 0x120000).
  { vm_compute. reflexivity. }
  rewrite Hk in Hr. rewrite H1 in Hr. simpl in Hr. injection Hr as ->.
  exists k, 0x120000, k1. split; [exact Hk|]. split; [exact H1|].
  apply (kernel_alloc_alignment _ _ _ SL FL k k1 (mkLayout 5000 8) 0x120000 Hinv ltac:(simpl; lia) H1).
  vm_compute. discriminate.
Defined.

(** The alignment of the request is not honoured in general: on the 256 KiB
    heap a 256-byte request aligned to 256 gets a pointer that is 128 modulo
    256, because a slab starts where the slab of the class below ends. *)
Theorem kernel_alloc_misaligned :
  (match demo_kinit with
   | Some (_, k) => (λ x, x.1 mod 256) <$> alloc (mkLayout 256 256) k
   | None => None
   end) = Some 128.
Proof. vm_compute. reflexivity. Qed.
