(* ===== verification/BootInfo.v ===== *)
(** * What the boot loader hands to the kernel ([common/src/boot_info.rs]) and
    the UEFI memory types ([common/src/uefi/mod.rs]); the [repr(C)] layouts of the
    structures shared with the firmware and of the kernel file's headers
    ([common/src/elf.rs]). *)
From S2P Require Import Prelude.
Set Default Goal Selector "!".

Record FramebufferInfo := mkFb {
  fb_base : Z; fb_size : Z; fb_width : Z; fb_height : Z; fb_stride : Z }.

Record MemoryRegion := mkRegion { r_start : Z; r_size : Z; r_type : Z }.

Definition MAX_MEMORY_REGIONS : Z := 256.

(** [memory_map] is the array of [MAX_MEMORY_REGIONS] regions. *)
Record BootInfo := mkBootInfo {
  framebuffer : FramebufferInfo;
  memory_map : list MemoryRegion;
  memory_map_count : Z;
  rsdp_address : Z;
  max_physical_address : Z }.

Definition BootInfo_new : BootInfo :=
  mkBootInfo (mkFb 0 0 0 0 0) (replicate (Z.to_nat MAX_MEMORY_REGIONS) (mkRegion 0 0 0)) 0 0 0.

(** Memory types of the UEFI memory map. *)
Definition EFI_RESERVED_MEMORY_TYPE : Z := 0.
Definition EFI_LOADER_CODE : Z := 1.
Definition EFI_LOADER_DATA : Z := 2.
Definition EFI_BOOT_SERVICES_CODE : Z := 3.
Definition EFI_BOOT_SERVICES_DATA : Z := 4.
Definition EFI_RUNTIME_SERVICES_CODE : Z := 5.
Definition EFI_RUNTIME_SERVICES_DATA : Z := 6.
Definition EFI_CONVENTIONAL_MEMORY : Z := 7.
Definition EFI_UNUSABLE_MEMORY : Z := 8.
Definition EFI_ACPI_RECLAIM_MEMORY : Z := 9.
Definition EFI_ACPI_MEMORY_NVS : Z := 10.
Definition EFI_MEMORY_MAPPED_IO : Z := 11.
Definition EFI_MEMORY_MAPPED_IO_PORT_SPACE : Z := 12.
Definition EFI_PAL_CODE : Z := 13.

(** ** [repr(C)]
    Each field at the next multiple of its alignment; the size is rounded up to the
    largest alignment.  Pointers, handles, functions and [usize] have 64 bits. *)
Record ctype := mkCtype { size_of : Z; align_of : Z }.
Definition scalar (n : Z) : ctype := mkCtype n n.
Definition c_u8 : ctype := scalar 1.
Definition c_u16 : ctype := scalar 2.
Definition c_u32 : ctype := scalar 4.
Definition c_u64 : ctype := scalar 8.
Definition c_ptr : ctype := scalar 8.
Definition c_array (t : ctype) (n : Z) : ctype := mkCtype (n * size_of t) (align_of t).
Definition fields : Type := list (string * ctype).
Definition round_to (a o : Z) : Z := (o + a - 1) / a * a.
Fixpoint offsets_from (o : Z) (fs : fields) : list (string * Z) :=
  match fs with [] => [] | (x, t) :: fs => (x, round_to (align_of t) o) :: offsets_from (round_to (align_of t) o + size_of t) fs end.
Fixpoint end_from (o : Z) (fs : fields) : Z :=
  match fs with [] => o | (_, t) :: fs => end_from (round_to (align_of t) o + size_of t) fs end.
Definition struct_align (fs : fields) : Z := foldr (λ f a, Z.max (align_of f.2) a) 1 fs.
Definition struct (fs : fields) : ctype := mkCtype (round_to (struct_align fs) (end_from 0 fs)) (struct_align fs).
Definition offset_of (fs : fields) (x : string) : option Z := (λ f, f.2.2) <$> list_find (λ f, f.1 = x) (offsets_from 0 fs).

(** [common/src/uefi/mod.rs]. *)
Definition EfiGuid_fields : fields := [("data1", c_u32); ("data2", c_u16); ("data3", c_u16); ("data4", c_array c_u8 8)]%string.
Definition EfiTableHeader : fields := [("signature", c_u64); ("revision", c_u32); ("header_size", c_u32); ("crc32", c_u32); ("reserved", c_u32)]%string.
Definition EfiGraphicsOutputModeInformation : fields :=
  [("version", c_u32); ("horizontal_resolution", c_u32); ("vertical_resolution", c_u32); ("pixel_format", c_u32); ("pixel_information", c_array c_u32 4); ("pixels_per_scan_line", c_u32)]%string.
Definition EfiGraphicsOutputProtocolMode : fields :=
  [("max_mode", c_u32); ("mode", c_u32); ("info", c_ptr); ("size_of_info", c_ptr); ("frame_buffer_base", c_u64); ("frame_buffer_size", c_ptr)]%string.
Definition EfiGraphicsOutputProtocol : fields := [("query_mode", c_ptr); ("set_mode", c_ptr); ("blt", c_ptr); ("mode", c_ptr)]%string.
Definition SimpleTextOutputMode : fields :=
  [("max_mode", c_u32); ("mode", c_u32); ("attribute", c_u32); ("cursor_column", c_u32); ("cursor_row", c_u32); ("cursor_visible", c_u8)]%string.
Definition EfiSimpleTextOutputProtocol : fields :=
  [("reset", c_ptr); ("output_string", c_ptr); ("test_string", c_ptr); ("query_mode", c_ptr); ("set_mode", c_ptr); ("set_attribute", c_ptr); ("clear_screen", c_ptr);
   ("set_cursor_position", c_ptr); ("enable_cursor", c_ptr); ("mode", c_ptr)]%string.
Definition EfiMemoryDescriptor_fields : fields := [("type", c_u32); ("physical_start", c_u64); ("virtual_start", c_u64); ("number_of_pages", c_u64); ("attribute", c_u64)]%string.
Definition EfiBootServices : fields :=
  [("hdr", struct EfiTableHeader); ("_pad1", c_array c_ptr 4); ("get_memory_map", c_ptr); ("_pad2", c_array c_ptr 21); ("exit_boot_services", c_ptr); ("_pad3", c_array c_ptr 8);
   ("handle_protocol", c_ptr); ("_pad4", c_array c_ptr 1); ("locate_protocol", c_ptr)]%string.
Definition EfiSystemTable : fields :=
  [("hdr", struct EfiTableHeader); ("firmware_vendor", c_ptr); ("firmware_revision", c_u32); ("console_in_handle", c_ptr); ("con_in", c_ptr); ("console_out_handle", c_ptr); ("con_out", c_ptr);
   ("console_err_handle", c_ptr); ("std_err", c_ptr); ("runtime_services", c_ptr); ("boot_services", c_ptr); ("number_of_table_entries", c_ptr); ("configuration_table", c_ptr)]%string.
Definition EfiConfigurationTable_fields : fields := [("vendor_guid", struct EfiGuid_fields); ("vendor_table", c_u64)]%string.
Definition EfiFileProtocol : fields :=
  [("revision", c_u64); ("open", c_ptr); ("close", c_ptr); ("delete", c_ptr); ("read", c_ptr); ("write", c_ptr); ("get_position", c_ptr); ("set_position", c_ptr); ("get_info", c_ptr);
   ("set_info", c_ptr); ("flush", c_ptr)]%string.
Definition EfiSimpleFileSystemProtocol : fields := [("revision", c_u64); ("open_volume", c_ptr)]%string.
Definition EfiLoadedImageProtocol : fields := [("revision", c_u32); ("parent_handle", c_ptr); ("system_table", c_ptr); ("device_handle", c_ptr)]%string.
(** The assertions the compiler checks. *)
Definition layout_assertions : list bool :=
  [bool_decide (size_of (struct EfiTableHeader) = 24); bool_decide (offset_of EfiGraphicsOutputProtocol "mode" = Some 24);
   bool_decide (offset_of EfiBootServices "get_memory_map" = Some 56); bool_decide (offset_of EfiBootServices "exit_boot_services" = Some 232);
   bool_decide (offset_of EfiBootServices "handle_protocol" = Some 304); bool_decide (offset_of EfiBootServices "locate_protocol" = Some 320); bool_decide (offset_of EfiSystemTable "boot_services" = Some 96)].
(** [common/src/elf.rs]. *)
Definition Elf64Header : fields :=
  [("e_ident", c_array c_u8 16); ("e_type", c_u16); ("e_machine", c_u16); ("e_version", c_u32); ("e_entry", c_u64); ("e_phoff", c_u64); ("e_shoff", c_u64); ("e_flags", c_u32);
   ("e_ehsize", c_u16); ("e_phentsize", c_u16); ("e_phnum", c_u16); ("e_shentsize", c_u16); ("e_shnum", c_u16); ("e_shstrndx", c_u16)]%string.
Definition Elf64ProgramHeader : fields :=
  [("p_type", c_u32); ("p_flags", c_u32); ("p_offset", c_u64); ("p_vaddr", c_u64); ("p_paddr", c_u64); ("p_filesz", c_u64); ("p_memsz", c_u64); ("p_align", c_u64)]%string.

(** *** What the rule gives *)
Definition ctype_ok (t : ctype) : Prop := 0 < align_of t ∧ 0 ≤ size_of t ∧ (align_of t | size_of t).
Lemma round_to_spec a o : 0 < a → o ≤ round_to a o < o + a ∧ (a | round_to a o).
Proof. intros Ha. unfold round_to. split; [|apply Z.divide_factor_r]. pose proof (Z.div_mod (o + a - 1) a ltac:(lia)). pose proof (Z.mod_pos_bound (o + a - 1) a Ha). lia. Qed.
Lemma offsets_spec fs : Forall (λ f, ctype_ok f.2) fs → ∀ o, o ≤ end_from o fs ∧
  ∀ i x t y d, fs !! i = Some (x, t) → offsets_from o fs !! i = Some (y, d) →
    y = x ∧ o ≤ d ∧ (align_of t | d) ∧ d + size_of t ≤ end_from o fs ∧ ∀ j y' d', (i < j)%nat → offsets_from o fs !! j = Some (y', d') → d + size_of t ≤ d'.
Proof.
  induction 1 as [|[x t] fs (Ha & Hs & _) _ IH]; intros o; cbn [offsets_from end_from]; [split; [lia|by intros [|i]]|]. cbn [snd] in *.
  destruct (round_to_spec (align_of t) o Ha) as [[Hge _] Hd]. destruct (IH (round_to (align_of t) o + size_of t)) as [Hle Hrest]. split; [lia|].
  assert (Hlen : length (offsets_from (round_to (align_of t) o + size_of t) fs) = length fs).
  { clear. generalize (round_to (align_of t) o + size_of t). induction fs as [|[x' t'] fs IH]; intros o'; cbn; [done|by rewrite IH]. }
  intros [|i] x1 t1 y d H1 H2; cbn in H1, H2.
  - injection H1 as <- <-. injection H2 as <- <-. split_and!; [done|exact Hge|exact Hd|exact Hle|]. intros [|j] y' d' Hj Hj'; [lia|]. cbn in Hj'. pose proof (lookup_lt_Some _ _ _ Hj') as Hlt.
    rewrite Hlen in Hlt. destruct (lookup_lt_is_Some_2 fs j Hlt) as [[x2 t2] Ht2]. destruct (Hrest j x2 t2 y' d' Ht2 Hj') as (_ & Hle' & _). exact Hle'.
  - destruct (Hrest i x1 t1 y d H1 H2) as (-> & Hod & Hdiv & Hend & Hnext). split_and!; [done|lia|done|done|]. intros [|j] y' d' Hj Hj'; [lia|]. cbn in Hj'. apply (Hnext j y' d'); [lia|done].
Qed.
(** Fields are aligned, do not overlap and lie inside. *)
Lemma struct_fields fs : Forall (λ f, ctype_ok f.2) fs → ctype_ok (struct fs) ∧
  ∀ i x t y d, fs !! i = Some (x, t) → offsets_from 0 fs !! i = Some (y, d) → y = x ∧ 0 ≤ d ∧ (align_of t | d) ∧ d + size_of t ≤ size_of (struct fs) ∧
    ∀ j y' d', (i < j)%nat → offsets_from 0 fs !! j = Some (y', d') → d + size_of t ≤ d'.
Proof.
  intros Hf. destruct (offsets_spec fs Hf 0) as [H0 Ho]. assert (Ha : 1 ≤ struct_align fs) by (unfold struct_align; clear; induction fs as [|f fs IH]; cbn [foldr]; lia).
  destruct (round_to_spec (struct_align fs) (end_from 0 fs) ltac:(lia)) as [[Hge _] Hd]. split; [split_and!; cbn; [lia|lia|done]|].
  intros i x t y d H1 H2. destruct (Ho i x t y d H1 H2) as (? & ? & ? & ? & ?). split_and!; try done. cbn. lia.
Qed.
Lemma layouts_checked : forallb id layout_assertions = true.
Proof. vm_compute. reflexivity. Qed.
