(* ===== verification/X86.v ===== *)
(** * The processor's view: four-level address translation.

    The specification the page-table code is proved against.  [walk mem cr3 v]
    is the translation of the virtual address [v] when the tables in physical
    memory are [mem] (the 512 entries of the table at a physical address):
    canonicality, the four levels, 1 GiB and 2 MiB leaves, and the permissions
    accumulated over the levels. *)
From S2P Require Import Prelude.
Set Default Goal Selector "!".

Record mapping := mkMapping { m_phys : Z; m_writable : bool; m_nx : bool; m_uncached : bool }.

Definition frame_of (e : Z) : Z := Z.land e 0x000FFFFFFFFFF000.
Definition e_present (e : Z) : bool := Z.testbit e 0.
Definition e_writable (e : Z) : bool := Z.testbit e 1.
Definition e_uncached (e : Z) : bool := Z.testbit e 4.
Definition e_large (e : Z) : bool := Z.testbit e 7.
Definition e_nx (e : Z) : bool := Z.testbit e 63.

Definition canonical (v : Z) : bool := (v <? 2 ^ 47) || (2 ^ 64 - 2 ^ 47 <=? v).

(** Entry [i] of the table [e] refers to. *)
Definition next_entry (mem : Z → option (list Z)) (e i : Z) : option Z :=
  t ← mem (frame_of e); t !! Z.to_nat i.

(** The leaf [e] of a page of [size] bytes, under permissions [w], [nx]. *)
Definition leaf (e size v : Z) (w nx : bool) : mapping :=
  mkMapping (frame_of e / size * size + v mod size) (w && e_writable e) (nx || e_nx e) (e_uncached e).

Definition walk (mem : Z → option (list Z)) (cr3 v : Z) : option mapping :=
  if negb (canonical v) then None else
  e4 ← next_entry mem cr3 ((v / 2 ^ 39) mod 512);
  if negb (e_present e4) then None else
  e3 ← next_entry mem e4 ((v / 2 ^ 30) mod 512);
  if negb (e_present e3) then None else
  if e_large e3 then Some (leaf e3 (2 ^ 30) v (e_writable e4) (e_nx e4)) else
  e2 ← next_entry mem e3 ((v / 2 ^ 21) mod 512);
  if negb (e_present e2) then None else
  if e_large e2 then Some (leaf e2 (2 ^ 21) v (e_writable e4 && e_writable e3) (e_nx e4 || e_nx e3)) else
  e1 ← next_entry mem e2 ((v / 2 ^ 12) mod 512);
  if negb (e_present e1) then None else
  Some (leaf e1 (2 ^ 12) v (e_writable e4 && e_writable e3 && e_writable e2) (e_nx e4 || e_nx e3 || e_nx e2)).
