(* ===== verification/Paging.v ===== *)
(** * Kernel page tables ([kernel/src/paging.rs], with the symbols of
    [kernel/linker.ld] and the guard page of [kernel/src/stack.rs]).

    The state is the four static tables, the cached CPUID answer, CR3 and
    RFLAGS; [tlb_stale] records that an entry changed since CR3 was last
    written.  Addresses of the linker symbols and of the static tables are
    fields of [kernel_image]; CPUID is a function of the leaf. *)
From S2P Require Import Prelude Addr BootInfo.
Set Default Goal Selector "!".

Definition PAGE_TABLE_ENTRY_COUNT : Z := 512.
Definition PAGE_SIZE : Z := 4096.
Definition HUGE_PAGE_SIZE_2MB : Z := 2 * 1024 * 1024.
Definition HUGE_PAGE_SIZE_1GB : Z := 1024 * 1024 * 1024.
Definition HUGE_PAGE_2MB_OFFSET_MASK : Z := 0x1FFFFF.
Definition HUGE_PAGE_1GB_OFFSET_MASK : Z := 0x3FFFFFFF.
Definition PAGE_TABLE_COVERAGE : Z := PAGE_TABLE_ENTRY_COUNT * PAGE_SIZE.
Definition PAGE_OFFSET_MASK : Z := 0xFFF.
Definition PHYSICAL_ADDRESS_MASK : Z := 0x000FFFFFFFFFF000.
Definition PML4_KERNEL_INDEX : Z := 256.
Definition MAX_SUPPORTED_MEMORY_GB : Z := 8.
Definition PT_COUNT : Z := MAX_SUPPORTED_MEMORY_GB * 512.
Definition RFLAGS_IF : Z := Z.shiftl 1 9.

Definition is_2mb_aligned (addr : Z) : bool := Z.land addr HUGE_PAGE_2MB_OFFSET_MASK =? 0.
Definition is_1gb_aligned (addr : Z) : bool := Z.land addr HUGE_PAGE_1GB_OFFSET_MASK =? 0.

Inductive PageTableFlags :=
  | Present | Writable | UserAccessible | WriteThrough | CacheDisable
  | Accessed | Dirty | HugePage | Global | NoExecute.
(** [flag as u64]. *)
Definition flag (f : PageTableFlags) : Z :=
  match f with
  | Present => Z.shiftl 1 0 | Writable => Z.shiftl 1 1 | UserAccessible => Z.shiftl 1 2
  | WriteThrough => Z.shiftl 1 3 | CacheDisable => Z.shiftl 1 4 | Accessed => Z.shiftl 1 5
  | Dirty => Z.shiftl 1 6 | HugePage => Z.shiftl 1 7 | Global => Z.shiftl 1 8
  | NoExecute => Z.shiftl 1 63
  end.

(** ** Entries: a [u64]; the methods that change an entry return the new one. *)
Definition pte_new : Z := 0.
Definition is_present (entry : Z) : bool := negb (Z.land entry (flag Present) =? 0).
Definition set_flags (entry flags : Z) : Z := Z.lor entry flags.
Definition set_address (entry addr : Z) : Z :=
  let addr_masked := Z.land addr PHYSICAL_ADDRESS_MASK in
  Z.lor (Z.land entry PAGE_OFFSET_MASK) addr_masked.
Definition pte_set (entry addr flags : Z) : Z :=
  let addr_masked := Z.land addr PHYSICAL_ADDRESS_MASK in Z.lor addr_masked flags.
Definition get_address (entry : Z) : Z := Z.land entry PHYSICAL_ADDRESS_MASK.
Definition get_raw (entry : Z) : Z := entry.
Definition is_huge_page (entry : Z) : bool := negb (Z.land entry (flag HugePage) =? 0).

(** ** Tables *)
Abbreviation PageTable := (list Z).
Definition PageTable_new : PageTable := replicate (Z.to_nat PAGE_TABLE_ENTRY_COUNT) pte_new.
(** [entry(index)] for reading (out of range panics) and [entry(index).set(addr, flags)]. *)
Definition entry (t : PageTable) (index : Z) : option Z := t !! Z.to_nat index.
Definition entry_set (t : PageTable) (index addr flags : Z) : option PageTable :=
  e ← entry t index; Some (<[Z.to_nat index := pte_set e addr flags]> t).
Definition clear (t : PageTable) : PageTable := (λ _, 0) <$> t.

(** [tables[i].entry(j).set(addr, flags)] for an array of tables. *)
Definition tables_set (ts : list PageTable) (i j addr flags : Z) : option (list PageTable) :=
  t ← ts !! Z.to_nat i; t' ← entry_set t j addr flags; Some (<[Z.to_nat i := t']> ts).
Definition tables_clear (ts : list PageTable) (i : Z) : option (list PageTable) :=
  t ← ts !! Z.to_nat i; Some (<[Z.to_nat i := clear t]> ts).

Record pstate := mkPaging {
  KERNEL_PML4 : PageTable;
  KERNEL_PDP_HIGH : PageTable;
  KERNEL_PD_HIGH : list PageTable;
  KERNEL_PT_HIGH : list PageTable;
  SUPPORTS_1GB_PAGES_CACHE : Z;
  cr3 : Z;
  rflags : Z;
  tlb_stale : bool }.

(** The statics before [init] has run. *)
Definition paging_boot (cr3 rflags : Z) : pstate :=
  mkPaging PageTable_new PageTable_new
    (replicate (Z.to_nat MAX_SUPPORTED_MEMORY_GB) PageTable_new)
    (replicate (Z.to_nat PT_COUNT) PageTable_new) 0xFF cr3 rflags false.

(** Where the linker puts the sections and the static tables (virtual addresses). *)
Record kernel_image := mkImage {
  text_start_ : Z; text_end_ : Z; rodata_start_ : Z; rodata_end_ : Z;
  data_start_ : Z; bss_end_ : Z; stack_guard_ : Z;
  pml4_at : Z; pdp_high_at : Z; pd_high_at : Z; pt_high_at : Z }.

(** [PageTable::physical_address] of a table at a virtual address; element [i] of an array. *)
Definition physical_address (virt_addr : Z) : result Z PagingError := virt_to_phys virt_addr.
Definition element_at (base i : Z) : Z := base + i * PAGE_SIZE.

(** [crate::stack::guard_page_address]. *)
Definition guard_page_address (img : kernel_image) : option Z := Some (stack_guard_ img).
(** [crate::stack::is_guard_page_fault]. *)
Definition is_guard_page_fault (img : kernel_image) (fault_addr : Z) : bool :=
  match guard_page_address img with
  | Some guard_addr => (guard_addr <=? fault_addr) && (fault_addr <? guard_addr + PAGE_SIZE)
  | None => false
  end.

(** ** Writes to the tables and to CR3 *)
Definition set_pml4 (i addr flags : Z) : M pstate unit :=
  s ← gets id; t ← lift (entry_set (KERNEL_PML4 s) i addr flags);
  modify (λ s, mkPaging t (KERNEL_PDP_HIGH s) (KERNEL_PD_HIGH s) (KERNEL_PT_HIGH s)
    (SUPPORTS_1GB_PAGES_CACHE s) (cr3 s) (rflags s) true).
Definition set_pdp (i addr flags : Z) : M pstate unit :=
  s ← gets id; t ← lift (entry_set (KERNEL_PDP_HIGH s) i addr flags);
  modify (λ s, mkPaging (KERNEL_PML4 s) t (KERNEL_PD_HIGH s) (KERNEL_PT_HIGH s)
    (SUPPORTS_1GB_PAGES_CACHE s) (cr3 s) (rflags s) true).
Definition set_pds (pds : list PageTable) : M pstate unit :=
  modify (λ s, mkPaging (KERNEL_PML4 s) (KERNEL_PDP_HIGH s) pds (KERNEL_PT_HIGH s)
    (SUPPORTS_1GB_PAGES_CACHE s) (cr3 s) (rflags s) true).
Definition set_pts (pts : list PageTable) : M pstate unit :=
  modify (λ s, mkPaging (KERNEL_PML4 s) (KERNEL_PDP_HIGH s) (KERNEL_PD_HIGH s) pts
    (SUPPORTS_1GB_PAGES_CACHE s) (cr3 s) (rflags s) true).
Definition set_pd (i j addr flags : Z) : M pstate unit :=
  s ← gets id; ts ← lift (tables_set (KERNEL_PD_HIGH s) i j addr flags); set_pds ts.
Definition set_pt (i j addr flags : Z) : M pstate unit :=
  s ← gets id; ts ← lift (tables_set (KERNEL_PT_HIGH s) i j addr flags); set_pts ts.

Definition read_cr3 : M pstate Z := gets cr3.
Definition write_cr3 (pml4_addr : Z) : M pstate unit :=
  modify (λ s, mkPaging (KERNEL_PML4 s) (KERNEL_PDP_HIGH s) (KERNEL_PD_HIGH s) (KERNEL_PT_HIGH s)
    (SUPPORTS_1GB_PAGES_CACHE s) pml4_addr (rflags s) false).
Definition reload_cr3 : M pstate unit := v ← read_cr3; write_cr3 v.

Definition assert_interrupts_disabled : M pstate unit :=
  f ← gets rflags; assert_ (Z.land f RFLAGS_IF =? 0).

(** ** MMIO regions of the memory map *)
Record MmioRange := mkMmio { m_start : Z; m_end : Z }.

Definition is_mmio_type (ty : Z) : bool :=
  (ty =? EFI_MEMORY_MAPPED_IO) || (ty =? EFI_MEMORY_MAPPED_IO_PORT_SPACE).

(** The first loop: at most 64 ranges, in the order of the map. *)
Fixpoint collect_mmio (regions : list MemoryRegion) (ranges : list MmioRange) (count : nat)
    : option (list MmioRange * nat) :=
  match regions with
  | [] => Some (ranges, count)
  | region :: rest =>
      if is_mmio_type (r_type region) && (count <? 64)%nat then
        e ← cadd 64 (r_start region) (r_size region);
        collect_mmio rest (<[count := mkMmio (r_start region) e]> ranges) (S count)
      else collect_mmio rest ranges count
  end.

(** [while j > 0 && ranges[j - 1].start > key.start]; returns the array and [j]. *)
Fixpoint shift_right (ranges : list MmioRange) (key : MmioRange) (j : nat) : option (list MmioRange * nat) :=
  match j with
  | O => Some (ranges, O)
  | S j' =>
      prev ← ranges !! j';
      if m_start key <? m_start prev then shift_right (<[j := prev]> ranges) key j'
      else Some (ranges, j)
  end.

(** One round of the insertion sort. *)
Definition insert_step (ranges : list MmioRange) (i : nat) : option (list MmioRange) :=
  key ← ranges !! i;
  '(ranges', j) ← shift_right ranges key i;
  Some (<[j := key]> ranges').

Fixpoint insertion_sort (ranges : list MmioRange) (rounds : list nat) : option (list MmioRange) :=
  match rounds with
  | [] => Some ranges
  | i :: rounds' => ranges' ← insert_step ranges i; insertion_sort ranges' rounds'
  end.

Definition extract_mmio_regions (memory_regions : list MemoryRegion) : option (list MmioRange * nat) :=
  '(ranges, count) ← collect_mmio memory_regions (replicate 64 (mkMmio 0 0)) 0;
  ranges' ← insertion_sort ranges (seq 1 (count - 1));
  Some (ranges', count).

(** [slice::partition_point] on a partitioned slice: the length of the prefix
    that satisfies the predicate. *)
Fixpoint partition_point {A} (p : A → bool) (l : list A) : nat :=
  match l with
  | x :: l' => if p x then S (partition_point p l') else O
  | [] => O
  end.

Definition is_mmio_region_binary (phys_addr : Z) (mmio_ranges : list MmioRange) (count : nat) : option bool :=
  if (count =? 0)%nat then Some false else
  let ranges := take count mmio_ranges in
  let idx := partition_point (λ r, m_start r <=? phys_addr) ranges in
  if (idx =? 0)%nat then Some false else
  candidate ← ranges !! (idx - 1)%nat;
  Some (phys_addr <? m_end candidate).

(** ** Initialisation *)
Definition rw_flags : Z := Z.lor (flag Present) (flag Writable).

(** Every table cleared. *)
Definition clear_tables : M pstate unit :=
  modify (λ s, mkPaging (clear (KERNEL_PML4 s)) (clear (KERNEL_PDP_HIGH s)) (KERNEL_PD_HIGH s) (KERNEL_PT_HIGH s)
    (SUPPORTS_1GB_PAGES_CACHE s) (cr3 s) (rflags s) true) ;;
  for_each (seqZ 0 MAX_SUPPORTED_MEMORY_GB) (λ i,
    s ← gets id; ts ← lift (tables_clear (KERNEL_PD_HIGH s) i); set_pds ts) ;;
  for_each (seqZ 0 PT_COUNT) (λ i,
    s ← gets id; ts ← lift (tables_clear (KERNEL_PT_HIGH s) i); set_pts ts).

(** PML4, PDP and PD entries. *)
Definition link_tables (img : kernel_image) (required_pd_count required_pt_count : Z)
    : M pstate (result unit PagingError) :=
  pdp ←? mret (physical_address (pdp_high_at img));
  set_pml4 PML4_KERNEL_INDEX pdp rw_flags ;;
  _ ←? try_for_each (seqZ 0 required_pd_count) (λ i,
         pd ←? mret (physical_address (element_at (pd_high_at img) i));
         set_pdp i pd rw_flags ;; mret (Ok tt));
  try_for_each (seqZ 0 required_pt_count) (λ pt_idx,
    let pd_idx := pt_idx / PAGE_TABLE_ENTRY_COUNT in
    let entry_idx := pt_idx mod PAGE_TABLE_ENTRY_COUNT in
    pt ←? mret (physical_address (element_at (pt_high_at img) pt_idx));
    set_pd pd_idx entry_idx pt rw_flags ;; mret (Ok tt)).

(** The 4 KiB pages outside the kernel's sections and the MMIO regions. *)
Definition map_page (actual_max kernel_text_start kernel_bss_end : Z) (mmio_ranges : list MmioRange)
    (mmio_count : nat) (pt_idx page_idx : Z) : M pstate unit :=
  let physical_addr := (pt_idx * PAGE_TABLE_ENTRY_COUNT + page_idx) * PAGE_SIZE in
  if physical_addr <? actual_max then
    if (kernel_text_start <=? physical_addr) && (physical_addr <? kernel_bss_end) then mret tt
    else
      mmio ← lift (is_mmio_region_binary physical_addr mmio_ranges mmio_count);
      if mmio : bool then mret tt else set_pt pt_idx page_idx physical_addr rw_flags
  else mret tt.

Definition map_pages (actual_max kernel_text_start kernel_bss_end : Z) (mmio_ranges : list MmioRange)
    (mmio_count : nat) (required_pt_count : Z) : M pstate unit :=
  for_each (seqZ 0 required_pt_count) (λ pt_idx,
    for_each (seqZ 0 PAGE_TABLE_ENTRY_COUNT) (λ page_idx,
      map_page actual_max kernel_text_start kernel_bss_end mmio_ranges mmio_count pt_idx page_idx)).

Definition setup_guard_page (img : kernel_image) : M pstate (result unit PagingError) :=
  match guard_page_address img with
  | None => mret (Ok tt)
  | Some guard_page_virt_addr =>
      guard_page_phys_addr ←? mret (virt_to_phys guard_page_virt_addr);
      let page_num := Z.shiftr guard_page_phys_addr 12 in
      let pt_array_idx := page_num / PAGE_TABLE_ENTRY_COUNT in
      let page_idx_in_pt := page_num mod PAGE_TABLE_ENTRY_COUNT in
      if PT_COUNT <=? pt_array_idx then mret (Err GuardPageSetupFailed) else
      if PAGE_TABLE_ENTRY_COUNT <=? page_idx_in_pt then mret (Err GuardPageSetupFailed) else
      set_pt pt_array_idx page_idx_in_pt guard_page_phys_addr 0 ;;
      mret (Ok tt)
  end.

Definition text_flags : Z := flag Present.
Definition rodata_flags : Z := Z.lor (flag Present) (flag NoExecute).
Definition data_flags : Z := Z.lor (Z.lor (flag Present) (flag Writable)) (flag NoExecute).

(** [for phys in (start..end).step_by(PAGE_SIZE)]. *)
Definition map_section (start end_ flags : Z) : M pstate unit :=
  for_each (step_by start end_ PAGE_SIZE) (λ phys,
    let page_num := Z.shiftr phys 12 in
    let pt_idx := page_num / PAGE_TABLE_ENTRY_COUNT in
    let entry_idx := page_num mod PAGE_TABLE_ENTRY_COUNT in
    set_pt pt_idx entry_idx phys flags).

Definition map_sections (img : kernel_image) : M pstate (result unit PagingError) :=
  text_start ←? mret (virt_to_phys (text_start_ img));
  text_end ←? mret (virt_to_phys (text_end_ img));
  rodata_start ←? mret (virt_to_phys (rodata_start_ img));
  rodata_end ←? mret (virt_to_phys (rodata_end_ img));
  data_start ←? mret (virt_to_phys (data_start_ img));
  bss_end ←? mret (virt_to_phys (bss_end_ img));
  map_section text_start text_end text_flags ;;
  map_section rodata_start rodata_end rodata_flags ;;
  map_section data_start bss_end data_flags ;;
  mret (Ok tt).

Definition init (img : kernel_image) (boot_info : BootInfo) : M pstate (result unit PagingError) :=
  let max_supported := Z.shiftl MAX_SUPPORTED_MEMORY_GB 30 in
  let actual_max := Z.min (max_physical_address boot_info) max_supported in
  let required_pt_count := (actual_max + PAGE_TABLE_COVERAGE - 1) / PAGE_TABLE_COVERAGE in
  let required_pd_count := (required_pt_count + 511) / 512 in
  clear_tables ;;
  _ ←? link_tables img required_pd_count required_pt_count;
  kernel_text_start ←? mret (virt_to_phys (text_start_ img));
  kernel_bss_end ←? mret (virt_to_phys (bss_end_ img));
  let memory_region_count := Z.min (memory_map_count boot_info) (Z.of_nat (length (memory_map boot_info))) in
  let memory_regions := take (Z.to_nat memory_region_count) (memory_map boot_info) in
  '(mmio_ranges, mmio_count) ← lift (extract_mmio_regions memory_regions);
  map_pages actual_max kernel_text_start kernel_bss_end mmio_ranges mmio_count required_pt_count ;;
  _ ←? setup_guard_page img;
  _ ←? map_sections img;
  pml4_addr ←? mret (physical_address (pml4_at img));
  write_cr3 pml4_addr ;;
  mret (Ok tt).

(** ** MMIO *)
Definition uc_flags : Z := Z.lor (Z.lor (flag Present) (flag Writable)) (flag CacheDisable).

Definition map_mmio (phys_addr size : Z) : M pstate (result Z PagingError) :=
  assert_interrupts_disabled ;;
  if negb (Z.land phys_addr PAGE_OFFSET_MASK =? 0) then mret (Err InvalidAddress) else
  sum ← lift (cadd 64 size PAGE_SIZE);
  let page_count := (sum - 1) / PAGE_SIZE in
  _ ←? try_for_each (seqZ 0 page_count) (λ i,
         addr ← lift (cadd 64 phys_addr (i * PAGE_SIZE));
         let page_num := Z.shiftr addr 12 in
         let pt_array_idx := page_num / PAGE_TABLE_ENTRY_COUNT in
         let page_idx_in_pt := page_num mod PAGE_TABLE_ENTRY_COUNT in
         if PT_COUNT <=? pt_array_idx then mret (Err PageTableInitFailed) else
         set_pt pt_array_idx page_idx_in_pt addr uc_flags ;;
         mret (Ok tt));
  reload_cr3 ;;
  lift (phys_to_virt phys_addr).

(** ** 2 MiB pages *)
Definition clear_4kb_mappings_for_huge_page (phys_addr : Z) : M pstate (result unit PagingError) :=
  if negb (is_2mb_aligned phys_addr) then mret (Err InvalidAddress) else
  let pt_array_idx := phys_addr / PAGE_TABLE_COVERAGE in
  if PT_COUNT <=? pt_array_idx then mret (Err AddressOutOfRange) else
  let pd_global_idx := phys_addr / HUGE_PAGE_SIZE_2MB in
  let pd_array_idx := pd_global_idx / PAGE_TABLE_ENTRY_COUNT in
  let pd_entry_idx := pd_global_idx mod PAGE_TABLE_ENTRY_COUNT in
  if MAX_SUPPORTED_MEMORY_GB <=? pd_array_idx then mret (Err AddressOutOfRange) else
  s ← gets id;
  ts ← lift (tables_clear (KERNEL_PT_HIGH s) pt_array_idx);
  set_pts ts ;;
  set_pd pd_array_idx pd_entry_idx 0 0 ;;
  mret (Ok tt).

Definition huge_flags (additional_flags : Z) : Z :=
  Z.lor (Z.lor (Z.lor (flag Present) (flag Writable)) (flag HugePage)) additional_flags.

Definition map_huge_2mb (phys_addr additional_flags : Z) : M pstate (result Z PagingError) :=
  assert_interrupts_disabled ;;
  if negb (is_2mb_aligned phys_addr) then mret (Err InvalidAddress) else
  let pd_global_idx := phys_addr / HUGE_PAGE_SIZE_2MB in
  let pd_array_idx := pd_global_idx / PAGE_TABLE_ENTRY_COUNT in
  let pd_entry_idx := pd_global_idx mod PAGE_TABLE_ENTRY_COUNT in
  if MAX_SUPPORTED_MEMORY_GB <=? pd_array_idx then mret (Err AddressOutOfRange) else
  s ← gets id;
  t ← lift (KERNEL_PD_HIGH s !! Z.to_nat pd_array_idx);
  existing_entry ← lift (entry t pd_entry_idx);
  if is_present existing_entry && negb (is_huge_page existing_entry)
  then mret (Err ExistingMappingConflict) else
  set_pd pd_array_idx pd_entry_idx phys_addr (huge_flags additional_flags) ;;
  reload_cr3 ;;
  lift (phys_to_virt phys_addr).

Definition unmap_huge_2mb (phys_addr : Z) : M pstate (result unit PagingError) :=
  assert_interrupts_disabled ;;
  if negb (is_2mb_aligned phys_addr) then mret (Err InvalidAddress) else
  let pd_global_idx := phys_addr / HUGE_PAGE_SIZE_2MB in
  let pd_array_idx := pd_global_idx / PAGE_TABLE_ENTRY_COUNT in
  let pd_entry_idx := pd_global_idx mod PAGE_TABLE_ENTRY_COUNT in
  if MAX_SUPPORTED_MEMORY_GB <=? pd_array_idx then mret (Err AddressOutOfRange) else
  set_pd pd_array_idx pd_entry_idx 0 0 ;;
  reload_cr3 ;;
  mret (Ok tt).

(** ** 1 GiB pages *)
Section cpuid.
(** [cpuid leaf] is the pair ([eax], [edx]) the instruction answers. *)
Context (cpuid : Z → Z * Z).

Definition check_1gb_pages_support_cpuid : bool :=
  let max_extended := (cpuid 0x80000000).1 in
  if max_extended <? 0x80000001 then false else
  let edx := (cpuid 0x80000001).2 in
  negb (Z.land edx (Z.shiftl 1 26) =? 0).

Definition supports_1gb_pages : M pstate bool :=
  c ← gets SUPPORTS_1GB_PAGES_CACHE;
  if c =? 0 then mret false else
  if c =? 1 then mret true else
  let result := check_1gb_pages_support_cpuid in
  modify (λ s, mkPaging (KERNEL_PML4 s) (KERNEL_PDP_HIGH s) (KERNEL_PD_HIGH s) (KERNEL_PT_HIGH s)
    (if result then 1 else 0) (cr3 s) (rflags s) (tlb_stale s)) ;;
  mret result.

Definition map_huge_1gb (phys_addr additional_flags : Z) : M pstate (result Z PagingError) :=
  assert_interrupts_disabled ;;
  if negb (is_1gb_aligned phys_addr) then mret (Err InvalidAddress) else
  supported ← supports_1gb_pages;
  if negb supported then mret (Err FeatureNotSupported) else
  let pdp_entry_idx := phys_addr / HUGE_PAGE_SIZE_1GB in
  if MAX_SUPPORTED_MEMORY_GB <=? pdp_entry_idx then mret (Err AddressOutOfRange) else
  s ← gets id;
  existing_entry ← lift (entry (KERNEL_PDP_HIGH s) pdp_entry_idx);
  if is_present existing_entry && negb (is_huge_page existing_entry)
  then mret (Err ExistingMappingConflict) else
  set_pdp pdp_entry_idx phys_addr (huge_flags additional_flags) ;;
  reload_cr3 ;;
  lift (phys_to_virt phys_addr).
End cpuid.

Definition unmap_huge_1gb (phys_addr : Z) : M pstate (result unit PagingError) :=
  assert_interrupts_disabled ;;
  if negb (is_1gb_aligned phys_addr) then mret (Err InvalidAddress) else
  let pdp_entry_idx := phys_addr / HUGE_PAGE_SIZE_1GB in
  if MAX_SUPPORTED_MEMORY_GB <=? pdp_entry_idx then mret (Err AddressOutOfRange) else
  set_pdp pdp_entry_idx 0 0 ;;
  reload_cr3 ;;
  mret (Ok tt).

(** ** The frame buffer *)
Definition map_framebuffer_huge (fb_base fb_size : Z) : M pstate (result Z PagingError) :=
  assert_interrupts_disabled ;;
  if negb (is_2mb_aligned fb_base) then lift (phys_to_virt fb_base) else
  sum ← lift (cadd 64 fb_size HUGE_PAGE_SIZE_2MB);
  let huge_page_count := (sum - 1) / HUGE_PAGE_SIZE_2MB in
  _ ←? try_for_each (seqZ 0 huge_page_count) (λ i,
         page_addr ← lift (cadd 64 fb_base (i * HUGE_PAGE_SIZE_2MB));
         _ ←? clear_4kb_mappings_for_huge_page page_addr;
         _ ←? map_huge_2mb page_addr (Z.lor (flag CacheDisable) (flag NoExecute));
         mret (Ok tt));
  lift (phys_to_virt fb_base).
