(* ===== verification/PagingSpec.v ===== *)
(** * Kernel page tables: representation and the meaning of the tables.

    [pdp_e], [pd_e] and [pt_e] read the static tables by page-directory,
    page-table and page number; [pinv] says that the tables are linked to each
    other the way [init] links them; under it the processor's walk is
    [resolve], a function of the three entries ([walk_resolve]). *)
From S2P Require Import Prelude Addr BootInfo Paging X86.
Set Default Goal Selector "!".

(** ** Reading the tables *)
Definition tget (ts : list PageTable) (n : Z) : Z :=
  default 0 (t ← ts !! Z.to_nat (n / 512); t !! Z.to_nat (n mod 512)).
Definition pdp_e (s : pstate) (i : Z) : Z := default 0 (KERNEL_PDP_HIGH s !! Z.to_nat i).
Definition pd_e (s : pstate) (n : Z) : Z := tget (KERNEL_PD_HIGH s) n.
Definition pt_e (s : pstate) (n : Z) : Z := tget (KERNEL_PT_HIGH s) n.

(** The static tables as memory. *)
Definition table_at (img : kernel_image) (s : pstate) (a : Z) : option PageTable :=
  let off base := a - (base - KERNEL_VIRTUAL_BASE) in
  if off (pml4_at img) =? 0 then Some (KERNEL_PML4 s) else
  if off (pdp_high_at img) =? 0 then Some (KERNEL_PDP_HIGH s) else
  if (0 <=? off (pd_high_at img)) && (off (pd_high_at img) <? 8 * 4096)
  then KERNEL_PD_HIGH s !! Z.to_nat (off (pd_high_at img) / 4096) else
  if (0 <=? off (pt_high_at img)) && (off (pt_high_at img) <? 4096 * 4096)
  then KERNEL_PT_HIGH s !! Z.to_nat (off (pt_high_at img) / 4096) else None.

(** What the processor does with a virtual address. *)
Definition translate (img : kernel_image) (s : pstate) (v : Z) : option mapping :=
  walk (table_at img s) (cr3 s) v.

(** The linker's layout: sections in order, starting on page boundaries, the
    static tables page aligned, disjoint, in the image; the guard page on the
    page after .bss. *)
Record image_ok (img : kernel_image) : Prop := {
  io_text : KERNEL_VIRTUAL_BASE < text_start_ img ∧ text_start_ img < text_end_ img;
  io_rodata : rodata_start_ img = (text_end_ img + 4095) / 4096 * 4096 ∧ rodata_start_ img < rodata_end_ img;
  io_data : data_start_ img = (rodata_end_ img + 4095) / 4096 * 4096 ∧ data_start_ img < bss_end_ img;
  io_guard : stack_guard_ img = (bss_end_ img + 4095) / 4096 * 4096;
  io_end : stack_guard_ img + 4096 ≤ KERNEL_VIRTUAL_BASE + 8 * 2 ^ 30;
  io_page : (4096 | text_start_ img);
  io_pml4 : (4096 | pml4_at img) ∧ KERNEL_VIRTUAL_BASE ≤ pml4_at img < KERNEL_VIRTUAL_BASE + 2 ^ 39;
  io_pdp : (4096 | pdp_high_at img) ∧ KERNEL_VIRTUAL_BASE ≤ pdp_high_at img < KERNEL_VIRTUAL_BASE + 2 ^ 39;
  io_pd : (4096 | pd_high_at img) ∧ KERNEL_VIRTUAL_BASE ≤ pd_high_at img < KERNEL_VIRTUAL_BASE + 2 ^ 39;
  io_pt : (4096 | pt_high_at img) ∧ KERNEL_VIRTUAL_BASE ≤ pt_high_at img < KERNEL_VIRTUAL_BASE + 2 ^ 39;
  io_disj :
    pml4_at img ≠ pdp_high_at img ∧
    ¬ (pd_high_at img ≤ pml4_at img < pd_high_at img + 8 * 4096) ∧
    ¬ (pd_high_at img ≤ pdp_high_at img < pd_high_at img + 8 * 4096) ∧
    ¬ (pt_high_at img ≤ pml4_at img < pt_high_at img + 4096 * 4096) ∧
    ¬ (pt_high_at img ≤ pdp_high_at img < pt_high_at img + 4096 * 4096) ∧
    (pd_high_at img + 8 * 4096 ≤ pt_high_at img ∨ pt_high_at img + 4096 * 4096 ≤ pd_high_at img);
}.

Definition phys_of (v : Z) : Z := v - KERNEL_VIRTUAL_BASE.
Definition link (virt : Z) : Z := Z.lor (phys_of virt) rw_flags.

(** Shape of an array of [k] tables. *)
Definition tables_ok (k : Z) (ts : list PageTable) : Prop :=
  length ts = Z.to_nat k ∧ ∀ t, t ∈ ts → length t = 512%nat.

Record pshape (s : pstate) : Prop := {
  ps_pml4 : length (KERNEL_PML4 s) = 512%nat;
  ps_pdp : length (KERNEL_PDP_HIGH s) = 512%nat;
  ps_pd : tables_ok 8 (KERNEL_PD_HIGH s);
  ps_pt : tables_ok 4096 (KERNEL_PT_HIGH s);
}.

(** Present entries of the upper levels are large pages or point to the static
    table of their position. *)
Record pinv (img : kernel_image) (s : pstate) : Prop := {
  pi_shape : pshape s;
  pi_cr3 : cr3 s = phys_of (pml4_at img);
  pi_pml4 : ∀ i, 0 ≤ i < 512 → KERNEL_PML4 s !! Z.to_nat i =
    Some (if i =? 256 then link (pdp_high_at img) else 0);
  pi_pdp : ∀ i, 0 ≤ i < 512 → e_present (pdp_e s i) = true → e_large (pdp_e s i) = false →
    i < 8 ∧ pdp_e s i = link (element_at (pd_high_at img) i);
  pi_pd : ∀ n, 0 ≤ n < 4096 → e_present (pd_e s n) = true → e_large (pd_e s n) = false →
    pd_e s n = link (element_at (pt_high_at img) n);
}.

(** The translation of [KERNEL_VIRTUAL_BASE + p] from the three entries. *)
Definition resolve (s : pstate) (p : Z) : option mapping :=
  let e3 := pdp_e s (p / 2 ^ 30) in
  if negb (e_present e3) then None else
  if e_large e3 then Some (leaf e3 (2 ^ 30) p true false) else
  let e2 := pd_e s (p / 2 ^ 21) in
  if negb (e_present e2) then None else
  if e_large e2 then Some (leaf e2 (2 ^ 21) p true false) else
  let e1 := pt_e s (p / 2 ^ 12) in
  if negb (e_present e1) then None else Some (leaf e1 (2 ^ 12) p true false).

(** ** Bits of entries *)
Lemma pam_bit i : 0 ≤ i → Z.testbit PHYSICAL_ADDRESS_MASK i = (12 <=? i) && (i <? 52).
Proof.
  intros Hi. change PHYSICAL_ADDRESS_MASK with (Z.shiftl (Z.ones 40) 12).
  rewrite Z.shiftl_spec by done. destruct (Z.leb_spec 12 i) as [Hle|Hlt].
  - rewrite Z.testbit_ones by lia. rewrite (proj2 (Z.leb_le _ _)) by lia. simpl.
    destruct (Z.ltb_spec i 52), (Z.ltb_spec (i - 12) 40); lia || done.
  - by rewrite Z.testbit_neg_r by lia.
Qed.

Lemma page_low_bits a i : (4096 | a) → 0 ≤ i < 12 → Z.testbit a i = false.
Proof. intros [k ->] Hi. change 4096 with (2 ^ 12). apply Z.mul_pow2_bits_low. lia. Qed.

Lemma high_bits a n i : 0 ≤ a < 2 ^ n → 0 ≤ n ≤ i → Z.testbit a i = false.
Proof.
  intros Ha Hi. destruct (decide (a = 0)) as [->|]; [apply Z.bits_0|].
  apply Z.bits_above_log2; [lia|]. apply Z.log2_lt_pow2; [lia|].
  eapply Z.lt_le_trans; [apply Ha|]. apply Z.pow_le_mono_r; lia.
Qed.

Lemma mask_page a : (4096 | a) → 0 ≤ a < 2 ^ 52 → Z.land a PHYSICAL_ADDRESS_MASK = a.
Proof.
  intros Hd Ha. apply Z.bits_inj'. intros i Hi. rewrite Z.land_spec, pam_bit by done.
  destruct (Z.leb_spec 12 i); simpl; [|by rewrite page_low_bits, andb_false_r by done].
  destruct (Z.ltb_spec i 52); simpl; [by rewrite andb_true_r|].
  by rewrite (high_bits a 52), andb_false_r by lia.
Qed.

(** An entry written by [set]: its frame and its flag bits. *)
Lemma frame_set e a f : Z.land f PHYSICAL_ADDRESS_MASK = 0 →
  frame_of (pte_set e a f) = Z.land a PHYSICAL_ADDRESS_MASK.
Proof.
  intros Hf. unfold frame_of, pte_set. change 0x000FFFFFFFFFF000 with PHYSICAL_ADDRESS_MASK.
  rewrite Z.land_lor_distr_l, Hf, Z.lor_0_r, <-Z.land_assoc. by rewrite Z.land_diag.
Qed.

Lemma bit_set e a f i : 0 ≤ i → (i < 12 ∨ 52 ≤ i) → Z.testbit (pte_set e a f) i = Z.testbit f i.
Proof.
  intros Hi Hr. unfold pte_set. rewrite Z.lor_spec, Z.land_spec, pam_bit by done.
  destruct (Z.leb_spec 12 i), (Z.ltb_spec i 52); simpl; rewrite ?andb_false_r; done || lia.
Qed.

Lemma pte_set_page e a f : (4096 | a) → 0 ≤ a < 2 ^ 52 → pte_set e a f = Z.lor a f.
Proof. intros. unfold pte_set. by rewrite mask_page. Qed.

Lemma is_present_bit e : is_present e = e_present e.
Proof.
  unfold is_present, e_present, flag. change (Z.shiftl 1 0) with (2 ^ 0).
  destruct (Z.testbit e 0) eqn:E.
  - apply negb_true_iff, Z.eqb_neq. intros H. apply (f_equal (λ x, Z.testbit x 0)) in H.
    rewrite Z.land_spec, E in H. done.
  - apply negb_false_iff, Z.eqb_eq. apply Z.bits_inj'. intros i Hi.
    rewrite Z.land_spec, Z.bits_0, Z.pow2_bits_eqb by lia.
    destruct (Z.eqb_spec 0 i); subst; by rewrite ?E, ?andb_false_r.
Qed.

Lemma is_huge_bit e : is_huge_page e = e_large e.
Proof.
  unfold is_huge_page, e_large, flag. change (Z.shiftl 1 7) with (2 ^ 7).
  destruct (Z.testbit e 7) eqn:E.
  - apply negb_true_iff, Z.eqb_neq. intros H. apply (f_equal (λ x, Z.testbit x 7)) in H.
    rewrite Z.land_spec, E in H. done.
  - apply negb_false_iff, Z.eqb_eq. apply Z.bits_inj'. intros i Hi.
    rewrite Z.land_spec, Z.bits_0, Z.pow2_bits_eqb by lia.
    destruct (Z.eqb_spec 7 i); subst; by rewrite ?E, ?andb_false_r.
Qed.

(** A link entry: present, writable, executable, not large, to the table's frame. *)
Lemma link_spec virt : (4096 | virt) → KERNEL_VIRTUAL_BASE ≤ virt → phys_of virt < 2 ^ 52 →
  pte_set 0 (phys_of virt) rw_flags = link virt ∧
  frame_of (link virt) = phys_of virt ∧ e_present (link virt) = true ∧ e_writable (link virt) = true ∧
  e_nx (link virt) = false ∧ e_large (link virt) = false.
Proof.
  intros Hd Hv Hp. assert (Hpd : (4096 | phys_of virt)).
  { unfold phys_of. apply Z.divide_sub_r; [done|]. by exists (KERNEL_VIRTUAL_BASE / 4096). }
  assert (Hr : 0 ≤ phys_of virt < 2 ^ 52) by (unfold phys_of in *; lia).
  assert (Hl : pte_set 0 (phys_of virt) rw_flags = link virt) by (by rewrite pte_set_page).
  split; [done|]. rewrite <-Hl. unfold e_present, e_writable, e_nx, e_large.
  rewrite frame_set by done. rewrite mask_page, !bit_set by (done || lia). done.
Qed.

(** ** Arrays of tables *)
Lemma tables_ok_lookup k ts n : tables_ok k ts → 0 ≤ n < k * 512 →
  ∃ t, ts !! Z.to_nat (n / 512) = Some t ∧ t !! Z.to_nat (n mod 512) = Some (tget ts n) ∧ length t = 512%nat.
Proof.
  intros [Hlen Hall] Hn. pose proof (Z.mod_pos_bound n 512 ltac:(lia)). pose proof (Z.div_pos n 512 ltac:(lia) ltac:(lia)).
  assert (n / 512 < k) by (apply Z.div_lt_upper_bound; lia).
  destruct (ts !! Z.to_nat (n / 512)) as [t|] eqn:Ht; [|apply lookup_ge_None in Ht; lia].
  exists t. split; [done|]. assert (Hl : length t = 512%nat) by (by eapply Hall, list_elem_of_lookup_2).
  split; [|done]. unfold tget. rewrite Ht. simpl.
  destruct (t !! Z.to_nat (n mod 512)) eqn:He; [done|]. apply lookup_ge_None in He. lia.
Qed.

Lemma tget_insert k ts n v t m : tables_ok k ts → 0 ≤ n < k * 512 → 0 ≤ m < k * 512 →
  ts !! Z.to_nat (n / 512) = Some t →
  tget (<[Z.to_nat (n / 512) := <[Z.to_nat (n mod 512) := v]> t]> ts) m = if m =? n then v else tget ts m.
Proof.
  intros Hok Hn Hm Ht. destruct (tables_ok_lookup k ts m Hok Hm) as (tm & Htm & Hem & Hlm).
  pose proof (Z.div_mod n 512 ltac:(lia)). pose proof (Z.div_mod m 512 ltac:(lia)).
  pose proof (Z.mod_pos_bound n 512 ltac:(lia)). pose proof (Z.mod_pos_bound m 512 ltac:(lia)).
  pose proof (Z.div_pos n 512 ltac:(lia) ltac:(lia)). pose proof (Z.div_pos m 512 ltac:(lia) ltac:(lia)).
  unfold tget at 1. destruct (decide (m / 512 = n / 512)) as [Hq|Hq].
  - rewrite Hq in *. rewrite Ht in Htm. injection Htm as <-.
    rewrite list_lookup_insert_eq by (by eapply lookup_lt_Some). simpl.
    destruct (Z.eqb_spec m n) as [->|Hne].
    + by rewrite list_lookup_insert_eq by lia.
    + rewrite list_lookup_insert_ne by lia. by rewrite Hem.
  - rewrite list_lookup_insert_ne by lia. rewrite Htm. simpl. rewrite Hem. simpl.
    destruct (Z.eqb_spec m n); [congruence|done].
Qed.

Lemma tables_ok_insert k ts i t : tables_ok k ts → length t = 512%nat → tables_ok k (<[i := t]> ts).
Proof.
  intros [Hlen Hall] Ht. split; [by rewrite length_insert|].
  intros t' [j Hj]%list_elem_of_lookup_1. destruct (decide (i = j)) as [->|].
  - apply list_lookup_insert_Some in Hj as [(_ & <- & _)|[? _]]; [done|congruence].
  - rewrite list_lookup_insert_ne in Hj by done. by eapply Hall, list_elem_of_lookup_2.
Qed.

(** [tables[n / 512].entry(n mod 512).set(addr, flags)]. *)
Lemma tables_set_spec k ts n a f : tables_ok k ts → 0 ≤ n < k * 512 →
  ∃ ts', tables_set ts (n / 512) (n mod 512) a f = Some ts' ∧ tables_ok k ts' ∧
    ∀ m, 0 ≤ m < k * 512 → tget ts' m = if m =? n then pte_set 0 a f else tget ts m.
Proof.
  intros Hok Hn. destruct (tables_ok_lookup k ts n Hok Hn) as (t & Ht & He & Hl).
  unfold tables_set, entry_set, entry. rewrite Ht. simpl. rewrite He. simpl.
  eexists. split; [done|]. split.
  - apply tables_ok_insert; [done|]. by rewrite length_insert.
  - intros m Hm. by rewrite (tget_insert k) by done.
Qed.

Lemma tables_clear_spec k ts i : tables_ok k ts → 0 ≤ i < k →
  ∃ ts', tables_clear ts i = Some ts' ∧ tables_ok k ts' ∧
    ∀ m, 0 ≤ m < k * 512 → tget ts' m = if m / 512 =? i then 0 else tget ts m.
Proof.
  intros Hok Hi. destruct (tables_ok_lookup k ts (i * 512) Hok ltac:(lia)) as (t & Ht & _ & Hl).
  rewrite Z.div_mul in Ht by lia. unfold tables_clear. rewrite Ht. simpl.
  eexists. split; [done|]. split.
  - apply tables_ok_insert; [done|]. unfold clear. by rewrite length_fmap.
  - intros m Hm. destruct (tables_ok_lookup k ts m Hok Hm) as (tm & Htm & Hem & Hlm).
    pose proof (Z.mod_pos_bound m 512 ltac:(lia)). pose proof (Z.div_pos m 512 ltac:(lia) ltac:(lia)).
    unfold tget at 1. destruct (Z.eqb_spec (m / 512) i) as [<-|Hne].
    + rewrite list_lookup_insert_eq by (by eapply lookup_lt_Some). simpl. unfold clear.
      rewrite list_lookup_fmap. rewrite Ht in Htm. injection Htm as <-. by rewrite Hem.
    + rewrite list_lookup_insert_ne by lia. by rewrite Htm; simpl; rewrite Hem.
Qed.
