(* ===== verification/PagingWalk.v ===== *)
(** * Kernel page tables: the processor's walk.

    Under [pinv] the translation of an address of the direct map is [resolve],
    and nothing else is mapped. *)
From S2P Require Import Prelude Addr BootInfo X86 Paging PagingSpec.
Set Default Goal Selector "!".

Section walk.
Context (img : kernel_image) (Himg : image_ok img).
Implicit Types (s : pstate).

Lemma page_phys virt : (4096 | virt) → (4096 | phys_of virt).
Proof. intros. apply Z.divide_sub_r; [done|]. by exists (KERNEL_VIRTUAL_BASE / 4096). Qed.

Lemma element_page base i : (4096 | base) → (4096 | element_at base i).
Proof. intros. apply Z.divide_add_r; [done|]. apply Z.divide_factor_r. Qed.

(** Static tables are found at their addresses. *)
Lemma table_at_pml4 s : table_at img s (phys_of (pml4_at img)) = Some (KERNEL_PML4 s).
Proof. unfold table_at, phys_of. by rewrite Z.sub_diag. Qed.

Lemma table_at_pdp s : table_at img s (phys_of (pdp_high_at img)) = Some (KERNEL_PDP_HIGH s).
Proof.
  destruct (io_disj _ Himg) as (Hne & _). unfold table_at, phys_of.
  rewrite (proj2 (Z.eqb_neq _ 0)) by lia. by rewrite Z.sub_diag.
Qed.

Lemma table_at_pd s i : 0 ≤ i < 8 →
  table_at img s (phys_of (element_at (pd_high_at img) i)) = KERNEL_PD_HIGH s !! Z.to_nat i.
Proof.
  intros Hi. destruct (io_disj _ Himg) as (_ & H1 & H2 & _).
  unfold table_at, phys_of, element_at, PAGE_SIZE.
  rewrite !(proj2 (Z.eqb_neq _ 0)) by lia.
  rewrite (proj2 (Z.leb_le 0 _)), (proj2 (Z.ltb_lt _ (8 * 4096))) by lia. simpl.
  do 2 f_equal. rewrite <-(Z.div_mul i 4096) at 2 by lia. f_equal. lia.
Qed.

Lemma table_at_pt s n : 0 ≤ n < 4096 →
  table_at img s (phys_of (element_at (pt_high_at img) n)) = KERNEL_PT_HIGH s !! Z.to_nat n.
Proof.
  intros Hn. destruct (io_disj _ Himg) as (_ & _ & _ & H1 & H2 & H3).
  unfold table_at, phys_of, element_at, PAGE_SIZE.
  rewrite !(proj2 (Z.eqb_neq _ 0)) by lia.
  set (off := pt_high_at img + n * 4096 - KERNEL_VIRTUAL_BASE - (pd_high_at img - KERNEL_VIRTUAL_BASE)).
  assert (Hpd : (0 <=? off) && (off <? 8 * 4096) = false).
  { destruct (Z.leb_spec 0 off), (Z.ltb_spec off (8 * 4096)); unfold off in *; try done; lia. }
  rewrite Hpd. rewrite (proj2 (Z.leb_le 0 _)), (proj2 (Z.ltb_lt _ (4096 * 4096))) by lia. simpl.
  do 2 f_equal. rewrite <-(Z.div_mul n 4096) at 2 by lia. f_equal. lia.
Qed.

(** Table indices of an address of the direct map. *)
Lemma direct_indices p : 0 ≤ p < 2 ^ 39 →
  ((KERNEL_VIRTUAL_BASE + p) / 2 ^ 39) mod 512 = 256 ∧
  ((KERNEL_VIRTUAL_BASE + p) / 2 ^ 30) mod 512 = p / 2 ^ 30 ∧
  ((KERNEL_VIRTUAL_BASE + p) / 2 ^ 21) mod 512 = (p / 2 ^ 21) mod 512 ∧
  ((KERNEL_VIRTUAL_BASE + p) / 2 ^ 12) mod 512 = (p / 2 ^ 12) mod 512.
Proof.
  intros Hp. assert (H : ∀ n m, 0 ≤ n → m * 2 ^ n = KERNEL_VIRTUAL_BASE →
    (KERNEL_VIRTUAL_BASE + p) / 2 ^ n = m + p / 2 ^ n).
  { intros n m Hn <-. rewrite Z.div_add_l; lia. }
  rewrite (H 39 (2 ^ 25 - 256)), (H 30 ((2 ^ 25 - 256) * 2 ^ 9)), (H 21 ((2 ^ 25 - 256) * 2 ^ 18)),
    (H 12 ((2 ^ 25 - 256) * 2 ^ 27)) by done.
  pose proof (Z.div_lt_upper_bound p (2 ^ 30) 512 ltac:(lia) ltac:(lia)).
  pose proof (Z.div_pos p (2 ^ 30) ltac:(lia) ltac:(lia)).
  rewrite (Z.div_small p (2 ^ 39)) by done. split; [done|].
  assert (Hm : ∀ k x, (k * 512 + x) mod 512 = x mod 512) by (intros; rewrite Z.add_comm; apply Z.mod_add; lia).
  split; [|split].
  - etrans; [apply (Hm (2 ^ 25 - 256))|]. by apply Z.mod_small.
  - apply (Hm ((2 ^ 25 - 256) * 2 ^ 9)).
  - apply (Hm ((2 ^ 25 - 256) * 2 ^ 18)).
Qed.

Lemma direct_offset p n : 0 ≤ n ≤ 39 → (KERNEL_VIRTUAL_BASE + p) mod 2 ^ n = p mod 2 ^ n.
Proof.
  intros Hn. replace KERNEL_VIRTUAL_BASE with ((2 ^ 25 - 256) * 2 ^ (39 - n) * 2 ^ n).
  { rewrite Z.add_comm. apply Z.mod_add. lia. }
  rewrite <-Z.mul_assoc, <-Z.pow_add_r by lia. by replace (39 - n + n) with 39 by lia.
Qed.

Lemma leaf_direct e n p w nx : 0 ≤ n ≤ 39 →
  leaf e (2 ^ n) (KERNEL_VIRTUAL_BASE + p) w nx = leaf e (2 ^ n) p w nx.
Proof. intros. unfold leaf. by rewrite direct_offset. Qed.

Lemma direct_canonical p : 0 ≤ p → canonical (KERNEL_VIRTUAL_BASE + p) = true.
Proof.
  intros. unfold canonical. rewrite (proj2 (Z.leb_le (2 ^ 64 - 2 ^ 47) _)) by (unfold KERNEL_VIRTUAL_BASE; lia).
  apply orb_true_r.
Qed.

Lemma frame_page a : (4096 | a) → KERNEL_VIRTUAL_BASE ≤ a < KERNEL_VIRTUAL_BASE + 2 ^ 40 →
  frame_of (phys_of a) = phys_of a.
Proof. intros. apply mask_page; [by apply page_phys|]. unfold phys_of. lia. Qed.

Lemma link_facts a : (4096 | a) → KERNEL_VIRTUAL_BASE ≤ a < KERNEL_VIRTUAL_BASE + 2 ^ 40 →
  frame_of (link a) = phys_of a ∧ e_present (link a) = true ∧ e_writable (link a) = true ∧
  e_nx (link a) = false ∧ e_large (link a) = false.
Proof. intros. apply link_spec; [done|lia|]. unfold phys_of. lia. Qed.

(** The first level. *)
Lemma next_pml4 s i : pinv img s → 0 ≤ i < 512 →
  next_entry (table_at img s) (cr3 s) i = Some (if i =? 256 then link (pdp_high_at img) else 0).
Proof.
  intros Hi Hr. unfold next_entry. rewrite (pi_cr3 _ _ Hi). destruct (io_pml4 _ Himg).
  rewrite frame_page, table_at_pml4 by (done || lia). simpl. by apply (pi_pml4 _ _ Hi).
Qed.

(** The second level: entry [i] of the page-directory-pointer table. *)
Lemma next_pdp s i : pshape s → 0 ≤ i < 512 →
  next_entry (table_at img s) (link (pdp_high_at img)) i = Some (pdp_e s i).
Proof.
  intros Hs Hi. destruct (io_pdp _ Himg) as [Hd Hr]. unfold next_entry.
  rewrite (proj1 (link_facts _ Hd ltac:(lia))), table_at_pdp. simpl. unfold pdp_e.
  destruct (KERNEL_PDP_HIGH s !! Z.to_nat i) eqn:E; [done|].
  apply lookup_ge_None in E. rewrite (ps_pdp _ Hs) in E. lia.
Qed.

Lemma next_pd s n : pshape s → 0 ≤ n < 4096 →
  next_entry (table_at img s) (link (element_at (pd_high_at img) (n / 512))) (n mod 512) = Some (pd_e s n).
Proof.
  intros Hs Hn. destruct (io_pd _ Himg) as [Hd Hr]. unfold next_entry.
  destruct (tables_ok_lookup 8 (KERNEL_PD_HIGH s) n (ps_pd _ Hs) ltac:(lia)) as (t & Ht & He & _).
  pose proof (Z.div_pos n 512 ltac:(lia) ltac:(lia)). pose proof (Z.div_lt_upper_bound n 512 8 ltac:(lia) ltac:(lia)).
  destruct (link_facts (element_at (pd_high_at img) (n / 512))) as [-> _]; [by apply element_page|unfold element_at, PAGE_SIZE; lia|].
  rewrite table_at_pd by lia. rewrite Ht. simpl. done.
Qed.

Lemma next_pt s n : pshape s → 0 ≤ n < 4096 * 512 →
  next_entry (table_at img s) (link (element_at (pt_high_at img) (n / 512))) (n mod 512) = Some (pt_e s n).
Proof.
  intros Hs Hn. destruct (io_pt _ Himg) as [Hd Hr]. unfold next_entry.
  destruct (tables_ok_lookup 4096 (KERNEL_PT_HIGH s) n (ps_pt _ Hs) ltac:(lia)) as (t & Ht & He & _).
  pose proof (Z.div_pos n 512 ltac:(lia) ltac:(lia)). pose proof (Z.div_lt_upper_bound n 512 4096 ltac:(lia) ltac:(lia)).
  destruct (link_facts (element_at (pt_high_at img) (n / 512))) as [-> _]; [by apply element_page|unfold element_at, PAGE_SIZE; lia|].
  rewrite table_at_pt by lia. rewrite Ht. simpl. done.
Qed.

(** The walk of a direct-map address is [resolve]. *)
Lemma walk_resolve s p : pinv img s → 0 ≤ p < 2 ^ 39 →
  translate img s (KERNEL_VIRTUAL_BASE + p) = resolve s p.
Proof.
  intros Hi Hp. unfold translate, walk, resolve. rewrite direct_canonical by lia. cbn [negb].
  destruct (direct_indices p Hp) as (-> & -> & -> & ->).
  rewrite next_pml4 by (done || lia). cbn [mbind option_bind Z.eqb Pos.eqb].
  destruct (io_pdp _ Himg) as [Hd Hr].
  destruct (link_facts (pdp_high_at img) Hd ltac:(lia)) as (_ & -> & Hw & Hn & _). rewrite Hw, Hn. cbn [negb].
  pose proof (Z.div_pos p (2 ^ 30) ltac:(lia) ltac:(lia)).
  pose proof (Z.div_lt_upper_bound p (2 ^ 30) 512 ltac:(lia) ltac:(lia)).
  rewrite next_pdp by (apply Hi || lia). cbn [mbind option_bind].
  destruct (e_present (pdp_e s (p / 2 ^ 30))) eqn:Hp3; [|done]. cbn [negb].
  destruct (e_large (pdp_e s (p / 2 ^ 30))) eqn:Hl3; [by rewrite leaf_direct|].
  destruct (pi_pdp _ _ Hi (p / 2 ^ 30) ltac:(lia) Hp3 Hl3) as [H8 ->].
  destruct (io_pd _ Himg) as [Hd2 Hr2].
  destruct (link_facts (element_at (pd_high_at img) (p / 2 ^ 30))) as (_ & _ & -> & -> & _);
    [by apply element_page|unfold element_at, PAGE_SIZE; lia|].
  assert (Hq : p / 2 ^ 30 = p / 2 ^ 21 / 512) by (rewrite Z.div_div by lia; done).
  pose proof (Z.div_pos p (2 ^ 21) ltac:(lia) ltac:(lia)).
  assert (p / 2 ^ 21 < 4096).
  { rewrite Hq in H8. pose proof (Z.div_mod (p / 2 ^ 21) 512 ltac:(lia)). pose proof (Z.mod_pos_bound (p / 2 ^ 21) 512 ltac:(lia)). lia. }
  rewrite Hq, next_pd by (apply Hi || lia). cbn [mbind option_bind].
  destruct (e_present (pd_e s (p / 2 ^ 21))) eqn:Hp2; [|done]. cbn [negb].
  destruct (e_large (pd_e s (p / 2 ^ 21))) eqn:Hl2; [by rewrite leaf_direct|].
  rewrite (pi_pd _ _ Hi (p / 2 ^ 21) ltac:(lia) Hp2 Hl2).
  destruct (io_pt _ Himg) as [Hd1 Hr1].
  destruct (link_facts (element_at (pt_high_at img) (p / 2 ^ 21))) as (_ & _ & -> & -> & _);
    [by apply element_page|unfold element_at, PAGE_SIZE; lia|].
  assert (Hq1 : p / 2 ^ 21 = p / 2 ^ 12 / 512) by (rewrite Z.div_div by lia; done).
  rewrite Hq1, next_pt.
  - cbn [mbind option_bind]. destruct (e_present (pt_e s (p / 2 ^ 12))); [|done]. cbn [negb]. by rewrite leaf_direct.
  - apply Hi.
  - pose proof (Z.div_mod (p / 2 ^ 12) 512 ltac:(lia)). pose proof (Z.mod_pos_bound (p / 2 ^ 12) 512 ltac:(lia)).
    pose proof (Z.div_pos p (2 ^ 12) ltac:(lia) ltac:(lia)). lia.
Qed.

(** Outside the 512 GiB of the kernel's PML4 entry nothing is mapped. *)
Lemma walk_outside s v : pinv img s → ¬ KERNEL_VIRTUAL_BASE ≤ v < KERNEL_VIRTUAL_BASE + 2 ^ 39 → 0 ≤ v < 2 ^ 64 →
  translate img s v = None.
Proof.
  intros Hi Hv Hr. unfold translate, walk. destruct (canonical v) eqn:Hc; [|done]. cbn [negb].
  pose proof (Z.mod_pos_bound (v / 2 ^ 39) 512 ltac:(lia)).
  rewrite next_pml4 by (done || lia). cbn [mbind option_bind].
  destruct (Z.eqb_spec ((v / 2 ^ 39) mod 512) 256) as [He|]; [|done]. exfalso.
  unfold canonical in Hc. apply orb_true_iff in Hc. unfold KERNEL_VIRTUAL_BASE in Hv.
  pose proof (Z.div_mod v (2 ^ 39) ltac:(lia)). pose proof (Z.mod_pos_bound v (2 ^ 39) ltac:(lia)).
  pose proof (Z.div_mod (v / 2 ^ 39) 512 ltac:(lia)).
  assert (0 ≤ v / 2 ^ 39) by (apply Z.div_pos; lia).
  destruct Hc as [Hc%Z.ltb_lt|Hc%Z.leb_le]; lia.
Qed.
End walk.
