(* ===== verification/PagingMmio.v ===== *)
(** * MMIO regions: collecting, sorting and searching them.

    [extract_mmio_regions] puts the MMIO regions of the memory map in an array
    and sorts it; the binary search answers whether an address lies in one. *)
From S2P Require Import Prelude Addr BootInfo Paging.
From Stdlib Require Import Sorting.Sorted.
Set Default Goal Selector "!".

Definition range_of (r : MemoryRegion) : MmioRange := mkMmio (r_start r) (r_start r + r_size r).
Definition mmio_of (regions : list MemoryRegion) : list MmioRange :=
  range_of <$> List.filter (λ r, is_mmio_type (r_type r)) regions.
Definition in_range (p : Z) (m : MmioRange) : bool := (m_start m <=? p) && (p <? m_end m).

(** A memory map the firmware may report: at most 64 MMIO regions, non-empty,
    inside the address space, and any two of them equal or disjoint. *)
Record mmio_map_ok (regions : list MemoryRegion) : Prop := {
  mo_count : (length (mmio_of regions) ≤ 64)%nat;
  mo_size : ∀ m, m ∈ mmio_of regions → m_start m < m_end m < 2 ^ 64;
  mo_disj : ∀ m m', m ∈ mmio_of regions → m' ∈ mmio_of regions →
    m = m' ∨ m_end m ≤ m_start m' ∨ m_end m' ≤ m_start m;
}.

(** ** Collecting *)
Lemma mmio_of_cons r regions : mmio_of (r :: regions) =
  if is_mmio_type (r_type r) then range_of r :: mmio_of regions else mmio_of regions.
Proof. unfold mmio_of. simpl. by destruct (is_mmio_type (r_type r)). Qed.

Lemma collect_mmio_spec regions l pad :
  (length l + length (mmio_of regions) ≤ 64)%nat → (length l + length pad = 64)%nat →
  (∀ m, m ∈ mmio_of regions → m_end m < 2 ^ 64) →
  ∃ pad', collect_mmio regions (l ++ pad) (length l) =
    Some (l ++ mmio_of regions ++ pad', length (l ++ mmio_of regions)) ∧
    (length (l ++ mmio_of regions ++ pad') = 64)%nat.
Proof.
  revert l pad. induction regions as [|r regions IH]; intros l pad Hc Hp Hb; cbn [collect_mmio].
  - exists pad. unfold mmio_of. simpl. rewrite !app_nil_r. split; [done|]. rewrite length_app. lia.
  - rewrite mmio_of_cons in *. destruct (is_mmio_type (r_type r)); cbn [andb length] in *; [|by apply (IH l pad)].
    rewrite (proj2 (Nat.ltb_lt _ _)) by lia.
    rewrite cadd_some by (apply (Hb (range_of r)); by left). cbn [mbind option_bind].
    destruct pad as [|x pad]; cbn [length] in *; [lia|].
    assert (Hins : <[length l := range_of r]> (l ++ x :: pad) = (l ++ [range_of r]) ++ pad).
    { rewrite insert_app_r_alt by lia. rewrite Nat.sub_diag. simpl. by rewrite <-app_assoc. }
    fold (range_of r). rewrite Hins.
    replace (S (length l)) with (length (l ++ [range_of r])) by (rewrite length_app; simpl; lia).
    destruct (IH (l ++ [range_of r]) pad) as (pad' & Hpad & Hlen).
    + rewrite length_app. cbn [length]. lia.
    + rewrite length_app. cbn [length]. lia.
    + intros m Hm. apply Hb. by right.
    + exists pad'. rewrite Hpad. rewrite <-!app_assoc in *. simpl in *. done.
Qed.

(** ** Sorting *)
Definition start_le (a b : MmioRange) : Prop := m_start a ≤ m_start b.

(** The inner loop splits the sorted prefix around the key. *)
Lemma shift_right_spec key l x r : StronglySorted start_le l →
  ∃ l1 l2 j ranges, l = l1 ++ l2 ∧ shift_right (l ++ x :: r) key (length l) = Some (ranges, j) ∧
    <[j := key]> ranges = l1 ++ key :: l2 ++ r ∧
    (∀ y, y ∈ l1 → m_start y ≤ m_start key) ∧ (∀ y, y ∈ l2 → m_start key ≤ m_start y).
Proof.
  revert x r. induction l as [|y l IH] using rev_ind; intros x r Hs.
  - exists [], [], O, (x :: r). simpl. split; [done|]. split; [done|]. split; [done|].
    split; intros y Hy; by apply not_elem_of_nil in Hy.
  - assert (Hl : StronglySorted start_le l ∧ ∀ z, z ∈ l → start_le z y).
    { clear IH. induction l as [|z l IHl]; [split; [constructor|intros z Hz; by apply not_elem_of_nil in Hz]|].
      simpl in Hs. inversion Hs as [|? ? Hss Hf]; subst. destruct (IHl Hss) as [H1 H2].
      apply list.Forall_app in Hf as [Hf1 Hf2]. rewrite list.Forall_singleton in Hf2.
      split; [by constructor|]. intros w. rewrite elem_of_cons. intros [->|Hw]; [done|by apply H2]. }
    destruct Hl as [Hl Hle]. rewrite length_app. simpl. rewrite Nat.add_1_r. simpl.
    rewrite <-app_assoc. simpl. rewrite list_lookup_middle by done. simpl.
    destruct (Z.ltb_spec (m_start key) (m_start y)) as [Hlt|Hge].
    + assert (Hins : <[S (length l) := y]> (l ++ y :: x :: r) = l ++ y :: y :: r).
      { rewrite insert_app_r_alt by lia. replace (S (length l) - length l)%nat with 1%nat by lia. done. }
      rewrite Hins. destruct (IH y (y :: r) Hl) as (l1 & l2 & j & ranges & -> & Hsh & Hins' & H1 & H2).
      exists l1, (l2 ++ [y]), j, ranges. split; [by rewrite app_assoc|]. split; [done|].
      split; [rewrite Hins', <-app_assoc; done|]. split; [done|].
      intros z [Hz|Hz%list_elem_of_singleton]%elem_of_app; [by apply H2|subst; lia].
    + exists (l ++ [y]), [], (S (length l)), (l ++ y :: x :: r). split; [by rewrite app_nil_r|]. split; [done|].
      split; [|split; [|intros z Hz; by apply not_elem_of_nil in Hz]].
      * rewrite insert_app_r_alt by lia. replace (S (length l) - length l)%nat with 1%nat by lia.
        simpl. by rewrite <-app_assoc.
      * intros z [Hz|Hz%list_elem_of_singleton]%elem_of_app; [|subst; done].
        specialize (Hle z Hz). unfold start_le in Hle. lia.
Qed.

Lemma sorted_app l1 l2 : StronglySorted start_le (l1 ++ l2) →
  StronglySorted start_le l1 ∧ StronglySorted start_le l2 ∧ ∀ x y, x ∈ l1 → y ∈ l2 → start_le x y.
Proof.
  induction l1 as [|z l1 IH]; simpl; intros Hs.
  { split; [constructor|]. split; [done|]. intros x y Hx. by apply not_elem_of_nil in Hx. }
  inversion Hs as [|? ? Hss Hf]; subst. destruct (IH Hss) as (H1 & H2 & H3).
  apply list.Forall_app in Hf as [Hf1 Hf2]. split; [by constructor|]. split; [done|].
  intros x y. rewrite elem_of_cons. intros [->|Hx] Hy; [|by apply H3].
  rewrite list.Forall_forall in Hf2. by apply Hf2.
Qed.

Lemma sorted_insert l1 l2 k : StronglySorted start_le (l1 ++ l2) →
  (∀ y, y ∈ l1 → m_start y ≤ m_start k) → (∀ y, y ∈ l2 → m_start k ≤ m_start y) →
  StronglySorted start_le (l1 ++ k :: l2).
Proof.
  intros Hs H1 H2. induction l1 as [|z l1 IH]; simpl in *.
  { constructor; [done|]. apply list.Forall_forall. done. }
  inversion Hs as [|? ? Hss Hf]; subst. constructor.
  - apply IH; [done|]. intros y Hy. apply H1. by right.
  - apply list.Forall_app in Hf as [Hf1 Hf2]. apply list.Forall_app. split; [done|].
    apply list.Forall_cons. split; [|done]. apply H1. by left.
Qed.

(** The outer loop sorts the first elements and leaves the rest alone. *)
Lemma insertion_sort_spec n l todo pad : StronglySorted start_le l → length todo = n →
  ∃ l', insertion_sort (l ++ todo ++ pad) (seq (length l) n) = Some (l' ++ pad) ∧
    StronglySorted start_le l' ∧ l' ≡ₚ l ++ todo.
Proof.
  revert l todo. induction n as [|n IH]; intros l todo Hs Hlen.
  - destruct todo; [|done]. exists l. simpl. by rewrite app_nil_r.
  - destruct todo as [|key todo]; [done|]. simpl in *. unfold insert_step.
    rewrite list_lookup_middle by done. simpl.
    destruct (shift_right_spec key l key (todo ++ pad) Hs) as (l1 & l2 & j & ranges & -> & Hsh & Hins & H1 & H2).
    rewrite Hsh. simpl. rewrite Hins.
    replace (l1 ++ key :: l2 ++ todo ++ pad) with ((l1 ++ key :: l2) ++ todo ++ pad) by (rewrite <-app_assoc; done).
    replace (S (length (l1 ++ l2))) with (length (l1 ++ key :: l2)) by (rewrite !length_app; simpl; lia).
    destruct (IH (l1 ++ key :: l2) todo) as (l' & Hl' & Hs' & Hp); [by apply sorted_insert|lia|].
    exists l'. split; [done|]. split; [done|]. rewrite Hp, <-!Permutation_middle. done.
Qed.

(** ** Searching *)
Lemma partition_point_spec (p : Z) l : StronglySorted start_le l →
  ∃ l1 l2, l = l1 ++ l2 ∧ partition_point (λ r, m_start r <=? p) l = length l1 ∧
    (∀ y, y ∈ l1 → m_start y ≤ p) ∧ (∀ y, y ∈ l2 → p < m_start y).
Proof.
  induction 1 as [|x l Hs IH Hf]; simpl.
  { exists [], []. split; [done|]. split; [done|]. split; intros y Hy; by apply not_elem_of_nil in Hy. }
  destruct (Z.leb_spec (m_start x) p) as [Hle|Hgt].
  - destruct IH as (l1 & l2 & -> & -> & H1 & H2). exists (x :: l1), l2. split; [done|]. split; [done|].
    split; [|done]. intros y. rewrite elem_of_cons. intros [->|Hy]; [done|by apply H1].
  - exists [], (x :: l). split; [done|]. split; [done|]. split; [intros y Hy; by apply not_elem_of_nil in Hy|].
    rewrite list.Forall_forall in Hf. intros y. rewrite elem_of_cons. intros [->|Hy]; [done|].
    specialize (Hf y Hy). unfold start_le in Hf. lia.
Qed.

Lemma search_spec p l pad :
  StronglySorted start_le l → (∀ m, m ∈ l → m_start m < m_end m) →
  (∀ m m', m ∈ l → m' ∈ l → m = m' ∨ m_end m ≤ m_start m' ∨ m_end m' ≤ m_start m) →
  is_mmio_region_binary p (l ++ pad) (length l) = Some (existsb (in_range p) l).
Proof.
  intros Hs Hne Hd. unfold is_mmio_region_binary. destruct l as [|x0 l0] eqn:El; [done|].
  rewrite <-El in *. rewrite (proj2 (Nat.eqb_neq _ 0)) by (subst; simpl; lia).
  rewrite take_app_length. destruct (partition_point_spec p l Hs) as (l1 & l2 & Heq & -> & H1 & H2).
  destruct (decide (l1 = [])) as [->|Hn].
  - simpl. f_equal. symmetry. apply not_true_iff_false. intros (m & Hm & Hin)%existsb_exists.
    apply list_elem_of_In in Hm. rewrite Heq in Hm. specialize (H2 m Hm). unfold in_range in Hin.
    apply andb_true_iff in Hin as [Hin%Z.leb_le _]. lia.
  - destruct (exists_last Hn) as (l3 & c & ->). rewrite length_app. simpl.
    rewrite (proj2 (Nat.eqb_neq _ 0)) by lia. replace (length l3 + 1 - 1)%nat with (length l3) by lia.
    rewrite Heq, <-app_assoc. simpl. rewrite list_lookup_middle by done. simpl. f_equal.
    rewrite Heq in *. rewrite <-app_assoc in *. simpl in *.
    assert (Hc : c ∈ l3 ++ c :: l2) by (apply elem_of_app; right; by left).
    assert (Hcp : m_start c ≤ p) by (apply H1, elem_of_app; right; by left).
    apply eq_true_iff_eq. rewrite existsb_exists. split.
    + intros Hlt. exists c. split; [by apply list_elem_of_In|]. unfold in_range. by rewrite (proj2 (Z.leb_le _ _)).
    + intros (m & Hm & Hin). apply list_elem_of_In in Hm. unfold in_range in Hin.
      apply andb_true_iff in Hin as [Hin1%Z.leb_le Hin2%Z.ltb_lt]. apply Z.ltb_lt.
      destruct (Hd m c Hm Hc) as [->|[Hmc|Hcm]]; [done| |].
      * lia.
      * specialize (Hne c Hc). apply sorted_app in Hs as (_ & _ & Hord).
        apply elem_of_app in Hm as [Hm|Hm].
        -- specialize (Hord m c Hm ltac:(by left)). unfold start_le in Hord. lia.
        -- apply elem_of_cons in Hm as [->|Hm]; [done|]. specialize (H2 m Hm). lia.
Qed.

(** The two together. *)
Lemma mmio_lookup regions : mmio_map_ok regions →
  ∃ ranges count, extract_mmio_regions regions = Some (ranges, count) ∧
    ∀ p, is_mmio_region_binary p ranges count =
      Some (existsb (λ r, is_mmio_type (r_type r) && in_range p (range_of r)) regions).
Proof.
  intros [Hc Hsz Hd]. unfold extract_mmio_regions.
  destruct (collect_mmio_spec regions [] (replicate 64 (mkMmio 0 0))) as (pad & Hcol & Hlen); simpl in *; [done|done| |].
  { intros m Hm. by apply Hsz. }
  rewrite Hcol. simpl.
  set (l := mmio_of regions) in *.
  assert (Hsort : ∃ l', insertion_sort (l ++ pad) (seq 1 (length l - 1)) = Some (l' ++ pad) ∧
    StronglySorted start_le l' ∧ l' ≡ₚ l).
  { destruct l as [|x l]; [exists []; split; [done|]; split; [constructor|done]|].
    destruct (insertion_sort_spec (length l) [x] l pad) as (l' & H1 & H2 & H3); [|done|].
    - repeat constructor.
    - exists l'. simpl in *. rewrite Nat.sub_0_r. done. }
  destruct Hsort as (l' & -> & Hs & Hp). simpl. exists (l' ++ pad), (length l). split; [done|].
  intros p. rewrite <-(Permutation_length Hp). rewrite search_spec.
  - f_equal. apply eq_true_iff_eq. rewrite !existsb_exists. unfold l, mmio_of in Hp. split.
    + intros (m & Hm & Hin). apply list_elem_of_In in Hm. rewrite Hp in Hm.
      apply list_elem_of_fmap in Hm as (r & -> & Hr). apply list_elem_of_In, filter_In in Hr as [Hr Ht].
      exists r. split; [done|]. by rewrite Ht, Hin.
    + intros (r & Hr & [Ht Hin]%andb_true_iff). exists (range_of r). split; [|done].
      apply list_elem_of_In. rewrite Hp. apply list_elem_of_fmap. exists r. split; [done|].
      apply list_elem_of_In, filter_In. done.
  - done.
  - intros m Hm. apply Hsz. by rewrite <-Hp.
  - intros m m' Hm Hm'. apply Hd; by rewrite <-Hp.
Qed.
