(* ===== verification/PagingOps.v ===== *)
(** * Kernel page tables: the writes.

    [tables s pml pdp pd pt] says what each entry of the static tables is; the
    lemmas give each primitive write as an update of one of the functions. *)
From S2P Require Import Prelude Addr BootInfo X86 Paging PagingSpec.
Set Default Goal Selector "!".

Abbreviation NPAGES := (4096 * 512).

Record tables (s : pstate) (pml pdp pd pt : Z → Z) : Prop := {
  tb_shape : pshape s;
  tb_pml : ∀ i, 0 ≤ i < 512 → KERNEL_PML4 s !! Z.to_nat i = Some (pml i);
  tb_pdp : ∀ i, 0 ≤ i < 512 → pdp_e s i = pdp i;
  tb_pd : ∀ n, 0 ≤ n < 4096 → pd_e s n = pd n;
  tb_pt : ∀ n, 0 ≤ n < NPAGES → pt_e s n = pt n;
}.

(** The rest of the state. *)
Definition regs (s : pstate) : Z * Z * Z := (cr3 s, rflags s, SUPPORTS_1GB_PAGES_CACHE s).

Lemma tables_ext s pml pdp pd pt pml' pdp' pd' pt' : tables s pml pdp pd pt →
  (∀ i, 0 ≤ i < 512 → pml' i = pml i) → (∀ i, 0 ≤ i < 512 → pdp' i = pdp i) →
  (∀ n, 0 ≤ n < 4096 → pd' n = pd n) → (∀ n, 0 ≤ n < NPAGES → pt' n = pt n) →
  tables s pml' pdp' pd' pt'.
Proof.
  intros [Hs H1 H2 H3 H4] E1 E2 E3 E4. split; [done|..].
  - intros i Hi. by rewrite H1, E1.
  - intros i Hi. by rewrite H2, E2.
  - intros n Hn. by rewrite H3, E3.
  - intros n Hn. by rewrite H4, E4.
Qed.

(** A state has the tables it has. *)
Lemma tables_self s : pshape s →
  tables s (λ i, default 0 (KERNEL_PML4 s !! Z.to_nat i)) (pdp_e s) (pd_e s) (pt_e s).
Proof.
  intros Hs. split; [done| |done|done|done]. intros i Hi.
  destruct (KERNEL_PML4 s !! Z.to_nat i) eqn:E; [done|]. apply lookup_ge_None in E. rewrite (ps_pml4 _ Hs) in E. lia.
Qed.

Section writes.
Context (pml pdp pd pt : Z → Z).
Implicit Types (s : pstate) (Q : unit → pstate → Prop).

Lemma entry_set_spec (t : PageTable) i a f : length t = 512%nat → 0 ≤ i < 512 →
  entry_set t i a f = Some (<[Z.to_nat i := pte_set 0 a f]> t).
Proof.
  intros Ht Hi. unfold entry_set, entry.
  destruct (t !! Z.to_nat i) eqn:E; [done|]. apply lookup_ge_None in E. lia.
Qed.

Lemma set_pml4_spec s i a f Q : tables s pml pdp pd pt → 0 ≤ i < 512 →
  (∀ s', tables s' (<[i := pte_set 0 a f]> pml) pdp pd pt → regs s' = regs s → Q tt s') →
  wp (set_pml4 i a f) Q s.
Proof.
  intros [[Hl1 Hl2 Hl3 Hl4] H1 H2 H3 H4] Hi HQ. unfold set_pml4. wp_step. wp_step. wp_step.
  eapply wp_lift; [by apply entry_set_spec|]. wp_step. apply HQ; [|done].
  split; simpl; [split; simpl; [by rewrite length_insert|done|done|done]| |done|done|done].
  intros j Hj. destruct (decide (i = j)) as [<-|].
  - by rewrite list_lookup_insert_eq, fn_lookup_insert by lia.
  - rewrite list_lookup_insert_ne, fn_lookup_insert_ne by lia. by apply H1.
Qed.

Lemma set_pdp_spec s i a f Q : tables s pml pdp pd pt → 0 ≤ i < 512 →
  (∀ s', tables s' pml (<[i := pte_set 0 a f]> pdp) pd pt → regs s' = regs s → Q tt s') →
  wp (set_pdp i a f) Q s.
Proof.
  intros [[Hl1 Hl2 Hl3 Hl4] H1 H2 H3 H4] Hi HQ. unfold set_pdp. wp_step. wp_step. wp_step.
  eapply wp_lift; [by apply entry_set_spec|]. wp_step. apply HQ; [|done].
  split; simpl; [split; simpl; [done|by rewrite length_insert|done|done]|done| |done|done].
  intros j Hj. unfold pdp_e. simpl. destruct (decide (i = j)) as [<-|].
  - by rewrite list_lookup_insert_eq, fn_lookup_insert by lia.
  - rewrite list_lookup_insert_ne, fn_lookup_insert_ne by lia. by apply H2.
Qed.

Lemma set_pd_spec s n a f Q : tables s pml pdp pd pt → 0 ≤ n < 4096 →
  (∀ s', tables s' pml pdp (<[n := pte_set 0 a f]> pd) pt → regs s' = regs s → Q tt s') →
  wp (set_pd (n / 512) (n mod 512) a f) Q s.
Proof.
  intros [[Hl1 Hl2 Hl3 Hl4] H1 H2 H3 H4] Hn HQ. unfold set_pd, set_pds.
  destruct (tables_set_spec 8 (KERNEL_PD_HIGH s) n a f Hl3 ltac:(lia)) as (ts & Hts & Hok & Hget).
  wp_step. wp_step. wp_step. eapply wp_lift; [exact Hts|]. wp_step. apply HQ; [|done].
  split; simpl; [split; simpl; [done|done|done|done]|done|done| |done].
  intros m Hm. unfold pd_e. simpl. rewrite Hget by lia. destruct (Z.eqb_spec m n) as [->|].
  - by rewrite fn_lookup_insert.
  - rewrite fn_lookup_insert_ne by lia. by apply H3.
Qed.

Lemma set_pt_spec s n a f Q : tables s pml pdp pd pt → 0 ≤ n < NPAGES →
  (∀ s', tables s' pml pdp pd (<[n := pte_set 0 a f]> pt) → regs s' = regs s → Q tt s') →
  wp (set_pt (n / 512) (n mod 512) a f) Q s.
Proof.
  intros [[Hl1 Hl2 Hl3 Hl4] H1 H2 H3 H4] Hn HQ. unfold set_pt, set_pts.
  destruct (tables_set_spec 4096 (KERNEL_PT_HIGH s) n a f Hl4 ltac:(lia)) as (ts & Hts & Hok & Hget).
  wp_step. wp_step. wp_step. eapply wp_lift; [exact Hts|]. wp_step. apply HQ; [|done].
  split; simpl; [split; simpl; [done|done|done|done]|done|done|done|].
  intros m Hm. unfold pt_e. simpl. rewrite Hget by lia. destruct (Z.eqb_spec m n) as [->|].
  - by rewrite fn_lookup_insert.
  - rewrite fn_lookup_insert_ne by lia. by apply H4.
Qed.

(** One page table cleared. *)
Lemma clear_pt_spec s i Q : tables s pml pdp pd pt → 0 ≤ i < 4096 →
  (∀ s', tables s' pml pdp pd (λ n, if n / 512 =? i then 0 else pt n) → regs s' = regs s → Q tt s') →
  wp (s ← gets id; ts ← lift (tables_clear (KERNEL_PT_HIGH s) i); set_pts ts) Q s.
Proof.
  intros [[Hl1 Hl2 Hl3 Hl4] H1 H2 H3 H4] Hi HQ. unfold set_pts.
  destruct (tables_clear_spec 4096 (KERNEL_PT_HIGH s) i Hl4 Hi) as (ts & Hts & Hok & Hget).
  wp_step. wp_step. wp_step. eapply wp_lift; [exact Hts|]. wp_step. apply HQ; [|done].
  split; simpl; [split; simpl; [done|done|done|done]|done|done|done|].
  intros m Hm. unfold pt_e. simpl. rewrite Hget by lia. destruct (m / 512 =? i); [done|by apply H4].
Qed.

Lemma clear_pd_spec s i Q : tables s pml pdp pd pt → 0 ≤ i < 8 →
  (∀ s', tables s' pml pdp (λ n, if n / 512 =? i then 0 else pd n) pt → regs s' = regs s → Q tt s') →
  wp (s ← gets id; ts ← lift (tables_clear (KERNEL_PD_HIGH s) i); set_pds ts) Q s.
Proof.
  intros [[Hl1 Hl2 Hl3 Hl4] H1 H2 H3 H4] Hi HQ. unfold set_pds.
  destruct (tables_clear_spec 8 (KERNEL_PD_HIGH s) i Hl3 Hi) as (ts & Hts & Hok & Hget).
  wp_step. wp_step. wp_step. eapply wp_lift; [exact Hts|]. wp_step. apply HQ; [|done].
  split; simpl; [split; simpl; [done|done|done|done]|done|done| |done].
  intros m Hm. unfold pd_e. simpl. rewrite Hget by lia. destruct (m / 512 =? i); [done|by apply H3].
Qed.

(** CR3. *)
Lemma write_cr3_spec s v Q : tables s pml pdp pd pt →
  (∀ s', tables s' pml pdp pd pt → regs s' = (v, rflags s, SUPPORTS_1GB_PAGES_CACHE s) → tlb_stale s' = false → Q tt s') →
  wp (write_cr3 v) Q s.
Proof. intros [[? ? ? ?] ? ? ? ?] HQ. apply wp_modify, HQ; [split; [split; done|done..]|done|done]. Qed.

Lemma reload_cr3_spec s Q : tables s pml pdp pd pt →
  (∀ s', tables s' pml pdp pd pt → regs s' = regs s → tlb_stale s' = false → Q tt s') →
  wp reload_cr3 Q s.
Proof. intros Ht HQ. unfold reload_cr3, read_cr3. wp_step. wp_step. by apply write_cr3_spec. Qed.
End writes.

(** All tables cleared, whatever they held. *)
Lemma clear_tables_spec s Q : pshape s →
  (∀ s', tables s' (λ _, 0) (λ _, 0) (λ _, 0) (λ _, 0) → regs s' = regs s → Q tt s') →
  wp clear_tables Q s.
Proof.
  intros Hs HQ. unfold clear_tables. wp_step. wp_step.
  assert (Ht0 : ∀ b, tables (mkPaging (clear (KERNEL_PML4 s)) (clear (KERNEL_PDP_HIGH s)) (KERNEL_PD_HIGH s) (KERNEL_PT_HIGH s)
    (SUPPORTS_1GB_PAGES_CACHE s) (cr3 s) (rflags s) b) (λ _, 0) (λ _, 0) (pd_e s) (pt_e s)).
  { intros b. destruct Hs as [H1 H2 H3 H4]. split; simpl; [|..|done|done].
    - split; unfold clear; simpl; [by rewrite length_fmap|by rewrite length_fmap|done|done].
    - intros i Hi. unfold clear. rewrite list_lookup_fmap.
      destruct (KERNEL_PML4 s !! Z.to_nat i) eqn:E; [done|]. apply lookup_ge_None in E. lia.
    - intros i Hi. unfold pdp_e, clear. simpl. rewrite list_lookup_fmap. by destruct (_ !! _). }
  wp_step. eapply wp_mono; [apply (wp_for_range _ _ (λ i s', tables s' (λ _, 0) (λ _, 0)
    (λ n, if n / 512 <? i then 0 else pd_e s n) (pt_e s) ∧ regs s' = regs s))|]; [done| | |].
  - split; [|done]. eapply tables_ext; [by apply Ht0|done|done| |done]. intros n Hn.
    pose proof (Z.div_pos n 512 ltac:(lia) ltac:(lia)). by rewrite (proj2 (Z.ltb_ge _ _)) by lia.
  - intros i s' Hi [Ht Hr]. eapply clear_pd_spec; [done|exact Hi|]. intros s'' Ht' Hr'.
    split; [|congruence]. eapply tables_ext; [done|done|done| |done]. intros n Hn. simpl.
    destruct (Z.eqb_spec (n / 512) i), (Z.ltb_spec (n / 512) i), (Z.ltb_spec (n / 512) (i + 1)); done || lia.
  - intros [] s1 [Ht1 Hr1].
    eapply wp_mono; [apply (wp_for_range _ _ (λ i s', tables s' (λ _, 0) (λ _, 0)
      (λ n, if n / 512 <? MAX_SUPPORTED_MEMORY_GB then 0 else pd_e s n) (λ n, if n / 512 <? i then 0 else pt_e s n) ∧ regs s' = regs s))|]; [done| | |].
    + split; [|done]. eapply tables_ext; [done|done|done|done|]. intros n Hn.
      pose proof (Z.div_pos n 512 ltac:(lia) ltac:(lia)). by rewrite (proj2 (Z.ltb_ge _ _)) by lia.
    + intros i s' Hi [Ht Hr]. eapply clear_pt_spec; [done|exact Hi|]. intros s'' Ht' Hr'.
      split; [|congruence]. eapply tables_ext; [done|done|done|done|]. intros n Hn. simpl.
      destruct (Z.eqb_spec (n / 512) i), (Z.ltb_spec (n / 512) i), (Z.ltb_spec (n / 512) (i + 1)); done || lia.
    + intros [] s2 [Ht2 Hr2]. apply HQ; [|done]. eapply tables_ext; [done|done|done|..].
      * intros n Hn. cbv beta. pose proof (Z.div_lt_upper_bound n 512 8 ltac:(lia) ltac:(lia)).
        by rewrite (proj2 (Z.ltb_lt _ _)) by (unfold MAX_SUPPORTED_MEMORY_GB; lia).
      * intros n Hn. cbv beta. pose proof (Z.div_lt_upper_bound n 512 4096 ltac:(lia) ltac:(lia)).
        by rewrite (proj2 (Z.ltb_lt _ _)) by (unfold PT_COUNT, MAX_SUPPORTED_MEMORY_GB; lia).
Qed.
