(* ===== verification/PagingInit.v ===== *)
(** * Kernel page tables: initialisation, and what it makes of the address space. *)
From S2P Require Import Prelude Addr BootInfo X86 Paging PagingSpec PagingWalk PagingMmio PagingOps.
Set Default Goal Selector "!".

(** ** Kernel page tables: initialisation.

    The tables [init] builds, entry by entry. *)
(** The part of the memory map [init] looks at, and the end of what it maps. *)
Definition regions_of (bi : BootInfo) : list MemoryRegion :=
  take (Z.to_nat (Z.min (memory_map_count bi) (Z.of_nat (length (memory_map bi))))) (memory_map bi).
Definition in_mmio (bi : BootInfo) (p : Z) : bool :=
  existsb (λ r, is_mmio_type (r_type r) && in_range p (range_of r)) (regions_of bi).
Definition actual_max (bi : BootInfo) : Z := Z.min (max_physical_address bi) (2 ^ 33).
Definition pt_needed (bi : BootInfo) : Z := (actual_max bi + PAGE_TABLE_COVERAGE - 1) / PAGE_TABLE_COVERAGE.
Definition pd_needed (bi : BootInfo) : Z := (pt_needed bi + 511) / 512.

Definition within (a start end_ : Z) : bool := (start <=? a) && (a <? end_).

(** The entry of page [n]: later writes win. *)
Definition pages_map (img : kernel_image) (bi : BootInfo) (n : Z) : Z :=
  let a := n * 4096 in
  if (a <? actual_max bi) && negb (within a (phys_of (text_start_ img)) (phys_of (bss_end_ img))) && negb (in_mmio bi a)
  then pte_set 0 a rw_flags else 0.
Definition section_map (start end_ flags : Z) (pt : Z → Z) (n : Z) : Z :=
  if within (n * 4096) start end_ then pte_set 0 (n * 4096) flags else pt n.
Definition guard_map (img : kernel_image) (pt : Z → Z) (n : Z) : Z :=
  if n * 4096 =? phys_of (stack_guard_ img) then pte_set 0 (n * 4096) 0 else pt n.
Definition final_pt (img : kernel_image) (bi : BootInfo) : Z → Z :=
  section_map (phys_of (data_start_ img)) (phys_of (bss_end_ img)) data_flags
  (section_map (phys_of (rodata_start_ img)) (phys_of (rodata_end_ img)) rodata_flags
  (section_map (phys_of (text_start_ img)) (phys_of (text_end_ img)) text_flags
  (guard_map img (pages_map img bi)))).

Lemma for_each_fmap {S A B} (f : A → B) (l : list A) (body : B → M S unit) s :
  for_each (f <$> l) body s = for_each l (λ x, body (f x)) s.
Proof.
  revert s. induction l as [|x l IH]; intros s; [done|]. simpl. unfold mbind, M_bind.
  destruct (body (f x) s) as [[[] s']|]; [apply IH|done].
Qed.

Section init.
Context (img : kernel_image) (Himg : image_ok img) (bi : BootInfo).
Context (Hmax : 0 ≤ max_physical_address bi) (Hmmio : mmio_map_ok (regions_of bi)).
Implicit Types (s : pstate).

(** ** Sections of the image in physical memory *)
Lemma kvb_page : (4096 | KERNEL_VIRTUAL_BASE).
Proof. by exists (KERNEL_VIRTUAL_BASE / 4096). Qed.

Lemma round_up_page x : (4096 | (x + 4095) / 4096 * 4096) ∧ x ≤ (x + 4095) / 4096 * 4096 < x + 4096.
Proof.
  split; [apply Z.divide_factor_r|]. pose proof (Z.div_mod (x + 4095) 4096 ltac:(lia)).
  pose proof (Z.mod_pos_bound (x + 4095) 4096 ltac:(lia)). lia.
Qed.

Lemma layout :
  KERNEL_VIRTUAL_BASE < text_start_ img < text_end_ img ∧ text_end_ img ≤ rodata_start_ img < rodata_end_ img ∧
  rodata_end_ img ≤ data_start_ img < bss_end_ img ∧ bss_end_ img ≤ stack_guard_ img ∧
  stack_guard_ img + 4096 ≤ KERNEL_VIRTUAL_BASE + 2 ^ 33 ∧
  (4096 | text_start_ img) ∧ (4096 | rodata_start_ img) ∧ (4096 | data_start_ img) ∧ (4096 | stack_guard_ img) ∧
  rodata_start_ img < text_end_ img + 4096 ∧ data_start_ img < rodata_end_ img + 4096 ∧
  stack_guard_ img < bss_end_ img + 4096.
Proof.
  destruct (io_text _ Himg), (io_rodata _ Himg) as [Hr ?], (io_data _ Himg) as [Hd ?].
  pose proof (io_guard _ Himg) as Hg. pose proof (io_end _ Himg). pose proof (io_page _ Himg).
  destruct (round_up_page (text_end_ img)), (round_up_page (rodata_end_ img)), (round_up_page (bss_end_ img)).
  rewrite <-Hr, <-Hd, <-Hg in *. repeat split; done || lia.
Qed.

Lemma actual_max_bounds : 0 ≤ actual_max bi ≤ 2 ^ 33.
Proof. unfold actual_max. lia. Qed.

Lemma needed_bounds : 0 ≤ pt_needed bi ≤ 4096 ∧ 0 ≤ pd_needed bi ≤ 8.
Proof.
  pose proof actual_max_bounds. unfold pd_needed, pt_needed, PAGE_TABLE_COVERAGE, PAGE_TABLE_ENTRY_COUNT, PAGE_SIZE.
  assert (H1 : 0 ≤ (actual_max bi + 512 * 4096 - 1) / (512 * 4096) ≤ 4096).
  { split; [apply Z.div_pos; lia|]. apply Z.lt_succ_r, Z.div_lt_upper_bound; lia. }
  split; [done|]. split; [apply Z.div_pos; lia|]. apply Z.lt_succ_r, Z.div_lt_upper_bound; lia.
Qed.

(** ** Links *)
Definition pml_final : Z → Z := <[PML4_KERNEL_INDEX := link (pdp_high_at img)]> (λ _, 0).
Definition pdp_upto (k i : Z) : Z := if i <? k then link (element_at (pd_high_at img) i) else 0.
Definition pd_upto (k n : Z) : Z := if n <? k then link (element_at (pt_high_at img) n) else 0.

Lemma link_step base i : (4096 | base) → KERNEL_VIRTUAL_BASE ≤ base < KERNEL_VIRTUAL_BASE + 2 ^ 39 → 0 ≤ i ≤ 4096 →
  physical_address (element_at base i) = Ok (phys_of (element_at base i)) ∧
  pte_set 0 (phys_of (element_at base i)) rw_flags = link (element_at base i).
Proof.
  intros Hd Hr Hi. split.
  - unfold physical_address. rewrite virt_to_phys_ok; [done|]. unfold element_at, PAGE_SIZE. lia.
  - apply link_spec; [by apply element_page| |]; unfold phys_of, element_at, PAGE_SIZE; lia.
Qed.

Lemma link_tables_spec s Q : tables s (λ _, 0) (λ _, 0) (λ _, 0) (λ _, 0) →
  (∀ s', tables s' pml_final (pdp_upto (pd_needed bi)) (pd_upto (pt_needed bi)) (λ _, 0) → regs s' = regs s → Q (Ok tt) s') →
  wp (link_tables img (pd_needed bi) (pt_needed bi)) Q s.
Proof.
  intros Ht HQ. destruct needed_bounds as [Hpt Hpd]. unfold link_tables.
  destruct (io_pdp _ Himg) as [Hd1 Hr1], (io_pd _ Himg) as [Hd2 Hr2], (io_pt _ Himg) as [Hd3 Hr3].
  apply wp_try_bind, wp_ret. unfold physical_address at 1. rewrite virt_to_phys_ok by lia.
  fold (phys_of (pdp_high_at img)). wp_step. eapply set_pml4_spec; [done|done|]. intros s1 Ht1 Hreg1.
  replace (pte_set 0 (phys_of (pdp_high_at img)) rw_flags) with (link (pdp_high_at img)) in Ht1
    by (symmetry; apply link_spec; unfold phys_of; done || lia).
  apply wp_try_bind. eapply wp_mono; [apply (wp_try_for_range _ _ (λ i s', tables s' pml_final (pdp_upto i) (λ _, 0) (λ _, 0) ∧ regs s' = regs s))|];
    [lia| | |].
  - split; [|done]. eapply tables_ext; [exact Ht1|done| |done|done]. intros i Hi. unfold pdp_upto.
    by rewrite (proj2 (Z.ltb_ge _ _)) by lia.
  - intros i s' Hi [Hti Hri]. destruct (link_step (pd_high_at img) i Hd2 Hr2 ltac:(lia)) as [Hpa Hlk].
    apply wp_try_bind, wp_ret. rewrite Hpa. wp_step. eapply set_pdp_spec; [done|lia|].
    intros s2 Ht2 Hreg2. apply wp_ret. split; [done|]. split; [|congruence].
    eapply tables_ext; [exact Ht2|done| |done|done]. intros j Hj. rewrite Hlk. unfold pdp_upto.
    destruct (decide (i = j)) as [<-|].
    + rewrite fn_lookup_insert. by rewrite (proj2 (Z.ltb_lt _ _)) by lia.
    + rewrite fn_lookup_insert_ne by done. destruct (Z.ltb_spec j (i + 1)), (Z.ltb_spec j i); done || lia.
  - intros r s2 [-> [Ht2 Hreg2]].
    eapply wp_mono; [apply (wp_try_for_range _ _ (λ n s', tables s' pml_final (pdp_upto (pd_needed bi)) (pd_upto n) (λ _, 0) ∧ regs s' = regs s))|];
      [lia| | |].
    + split; [|done]. eapply tables_ext; [exact Ht2|done|done| |done]. intros i Hi. unfold pd_upto.
      by rewrite (proj2 (Z.ltb_ge _ _)) by lia.
    + intros n s' Hn [Hti Hri]. destruct (link_step (pt_high_at img) n Hd3 Hr3 ltac:(lia)) as [Hpa Hlk].
      apply wp_try_bind, wp_ret. rewrite Hpa. wp_step. eapply set_pd_spec; [done|lia|].
      intros s3 Ht3 Hreg3. apply wp_ret. split; [done|]. split; [|congruence].
      eapply tables_ext; [exact Ht3|done|done| |done]. intros j Hj. rewrite Hlk. unfold pd_upto.
      destruct (decide (n = j)) as [<-|].
      * rewrite fn_lookup_insert. by rewrite (proj2 (Z.ltb_lt _ _)) by lia.
      * rewrite fn_lookup_insert_ne by done. destruct (Z.ltb_spec j (n + 1)), (Z.ltb_spec j n); done || lia.
    + intros r s3 [-> [Ht3 Hreg3]]. by apply HQ.
Qed.

(** ** Pages *)
Definition pages_upto (k n : Z) : Z := if n <? k then pages_map img bi n else 0.

Lemma pages_upto_step n m : (<[n := pages_map img bi n]> (pages_upto n)) m = pages_upto (n + 1) m.
Proof.
  unfold pages_upto. destruct (decide (n = m)) as [<-|].
  - rewrite fn_lookup_insert. by rewrite (proj2 (Z.ltb_lt _ _)) by lia.
  - rewrite fn_lookup_insert_ne by done. destruct (Z.ltb_spec m (n + 1)), (Z.ltb_spec m n); done || lia.
Qed.

Lemma map_page_spec s pml pdp pd pt_idx page_idx ranges count Q :
  let n := pt_idx * 512 + page_idx in
  0 ≤ pt_idx < 4096 → 0 ≤ page_idx < 512 →
  (∀ p, is_mmio_region_binary p ranges count = Some (in_mmio bi p)) →
  tables s pml pdp pd (pages_upto n) →
  (∀ s', tables s' pml pdp pd (pages_upto (n + 1)) → regs s' = regs s → Q tt s') →
  wp (map_page (actual_max bi) (phys_of (text_start_ img)) (phys_of (bss_end_ img)) ranges count pt_idx page_idx) Q s.
Proof.
  intros n Hpt Hpg Hmm Ht HQ. unfold map_page.
  replace ((pt_idx * PAGE_TABLE_ENTRY_COUNT + page_idx) * PAGE_SIZE) with (n * 4096) by done.
  assert (Hskip : pages_map img bi n = 0 → Q tt s).
  { intros H0. apply HQ; [|done]. eapply tables_ext; [exact Ht|done|done|done|]. intros m Hm.
    rewrite <-pages_upto_step, H0. destruct (decide (n = m)) as [<-|].
    - rewrite fn_lookup_insert. unfold pages_upto. by rewrite Z.ltb_irrefl.
    - by rewrite fn_lookup_insert_ne. }
  unfold pages_map in Hskip. unfold within in Hskip.
  destruct (n * 4096 <? actual_max bi) eqn:E1; cbn [andb negb] in Hskip; [|apply wp_ret; by apply Hskip].
  destruct ((phys_of (text_start_ img) <=? n * 4096) && (n * 4096 <? phys_of (bss_end_ img))) eqn:E2;
    cbn [andb negb] in Hskip; [apply wp_ret; by apply Hskip|].
  wp_step. eapply wp_lift; [apply Hmm|].
  destruct (in_mmio bi (n * 4096)) eqn:E3; cbn [andb negb] in Hskip; [apply wp_ret; by apply Hskip|].
  replace pt_idx with (n / 512) at 1 by (unfold n; rewrite Z.div_add_l, Z.div_small; lia).
  replace page_idx with (n mod 512) at 1 by (unfold n; rewrite Z.add_comm, Z.mod_add, Z.mod_small; lia).
  eapply set_pt_spec; [done|unfold n; lia|]. intros s' Ht' Hr. apply HQ; [|done].
  eapply tables_ext; [exact Ht'|done|done|done|]. intros m Hm. rewrite <-pages_upto_step.
  unfold pages_map, within. by rewrite E1, E2, E3.
Qed.

Lemma map_pages_spec s pml pdp pd ranges count Q :
  (∀ p, is_mmio_region_binary p ranges count = Some (in_mmio bi p)) →
  tables s pml pdp pd (λ _, 0) →
  (∀ s', tables s' pml pdp pd (pages_map img bi) → regs s' = regs s → Q tt s') →
  wp (map_pages (actual_max bi) (phys_of (text_start_ img)) (phys_of (bss_end_ img)) ranges count (pt_needed bi)) Q s.
Proof.
  intros Hmm Ht HQ. destruct needed_bounds as [Hpt _]. unfold map_pages.
  eapply wp_mono; [apply (wp_for_range _ _ (λ i s', tables s' pml pdp pd (pages_upto (i * 512)) ∧ regs s' = regs s))|];
    [lia| | |].
  - split; [|done]. eapply tables_ext; [exact Ht|done|done|done|]. intros n Hn. unfold pages_upto.
    by rewrite (proj2 (Z.ltb_ge _ _)) by lia.
  - intros i s1 Hi [Ht1 Hr1].
    eapply wp_mono; [apply (wp_for_range _ _ (λ j s', tables s' pml pdp pd (pages_upto (i * 512 + j)) ∧ regs s' = regs s))|];
      [done| | |].
    + by rewrite Z.add_0_r.
    + intros j s2 Hj [Ht2 Hr2]. eapply map_page_spec; [lia|exact Hj|done|done|].
      intros s3 Ht3 Hr3. rewrite Z.add_assoc. split; [done|congruence].
    + intros [] s2 [Ht2 Hr2]. split; [|done]. by replace ((i + 1) * 512) with (i * 512 + PAGE_TABLE_ENTRY_COUNT) by (unfold PAGE_TABLE_ENTRY_COUNT; lia).
  - intros [] s1 [Ht1 Hr1]. apply HQ; [|done]. eapply tables_ext; [exact Ht1|done|done|done|].
    intros n Hn. unfold pages_upto. destruct (Z.ltb_spec n (pt_needed bi * 512)) as [|Hge]; [done|].
    unfold pages_map. rewrite (proj2 (Z.ltb_ge _ _)); [done|].
    unfold pt_needed, PAGE_TABLE_COVERAGE, PAGE_TABLE_ENTRY_COUNT, PAGE_SIZE in Hge.
    pose proof (Z.div_mod (actual_max bi + 512 * 4096 - 1) (512 * 4096) ltac:(lia)).
    pose proof (Z.mod_pos_bound (actual_max bi + 512 * 4096 - 1) (512 * 4096) ltac:(lia)). lia.
Qed.

(** ** Sections and the guard page *)
Lemma page_number a : 0 ≤ a → (4096 | a) → Z.shiftr a 12 * 4096 = a.
Proof.
  intros Ha [k ->]. rewrite Z.shiftr_div_pow2 by lia. change (2 ^ 12) with 4096. by rewrite Z.div_mul.
Qed.

Lemma map_section_spec s pml pdp pd pt start end_ flags Q :
  tables s pml pdp pd pt → (4096 | start) → 0 ≤ start < end_ → end_ ≤ 2 ^ 33 →
  (∀ s', tables s' pml pdp pd (section_map start end_ flags pt) → regs s' = regs s → Q tt s') →
  wp (map_section start end_ flags) Q s.
Proof.
  intros Ht Hd Hs He HQ. unfold map_section, step_by. unfold wp. rewrite for_each_fmap.
  match goal with |- context [for_each ?l ?b s] => fold (wp (for_each l b) Q s) end.
  destruct Hd as [k ->]. unfold PAGE_SIZE. set (c := (end_ - k * 4096 + 4096 - 1) / 4096).
  assert (Hc : end_ ≤ (k + c) * 4096 < end_ + 4096).
  { pose proof (Z.div_mod (end_ - k * 4096 + 4096 - 1) 4096 ltac:(lia)).
    pose proof (Z.mod_pos_bound (end_ - k * 4096 + 4096 - 1) 4096 ltac:(lia)). unfold c. lia. }
  set (upto := λ i n, if (k <=? n) && (n <? k + i) then pte_set 0 (n * 4096) flags else pt n).
  eapply wp_mono; [apply (wp_for_range _ _ (λ i s', tables s' pml pdp pd (upto i) ∧ regs s' = regs s))|]; [lia| | |].
  - split; [|done]. eapply tables_ext; [exact Ht|done|done|done|]. intros n Hn. unfold upto.
    destruct (Z.leb_spec k n), (Z.ltb_spec n (k + 0)); done || lia.
  - intros i s1 Hi [Ht1 Hr1]. cbv beta zeta.
    replace (Z.shiftr (k * 4096 + i * 4096) 12) with (k + i).
    2: { rewrite Z.shiftr_div_pow2 by lia. change (2 ^ 12) with 4096. rewrite <-Z.mul_add_distr_r. by rewrite Z.div_mul. }
    eapply set_pt_spec; [done|lia|]. intros s2 Ht2 Hr2. split; [|congruence].
    eapply tables_ext; [exact Ht2|done|done|done|]. intros n Hn. unfold upto.
    destruct (decide (k + i = n)) as [<-|].
    + rewrite fn_lookup_insert, (proj2 (Z.leb_le _ _)), (proj2 (Z.ltb_lt _ _)) by lia. simpl. f_equal. lia.
    + rewrite fn_lookup_insert_ne by done.
      destruct (Z.leb_spec k n), (Z.ltb_spec n (k + i)), (Z.ltb_spec n (k + (i + 1))); done || lia.
  - intros [] s1 [Ht1 Hr1]. apply HQ; [|done]. eapply tables_ext; [exact Ht1|done|done|done|].
    intros n Hn. unfold section_map, within, upto.
    destruct (Z.leb_spec k n), (Z.ltb_spec n (k + c)), (Z.leb_spec (k * 4096) (n * 4096)), (Z.ltb_spec (n * 4096) end_); done || lia.
Qed.

Lemma setup_guard_page_spec s pml pdp pd pt Q : tables s pml pdp pd pt →
  (∀ s', tables s' pml pdp pd (guard_map img pt) → regs s' = regs s → Q (Ok tt) s') →
  wp (setup_guard_page img) Q s.
Proof.
  intros Ht HQ. destruct layout as (L1 & L2 & L3 & L4 & L5 & _ & _ & _ & Lg & _).
  unfold setup_guard_page, guard_page_address.
  apply wp_try_bind, wp_ret. rewrite virt_to_phys_ok by lia. fold (phys_of (stack_guard_ img)).
  pose proof (page_phys _ Lg) as Hg. assert (Hr : 0 ≤ phys_of (stack_guard_ img) < 2 ^ 33) by (unfold phys_of; lia).
  pose proof (page_number _ (proj1 Hr) Hg) as Hn. set (n := Z.shiftr (phys_of (stack_guard_ img)) 12) in *.
  rewrite (proj2 (Z.leb_gt PT_COUNT _)).
  2: { apply Z.div_lt_upper_bound; [done|]. unfold PAGE_TABLE_ENTRY_COUNT, PT_COUNT, MAX_SUPPORTED_MEMORY_GB. lia. }
  rewrite (proj2 (Z.leb_gt PAGE_TABLE_ENTRY_COUNT _)) by (apply Z.mod_pos_bound; done).
  wp_step. eapply set_pt_spec; [done|lia|]. intros s1 Ht1 Hr1. apply wp_ret, HQ; [|done].
  eapply tables_ext; [exact Ht1|done|done|done|]. intros m Hm. unfold guard_map.
  destruct (decide (n = m)) as [<-|].
  - rewrite fn_lookup_insert, Hn. by rewrite Z.eqb_refl.
  - rewrite fn_lookup_insert_ne by done. by rewrite (proj2 (Z.eqb_neq _ _)) by lia.
Qed.

Lemma map_sections_spec s pml pdp pd pt Q : tables s pml pdp pd pt →
  (∀ s', tables s' pml pdp pd
     (section_map (phys_of (data_start_ img)) (phys_of (bss_end_ img)) data_flags
     (section_map (phys_of (rodata_start_ img)) (phys_of (rodata_end_ img)) rodata_flags
     (section_map (phys_of (text_start_ img)) (phys_of (text_end_ img)) text_flags pt))) →
     regs s' = regs s → Q (Ok tt) s') →
  wp (map_sections img) Q s.
Proof.
  intros Ht HQ. destruct layout as (L1 & L2 & L3 & L4 & L5 & Lt & Lr & Ld & _).
  unfold map_sections. do 6 (apply wp_try_bind, wp_ret; rewrite virt_to_phys_ok by lia).
  wp_step. eapply map_section_spec; [exact Ht|by apply page_phys|lia|lia|]. intros s1 Ht1 Hr1.
  wp_step. eapply map_section_spec; [exact Ht1|by apply page_phys|lia|lia|]. intros s2 Ht2 Hr2.
  wp_step. eapply map_section_spec; [exact Ht2|by apply page_phys|lia|lia|]. intros s3 Ht3 Hr3.
  apply wp_ret, HQ; [done|congruence].
Qed.

(** The whole of [init]. *)
Lemma init_spec s : pshape s →
  wp (init img bi) (λ r s', r = Ok tt ∧
      tables s' pml_final (pdp_upto (pd_needed bi)) (pd_upto (pt_needed bi)) (final_pt img bi) ∧
      cr3 s' = phys_of (pml4_at img) ∧ rflags s' = rflags s ∧
      SUPPORTS_1GB_PAGES_CACHE s' = SUPPORTS_1GB_PAGES_CACHE s ∧ tlb_stale s' = false) s.
Proof.
  intros Hs. destruct layout as (L1 & L2 & L3 & L4 & L5 & _).
  destruct (mmio_lookup _ Hmmio) as (ranges & count & Hext & Hlook).
  unfold init. fold (regions_of bi). change (Z.shiftl MAX_SUPPORTED_MEMORY_GB 30) with (2 ^ 33).
  fold (actual_max bi). fold (pt_needed bi). fold (pd_needed bi). cbv zeta.
  wp_step. apply clear_tables_spec; [done|]. intros s1 Ht1 Hr1.
  apply wp_try_bind, link_tables_spec; [done|]. intros s2 Ht2 Hr2.
  do 2 (apply wp_try_bind, wp_ret; rewrite virt_to_phys_ok by lia).
  wp_step. eapply wp_lift; [exact Hext|]. cbv beta iota. wp_step.
  apply map_pages_spec with (pml := pml_final) (pdp := pdp_upto (pd_needed bi)) (pd := pd_upto (pt_needed bi)); [exact Hlook|done|].
  intros s3 Ht3 Hr3. apply wp_try_bind. eapply setup_guard_page_spec; [exact Ht3|]. intros s4 Ht4 Hr4.
  apply wp_try_bind. eapply map_sections_spec; [exact Ht4|]. intros s5 Ht5 Hr5.
  apply wp_try_bind, wp_ret. unfold physical_address. destruct (io_pml4 _ Himg). rewrite virt_to_phys_ok by lia.
  wp_step. eapply write_cr3_spec; [exact Ht5|]. intros s6 Ht6 Hr6 Htlb. apply wp_ret.
  assert (Hregs : regs s5 = regs s) by congruence. unfold regs in *. injection Hr6 as Hc1 Hc2 Hc3.
  injection Hregs as _ Hf Hca. split; [done|]. split; [exact Ht6|]. unfold phys_of. repeat split; congruence.
Qed.
End init.

(** ** Kernel page tables: what [init] makes of the address space. *)
(** The translation of [KERNEL_VIRTUAL_BASE + p] after [init]: kernel sections
    with W^X, the guard page absent, every other page below the end of memory
    that is not MMIO read-write, the rest absent. *)
Definition expected (img : kernel_image) (bi : BootInfo) (p : Z) : option mapping :=
  let a := p / 4096 * 4096 in
  if within a (phys_of (text_start_ img)) (phys_of (text_end_ img)) then Some (mkMapping p false false false)
  else if within a (phys_of (rodata_start_ img)) (phys_of (rodata_end_ img)) then Some (mkMapping p false true false)
  else if within a (phys_of (data_start_ img)) (phys_of (bss_end_ img)) then Some (mkMapping p true true false)
  else if a =? phys_of (stack_guard_ img) then None
  else if (a <? actual_max bi) && negb (in_mmio bi a) then Some (mkMapping p true false false)
  else None.

(** ** Leaves *)
(** A leaf written by [set] with flags outside the frame bits. *)
Lemma leaf_set a f n p : 12 ≤ n ≤ 39 → (2 ^ n | a) → 0 ≤ a < 2 ^ 52 → a ≤ p < a + 2 ^ n →
  Z.land f PHYSICAL_ADDRESS_MASK = 0 →
  leaf (pte_set 0 a f) (2 ^ n) p true false =
    mkMapping p (Z.testbit f 1) (Z.testbit f 63) (Z.testbit f 4).
Proof.
  intros Hn [k ->] Ha Hp Hf. unfold leaf, e_writable, e_nx, e_uncached.
  rewrite !bit_set by lia. rewrite frame_set, mask_page by
    (done || (apply Z.divide_mul_r; exists (2 ^ (n - 12)); rewrite <-(Z.pow_add_r 2 _ 12) by lia; f_equal; lia)).
  rewrite Z.div_mul by lia. f_equal. rewrite <-(Z.mod_unique p (2 ^ n) k (p - k * 2 ^ n)) by lia. lia.
Qed.

Lemma present_set a f : e_present (pte_set 0 a f) = Z.testbit f 0.
Proof. unfold e_present. by rewrite bit_set by lia. Qed.
Lemma large_set a f : e_large (pte_set 0 a f) = Z.testbit f 7.
Proof. unfold e_large. by rewrite bit_set by lia. Qed.

Section thms.
Context (img : kernel_image) (Himg : image_ok img).
Implicit Types (s : pstate).

(** Tables linked like [init]'s satisfy the invariant. *)
Lemma tables_pinv s k m pt : tables s (pml_final img) (pdp_upto img k) (pd_upto img m) pt → k ≤ 8 →
  cr3 s = phys_of (pml4_at img) → pinv img s.
Proof.
  intros Ht Hk Hc. split; [apply Ht|done| | |].
  - intros i Hi. rewrite (tb_pml _ _ _ _ _ Ht) by done. unfold pml_final, PML4_KERNEL_INDEX.
    destruct (Z.eqb_spec i 256) as [->|]; [by rewrite fn_lookup_insert|]. by rewrite fn_lookup_insert_ne.
  - intros i Hi. rewrite (tb_pdp _ _ _ _ _ Ht) by done. unfold pdp_upto.
    destruct (Z.ltb_spec i k); [intros; split; [lia|done]|done].
  - intros n Hn. rewrite (tb_pd _ _ _ _ _ Ht) by done. unfold pd_upto. by destruct (Z.ltb_spec n m).
Qed.

(** The links of a static table. *)
Lemma pd_link_bits i : 0 ≤ i < 8 →
  e_present (link (element_at (pd_high_at img) i)) = true ∧ e_large (link (element_at (pd_high_at img) i)) = false.
Proof.
  intros Hi. destruct (io_pd _ Himg).
  destruct (link_facts (element_at (pd_high_at img) i)) as (_ & ? & _ & _ & ?);
    [by apply element_page|unfold element_at, PAGE_SIZE; lia|done].
Qed.
Lemma pt_link_bits n : 0 ≤ n < 4096 →
  e_present (link (element_at (pt_high_at img) n)) = true ∧ e_large (link (element_at (pt_high_at img) n)) = false.
Proof.
  intros Hi. destruct (io_pt _ Himg).
  destruct (link_facts (element_at (pt_high_at img) n)) as (_ & ? & _ & _ & ?);
    [by apply element_page|unfold element_at, PAGE_SIZE; lia|done].
Qed.

(** Through linked tables the translation is the page's entry. *)
Lemma resolve_linked s p : pinv img s → 0 ≤ p < 2 ^ 33 →
  pdp_e s (p / 2 ^ 30) = link (element_at (pd_high_at img) (p / 2 ^ 30)) →
  pd_e s (p / 2 ^ 21) = link (element_at (pt_high_at img) (p / 2 ^ 21)) →
  resolve s p = if negb (e_present (pt_e s (p / 2 ^ 12))) then None
                else Some (leaf (pt_e s (p / 2 ^ 12)) (2 ^ 12) p true false).
Proof.
  intros Hi Hp H3 H2. unfold resolve. rewrite H3, H2.
  pose proof (Z.div_pos p (2 ^ 30) ltac:(lia) ltac:(lia)). pose proof (Z.div_lt_upper_bound p (2 ^ 30) 8 ltac:(lia) ltac:(lia)).
  pose proof (Z.div_pos p (2 ^ 21) ltac:(lia) ltac:(lia)). pose proof (Z.div_lt_upper_bound p (2 ^ 21) 4096 ltac:(lia) ltac:(lia)).
  destruct (pd_link_bits (p / 2 ^ 30)) as [-> ->]; [lia|].
  destruct (pt_link_bits (p / 2 ^ 21)) as [-> ->]; [lia|]. done.
Qed.

Context (bi : BootInfo) (Hmax : 0 ≤ max_physical_address bi).
Context (Hfits : stack_guard_ img + 4096 ≤ KERNEL_VIRTUAL_BASE + actual_max bi).

(** The entry of a page, read as a mapping. *)
Lemma final_entry p : 0 ≤ p < 2 ^ 33 →
  (if negb (e_present (final_pt img bi (p / 2 ^ 12))) then None
   else Some (leaf (final_pt img bi (p / 2 ^ 12)) (2 ^ 12) p true false)) = expected img bi p.
Proof.
  intros Hp. destruct (layout img Himg) as (L1 & L2 & L3 & L4 & L5 & Lt & Lr & Ld & Lg & G1 & G2 & G3).
  change (2 ^ 12) with 4096 in *. set (n := p / 4096). unfold expected. fold n.
  assert (Ha : n * 4096 ≤ p < n * 4096 + 4096).
  { pose proof (Z.div_mod p 4096 ltac:(lia)). pose proof (Z.mod_pos_bound p 4096 ltac:(lia)). unfold n. lia. }
  assert (Hset : ∀ f, Z.land f PHYSICAL_ADDRESS_MASK = 0 → Z.testbit f 0 = true →
    (if negb (e_present (pte_set 0 (n * 4096) f)) then None else Some (leaf (pte_set 0 (n * 4096) f) 4096 p true false)) =
    Some (mkMapping p (Z.testbit f 1) (Z.testbit f 63) (Z.testbit f 4))).
  { intros f Hf Hf0. rewrite present_set, Hf0. cbn [negb]. f_equal. apply (leaf_set _ _ 12); [lia|apply Z.divide_factor_r|lia|lia|done]. }
  pose proof (page_phys _ Lr) as [r Er]. pose proof (page_phys _ Ld) as [d Ed]. pose proof (page_phys _ Lt) as [t Et].
  unfold phys_of in *. unfold final_pt, section_map, guard_map, pages_map, within, phys_of.
  destruct (Z.leb_spec (text_start_ img - KERNEL_VIRTUAL_BASE) (n * 4096)),
    (Z.ltb_spec (n * 4096) (text_end_ img - KERNEL_VIRTUAL_BASE)),
    (Z.leb_spec (rodata_start_ img - KERNEL_VIRTUAL_BASE) (n * 4096)),
    (Z.ltb_spec (n * 4096) (rodata_end_ img - KERNEL_VIRTUAL_BASE)),
    (Z.leb_spec (data_start_ img - KERNEL_VIRTUAL_BASE) (n * 4096)),
    (Z.ltb_spec (n * 4096) (bss_end_ img - KERNEL_VIRTUAL_BASE)); try lia; cbn [andb negb];
    try (by rewrite Hset).
  all: destruct (Z.eqb_spec (n * 4096) (stack_guard_ img - KERNEL_VIRTUAL_BASE)) as [E|]; [by rewrite present_set|].
  all: rewrite ?andb_true_r; destruct (n * 4096 <? actual_max bi); cbn [andb]; [|done].
  all: destruct (in_mmio bi (n * 4096)); cbn [negb]; [done|by rewrite Hset].
Qed.

(** Above the end of memory nothing is expected. *)
Lemma expected_above p : actual_max bi ≤ p / 4096 * 4096 → expected img bi p = None.
Proof.
  intros Hp. destruct (layout img Himg) as (L1 & L2 & L3 & L4 & L5 & _). unfold expected, within, phys_of.
  rewrite !(proj2 (Z.ltb_ge (p / 4096 * 4096) _)) by lia. rewrite !andb_false_r.
  rewrite (proj2 (Z.eqb_neq _ _)) by lia. done.
Qed.

Lemma resolve_final s p : 
  tables s (pml_final img) (pdp_upto img (pd_needed bi)) (pd_upto img (pt_needed bi)) (final_pt img bi) →
  cr3 s = phys_of (pml4_at img) → 0 ≤ p < 2 ^ 39 → resolve s p = expected img bi p.
Proof.
  intros Ht Hc Hp. destruct (needed_bounds bi Hmax) as [Hpt Hpd]. pose proof (actual_max_bounds bi Hmax).
  pose proof (tables_pinv s _ _ _ Ht ltac:(lia) Hc) as Hinv.
  pose proof (Z.div_pos p (2 ^ 30) ltac:(lia) ltac:(lia)). pose proof (Z.div_lt_upper_bound p (2 ^ 30) 512 ltac:(lia) ltac:(lia)).
  pose proof (Z.div_pos p (2 ^ 21) ltac:(lia) ltac:(lia)). pose proof (Z.div_pos p 4096 ltac:(lia) ltac:(lia)).
  pose proof (Z.div_mod p 4096 ltac:(lia)). pose proof (Z.mod_pos_bound p 4096 ltac:(lia)).
  pose proof (Z.div_mod p (2 ^ 21) ltac:(lia)). pose proof (Z.mod_pos_bound p (2 ^ 21) ltac:(lia)).
  pose proof (Z.div_mod p (2 ^ 30) ltac:(lia)). pose proof (Z.mod_pos_bound p (2 ^ 30) ltac:(lia)).
  assert (Hneed : (pt_needed bi) * 2 ^ 21 - 2 ^ 21 < actual_max bi ≤ pt_needed bi * 2 ^ 21).
  { unfold pt_needed, PAGE_TABLE_COVERAGE, PAGE_TABLE_ENTRY_COUNT, PAGE_SIZE. change (512 * 4096) with (2 ^ 21).
    pose proof (Z.div_mod (actual_max bi + 2 ^ 21 - 1) (2 ^ 21) ltac:(lia)).
    pose proof (Z.mod_pos_bound (actual_max bi + 2 ^ 21 - 1) (2 ^ 21) ltac:(lia)). lia. }
  assert (Hneed2 : pd_needed bi * 512 - 512 < pt_needed bi ≤ pd_needed bi * 512).
  { unfold pd_needed. pose proof (Z.div_mod (pt_needed bi + 511) 512 ltac:(lia)).
    pose proof (Z.mod_pos_bound (pt_needed bi + 511) 512 ltac:(lia)). lia. }
  destruct (Z.ltb_spec (p / 2 ^ 21) (pt_needed bi)) as [Hin|Hout].
  - assert (p / 2 ^ 30 < pd_needed bi) by lia.
    rewrite resolve_linked; [|done|lia| |].
    + rewrite (tb_pt _ _ _ _ _ Ht); [apply final_entry; lia|]. change (2 ^ 12) with 4096. lia.
    + rewrite (tb_pdp _ _ _ _ _ Ht) by lia. unfold pdp_upto. by rewrite (proj2 (Z.ltb_lt _ _)).
    + rewrite (tb_pd _ _ _ _ _ Ht) by lia. unfold pd_upto. by rewrite (proj2 (Z.ltb_lt _ _)).
  - rewrite expected_above by lia. unfold resolve.
    rewrite (tb_pdp _ _ _ _ _ Ht) by lia. unfold pdp_upto.
    destruct (Z.ltb_spec (p / 2 ^ 30) (pd_needed bi)) as [Hlt3|]; [|done].
    destruct (pd_link_bits (p / 2 ^ 30)) as [-> ->]; [lia|]. cbn [negb].
    rewrite (tb_pd _ _ _ _ _ Ht) by lia. unfold pd_upto. by rewrite (proj2 (Z.ltb_ge _ _)).
Qed.
End thms.
