(* ===== verification/PagingMap.v ===== *)
(** * Kernel page tables: mapping after initialisation, pages of 2 MiB and 1 GiB. *)
From S2P Require Import Prelude Addr BootInfo X86 Paging PagingSpec PagingWalk PagingMmio PagingOps PagingInit.
Set Default Goal Selector "!".

(** ** Kernel page tables: mapping after initialisation.

    [map_mmio], the 2 MiB and 1 GiB mappings and the frame buffer, each as an
    update of the entries and then as a change of the translation. *)
Definition interrupts_off (s : pstate) : Prop := Z.land (rflags s) RFLAGS_IF = 0.
(** The upper-level entries of [p] are the links [init] makes. *)
Definition pd_linked (img : kernel_image) (s : pstate) (p : Z) : Prop :=
  pdp_e s (p / 2 ^ 30) = link (element_at (pd_high_at img) (p / 2 ^ 30)).
Definition pt_linked (img : kernel_image) (s : pstate) (p : Z) : Prop :=
  pd_linked img s p ∧ pd_e s (p / 2 ^ 21) = link (element_at (pt_high_at img) (p / 2 ^ 21)).

Definition pages_of (size unit_ : Z) : Z := (size + unit_ - 1) / unit_.

Section map.
Context (img : kernel_image) (Himg : image_ok img).
Implicit Types (s : pstate).

Definition pml_of s (i : Z) : Z := default 0 (KERNEL_PML4 s !! Z.to_nat i).

(** The invariant after an update of the lower levels. *)
Lemma pinv_update s s' pdp pd pt : pinv img s → tables s' (pml_of s) pdp pd pt → cr3 s' = cr3 s →
  (∀ i, 0 ≤ i < 512 → e_present (pdp i) = true → e_large (pdp i) = false → pdp i = pdp_e s i) →
  (∀ n, 0 ≤ n < 4096 → e_present (pd n) = true → e_large (pd n) = false → pd n = pd_e s n) →
  pinv img s'.
Proof.
  intros Hi Ht Hc Hpdp Hpd. split.
  - apply Ht.
  - by rewrite Hc, (pi_cr3 _ _ Hi).
  - intros i Hr. rewrite (tb_pml _ _ _ _ _ Ht) by done. unfold pml_of. rewrite (pi_pml4 _ _ Hi i Hr). done.
  - intros i Hr. rewrite (tb_pdp _ _ _ _ _ Ht) by done. intros Hp Hl. pose proof (Hpdp i Hr Hp Hl) as E. rewrite E in *. by apply (pi_pdp _ _ Hi).
  - intros n Hr. rewrite (tb_pd _ _ _ _ _ Ht) by done. intros Hp Hl. pose proof (Hpd n Hr Hp Hl) as E. rewrite E in *. by apply (pi_pd _ _ Hi).
Qed.

Lemma index_bounds p : 0 ≤ p < 2 ^ 33 →
  0 ≤ p / 2 ^ 30 < 8 ∧ 0 ≤ p / 2 ^ 21 < 4096 ∧ 0 ≤ p / 2 ^ 12 < NPAGES.
Proof.
  intros Hp. repeat split; first [apply Z.div_pos; lia | apply Z.div_lt_upper_bound; lia].
Qed.

(** Addresses whose entries did not change translate as before. *)
Lemma resolve_ext s s' p : pinv img s → 0 ≤ p < 2 ^ 39 →
  pdp_e s' (p / 2 ^ 30) = pdp_e s (p / 2 ^ 30) →
  (p < 2 ^ 33 → pd_e s' (p / 2 ^ 21) = pd_e s (p / 2 ^ 21)) →
  (p < 2 ^ 33 → pt_e s' (p / 2 ^ 12) = pt_e s (p / 2 ^ 12)) →
  resolve s' p = resolve s p.
Proof.
  intros Hi Hp H3 H2 H1. unfold resolve. rewrite H3.
  destruct (e_present (pdp_e s (p / 2 ^ 30))) eqn:Ep; [|done]. cbn [negb].
  destruct (e_large (pdp_e s (p / 2 ^ 30))) eqn:El; [done|].
  pose proof (Z.div_pos p (2 ^ 30) ltac:(lia) ltac:(lia)). pose proof (Z.div_lt_upper_bound p (2 ^ 30) 512 ltac:(lia) ltac:(lia)).
  destruct (pi_pdp _ _ Hi (p / 2 ^ 30) ltac:(lia) Ep El) as [H8 _].
  pose proof (Z.div_mod p (2 ^ 30) ltac:(lia)). pose proof (Z.mod_pos_bound p (2 ^ 30) ltac:(lia)).
  rewrite H2, H1 by lia. done.
Qed.

Lemma assert_off s Q : interrupts_off s → Q tt s → wp assert_interrupts_disabled Q s.
Proof.
  intros Hf HQ. unfold assert_interrupts_disabled. wp_step. wp_step. wp_step; [|done]. unfold interrupts_off in Hf. by rewrite Hf.
Qed.

Lemma page_offset_mask a : (4096 | a) → Z.land a PAGE_OFFSET_MASK = 0.
Proof.
  intros Hd. change PAGE_OFFSET_MASK with (Z.ones 12). rewrite Z.land_ones by lia. by apply Z.mod_divide.
Qed.

Lemma is_2mb_aligned_spec a : is_2mb_aligned a = true ↔ (2 ^ 21 | a).
Proof.
  unfold is_2mb_aligned. change HUGE_PAGE_2MB_OFFSET_MASK with (Z.ones 21). rewrite Z.land_ones by lia.
  rewrite Z.eqb_eq. apply Z.mod_divide. lia.
Qed.
Lemma is_1gb_aligned_spec a : is_1gb_aligned a = true ↔ (2 ^ 30 | a).
Proof.
  unfold is_1gb_aligned. change HUGE_PAGE_1GB_OFFSET_MASK with (Z.ones 30). rewrite Z.land_ones by lia.
  rewrite Z.eqb_eq. apply Z.mod_divide. lia.
Qed.

Lemma direct_virt p : 0 < p < 2 ^ 33 → phys_to_virt p = Some (Ok (p + KERNEL_VIRTUAL_BASE)).
Proof. intros. apply phys_to_virt_ok; [lia|]. unfold KERNEL_VIRTUAL_BASE. lia. Qed.

(** ** MMIO *)
Definition mmio_map (phys pages : Z) (pt : Z → Z) (n : Z) : Z :=
  if within (n * 4096) phys (phys + pages * 4096) then pte_set 0 (n * 4096) uc_flags else pt n.

Lemma map_mmio_tables s pml pdp pd pt phys size : tables s pml pdp pd pt → interrupts_off s →
  (4096 | phys) → 0 < phys → 0 ≤ size → phys + pages_of size 4096 * 4096 ≤ 2 ^ 33 → phys < 2 ^ 33 →
  wp (map_mmio phys size) (λ r s', r = Ok (phys + KERNEL_VIRTUAL_BASE) ∧
     tables s' pml pdp pd (mmio_map phys (pages_of size 4096) pt) ∧ regs s' = regs s ∧ tlb_stale s' = false) s.
Proof.
  intros Ht Hoff Hd Hpos Hsz Hend Hlt.
  assert (Hpg : 0 ≤ pages_of size 4096 ∧ size ≤ pages_of size 4096 * 4096).
  { unfold pages_of. pose proof (Z.div_mod (size + 4096 - 1) 4096 ltac:(lia)).
    pose proof (Z.mod_pos_bound (size + 4096 - 1) 4096 ltac:(lia)). split; [apply Z.div_pos|]; lia. }
  unfold map_mmio. wp_step. apply assert_off; [done|]. rewrite page_offset_mask by done. cbn [Z.eqb negb].
  wp_step. wp_step; [apply cadd_some; unfold PAGE_SIZE; lia|]. cbv zeta. unfold PAGE_SIZE. fold (pages_of size 4096).
  set (c := pages_of size 4096) in *. destruct Hd as [k ->].
  apply wp_try_bind. eapply wp_mono; [apply (wp_try_for_range _ _ (λ i s', tables s' pml pdp pd (mmio_map (k * 4096) i pt) ∧ regs s' = regs s))|];
    [lia| | |].
  - split; [|done]. eapply tables_ext; [exact Ht|done|done|done|]. intros n Hn. unfold mmio_map, within.
    destruct (Z.leb_spec (k * 4096) (n * 4096)), (Z.ltb_spec (n * 4096) (k * 4096 + 0 * 4096)); done || lia.
  - intros i s1 Hi [Ht1 Hr1]. wp_step. wp_step; [apply cadd_some; lia|]. cbv zeta.
    rewrite <-Z.mul_add_distr_r, Z.shiftr_div_pow2 by lia. change (2 ^ 12) with 4096. rewrite Z.div_mul by lia.
    rewrite (proj2 (Z.leb_gt PT_COUNT _)).
    2: { apply Z.div_lt_upper_bound; [done|]. unfold PAGE_TABLE_ENTRY_COUNT, PT_COUNT, MAX_SUPPORTED_MEMORY_GB. lia. }
    wp_step. eapply set_pt_spec; [done|lia|]. intros s2 Ht2 Hr2. apply wp_ret. split; [done|]. split; [|congruence].
    eapply tables_ext; [exact Ht2|done|done|done|]. intros n Hn. unfold mmio_map, within.
    destruct (decide (k + i = n)) as [<-|].
    + rewrite fn_lookup_insert, (proj2 (Z.leb_le _ _)), (proj2 (Z.ltb_lt _ _)) by lia. done.
    + rewrite fn_lookup_insert_ne by done.
      destruct (Z.leb_spec (k * 4096) (n * 4096)), (Z.ltb_spec (n * 4096) (k * 4096 + (i + 1) * 4096)),
        (Z.ltb_spec (n * 4096) (k * 4096 + i * 4096)); done || lia.
  - intros r s1 [-> [Ht1 Hr1]]. wp_step. eapply reload_cr3_spec; [exact Ht1|]. intros s2 Ht2 Hr2 Hstale.
    eapply wp_lift; [apply direct_virt; lia|]. split; [done|]. split; [exact Ht2|]. split; [congruence|done].
Qed.

Lemma map_mmio_translation s phys size : pinv img s → interrupts_off s →
  (4096 | phys) → 0 < phys < 2 ^ 33 → 0 ≤ size → phys + pages_of size 4096 * 4096 ≤ 2 ^ 33 →
  (∀ p, phys ≤ p < phys + pages_of size 4096 * 4096 → pt_linked img s p) →
  wp (map_mmio phys size) (λ r s', r = Ok (phys + KERNEL_VIRTUAL_BASE) ∧ pinv img s' ∧ tlb_stale s' = false ∧
     ∀ p, 0 ≤ p < 2 ^ 39 → resolve s' p =
       if within p phys (phys + pages_of size 4096 * 4096) then Some (mkMapping p true false true) else resolve s p) s.
Proof.
  intros Hi Hoff Hd Hpos Hsz Hend Hlink.
  eapply wp_mono; [eapply map_mmio_tables; [apply tables_self, Hi|done|done|lia|done|done|lia]|].
  intros r s' (-> & Ht & Hr & Hst). injection Hr as Hc _ _. split; [done|].
  assert (Hi' : pinv img s') by (by eapply pinv_update). split; [done|]. split; [done|].
  intros p Hp. unfold within. destruct Hd as [k ->]. set (c := pages_of size 4096) in *.
  pose proof (Z.div_mod p 4096 ltac:(lia)). pose proof (Z.mod_pos_bound p 4096 ltac:(lia)).
  destruct ((k * 4096 <=? p) && (p <? k * 4096 + c * 4096)) eqn:E.
  - apply andb_true_iff in E as [E1%Z.leb_le E2%Z.ltb_lt].
    destruct (index_bounds p ltac:(lia)) as (B1 & B2 & B3). destruct (Hlink p ltac:(lia)) as [L3 L2].
    rewrite (resolve_linked img Himg); [|done|lia| |].
    + rewrite (tb_pt _ _ _ _ _ Ht) by lia. change (2 ^ 12) with 4096 in *. unfold mmio_map, within.
      rewrite (proj2 (Z.leb_le _ _)), (proj2 (Z.ltb_lt _ _)) by lia. cbn [andb].
      rewrite present_set. change (Z.testbit uc_flags 0) with true. cbn [negb]. f_equal.
      etrans; [apply (leaf_set (p / 4096 * 4096) uc_flags 12 p)|done]; [lia|apply Z.divide_factor_r|lia|lia|done].
    + rewrite (tb_pdp _ _ _ _ _ Ht) by lia. exact L3.
    + rewrite (tb_pd _ _ _ _ _ Ht) by lia. exact L2.
  - apply resolve_ext; [done|done|..].
    + rewrite (tb_pdp _ _ _ _ _ Ht); [done|]. split; [apply Z.div_pos|apply Z.div_lt_upper_bound]; lia.
    + intros Hlt. destruct (index_bounds p ltac:(lia)) as (B1 & B2 & B3). by rewrite (tb_pd _ _ _ _ _ Ht).
    + intros Hlt. destruct (index_bounds p ltac:(lia)) as (B1 & B2 & B3). rewrite (tb_pt _ _ _ _ _ Ht) by done.
      change (2 ^ 12) with 4096 in *. unfold mmio_map, within.
      destruct (Z.leb_spec (k * 4096) (p / 4096 * 4096)), (Z.ltb_spec (p / 4096 * 4096) (k * 4096 + c * 4096)); try done.
      destruct (Z.leb_spec (k * 4096) p), (Z.ltb_spec p (k * 4096 + c * 4096)); done || lia.
Qed.

(** ** 2 MiB pages *)
(** The page-directory entry of a 2 MiB page, read back. *)
Lemma resolve_huge_2mb s p phys f : 0 ≤ phys → phys + 2 ^ 21 ≤ 2 ^ 33 → (2 ^ 21 | phys) → phys ≤ p < phys + 2 ^ 21 →
  Z.land f PHYSICAL_ADDRESS_MASK = 0 → Z.testbit f 0 = true → Z.testbit f 7 = true →
  pd_linked img s p → pd_e s (p / 2 ^ 21) = pte_set 0 phys f →
  resolve s p = Some (mkMapping p (Z.testbit f 1) (Z.testbit f 63) (Z.testbit f 4)).
Proof.
  intros H0 Hend Hd Hp Hf F0 F7 L3 L2. unfold resolve, pd_linked in *. cbv zeta. destruct (index_bounds p ltac:(lia)) as (B1 & B2 & B3).
  rewrite L3. destruct (pd_link_bits img Himg (p / 2 ^ 30) B1) as [-> ->]. cbn [negb].
  rewrite L2, present_set, F0, large_set, F7. cbn [negb]. f_equal. by apply leaf_set; [lia|done|lia|lia|].
Qed.

Lemma huge_index phys : 0 ≤ phys → (2 ^ 21 | phys) → phys / 2 ^ 21 * 2 ^ 21 = phys.
Proof. intros H [k ->]. by rewrite Z.div_mul. Qed.

(** The outcome of [map_huge_2mb] when nothing forbids it; at physical address 0
    the mapping is made and an error is answered. *)
Lemma map_huge_2mb_tables s pml pdp pd pt phys f : tables s pml pdp pd pt → interrupts_off s →
  (2 ^ 21 | phys) → 0 ≤ phys < 2 ^ 33 →
  e_present (pd (phys / 2 ^ 21)) = false ∨ e_large (pd (phys / 2 ^ 21)) = true →
  wp (map_huge_2mb phys f) (λ r s', r = (if phys =? 0 then Err InvalidAddress else Ok (phys + KERNEL_VIRTUAL_BASE)) ∧
     tables s' pml pdp (<[phys / 2 ^ 21 := pte_set 0 phys (huge_flags f)]> pd) pt ∧ regs s' = regs s ∧ tlb_stale s' = false) s.
Proof.
  intros Ht Hoff Hd Hr Hfree. destruct (index_bounds phys Hr) as (B1 & B2 & B3). pose proof (tb_shape _ _ _ _ _ Ht) as Hsh.
  unfold map_huge_2mb. wp_step. apply assert_off; [done|]. rewrite (proj2 (is_2mb_aligned_spec phys) Hd). cbn [negb].
  cbv zeta. change HUGE_PAGE_SIZE_2MB with (2 ^ 21). unfold PAGE_TABLE_ENTRY_COUNT.
  rewrite (proj2 (Z.leb_gt MAX_SUPPORTED_MEMORY_GB _)) by (apply Z.div_lt_upper_bound; [done|unfold MAX_SUPPORTED_MEMORY_GB; lia]).
  destruct (tables_ok_lookup 8 (KERNEL_PD_HIGH s) (phys / 2 ^ 21) (ps_pd _ Hsh) ltac:(lia)) as (t & Hlk & He & _).
  wp_step. wp_step. wp_step. eapply wp_lift; [exact Hlk|]. wp_step. eapply wp_lift; [exact He|].
  fold (pd_e s (phys / 2 ^ 21)). rewrite (tb_pd _ _ _ _ _ Ht) by lia. rewrite is_present_bit, is_huge_bit.
  replace (e_present (pd (phys / 2 ^ 21)) && negb (e_large (pd (phys / 2 ^ 21)))) with false.
  2: { destruct Hfree as [-> | ->]; [done|by rewrite andb_false_r]. }
  wp_step. eapply set_pd_spec; [exact Ht|lia|]. intros s1 Ht1 Hr1.
  wp_step. eapply reload_cr3_spec; [exact Ht1|]. intros s2 Ht2 Hr2 Hst.
  destruct (Z.eqb_spec phys 0) as [->|].
  - eapply wp_lift; [done|]. split; [done|]. split; [done|]. split; [congruence|done].
  - eapply wp_lift; [apply direct_virt; lia|]. split; [done|]. split; [done|]. split; [congruence|done].
Qed.

(** Clearing the 4 KiB mappings under a 2 MiB page. *)
Lemma clear_4kb_tables s pml pdp pd pt phys Q : tables s pml pdp pd pt → (2 ^ 21 | phys) → 0 ≤ phys < 2 ^ 33 →
  (∀ s', tables s' pml pdp (<[phys / 2 ^ 21 := 0]> pd) (λ n, if n / 512 =? phys / 2 ^ 21 then 0 else pt n) →
     regs s' = regs s → Q (Ok tt) s') →
  wp (clear_4kb_mappings_for_huge_page phys) Q s.
Proof.
  intros Ht Hd Hr HQ. destruct (index_bounds phys Hr) as (B1 & B2 & B3).
  unfold clear_4kb_mappings_for_huge_page. rewrite (proj2 (is_2mb_aligned_spec phys) Hd). cbn [negb]. cbv zeta.
  change PAGE_TABLE_COVERAGE with (2 ^ 21). change HUGE_PAGE_SIZE_2MB with (2 ^ 21). unfold PAGE_TABLE_ENTRY_COUNT.
  rewrite (proj2 (Z.leb_gt PT_COUNT _)) by (unfold PT_COUNT, MAX_SUPPORTED_MEMORY_GB; lia).
  rewrite (proj2 (Z.leb_gt MAX_SUPPORTED_MEMORY_GB _)) by (apply Z.div_lt_upper_bound; [done|unfold MAX_SUPPORTED_MEMORY_GB; lia]).
  assert (Hassoc : ∀ (k : unit → M pstate (result unit PagingError)) Q', wp ((s ← gets id; ts ← lift (tables_clear (KERNEL_PT_HIGH s) (phys / 2 ^ 21)); set_pts ts) ≫= k) Q' s →
    wp (s ← gets id; ts ← lift (tables_clear (KERNEL_PT_HIGH s) (phys / 2 ^ 21)); set_pts ts ≫= k) Q' s).
  { intros k Q'. unfold wp, mbind, M_bind, gets, lift. by destruct (tables_clear _ _). }
  apply Hassoc. wp_step. eapply clear_pt_spec; [exact Ht|lia|]. intros s1 Ht1 Hr1.
  wp_step. eapply set_pd_spec; [exact Ht1|lia|]. intros s2 Ht2 Hr2. apply wp_ret, HQ; [exact Ht2|congruence].
Qed.

(** ** The frame buffer *)
Definition fb_flags : Z := huge_flags (Z.lor (flag CacheDisable) (flag NoExecute)).
(** Page directories and page tables after [i] 2 MiB pages from number [k]. *)
Definition fb_pd (k i : Z) (pd : Z → Z) (n : Z) : Z :=
  if (k <=? n) && (n <? k + i) then pte_set 0 (n * 2 ^ 21) fb_flags else pd n.
Definition fb_pt (k i : Z) (pt : Z → Z) (n : Z) : Z :=
  if (k <=? n / 512) && (n / 512 <? k + i) then 0 else pt n.

Lemma map_framebuffer_tables s pml pdp pd pt base size : tables s pml pdp pd pt → interrupts_off s →
  (2 ^ 21 | base) → 0 < base < 2 ^ 33 → 0 ≤ size → base + pages_of size (2 ^ 21) * 2 ^ 21 ≤ 2 ^ 33 →
  wp (map_framebuffer_huge base size) (λ r s', r = Ok (base + KERNEL_VIRTUAL_BASE) ∧
     tables s' pml pdp (fb_pd (base / 2 ^ 21) (pages_of size (2 ^ 21)) pd) (fb_pt (base / 2 ^ 21) (pages_of size (2 ^ 21)) pt) ∧
     regs s' = regs s ∧ (0 < size → tlb_stale s' = false)) s.
Proof.
  intros Ht Hoff Hd Hpos Hsz Hend.
  assert (Hpg : 0 ≤ pages_of size (2 ^ 21) ∧ size ≤ pages_of size (2 ^ 21) * 2 ^ 21).
  { unfold pages_of. pose proof (Z.div_mod (size + 2 ^ 21 - 1) (2 ^ 21) ltac:(lia)).
    pose proof (Z.mod_pos_bound (size + 2 ^ 21 - 1) (2 ^ 21) ltac:(lia)). split; [apply Z.div_pos|]; lia. }
  unfold map_framebuffer_huge. wp_step. apply assert_off; [done|]. rewrite (proj2 (is_2mb_aligned_spec base) Hd). cbn [negb].
  change HUGE_PAGE_SIZE_2MB with (2 ^ 21). wp_step. wp_step; [apply cadd_some; lia|]. cbv zeta. fold (pages_of size (2 ^ 21)).
  set (c := pages_of size (2 ^ 21)) in *. destruct Hd as [k ->]. rewrite Z.div_mul by lia.
  apply wp_try_bind. eapply wp_mono; [apply (wp_try_for_range _ _ (λ i s', tables s' pml pdp (fb_pd k i pd) (fb_pt k i pt) ∧
    regs s' = regs s ∧ (0 < i → tlb_stale s' = false)))|]; [lia| | |].
  - split; [|split; [done|lia]]. eapply tables_ext; [exact Ht|done|done|..]; intros n Hn; unfold fb_pd, fb_pt.
    + destruct (Z.leb_spec k n), (Z.ltb_spec n (k + 0)); done || lia.
    + destruct (Z.leb_spec k (n / 512)), (Z.ltb_spec (n / 512) (k + 0)); done || lia.
  - intros i s1 Hi (Ht1 & Hr1 & _). wp_step. wp_step; [apply cadd_some; lia|].
    rewrite <-Z.mul_add_distr_r. assert (Hoff1 : interrupts_off s1) by (unfold interrupts_off; injection Hr1 as _ -> _; done).
    apply wp_try_bind. eapply clear_4kb_tables; [exact Ht1|apply Z.divide_factor_r|lia|].
    rewrite Z.div_mul by lia. intros s2 Ht2 Hr2.
    assert (Hoff2 : interrupts_off s2) by (unfold interrupts_off in *; injection Hr2 as _ -> _; done).
    apply wp_try_bind. eapply wp_mono; [apply (map_huge_2mb_tables s2 _ _ _ _ _ _ Ht2 Hoff2); [apply Z.divide_factor_r|lia|]|].
    + rewrite Z.div_mul by lia. left. by rewrite fn_lookup_insert.
    + rewrite Z.div_mul by lia. intros r s3 (-> & Ht3 & Hr3 & Hst). rewrite (proj2 (Z.eqb_neq _ 0)) by lia.
      apply wp_ret. split; [done|]. split; [|split; [congruence|done]].
      eapply tables_ext; [exact Ht3|done|done|..]; intros n Hn; unfold fb_pd, fb_pt.
      * destruct (decide (k + i = n)) as [<-|].
        -- rewrite fn_lookup_insert, (proj2 (Z.leb_le _ _)), (proj2 (Z.ltb_lt _ _)) by lia. done.
        -- rewrite !fn_lookup_insert_ne by done.
           destruct (Z.leb_spec k n), (Z.ltb_spec n (k + i)), (Z.ltb_spec n (k + (i + 1))); done || lia.
      * destruct (Z.eqb_spec (n / 512) (k + i)), (Z.leb_spec k (n / 512)), (Z.ltb_spec (n / 512) (k + i)), (Z.ltb_spec (n / 512) (k + (i + 1))); done || lia.
  - intros r s1 [-> (Ht1 & Hr1 & Hst)]. eapply wp_lift; [apply direct_virt; lia|]. split; [done|].
    split; [done|]. split; [done|]. intros. apply Hst. lia.
Qed.

Lemma map_framebuffer_translation s base size : pinv img s → interrupts_off s →
  (2 ^ 21 | base) → 0 < base < 2 ^ 33 → 0 ≤ size → base + pages_of size (2 ^ 21) * 2 ^ 21 ≤ 2 ^ 33 →
  (∀ p, base ≤ p < base + pages_of size (2 ^ 21) * 2 ^ 21 → pd_linked img s p) →
  wp (map_framebuffer_huge base size) (λ r s', r = Ok (base + KERNEL_VIRTUAL_BASE) ∧ pinv img s' ∧
     (0 < size → tlb_stale s' = false) ∧
     ∀ p, 0 ≤ p < 2 ^ 39 → resolve s' p =
       if within p base (base + pages_of size (2 ^ 21) * 2 ^ 21) then Some (mkMapping p true true true) else resolve s p) s.
Proof.
  intros Hi Hoff Hd Hpos Hsz Hend Hlink.
  eapply wp_mono; [eapply map_framebuffer_tables; [apply tables_self, Hi|done|done|lia|done|lia]|].
  intros r s' (-> & Ht & Hr & Hst). injection Hr as Hc _ _. split; [done|].
  destruct Hd as [k ->]. rewrite Z.div_mul in Ht by lia. set (c := pages_of size (2 ^ 21)) in *.
  assert (Hi' : pinv img s').
  { eapply pinv_update; [done|exact Ht|done|done|]. intros n Hn. unfold fb_pd.
    destruct ((k <=? n) && (n <? k + c)); [|done]. by rewrite large_set. }
  split; [done|]. split; [done|]. intros p Hp. unfold within.
  pose proof (Z.div_mod p (2 ^ 21) ltac:(lia)). pose proof (Z.mod_pos_bound p (2 ^ 21) ltac:(lia)).
  destruct ((k * 2 ^ 21 <=? p) && (p <? k * 2 ^ 21 + c * 2 ^ 21)) eqn:E.
  - apply andb_true_iff in E as [E1%Z.leb_le E2%Z.ltb_lt].
    destruct (index_bounds p ltac:(lia)) as (B1 & B2 & B3).
    etrans; [apply (resolve_huge_2mb s' p (p / 2 ^ 21 * 2 ^ 21) fb_flags)|done]; try done; try lia; [apply Z.divide_factor_r| |].
    + unfold pd_linked. rewrite (tb_pdp _ _ _ _ _ Ht) by lia. apply Hlink. lia.
    + rewrite (tb_pd _ _ _ _ _ Ht) by lia. unfold fb_pd. by rewrite (proj2 (Z.leb_le _ _)), (proj2 (Z.ltb_lt _ _)) by lia.
  - apply resolve_ext; [done|done|..].
    + rewrite (tb_pdp _ _ _ _ _ Ht); [done|]. split; [apply Z.div_pos|apply Z.div_lt_upper_bound]; lia.
    + intros Hlt. destruct (index_bounds p ltac:(lia)) as (B1 & B2 & B3). rewrite (tb_pd _ _ _ _ _ Ht) by done. unfold fb_pd.
      destruct (Z.leb_spec k (p / 2 ^ 21)), (Z.ltb_spec (p / 2 ^ 21) (k + c)); try done.
      destruct (Z.leb_spec (k * 2 ^ 21) p), (Z.ltb_spec p (k * 2 ^ 21 + c * 2 ^ 21)); done || lia.
    + intros Hlt. destruct (index_bounds p ltac:(lia)) as (B1 & B2 & B3). rewrite (tb_pt _ _ _ _ _ Ht) by done. unfold fb_pt.
      rewrite Z.div_div by lia. change (2 ^ 12 * 512) with (2 ^ 21).
      destruct (Z.leb_spec k (p / 2 ^ 21)), (Z.ltb_spec (p / 2 ^ 21) (k + c)); try done.
      destruct (Z.leb_spec (k * 2 ^ 21) p), (Z.ltb_spec p (k * 2 ^ 21 + c * 2 ^ 21)); done || lia.
Qed.
End map.

(** ** Kernel page tables: the branches of the 2 MiB and 1 GiB operations. *)
Section huge.
Context (img : kernel_image) (Himg : image_ok img).
Implicit Types (s : pstate).

(** ** 2 MiB: what the caller gets and what the address space becomes *)
Lemma map_huge_2mb_translation s phys f : pinv img s → interrupts_off s →
  (2 ^ 21 | phys) → 0 ≤ phys < 2 ^ 33 → Z.land f PHYSICAL_ADDRESS_MASK = 0 →
  pd_linked img s phys →
  e_present (pd_e s (phys / 2 ^ 21)) = false ∨ e_large (pd_e s (phys / 2 ^ 21)) = true →
  wp (map_huge_2mb phys f) (λ r s', r = (if phys =? 0 then Err InvalidAddress else Ok (phys + KERNEL_VIRTUAL_BASE)) ∧
     pinv img s' ∧ tlb_stale s' = false ∧
     ∀ p, 0 ≤ p < 2 ^ 39 → resolve s' p =
       if within p phys (phys + 2 ^ 21)
       then Some (mkMapping p true (Z.testbit f 63) (Z.testbit f 4)) else resolve s p) s.
Proof.
  intros Hi Hoff Hd Hr Hf Hlink Hfree.
  eapply wp_mono; [eapply map_huge_2mb_tables; [apply tables_self, Hi|done|done|done|done]|].
  intros r s' (-> & Ht & Hreg & Hst). injection Hreg as Hc _ _. split; [done|].
  set (n := phys / 2 ^ 21) in *. assert (Hn : n * 2 ^ 21 = phys) by (apply huge_index; [lia|done]).
  assert (Hhf : Z.land (huge_flags f) PHYSICAL_ADDRESS_MASK = 0).
  { unfold huge_flags. rewrite Z.land_lor_distr_l, Hf. done. }
  assert (Hbit : ∀ i, 0 ≤ i → Z.testbit (huge_flags f) i = Z.testbit 131 i || Z.testbit f i) by (intros; apply Z.lor_spec).
  assert (Hi' : pinv img s').
  { eapply pinv_update; [done|exact Ht|done|done|]. intros m Hm. destruct (decide (n = m)) as [<-|].
    - rewrite fn_lookup_insert, large_set, Hbit by lia. done.
    - by rewrite fn_lookup_insert_ne. }
  split; [done|]. split; [done|]. intros p Hp. unfold within.
  pose proof (Z.div_mod p (2 ^ 21) ltac:(lia)). pose proof (Z.mod_pos_bound p (2 ^ 21) ltac:(lia)).
  assert (phys + 2 ^ 21 ≤ 2 ^ 33) by lia.
  destruct ((phys <=? p) && (p <? phys + 2 ^ 21)) eqn:E.
  - apply andb_true_iff in E as [E1%Z.leb_le E2%Z.ltb_lt]. assert (Hpn : p / 2 ^ 21 = n) by lia.
    destruct (index_bounds p ltac:(lia)) as (B1 & B2 & B3).
    rewrite (resolve_huge_2mb img Himg s' p phys (huge_flags f)); [|lia|lia|done|lia|done|by rewrite Hbit|by rewrite Hbit| |].
    + rewrite !Hbit by lia. done.
    + unfold pd_linked in *. rewrite (tb_pdp _ _ _ _ _ Ht) by lia.
      replace (p / 2 ^ 30) with (phys / 2 ^ 30); [done|].
      change (2 ^ 30) with (2 ^ 21 * 512). rewrite <-!Z.div_div by lia. fold n. by rewrite Hpn.
    + rewrite (tb_pd _ _ _ _ _ Ht) by lia. by rewrite Hpn, fn_lookup_insert.
  - apply resolve_ext with img; [done|done|..].
    + rewrite (tb_pdp _ _ _ _ _ Ht); [done|]. split; [apply Z.div_pos|apply Z.div_lt_upper_bound]; lia.
    + intros Hlt. destruct (index_bounds p ltac:(lia)) as (B1 & B2 & B3). rewrite (tb_pd _ _ _ _ _ Ht) by done.
      rewrite fn_lookup_insert_ne; [done|]. intros Heq.
      destruct (Z.leb_spec phys p), (Z.ltb_spec p (phys + 2 ^ 21)); done || lia.
    + intros Hlt. destruct (index_bounds p ltac:(lia)) as (B1 & B2 & B3). by rewrite (tb_pt _ _ _ _ _ Ht).
Qed.

(** The refusals, none of which changes anything. *)
Lemma map_huge_2mb_refuses s phys f : pshape s → 0 ≤ phys →
  (¬ interrupts_off s → map_huge_2mb phys f s = None) ∧
  (interrupts_off s → ¬ (2 ^ 21 | phys) → map_huge_2mb phys f s = Some (Err InvalidAddress, s)) ∧
  (interrupts_off s → (2 ^ 21 | phys) → 2 ^ 33 ≤ phys → map_huge_2mb phys f s = Some (Err AddressOutOfRange, s)) ∧
  (interrupts_off s → (2 ^ 21 | phys) → phys < 2 ^ 33 →
     e_present (pd_e s (phys / 2 ^ 21)) = true → e_large (pd_e s (phys / 2 ^ 21)) = false →
     map_huge_2mb phys f s = Some (Err ExistingMappingConflict, s)).
Proof.
  intros Hsh H0. unfold interrupts_off, map_huge_2mb, assert_interrupts_disabled, assert_, mbind, M_bind, gets.
  split; [|split; [|split]].
  - intros Hn. by rewrite (proj2 (Z.eqb_neq _ _)).
  - intros -> Hd. cbn [Z.eqb]. destruct (is_2mb_aligned phys) eqn:E; [|done].
    apply is_2mb_aligned_spec in E. done.
  - intros -> Hd Hr. cbn [Z.eqb]. rewrite (proj2 (is_2mb_aligned_spec phys) Hd). cbn [negb]. cbv zeta.
    change HUGE_PAGE_SIZE_2MB with (2 ^ 21). unfold PAGE_TABLE_ENTRY_COUNT.
    rewrite Z.div_div by lia. change (2 ^ 21 * 512) with (2 ^ 30).
    rewrite (proj2 (Z.leb_le MAX_SUPPORTED_MEMORY_GB _)); [done|].
    unfold MAX_SUPPORTED_MEMORY_GB. apply Z.div_le_lower_bound; lia.
  - intros -> Hd Hr Hp Hl. cbn [Z.eqb]. rewrite (proj2 (is_2mb_aligned_spec phys) Hd). cbn [negb]. cbv zeta.
    change HUGE_PAGE_SIZE_2MB with (2 ^ 21). unfold PAGE_TABLE_ENTRY_COUNT.
    destruct (index_bounds phys ltac:(lia)) as (B1 & B2 & B3).
    rewrite (proj2 (Z.leb_gt MAX_SUPPORTED_MEMORY_GB _)) by (apply Z.div_lt_upper_bound; [done|unfold MAX_SUPPORTED_MEMORY_GB; lia]).
    destruct (tables_ok_lookup 8 (KERNEL_PD_HIGH s) (phys / 2 ^ 21) (ps_pd _ Hsh) ltac:(lia)) as (t & Hlk & He & _).
    unfold id, lift, entry. rewrite Hlk, He. fold (pd_e s (phys / 2 ^ 21)).
    by rewrite is_present_bit, is_huge_bit, Hp, Hl.
Qed.

(** ** 1 GiB *)
Definition pdp_free s (phys : Z) : Prop :=
  e_present (pdp_e s (phys / 2 ^ 30)) = false ∨ e_large (pdp_e s (phys / 2 ^ 30)) = true.

(** The CPUID answer, asked once. *)
Definition supported (cpuid : Z → Z * Z) s : bool :=
  if SUPPORTS_1GB_PAGES_CACHE s =? 0 then false else
  if SUPPORTS_1GB_PAGES_CACHE s =? 1 then true else check_1gb_pages_support_cpuid cpuid.

Lemma supports_1gb_spec cpuid s pml pdp pd pt Q : tables s pml pdp pd pt →
  (∀ s', tables s' pml pdp pd pt → cr3 s' = cr3 s → rflags s' = rflags s → tlb_stale s' = tlb_stale s →
     supported cpuid s' = supported cpuid s → (SUPPORTS_1GB_PAGES_CACHE s' = if supported cpuid s then 1 else 0) →
     Q (supported cpuid s) s') →
  wp (supports_1gb_pages cpuid) Q s.
Proof.
  intros Ht HQ. unfold supports_1gb_pages, supported in *. wp_step. wp_step.
  destruct (Z.eqb_spec (SUPPORTS_1GB_PAGES_CACHE s) 0) as [E0|].
  { wp_step. apply HQ; [done|done|done|done|by rewrite E0|done]. }
  destruct (Z.eqb_spec (SUPPORTS_1GB_PAGES_CACHE s) 1) as [E1|].
  { wp_step. apply HQ; [done|done|done|done|by rewrite E1|done]. }
  cbv zeta. wp_step. wp_step. wp_step. destruct Ht as [[] ? ? ? ?].
  apply HQ; [split; [split; done|done..]|done|done|done| |done]. simpl. by destruct (check_1gb_pages_support_cpuid cpuid).
Qed.

Lemma map_huge_1gb_tables cpuid s pml pdp pd pt phys f : tables s pml pdp pd pt → interrupts_off s →
  (2 ^ 30 | phys) → 0 < phys < 2 ^ 33 → supported cpuid s = true →
  e_present (pdp (phys / 2 ^ 30)) = false ∨ e_large (pdp (phys / 2 ^ 30)) = true →
  wp (map_huge_1gb cpuid phys f) (λ r s', r = Ok (phys + KERNEL_VIRTUAL_BASE) ∧
     tables s' pml (<[phys / 2 ^ 30 := pte_set 0 phys (huge_flags f)]> pdp) pd pt ∧
     cr3 s' = cr3 s ∧ rflags s' = rflags s ∧ tlb_stale s' = false) s.
Proof.
  intros Ht Hoff Hd Hr Hsup Hfree. destruct (index_bounds phys ltac:(lia)) as (B1 & B2 & B3).
  unfold map_huge_1gb. wp_step. apply assert_off; [done|]. rewrite (proj2 (is_1gb_aligned_spec phys) Hd). cbn [negb].
  wp_step. eapply supports_1gb_spec; [exact Ht|]. intros s1 Ht1 Hc1 Hf1 _ _ _. rewrite Hsup. cbn [negb]. cbv zeta.
  change HUGE_PAGE_SIZE_1GB with (2 ^ 30). rewrite (proj2 (Z.leb_gt MAX_SUPPORTED_MEMORY_GB _)) by (unfold MAX_SUPPORTED_MEMORY_GB; lia).
  wp_step. wp_step. wp_step. eapply wp_lift with (a := pdp (phys / 2 ^ 30)).
  { unfold entry, id. rewrite <-(tb_pdp _ _ _ _ _ Ht1) by lia. unfold pdp_e.
    destruct (KERNEL_PDP_HIGH s1 !! Z.to_nat (phys / 2 ^ 30)) eqn:E; [done|].
    apply lookup_ge_None in E. rewrite (ps_pdp _ (tb_shape _ _ _ _ _ Ht1)) in E. lia. }
  rewrite is_present_bit, is_huge_bit.
  replace (e_present (pdp (phys / 2 ^ 30)) && negb (e_large (pdp (phys / 2 ^ 30)))) with false.
  2: { destruct Hfree as [-> | ->]; [done|by rewrite andb_false_r]. }
  wp_step. eapply set_pdp_spec; [exact Ht1|lia|]. intros s2 Ht2 Hr2.
  wp_step. eapply reload_cr3_spec; [exact Ht2|]. intros s3 Ht3 Hr3 Hst.
  eapply wp_lift; [apply direct_virt; lia|]. injection Hr2 as H1 H2 _. injection Hr3 as H3 H4 _.
  split; [done|]. split; [exact Ht3|]. repeat split; congruence.
Qed.

Lemma unmap_huge_1gb_tables s pml pdp pd pt phys : tables s pml pdp pd pt → interrupts_off s →
  (2 ^ 30 | phys) → 0 ≤ phys < 2 ^ 33 →
  wp (unmap_huge_1gb phys) (λ r s', r = Ok tt ∧ tables s' pml (<[phys / 2 ^ 30 := 0]> pdp) pd pt ∧
     cr3 s' = cr3 s ∧ rflags s' = rflags s ∧ tlb_stale s' = false) s.
Proof.
  intros Ht Hoff Hd Hr. destruct (index_bounds phys ltac:(lia)) as (B1 & B2 & B3).
  unfold unmap_huge_1gb. wp_step. apply assert_off; [done|]. rewrite (proj2 (is_1gb_aligned_spec phys) Hd). cbn [negb]. cbv zeta.
  change HUGE_PAGE_SIZE_1GB with (2 ^ 30). rewrite (proj2 (Z.leb_gt MAX_SUPPORTED_MEMORY_GB _)) by (unfold MAX_SUPPORTED_MEMORY_GB; lia).
  wp_step. eapply set_pdp_spec; [exact Ht|lia|]. intros s2 Ht2 Hr2.
  wp_step. eapply reload_cr3_spec; [exact Ht2|]. intros s3 Ht3 Hr3 Hst. apply wp_ret.
  injection Hr2 as H1 H2 _. injection Hr3 as H3 H4 _. split; [done|]. split; [exact Ht3|]. repeat split; congruence.
Qed.

(** Writing one page-directory-pointer entry changes one GiB of the address space. *)
Lemma pdp_update s s' e phys : pinv img s →
  tables s' (pml_of s) (<[phys / 2 ^ 30 := e]> (pdp_e s)) (pd_e s) (pt_e s) → cr3 s' = cr3 s →
  (2 ^ 30 | phys) → 0 ≤ phys < 2 ^ 33 → (e_present e = true → e_large e = true) →
  pinv img s' ∧ ∀ p, 0 ≤ p < 2 ^ 39 → resolve s' p =
    if within p phys (phys + 2 ^ 30)
    then (if negb (e_present e) then None else Some (leaf e (2 ^ 30) p true false)) else resolve s p.
Proof.
  intros Hi Ht Hc Hd Hr He. set (n := phys / 2 ^ 30) in *.
  assert (Hn : n * 2 ^ 30 = phys) by (destruct Hd as [k Hk]; unfold n; rewrite Hk, Z.div_mul; lia).
  split.
  { eapply pinv_update; [done|exact Ht|done| |done]. intros i Hi0. destruct (decide (n = i)) as [<-|].
    - rewrite fn_lookup_insert. intros Hp Hl. rewrite He in Hl; done.
    - by rewrite fn_lookup_insert_ne. }
  intros p Hp. unfold within.
  pose proof (Z.div_mod p (2 ^ 30) ltac:(lia)). pose proof (Z.mod_pos_bound p (2 ^ 30) ltac:(lia)).
  assert (Hidx : 0 ≤ p / 2 ^ 30 < 512) by (split; [apply Z.div_pos|apply Z.div_lt_upper_bound]; lia).
  destruct ((phys <=? p) && (p <? phys + 2 ^ 30)) eqn:E.
  - apply andb_true_iff in E as [E1%Z.leb_le E2%Z.ltb_lt]. assert (Hpn : p / 2 ^ 30 = n) by lia.
    unfold resolve. rewrite (tb_pdp _ _ _ _ _ Ht), Hpn, fn_lookup_insert by lia. cbv zeta.
    destruct (e_present e); [|done]. by rewrite He.
  - apply resolve_ext with img; [done|done|..].
    + rewrite (tb_pdp _ _ _ _ _ Ht) by done. rewrite fn_lookup_insert_ne; [done|]. intros Heq.
      destruct (Z.leb_spec phys p), (Z.ltb_spec p (phys + 2 ^ 30)); done || lia.
    + intros Hlt. destruct (index_bounds p ltac:(lia)) as (B1 & B2 & B3). by rewrite (tb_pd _ _ _ _ _ Ht).
    + intros Hlt. destruct (index_bounds p ltac:(lia)) as (B1 & B2 & B3). by rewrite (tb_pt _ _ _ _ _ Ht).
Qed.

Lemma map_huge_1gb_translation cpuid s phys f : pinv img s → interrupts_off s →
  (2 ^ 30 | phys) → 0 < phys < 2 ^ 33 → supported cpuid s = true → Z.land f PHYSICAL_ADDRESS_MASK = 0 → pdp_free s phys →
  wp (map_huge_1gb cpuid phys f) (λ r s', r = Ok (phys + KERNEL_VIRTUAL_BASE) ∧ pinv img s' ∧ interrupts_off s' ∧ tlb_stale s' = false ∧
     ∀ p, 0 ≤ p < 2 ^ 39 → resolve s' p =
       if within p phys (phys + 2 ^ 30)
       then Some (mkMapping p true (Z.testbit f 63) (Z.testbit f 4)) else resolve s p) s.
Proof.
  intros Hi Hoff Hd Hr Hsup Hf Hfree.
  eapply wp_mono; [eapply map_huge_1gb_tables; [apply tables_self, Hi|done|done|done|done|done]|].
  intros r s' (-> & Ht & Hc & Hrf & Hst). split; [done|].
  assert (Hbit : ∀ i, 0 ≤ i → Z.testbit (huge_flags f) i = Z.testbit 131 i || Z.testbit f i) by (intros; apply Z.lor_spec).
  assert (Hhf : Z.land (huge_flags f) PHYSICAL_ADDRESS_MASK = 0).
  { unfold huge_flags. rewrite Z.land_lor_distr_l, Hf. done. }
  destruct (pdp_update s s' _ phys Hi Ht Hc Hd ltac:(lia)) as [Hi' Hres]; [by rewrite large_set, Hbit by lia|].
  split; [done|]. split; [unfold interrupts_off in *; by rewrite Hrf|]. split; [done|].
  intros p Hp. rewrite Hres by done. unfold within. destruct ((phys <=? p) && (p <? phys + 2 ^ 30)) eqn:E; [|done].
  apply andb_true_iff in E as [E1%Z.leb_le E2%Z.ltb_lt].
  rewrite present_set, Hbit by lia. cbn [negb orb]. change (Z.testbit 131 0) with true. cbn [negb orb]. f_equal.
  rewrite leaf_set by (done || lia). by rewrite !Hbit by lia.
Qed.

Lemma unmap_huge_1gb_translation s phys : pinv img s → interrupts_off s → (2 ^ 30 | phys) → 0 ≤ phys < 2 ^ 33 →
  wp (unmap_huge_1gb phys) (λ r s', r = Ok tt ∧ pinv img s' ∧ tlb_stale s' = false ∧
     ∀ p, 0 ≤ p < 2 ^ 39 → resolve s' p = if within p phys (phys + 2 ^ 30) then None else resolve s p) s.
Proof.
  intros Hi Hoff Hd Hr.
  eapply wp_mono; [eapply unmap_huge_1gb_tables; [apply tables_self, Hi|done|done|done]|].
  intros r s' (-> & Ht & Hc & Hrf & Hst). split; [done|].
  destruct (pdp_update s s' 0 phys Hi Ht Hc Hd Hr) as [Hi' Hres]; [done|]. split; [done|]. split; [done|]. exact Hres.
Qed.
End huge.
