(* ===== verification/PagingProps.v ===== *)
(** * Kernel page tables: the theorems.

    Each is stated about [translate], the processor's four-level walk over the
    tables the code built.  The witnesses use an image and a memory map of a
    512 MiB machine. *)
From S2P Require Import Prelude Addr BootInfo X86 Paging PagingSpec PagingWalk PagingMmio PagingOps PagingInit PagingMap.
Set Default Goal Selector "!".

(** ** A concrete image and memory map *)
Definition demo_img : kernel_image :=
  let v x := KERNEL_VIRTUAL_BASE + x in
  mkImage (v 0x100000) (v 0x180123) (v 0x181000) (v 0x190001) (v 0x191000) (v 0x1500000) (v 0x1500000)
    (v 0x210000) (v 0x211000) (v 0x200000) (v 0x400000).
Definition demo_bi : BootInfo :=
  mkBootInfo (mkFb 0x80000000 0x300000 1024 768 1024)
    [mkRegion 0 0x1E000000 EFI_CONVENTIONAL_MEMORY; mkRegion 0x1F000000 0x1000 EFI_MEMORY_MAPPED_IO_PORT_SPACE;
     mkRegion 0x1E000000 0x100000 EFI_MEMORY_MAPPED_IO] 3 0 0x20000000.
Definition demo_pages : pstate := paging_boot 0x9000 2.

Lemma demo_img_ok : image_ok demo_img.
Proof.
  assert (Hdiv : ∀ x, x mod 4096 = 0 → (4096 | x)) by (intros; apply Z.mod_divide; lia).
  split; cbn [demo_img text_start_ text_end_ rodata_start_ rodata_end_ data_start_ bss_end_ stack_guard_
    pml4_at pdp_high_at pd_high_at pt_high_at]; unfold KERNEL_VIRTUAL_BASE;
    repeat split; try (by apply Hdiv); try reflexivity; try lia.
Defined.

Lemma demo_pages_shape : pshape demo_pages.
Proof.
  split; cbn [demo_pages paging_boot KERNEL_PML4 KERNEL_PDP_HIGH KERNEL_PD_HIGH KERNEL_PT_HIGH].
  1,2: apply length_replicate.
  all: split; [apply length_replicate|]; intros t [-> _]%elem_of_replicate; apply length_replicate.
Defined.

Lemma demo_mmio_ok : mmio_map_ok (regions_of demo_bi).
Proof.
  assert (Hm : mmio_of (regions_of demo_bi) = [mkMmio 0x1F000000 0x1F001000; mkMmio 0x1E000000 0x1E100000]) by reflexivity.
  split; rewrite Hm.
  - simpl. lia.
  - intros m. rewrite !elem_of_cons, elem_of_nil. intros [->|[->|[]]]; simpl; lia.
  - intros m m'. rewrite !elem_of_cons, !elem_of_nil. intros [->|[->|[]]] [->|[->|[]]]; simpl; lia || by left.
Defined.

Lemma demo_max : 0 ≤ max_physical_address demo_bi.
Proof. simpl. lia. Defined.
Lemma demo_fits : stack_guard_ demo_img + 4096 ≤ KERNEL_VIRTUAL_BASE + actual_max demo_bi.
Proof. vm_compute. discriminate. Defined.

(** After [init] the lower levels are linked up to the end of memory. *)
Lemma init_links img bi s : image_ok img → 0 ≤ max_physical_address bi → mmio_map_ok (regions_of bi) → pshape s →
  stack_guard_ img + 4096 ≤ KERNEL_VIRTUAL_BASE + actual_max bi →
  ∃ s', init img bi s = Some (Ok tt, s') ∧ pinv img s' ∧ tlb_stale s' = false ∧ rflags s' = rflags s ∧
    SUPPORTS_1GB_PAGES_CACHE s' = SUPPORTS_1GB_PAGES_CACHE s ∧
    (∀ p, 0 ≤ p < 2 ^ 39 → resolve s' p = expected img bi p) ∧
    (∀ p, 0 ≤ p < actual_max bi → pt_linked img s' p) ∧
    (∀ p, 0 ≤ p < 2 ^ 33 → pd_needed bi ≤ p / 2 ^ 30 → pdp_e s' (p / 2 ^ 30) = 0) ∧
    (∀ p, 0 ≤ p < 2 ^ 33 → pt_needed bi ≤ p / 2 ^ 21 → pd_e s' (p / 2 ^ 21) = 0).
Proof.
  intros Himg Hmax Hmmio Hs Hfits.
  destruct (proj1 (wp_run _ _ _) (init_spec img Himg bi Hmax Hmmio s Hs)) as (r & s' & Hrun & -> & Ht & Hc & Hf & Hcache & Hst).
  destruct (needed_bounds bi Hmax) as [Hpt Hpd]. pose proof (actual_max_bounds bi Hmax).
  exists s'. split; [exact Hrun|]. split; [eapply tables_pinv; [exact Ht|lia|done]|]. split; [exact Hst|]. split; [exact Hf|]. split; [exact Hcache|].
  split; [intros p Hp; by apply resolve_final|]. split; [|split].
  - intros p Hp. destruct (index_bounds p ltac:(lia)) as (B1 & B2 & B3).
    assert (Hn : p / 2 ^ 21 < pt_needed bi).
    { unfold pt_needed, PAGE_TABLE_COVERAGE, PAGE_TABLE_ENTRY_COUNT, PAGE_SIZE. change (512 * 4096) with (2 ^ 21).
      apply Z.div_lt_upper_bound; [lia|]. pose proof (Z.div_mod (actual_max bi + 2 ^ 21 - 1) (2 ^ 21) ltac:(lia)).
      pose proof (Z.mod_pos_bound (actual_max bi + 2 ^ 21 - 1) (2 ^ 21) ltac:(lia)). lia. }
    unfold pt_linked, pd_linked. rewrite (tb_pdp _ _ _ _ _ Ht), (tb_pd _ _ _ _ _ Ht) by lia. unfold pdp_upto, pd_upto.
    rewrite !(proj2 (Z.ltb_lt _ _)); [done|done|]. unfold pd_needed.
    change (2 ^ 30) with (2 ^ 21 * 512). rewrite <-Z.div_div by lia. apply Z.div_lt_upper_bound; [lia|].
    pose proof (Z.div_mod (pt_needed bi + 511) 512 ltac:(lia)). pose proof (Z.mod_pos_bound (pt_needed bi + 511) 512 ltac:(lia)). lia.
  - intros p Hp Hn. destruct (index_bounds p ltac:(lia)) as (B1 & B2 & B3).
    rewrite (tb_pdp _ _ _ _ _ Ht) by lia. unfold pdp_upto. by rewrite (proj2 (Z.ltb_ge _ _)).
  - intros p Hp Hn. destruct (index_bounds p ltac:(lia)) as (B1 & B2 & B3).
    rewrite (tb_pd _ _ _ _ _ Ht) by lia. unfold pd_upto. by rewrite (proj2 (Z.ltb_ge _ _)).
Qed.

Lemma demo_links : ∃ s', init demo_img demo_bi demo_pages = Some (Ok tt, s') ∧ pinv demo_img s' ∧ interrupts_off s' ∧
  SUPPORTS_1GB_PAGES_CACHE s' = 0xFF ∧
  (∀ p, 0 ≤ p < actual_max demo_bi → pt_linked demo_img s' p) ∧
  (∀ p, 0 ≤ p < 2 ^ 33 → 1 ≤ p / 2 ^ 30 → pdp_e s' (p / 2 ^ 30) = 0) ∧
  (∀ p, 0 ≤ p < 2 ^ 33 → 256 ≤ p / 2 ^ 21 → pd_e s' (p / 2 ^ 21) = 0).
Proof.
  destruct (init_links demo_img demo_bi demo_pages demo_img_ok demo_max demo_mmio_ok demo_pages_shape demo_fits)
    as (s' & H1 & H2 & _ & H3 & H4 & _ & H5 & H6 & H7).
  exists s'. split; [exact H1|]. split; [exact H2|]. split; [unfold interrupts_off; by rewrite H3|].
  split; [exact H4|]. split; [exact H5|]. split; [exact H6|exact H7].
Qed.

(** C6: Initialisation, for every image the linker script lays out, every memory map
    and whatever the static tables held: [init] succeeds, and the processor then
    sees exactly this address space: the kernel's text read-only and executable,
    its read-only data read-only and not executable, its data writable and not
    executable, the stack's guard page absent, every other page below the end
    of memory (at most 8 GiB) that is in no MMIO region mapped read-write at
    its direct-map address, and no other virtual address mapped, the whole
    lower half included. *)
Theorem paging_init_correct (img : kernel_image) (bi : BootInfo) (s : pstate)
    (Himg : image_ok img) (Hshape : pshape s) (Hmax : 0 ≤ max_physical_address bi)
    (Hmmio : mmio_map_ok (regions_of bi))
    (Hfits : stack_guard_ img + 4096 ≤ KERNEL_VIRTUAL_BASE + actual_max bi) :
  ∃ s', init img bi s = Some (Ok tt, s') ∧ pinv img s' ∧ tlb_stale s' = false ∧
    (∀ p, 0 ≤ p < 2 ^ 39 → translate img s' (KERNEL_VIRTUAL_BASE + p) = expected img bi p) ∧
    (∀ v, 0 ≤ v < 2 ^ 64 → ¬ KERNEL_VIRTUAL_BASE ≤ v < KERNEL_VIRTUAL_BASE + 2 ^ 39 → translate img s' v = None).
Proof.
  destruct (init_links img bi s Himg Hmax Hmmio Hshape Hfits) as (s' & Hrun & Hi & Hst & _ & _ & Hres & _).
  exists s'. split; [exact Hrun|]. split; [exact Hi|]. split; [exact Hst|]. split.
  - intros p Hp. rewrite walk_resolve by done. by apply Hres.
  - intros v Hv Ho. by apply walk_outside.
Qed.

(** Witness: a text page, the guard page and an MMIO page of the 512 MiB machine. *)
Lemma paging_init_correct_witness :
  ∃ s', init demo_img demo_bi demo_pages = Some (Ok tt, s') ∧
    translate demo_img s' (KERNEL_VIRTUAL_BASE + 0x180123) = Some (mkMapping 0x180123 false false false) ∧
    translate demo_img s' (KERNEL_VIRTUAL_BASE + 0x1500FFF) = None ∧
    translate demo_img s' (KERNEL_VIRTUAL_BASE + 0x1E000010) = None.
Proof.
  destruct (paging_init_correct demo_img demo_bi demo_pages demo_img_ok demo_pages_shape demo_max demo_mmio_ok demo_fits)
    as (s' & Hrun & _ & _ & Htr & _).
  exists s'. split; [exact Hrun|]. rewrite !Htr by lia. vm_compute. repeat split.
Defined.



(** The MMIO regions of any valid memory map, unsorted and mixed with others,
    are collected and sorted so that the binary search answers, for every
    physical address, exactly whether it lies in one of them. *)
Theorem mmio_search_correct (regions : list MemoryRegion) (Hok : mmio_map_ok regions) :
  ∃ ranges count, extract_mmio_regions regions = Some (ranges, count) ∧
    ∀ p, is_mmio_region_binary p ranges count =
      Some (existsb (λ r, is_mmio_type (r_type r) && in_range p (range_of r)) regions).
Proof. by apply mmio_lookup. Qed.

(** Witness: two regions out of order. *)
Lemma mmio_search_correct_witness :
  ∃ ranges count, extract_mmio_regions (regions_of demo_bi) = Some (ranges, count) ∧
    is_mmio_region_binary 0x1E0FFFFF ranges count = Some true ∧ is_mmio_region_binary 0x1E100000 ranges count = Some false.
Proof.
  destruct (mmio_search_correct (regions_of demo_bi) demo_mmio_ok) as (ranges & count & Hext & Hs).
  exists ranges, count. split; [exact Hext|]. rewrite !Hs. vm_compute. split; reflexivity.
Defined.

(** Mapping a device: for an aligned range whose page tables are linked,
    [map_mmio] answers the direct-map address, and afterwards every byte of the
    range's pages is mapped there read-write and uncacheable, every other
    virtual address translates as before, and the TLB has been flushed. *)
Theorem map_mmio_correct (img : kernel_image) (s : pstate) (phys size : Z)
    (Himg : image_ok img) (Hinv : pinv img s) (Hoff : interrupts_off s)
    (Halign : (4096 | phys)) (Hphys : 0 < phys < 2 ^ 33) (Hsize : 0 ≤ size)
    (Hend : phys + pages_of size 4096 * 4096 ≤ 2 ^ 33)
    (Hlinked : ∀ p, phys ≤ p < phys + pages_of size 4096 * 4096 → pt_linked img s p) :
  ∃ s', map_mmio phys size s = Some (Ok (phys + KERNEL_VIRTUAL_BASE), s') ∧ pinv img s' ∧ tlb_stale s' = false ∧
    (∀ p, 0 ≤ p < 2 ^ 39 → translate img s' (KERNEL_VIRTUAL_BASE + p) =
       if within p phys (phys + pages_of size 4096 * 4096) then Some (mkMapping p true false true)
       else translate img s (KERNEL_VIRTUAL_BASE + p)).
Proof.
  destruct (proj1 (wp_run _ _ _) (map_mmio_translation img Himg s phys size Hinv Hoff Halign Hphys Hsize Hend Hlinked))
    as (r & s' & Hrun & -> & Hi & Hst & Hres).
  exists s'. split; [exact Hrun|]. split; [exact Hi|]. split; [exact Hst|].
  intros p Hp. rewrite !walk_resolve by done. by apply Hres.
Qed.

(** Witness: one page and a bit of the 1 MiB MMIO region. *)
Lemma map_mmio_correct_witness :
  ∃ s s', init demo_img demo_bi demo_pages = Some (Ok tt, s) ∧
    map_mmio 0x1E000000 0x1010 s = Some (Ok (0x1E000000 + KERNEL_VIRTUAL_BASE), s') ∧
    translate demo_img s' (KERNEL_VIRTUAL_BASE + 0x1E001234) = Some (mkMapping 0x1E001234 true false true).
Proof.
  destruct demo_links as (s & Hrun & Hi & Hoff & _ & Hlink & _).
  destruct (map_mmio_correct demo_img s 0x1E000000 0x1010 demo_img_ok Hi Hoff ltac:(by exists 0x1E000)
    ltac:(lia) ltac:(lia) ltac:(vm_compute; discriminate)) as (s' & Hmap & _ & _ & Htr).
  { intros p Hp. apply Hlink. change (pages_of 0x1010 4096) with 2 in Hp. change (actual_max demo_bi) with 0x20000000. lia. }
  exists s, s'. split; [exact Hrun|]. split; [exact Hmap|].
  rewrite (Htr 0x1E001234 ltac:(lia)). vm_compute. reflexivity.
Defined.

(** Where [init] linked no page table (at or above the end of memory, even
    below the 8 GiB limit [map_mmio] checks), [map_mmio] answers success with
    the direct-map address, but that address is not mapped. *)
Theorem map_mmio_unlinked (img : kernel_image) (s : pstate) (phys size : Z)
    (Himg : image_ok img) (Hinv : pinv img s) (Hoff : interrupts_off s)
    (Halign : (4096 | phys)) (Hphys : 0 < phys < 2 ^ 33) (Hsize : 0 ≤ size)
    (Hend : phys + pages_of size 4096 * 4096 ≤ 2 ^ 33)
    (Hunlinked : pd_e s (phys / 2 ^ 21) = 0) :
  ∃ s', map_mmio phys size s = Some (Ok (KERNEL_VIRTUAL_BASE + phys), s') ∧
    (e_large (pdp_e s (phys / 2 ^ 30)) = false → translate img s' (KERNEL_VIRTUAL_BASE + phys) = None).
Proof.
  destruct (proj1 (wp_run _ _ _) (map_mmio_tables s _ _ _ _ phys size (tables_self s (pi_shape _ _ Hinv)) Hoff Halign
    ltac:(lia) Hsize Hend ltac:(lia))) as (r & s' & Hrun & -> & Ht & Hr & _).
  exists s'. rewrite Z.add_comm. split; [exact Hrun|]. intros Hl. rewrite Z.add_comm.
  assert (Hi' : pinv img s') by (injection Hr as Hc _ _; by eapply pinv_update).
  rewrite walk_resolve by (done || lia). destruct (index_bounds phys ltac:(lia)) as (B1 & B2 & B3).
  unfold resolve. rewrite (tb_pdp _ _ _ _ _ Ht), (tb_pd _ _ _ _ _ Ht), Hunlinked, Hl by lia. by destruct (e_present _).
Qed.

(** Witness: the local APIC's page on the 512 MiB machine. *)
Lemma map_mmio_unlinked_witness :
  ∃ s s', init demo_img demo_bi demo_pages = Some (Ok tt, s) ∧
    map_mmio 0xFEE00000 0x1000 s = Some (Ok (KERNEL_VIRTUAL_BASE + 0xFEE00000), s') ∧
    translate demo_img s' (KERNEL_VIRTUAL_BASE + 0xFEE00000) = None.
Proof.
  destruct demo_links as (s & Hrun & Hi & Hoff & _ & _ & Hpdp & Hpd).
  destruct (map_mmio_unlinked demo_img s 0xFEE00000 0x1000 demo_img_ok Hi Hoff ltac:(by exists 0xFEE00)
    ltac:(lia) ltac:(lia) ltac:(vm_compute; discriminate)) as (s' & Hmap & Htr).
  { apply Hpd; [lia|vm_compute; discriminate]. }
  exists s, s'. split; [exact Hrun|]. split; [exact Hmap|]. apply Htr.
  rewrite Hpdp; [reflexivity|lia|vm_compute; discriminate].
Defined.

(** A 2 MiB aligned frame buffer whose page directories are linked: the 4 KiB
    mappings under it are dropped first, so no conflict can arise; afterwards
    every byte of its 2 MiB pages is mapped read-write, uncacheable and not
    executable, and everything else translates as before. *)
Theorem map_framebuffer_huge_correct (img : kernel_image) (s : pstate) (base size : Z)
    (Himg : image_ok img) (Hinv : pinv img s) (Hoff : interrupts_off s)
    (Halign : (2 ^ 21 | base)) (Hbase : 0 < base < 2 ^ 33) (Hsize : 0 ≤ size)
    (Hend : base + pages_of size (2 ^ 21) * 2 ^ 21 ≤ 2 ^ 33)
    (Hlinked : ∀ p, base ≤ p < base + pages_of size (2 ^ 21) * 2 ^ 21 → pd_linked img s p) :
  ∃ s', map_framebuffer_huge base size s = Some (Ok (base + KERNEL_VIRTUAL_BASE), s') ∧ pinv img s' ∧
    (0 < size → tlb_stale s' = false) ∧
    (∀ p, 0 ≤ p < 2 ^ 39 → translate img s' (KERNEL_VIRTUAL_BASE + p) =
       if within p base (base + pages_of size (2 ^ 21) * 2 ^ 21) then Some (mkMapping p true true true)
       else translate img s (KERNEL_VIRTUAL_BASE + p)).
Proof.
  destruct (proj1 (wp_run _ _ _) (map_framebuffer_translation img Himg s base size Hinv Hoff Halign Hbase Hsize Hend Hlinked))
    as (r & s' & Hrun & -> & Hi & Hst & Hres).
  exists s'. split; [exact Hrun|]. split; [exact Hi|]. split; [exact Hst|].
  intros p Hp. rewrite !walk_resolve by done. by apply Hres.
Qed.

(** Witness: a 3 MiB frame buffer over ordinary memory takes two 2 MiB pages. *)
Lemma map_framebuffer_huge_correct_witness :
  ∃ s s', init demo_img demo_bi demo_pages = Some (Ok tt, s) ∧
    map_framebuffer_huge 0x10000000 0x300000 s = Some (Ok (0x10000000 + KERNEL_VIRTUAL_BASE), s') ∧
    translate demo_img s' (KERNEL_VIRTUAL_BASE + 0x103FFFFF) = Some (mkMapping 0x103FFFFF true true true).
Proof.
  destruct demo_links as (s & Hrun & Hi & Hoff & _ & Hlink & _).
  destruct (map_framebuffer_huge_correct demo_img s 0x10000000 0x300000 demo_img_ok Hi Hoff ltac:(by exists 128)
    ltac:(lia) ltac:(lia) ltac:(vm_compute; discriminate)) as (s' & Hmap & _ & _ & Htr).
  { intros p Hp. apply Hlink. change (pages_of 0x300000 (2 ^ 21)) with 2 in Hp. change (actual_max demo_bi) with 0x20000000. lia. }
  exists s, s'. split; [exact Hrun|]. split; [exact Hmap|].
  rewrite (Htr 0x103FFFFF ltac:(lia)). vm_compute. reflexivity.
Defined.

(** Every branch of [map_huge_2mb] on a physical address with linked page
    directory: it panics with interrupts on; it refuses a misaligned address,
    one beyond 8 GiB and an entry that points to a page table, changing
    nothing; otherwise the 2 MiB become one page with the given cache and
    execute attributes and nothing else changes.  At physical address 0 the
    page is mapped and [InvalidAddress] is answered nevertheless. *)
Theorem map_huge_2mb_correct (img : kernel_image) (s : pstate) (phys f : Z)
    (Himg : image_ok img) (Hinv : pinv img s) (Hphys : 0 ≤ phys)
    (Hflags : Z.land f PHYSICAL_ADDRESS_MASK = 0) (Hlinked : pd_linked img s phys) :
  let e := pd_e s (phys / 2 ^ 21) in
  (¬ interrupts_off s → map_huge_2mb phys f s = None) ∧
  (interrupts_off s → ¬ (2 ^ 21 | phys) → map_huge_2mb phys f s = Some (Err InvalidAddress, s)) ∧
  (interrupts_off s → (2 ^ 21 | phys) → 2 ^ 33 ≤ phys → map_huge_2mb phys f s = Some (Err AddressOutOfRange, s)) ∧
  (interrupts_off s → (2 ^ 21 | phys) → phys < 2 ^ 33 → e_present e = true → e_large e = false →
     map_huge_2mb phys f s = Some (Err ExistingMappingConflict, s)) ∧
  (interrupts_off s → (2 ^ 21 | phys) → phys < 2 ^ 33 → e_present e = false ∨ e_large e = true →
     ∃ r s', map_huge_2mb phys f s = Some (r, s') ∧ pinv img s' ∧ tlb_stale s' = false ∧
       r = (if phys =? 0 then Err InvalidAddress else Ok (phys + KERNEL_VIRTUAL_BASE)) ∧
       ∀ p, 0 ≤ p < 2 ^ 39 → translate img s' (KERNEL_VIRTUAL_BASE + p) =
         if within p phys (phys + 2 ^ 21) then Some (mkMapping p true (Z.testbit f 63) (Z.testbit f 4))
         else translate img s (KERNEL_VIRTUAL_BASE + p)).
Proof.
  cbv zeta. destruct (map_huge_2mb_refuses s phys f (pi_shape _ _ Hinv) Hphys) as (H1 & H2 & H3 & H4).
  split; [exact H1|]. split; [exact H2|]. split; [exact H3|]. split; [exact H4|].
  intros Hoff Hd Hr Hfree.
  destruct (proj1 (wp_run _ _ _) (map_huge_2mb_translation img Himg s phys f Hinv Hoff Hd (conj Hphys Hr) Hflags Hlinked Hfree))
    as (r & s' & Hrun & Hres & Hi & Hst & Htr).
  exists r, s'. split; [exact Hrun|]. split; [exact Hi|]. split; [exact Hst|]. split; [exact Hres|].
  intros p Hp. rewrite !walk_resolve by done. by apply Htr.
Qed.

(** Witness: over memory that [init] mapped with 4 KiB pages it refuses. *)
Lemma map_huge_2mb_correct_witness :
  ∃ s, init demo_img demo_bi demo_pages = Some (Ok tt, s) ∧
    map_huge_2mb 0x10000000 (flag NoExecute) s = Some (Err ExistingMappingConflict, s).
Proof.
  destruct demo_links as (s & Hrun & Hi & Hoff & _ & Hlink & _).
  destruct (Hlink 0x10000000 ltac:(vm_compute; split; [discriminate|reflexivity])) as [H3 H2].
  destruct (map_huge_2mb_correct demo_img s 0x10000000 (flag NoExecute) demo_img_ok Hi ltac:(lia) ltac:(reflexivity) H3)
    as (_ & _ & _ & Hconf & _).
  exists s. split; [exact Hrun|]. apply Hconf; [exact Hoff|by exists 128|lia|rewrite H2; reflexivity|rewrite H2; reflexivity].
Defined.

(** A 1 GiB page over a free slot: [map_huge_1gb] (which asks CPUID once and
    caches the answer) maps the whole GiB, and [unmap_huge_1gb] takes it away
    again: the GiB is unmapped and every other address translates as it did
    before the pair. *)
Theorem huge_1gb_roundtrip (img : kernel_image) (cpuid : Z → Z * Z) (s : pstate) (phys f : Z)
    (Himg : image_ok img) (Hinv : pinv img s) (Hoff : interrupts_off s)
    (Halign : (2 ^ 30 | phys)) (Hphys : 0 < phys < 2 ^ 33) (Hflags : Z.land f PHYSICAL_ADDRESS_MASK = 0)
    (Hcpu : supported cpuid s = true) (Hfree : pdp_free s phys) :
  ∃ s1 s2, map_huge_1gb cpuid phys f s = Some (Ok (phys + KERNEL_VIRTUAL_BASE), s1) ∧
    unmap_huge_1gb phys s1 = Some (Ok tt, s2) ∧ pinv img s1 ∧ pinv img s2 ∧
    tlb_stale s1 = false ∧ tlb_stale s2 = false ∧
    (∀ p, phys ≤ p < phys + 2 ^ 30 →
       translate img s1 (KERNEL_VIRTUAL_BASE + p) = Some (mkMapping p true (Z.testbit f 63) (Z.testbit f 4)) ∧
       translate img s2 (KERNEL_VIRTUAL_BASE + p) = None) ∧
    (∀ p, 0 ≤ p < 2 ^ 39 → ¬ phys ≤ p < phys + 2 ^ 30 →
       translate img s1 (KERNEL_VIRTUAL_BASE + p) = translate img s (KERNEL_VIRTUAL_BASE + p) ∧
       translate img s2 (KERNEL_VIRTUAL_BASE + p) = translate img s (KERNEL_VIRTUAL_BASE + p)).
Proof.
  destruct (proj1 (wp_run _ _ _) (map_huge_1gb_translation img cpuid s phys f Hinv Hoff Halign Hphys Hcpu Hflags Hfree))
    as (r & s1 & Hrun1 & -> & Hi1 & Hoff1 & Hst1 & Hres1).
  destruct (proj1 (wp_run _ _ _) (unmap_huge_1gb_translation img s1 phys Hi1 Hoff1 Halign ltac:(lia)))
    as (r & s2 & Hrun2 & -> & Hi2 & Hst2 & Hres2).
  exists s1, s2. split; [exact Hrun1|]. split; [exact Hrun2|]. do 4 (split; [done|]). split.
  - intros p Hp. rewrite !walk_resolve by (done || lia). rewrite Hres1, Hres2 by lia. unfold within.
    by rewrite (proj2 (Z.leb_le _ _)), (proj2 (Z.ltb_lt _ _)) by lia.
  - intros p Hp Hn. rewrite !walk_resolve by done. rewrite Hres2, Hres1 by done. unfold within.
    destruct (Z.leb_spec phys p), (Z.ltb_spec p (phys + 2 ^ 30)); done || lia.
Qed.

(** Witness: the third GiB on a processor with the feature. *)
Definition demo_cpuid (leaf : Z) : Z * Z := if leaf =? 0x80000000 then (0x80000008, 0) else (0, 2 ^ 26).
Lemma huge_1gb_roundtrip_witness :
  ∃ s s1 s2, init demo_img demo_bi demo_pages = Some (Ok tt, s) ∧
    map_huge_1gb demo_cpuid 0x80000000 0 s = Some (Ok (0x80000000 + KERNEL_VIRTUAL_BASE), s1) ∧
    unmap_huge_1gb 0x80000000 s1 = Some (Ok tt, s2).
Proof.
  destruct demo_links as (s & Hrun & Hi & Hoff & Hcache & _ & Hpdp & _).
  destruct (huge_1gb_roundtrip demo_img demo_cpuid s 0x80000000 0 demo_img_ok Hi Hoff ltac:(by exists 2)
    ltac:(lia) ltac:(reflexivity)) as (s1 & s2 & H1 & H2 & _).
  - unfold supported. rewrite Hcache. vm_compute. reflexivity.
  - left. rewrite Hpdp; [reflexivity|lia|vm_compute; discriminate].
  - exists s, s1, s2. split; [exact Hrun|]. split; [exact H1|exact H2].
Defined.
