(* ===== verification/Context.v ===== *)
(** * CPU contexts and the context switch ([kernel/src/sched/context.rs]).

    Memory is words at 8-byte aligned addresses.  [Context_new] lays out the
    first stack of a task; [switch_context] is the naked function, one step of
    the monad per instruction.  FXSAVE stores the 464 bytes the processor
    defines (58 words); the last 48 bytes of the 512-byte area are software's,
    and the code keeps the unaligned stack pointer there. *)
From S2P Require Import Prelude.
Set Default Goal Selector "!".

Inductive TaskError :=
  | InvalidPriority | StackAllocationFailed | InvalidStackAddress | ContextInitFailed | QueueFull.

Abbreviation cmem := (gmap Z Z).

(** The registers the switch touches; [fpu] is the x87/SSE state as FXSAVE stores it. *)
Record cpu := mkCpu {
  rsp : Z; rbp : Z; rbx : Z; r11 : Z; r12 : Z; r13 : Z; r14 : Z; r15 : Z;
  rflags : Z; rip : Z; fpu : list Z }.
Record machine := mkMachine { regs : cpu; mem : cmem }.

Definition FPU_WORDS : nat := 58.

(** ** Memory *)
Definition store8 (a w : Z) : M cmem unit :=
  assert_ (a mod 8 =? 0) ;; modify (λ m, <[a := w]> m).
(** Consecutive words from an aligned address on. *)
Definition store_words (a : Z) (ws : list Z) : M cmem unit :=
  for_each (imap (λ i w, (a + 8 * Z.of_nat i, w)) ws) (λ x, store8 x.1 x.2).

(** [rsp -= 8; *(rsp as *mut u64) = w]. *)
Definition push_word (rsp w : Z) : M cmem Z :=
  rsp ← lift (csub rsp 8); store8 rsp w ;; mret rsp.

(** [Context::new]: the context is its stack pointer. *)
Definition Context_new (entry_point stack_top : Z) : M cmem (result Z TaskError) :=
  let FXSAVE_SIZE := 512 in
  let FXSAVE_ALIGN := 16 in
  let MIN_REQUIRED_STACK := 1024 in
  if stack_top =? 0 then mret (Err InvalidStackAddress) else
  if entry_point =? 0 then mret (Err ContextInitFailed) else
  if stack_top <? MIN_REQUIRED_STACK then mret (Err InvalidStackAddress) else
  rsp ← lift (csub stack_top 8);
  if rsp =? 0 then mret (Err InvalidStackAddress) else
  store8 rsp entry_point ;;
  rsp ← push_word rsp 0;
  rsp ← push_word rsp 0;
  rsp ← push_word rsp 0;
  rsp ← push_word rsp 0;
  rsp ← push_word rsp 0;
  rsp ← push_word rsp 0;
  rsp ← push_word rsp 0x202;
  let rsp_before_fxsave := rsp in
  rsp ← lift (csub rsp FXSAVE_SIZE);
  let rsp := rsp / FXSAVE_ALIGN * FXSAVE_ALIGN in
  if (rsp =? 0) || negb (rsp mod FXSAVE_ALIGN =? 0) then mret (Err InvalidStackAddress) else
  store_words rsp (replicate 64 0) ;;
  store8 (rsp + 504) rsp_before_fxsave ;;
  mret (Ok rsp).

(** ** The switch, instruction by instruction *)
Definition upd_regs (f : cpu → cpu) : M machine unit := modify (λ s, mkMachine (f (regs s)) (mem s)).
Definition on_mem {A} (m : M cmem A) : M machine A := zoom mem (λ x s, mkMachine (regs s) x) m.
Definition load8 (a : Z) : M cmem Z := assert_ (a mod 8 =? 0) ;; m ← gets id; lift (m !! a).

Definition set_rsp (v : Z) (c : cpu) : cpu :=
  mkCpu v (rbp c) (rbx c) (r11 c) (r12 c) (r13 c) (r14 c) (r15 c) (rflags c) (rip c) (fpu c).

(** [push r] for the value of a register, and [pop]. *)
Definition push (w : Z) : M machine unit :=
  c ← gets regs; upd_regs (set_rsp (rsp c - 8)) ;; on_mem (store8 (rsp c - 8) w).
Definition pop : M machine Z :=
  c ← gets regs; w ← on_mem (load8 (rsp c)); upd_regs (set_rsp (rsp c + 8)) ;; mret w.

Definition fxsave (a : Z) : M machine unit :=
  assert_ (a mod 16 =? 0) ;;
  c ← gets regs;
  on_mem (store_words a (fpu c)).
Definition fxrstor (a : Z) : M machine unit :=
  assert_ (a mod 16 =? 0) ;;
  s ← gets id;
  ws ← lift (mapM (λ i, mem s !! (a + 8 * i)) (seqZ 0 (Z.of_nat FPU_WORDS)));
  upd_regs (λ c, mkCpu (rsp c) (rbp c) (rbx c) (r11 c) (r12 c) (r13 c) (r14 c) (r15 c) (rflags c) (rip c) ws).

(** [or qword ptr [rsp], 0x200]. *)
Definition or_top (v : Z) : M machine unit :=
  c ← gets regs; w ← on_mem (load8 (rsp c)); on_mem (store8 (rsp c) (Z.lor w v)).
Definition set_r11 (v : Z) (c : cpu) : cpu :=
  mkCpu (rsp c) (rbp c) (rbx c) v (r12 c) (r13 c) (r14 c) (r15 c) (rflags c) (rip c) (fpu c).

(** The first half, up to the store of the old stack pointer. *)
Definition save_context : M machine unit :=
  c ← gets regs;
  push (rbp c) ;; push (rbx c) ;; push (r12 c) ;; push (r13 c) ;; push (r14 c) ;; push (r15 c) ;;
  push (rflags c) ;;
  or_top 0x200 ;;
  c1 ← gets regs;
  upd_regs (set_r11 (rsp c1)) ;;
  upd_regs (set_rsp (Z.land (rsp c1 - 512) (bnot 64 15))) ;;
  c2 ← gets regs;
  fxsave (rsp c2) ;;
  on_mem (store8 (rsp c2 + 504) (r11 c2)).

(** Restoring from a saved stack pointer. *)
Definition restore_context (new_rsp : Z) : M machine unit :=
  upd_regs (set_rsp new_rsp) ;;
  fxrstor new_rsp ;;
  before ← on_mem (load8 (new_rsp + 504));
  upd_regs (set_rsp before) ;;
  f ← pop;
  v15 ← pop; v14 ← pop; v13 ← pop; v12 ← pop; vbx ← pop; vbp ← pop;
  ret ← pop;
  upd_regs (λ c, mkCpu (rsp c) vbp vbx (r11 c) v12 v13 v14 v15 f ret (fpu c)).

(** Entered by [call]: the return address is on top of the stack.
    [old_context] and [new_context] are the addresses in [rdi] and [rsi]. *)
Definition switch_context (old_context new_context : Z) : M machine unit :=
  save_context ;;
  c2 ← gets regs;
  on_mem (store8 old_context (rsp c2)) ;;
  new_rsp ← on_mem (load8 new_context);
  restore_context new_rsp.
