(* ===== verification/ContextProps.v ===== *)
(** * CPU contexts: frames on stacks and the theorems. *)
From S2P Require Import Prelude Context.
Set Default Goal Selector "!".

(** ** Context switch: frames saved on stacks.

    [frame_at m sp c] says that the stack saved at [sp] resumes as the
    registers [c].  [Context::new] makes such a frame, [switch_context] saves
    one and resumes one. *)
(** ** Runs of words *)
Fixpoint write_list (a : Z) (ws : list Z) (m : cmem) : cmem :=
  match ws with [] => m | w :: ws' => write_list (a + 8) ws' (<[a := w]> m) end.

Lemma write_list_out a ws m x : (∀ i, 0 ≤ i < Z.of_nat (length ws) → x ≠ a + 8 * i) → write_list a ws m !! x = m !! x.
Proof.
  revert a m. induction ws as [|w ws IH]; intros a m Hx; simpl in *; [done|]. rewrite IH.
  - rewrite lookup_insert_ne; [done|]. intros ->. apply (Hx 0); lia.
  - intros i Hi ->. apply (Hx (i + 1)); lia.
Qed.

Lemma write_list_in a ws m i w : ws !! i = Some w → write_list a ws m !! (a + 8 * Z.of_nat i) = Some w.
Proof.
  revert a m i. induction ws as [|w' ws IH]; intros a m i Hi; [done|]. destruct i as [|i]; simpl in *.
  - injection Hi as ->. rewrite write_list_out by lia. rewrite Z.add_0_r. by rewrite lookup_insert_eq.
  - replace (a + 8 * Z.of_nat (S i)) with (a + 8 + 8 * Z.of_nat i) by lia. by apply IH.
Qed.

Lemma wp_store8 a w Q m : (8 | a) → Q tt (<[a := w]> m) → wp (store8 a w) Q m.
Proof.
  intros Hd HQ. unfold store8. wp_step. wp_step; [by apply Z.eqb_eq, Z.mod_divide|]. by wp_step.
Qed.

Lemma wp_load8 a w Q m : (8 | a) → m !! a = Some w → Q w m → wp (load8 a) Q m.
Proof.
  intros Hd Hm HQ. unfold load8. wp_step. wp_step; [by apply Z.eqb_eq, Z.mod_divide|]. wp_step. wp_step. by eapply wp_lift.
Qed.

Lemma wp_store_words a ws Q m : (8 | a) → Q tt (write_list a ws m) → wp (store_words a ws) Q m.
Proof.
  unfold store_words. revert a m. induction ws as [|w ws IH]; intros a m Hd HQ; [done|]. cbn [imap for_each].
  wp_step. cbn [fst snd]. rewrite Z.add_0_r. apply wp_store8; [done|].
  replace (imap _ ws) with (imap (λ i w, (a + 8 + 8 * Z.of_nat i, w)) ws).
  - apply IH; [|done]. apply Z.divide_add_r; [done|]. by exists 1.
  - apply imap_ext. intros i x _. unfold compose. f_equal. lia.
Qed.

Lemma wp_push_word sp w Q m : (8 | sp) → 8 ≤ sp → Q (sp - 8) (<[sp - 8 := w]> m) → wp (push_word sp w) Q m.
Proof.
  intros Hd Hs HQ. unfold push_word. wp_step. wp_step; [by apply csub_some|].
  wp_step. apply wp_store8; [|by wp_step]. apply Z.divide_sub_r; [done|]. by exists 1.
Qed.

(** ** Frames *)
(** A frame: the 512-byte area at [sp], and the eight words at the address kept in it. *)
Definition frame_cell (sp b a : Z) : Prop := sp ≤ a < sp + 512 ∨ b ≤ a < b + 64.

Record frame_at (m : cmem) (sp b : Z) (c : cpu) : Prop := {
  fr_align : (16 | sp);
  fr_balign : (8 | b);
  fr_before : m !! (sp + 504) = Some b;
  fr_rflags : m !! b = Some (rflags c);
  fr_r15 : m !! (b + 8) = Some (r15 c);
  fr_r14 : m !! (b + 16) = Some (r14 c);
  fr_r13 : m !! (b + 24) = Some (r13 c);
  fr_r12 : m !! (b + 32) = Some (r12 c);
  fr_rbx : m !! (b + 40) = Some (rbx c);
  fr_rbp : m !! (b + 48) = Some (rbp c);
  fr_rip : m !! (b + 56) = Some (rip c);
  fr_rsp : rsp c = b + 64;
  fr_fpu_len : length (fpu c) = FPU_WORDS;
  fr_fpu : ∀ i w, fpu c !! i = Some w → m !! (sp + 8 * Z.of_nat i) = Some w;
}.

Lemma frame_stable m m' sp b c : frame_at m sp b c → (∀ a, frame_cell sp b a → m' !! a = m !! a) → frame_at m' sp b c.
Proof.
  intros [] Hm. unfold frame_cell in Hm. split; try done; try (rewrite Hm; [done|lia]).
  intros i w Hi. rewrite Hm; [by auto|]. left. apply lookup_lt_Some in Hi. unfold FPU_WORDS in *. lia.
Qed.

(** The lowest address of the frame saved below a stack pointer. *)
Definition frame_sp (b : Z) : Z := (b - 512) / 16 * 16.
Lemma frame_sp_bound b : b - 528 < frame_sp b ≤ b - 512.
Proof.
  unfold frame_sp. pose proof (Z.div_mod (b - 512) 16 ltac:(lia)). pose proof (Z.mod_pos_bound (b - 512) 16 ltac:(lia)). lia.
Qed.
Lemma frame_sp_16 b : (16 | frame_sp b).
Proof. apply Z.divide_factor_r. Qed.
Lemma divide_8_16 a : (16 | a) → (8 | a).
Proof. intros [k ->]. exists (k * 2). lia. Qed.

(** The registers a fresh task starts with. *)
Definition first_cpu (entry_point stack_top : Z) : cpu :=
  mkCpu stack_top 0 0 0 0 0 0 0 0x202 entry_point (replicate FPU_WORDS 0).

(** Read through writes at computable offsets. *)
Ltac look := repeat first
  [ rewrite lookup_insert_ne by lia
  | match goal with |- context [<[?a := _]> _ !! ?b] => replace b with a by lia; rewrite lookup_insert_eq end ].

Lemma Context_new_spec entry top m : entry ≠ 0 → 1024 ≤ top → (8 | top) →
  wp (Context_new entry top) (λ r m', r = Ok (frame_sp (top - 64)) ∧
     frame_at m' (frame_sp (top - 64)) (top - 64) (first_cpu entry top) ∧
     ∀ a, ¬ frame_sp (top - 64) ≤ a < top → m' !! a = m !! a) m.
Proof.
  intros He Ht Hd. assert (H8 : ∀ k, (8 | top - 8 * k)) by (intros k; apply Z.divide_sub_r; [done|apply Z.divide_factor_l]).
  unfold Context_new. rewrite (proj2 (Z.eqb_neq top 0)), (proj2 (Z.eqb_neq entry 0)), (proj2 (Z.ltb_ge _ _)) by lia. cbv zeta.
  wp_step. wp_step; [apply csub_some; lia|]. rewrite (proj2 (Z.eqb_neq (top - 8) 0)) by lia.
  wp_step. apply wp_store8; [apply (H8 1)|].
  wp_step. apply wp_push_word; [apply (H8 1)|lia|]. replace (top - 8 - 8) with (top - 16) by lia.
  wp_step. apply wp_push_word; [apply (H8 2)|lia|]. replace (top - 16 - 8) with (top - 24) by lia.
  wp_step. apply wp_push_word; [apply (H8 3)|lia|]. replace (top - 24 - 8) with (top - 32) by lia.
  wp_step. apply wp_push_word; [apply (H8 4)|lia|]. replace (top - 32 - 8) with (top - 40) by lia.
  wp_step. apply wp_push_word; [apply (H8 5)|lia|]. replace (top - 40 - 8) with (top - 48) by lia.
  wp_step. apply wp_push_word; [apply (H8 6)|lia|]. replace (top - 48 - 8) with (top - 56) by lia.
  wp_step. apply wp_push_word; [apply (H8 7)|lia|]. replace (top - 56 - 8) with (top - 64) by lia.
  wp_step. wp_step; [apply csub_some; lia|]. fold (frame_sp (top - 64)).
  pose proof (frame_sp_bound (top - 64)) as Hb. pose proof (frame_sp_16 (top - 64)) as H16.
  set (sp := frame_sp (top - 64)) in *. rewrite (proj2 (Z.eqb_neq sp 0)) by lia.
  rewrite (proj2 (Z.mod_divide sp 16 ltac:(lia)) H16). cbn [Z.eqb negb orb].
  wp_step. apply wp_store_words; [by apply divide_8_16|].
  wp_step. apply wp_store8; [apply Z.divide_add_r; [by apply divide_8_16|by exists 63]|]. apply wp_ret.
  split; [done|].
  assert (Hout : ∀ mm x, ¬ (sp ≤ x < sp + 512) → write_list sp (replicate 64 0) mm !! x = mm !! x).
  { intros mm x Hx. apply write_list_out. rewrite length_replicate. lia. }
  split.
  - split; cbn [rflags r15 r14 r13 r12 rbx rbp rip rsp fpu first_cpu]; try (by rewrite ?length_replicate); try lia.
    + apply (H8 8).
    + by rewrite lookup_insert_eq.
    + rewrite lookup_insert_ne, Hout by lia. by look.
    + rewrite lookup_insert_ne, Hout by lia. by look.
    + rewrite lookup_insert_ne, Hout by lia. by look.
    + rewrite lookup_insert_ne, Hout by lia. by look.
    + rewrite lookup_insert_ne, Hout by lia. by look.
    + rewrite lookup_insert_ne, Hout by lia. by look.
    + rewrite lookup_insert_ne, Hout by lia. by look.
    + rewrite lookup_insert_ne, Hout by lia. by look.
    + intros i w [-> Hi]%lookup_replicate. unfold FPU_WORDS in Hi. rewrite lookup_insert_ne by lia.
      apply write_list_in. apply lookup_replicate. lia.
  - intros a Ha. rewrite lookup_insert_ne, Hout by lia. by look.
Qed.

(** ** The switch *)
(** What [c] resumes as: past its call, interrupts on. *)
Definition resume (c : cpu) (ret : Z) : cpu :=
  mkCpu (rsp c + 8) (rbp c) (rbx c) (r11 c) (r12 c) (r13 c) (r14 c) (r15 c) (Z.lor (rflags c) 0x200) ret (fpu c).

Lemma wp_push w s Q : (8 | rsp (regs s)) →
  Q tt (mkMachine (set_rsp (rsp (regs s) - 8) (regs s)) (<[rsp (regs s) - 8 := w]> (mem s))) → wp (push w) Q s.
Proof.
  intros Hd HQ. unfold push, upd_regs, on_mem. wp_step. wp_step. wp_step. wp_step.
  apply wp_zoom. apply wp_store8; [|done]. apply Z.divide_sub_r; [done|by exists 1].
Qed.

Lemma wp_pop w s Q : (8 | rsp (regs s)) → mem s !! rsp (regs s) = Some w →
  Q w (mkMachine (set_rsp (rsp (regs s) + 8) (regs s)) (mem s)) → wp pop Q s.
Proof.
  intros Hd Hm HQ. unfold pop, upd_regs, on_mem. wp_step. wp_step. wp_step. apply wp_zoom.
  eapply wp_load8; [done|done|]. wp_step. wp_step. wp_step. exact HQ.
Qed.

Lemma mapM_fpu (m : cmem) a (ws : list Z) : (∀ i w, ws !! i = Some w → m !! (a + 8 * Z.of_nat i) = Some w) →
  mapM (λ i, m !! (a + 8 * i)) (seqZ 0 (Z.of_nat (length ws))) = Some ws.
Proof.
  intros H. apply mapM_Some_2, Forall2_same_length_lookup_2.
  - by rewrite length_seqZ, Nat2Z.id.
  - intros i x y Hx Hy. apply lookup_seqZ in Hx as [-> _]. rewrite Z.add_0_l. by apply H.
Qed.

Lemma rsp_mask b : 528 ≤ b < 2 ^ 64 → Z.land (b - 512) (bnot 64 15) = frame_sp b.
Proof. intros. apply (land_not_mask 64 4 (b - 512)); lia. Qed.

Lemma save_context_spec s ret Q : let R := rsp (regs s) in
  (8 | R) → 600 ≤ R < 2 ^ 64 → mem s !! R = Some ret → length (fpu (regs s)) = FPU_WORDS →
  (∀ c' m', frame_at m' (frame_sp (R - 56)) (R - 56) (resume (regs s) ret) →
     rsp c' = frame_sp (R - 56) → r11 c' = R - 56 →
     (∀ a, ¬ frame_sp (R - 56) ≤ a < R → m' !! a = mem s !! a) → Q tt (mkMachine c' m')) →
  wp save_context Q s.
Proof.
  destruct s as [c m]. cbn [regs mem]. set (R := rsp c). intros Hd Hr Hret Hlen HQ.
  assert (H8 : ∀ k, (8 | R - 8 * k)) by (intros k; apply Z.divide_sub_r; [done|apply Z.divide_factor_l]).
  unfold save_context. wp_step. wp_step. cbn [regs].
  wp_step. apply wp_push; [done|]. cbn [regs mem rsp set_rsp]. fold R.
  wp_step. apply wp_push; [apply (H8 1)|]. cbn [regs mem rsp set_rsp]. replace (R - 8 - 8) with (R - 16) by lia.
  wp_step. apply wp_push; [apply (H8 2)|]. cbn [regs mem rsp set_rsp]. replace (R - 16 - 8) with (R - 24) by lia.
  wp_step. apply wp_push; [apply (H8 3)|]. cbn [regs mem rsp set_rsp]. replace (R - 24 - 8) with (R - 32) by lia.
  wp_step. apply wp_push; [apply (H8 4)|]. cbn [regs mem rsp set_rsp]. replace (R - 32 - 8) with (R - 40) by lia.
  wp_step. apply wp_push; [apply (H8 5)|]. cbn [regs mem rsp set_rsp]. replace (R - 40 - 8) with (R - 48) by lia.
  wp_step. apply wp_push; [apply (H8 6)|]. cbn [regs mem rsp set_rsp]. replace (R - 48 - 8) with (R - 56) by lia.
  wp_step. unfold or_top, on_mem. wp_step. wp_step. wp_step. cbn [regs rsp set_rsp]. apply wp_zoom. cbn [mem].
  eapply wp_load8; [apply (H8 7)|by rewrite lookup_insert_eq|]. apply wp_zoom. cbn [mem]. apply wp_store8; [apply (H8 7)|].
  cbn [regs mem]. rewrite insert_insert_eq. wp_step. wp_step. cbn [regs rsp set_rsp].
  wp_step. unfold upd_regs. wp_step. wp_step. wp_step. cbn [regs mem set_r11 set_rsp rsp].
  rewrite rsp_mask by lia. wp_step. wp_step. cbn [regs rsp r11 fpu mem set_rsp set_r11].
  pose proof (frame_sp_bound (R - 56)) as Hb. pose proof (frame_sp_16 (R - 56)) as H16.
  set (sp := frame_sp (R - 56)) in *. wp_step. unfold fxsave. wp_step.
  wp_step; [by apply Z.eqb_eq, Z.mod_divide|]. wp_step. wp_step. cbn [regs rsp r11 fpu mem set_rsp set_r11]. unfold on_mem. apply wp_zoom. cbn [mem].
  apply wp_store_words; [by apply divide_8_16|]. apply wp_zoom. cbn [mem].
  apply wp_store8; [apply Z.divide_add_r; [by apply divide_8_16|by exists 63]|].
  assert (Hout : ∀ mm x, ¬ (sp ≤ x < sp + 464) → write_list sp (fpu c) mm !! x = mm !! x).
  { intros mm x Hx. apply write_list_out. rewrite Hlen. unfold FPU_WORDS. lia. }
  cbn [regs]. apply HQ; [|done|done|].
  - split; cbn [rflags r15 r14 r13 r12 rbx rbp rip rsp fpu resume]; fold R; try done; try lia.
    + apply (H8 7).
    + by rewrite lookup_insert_eq.
    + rewrite lookup_insert_ne, Hout by lia. by look.
    + rewrite lookup_insert_ne, Hout by lia. by look.
    + rewrite lookup_insert_ne, Hout by lia. by look.
    + rewrite lookup_insert_ne, Hout by lia. by look.
    + rewrite lookup_insert_ne, Hout by lia. by look.
    + rewrite lookup_insert_ne, Hout by lia. by look.
    + rewrite lookup_insert_ne, Hout by lia. by look.
    + rewrite lookup_insert_ne, Hout by lia. look. rewrite <-Hret. f_equal. lia.
    + intros i w Hi. assert (Hi' := lookup_lt_Some _ _ _ Hi). rewrite Hlen in Hi'. unfold FPU_WORDS in Hi'.
      rewrite lookup_insert_ne by lia. by apply write_list_in.
  - intros a Ha. rewrite lookup_insert_ne, Hout by lia. by look.
Qed.

Lemma restore_context_spec s sp b c Q : frame_at (mem s) sp b c →
  Q tt (mkMachine (set_r11 (r11 (regs s)) c) (mem s)) → wp (restore_context sp) Q s.
Proof.
  intros [] HQ. destruct s as [c0 m]. cbn [regs mem] in *.
  assert (H8 : ∀ k, (8 | b + 8 * k)) by (intros k; apply Z.divide_add_r; [done|apply Z.divide_factor_l]).
  unfold restore_context, upd_regs, on_mem. wp_step. wp_step. wp_step. unfold fxrstor. wp_step.
  wp_step; [by apply Z.eqb_eq, Z.mod_divide|]. wp_step. wp_step. unfold id. cbn [regs mem].
  rewrite <-fr_fpu_len0. wp_step. eapply wp_lift; [by apply mapM_fpu|]. unfold upd_regs. wp_step. cbn [regs mem set_rsp].
  wp_step. apply wp_zoom. cbn [mem]. eapply wp_load8; [apply Z.divide_add_r; [by apply divide_8_16|by exists 63]|done|].
  wp_step. wp_step. cbn [regs mem set_rsp rsp rbp rbx r11 r12 r13 r14 r15 rflags rip fpu].
  wp_step. eapply wp_pop; cbn [regs mem set_rsp rsp]; [done|done|].
  wp_step. eapply wp_pop; cbn [regs mem set_rsp rsp]; [apply (H8 1)|done|]. replace (b + 8 + 8) with (b + 16) by lia.
  wp_step. eapply wp_pop; cbn [regs mem set_rsp rsp]; [apply (H8 2)|done|]. replace (b + 16 + 8) with (b + 24) by lia.
  wp_step. eapply wp_pop; cbn [regs mem set_rsp rsp]; [apply (H8 3)|done|]. replace (b + 24 + 8) with (b + 32) by lia.
  wp_step. eapply wp_pop; cbn [regs mem set_rsp rsp]; [apply (H8 4)|done|]. replace (b + 32 + 8) with (b + 40) by lia.
  wp_step. eapply wp_pop; cbn [regs mem set_rsp rsp]; [apply (H8 5)|done|]. replace (b + 40 + 8) with (b + 48) by lia.
  wp_step. eapply wp_pop; cbn [regs mem set_rsp rsp]; [apply (H8 6)|done|]. replace (b + 48 + 8) with (b + 56) by lia.
  wp_step. eapply wp_pop; cbn [regs mem set_rsp rsp]; [apply (H8 7)|done|]. replace (b + 56 + 8) with (b + 64) by lia.
  wp_step. cbn [regs mem set_rsp rsp rbp rbx r11 r12 r13 r14 r15 rflags rip fpu].
  rewrite <-fr_rsp0. destruct c. exact HQ.
Qed.

(** The running side: room for the frame below the stack pointer, the return
    address on top, and nothing of the next task's frame (at [sp], [b]) or of
    the two context slots in that room. *)
Record can_save (s : machine) (old new sp b : Z) (ret : Z) : Prop := {
  cs_align : (8 | rsp (regs s)) ∧ (8 | old) ∧ (8 | new);
  cs_range : 600 ≤ rsp (regs s) < 2 ^ 64;
  cs_ret : mem s !! rsp (regs s) = Some ret;
  cs_fpu : length (fpu (regs s)) = FPU_WORDS;
  cs_disj : ∀ a, frame_cell sp b a ∨ a = new → ¬ frame_sp (rsp (regs s) - 56) ≤ a < rsp (regs s) ∧ a ≠ old;
  cs_old : ¬ frame_sp (rsp (regs s) - 56) ≤ old < rsp (regs s) + 8;
}.

Lemma switch_context_spec s old new sp b c' ret : can_save s old new sp b ret →
  mem s !! new = Some sp → frame_at (mem s) sp b c' →
  let sp' := frame_sp (rsp (regs s) - 56) in
  wp (switch_context old new) (λ _ s', regs s' = set_r11 (rsp (regs s) - 56) c' ∧
     mem s' !! old = Some sp' ∧ frame_at (mem s') sp' (rsp (regs s) - 56) (resume (regs s) ret) ∧
     (∀ a, ¬ sp' ≤ a < rsp (regs s) → a ≠ old → mem s' !! a = mem s !! a)) s.
Proof.
  intros [(Hd & Hold8 & Hnew8) Hr Hret Hlen Hdis Hold] Hnew Hfr sp'. unfold switch_context.
  pose proof (frame_sp_bound (rsp (regs s) - 56)) as Hb. fold sp' in Hb, Hdis, Hold.
  wp_step. eapply save_context_spec; [done|done|done|done|]. fold sp'. intros c1 m1 Hsave Hrsp Hr11 Hm1.
  wp_step. wp_step. cbn [regs]. wp_step. unfold on_mem. apply wp_zoom. cbn [mem]. rewrite Hrsp. apply wp_store8; [done|].
  cbn [regs]. wp_step. apply wp_zoom. cbn [mem].
  destruct (Hdis new ltac:(by right)) as [Hn1 Hn2].
  eapply wp_load8; [done|rewrite lookup_insert_ne by done; rewrite Hm1 by done; done|]. cbn [regs].
  eapply restore_context_spec; cbn [mem regs].
  - eapply frame_stable; [done|]. intros a Ha. destruct (Hdis a ltac:(by left)). rewrite lookup_insert_ne by done. by apply Hm1.
  - rewrite Hr11. split; [done|]. split; [by rewrite lookup_insert_eq|]. split.
    + eapply frame_stable; [exact Hsave|]. intros a Ha. rewrite lookup_insert_ne; [done|]. intros <-.
      unfold frame_cell in Ha. lia.
    + intros a Ha Hne. rewrite lookup_insert_ne by done. by apply Hm1.
Qed.

(** ** CPU contexts: the theorems. *)
(** Every branch of [Context::new] on an 8-byte aligned stack: a null stack, a
    null entry point and a stack top below 1024 are refused and nothing is
    written; otherwise the answer is a 16-byte aligned stack pointer whose frame
    resumes at the entry point, on the whole stack, with interrupts enabled and
    all saved registers and FPU state zero, and only the top 592 bytes of the
    stack are written. *)
Theorem context_new_correct (m : cmem) (entry_point stack_top : Z) (Hpos : 0 ≤ stack_top) (Halign : (8 | stack_top)) :
  (stack_top = 0 → Context_new entry_point stack_top m = Some (Err InvalidStackAddress, m)) ∧
  (stack_top ≠ 0 → entry_point = 0 → Context_new entry_point stack_top m = Some (Err ContextInitFailed, m)) ∧
  (0 < stack_top < 1024 → entry_point ≠ 0 → Context_new entry_point stack_top m = Some (Err InvalidStackAddress, m)) ∧
  (1024 ≤ stack_top → entry_point ≠ 0 →
     ∃ sp m', Context_new entry_point stack_top m = Some (Ok sp, m') ∧ (16 | sp) ∧ stack_top - 592 < sp ∧
       frame_at m' sp (stack_top - 64) (first_cpu entry_point stack_top) ∧
       ∀ a, ¬ stack_top - 592 ≤ a < stack_top → m' !! a = m !! a).
Proof.
  split; [|split; [|split]].
  - intros ->. done.
  - intros Hs ->. unfold Context_new. by rewrite (proj2 (Z.eqb_neq stack_top 0)).
  - intros Hs He. unfold Context_new. rewrite (proj2 (Z.eqb_neq stack_top 0)), (proj2 (Z.eqb_neq entry_point 0)) by lia.
    by rewrite (proj2 (Z.ltb_lt stack_top 1024)) by lia.
  - intros Hs He. destruct (proj1 (wp_run _ _ _) (Context_new_spec entry_point stack_top m He Hs Halign)) as (r & m' & Hrun & -> & Hf & Hout).
    pose proof (frame_sp_bound (stack_top - 64)). exists (frame_sp (stack_top - 64)), m'.
    split; [exact Hrun|]. split; [apply frame_sp_16|]. split; [lia|]. split; [exact Hf|].
    intros a Ha. apply Hout. lia.
Qed.

(** Witness: a stack top that is not 16-byte aligned. *)
Lemma context_new_correct_witness :
  ∃ sp m', Context_new 0x4000 0x20008 ∅ = Some (Ok sp, m') ∧ sp = 0x1FDC0.
Proof.
  destruct (context_new_correct ∅ 0x4000 0x20008 ltac:(lia) ltac:(by exists 0x4001)) as (_ & _ & _ & H).
  destruct (H ltac:(lia) ltac:(lia)) as (sp & m' & Hrun & _). exists sp, m'. split; [exact Hrun|].
  assert (Hc : fst <$> Context_new 0x4000 0x20008 ∅ = Some (Ok 0x1FDC0)) by (vm_compute; reflexivity).
  rewrite Hrun in Hc. simpl in Hc. congruence.
Defined.

(** C5: Switching away and back: whatever ran in between, as long as the saved
    frame and the task's context slot are intact, the switch back resumes the
    task behind its own call with its callee-saved registers, stack pointer and
    FPU state, and with interrupts enabled whatever RFLAGS it had. *)
Theorem context_switch_roundtrip (s1 s1' s2 : machine) (old new sp b ret old2 ret2 : Z) (c' : cpu)
    (Hsave : can_save s1 old new sp b ret) (Hnew : mem s1 !! new = Some sp) (Hframe : frame_at (mem s1) sp b c')
    (Hrun : switch_context old new s1 = Some (tt, s1'))
    (Hkept : ∀ a, frame_cell (frame_sp (rsp (regs s1) - 56)) (rsp (regs s1) - 56) a ∨ a = old → mem s2 !! a = mem s1' !! a)
    (Hback : can_save s2 old2 old (frame_sp (rsp (regs s1) - 56)) (rsp (regs s1) - 56) ret2) :
  regs s1' = set_r11 (rsp (regs s1) - 56) c' ∧
  ∃ s3, switch_context old2 old s2 = Some (tt, s3) ∧
    regs s3 = set_r11 (rsp (regs s2) - 56) (resume (regs s1) ret).
Proof.
  destruct (proj1 (wp_run _ _ _) (switch_context_spec s1 old new sp b c' ret Hsave Hnew Hframe))
    as ([] & s & Hs & Hregs & Hslot & Hfr & _).
  rewrite Hrun in Hs. injection Hs as <-. split; [done|].
  destruct (proj1 (wp_run _ _ _) (switch_context_spec s2 old2 old _ _ (resume (regs s1) ret) ret2 Hback
    ltac:(rewrite Hkept; [done|by right]) ltac:(eapply frame_stable; [exact Hfr|]; intros a Ha; apply Hkept; by left)))
    as ([] & s3 & Hs3 & Hregs3 & _).
  exists s3. split; [exact Hs3|exact Hregs3].
Qed.

(** Witness: a task switches to a fresh one, which switches back. *)
Definition demo_fpu : list Z := seqZ 100 58.
Definition demo_cpu : cpu := mkCpu 0xFF00 1 2 3 4 5 6 7 0x46 0 demo_fpu.
Definition demo_machine (m : cmem) : machine := mkMachine demo_cpu (<[0x30008 := 0x1FDC0]> (<[0xFF00 := 0x1234]> m)).
Lemma context_switch_roundtrip_witness :
  ∃ m s1' s3, Context_new 0x4000 0x20000 ∅ = Some (Ok 0x1FDC0, m) ∧
    switch_context 0x30000 0x30008 (demo_machine m) = Some (tt, s1') ∧ rip (regs s1') = 0x4000 ∧
    switch_context 0x30008 0x30000 (mkMachine (set_rsp 0x1FFF8 (regs s1')) (<[0x1FFF8 := 0x5000]> (mem s1'))) = Some (tt, s3) ∧
    rip (regs s3) = 0x1234 ∧ fpu (regs s3) = demo_fpu.
Proof.
  destruct (proj1 (wp_run _ _ _) (Context_new_spec 0x4000 0x20000 ∅ ltac:(lia) ltac:(lia) ltac:(by exists 0x4000)))
    as (r & m & Hm & -> & Hf & _).
  change (frame_sp (0x20000 - 64)) with 0x1FDC0 in *. change (0x20000 - 64) with 0x1FFC0 in *.
  assert (Hsave : can_save (demo_machine m) 0x30000 0x30008 0x1FDC0 0x1FFC0 0x1234).
  { split; cbn [demo_machine regs mem demo_cpu rsp fpu].
    - split; [by exists 0x1FE0|split; [by exists 0x6000|by exists 0x6001]].
    - lia.
    - rewrite lookup_insert_ne by lia. by rewrite lookup_insert_eq.
    - reflexivity.
    - change (frame_sp (0xFF00 - 56)) with 0xFCC0. intros a [[Ha|Ha]| ->]; lia.
    - change (frame_sp (0xFF00 - 56)) with 0xFCC0. lia. }
  assert (Hframe : frame_at (mem (demo_machine m)) 0x1FDC0 0x1FFC0 (first_cpu 0x4000 0x20000)).
  { eapply frame_stable; [exact Hf|]. cbn [demo_machine mem]. intros a [Ha|Ha]; by rewrite !lookup_insert_ne by lia. }
  destruct (proj1 (wp_run _ _ _) (switch_context_spec (demo_machine m) 0x30000 0x30008 0x1FDC0 0x1FFC0 _ 0x1234 Hsave
    ltac:(cbn [demo_machine mem]; by rewrite lookup_insert_eq) Hframe)) as ([] & s1' & Hrun & Hregs & _).
  set (s2 := mkMachine (set_rsp 0x1FFF8 (regs s1')) (<[0x1FFF8 := 0x5000]> (mem s1'))).
  destruct (context_switch_roundtrip (demo_machine m) s1' s2 0x30000 0x30008 0x1FDC0 0x1FFC0 0x1234 0x30008 0x5000
    (first_cpu 0x4000 0x20000) Hsave ltac:(cbn [demo_machine mem]; by rewrite lookup_insert_eq) Hframe Hrun)
    as (_ & s3 & Hs3 & Hr3).
  - cbn [demo_machine regs demo_cpu rsp]. change (frame_sp (0xFF00 - 56)) with 0xFCC0. unfold s2. cbn [mem].
    intros a [[Ha|Ha]| ->]; by rewrite lookup_insert_ne by lia.
  - unfold s2. cbn [demo_machine regs demo_cpu rsp]. change (frame_sp (0xFF00 - 56)) with 0xFCC0. change (0xFF00 - 56) with 0xFEC8.
    split; cbn [regs mem set_rsp rsp fpu].
    + split; [by exists 0x3FFF|split; [by exists 0x6001|by exists 0x6000]].
    + lia.
    + by rewrite lookup_insert_eq.
    + rewrite Hregs. reflexivity.
    + change (frame_sp (0x1FFF8 - 56)) with 0x1FDC0. intros a [[Ha|Ha]| ->]; lia.
    + change (frame_sp (0x1FFF8 - 56)) with 0x1FDC0. lia.
  - exists m, s1', s3. split; [exact Hm|]. split; [exact Hrun|]. split; [by rewrite Hregs|].
    split; [exact Hs3|]. rewrite Hr3. split; reflexivity.
Defined.
