(* ===== verification/BTree.v ===== *)
(** * Ordered maps

    The standard library's [BTreeMap] as the code uses it: a list of entries in
    increasing key order, for any type of keys with a strict total order (the
    [OrderedKey] interface); [insert] replaces the entry of an equal key,
    [pop_first] takes the least key. *)
From S2P Require Import Prelude.
From Stdlib Require Import Sorting.Sorted.
Set Default Goal Selector "!".

Class OrderedKey (K : Type) := {
  key_lt : K → K → Prop;
  key_lt_dec :: RelDecision key_lt;
  key_eq_dec :: EqDecision K;
  key_irrefl : ∀ k, ¬ key_lt k k;
  key_trans : ∀ k1 k2 k3, key_lt k1 k2 → key_lt k2 k3 → key_lt k1 k3;
  key_total : ∀ k1 k2, key_lt k1 k2 ∨ k1 = k2 ∨ key_lt k2 k1;
}.

(** Pairs of integers, compared lexicographically as Rust compares tuples. *)
Definition pair_lt (x y : Z * Z) : Prop := x.1 < y.1 ∨ (x.1 = y.1 ∧ x.2 < y.2).
#[export] Instance pair_lt_dec : RelDecision pair_lt.
Proof. intros x y. unfold pair_lt. apply _. Defined.
#[export] Instance pair_key : OrderedKey (Z * Z).
Proof.
  apply (Build_OrderedKey (Z * Z) pair_lt _ _).
  - unfold pair_lt. lia.
  - unfold pair_lt. lia.
  - unfold pair_lt. intros [a b] [c d]. simpl.
    destruct (Z.lt_trichotomy a c) as [?|[->|?]]; [left; lia| |right; right; lia].
    destruct (Z.lt_trichotomy b d) as [?|[->|?]]; [left; lia|by right; left|right; right; lia].
Defined.

Section btree.
Context `{OrderedKey K} {V : Type}.
Implicit Types (m : list (K * V)) (k : K) (v : V).

Fixpoint bt_insert k v m : list (K * V) :=
  match m with
  | [] => [(k, v)]
  | (k', v') :: m' =>
      if decide (key_lt k k') then (k, v) :: m
      else if decide (k = k') then (k, v) :: m'
      else (k', v') :: bt_insert k v m'
  end.

Definition bt_pop_first m : option ((K * V) * list (K * V)) :=
  match m with [] => None | x :: m' => Some (x, m') end.

Definition bt_lt (x y : K * V) : Prop := key_lt x.1 y.1.
Definition bt_sorted m : Prop := StronglySorted bt_lt m.

Lemma bt_insert_perm k v m : k ∉ m.*1 → bt_insert k v m ≡ₚ (k, v) :: m.
Proof.
  induction m as [|[k' v'] m IH]; simpl; [done|]. rewrite not_elem_of_cons. intros [Hne Hin].
  destruct (decide (key_lt k k')); [done|]. destruct (decide (k = k')); [done|].
  rewrite IH by done. by constructor.
Qed.

Lemma bt_insert_elem k v m x : x ∈ bt_insert k v m → x = (k, v) ∨ x ∈ m.
Proof.
  induction m as [|[k' v'] m IH]; simpl; [rewrite elem_of_cons; tauto|].
  destruct (decide (key_lt k k')); [rewrite !elem_of_cons; tauto|].
  destruct (decide (k = k')); rewrite !elem_of_cons; [tauto|]. intros [->|?]; [tauto|]. destruct IH; tauto.
Qed.

Lemma bt_insert_sorted k v m : bt_sorted m → bt_sorted (bt_insert k v m).
Proof.
  unfold bt_sorted. induction m as [|[k' v'] m IH]; simpl; intros Hs.
  { constructor; [constructor|]. by apply list.Forall_nil. }
  inversion Hs as [|? ? Hss Hf]; subst. rewrite list.Forall_forall in Hf.
  destruct (decide (key_lt k k')) as [Hlt|Hnlt].
  - constructor; [done|]. apply list.Forall_forall. intros x. rewrite elem_of_cons. intros [->|Hx]; [done|].
    specialize (Hf x Hx). unfold bt_lt in *. simpl in *. by eapply key_trans.
  - destruct (decide (k = k')) as [->|Hne].
    + constructor; [done|]. apply list.Forall_forall. exact Hf.
    + constructor; [by apply IH|]. apply list.Forall_forall. intros x [->|Hx]%bt_insert_elem; [|by apply Hf].
      unfold bt_lt. simpl. destruct (key_total k k') as [?|[?|?]]; done.
Qed.

(** The first entry is the least. *)
Lemma bt_pop_least m x m' : bt_sorted m → bt_pop_first m = Some (x, m') →
  m = x :: m' ∧ bt_sorted m' ∧ ∀ y, y ∈ m' → key_lt x.1 y.1.
Proof.
  destruct m as [|z m]; [done|]. intros Hs [= -> ->]. inversion Hs as [|? ? Hss Hf]; subst.
  rewrite list.Forall_forall in Hf. done.
Qed.
End btree.
