(* ===== verification/Task.v ===== *)
(** * Tasks ([kernel/src/sched/task.rs]).

    The task control block, the three constructors (run on the memory of the
    stacks and the counter of task ids), weights and virtual run time. *)
From S2P Require Import Prelude Addr Context ContextProps.
Set Default Goal Selector "!".

(** ** Priorities *)
Definition nice_MIN : Z := -20.
Definition nice_DEFAULT : Z := 0.
Definition nice_MAX : Z := 19.
Definition rt_MIN : Z := 1.
Definition rt_DEFAULT : Z := 50.
Definition rt_MAX : Z := 99.

Inductive SchedulingClass := Realtime | Normal | Idle.
#[export] Instance SchedulingClass_eq_dec : EqDecision SchedulingClass.
Proof. solve_decision. Defined.
Inductive TaskState := Running | Ready | Blocked | Terminated.
#[export] Instance TaskState_eq_dec : EqDecision TaskState.
Proof. solve_decision. Defined.

Definition clamp (x lo hi : Z) : Z := Z.max lo (Z.min x hi).

Definition PRIO_TO_WEIGHT : list Z :=
  [88761; 71755; 56483; 46273; 36291; 29154; 23254; 18705; 14949; 11916; 9548; 7620; 6100;
   4904; 3906; 3121; 2501; 1991; 1586; 1277; 1024; 820; 655; 526; 423; 335; 272; 215; 172;
   137; 110; 87; 70; 56; 45; 36; 29; 23; 18; 15].

(** The index is in range after the clamp, so the panic of an index out of range
    is the 0 that never occurs. *)
Definition nice_to_weight (nice : Z) : Z :=
  let clamped := clamp nice nice_MIN nice_MAX in
  let index := clamped - nice_MIN in
  default 0 (PRIO_TO_WEIGHT !! Z.to_nat index).

(** ** The control block *)
Definition STACK_SIZE : Z := 16384.

Record Task := mkTask {
  id : Z; name : string; sched_class : SchedulingClass; nice : Z; rt_priority : Z;
  weight : Z; vruntime : Z; context : Z; state : TaskState; stack : Z }.

Definition set_state (st : TaskState) (t : Task) : Task :=
  mkTask (id t) (name t) (sched_class t) (nice t) (rt_priority t) (weight t) (vruntime t) (context t) st (stack t).
Definition set_vruntime (v : Z) (t : Task) : Task :=
  mkTask (id t) (name t) (sched_class t) (nice t) (rt_priority t) (weight t) v (context t) (state t) (stack t).

(** [TaskStack::top] of a stack at [base]. *)
Definition TaskStack_top (base : Z) : option Z :=
  physical_top ← cadd 64 base STACK_SIZE;
  if KERNEL_VIRTUAL_BASE <=? physical_top then Some physical_top
  else cadd 64 KERNEL_VIRTUAL_BASE physical_top.

(** ** Constructors *)
(** The counter of [TaskId::new] and the memory the stacks live in. *)
Record tstate := mkT { NEXT_ID : Z; stacks : cmem }.

Definition TaskId_new : M tstate Z :=
  i ← gets NEXT_ID; modify (λ s, mkT (wrap 64 (i + 1)) (stacks s)) ;; mret i.
Definition on_stacks {A} (m : M cmem A) : M tstate A := zoom stacks (λ x s, mkT (NEXT_ID s) x) m.

(** [Box::new(TaskStack::new())]: a zeroed stack at the address [base] the
    allocator answered, and its context. *)
Definition new_stack (entry_point base : Z) : M tstate (result Z TaskError) :=
  on_stacks (store_words base (replicate (Z.to_nat (STACK_SIZE / 8)) 0)) ;;
  stack_top ← lift (TaskStack_top base);
  on_stacks (Context_new entry_point stack_top).

Definition Task_new (nm : string) (nice_ entry_point base : Z) : M tstate (result Task TaskError) :=
  ctx ←? new_stack entry_point base;
  let clamped_nice := clamp nice_ nice_MIN nice_MAX in
  i ← TaskId_new;
  mret (Ok (mkTask i nm Normal clamped_nice 0 (nice_to_weight clamped_nice) 0 ctx Ready base)).

Definition Task_new_realtime (nm : string) (rt entry_point base : Z) : M tstate (result Task TaskError) :=
  if rt <? rt_MIN then mret (Err InvalidPriority) else
  ctx ←? new_stack entry_point base;
  i ← TaskId_new;
  mret (Ok (mkTask i nm Realtime 0 (Z.min rt rt_MAX) 0 0 ctx Ready base)).

Definition Task_new_idle (nm : string) (entry_point base : Z) : M tstate (result Task TaskError) :=
  ctx ←? new_stack entry_point base;
  i ← TaskId_new;
  mret (Ok (mkTask i nm Idle nice_MAX 0 (nice_to_weight nice_MAX) 0 ctx Ready base)).

(** ** Virtual run time *)
Definition BASE_WEIGHT : Z := 1024.

Definition update_vruntime (delta : Z) (t : Task) : option Task :=
  if weight t =? 0 then Some t else
  p ← cmul 64 delta BASE_WEIGHT;
  let increment := p / weight t in
  Some (set_vruntime (saturating_add 64 (vruntime t) increment) t).

(** ** Lemmas *)
(** What the three constructors make of a stack at [base]: the next identifier,
    a ready task, a context on the stack that resumes at the entry point, and
    nothing written outside the stack. *)
Record made (s : tstate) (entry_point base : Z) (nm : string) (t : Task) (s' : tstate) : Prop := {
  made_id : id t = NEXT_ID s ∧ NEXT_ID s' = wrap 64 (NEXT_ID s + 1);
  made_name : name t = nm ∧ stack t = base;
  made_ready : state t = Ready ∧ vruntime t = 0 ∧ rt_priority t ≤ rt_MAX;
  made_context : base ≤ context t ∧
    frame_at (stacks s') (context t) (base + STACK_SIZE - 64) (first_cpu entry_point (base + STACK_SIZE));
  made_outside : ∀ a, ¬ base ≤ a < base + STACK_SIZE → stacks s' !! a = stacks s !! a;
}.

(** A stack the heap can answer: in the upper half, 16-byte aligned. *)
Definition stack_ok (base : Z) : Prop :=
  KERNEL_VIRTUAL_BASE ≤ base ∧ base + STACK_SIZE < 2 ^ 64 ∧ (16 | base).

Section task.
Implicit Types (s : tstate) (t : Task).

Lemma wp_on_stacks {A} (m : M cmem A) Q s :
  wp m (λ a x, Q a (mkT (NEXT_ID s) x)) (stacks s) → wp (on_stacks m) Q s.
Proof. intros. by apply wp_zoom. Qed.

Lemma TaskStack_top_ok base : stack_ok base → TaskStack_top base = Some (base + STACK_SIZE).
Proof.
  intros (Hk & Hb & _). unfold TaskStack_top. rewrite cadd_some by done. simpl.
  by rewrite (proj2 (Z.leb_le _ _)) by (unfold STACK_SIZE; lia).
Qed.

Lemma new_stack_spec entry base s Q : stack_ok base → entry ≠ 0 →
  (∀ sp m, base ≤ sp → frame_at m sp (base + STACK_SIZE - 64) (first_cpu entry (base + STACK_SIZE)) →
     (∀ a, ¬ base ≤ a < base + STACK_SIZE → m !! a = stacks s !! a) → sp + 512 ≤ base + STACK_SIZE - 64 → Q (Ok sp) (mkT (NEXT_ID s) m)) →
  wp (new_stack entry base) Q s.
Proof.
  intros Hok He HQ. pose proof Hok as (Hk & Hb & Hd). pose proof (divide_8_16 _ Hd) as Hd8. unfold new_stack. wp_step.
  apply wp_on_stacks, wp_store_words; [done|]. wp_step. wp_step; [by apply TaskStack_top_ok|].
  apply wp_on_stacks. cbn [stacks NEXT_ID].
  eapply wp_mono; [apply Context_new_spec; [done|unfold STACK_SIZE, KERNEL_VIRTUAL_BASE in *; lia|]|].
  { apply Z.divide_add_r; [done|]. by exists 2048. }
  intros r m' (-> & Hf & Hout). pose proof (frame_sp_bound (base + STACK_SIZE - 64)) as Hsp.
  apply HQ; [unfold STACK_SIZE in *; lia|done| |lia]. intros a Ha.
  rewrite Hout by (unfold STACK_SIZE in *; lia). apply write_list_out. rewrite length_replicate.
  unfold STACK_SIZE in *. change (16384 / 8) with 2048. intros i Hi. lia.
Qed.

Lemma new_stack_no_entry base s Q : stack_ok base →
  (∀ m, Q (Err ContextInitFailed) (mkT (NEXT_ID s) m)) → wp (new_stack 0 base) Q s.
Proof.
  intros Hok HQ. pose proof Hok as (Hk & Hb & Hd). pose proof (divide_8_16 _ Hd) as Hd8. unfold new_stack. wp_step.
  apply wp_on_stacks, wp_store_words; [done|]. wp_step. wp_step; [by apply TaskStack_top_ok|].
  apply wp_on_stacks. unfold Context_new. rewrite (proj2 (Z.eqb_neq (base + STACK_SIZE) 0)) by (unfold STACK_SIZE, KERNEL_VIRTUAL_BASE in *; lia).
  apply HQ.
Qed.

(** The tail the constructors share: an identifier, then the control block. *)
Lemma wp_TaskId_new s Q : Q (NEXT_ID s) (mkT (wrap 64 (NEXT_ID s + 1)) (stacks s)) → wp TaskId_new Q s.
Proof. intros HQ. unfold TaskId_new. wp_step. wp_step. wp_step. wp_step. by wp_step. Qed.

Lemma made_intro s entry base nm sp m t : base ≤ sp → frame_at m sp (base + STACK_SIZE - 64) (first_cpu entry (base + STACK_SIZE)) →
  (∀ a, ¬ base ≤ a < base + STACK_SIZE → m !! a = stacks s !! a) →
  id t = NEXT_ID s → name t = nm → stack t = base → state t = Ready → vruntime t = 0 → rt_priority t ≤ rt_MAX → context t = sp →
  made s entry base nm t (mkT (wrap 64 (NEXT_ID s + 1)) m).
Proof. intros ? ? ? ? ? ? ? ? ? <-. by split. Qed.

Lemma Task_new_spec nm n entry base s : stack_ok base → entry ≠ 0 →
  wp (Task_new nm n entry base) (λ r s', ∃ t, r = Ok t ∧ made s entry base nm t s' ∧
    sched_class t = Normal ∧ nice t = clamp n nice_MIN nice_MAX ∧ weight t = nice_to_weight n) s.
Proof.
  intros Hok He. unfold Task_new. apply wp_try_bind, new_stack_spec; [done|done|]. intros sp m Hsp Hf Hout _.
  wp_step. apply wp_TaskId_new. cbn [NEXT_ID stacks]. wp_step. eexists. split; [done|]. split.
  - eapply made_intro; [exact Hsp|exact Hf|exact Hout|done..].
  - split; [done|]. split; [done|]. simpl. unfold nice_to_weight, clamp, nice_MIN, nice_MAX. do 3 f_equal. lia.
Qed.

Lemma Task_new_realtime_spec nm rt entry base s : stack_ok base → entry ≠ 0 → rt_MIN ≤ rt →
  wp (Task_new_realtime nm rt entry base) (λ r s', ∃ t, r = Ok t ∧ made s entry base nm t s' ∧
    sched_class t = Realtime ∧ rt_priority t = Z.min rt rt_MAX) s.
Proof.
  intros Hok He Hrt. unfold Task_new_realtime. rewrite (proj2 (Z.ltb_ge _ _)) by done.
  apply wp_try_bind, new_stack_spec; [done|done|]. intros sp m Hsp Hf Hout _.
  wp_step. apply wp_TaskId_new. cbn [NEXT_ID stacks]. wp_step. eexists. split; [done|]. split; [|done].
  eapply made_intro; [exact Hsp|exact Hf|exact Hout|try done..]. simpl. lia.
Qed.

Lemma Task_new_idle_spec nm entry base s : stack_ok base → entry ≠ 0 →
  wp (Task_new_idle nm entry base) (λ r s', ∃ t, r = Ok t ∧ made s entry base nm t s' ∧ sched_class t = Idle ∧ nice t = nice_MAX) s.
Proof.
  intros Hok He. unfold Task_new_idle. apply wp_try_bind, new_stack_spec; [done|done|]. intros sp m Hsp Hf Hout _.
  wp_step. apply wp_TaskId_new. cbn [NEXT_ID stacks]. wp_step. eexists. split; [done|]. split; [|done].
  eapply made_intro; [exact Hsp|exact Hf|exact Hout|done..].
Qed.

(** ** Weights *)
(** The table is antitone, as a check on neighbours. *)
Lemma weights_sorted : forallb (λ i, bool_decide (default 0 (PRIO_TO_WEIGHT !! S i) ≤ default 0 (PRIO_TO_WEIGHT !! i))) (seq 0 39) = true.
Proof. vm_compute. reflexivity. Qed.

Lemma weight_index_antitone i j : (i ≤ j < 40)%nat → default 0 (PRIO_TO_WEIGHT !! j) ≤ default 0 (PRIO_TO_WEIGHT !! i).
Proof.
  intros [Hij Hj]. induction Hij as [|j Hij IH]; [done|]. transitivity (default 0 (PRIO_TO_WEIGHT !! j)); [|apply IH; lia].
  pose proof (proj1 (forallb_forall _ _) weights_sorted j ltac:(apply in_seq; lia)) as H.
  by apply bool_decide_eq_true in H.
Qed.

Lemma nice_to_weight_antitone n1 n2 : n1 ≤ n2 → nice_to_weight n2 ≤ nice_to_weight n1.
Proof. intros H. unfold nice_to_weight, clamp, nice_MIN, nice_MAX. apply weight_index_antitone. lia. Qed.

Lemma nice_to_weight_bounds n : 15 ≤ nice_to_weight n ≤ 88761.
Proof.
  split.
  - transitivity (nice_to_weight (Z.max n 19)); [|apply nice_to_weight_antitone; lia].
    unfold nice_to_weight, clamp, nice_MIN, nice_MAX. replace (Z.max (-20) (Z.max n 19 `min` 19)) with 19 by lia. reflexivity || by vm_compute.
  - transitivity (nice_to_weight (Z.min n (-20))); [apply nice_to_weight_antitone; lia|].
    unfold nice_to_weight, clamp, nice_MIN, nice_MAX. replace (Z.max (-20) (Z.min (Z.min n (-20)) 19)) with (-20) by lia. reflexivity || by vm_compute.
Qed.
End task.
