(* ===== verification/Sched.v ===== *)
(** * The scheduler ([kernel/src/sched/scheduler.rs] and [blocking.rs]).

    The global queues and flags are one record.  The spin locks of the source
    are taken with interrupts off on the only processor, so they never wait and
    leave no trace.  [schedule] answers the pair of contexts it switches
    between ([None] where it returns early); the switch itself is
    [Context.switch_context], and its effect on the interrupt flag (the task
    resumed has interrupts on) is the last line of [schedule]. *)
From S2P Require Import Prelude BTree Context Task.
Set Default Goal Selector "!".

Record sched := mkSched {
  NEED_RESCHED : bool;
  ACCUMULATED_RUNTIME : Z;
  RT_QUEUE : list (Z * Z * Task);
  CFS_QUEUE : list (Z * Z * Task);
  IDLE_QUEUE : list Task;
  CURRENT_TASK : option Task;
  BLOCKED_TASKS : gmap Z Task;
  WAKEUP_PENDING : gset Z;
  NEXT_TASK_ID : Z;
  IF_flag : bool }.

Definition sched_new (next_id : Z) (if_flag : bool) : sched :=
  mkSched false 0 [] [] [] None ∅ ∅ next_id if_flag.

(** ** Fields *)
Definition set_need (v : bool) (s : sched) : sched :=
  mkSched v (ACCUMULATED_RUNTIME s) (RT_QUEUE s) (CFS_QUEUE s) (IDLE_QUEUE s) (CURRENT_TASK s) (BLOCKED_TASKS s) (WAKEUP_PENDING s) (NEXT_TASK_ID s) (IF_flag s).
Definition set_runtime (v : Z) (s : sched) : sched :=
  mkSched (NEED_RESCHED s) v (RT_QUEUE s) (CFS_QUEUE s) (IDLE_QUEUE s) (CURRENT_TASK s) (BLOCKED_TASKS s) (WAKEUP_PENDING s) (NEXT_TASK_ID s) (IF_flag s).
Definition set_rt (v : list (Z * Z * Task)) (s : sched) : sched :=
  mkSched (NEED_RESCHED s) (ACCUMULATED_RUNTIME s) v (CFS_QUEUE s) (IDLE_QUEUE s) (CURRENT_TASK s) (BLOCKED_TASKS s) (WAKEUP_PENDING s) (NEXT_TASK_ID s) (IF_flag s).
Definition set_cfs (v : list (Z * Z * Task)) (s : sched) : sched :=
  mkSched (NEED_RESCHED s) (ACCUMULATED_RUNTIME s) (RT_QUEUE s) v (IDLE_QUEUE s) (CURRENT_TASK s) (BLOCKED_TASKS s) (WAKEUP_PENDING s) (NEXT_TASK_ID s) (IF_flag s).
Definition set_idle (v : list Task) (s : sched) : sched :=
  mkSched (NEED_RESCHED s) (ACCUMULATED_RUNTIME s) (RT_QUEUE s) (CFS_QUEUE s) v (CURRENT_TASK s) (BLOCKED_TASKS s) (WAKEUP_PENDING s) (NEXT_TASK_ID s) (IF_flag s).
Definition set_current (v : option Task) (s : sched) : sched :=
  mkSched (NEED_RESCHED s) (ACCUMULATED_RUNTIME s) (RT_QUEUE s) (CFS_QUEUE s) (IDLE_QUEUE s) v (BLOCKED_TASKS s) (WAKEUP_PENDING s) (NEXT_TASK_ID s) (IF_flag s).
Definition set_blocked (v : gmap Z Task) (s : sched) : sched :=
  mkSched (NEED_RESCHED s) (ACCUMULATED_RUNTIME s) (RT_QUEUE s) (CFS_QUEUE s) (IDLE_QUEUE s) (CURRENT_TASK s) v (WAKEUP_PENDING s) (NEXT_TASK_ID s) (IF_flag s).
Definition set_pending (v : gset Z) (s : sched) : sched :=
  mkSched (NEED_RESCHED s) (ACCUMULATED_RUNTIME s) (RT_QUEUE s) (CFS_QUEUE s) (IDLE_QUEUE s) (CURRENT_TASK s) (BLOCKED_TASKS s) v (NEXT_TASK_ID s) (IF_flag s).
Definition set_next_id (v : Z) (s : sched) : sched :=
  mkSched (NEED_RESCHED s) (ACCUMULATED_RUNTIME s) (RT_QUEUE s) (CFS_QUEUE s) (IDLE_QUEUE s) (CURRENT_TASK s) (BLOCKED_TASKS s) (WAKEUP_PENDING s) v (IF_flag s).
Definition set_if (v : bool) (s : sched) : sched :=
  mkSched (NEED_RESCHED s) (ACCUMULATED_RUNTIME s) (RT_QUEUE s) (CFS_QUEUE s) (IDLE_QUEUE s) (CURRENT_TASK s) (BLOCKED_TASKS s) (WAKEUP_PENDING s) (NEXT_TASK_ID s) v.

(** [cli], [sti] and [io::without_interrupts]. *)
Definition cli : M sched unit := modify (set_if false).
Definition sti : M sched unit := modify (set_if true).
Definition without_interrupts {A} (f : M sched A) : M sched A :=
  saved ← gets IF_flag;
  cli ;;
  r ← f;
  (if saved : bool then sti else mret tt) ;;
  mret r.
(** [blocking::is_interrupt_context]. *)
Definition is_interrupt_context : M sched bool := i ← gets IF_flag; mret (negb i).

(** ** Queues *)
Definition enqueue_task_impl (task : Task) : M sched unit :=
  match sched_class task with
  | Realtime =>
      p ← lift (csub rt_MAX (rt_priority task));
      modify (λ s, set_rt (bt_insert (p, id task) task (RT_QUEUE s)) s)
  | Normal => modify (λ s, set_cfs (bt_insert (vruntime task, id task) task (CFS_QUEUE s)) s)
  | Idle => modify (λ s, set_idle (IDLE_QUEUE s ++ [task]) s)
  end.
Definition enqueue_task_single (task : Task) : M sched unit := enqueue_task_impl task.
Definition enqueue_to_appropriate_queue (task : Task) (_sched_class : SchedulingClass) : M sched unit :=
  enqueue_task_impl task.

(** [try_add_task] has its own copy of the dispatch. *)
Definition try_add_task (task : Task) : M sched (result unit TaskError) :=
  let task_id := id task in
  let class := sched_class task in
  without_interrupts
    match class with
    | Realtime =>
        p ← lift (csub rt_MAX (rt_priority task));
        modify (λ s, set_rt (bt_insert (p, task_id) task (RT_QUEUE s)) s)
    | Normal => modify (λ s, set_cfs (bt_insert (vruntime task, task_id) task (CFS_QUEUE s)) s)
    | Idle => modify (λ s, set_idle (IDLE_QUEUE s ++ [task]) s)
    end ;;
  mret (Ok tt).
(** [expect] panics on an error. *)
Definition add_task (task : Task) : M sched unit :=
  r ← try_add_task task; match r with Ok _ => mret tt | Err _ => panic end.

Definition set_current_task (task : Task) : M sched unit :=
  without_interrupts (modify (set_current (Some task))).

Definition update_current_task_vruntime (delta : Z) : M sched unit :=
  modify (λ s, set_runtime (wrap 64 (ACCUMULATED_RUNTIME s + delta)) s).
Definition set_need_resched : M sched unit := modify (set_need true).

Definition current_task_id : M sched Z :=
  without_interrupts (
    current ← gets CURRENT_TASK;
    match current with
    | Some t => mret (id t)
    | None => i ← gets NEXT_TASK_ID; modify (set_next_id (wrap 64 (i + 1))) ;; mret i
    end).

(** ** The scheduler proper *)
(** Phase 1: real-time before normal before idle. *)
Definition pick_next : M sched (option Task) :=
  rt_queue ← gets RT_QUEUE;
  match bt_pop_first rt_queue with
  | Some (entry, rest) => modify (set_rt rest) ;; mret (Some entry.2)
  | None =>
      cfs_queue ← gets CFS_QUEUE;
      match bt_pop_first cfs_queue with
      | Some (entry, rest) => modify (set_cfs rest) ;; mret (Some entry.2)
      | None =>
          idle_queue ← gets IDLE_QUEUE;
          match idle_queue with
          | task :: rest => modify (set_idle rest) ;; mret (Some task)
          | [] => mret None
          end
      end
  end.

(** The old task's run time and state. *)
Definition charge_old_task (old_task : Task) : M sched Task :=
  accumulated ← gets ACCUMULATED_RUNTIME;
  modify (set_runtime 0) ;;
  old_task ← (if decide (sched_class old_task = Normal) then
                let delta := if 0 <? accumulated then accumulated else 1 in
                lift (update_vruntime delta old_task)
              else mret old_task);
  mret (if decide (state old_task = Running) then set_state Ready old_task else old_task).

(** Phase 3: where the old task goes. *)
Definition put_old_task (old_task : Task) : M sched unit :=
  match state old_task with
  | Terminated => mret tt
  | Blocked =>
      let task_id := id old_task in
      wakeup_pending ← gets WAKEUP_PENDING;
      if decide (task_id ∈ wakeup_pending) then
        modify (set_pending (wakeup_pending ∖ {[task_id]})) ;;
        enqueue_task_single (set_state Ready old_task)
      else
        modify (λ s, set_blocked (<[task_id := old_task]> (BLOCKED_TASKS s)) s)
  | _ => enqueue_task_single old_task
  end.

Inductive ctx_ptr := DUMMY_CONTEXT | task_context (task_id : Z).

Definition schedule : M sched (option (ctx_ptr * ctx_ptr)) :=
  cli ;;
  next_task ← pick_next;
  match next_task with
  | None => sti ;; mret None
  | Some next_task =>
      let next_task := set_state Running next_task in
      let new_context_ptr := task_context (id next_task) in
      current ← gets CURRENT_TASK;
      old_context_ptr ←
        match current with
        | Some old_task =>
            old_task ← charge_old_task old_task;
            modify (set_current (Some next_task)) ;;
            put_old_task old_task ;;
            mret (task_context (id old_task))
        | None =>
            modify (set_current (Some next_task)) ;; mret DUMMY_CONTEXT
        end;
      sti ;;
      mret (Some (old_context_ptr, new_context_ptr))
  end.

Definition yield_now : M sched (option (ctx_ptr * ctx_ptr)) := schedule.

(** ** Blocking *)
(** The critical section of [block_current_task]: does the task have to block? *)
Definition mark_blocked : M sched bool :=
  without_interrupts (
    wakeup_pending ← gets WAKEUP_PENDING;
    current ← gets CURRENT_TASK;
    match current with
    | Some task =>
        if decide (id task ∈ wakeup_pending) then
          modify (set_pending (wakeup_pending ∖ {[id task]})) ;; mret false
        else
          modify (set_current (Some (set_state Blocked task))) ;; mret true
    | None => mret false
    end).

Definition block_current_task : M sched (option (ctx_ptr * ctx_ptr)) :=
  should_block ← mark_blocked;
  if should_block : bool then schedule else mret None.

Definition unblock_task (task_id : Z) : M sched unit :=
  without_interrupts (
    blocked_tasks ← gets BLOCKED_TASKS;
    match blocked_tasks !! task_id with
    | Some task =>
        modify (set_blocked (delete task_id blocked_tasks)) ;;
        let task := set_state Ready task in
        enqueue_to_appropriate_queue task (sched_class task)
    | None =>
        modify (λ s, set_pending ({[task_id]} ∪ WAKEUP_PENDING s) s)
    end).
