(* ===== verification/SchedSpec.v ===== *)
(** * The scheduler: its invariant and the operations against it.

    Every task is in exactly one place (a queue, the current slot, the blocked
    map); queues hold ready tasks under the keys their priorities give; a
    wake-up is never pending for a task in the blocked map. *)
From S2P Require Import Prelude BTree Context Task Sched.
From Stdlib Require Import Sorting.Sorted.
Set Default Goal Selector "!".

Definition queued (s : sched) : list Task := (RT_QUEUE s).*2 ++ (CFS_QUEUE s).*2 ++ IDLE_QUEUE s.
Definition parked (s : sched) : list Task := (map_to_list (BLOCKED_TASKS s)).*2.
Definition all_tasks (s : sched) : list Task := queued s ++ option_list (CURRENT_TASK s) ++ parked s.
Definition ids (s : sched) : list Z := id <$> all_tasks s.

Definition task_ok (t : Task) : Prop := rt_priority t ≤ rt_MAX.

Record sched_inv (s : sched) : Prop := {
  si_rt_sorted : bt_sorted (RT_QUEUE s);
  si_rt : ∀ k t, (k, t) ∈ RT_QUEUE s →
    k = (rt_MAX - rt_priority t, id t) ∧ sched_class t = Realtime ∧ state t = Ready ∧ task_ok t;
  si_cfs_sorted : bt_sorted (CFS_QUEUE s);
  si_cfs : ∀ k t, (k, t) ∈ CFS_QUEUE s →
    k = (vruntime t, id t) ∧ sched_class t = Normal ∧ state t = Ready ∧ task_ok t;
  si_idle : ∀ t, t ∈ IDLE_QUEUE s → sched_class t = Idle ∧ state t = Ready ∧ task_ok t;
  si_current : ∀ t, CURRENT_TASK s = Some t → state t ≠ Terminated ∧ task_ok t;
  si_blocked : ∀ k t, BLOCKED_TASKS s !! k = Some t → k = id t ∧ state t = Blocked ∧ task_ok t;
  si_ids : NoDup (ids s);
  si_pending : ∀ i, i ∈ WAKEUP_PENDING s → BLOCKED_TASKS s !! i = None;
}.

(** The order in which ready tasks are chosen. *)
Definition rank (c : SchedulingClass) : Z := match c with Realtime => 2 | Normal => 1 | Idle => 0 end.
Definition before (t u : Task) : Prop :=
  rank (sched_class u) < rank (sched_class t) ∨
  (sched_class u = sched_class t ∧
   match sched_class t with
   | Realtime => rt_priority u < rt_priority t ∨ (rt_priority u = rt_priority t ∧ id t < id u)
   | Normal => vruntime t < vruntime u ∨ (vruntime t = vruntime u ∧ id t < id u)
   | Idle => True
   end).
Definition best (s : sched) (t : Task) : Prop := t ∈ queued s ∧ ∀ u, u ∈ queued s → u = t ∨ before t u.

Section sched.
Implicit Types (s : sched) (t u : Task).

(** ** Where tasks are *)
Lemma ids_split s : ids s = (id <$> queued s) ++ (id <$> option_list (CURRENT_TASK s)) ++ (id <$> parked s).
Proof. unfold ids, all_tasks. by rewrite !fmap_app. Qed.

Lemma queued_ready s t : sched_inv s → t ∈ queued s → state t = Ready ∧ task_ok t.
Proof.
  intros Hi. unfold queued. rewrite !elem_of_app, !list_elem_of_fmap.
  intros [([k t'] & -> & Hk)|[([k t'] & -> & Hk)|Hk]].
  - by destruct (si_rt _ Hi _ _ Hk) as (_ & _ & ?).
  - by destruct (si_cfs _ Hi _ _ Hk) as (_ & _ & ?).
  - by destruct (si_idle _ Hi _ Hk) as (_ & ?).
Qed.

Lemma parked_lookup s t : t ∈ parked s ↔ ∃ k, BLOCKED_TASKS s !! k = Some t.
Proof.
  unfold parked. rewrite list_elem_of_fmap. split.
  - intros ([k t'] & -> & Hk). apply elem_of_map_to_list in Hk. by exists k.
  - intros [k Hk]. exists (k, t). split; [done|]. by apply elem_of_map_to_list.
Qed.

(** ** Queues *)
Definition same_rest s s' : Prop :=
  CURRENT_TASK s' = CURRENT_TASK s ∧ BLOCKED_TASKS s' = BLOCKED_TASKS s ∧ WAKEUP_PENDING s' = WAKEUP_PENDING s ∧
  ACCUMULATED_RUNTIME s' = ACCUMULATED_RUNTIME s ∧ NEED_RESCHED s' = NEED_RESCHED s ∧
  NEXT_TASK_ID s' = NEXT_TASK_ID s ∧ IF_flag s' = IF_flag s.

(** Equal everywhere but in the queues: then the invariant is about the queues. *)
Lemma inv_queues s s' : sched_inv s → same_rest s s' →
  bt_sorted (RT_QUEUE s') → bt_sorted (CFS_QUEUE s') →
  (∀ k t, (k, t) ∈ RT_QUEUE s' → k = (rt_MAX - rt_priority t, id t) ∧ sched_class t = Realtime ∧ state t = Ready ∧ task_ok t) →
  (∀ k t, (k, t) ∈ CFS_QUEUE s' → k = (vruntime t, id t) ∧ sched_class t = Normal ∧ state t = Ready ∧ task_ok t) →
  (∀ t, t ∈ IDLE_QUEUE s' → sched_class t = Idle ∧ state t = Ready ∧ task_ok t) →
  NoDup (ids s') → sched_inv s'.
Proof.
  intros Hi (E1 & E2 & E3 & _) ? ? ? ? ? ?. split; try done.
  - rewrite E1. apply Hi.
  - rewrite E2. apply Hi.
  - rewrite E2, E3. apply Hi.
Qed.

Lemma ids_queues s s' l : same_rest s s' → queued s' ≡ₚ l ++ queued s → ids s' ≡ₚ (id <$> l) ++ ids s.
Proof.
  intros (E1 & E2 & _) Hq. rewrite !ids_split. unfold parked. rewrite E1, E2, Hq, fmap_app. by rewrite <-app_assoc.
Qed.

Lemma rt_key_fresh s t : sched_inv s → id t ∉ ids s → (rt_MAX - rt_priority t, id t) ∉ (RT_QUEUE s).*1.
Proof.
  intros Hi Hn [[k u] [Hk Hin]]%list_elem_of_fmap. simpl in Hk. subst k.
  destruct (si_rt _ Hi _ _ Hin) as ([= _ Hid] & _). apply Hn. unfold ids, all_tasks, queued.
  rewrite list_elem_of_fmap. exists u. split; [done|]. rewrite !elem_of_app. left. left.
  apply list_elem_of_fmap. by exists (rt_MAX - rt_priority t, id t, u).
Qed.

Lemma cfs_key_fresh s t : sched_inv s → id t ∉ ids s → (vruntime t, id t) ∉ (CFS_QUEUE s).*1.
Proof.
  intros Hi Hn [[k u] [Hk Hin]]%list_elem_of_fmap. simpl in Hk. subst k.
  destruct (si_cfs _ Hi _ _ Hin) as ([= _ Hid] & _). apply Hn. unfold ids, all_tasks, queued.
  rewrite list_elem_of_fmap. exists u. split; [done|]. rewrite !elem_of_app. left. right. left.
  apply list_elem_of_fmap. by exists (vruntime t, id t, u).
Qed.

(** Enqueueing a ready task that is nowhere else. *)
Lemma enqueue_spec s t Q : sched_inv s → id t ∉ ids s → state t = Ready → task_ok t →
  (∀ s', sched_inv s' → same_rest s s' → queued s' ≡ₚ t :: queued s → ids s' ≡ₚ id t :: ids s → Q tt s') →
  wp (enqueue_task_impl t) Q s.
Proof.
  intros Hi Hn Hst Hok HQ.
  assert (Hfin : ∀ s', same_rest s s' → queued s' ≡ₚ t :: queued s →
    (NoDup (ids s') → sched_inv s') → Q tt s').
  { intros s' Hsame Hq Hinv. pose proof (ids_queues s s' [t] Hsame Hq) as Hids. apply HQ; [|done|done|done].
    apply Hinv. rewrite Hids. simpl. rewrite list.NoDup_cons. split; [done|apply Hi]. }
  unfold enqueue_task_impl. destruct (sched_class t) eqn:Hc.
  - wp_step. wp_step; [by apply csub_some|]. wp_step. apply Hfin; [done| |].
    + unfold queued. simpl. rewrite (bt_insert_perm _ _ _ (rt_key_fresh s t Hi Hn)). done.
    + intros Hnd. apply (inv_queues s); [done|done| |apply Hi| |apply Hi|apply Hi|done]; simpl.
      * apply bt_insert_sorted, Hi.
      * intros k u [[= -> ->]|Hin]%bt_insert_elem; [done|by apply Hi].
  - wp_step. apply Hfin; [done| |].
    + unfold queued. simpl. rewrite (bt_insert_perm _ _ _ (cfs_key_fresh s t Hi Hn)). simpl.
      symmetry. apply Permutation_middle.
    + intros Hnd. apply (inv_queues s); [done|done|apply Hi| |apply Hi| |apply Hi|done]; simpl.
      * apply bt_insert_sorted, Hi.
      * intros k u [[= -> ->]|Hin]%bt_insert_elem; [done|by apply Hi].
  - wp_step. apply Hfin; [done| |].
    + unfold queued. simpl. rewrite !app_assoc. symmetry. apply Permutation_cons_append.
    + intros Hnd. apply (inv_queues s); [done|done|apply Hi|apply Hi|apply Hi|apply Hi| |done]; simpl.
      intros u. rewrite elem_of_app, elem_of_cons, elem_of_nil. intros [Hu|[->|[]]]; [by apply Hi|done].
Qed.

(** Taking a task off the queues. *)
Lemma dequeue_inv s s' t : sched_inv s → same_rest s s' → queued s ≡ₚ t :: queued s' →
  (RT_QUEUE s' = RT_QUEUE s ∨ ∃ x, RT_QUEUE s = x :: RT_QUEUE s') →
  (CFS_QUEUE s' = CFS_QUEUE s ∨ ∃ x, CFS_QUEUE s = x :: CFS_QUEUE s') →
  (IDLE_QUEUE s' = IDLE_QUEUE s ∨ ∃ x, IDLE_QUEUE s = x :: IDLE_QUEUE s') →
  sched_inv s' ∧ ids s ≡ₚ id t :: ids s' ∧ id t ∉ ids s'.
Proof.
  intros Hi Hsame Hq Hrt Hcfs Hidle.
  assert (Hids : ids s ≡ₚ id t :: ids s').
  { destruct Hsame as (E1 & E2 & _). rewrite !ids_split. unfold parked. by rewrite E1, E2, Hq. }
  pose proof (si_ids _ Hi) as Hnd. rewrite Hids, list.NoDup_cons in Hnd. destruct Hnd as [Hn Hnd].
  split; [|done]. apply (inv_queues s); [done|done|..].
  - destruct Hrt as [->|[x Hx]]; [apply Hi|]. pose proof (si_rt_sorted _ Hi) as Hs. unfold bt_sorted in *. rewrite Hx in Hs. by inversion Hs.
  - destruct Hcfs as [->|[x Hx]]; [apply Hi|]. pose proof (si_cfs_sorted _ Hi) as Hs. unfold bt_sorted in *. rewrite Hx in Hs. by inversion Hs.
  - intros k u Hu. apply Hi. destruct Hrt as [<-|[x ->]]; [done|by right].
  - intros k u Hu. apply Hi. destruct Hcfs as [<-|[x ->]]; [done|by right].
  - intros u Hu. apply Hi. destruct Hidle as [<-|[x ->]]; [done|by right].
  - done.
Qed.

Lemma best_rt s k t rest : sched_inv s → RT_QUEUE s = (k, t) :: rest → best s t.
Proof.
  intros Hi Hq. split.
  - unfold queued. rewrite Hq. simpl. by left.
  - intros u. unfold queued. rewrite !elem_of_app, !list_elem_of_fmap.
    assert (Ht : (k, t) ∈ RT_QUEUE s) by (rewrite Hq; by left).
    destruct (si_rt _ Hi _ _ Ht) as (-> & Hc & _).
    intros [([k' u'] & -> & Hu)|[([k' u'] & -> & Hu)|Hu]].
    + destruct (si_rt _ Hi _ _ Hu) as (-> & Hc' & _). simpl.
      rewrite Hq, elem_of_cons in Hu. destruct Hu as [[= _ _ ->]|Hu]; [by left|right].
      pose proof (si_rt_sorted _ Hi) as Hs. rewrite Hq in Hs.
      destruct (bt_pop_least _ _ _ Hs eq_refl) as (_ & _ & Hleast). specialize (Hleast _ Hu). simpl in Hleast.
      right. split; [congruence|]. rewrite Hc. unfold pair_lt in Hleast. simpl in Hleast. lia.
    + destruct (si_cfs _ Hi _ _ Hu) as (_ & Hc' & _). right. left. simpl. rewrite Hc, Hc'. simpl. lia.
    + destruct (si_idle _ Hi _ Hu) as (Hc' & _). right. left. rewrite Hc, Hc'. simpl. lia.
Qed.

Lemma best_cfs s k t rest : sched_inv s → RT_QUEUE s = [] → CFS_QUEUE s = (k, t) :: rest → best s t.
Proof.
  intros Hi Hr Hq. split.
  - unfold queued. rewrite Hr, Hq. simpl. by left.
  - intros u. unfold queued. rewrite Hr, !elem_of_app, !list_elem_of_fmap.
    assert (Ht : (k, t) ∈ CFS_QUEUE s) by (rewrite Hq; by left).
    destruct (si_cfs _ Hi _ _ Ht) as (-> & Hc & _).
    intros [([k' u'] & -> & Hu)|[([k' u'] & -> & Hu)|Hu]].
    + by apply not_elem_of_nil in Hu.
    + destruct (si_cfs _ Hi _ _ Hu) as (-> & Hc' & _). simpl.
      rewrite Hq, elem_of_cons in Hu. destruct Hu as [[= _ _ ->]|Hu]; [by left|right].
      pose proof (si_cfs_sorted _ Hi) as Hs. rewrite Hq in Hs.
      destruct (bt_pop_least _ _ _ Hs eq_refl) as (_ & _ & Hleast). specialize (Hleast _ Hu). simpl in Hleast.
      right. split; [congruence|]. rewrite Hc. unfold pair_lt in Hleast. simpl in Hleast. lia.
    + destruct (si_idle _ Hi _ Hu) as (Hc' & _). right. left. rewrite Hc, Hc'. simpl. lia.
Qed.

Lemma best_idle s t rest : sched_inv s → RT_QUEUE s = [] → CFS_QUEUE s = [] → IDLE_QUEUE s = t :: rest → best s t.
Proof.
  intros Hi Hr Hc Hq. unfold best, queued. rewrite Hr, Hc, Hq. simpl. split; [by left|].
  assert (Ht : t ∈ IDLE_QUEUE s) by (rewrite Hq; by left). destruct (si_idle _ Hi _ Ht) as (Hct & _).
  intros u Hu. right. right. assert (Hu' : u ∈ IDLE_QUEUE s) by (by rewrite Hq).
  destruct (si_idle _ Hi _ Hu') as (Hcu & _). rewrite Hct, Hcu. done.
Qed.

(** Phase 1 takes the best ready task, if there is any. *)
Lemma pick_next_spec s Q : sched_inv s →
  (queued s = [] → Q None s) →
  (∀ t s', best s t → sched_inv s' → same_rest s s' → queued s ≡ₚ t :: queued s' → ids s ≡ₚ id t :: ids s' →
     id t ∉ ids s' → Q (Some t) s') →
  wp pick_next Q s.
Proof.
  intros Hi Hnone Hsome. unfold pick_next. wp_step. wp_step.
  destruct (RT_QUEUE s) as [|[k t] rest] eqn:Hrt; cbn [bt_pop_first].
  - wp_step. wp_step. destruct (CFS_QUEUE s) as [|[k t] rest] eqn:Hcfs; cbn [bt_pop_first].
    + wp_step. wp_step. destruct (IDLE_QUEUE s) as [|t rest] eqn:Hidle.
      * wp_step. apply Hnone. unfold queued. by rewrite Hrt, Hcfs, Hidle.
      * wp_step. wp_step. wp_step.
        assert (Hperm : queued s ≡ₚ t :: queued (set_idle rest s)).
        { unfold queued. simpl. by rewrite Hrt, Hcfs, Hidle. }
        edestruct (dequeue_inv s (set_idle rest s) t) as (H1 & H2 & H3); [done|done|done|by left|by left|right; by exists t|].
        apply Hsome; [by eapply best_idle|done|done|done|done|done].
    + wp_step. wp_step. wp_step.
      assert (Hperm : queued s ≡ₚ t :: queued (set_cfs rest s)).
      { unfold queued. simpl. by rewrite Hrt, Hcfs. }
      edestruct (dequeue_inv s (set_cfs rest s) t) as (H1 & H2 & H3); [done|done|done|by left|right; by exists (k, t)|by left|].
      apply Hsome; [by eapply best_cfs|done|done|done|done|done].
  - wp_step. wp_step. wp_step.
    assert (Hperm : queued s ≡ₚ t :: queued (set_rt rest s)).
    { unfold queued. simpl. by rewrite Hrt. }
    edestruct (dequeue_inv s (set_rt rest s) t) as (H1 & H2 & H3); [done|done|done|right; by exists (k, t)|by left|by left|].
    apply Hsome; [by eapply best_rt|done|done|done|done|done].
Qed.
End sched.
