(* ===== verification/SchedThms.v ===== *)
(** * The scheduler's operations against the invariant.

    What each operation of [Sched] does, for every state that satisfies the
    invariant: the queues, the current task, the blocked map and the pending
    wake-ups after it. *)
From S2P Require Import Prelude BTree Context Task Sched SchedSpec.
Set Default Goal Selector "!".

(** The old task after its run time is charged. *)
Definition charge (accumulated : Z) (t : Task) : Task :=
  if decide (sched_class t = Normal ∧ weight t ≠ 0) then
    set_vruntime (saturating_add 64 (vruntime t) (Z.max 1 accumulated * BASE_WEIGHT / weight t)) t
  else t.

(** Where phase 3 leaves the task that was current: it is parked if it is
    blocked and no wake-up is pending, and queued as ready otherwise. *)
Definition placed (s : sched) (rest : list Task) (o : Task) (s' : sched) : Prop :=
  let o' := charge (ACCUMULATED_RUNTIME s) o in
  if decide (state o = Blocked ∧ id o ∉ WAKEUP_PENDING s) then
    queued s' ≡ₚ rest ∧ BLOCKED_TASKS s' = <[id o := o']> (BLOCKED_TASKS s) ∧ WAKEUP_PENDING s' = WAKEUP_PENDING s
  else
    queued s' ≡ₚ set_state Ready o' :: rest ∧ BLOCKED_TASKS s' = BLOCKED_TASKS s ∧
    WAKEUP_PENDING s' = (if decide (state o = Blocked) then WAKEUP_PENDING s ∖ {[id o]} else WAKEUP_PENDING s).

(** What a call of [schedule] does when it picks [t]. *)
Definition switched (s : sched) (t : Task) (r : option (ctx_ptr * ctx_ptr)) (s' : sched) : Prop :=
  ∃ rest, best s t ∧ queued s ≡ₚ t :: rest ∧ CURRENT_TASK s' = Some (set_state Running t) ∧
  match CURRENT_TASK s with
  | None =>
      r = Some (DUMMY_CONTEXT, task_context (id t)) ∧ queued s' ≡ₚ rest ∧
      BLOCKED_TASKS s' = BLOCKED_TASKS s ∧ WAKEUP_PENDING s' = WAKEUP_PENDING s
  | Some o => r = Some (task_context (id o), task_context (id t)) ∧ placed s rest o s'
  end.

(** The old task as phase 3 finds it. *)
Definition stopped (accumulated : Z) (o : Task) : Task :=
  if decide (state o = Running) then set_state Ready (charge accumulated o) else charge accumulated o.

(** The run time charged to the current task fits the multiplication by the base weight. *)
Definition charge_fits (s : sched) : Prop :=
  ∀ o, CURRENT_TASK s = Some o → sched_class o = Normal → weight o ≠ 0 → ACCUMULATED_RUNTIME s * BASE_WEIGHT < 2 ^ 64.

Section sched_thms.
Implicit Types (s : sched) (t u o : Task).

Lemma charge_id a t : id (charge a t) = id t.
Proof. unfold charge. by case_decide. Qed.
Lemma charge_state a t : state (charge a t) = state t.
Proof. unfold charge. by case_decide. Qed.
Lemma charge_ok a t : task_ok t → task_ok (charge a t).
Proof. unfold charge, task_ok. by case_decide. Qed.

Lemma update_vruntime_some a t : 0 ≤ a → (weight t ≠ 0 → a * BASE_WEIGHT < 2 ^ 64) → sched_class t = Normal →
  update_vruntime (if 0 <? a then a else 1) t = Some (charge a t).
Proof.
  intros Ha Hb Hc. unfold update_vruntime, charge. destruct (Z.eqb_spec (weight t) 0) as [He|Hne].
  - rewrite decide_False; [done|]. by intros [_ ?].
  - assert (Hd : (if 0 <? a then a else 1) = Z.max 1 a) by (destruct (Z.ltb_spec 0 a); lia).
    specialize (Hb Hne). rewrite Hd, cmul_some; [|unfold BASE_WEIGHT in *; lia]. rewrite decide_True by done. done.
Qed.

Lemma stopped_id a o : id (stopped a o) = id o.
Proof. unfold stopped. case_decide; exact (charge_id a o). Qed.
Lemma stopped_ok a o : task_ok o → task_ok (stopped a o).
Proof. unfold stopped. intros. case_decide; by apply (charge_ok a o). Qed.
Lemma stopped_ready a o : set_state Ready (stopped a o) = set_state Ready (charge a o).
Proof. unfold stopped. by case_decide. Qed.
Lemma stopped_state a o : state o ≠ Terminated →
  (state (stopped a o) = Ready ∧ state o ≠ Blocked) ∨ (state o = Blocked ∧ stopped a o = charge a o ∧ state (stopped a o) = Blocked).
Proof.
  intros Ho. unfold stopped. case_decide as Hr; [left; split; [done|congruence]|]. rewrite charge_state.
  destruct (state o) eqn:E; try done; by (left + right).
Qed.

(** The run time is charged, a running task becomes ready. *)
Lemma charge_old_task_spec o s Q : 0 ≤ ACCUMULATED_RUNTIME s → (sched_class o = Normal → weight o ≠ 0 → ACCUMULATED_RUNTIME s * BASE_WEIGHT < 2 ^ 64) →
  Q (stopped (ACCUMULATED_RUNTIME s) o) (set_runtime 0 s) →
  wp (charge_old_task o) Q s.
Proof.
  intros H0 Hb HQ. unfold charge_old_task. wp_step. wp_step. wp_step. wp_step. wp_step.
  assert (Hf : (if decide (state (charge (ACCUMULATED_RUNTIME s) o) = Running) then
    set_state Ready (charge (ACCUMULATED_RUNTIME s) o) else charge (ACCUMULATED_RUNTIME s) o) = stopped (ACCUMULATED_RUNTIME s) o).
  { unfold stopped. by rewrite charge_state. }
  destruct (decide (sched_class o = Normal)) as [Hc|Hc].
  - wp_step; [apply update_vruntime_some; [done|by apply Hb|done]|]. wp_step. by rewrite Hf.
  - wp_step. wp_step. assert (Hch : charge (ACCUMULATED_RUNTIME s) o = o) by (unfold charge; apply decide_False; tauto).
    rewrite Hch in Hf. by rewrite Hf.
Qed.

(** Replacing the current task. *)
Lemma inv_set_current s t : sched_inv s → CURRENT_TASK s = None → id t ∉ ids s → state t ≠ Terminated → task_ok t →
  sched_inv (set_current (Some t) s) ∧ ids (set_current (Some t) s) ≡ₚ id t :: ids s.
Proof.
  intros Hi Hc Hn Ht Hok.
  assert (Hids : ids (set_current (Some t) s) ≡ₚ id t :: ids s).
  { rewrite !ids_split. unfold queued, parked. simpl. rewrite Hc. simpl. symmetry. apply Permutation_middle. }
  split; [|done]. destruct Hi. split; simpl; try done.
  - intros u [= <-]. done.
  - rewrite Hids, list.NoDup_cons. done.
Qed.

Lemma inv_clear_current s : sched_inv s → sched_inv (set_current None s) ∧
  (∀ o, CURRENT_TASK s = Some o → ids s ≡ₚ id o :: ids (set_current None s) ∧ id o ∉ ids (set_current None s)).
Proof.
  intros Hi.
  assert (Hids : ∀ o, CURRENT_TASK s = Some o → ids s ≡ₚ id o :: ids (set_current None s)).
  { intros o Ho. rewrite !ids_split. unfold queued, parked. simpl. rewrite Ho. simpl. symmetry. apply Permutation_middle. }
  assert (Hnd : NoDup (ids (set_current None s))).
  { pose proof (si_ids _ Hi) as Hnd. destruct (CURRENT_TASK s) as [o|] eqn:Ho.
    - rewrite (Hids o eq_refl), list.NoDup_cons in Hnd. apply Hnd.
    - revert Hnd. rewrite !ids_split. unfold queued, parked. simpl. by rewrite Ho. }
  split.
  - destruct Hi. split; simpl; done.
  - intros o Ho. split; [by apply Hids|]. pose proof (si_ids _ Hi) as Hnd'. rewrite (Hids o Ho), list.NoDup_cons in Hnd'. apply Hnd'.
Qed.

Lemma parked_insert s t : BLOCKED_TASKS s !! id t = None →
  parked (set_blocked (<[id t := t]> (BLOCKED_TASKS s)) s) ≡ₚ t :: parked s.
Proof. intros Hn. unfold parked. simpl. by rewrite map_to_list_insert. Qed.

Lemma not_in_blocked s i : sched_inv s → i ∉ ids s → BLOCKED_TASKS s !! i = None.
Proof.
  intros Hi Hn. destruct (BLOCKED_TASKS s !! i) as [t|] eqn:Hl; [|done]. exfalso. apply Hn.
  destruct (si_blocked _ Hi _ _ Hl) as (-> & _). unfold ids, all_tasks. apply list_elem_of_fmap. exists t.
  split; [done|]. rewrite !elem_of_app. right. right. apply parked_lookup. by eexists.
Qed.

(** Parking a blocked task that is nowhere else. *)
Lemma inv_park s t : sched_inv s → id t ∉ ids s → state t = Blocked → task_ok t → id t ∉ WAKEUP_PENDING s →
  let s' := set_blocked (<[id t := t]> (BLOCKED_TASKS s)) s in
  sched_inv s' ∧ ids s' ≡ₚ id t :: ids s.
Proof.
  intros Hi Hn Hst Hok Hp s'. pose proof (not_in_blocked s _ Hi Hn) as Hnone.
  assert (Hids : ids s' ≡ₚ id t :: ids s).
  { rewrite !ids_split. unfold s'. rewrite parked_insert by done. unfold queued. simpl.
    rewrite !app_assoc. symmetry. apply Permutation_middle. }
  split; [|done]. pose proof (si_ids _ Hi). pose proof (si_blocked _ Hi) as Hb. pose proof (si_pending _ Hi) as Hpd.
  split; simpl; try apply Hi.
  - intros k u. rewrite lookup_insert_Some. intros [[<- <-]|[_ Hu]]; [done|by apply Hb].
  - rewrite Hids, list.NoDup_cons. done.
  - intros i Hin. rewrite lookup_insert_ne; [by apply Hpd|]. by intros <-.
Qed.

(** Flags are not in the invariant. *)
Lemma inv_same s s' : sched_inv s →
  RT_QUEUE s' = RT_QUEUE s → CFS_QUEUE s' = CFS_QUEUE s → IDLE_QUEUE s' = IDLE_QUEUE s →
  CURRENT_TASK s' = CURRENT_TASK s → BLOCKED_TASKS s' = BLOCKED_TASKS s → WAKEUP_PENDING s' = WAKEUP_PENDING s →
  sched_inv s' ∧ ids s' = ids s.
Proof.
  intros Hi Q1 Q2 Q3 E1 E2 E3.
  assert (Hids : ids s' = ids s) by (rewrite !ids_split; unfold queued, parked; by rewrite E1, E2, Q1, Q2, Q3).
  split; [|done]. split; rewrite ?Q1, ?Q2, ?Q3, ?E1, ?E2, ?E3, ?Hids; apply Hi.
Qed.

Lemma inv_pending s v : sched_inv s → (∀ i, i ∈ v → i ∈ WAKEUP_PENDING s ∨ BLOCKED_TASKS s !! i = None) →
  sched_inv (set_pending v s) ∧ ids (set_pending v s) = ids s.
Proof.
  intros Hi Hv. split; [|done]. pose proof (si_pending _ Hi) as Hp. destruct Hi. split; simpl; try done.
  intros i Hin. destruct (Hv i Hin); [by apply Hp|done].
Qed.

Lemma inv_recurrent s t u : sched_inv s → CURRENT_TASK s = Some t → id u = id t → state u ≠ Terminated → task_ok u →
  sched_inv (set_current (Some u) s) ∧ ids (set_current (Some u) s) = ids s.
Proof.
  intros Hi Hc Hid Hst Hok.
  assert (Hids : ids (set_current (Some u) s) = ids s).
  { rewrite !ids_split. unfold queued, parked. simpl. rewrite Hc. simpl. by rewrite Hid. }
  split; [|done]. destruct Hi. split; simpl; try done.
  - intros t' [= <-]. done.
  - by rewrite Hids.
Qed.

(** Phase 3 on a task that is nowhere else. *)
Lemma put_old_task_spec o s Q : sched_inv s → id o ∉ ids s → task_ok o → state o = Ready ∨ state o = Blocked →
  (∀ s', sched_inv s' → ids s' ≡ₚ id o :: ids s → CURRENT_TASK s' = CURRENT_TASK s →
     ACCUMULATED_RUNTIME s' = ACCUMULATED_RUNTIME s →
     (if decide (state o = Blocked ∧ id o ∉ WAKEUP_PENDING s) then
        queued s' = queued s ∧ BLOCKED_TASKS s' = <[id o := o]> (BLOCKED_TASKS s) ∧ WAKEUP_PENDING s' = WAKEUP_PENDING s
      else
        queued s' ≡ₚ set_state Ready o :: queued s ∧ BLOCKED_TASKS s' = BLOCKED_TASKS s ∧
        WAKEUP_PENDING s' = (if decide (state o = Blocked) then WAKEUP_PENDING s ∖ {[id o]} else WAKEUP_PENDING s)) →
     Q tt s') →
  wp (put_old_task o) Q s.
Proof.
  intros Hi Hn Hok Hst HQ. unfold put_old_task. destruct Hst as [Hst|Hst]; rewrite Hst.
  - assert (Hsame : set_state Ready o = o) by (destruct o; simpl in *; by subst).
    apply enqueue_spec; [done|done|done|done|]. intros s' Hi' Hsr Hq Hids.
    destruct Hsr as (E1 & E2 & E3 & E4 & _). apply HQ; [done|done|done|done|].
    rewrite Hst, decide_False by (intros [? _]; done). rewrite decide_False by done. by rewrite Hsame.
  - wp_step. wp_step. destruct (decide (id o ∈ WAKEUP_PENDING s)) as [Hp|Hp].
    + wp_step. wp_step.
      destruct (inv_pending s (WAKEUP_PENDING s ∖ {[id o]}) Hi) as [Hi1 Hids1]; [set_solver|].
      apply enqueue_spec; [done|by rewrite Hids1|done|done|]. intros s' Hi' Hsr Hq Hids.
      destruct Hsr as (E1 & E2 & E3 & E4 & _). apply HQ; [done|by rewrite Hids, Hids1|done|done|].
      rewrite Hst, decide_False by tauto. rewrite decide_True by done. done.
    + wp_step. destruct (inv_park s o Hi Hn Hst Hok Hp) as [Hi' Hids]. apply HQ; [done|done|done|done|].
      rewrite Hst, decide_True by done. done.
Qed.

Lemma old_task_spec o t s Q : sched_inv s → CURRENT_TASK s = Some o → id t ∉ ids s → task_ok t →
  0 ≤ ACCUMULATED_RUNTIME s → (sched_class o = Normal → weight o ≠ 0 → ACCUMULATED_RUNTIME s * BASE_WEIGHT < 2 ^ 64) →
  (∀ s', sched_inv s' → ids s' ≡ₚ id t :: ids s → CURRENT_TASK s' = Some (set_state Running t) →
     ACCUMULATED_RUNTIME s' = 0 → placed s (queued s) o s' → Q (task_context (id o)) s') →
  wp (old_task ← charge_old_task o; modify (set_current (Some (set_state Running t))) ;;
      put_old_task old_task ;; mret (task_context (id old_task))) Q s.
Proof.
  intros Hi Hcur Hfresh Hok H0 Hb HQ. destruct (inv_clear_current s Hi) as [Hi2 Hids2].
  destruct (Hids2 o Hcur) as [Hids3 Hfr3]. destruct (si_current _ Hi _ Hcur) as [Ho Hoko].
  destruct (inv_set_current (set_current None s) (set_state Running t)) as [Hi4 Hids4]; [done|done| |done|done|].
  { simpl. intros Hin. apply Hfresh. rewrite Hids3. by right. }
  destruct (inv_same (set_current (Some (set_state Running t)) (set_current None s))
    (set_current (Some (set_state Running t)) (set_runtime 0 s)) Hi4) as [Hi5 Hids5]; try done.
  wp_step. apply charge_old_task_spec; [done|done|]. wp_step. wp_step. wp_step.
  pose proof (stopped_state (ACCUMULATED_RUNTIME s) o Ho) as Hst.
  apply put_old_task_spec; [exact Hi5| |by apply stopped_ok|tauto|].
  { rewrite Hids5, Hids4, stopped_id. simpl. rewrite elem_of_cons. intros [He|?]; [|done].
    apply Hfresh. rewrite <-He, Hids3. by left. }
  intros s' Hi' Hids' Hc' Ha' Hplace. wp_step. rewrite stopped_id. apply HQ; [done| |done|done|].
  - rewrite Hids', Hids5, Hids4, stopped_id, Hids3. simpl. apply perm_swap.
  - revert Hplace. unfold placed. simpl. rewrite stopped_ready, stopped_id.
    destruct Hst as [[Hs1 Hs2]|(Hs1 & Hs2 & Hs3)]; rewrite ?Hs1, ?Hs2 in *.
    + destruct (decide (state o = Blocked ∧ _)) as [[??]|_]; [done|].
      destruct (decide (state o = Blocked)) as [?|_]; [done|].
      destruct (decide (Ready = Blocked ∧ _)) as [[??]|_]; [done|]. destruct (decide (Ready = Blocked)); done.
    + rewrite charge_state, Hs1. destruct (decide (Blocked = Blocked ∧ _)); [|done]. intros (Hq & ? & ?). by split; [rewrite Hq|].
Qed.

(** The whole of [schedule], when the charge it makes fits. *)
Lemma schedule_fits_spec s Q : sched_inv s → 0 ≤ ACCUMULATED_RUNTIME s → (queued s ≠ [] → charge_fits s) →
  (queued s = [] → Q None (set_if true s)) →
  (∀ t r s', switched s t r s' → sched_inv s' → ids s' ≡ₚ ids s → IF_flag s' = true →
     0 ≤ ACCUMULATED_RUNTIME s' ≤ ACCUMULATED_RUNTIME s → Q r s') →
  wp schedule Q s.
Proof.
  intros Hi H0 Hb Hnone Hsome. unfold schedule, cli, sti.
  destruct (inv_same s (set_if false s) Hi) as [Hi0 Hids0]; try done. wp_step. wp_step. wp_step.
  apply pick_next_spec; [done|..].
  { intros Hq. wp_step. wp_step. wp_step. apply Hnone. exact Hq. }
  intros t s1 Hbest Hi1 Hsr1 Hq1 Hids1 Hfresh1.
  assert (Hf : charge_fits s) by (apply Hb; intros He; destruct Hbest as [Hin _]; change (t ∈ queued s) in Hin; rewrite He in Hin; by apply elem_of_nil in Hin).
  assert (Ht : state t = Ready ∧ task_ok t) by (eapply queued_ready; [exact Hi0|apply Hbest]).
  destruct Hsr1 as (E1 & E2 & E3 & E4 & _). wp_step. wp_step. wp_step.
  rewrite E1. simpl in E1, E2, E3, E4. cbn [set_if CURRENT_TASK]. destruct (CURRENT_TASK s) as [o|] eqn:Hcur.
  - apply old_task_spec; [done|done|done|apply Ht|by rewrite E4|rewrite E4; by apply Hf|].
    intros s' Hi' Hids' Hc' Ha' Hplace. wp_step. wp_step. wp_step.
    destruct (inv_same s' (set_if true s') Hi') as [Hi6 Hids6]; try done.
    apply (Hsome t); [|done|by rewrite Hids6, Hids', <-Hids1|done|simpl; lia].
    exists (queued s1). split; [exact Hbest|]. split; [exact Hq1|]. split; [exact Hc'|]. rewrite Hcur.
    split; [done|]. revert Hplace. unfold placed. by rewrite E2, E3, E4.
  - wp_step. wp_step. wp_step. wp_step. wp_step. wp_step.
    destruct (inv_set_current s1 (set_state Running t)) as [Hi4 Hids4]; [done|done|done|done|apply Ht|].
    destruct (inv_same _ (set_if true (set_current (Some (set_state Running t)) s1)) Hi4) as [Hi5 Hids5]; try done.
    apply (Hsome t); [|done| |done|simpl; lia].
    + exists (queued s1). split; [exact Hbest|]. split; [exact Hq1|]. split; [done|]. by rewrite Hcur.
    + rewrite Hids5, Hids4. simpl. by rewrite <-Hids0, Hids1.
Qed.
Lemma schedule_spec s Q : sched_inv s → 0 ≤ ACCUMULATED_RUNTIME s → ACCUMULATED_RUNTIME s * BASE_WEIGHT < 2 ^ 64 →
  (queued s = [] → Q None (set_if true s)) →
  (∀ t r s', switched s t r s' → sched_inv s' → ids s' ≡ₚ ids s → IF_flag s' = true →
     0 ≤ ACCUMULATED_RUNTIME s' ≤ ACCUMULATED_RUNTIME s → Q r s') →
  wp schedule Q s.
Proof. intros Hi H0 Hb. apply schedule_fits_spec; [done|done|]. by intros _ o _ _ _. Qed.

(** A charge that does not fit is a panic. *)
Lemma schedule_overflow s o : sched_inv s → queued s ≠ [] → CURRENT_TASK s = Some o → sched_class o = Normal → weight o ≠ 0 →
  2 ^ 64 ≤ ACCUMULATED_RUNTIME s * BASE_WEIGHT → schedule s = None.
Proof.
  intros Hi Hq Hc Hn Hw Ho. destruct (inv_same s (set_if false s) Hi) as [Hi0 _]; try done.
  assert (Hp : wp pick_next (λ r s1, ∃ t, r = Some t ∧ CURRENT_TASK s1 = Some o ∧ ACCUMULATED_RUNTIME s1 = ACCUMULATED_RUNTIME s) (set_if false s)).
  { apply pick_next_spec; [done|by intros ?|]. intros t s1 _ _ (E1 & _ & _ & E4 & _) _ _ _. exists t. split; [done|]. rewrite E1, E4. done. }
  apply wp_run in Hp as (r & s1 & Hrun & t & -> & Hc1 & Ha1). unfold schedule, cli, mbind, M_bind, modify, gets. rewrite Hrun, Hc1.
  unfold charge_old_task, mbind, M_bind, modify, gets, lift. rewrite Ha1, decide_True by done. unfold update_vruntime. rewrite (proj2 (Z.eqb_neq _ _)) by done.
  rewrite (proj2 (Z.ltb_lt 0 _)) by (unfold BASE_WEIGHT in Ho; lia). unfold cmul. by rewrite (proj2 (Z.ltb_ge _ _)) by done.
Qed.
End sched_thms.
