(* ===== verification/SchedOps.v ===== *)
(** * Blocking, waking and adding tasks; the scheduler's events in any order.

    On the one processor the critical sections of the scheduler run with
    interrupts off, so a run of the system is a sequence of events: a task (or
    an interrupt) calls [schedule], a task marks itself blocked, anybody wakes
    a task, adds one, or accounts run time. *)
From S2P Require Import Prelude BTree Context Task Sched SchedSpec SchedThms.
Set Default Goal Selector "!".

(** What a well-formed new task is: the constructors of [Task] build nothing
    else, and their identifiers come from one counter. *)
Definition fresh_task (s : sched) (t : Task) : Prop :=
  id t ∉ ids s ∧ state t = Ready ∧ task_ok t.

Inductive event :=
  | EvSchedule | EvMarkBlocked | EvUnblock (task_id : Z) | EvAdd (t : Task) | EvRuntime (delta : Z) | EvNeedResched.

Definition ignore {A} (m : M sched A) : M sched unit := m ;; mret tt.
Definition run_event (e : event) : M sched unit :=
  match e with
  | EvSchedule => ignore schedule
  | EvMarkBlocked => ignore mark_blocked
  | EvUnblock i => unblock_task i
  | EvAdd t => add_task t
  | EvRuntime delta => update_current_task_vruntime delta
  | EvNeedResched => set_need_resched
  end.

(** What the constructors of tasks guarantee of an event: a new task is fresh. *)
Definition admissible (s : sched) (e : event) : Prop := match e with EvAdd t => fresh_task s t | _ => True end.
(** The runs of the scheduler: admissible events in any order, as far as they do not panic. *)
Inductive runs : sched → list event → sched → Prop :=
  | runs_nil s : runs s [] s
  | runs_cons s e s1 es s2 : admissible s e → run_event e s = Some (tt, s1) → runs s1 es s2 → runs s (e :: es) s2.
(** [schedule] finds another task to run and the charge of the current one does not
    fit: a normal task with a weight and 2^54 ns (208 days) or more to its account. *)
Definition overflows (s : sched) (e : event) : Prop :=
  e = EvSchedule ∧ queued s ≠ [] ∧
  ∃ t, CURRENT_TASK s = Some t ∧ sched_class t = Normal ∧ weight t ≠ 0 ∧ 2 ^ 64 ≤ ACCUMULATED_RUNTIME s * BASE_WEIGHT.

#[export] Instance overflows_dec s e : Decision (overflows s e).
Proof.
  destruct e; try (right; intros [? _]; discriminate). destruct (decide (queued s = [])) as [Hq|Hq]; [right; by intros (_ & ? & _)|].
  destruct (CURRENT_TASK s) as [t|] eqn:Hc; [|right; intros (_ & _ & t & Ht & _); congruence].
  destruct (decide (sched_class t = Normal ∧ weight t ≠ 0 ∧ 2 ^ 64 ≤ ACCUMULATED_RUNTIME s * BASE_WEIGHT)) as [(Hn & Hw & Ho)|Hno].
  - left. split; [done|]. split; [done|]. by exists t.
  - right. intros (_ & _ & u & Hu & Hrest). apply Hno. assert (u = t) as -> by congruence. exact Hrest.
Defined.

(** Events of a system whose callers keep more: a task that marks itself blocked
    is not marked already, and the time charged to one task between two
    switches stays below 2^54 ns (208 days). *)
Definition may (s : sched) (e : event) : Prop :=
  match e with
  | EvAdd t => fresh_task s t
  | EvMarkBlocked => ∀ t, CURRENT_TASK s = Some t → state t ≠ Blocked
  | EvSchedule => ACCUMULATED_RUNTIME s * BASE_WEIGHT < 2 ^ 64
  | _ => True
  end.
Inductive steps : sched → list event → sched → Prop :=
  | steps_nil s : steps s [] s
  | steps_cons s e s1 es s2 : may s e → run_event e s = Some (tt, s1) → steps s1 es s2 → steps s (e :: es) s2.

(** The tasks a run adds. *)
Definition added (es : list event) : list Z :=
  omap (λ e, match e with EvAdd t => Some (id t) | _ => None end) es.

(** The state the kernel starts multitasking in: nothing but a current task. *)
Definition boot_state (t : Task) (next_id : Z) : sched := set_current (Some t) (sched_new next_id false).

(** The invariant of runs. *)
Definition sys_inv (s : sched) : Prop := sched_inv s ∧ 0 ≤ ACCUMULATED_RUNTIME s.

(** Task [i] is not parked, and if it is on its way to be parked a wake-up is
    pending that will stop it. *)
Definition awake (i : Z) (s : sched) : Prop :=
  BLOCKED_TASKS s !! i = None ∧
  (i ∈ WAKEUP_PENDING s ∨ ∀ t, CURRENT_TASK s = Some t → id t = i → state t ≠ Blocked).
(** Event [e] is task [i] going to sleep: it marks itself blocked and no wake-up is pending. *)
Definition falls_asleep (i : Z) (s : sched) (e : event) : Prop :=
  e = EvMarkBlocked ∧ i ∉ WAKEUP_PENDING s ∧ ∃ t, CURRENT_TASK s = Some t ∧ id t = i.
(** Task [i] runs on although it is marked blocked (no other task was ready), has
    been woken, and marks itself blocked again: the wake-up is used up and the mark stays. *)
Definition marks_again (i : Z) (s : sched) (e : event) : Prop :=
  e = EvMarkBlocked ∧ i ∈ WAKEUP_PENDING s ∧ ∃ t, CURRENT_TASK s = Some t ∧ id t = i ∧ state t = Blocked.
Inductive steps_awake (i : Z) : sched → list event → sched → Prop :=
  | steps_awake_nil s : steps_awake i s [] s
  | steps_awake_cons s e s1 es s2 : admissible s e → ¬ falls_asleep i s e → ¬ marks_again i s e → run_event e s = Some (tt, s1) →
      steps_awake i s1 es s2 → steps_awake i s (e :: es) s2.

Section ops.
Implicit Types (s : sched) (t u : Task).

(** [without_interrupts] runs its body with interrupts off and puts the flag back. *)
Lemma wp_without_interrupts {A} (m : M sched A) Q s :
  wp m (λ a s', IF_flag s' = false ∧ Q a (set_if (IF_flag s) s')) (set_if false s) → wp (without_interrupts m) Q s.
Proof.
  intros Hm. unfold without_interrupts, cli, sti. wp_step. wp_step. wp_step. wp_step. wp_step.
  eapply wp_mono; [exact Hm|]. intros a s' [Hif HQ]. wp_step. destruct (IF_flag s).
  - wp_step. wp_step. exact HQ.
  - wp_step. wp_step. destruct s'. simpl in *. by subst.
Qed.

Lemma inv_if s v : sched_inv s → sched_inv (set_if v s).
Proof. intros Hi. by apply (inv_same s (set_if v s)). Qed.

Lemma mark_blocked_spec s Q : sched_inv s →
  (CURRENT_TASK s = None → Q false s) →
  (∀ t, CURRENT_TASK s = Some t → id t ∈ WAKEUP_PENDING s → Q false (set_pending (WAKEUP_PENDING s ∖ {[id t]}) s)) →
  (∀ t, CURRENT_TASK s = Some t → id t ∉ WAKEUP_PENDING s → Q true (set_current (Some (set_state Blocked t)) s)) →
  wp mark_blocked Q s.
Proof.
  intros Hi Hnone Hpend Hblock. unfold mark_blocked. apply wp_without_interrupts.
  wp_step. wp_step. wp_step. wp_step. simpl. destruct (CURRENT_TASK s) as [t|] eqn:Hc.
  - case_decide as Hp; wp_step; wp_step; wp_step; (split; [done|]).
    + replace (set_if _ _) with (set_pending (WAKEUP_PENDING s ∖ {[id t]}) s) by (by destruct s). by apply Hpend.
    + replace (set_if _ _) with (set_current (Some (set_state Blocked t)) s) by (by destruct s). by apply Hblock.
  - wp_step. split; [done|]. replace (set_if _ _) with s by (by destruct s). by apply Hnone.
Qed.

Lemma inv_unpark s i t : sched_inv s → BLOCKED_TASKS s !! i = Some t →
  let s' := set_blocked (delete i (BLOCKED_TASKS s)) s in
  sched_inv s' ∧ ids s ≡ₚ id t :: ids s' ∧ id t ∉ ids s' ∧ i = id t ∧ queued s' = queued s.
Proof.
  intros Hi Hl s'. destruct (si_blocked _ Hi _ _ Hl) as (-> & Hst & Hok).
  assert (Hids : ids s ≡ₚ id t :: ids s').
  { rewrite !ids_split. unfold queued, parked, s'. simpl.
    rewrite <-(map_to_list_delete (BLOCKED_TASKS s) (id t) t) by done. simpl.
    rewrite !app_assoc. symmetry. apply Permutation_middle. }
  pose proof (si_ids _ Hi) as Hnd. rewrite Hids, list.NoDup_cons in Hnd. destruct Hnd as [Hn Hnd].
  split; [|done]. pose proof (si_blocked _ Hi) as Hb. pose proof (si_pending _ Hi) as Hp.
  split; simpl; try apply Hi; [|done|].
  - intros k u [_ Hu]%lookup_delete_Some. by apply Hb.
  - intros j Hj. apply lookup_delete_None. right. by apply Hp.
Qed.

Lemma unblock_task_spec i s Q : sched_inv s →
  (BLOCKED_TASKS s !! i = None → Q tt (set_pending ({[i]} ∪ WAKEUP_PENDING s) s)) →
  (∀ t s', BLOCKED_TASKS s !! i = Some t → sched_inv s' → ids s' ≡ₚ ids s →
     queued s' ≡ₚ set_state Ready t :: queued s → CURRENT_TASK s' = CURRENT_TASK s →
     BLOCKED_TASKS s' = delete i (BLOCKED_TASKS s) → WAKEUP_PENDING s' = WAKEUP_PENDING s →
     ACCUMULATED_RUNTIME s' = ACCUMULATED_RUNTIME s → Q tt s') →
  wp (unblock_task i) Q s.
Proof.
  intros Hi Hnone Hsome. unfold unblock_task. apply wp_without_interrupts. wp_step. wp_step. simpl.
  destruct (BLOCKED_TASKS s !! i) as [t|] eqn:Hl.
  - wp_step. wp_step. destruct (inv_unpark (set_if false s) i t) as (Hi1 & Hids1 & Hn1 & Heq & Hq1); [by apply inv_if|done|].
    destruct (si_blocked _ Hi _ _ Hl) as (_ & Hst & Hok).
    apply enqueue_spec; [exact Hi1|exact Hn1|done|done|]. intros s' Hi' (E1 & E2 & E3 & E4 & E5 & E6 & E7) Hq Hids.
    split; [done|]. apply (Hsome t); [done|by apply inv_if|..]; try done.
    change (ids (set_if (IF_flag s) s')) with (ids s'). rewrite Hids. symmetry. exact Hids1.
  - wp_step. split; [done|]. replace (set_if _ _) with (set_pending ({[i]} ∪ WAKEUP_PENDING s) s) by (by destruct s).
    by apply Hnone.
Qed.

Lemma try_add_task_spec t s Q : sched_inv s → fresh_task s t →
  (∀ s', sched_inv s' → ids s' ≡ₚ id t :: ids s → queued s' ≡ₚ t :: queued s → same_rest s s' → Q tt s') →
  wp (add_task t) Q s.
Proof.
  intros Hi (Hn & Hst & Hok) HQ. unfold add_task. wp_step. unfold try_add_task. wp_step.
  apply wp_without_interrupts.
  (* the two copies of the dispatch agree *)
  eapply (enqueue_spec (set_if false s) t); [by apply inv_if|done|done|done|].
  intros s' Hi' (E1 & E2 & E3 & E4 & E5 & E6 & E7) Hq Hids. split; [done|]. wp_step. wp_step.
  apply HQ; [by apply inv_if|done|done|]. unfold same_rest. simpl in *. by rewrite E1, E2, E3, E4, E5, E6.
Qed.

(** What [may] allows is admissible and does not overflow. *)
Lemma may_admissible e s : may s e → admissible s e ∧ ¬ overflows s e.
Proof. intros Hmay. split; [by destruct e|]. intros (-> & _ & t & _ & _ & _ & Ho). simpl in Hmay. lia. Qed.
Lemma no_overflow s : ¬ overflows s EvSchedule → queued s ≠ [] → charge_fits s.
Proof.
  intros Hno Hq o Hc Hn Hw. destruct (Z.ltb_spec (ACCUMULATED_RUNTIME s * BASE_WEIGHT) (2 ^ 64)); [done|]. exfalso. apply Hno. split; [done|]. split; [done|]. by exists o.
Qed.

(** Events neither panic, the overflow apart, nor break the invariant, and conserve the tasks. *)
Lemma run_admissible_spec e s : sys_inv s → admissible s e → ¬ overflows s e →
  wp (run_event e) (λ _ s', sys_inv s' ∧ ids s' ≡ₚ added [e] ++ ids s) s.
Proof.
  intros [Hi H0] Hmay Hno. destruct e as [| |i|t|delta|]; simpl in *; unfold ignore.
  - wp_step. apply schedule_fits_spec; [done|done|by apply no_overflow|..].
    + intros _. wp_step. split; [split; [by apply inv_if|done]|done].
    + intros t r s' _ Hi' Hids _ [? _]. wp_step. done.
  - wp_step. apply mark_blocked_spec; [done|..].
    + intros _. wp_step. done.
    + intros t Hc Hp. wp_step. destruct (inv_pending s (WAKEUP_PENDING s ∖ {[id t]}) Hi) as [? Hids]; [set_solver|].
      by rewrite Hids.
    + intros t Hc Hp. wp_step. destruct (si_current _ Hi _ Hc) as [_ Hok].
      destruct (inv_recurrent s t (set_state Blocked t) Hi Hc) as [? Hids]; [done|done|done|]. by rewrite Hids.
  - apply unblock_task_spec; [done|..].
    + intros Hl. destruct (inv_pending s ({[i]} ∪ WAKEUP_PENDING s) Hi) as [? Hids]; [|by rewrite Hids].
      intros j. rewrite elem_of_union, elem_of_singleton. intros [->|?]; [by right|by left].
    + intros t s' _ Hi' Hids _ _ _ _ Ha. split; [|done]. split; [done|]. by rewrite Ha.
  - apply try_add_task_spec; [done|done|]. intros s' Hi' Hids _ (_ & _ & _ & Ha & _). split; [|done]. split; [done|]. by rewrite Ha.
  - unfold update_current_task_vruntime. wp_step. destruct (inv_same s (set_runtime (wrap 64 (ACCUMULATED_RUNTIME s + delta)) s) Hi) as [? Hids]; try done.
    split; [|done]. split; [done|]. simpl. apply Z.mod_pos_bound. lia.
  - unfold set_need_resched. wp_step. by destruct (inv_same s (set_need true s) Hi) as [? Hids].
Qed.

Lemma run_event_spec e s : sys_inv s → may s e →
  wp (run_event e) (λ _ s', sys_inv s' ∧ ids s' ≡ₚ added [e] ++ ids s) s.
Proof. intros Hs [Ha Hno]%may_admissible. by apply run_admissible_spec. Qed.
Lemma overflow_panics e s : sys_inv s → overflows s e → run_event e s = None.
Proof. intros [Hi _] (-> & Hq & t & Hc & Hn & Hw & Ho). cbn [run_event]. unfold ignore, mbind, M_bind. by rewrite (schedule_overflow s t). Qed.
(** A run that did not panic did not overflow. *)
Lemma ran_fits e s s' : sys_inv s → run_event e s = Some (tt, s') → ¬ overflows s e.
Proof. intros Hs Hrun Ho. rewrite (overflow_panics e s) in Hrun by done. done. Qed.
Lemma runs_spec s es s' : sys_inv s → runs s es s' → sys_inv s' ∧ ids s' ≡ₚ added es ++ ids s.
Proof.
  intros Hs Hruns. induction Hruns as [s|s e s1 es s2 Ha Hrun _ IH]; [done|].
  destruct (wp_elim _ _ _ _ _ (run_admissible_spec e s Hs Ha (ran_fits _ _ _ Hs Hrun)) Hrun) as [Hs1 Hids1].
  destruct (IH Hs1) as [Hs2 Hids2]. split; [done|]. rewrite Hids2, Hids1.
  replace (added (e :: es)) with (added [e] ++ added es) by (unfold added; simpl; by destruct e).
  rewrite !app_assoc. f_equiv. apply Permutation_app_comm.
Qed.

Lemma steps_spec s es s' : sys_inv s → steps s es s' → sys_inv s' ∧ ids s' ≡ₚ added es ++ ids s.
Proof.
  intros Hs Hsteps. induction Hsteps as [s|s e s1 es s2 Hmay Hrun _ IH]; [done|].
  destruct (wp_elim _ _ _ _ _ (run_event_spec e s Hs Hmay) Hrun) as [Hs1 Hids1].
  destruct (IH Hs1) as [Hs2 Hids2]. split; [done|]. rewrite Hids2, Hids1.
  replace (added (e :: es)) with (added [e] ++ added es) by (unfold added; simpl; by destruct e).
  rewrite !app_assoc. f_equiv. apply Permutation_app_comm.
Qed.

Lemma boot_inv t n : state t ≠ Terminated → task_ok t → sys_inv (boot_state t n) ∧ ids (boot_state t n) = [id t].
Proof.
  intros Hst Hok. assert (Hids : ids (boot_state t n) = [id t]) by (rewrite ids_split; unfold parked; simpl; by rewrite map_to_list_empty).
  split; [|done]. split; [|done]. split; simpl; try done.
  - constructor.
  - intros k u Hu. by apply not_elem_of_nil in Hu.
  - constructor.
  - intros k u Hu. by apply not_elem_of_nil in Hu.
  - intros u Hu. by apply not_elem_of_nil in Hu.
  - by intros u [= <-].
  - rewrite Hids. apply list.NoDup_singleton.
Qed.

(** ** Wake-ups *)
Lemma current_not_parked s t : sched_inv s → CURRENT_TASK s = Some t → BLOCKED_TASKS s !! id t = None.
Proof.
  intros Hi Hc. destruct (BLOCKED_TASKS s !! id t) as [u|] eqn:Hl; [|done]. exfalso.
  destruct (inv_clear_current s Hi) as [_ Hcl]. destruct (Hcl t Hc) as [_ Hn]. apply Hn.
  destruct (si_blocked _ Hi _ _ Hl) as (Hid & _). rewrite Hid. unfold ids, all_tasks. apply list_elem_of_fmap. exists u.
  split; [done|]. rewrite !elem_of_app. right. right. apply parked_lookup. by eexists.
Qed.

(** A wake-up leaves the task awake. *)
Lemma unblock_awake i s : sched_inv s → wp (unblock_task i) (λ _ s', awake i s') s.
Proof.
  intros Hi. apply unblock_task_spec; [done|..].
  - intros Hl. split; [done|]. left. simpl. set_solver.
  - intros t s' Hl _ _ _ Hc Hb Hp _. split; [rewrite Hb; apply lookup_delete_eq|]. right. rewrite Hc. intros u Hu <- _.
    pose proof (current_not_parked s u Hi Hu). congruence.
Qed.

Lemma switched_awake i s t r s' : awake i s → switched s t r s' → awake i s'.
Proof.
  intros [Hb Hp] (rest & Hbest & _ & Hc & Hold).
  split; [|right; rewrite Hc; by intros u [= <-] _]. destruct (CURRENT_TASK s) as [o|] eqn:Ho.
  - destruct Hold as [_ Hpl]. unfold placed in Hpl. case_decide as Hd.
    + destruct Hpl as (_ & -> & _). destruct (decide (i = id o)) as [->|Hne]; [|by rewrite lookup_insert_ne].
      destruct Hd as [Hd1 Hd2]. destruct Hp as [?|Hp]; [done|]. by destruct (Hp o).
    + destruct Hpl as (_ & -> & _). done.
  - destruct Hold as (_ & _ & -> & _). done.
Qed.

(** Nothing but going to sleep, or marking itself twice, ends the state of being awake. *)
Lemma run_admissible_awake i e s : sys_inv s → admissible s e → ¬ overflows s e → ¬ falls_asleep i s e → ¬ marks_again i s e → awake i s →
  wp (run_event e) (λ _ s', awake i s') s.
Proof.
  intros [Hi H0] Hmay Hno Hns Hma Haw. destruct e as [| |j|t|delta|]; simpl in *; unfold ignore.
  - wp_step. apply schedule_fits_spec; [done|done|by apply no_overflow|..].
    + intros _. wp_step. exact Haw.
    + intros t r s' Hsw _ _ _ _. wp_step. by eapply switched_awake.
  - destruct Haw as [Hb Hp]. wp_step. apply mark_blocked_spec; [done|..].
    + intros _. wp_step. done.
    + intros t Hc Hpt. wp_step. split; [done|]. simpl. destruct (decide (id t = i)) as [<-|Hne].
      * right. intros u Hu _ Hst. apply Hma. split; [done|]. split; [done|]. exists t. split; [done|]. split; [done|]. congruence.
      * destruct Hp as [Hp|Hp]; [left; set_solver|by right].
    + intros t Hc Hpt. wp_step. split; [done|]. simpl. destruct (decide (id t = i)) as [<-|Hne].
      * exfalso. apply Hns. split; [done|]. split; [done|]. by exists t.
      * right. by intros u [= <-].
  - destruct Haw as [Hb Hp]. apply unblock_task_spec; [done|..].
    + intros Hl. split; [done|]. simpl. destruct Hp; [left; set_solver|by right].
    + intros t s' Hl _ _ _ Hc Hb' Hp' _. unfold awake. rewrite Hc, Hb', Hp'. split; [|done]. apply lookup_delete_None. by right.
  - apply try_add_task_spec; [done|done|]. intros s' _ _ _ (Hc & Hb & Hp & _). unfold awake. by rewrite Hc, Hb, Hp.
  - unfold update_current_task_vruntime. wp_step. exact Haw.
  - unfold set_need_resched. wp_step. exact Haw.
Qed.

Lemma run_event_awake i e s : sys_inv s → may s e → ¬ falls_asleep i s e → awake i s →
  wp (run_event e) (λ _ s', awake i s') s.
Proof.
  intros Hs Hmay Hns. destruct (may_admissible e s Hmay) as [Ha Hno]. apply run_admissible_awake; try done.
  intros (-> & _ & t & Hc & _ & Hst). by apply (Hmay t Hc).
Qed.

Lemma steps_awake_spec i s es s' : sys_inv s → awake i s → steps_awake i s es s' →
  awake i s' ∧ sys_inv s' ∧ ids s' ≡ₚ added es ++ ids s.
Proof.
  intros Hs Ha Hsteps. induction Hsteps as [s|s e s1 es s2 Hadm Hns Hma Hrun _ IH]; [done|]. pose proof (ran_fits e s s1 Hs Hrun) as Hno.
  pose proof (wp_elim _ _ _ _ _ (run_admissible_awake i e s Hs Hadm Hno Hns Hma Ha) Hrun) as Ha1. simpl in Ha1.
  destruct (wp_elim _ _ _ _ _ (run_admissible_spec e s Hs Hadm Hno) Hrun) as [Hs1 Hids1].
  destruct (IH Hs1 Ha1) as (Ha2 & Hs2 & Hids2). split; [done|]. split; [done|]. rewrite Hids2, Hids1.
  replace (added (e :: es)) with (added [e] ++ added es) by (unfold added; simpl; by destruct e).
  rewrite !app_assoc. f_equiv. apply Permutation_app_comm.
Qed.
End ops.
