(* ===== verification/SchedProps.v ===== *)
(** * Tasks and the scheduler: the theorems. *)
From S2P Require Import Prelude Addr BTree Context ContextProps Task Sched SchedSpec SchedThms SchedOps.
Set Default Goal Selector "!".

(** ** Concrete tasks for the witnesses *)
Definition demo_task (i : Z) (c : SchedulingClass) (rt n : Z) : Task :=
  mkTask i "demo" c n rt (nice_to_weight n) 0 0x1000 Ready 0.
Definition demo_boot : sched := boot_state (demo_task 1 Normal 0 0) 10.
Definition demo_events : list event :=
  [EvAdd (demo_task 2 Normal 0 0); EvAdd (demo_task 3 Realtime 50 0); EvAdd (demo_task 4 Idle 0 19)].

Lemma demo_fresh s i c rt n : i ∉ ids s → rt ≤ rt_MAX → fresh_task s (demo_task i c rt n).
Proof. intros. split; [done|]. by split. Defined.

(** The constructors of [Task] on a stack the heap answered: the context resumes
    at the entry point on that stack and only that stack is written, the task is
    ready with the next identifier; nice values are clamped and weighted,
    priorities above the maximum are clamped; a priority of 0 and a null entry
    point are refused, the identifier counter untouched. *)
Theorem task_new_correct (s : tstate) (nm : string) (n rt entry base : Z) (Hstack : stack_ok base) (Hentry : entry ≠ 0) :
  (∃ t s', Task_new nm n entry base s = Some (Ok t, s') ∧ made s entry base nm t s' ∧
     sched_class t = Normal ∧ nice_MIN ≤ nice t ≤ nice_MAX ∧ weight t = nice_to_weight n ∧ 15 ≤ weight t ≤ 88761) ∧
  (rt_MIN ≤ rt → ∃ t s', Task_new_realtime nm rt entry base s = Some (Ok t, s') ∧ made s entry base nm t s' ∧
     sched_class t = Realtime ∧ rt_priority t = Z.min rt rt_MAX) ∧
  (rt < rt_MIN → Task_new_realtime nm rt entry base s = Some (Err InvalidPriority, s)) ∧
  (∃ t s', Task_new_idle nm entry base s = Some (Ok t, s') ∧ made s entry base nm t s' ∧ sched_class t = Idle) ∧
  (∃ s', Task_new nm n 0 base s = Some (Err ContextInitFailed, s') ∧ NEXT_ID s' = NEXT_ID s).
Proof.
  split; [|split; [|split; [|split]]].
  - destruct (proj1 (wp_run _ _ _) (Task_new_spec nm n entry base s Hstack Hentry)) as (r & s' & Hr & t & -> & Hm & Hc & Hn & Hw).
    exists t, s'. split; [done|]. split; [done|]. split; [done|]. pose proof (nice_to_weight_bounds n).
    rewrite Hn, Hw. unfold clamp, nice_MIN, nice_MAX. split; [lia|done].
  - intros Hrt. destruct (proj1 (wp_run _ _ _) (Task_new_realtime_spec nm rt entry base s Hstack Hentry Hrt)) as (r & s' & Hr & t & -> & ?).
    by exists t, s'.
  - intros Hrt. unfold Task_new_realtime. by rewrite (proj2 (Z.ltb_lt _ _)).
  - destruct (proj1 (wp_run _ _ _) (Task_new_idle_spec nm entry base s Hstack Hentry)) as (r & s' & Hr & t & -> & ? & ? & _).
    by exists t, s'.
  - assert (Hw : wp (Task_new nm n 0 base) (λ r s', r = Err ContextInitFailed ∧ NEXT_ID s' = NEXT_ID s) s).
    { unfold Task_new. apply wp_try_bind, new_stack_no_entry; [done|]. by intros m. }
    destruct (proj1 (wp_run _ _ _) Hw) as (r & s' & Hr & -> & Hid). by exists s'.
Qed.

(** Witness: a nice value out of range, and a stack in the kernel's half. *)
Lemma task_new_correct_witness :
  ∃ t s', Task_new "worker" (-100) 0x4000 0xFFFF800000200000 (mkT 7 ∅) = Some (Ok t, s') ∧ id t = 7 ∧ weight t = 88761.
Proof.
  destruct (task_new_correct (mkT 7 ∅) "worker" (-100) 50 0x4000 0xFFFF800000200000) as ((t & s' & Hr & Hm & _ & _ & Hw & _) & _).
  - split; [done|]. split; [done|]. by exists 0xFFFF80000020000.
  - done.
  - exists t, s'. split; [exact Hr|]. split; [apply Hm|]. rewrite Hw. reflexivity.
Defined.

(** Virtual run time: a task that ran for [d] gains [d * 1024 / weight], which is
    [d] at the default nice value, never more at a smaller nice value than at a
    larger one, and nothing at all exactly when [d * 1024] is below the weight;
    the sum saturates, the product panics when it leaves 64 bits. *)
Theorem vruntime_correct (t u : Task) (d : Z) (Hd : 0 ≤ d) (Ht : weight t = nice_to_weight (nice t)) (Hu : weight u = nice_to_weight (nice u))
    (Hle : nice t ≤ nice u) (Hroom : 0 ≤ vruntime t ∧ 0 ≤ vruntime u ∧ vruntime u + d * BASE_WEIGHT < 2 ^ 64 ∧ vruntime t + d * BASE_WEIGHT < 2 ^ 64) :
  ∃ t' u', update_vruntime d t = Some t' ∧ update_vruntime d u = Some u' ∧
    vruntime t' = vruntime t + d * BASE_WEIGHT / weight t ∧
    vruntime t' - vruntime t ≤ vruntime u' - vruntime u ∧
    (nice t = nice_DEFAULT → vruntime t' = vruntime t + d) ∧
    (vruntime t' = vruntime t ↔ d * BASE_WEIGHT < weight t) ∧
    (∀ d', 2 ^ 64 ≤ d' * BASE_WEIGHT → update_vruntime d' t = None).
Proof.
  pose proof (nice_to_weight_bounds (nice t)) as Hbt. pose proof (nice_to_weight_bounds (nice u)) as Hbu.
  pose proof (nice_to_weight_antitone _ _ Hle) as Hw. rewrite <-Ht in Hbt, Hw. rewrite <-Hu in Hbu, Hw.
  assert (Hrun : ∀ x, 15 ≤ weight x → 0 ≤ vruntime x → vruntime x + d * BASE_WEIGHT < 2 ^ 64 →
    update_vruntime d x = Some (set_vruntime (vruntime x + d * BASE_WEIGHT / weight x) x)).
  { intros x Hx H0 Hr. unfold update_vruntime. rewrite (proj2 (Z.eqb_neq _ _)) by lia. rewrite cmul_some by lia. simpl.
    unfold saturating_add. assert (d * BASE_WEIGHT / weight x ≤ d * BASE_WEIGHT) by (apply Z.div_le_upper_bound; unfold BASE_WEIGHT in *; nia).
    by rewrite Z.min_r by lia. }
  exists (set_vruntime (vruntime t + d * BASE_WEIGHT / weight t) t), (set_vruntime (vruntime u + d * BASE_WEIGHT / weight u) u).
  split; [apply Hrun; lia|]. split; [apply Hrun; lia|]. cbn [set_vruntime vruntime]. split; [done|].
  split; [|split; [|split]].
  - assert (d * BASE_WEIGHT / weight t ≤ d * BASE_WEIGHT / weight u) by (apply Z.div_le_compat_l; unfold BASE_WEIGHT; lia). lia.
  - intros Hn. rewrite Ht, Hn. change (nice_to_weight nice_DEFAULT) with BASE_WEIGHT. by rewrite Z.div_mul.
  - split.
    + intros He. apply (Z.div_small_iff (d * BASE_WEIGHT) (weight t)) in He || (assert (Hz : d * BASE_WEIGHT / weight t = 0) by lia;
        apply Z.div_small_iff in Hz; unfold BASE_WEIGHT in *; lia).
    + intros Hs. rewrite Z.div_small; unfold BASE_WEIGHT in *; lia.
  - intros d' Hd'. unfold update_vruntime. rewrite (proj2 (Z.eqb_neq _ _)) by lia. unfold cmul.
    by rewrite (proj2 (Z.ltb_ge _ _)).
Qed.

(** Witness: a task of nice -1 gains nothing from the minimal run time. *)
Lemma vruntime_correct_witness :
  ∃ t', update_vruntime 1 (demo_task 1 Normal 0 (-1)) = Some t' ∧ vruntime t' = 0.
Proof.
  destruct (vruntime_correct (demo_task 1 Normal 0 (-1)) (demo_task 2 Normal 0 0) 1) as (t' & u' & Hr & _ & _ & _ & _ & Hz & _).
  - lia.
  - reflexivity.
  - reflexivity.
  - simpl. lia.
  - by vm_compute.
  - exists t'. split; [exact Hr|]. apply Hz. by vm_compute.
Defined.

(** C2: A call of [schedule]: with no ready task nothing changes but the interrupt
    flag; otherwise the best ready task (real-time by priority, then normal by
    virtual run time, then idle, ties by identifier) becomes the current one,
    and the task that ran goes where its state and the pending wake-ups say,
    every other task staying where it was; the switch is between these two
    tasks' contexts, interrupts are on, and no task is lost or duplicated. *)
Theorem schedule_correct (s : sched) (Hs : sys_inv s) (Hacc : ACCUMULATED_RUNTIME s * BASE_WEIGHT < 2 ^ 64) :
  ∃ r s', schedule s = Some (r, s') ∧ sys_inv s' ∧ ids s' ≡ₚ ids s ∧ IF_flag s' = true ∧
    (if decide (queued s = []) then r = None ∧ s' = set_if true s else ∃ t, switched s t r s').
Proof.
  destruct Hs as [Hi H0].
  assert (Hw : wp schedule (λ r s', sys_inv s' ∧ ids s' ≡ₚ ids s ∧ IF_flag s' = true ∧
    (if decide (queued s = []) then r = None ∧ s' = set_if true s else ∃ t, switched s t r s')) s).
  { apply schedule_spec; [done|done|done|..].
    - intros Hq. rewrite decide_True by done. split; [split; [by apply inv_if|done]|done].
    - intros t r s' Hsw Hi' Hids Hif [? _]. split; [done|]. split; [done|]. split; [done|].
      rewrite decide_False; [by exists t|]. destruct Hsw as (rest & _ & Hq & _). intros He. rewrite He in Hq.
      by apply Permutation_nil_cons in Hq. }
  destruct (proj1 (wp_run _ _ _) Hw) as (r & s' & Hr & H). by exists r, s'.
Qed.

(** The state the demo events lead to. *)
Fixpoint run_events (es : list event) (s : sched) : option sched :=
  match es with [] => Some s | e :: es' => match run_event e s with Some (_, s') => run_events es' s' | None => None end end.
Definition demo_sched : sched := default demo_boot (run_events demo_events demo_boot).

Lemma steps_demo : steps demo_boot demo_events demo_sched.
Proof.
  unfold demo_events.
  eapply steps_cons; [apply demo_fresh; [vm_compute; set_solver|done]|vm_compute; reflexivity|].
  eapply steps_cons; [apply demo_fresh; [vm_compute; set_solver|done]|vm_compute; reflexivity|].
  eapply steps_cons; [apply demo_fresh; [vm_compute; set_solver|done]|vm_compute; reflexivity|].
  vm_compute. constructor.
Qed.

Lemma steps_runs s es s' : steps s es s' → runs s es s'.
Proof. induction 1 as [|s e s1 es s2 Hmay Hrun _ IH]; [constructor|]. econstructor; [by apply may_admissible|done|done]. Qed.
Lemma runs_app s es s1 es' s2 : runs s es s1 → runs s1 es' s2 → runs s (es ++ es') s2.
Proof. induction 1; [done|]. intros. econstructor; eauto. Qed.
Lemma runs_demo : runs demo_boot demo_events demo_sched.
Proof. apply steps_runs, steps_demo. Qed.

Lemma demo_boot_inv : sys_inv demo_boot.
Proof. apply boot_inv; done. Qed.
Lemma demo_sched_inv : sys_inv demo_sched.
Proof. apply (steps_spec _ _ _ demo_boot_inv steps_demo). Qed.

(** Witness: the real-time task is taken before the others, and the old task queued. *)
Lemma schedule_correct_witness : ∃ r s', schedule demo_sched = Some (r, s') ∧ id <$> CURRENT_TASK s' = Some 3 ∧
  r = Some (task_context 1, task_context 3).
Proof.
  destruct (schedule_correct demo_sched demo_sched_inv) as (r & s' & Hr & _).
  - by vm_compute.
  - exists r, s'. split; [exact Hr|].
    assert (Hc : (λ x, (x.1, id <$> CURRENT_TASK x.2)) <$> schedule demo_sched = Some (Some (task_context 1, task_context 3), Some 3)) by (vm_compute; reflexivity).
    rewrite Hr in Hc. simpl in Hc. by injection Hc as -> ->.
Defined.

(** C4: Every run of the scheduler from the boot state, over events in any order
    (scheduling, blocking twice, wake-ups of any identifier, accounting any
    time) in which every task that is added is fresh: the next event panics in
    exactly one case, when [schedule] has another task to switch to and the
    current one is a normal task charged with 2^54 ns (208 days) or more, whose
    product with the base weight overflows; otherwise it comes to its end, the
    queues, the current slot and the blocked map are well-formed after it, and
    every task that was added is in exactly one of them. *)
Theorem sched_runs_safe (t : Task) (next_id : Z) (es : list event) (s : sched) (e : event)
    (Hst : state t ≠ Terminated) (Hok : rt_priority t ≤ rt_MAX)
    (Hrun : runs (boot_state t next_id) es s) (Hadm : admissible s e) :
  (run_event e s = None ↔ overflows s e) ∧
  (¬ overflows s e → ∃ s', run_event e s = Some (tt, s') ∧ sched_inv s' ∧ ids s' ≡ₚ id t :: added (es ++ [e]) ∧ NoDup (ids s')).
Proof.
  destruct (boot_inv t next_id Hst Hok) as [Hb Hbi]. destruct (runs_spec _ _ _ Hb Hrun) as [Hs Hids].
  assert (Hfits : ¬ overflows s e → ∃ s', run_event e s = Some (tt, s') ∧ sched_inv s' ∧ ids s' ≡ₚ id t :: added (es ++ [e]) ∧ NoDup (ids s')).
  { intros Hno. destruct (proj1 (wp_run _ _ _) (run_admissible_spec e s Hs Hadm Hno)) as ([] & s' & Hr & [Hi' _] & Hids').
    exists s'. split; [done|]. split; [done|]. split; [|apply Hi']. rewrite Hids', Hids, Hbi.
    unfold added. rewrite omap_app. change (omap _ [e]) with (added [e]). change (omap _ es) with (added es).
    rewrite app_assoc. rewrite (Permutation_app_comm (added [e])). symmetry. apply Permutation_cons_append. }
  split; [|exact Hfits]. split; [|by apply overflow_panics]. intros Hnone. destruct (decide (overflows s e)) as [|Hno]; [done|].
  destruct (Hfits Hno) as (s' & Hr & _). congruence.
Qed.

(** Witness: after the demo events a switch; and after 2^54 ns the panic. *)
Lemma sched_runs_safe_witness : (∃ s', run_event EvSchedule demo_sched = Some (tt, s') ∧ ids s' ≡ₚ [1; 2; 3; 4]) ∧
  ∃ s, runs demo_boot (demo_events ++ [EvRuntime (2 ^ 54)]) s ∧ run_event EvSchedule s = None.
Proof.
  split.
  - destruct (sched_runs_safe (demo_task 1 Normal 0 0) 10 demo_events demo_sched EvSchedule) as [_ H].
    + done.
    + done.
    + exact runs_demo.
    + done.
    + destruct H as (s' & Hr & _ & Hids & _); [|exists s'; split; [exact Hr|exact Hids]].
      intros (_ & _ & t & _ & _ & _ & Ho). vm_compute in Ho. by apply Ho.
  - assert (Hr : ∃ s, runs demo_boot (demo_events ++ [EvRuntime (2 ^ 54)]) s ∧ id <$> queued s = [3; 2; 4] ∧ overflows s EvSchedule).
    { eexists. split; [eapply runs_app; [exact runs_demo|eapply runs_cons; [done|vm_compute; reflexivity|constructor]]|]. split; [vm_compute; reflexivity|].
      split; [done|]. split; [vm_compute; discriminate|]. eexists. split; [vm_compute; reflexivity|]. vm_compute. by split. }
    destruct Hr as (s & Hr & _ & Ho). exists s. split; [exact Hr|].
    apply (sched_runs_safe (demo_task 1 Normal 0 0) 10 (demo_events ++ [EvRuntime (2 ^ 54)]) s EvSchedule); [done|done|exact Hr|done|exact Ho].
Defined.

(** The order in which a wake-up is lost. *)
Lemma marked_again_lost s i : sys_inv s → marks_again i s EvMarkBlocked → ∃ s3, run_event EvMarkBlocked s = Some (tt, s3) ∧ i ∉ WAKEUP_PENDING s3 ∧
  ∀ r s4, queued s3 ≠ [] → schedule s3 = Some (r, s4) → is_Some (BLOCKED_TASKS s4 !! i) ∧ i ∉ WAKEUP_PENDING s4.
Proof.
  intros [Hi H0] (_ & Hp & t & Hc & Hid & Hst). subst i.
  assert (Hw : wp (run_event EvMarkBlocked) (λ _ s3, s3 = set_pending (WAKEUP_PENDING s ∖ {[id t]}) s) s).
  { cbn [run_event]. unfold ignore. wp_step. apply mark_blocked_spec; [done|congruence| |].
    - intros u Hu _. assert (u = t) as -> by congruence. by wp_step.
    - intros u Hu Hn. assert (u = t) as -> by congruence. done. }
  apply wp_run in Hw as ([] & s3 & Hrun & E3). exists s3. split; [exact Hrun|]. rewrite E3. split; [cbn; set_solver|]. rewrite <-E3.
  assert (Hi3 : sys_inv s3) by (rewrite E3; split; [apply inv_pending; [done|set_solver]|done]).
  intros r s4 Hq Hr. assert (Hno : ¬ overflows s3 EvSchedule).
  { apply (ran_fits EvSchedule s3 s4 Hi3). cbn [run_event]. unfold ignore, mbind, M_bind. by rewrite Hr. }
  assert (Hsch : wp schedule (λ _ s', is_Some (BLOCKED_TASKS s' !! id t) ∧ id t ∉ WAKEUP_PENDING s') s3).
  { apply schedule_fits_spec; [apply Hi3|apply Hi3|by apply no_overflow|done|]. intros u r' s' (rest & _ & _ & _ & Hold) _ _ _ _.
    assert (Hc3 : CURRENT_TASK s3 = Some t) by (by rewrite E3). rewrite Hc3 in Hold. destruct Hold as [_ Hpl]. unfold placed in Hpl.
    rewrite decide_True in Hpl by (rewrite E3; cbn; set_solver). destruct Hpl as (_ & -> & ->). rewrite lookup_insert_eq. split; [by eexists|]. rewrite E3. cbn. set_solver. }
  exact (wp_elim _ _ _ _ _ Hsch Hr).
Qed.

(** C3: No wake-up is lost, with one exception: once a task is woken, in whatever
    state it was, and through any admissible events after that, until it goes to
    sleep again after the wake-up was used up, the task is not parked, and is
    queued or current; and as long as the wake-up is pending, the task's own
    attempt to block returns at once.  The exception is the order the runs here
    leave out: a task that runs on although it is marked blocked, because no
    other was ready, is woken, and marks itself again.  It is left out because
    the wake-up is then lost: the second mark uses the wake-up up and leaves the
    task marked, and the next switch parks it with no wake-up pending. *)
Theorem no_lost_wakeup (s : sched) (i : Z) (Hs : sys_inv s) :
  (∃ s1, unblock_task i s = Some (tt, s1) ∧
    ∀ es s2, steps_awake i s1 es s2 →
      BLOCKED_TASKS s2 !! i = None ∧
      (i ∈ ids s → i ∈ id <$> (queued s2 ++ option_list (CURRENT_TASK s2))) ∧
      (∀ t, CURRENT_TASK s2 = Some t → id t = i → i ∈ WAKEUP_PENDING s2 →
         ∃ s3, block_current_task s2 = Some (None, s3) ∧ CURRENT_TASK s3 = Some t ∧ WAKEUP_PENDING s3 = WAKEUP_PENDING s2 ∖ {[i]})) ∧
  (marks_again i s EvMarkBlocked → ∃ s3, run_event EvMarkBlocked s = Some (tt, s3) ∧ i ∉ WAKEUP_PENDING s3 ∧
     ∀ r s4, queued s3 ≠ [] → schedule s3 = Some (r, s4) → is_Some (BLOCKED_TASKS s4 !! i) ∧ i ∉ WAKEUP_PENDING s4).
Proof.
  split; [|by apply marked_again_lost].
  destruct (proj1 (wp_run _ _ _) (run_event_spec (EvUnblock i) s Hs I)) as ([] & s1 & Hr & Hs1 & Hids1). simpl in Hr.
  exists s1. split; [done|]. intros es s2 Hsteps.
  pose proof (wp_elim _ _ _ _ _ (unblock_awake i s (proj1 Hs)) Hr) as Ha. simpl in Ha.
  destruct (steps_awake_spec _ _ _ _ Hs1 Ha Hsteps) as ([Hb Hp] & [Hi2 _] & Hids2).
  split; [done|]. split.
  - intros Hin. assert (Hin2 : i ∈ ids s2) by (rewrite Hids2, Hids1, !elem_of_app; by right; right).
    revert Hin2. unfold ids, all_tasks. rewrite !fmap_app, !elem_of_app. intros [?|[?|Hpk]]; [by left|by right|].
    exfalso. apply list_elem_of_fmap in Hpk as (t & -> & Ht). apply parked_lookup in Ht as [k Hk].
    destruct (si_blocked _ Hi2 _ _ Hk) as (-> & _). congruence.
  - intros t Hc <- Hpt.
    assert (Hw : wp block_current_task (λ r s3, r = None ∧ CURRENT_TASK s3 = Some t ∧ WAKEUP_PENDING s3 = WAKEUP_PENDING s2 ∖ {[id t]}) s2).
    { unfold block_current_task. wp_step. apply mark_blocked_spec; [done|..].
      - congruence.
      - intros u Hu _. wp_step. assert (u = t) as -> by congruence. done.
      - intros u Hu Hn. assert (u = t) as -> by congruence. done. }
    destruct (proj1 (wp_run _ _ _) Hw) as (r & s3 & Hr3 & -> & Hrest). by exists s3.
Qed.

(** Witness: the wake-up arrives between the task's mark and its parking. *)
Definition demo_marked : sched := default demo_boot (run_events [EvMarkBlocked] demo_sched).
Lemma demo_marked_inv : sys_inv demo_marked.
Proof.
  apply (steps_spec demo_sched [EvMarkBlocked] demo_marked demo_sched_inv).
  eapply steps_cons; [|vm_compute; reflexivity|vm_compute; constructor]. vm_compute. by intros t [= <-].
Qed.
Lemma no_lost_wakeup_witness : ∃ s1 s2, unblock_task 1 demo_marked = Some (tt, s1) ∧ run_event EvSchedule s1 = Some (tt, s2) ∧
  BLOCKED_TASKS s2 !! 1 = None.
Proof.
  destruct (no_lost_wakeup demo_marked 1 demo_marked_inv) as [(s1 & Hr & H) _].
  assert (Hc : ∃ s1' s2, unblock_task 1 demo_marked = Some (tt, s1') ∧ run_event EvSchedule s1' = Some (tt, s2) ∧
    ACCUMULATED_RUNTIME s1' = 0) by (do 2 eexists; split; [vm_compute; reflexivity|split; [vm_compute; reflexivity|reflexivity]]).
  destruct Hc as (s1' & s2 & Hr' & Hr2 & Ha). rewrite Hr in Hr'. injection Hr' as <-.
  exists s1, s2. split; [exact Hr|]. split; [exact Hr2|].
  destruct (H [EvSchedule] s2) as [Hb _]; [|exact Hb].
  eapply steps_awake_cons; [done|by intros [? _]|by intros [? _]|exact Hr2|constructor].
Defined.

(** A task that blocks when no task is ready: [schedule] returns at once and the
    task runs on while it is marked blocked; the wake-up it gets is consumed by
    its next attempt to block, and the next preemption parks it with no wake-up
    pending. *)
Theorem block_alone_loses_wakeup :
  ∃ s1 s2 s3 s4 s5 r,
    block_current_task demo_boot = Some (None, s1) ∧ state <$> CURRENT_TASK s1 = Some Blocked ∧
    unblock_task 1 s1 = Some (tt, s2) ∧
    block_current_task s2 = Some (None, s3) ∧
    run_event (EvAdd (demo_task 2 Normal 0 0)) s3 = Some (tt, s4) ∧
    schedule s4 = Some (r, s5) ∧ id <$> BLOCKED_TASKS s5 !! 1 = Some 1 ∧ 1 ∉ WAKEUP_PENDING s5.
Proof.
  do 6 eexists. split; [vm_compute; reflexivity|]. split; [reflexivity|].
  split; [vm_compute; reflexivity|]. split; [vm_compute; reflexivity|]. split; [vm_compute; reflexivity|].
  split; [vm_compute; reflexivity|]. split; [reflexivity|]. vm_compute. set_solver.
Qed.
