(* ===== verification/Sync.v ===== *)
(** * Wait queues and the blocking mutex ([kernel/src/sync/]).

    The operations of [WaitQueue] and [BlockingMutex] on the state they share
    with the scheduler, then the same code as a program counter per task, one
    step per piece that interrupts cannot split.  The spin lock of [waiters] is
    taken with interrupts off on the only processor and leaves no trace. *)
From S2P Require Import Prelude BTree Context Task Sched SchedSpec SchedThms SchedOps.
Set Default Goal Selector "!".

Record mutex := mkMutex { locked : bool; waiters : list Z }.
Definition BlockingMutex_new : mutex := mkMutex false [].

Record kstate := mkK { km : mutex; ks : sched }.
Definition on_sched {A} (m : M sched A) : M kstate A := zoom ks (λ x k, mkK (km k) x) m.
Definition set_locked (b : bool) (k : kstate) : kstate := mkK (mkMutex b (waiters (km k))) (ks k).
Definition set_waiters (l : list Z) (k : kstate) : kstate := mkK (mkMutex (locked (km k)) l) (ks k).
Definition kwithout_interrupts {A} (f : M kstate A) : M kstate A :=
  saved ← gets (λ k, IF_flag (ks k));
  on_sched cli ;;
  r ← f;
  (if saved : bool then on_sched sti else mret tt) ;;
  mret r.

(** ** Wait queues *)
(** The critical section of [wait], and the one of [wake_one] and [wake_all]. *)
Definition wait_enqueue : M kstate unit :=
  task_id ← on_sched current_task_id;
  kwithout_interrupts (modify (λ k, set_waiters (waiters (km k) ++ [task_id]) k)).
Definition pop_waiter : M kstate (option Z) :=
  kwithout_interrupts (
    l ← gets (λ k, waiters (km k));
    match l with [] => mret None | i :: l' => modify (set_waiters l') ;; mret (Some i) end).

Definition wait : M kstate (option (ctx_ptr * ctx_ptr)) := wait_enqueue ;; on_sched block_current_task.

Definition wake_one : M kstate bool :=
  task_id ← pop_waiter;
  match task_id with
  | Some i => on_sched (unblock_task i) ;; mret true
  | None => mret false
  end.

(** The loop of [wake_all]; each round takes a waiter, so one round more than
    there are waiters is enough. *)
Fixpoint wake_all_loop (fuel : nat) : M kstate unit :=
  match fuel with
  | O => panic
  | Datatypes.S fuel' =>
      task_id ← pop_waiter;
      match task_id with
      | Some i => on_sched (unblock_task i) ;; wake_all_loop fuel'
      | None => mret tt
      end
  end.
Definition wake_all : M kstate unit := n ← gets (λ k, length (waiters (km k))); wake_all_loop (Datatypes.S n).

(** ** The mutex *)
Definition compare_exchange : M kstate bool :=
  b ← gets (λ k, locked (km k));
  if b : bool then mret false else modify (set_locked true) ;; mret true.
(** [Some ()] is the guard. *)
Definition try_lock : M kstate (option unit) :=
  ok ← compare_exchange; mret (if ok : bool then Some tt else None).
(** [MutexGuard::drop]. *)
Definition guard_drop : M kstate bool := modify (set_locked false) ;; wake_one.

(** ** One task inside [lock] and [drop] *)
Inductive pc :=
  | Outside           (** not using the mutex *)
  | Locking           (** at the compare-exchange *)
  | Contended         (** the compare-exchange failed *)
  | Spinning          (** in the spin loop of an interrupt handler *)
  | Queued            (** in [wait], on the queue *)
  | Marked            (** in [block_current_task], marked blocked, at the call of [schedule] *)
  | Holding           (** has the guard *)
  | Released          (** in [drop], the flag is cleared *)
  | Waking (i : Z).   (** in [wake_one], the waiter is popped *)

Definition mutex_step (p : pc) : M kstate pc :=
  match p with
  | Outside => mret Locking
  | Locking => ok ← compare_exchange; mret (if ok : bool then Holding else Contended)
  | Contended =>
      irq ← on_sched is_interrupt_context;
      if irq : bool then mret Spinning else wait_enqueue ;; mret Queued
  | Spinning => b ← gets (λ k, locked (km k)); mret (if b : bool then Spinning else Locking)
  | Queued => b ← on_sched mark_blocked; mret (if b : bool then Marked else Locking)
  | Marked => on_sched schedule ;; mret Locking
  | Holding => modify (set_locked false) ;; mret Released
  | Released => w ← pop_waiter; mret (match w with Some i => Waking i | None => Outside end)
  | Waking i => on_sched (unblock_task i) ;; mret Outside
  end.

(** ** All tasks *)
Record sys := mkSys { sk : kstate; pcs : Z → pc }.

(** What happens outside the mutex: preemption, run time, wake-ups of any origin
    (spurious ones included), new tasks; but no other reason to block. *)
Definition outside_event (e : event) : Prop := e ≠ EvMarkBlocked.

(** [z] is the idle task: it never uses the mutex. *)
Inductive sys_step (z : Z) : sys → sys → Prop :=
  | step_current s t p k :
      CURRENT_TASK (ks (sk s)) = Some t → id t ≠ z → may (ks (sk s)) EvSchedule →
      mutex_step (pcs s (id t)) (sk s) = Some (p, k) →
      sys_step z s (mkSys k (<[id t := p]> (pcs s)))
  | step_event s e x :
      outside_event e → may (ks (sk s)) e → run_event e (ks (sk s)) = Some (tt, x) →
      sys_step z s (mkSys (mkK (km (sk s)) x) (pcs s)).

Definition sys_start (x : sched) : sys := mkSys (mkK BlockingMutex_new x) (λ _, Outside).
Definition reachable (z : Z) (x : sched) (s : sys) : Prop := rtc (sys_step z) (sys_start x) s.
