(* ===== verification/SyncThms.v ===== *)
(** * The mutex against the scheduler: the invariants of every interleaving, kept
    by each step of a task inside [lock] and [drop]. *)
From stdpp Require Import relations.
From S2P Require Import Prelude Context BTree Task Sched SchedSpec SchedThms SchedOps Sync.
Set Default Goal Selector "!".

(** ** The mutex against the scheduler: invariants of every interleaving. *)
#[local] Open Scope Z_scope.

(** The flag is set exactly while one task holds the guard. *)
Record lock_inv (l : bool) (pcs : Z → pc) : Prop := {
  li_unique : ∀ i j, pcs i = Holding → pcs j = Holding → i = j;
  li_locked : l = true ↔ ∃ i, pcs i = Holding;
}.

(** Somebody is still to wake [i]: it is on the queue, or popped. *)
Definition to_wake (m : mutex) (pcs : Z → pc) (i : Z) : Prop := i ∈ waiters m ∨ ∃ j, pcs j = Waking i.

Record wait_inv (z : Z) (m : mutex) (x : sched) (pcs : Z → pc) : Prop := {
  wi_inv : sys_inv x;
  wi_idle : pcs z = Outside ∧ z ∈ ids x ∧ awake z x;
  wi_marked : ∀ t, CURRENT_TASK x = Some t → state t = Blocked → pcs (id t) = Marked;
  wi_parked : ∀ i, BLOCKED_TASKS x !! i ≠ None → pcs i = Marked ∨ pcs i = Locking;
  wi_queued : ∀ i, pcs i = Queued → to_wake m pcs i ∨ i ∈ WAKEUP_PENDING x;
  wi_asleep : ∀ i, ¬ awake i x → to_wake m pcs i;
}.
Definition mutex_inv (z : Z) (s : sys) : Prop :=
  lock_inv (locked (km (sk s))) (pcs s) ∧ wait_inv z (km (sk s)) (ks (sk s)) (pcs s).

(** What an event outside the mutex can change of the tasks that block. *)
Record frame (x x' : sched) : Prop := {
  fr_current : ∀ t, CURRENT_TASK x' = Some t → state t = Blocked → CURRENT_TASK x = Some t;
  fr_blocked : ∀ i, BLOCKED_TASKS x' !! i ≠ None →
    BLOCKED_TASKS x !! i ≠ None ∨ ∃ t, CURRENT_TASK x = Some t ∧ id t = i ∧ state t = Blocked;
  fr_pending : ∀ i, i ∈ WAKEUP_PENDING x →
    i ∈ WAKEUP_PENDING x' ∨ ∃ t, CURRENT_TASK x = Some t ∧ id t = i ∧ state t = Blocked;
}.

Section sync.
Implicit Types (x : sched) (m : mutex) (pcs : Z → pc) (p : pc).

Lemma frame_same x x' : CURRENT_TASK x' = CURRENT_TASK x → BLOCKED_TASKS x' = BLOCKED_TASKS x →
  WAKEUP_PENDING x' = WAKEUP_PENDING x → frame x x'.
Proof. intros E1 E2 E3. split; rewrite ?E1, ?E2, ?E3; auto. Qed.

Lemma frame_switched x t r x' : switched x t r x' → frame x x'.
Proof.
  intros (rest & _ & _ & Hc & Hold). split.
  - rewrite Hc. by intros u [= <-].
  - intros i. destruct (CURRENT_TASK x) as [o|] eqn:Ho.
    + destruct Hold as [_ Hpl]. unfold placed in Hpl. case_decide as Hd.
      * destruct Hpl as (_ & -> & _). intros Hi. destruct (decide (i = id o)) as [->|Hne].
        -- right. exists o. tauto.
        -- left. by rewrite lookup_insert_ne in Hi.
      * destruct Hpl as (_ & -> & _). auto.
    + destruct Hold as (_ & _ & -> & _). auto.
  - intros i Hi. destruct (CURRENT_TASK x) as [o|] eqn:Ho.
    + destruct Hold as [_ Hpl]. unfold placed in Hpl. case_decide as Hd.
      * destruct Hpl as (_ & _ & ->). auto.
      * destruct Hpl as (_ & _ & ->). case_decide as Hb; [|auto].
        destruct (decide (i = id o)) as [->|Hne]; [right; by exists o|left; set_solver].
    + destruct Hold as (_ & _ & _ & ->). auto.
Qed.

Lemma event_frame e x : sys_inv x → outside_event e → may x e → wp (run_event e) (λ _ x', frame x x') x.
Proof.
  intros [Hi H0] Hout Hmay. destruct e as [| |j|t|delta|]; simpl in *; unfold ignore.
  - wp_step. apply schedule_spec; [done|done|done|..].
    + intros _. wp_step. by apply frame_same.
    + intros t r x' Hsw _ _ _ _. wp_step. by eapply frame_switched.
  - done.
  - apply unblock_task_spec; [done|..].
    + intros Hl. split; simpl; [auto|auto|]. intros i Hin. left. set_solver.
    + intros t x' Hl _ _ _ Hc Hb Hp _. split; rewrite ?Hc, ?Hb, ?Hp; [auto| |auto].
      intros i Hi'. left. intros Hn. apply Hi'. rewrite lookup_delete_None. by right.
  - apply try_add_task_spec; [done|done|]. intros x' _ _ _ (Hc & Hb & Hp & _). by apply frame_same.
  - unfold update_current_task_vruntime. wp_step. by apply frame_same.
  - unfold set_need_resched. wp_step. by apply frame_same.
Qed.

Lemma outside_not_asleep i e x : outside_event e → ¬ falls_asleep i x e.
Proof. intros He [? _]. done. Qed.

(** Events outside the mutex keep its invariant. *)
Lemma wait_inv_event z m x pcs e x' : wait_inv z m x pcs → outside_event e → may x e → run_event e x = Some (tt, x') →
  wait_inv z m x' pcs.
Proof.
  intros [Hi (Hz1 & Hz2 & Hz3) Hm Hp Hq Ha] Hout Hmay Hrun.
  destruct (wp_elim _ _ _ _ _ (run_event_spec e x Hi Hmay) Hrun) as [Hi' Hids].
  destruct (wp_elim _ _ _ _ _ (event_frame e x Hi Hout Hmay) Hrun) as [Fc Fb Fp].
  assert (Hmono : ∀ i, awake i x → awake i x').
  { intros i Hai. exact (wp_elim _ _ _ _ _ (run_event_awake i e x Hi Hmay (outside_not_asleep i e x Hout) Hai) Hrun). }
  split.
  - done.
  - split; [done|]. split; [rewrite Hids, elem_of_app; by right|by apply Hmono].
  - intros t Hc Hst. apply Hm; [by apply Fc|done].
  - intros i Hbi. destruct (Fb i Hbi) as [?|(t & Hc & <- & Hst)]; [by apply Hp|]. left. by apply Hm.
  - intros i Hpi. destruct (Hq i Hpi) as [?|Hpend]; [by left|]. destruct (Fp i Hpend) as [?|(t & Hc & <- & Hst)]; [by right|].
    rewrite (Hm t Hc Hst) in Hpi. done.
  - intros i Hna. apply Ha. intros Hai. by apply Hna, Hmono.
Qed.

(** The idle task is ready whenever another task runs. *)
Lemma idle_ready z x t : sched_inv x → z ∈ ids x → awake z x → CURRENT_TASK x = Some t → id t ≠ z → queued x ≠ [].
Proof.
  intros Hi Hz [Hb _] Hc Hne Hq. revert Hz. rewrite ids_split, Hq, Hc. simpl. rewrite elem_of_cons. intros [->|Hz]; [done|].
  apply list_elem_of_fmap in Hz as (u & -> & Hu). apply parked_lookup in Hu as [k Hk].
  destruct (si_blocked _ Hi _ _ Hk) as (-> & _). congruence.
Qed.

(** A step of a task that leaves the scheduler alone. *)
Lemma wait_inv_step z m m' x pcs i p : wait_inv z m x pcs → i ≠ z →
  BLOCKED_TASKS x !! i = None → (∀ t, CURRENT_TASK x = Some t → id t = i → state t ≠ Blocked) →
  (∀ j, to_wake m pcs j → to_wake m' (<[i := p]> pcs) j) →
  (p = Queued → to_wake m' (<[i := p]> pcs) i) →
  wait_inv z m' x (<[i := p]> pcs).
Proof.
  intros [Hi (Hz1 & Hz2 & Hz3) Hm Hp Hq Ha] Hne Hnb Hst Hw Hpq. split.
  - done.
  - by rewrite fn_lookup_insert_ne.
  - intros t Hc Hs. rewrite fn_lookup_insert_ne; [by apply Hm|]. intros ->. by apply (Hst t).
  - intros j Hj. rewrite fn_lookup_insert_ne; [by apply Hp|]. congruence.
  - intros j Hj. destruct (decide (i = j)) as [->|Hij].
    + rewrite fn_lookup_insert in Hj. left. by apply Hpq.
    + rewrite fn_lookup_insert_ne in Hj by done. destruct (Hq j Hj); [left; by apply Hw|by right].
  - intros j Hj. by apply Hw, Ha.
Qed.

Lemma to_wake_keep m m' pcs i p j : (∀ k, pcs i ≠ Waking k) → waiters m ⊆ waiters m' → to_wake m pcs j → to_wake m' (<[i := p]> pcs) j.
Proof.
  intros Hn Hsub [Hj|[k Hk]]; [left; by apply Hsub|right]. exists k. rewrite fn_lookup_insert_ne; [done|]. intros ->. by eapply Hn.
Qed.

(** The lock part: only [Holding] matters. *)
Lemma lock_inv_same l pcs i p : lock_inv l pcs → pcs i ≠ Holding → p ≠ Holding → lock_inv l (<[i := p]> pcs).
Proof.
  intros [Hu Hl] Hi Hp.
  assert (Hiff : ∀ j, (<[i := p]> pcs) j = Holding ↔ pcs j = Holding).
  { intros j. destruct (decide (i = j)) as [->|Hij]; [by rewrite fn_lookup_insert|by rewrite fn_lookup_insert_ne]. }
  split.
  - intros j k Hj Hk. by apply Hu; apply Hiff.
  - rewrite Hl. split; intros [j Hj]; exists j; by apply Hiff.
Qed.
Lemma lock_inv_take pcs i : lock_inv false pcs → lock_inv true (<[i := Holding]> pcs).
Proof.
  intros [Hu Hl]. assert (Hno : ∀ j, pcs j ≠ Holding) by (intros j Hj; destruct Hl as [_ Hl]; discriminate Hl; by exists j).
  split.
  - intros j k Hj Hk. destruct (decide (i = j)) as [<-|?], (decide (i = k)) as [<-|?]; try done.
    + rewrite fn_lookup_insert_ne in Hk by done. by destruct (Hno k).
    + rewrite fn_lookup_insert_ne in Hj by done. by destruct (Hno j).
    + rewrite fn_lookup_insert_ne in Hj by done. by destruct (Hno j).
  - split; [|done]. intros _. exists i. by rewrite fn_lookup_insert.
Qed.
Lemma lock_inv_drop l pcs i p : lock_inv l pcs → pcs i = Holding → p ≠ Holding → lock_inv false (<[i := p]> pcs).
Proof.
  intros [Hu Hl] Hi Hp. assert (Hno : ∀ j, (<[i := p]> pcs) j ≠ Holding).
  { intros j Hj. destruct (decide (i = j)) as [->|Hij]; [by rewrite fn_lookup_insert in Hj|].
    rewrite fn_lookup_insert_ne in Hj by done. by apply Hij, Hu. }
  split; [intros j k Hj; by destruct (Hno j)|]. split; [done|]. intros [j Hj]. by destruct (Hno j).
Qed.
End sync.

(** ** Each step of a task inside [lock] and [drop] keeps the mutex's invariant. *)
#[local] Open Scope Z_scope.

Section steps.
Implicit Types (x : sched) (m : mutex) (pcs : Z → pc) (p : pc) (t : Task).

Lemma wp_on_sched {A} (f : M sched A) Q k : wp f (λ a x, Q a (mkK (km k) x)) (ks k) → wp (on_sched f) Q k.
Proof. intros. by apply wp_zoom. Qed.

Lemma wp_kwithout {A} (f : M kstate A) Q k :
  wp f (λ a k', IF_flag (ks k') = false ∧ Q a (mkK (km k') (set_if (IF_flag (ks k)) (ks k')))) (mkK (km k) (set_if false (ks k))) →
  wp (kwithout_interrupts f) Q k.
Proof.
  intros Hf. unfold kwithout_interrupts, cli, sti. wp_step. wp_step. wp_step. apply wp_on_sched. wp_step. wp_step.
  eapply wp_mono; [exact Hf|]. intros a [m' x'] [Hif HQ]. simpl in *. wp_step. destruct (IF_flag (ks k)).
  - apply wp_on_sched. wp_step. wp_step. exact HQ.
  - wp_step. wp_step. destruct x'. simpl in *. by subst.
Qed.

Lemma set_if_back x : set_if (IF_flag x) (set_if false x) = x.
Proof. by destruct x. Qed.

Lemma wp_pop_waiter Q k :
  (waiters (km k) = [] → Q None k) →
  (∀ i l, waiters (km k) = i :: l → Q (Some i) (mkK (mkMutex (locked (km k)) l) (ks k))) → wp pop_waiter Q k.
Proof.
  intros Hnone Hsome. unfold pop_waiter. apply wp_kwithout. wp_step. wp_step. simpl.
  destruct (waiters (km k)) as [|i l] eqn:Hw.
  - wp_step. split; [done|]. simpl. rewrite set_if_back. destruct k. by apply Hnone.
  - wp_step. wp_step. wp_step. split; [done|]. simpl. rewrite set_if_back. by apply Hsome.
Qed.

Lemma wp_wait_enqueue Q m x t : CURRENT_TASK x = Some t →
  Q tt (mkK (mkMutex (locked m) (waiters m ++ [id t])) x) → wp wait_enqueue Q (mkK m x).
Proof.
  intros Hc HQ. unfold wait_enqueue. wp_step. apply wp_on_sched. unfold current_task_id. apply wp_without_interrupts.
  wp_step. wp_step. simpl. rewrite Hc. wp_step. split; [done|]. rewrite set_if_back.
  apply wp_kwithout. wp_step. split; [done|]. simpl. by rewrite set_if_back.
Qed.

(** The whole invariant as one predicate on the parts. *)
Definition inv_parts (z : Z) (k : kstate) (pcs : Z → pc) : Prop :=
  lock_inv (locked (km k)) pcs ∧ wait_inv z (km k) (ks k) pcs.

(** Steps that leave the scheduler alone, but for the lock part. *)
Lemma quiet z m m' x pcs t p : wait_inv z m x pcs → CURRENT_TASK x = Some t → id t ≠ z → pcs (id t) ≠ Marked →
  (∀ j, pcs (id t) ≠ Waking j) → waiters m ⊆ waiters m' → (p = Queued → id t ∈ waiters m') →
  wait_inv z m' x (<[id t := p]> pcs).
Proof.
  intros Hw Hc Hne Hpm Hpw Hsub Hq. apply (wait_inv_step z m); [done|done|..].
  - apply current_not_parked; [apply Hw|done].
  - intros u Hu _ Hst. assert (u = t) as -> by congruence. by apply Hpm, (wi_marked _ _ _ _ Hw).
  - intros j. by apply to_wake_keep.
  - intros Hp. left. by apply Hq.
Qed.

Lemma step_queued z m x pcs t Q : lock_inv (locked m) pcs → wait_inv z m x pcs → CURRENT_TASK x = Some t → id t ≠ z → pcs (id t) = Queued →
  (∀ p x', inv_parts z (mkK m x') (<[id t := p]> pcs) → Q p (mkK m x')) → wp (mutex_step Queued) Q (mkK m x).
Proof.
  intros Hl Hw Hc Hne Hpc HQ. pose proof Hw as [[Hi H0] (Hz1 & Hz2 & Hz3) Hm Hp Hq Ha].
  assert (Hst : state t ≠ Blocked) by (intros Hs; specialize (Hm t Hc Hs); congruence).
  assert (Hnb : BLOCKED_TASKS x !! id t = None) by (by apply current_not_parked).
  assert (Hmono : ∀ j (p : pc), to_wake m pcs j → to_wake m (<[id t := p]> pcs) j).
  { intros j p. apply to_wake_keep; [|done]. intros k. by rewrite Hpc. }
  unfold mutex_step. wp_step. apply wp_on_sched. cbn [ks km]. apply mark_blocked_spec; [done|..].
  - congruence.
  - intros u Hu Hpend. assert (u = t) as -> by congruence. wp_step. apply HQ. split; simpl.
    { apply lock_inv_same; [done|by rewrite Hpc|done]. }
    destruct (inv_pending x (WAKEUP_PENDING x ∖ {[id t]}) Hi) as [Hi' Hids']; [set_solver|]. split; simpl.
    + done.
    + split; [by rewrite fn_lookup_insert_ne|]. split; [by rewrite Hids'|]. destruct Hz3 as [Hz3 [Hz4|Hz4]].
      * split; [done|]. left. simpl. set_solver.
      * split; [done|]. by right.
    + intros u Hu' Hs. congruence.
    + intros j Hj. destruct (decide (id t = j)) as [<-|Hij]; [done|]. rewrite fn_lookup_insert_ne by done. by apply Hp.
    + intros j Hj. destruct (decide (id t = j)) as [<-|Hij]; [by rewrite fn_lookup_insert in Hj|].
      rewrite fn_lookup_insert_ne in Hj by done. destruct (Hq j Hj); [left; by apply Hmono|right; set_solver].
    + intros j Hj. apply Hmono, Ha. intros [Hb Hpa]. apply Hj. split; [done|]. simpl.
      destruct (decide (id t = j)) as [<-|Hij]; [right; intros u Hu' _; congruence|].
      destruct Hpa; [left; set_solver|by right].
  - intros u Hu Hnp. assert (u = t) as -> by congruence. wp_step. apply HQ. split; simpl.
    { apply lock_inv_same; [done|by rewrite Hpc|done]. }
    destruct (inv_recurrent x t (set_state Blocked t) Hi Hc) as [Hi' Hids']; [done|done|exact (proj2 (si_current _ Hi _ Hc))|].
    split; simpl.
    + done.
    + split; [by rewrite fn_lookup_insert_ne|]. split; [by rewrite Hids'|]. destruct Hz3 as [Hz3 Hz4].
      split; [done|]. right. intros u [= <-]. done.
    + intros u [= <-] _. by rewrite fn_lookup_insert.
    + intros j Hj. destruct (decide (id t = j)) as [<-|Hij]; [done|]. rewrite fn_lookup_insert_ne by done. by apply Hp.
    + intros j Hj. destruct (decide (id t = j)) as [<-|Hij]; [by rewrite fn_lookup_insert in Hj|].
      rewrite fn_lookup_insert_ne in Hj by done. destruct (Hq j Hj); [left; by apply Hmono|by right].
    + intros j Hj. apply Hmono. destruct (decide (id t = j)) as [<-|Hij]; [destruct (Hq _ Hpc); done|].
      apply Ha. intros [Hb Hpa]. apply Hj. split; [done|]. right. by intros u [= <-].
Qed.

Lemma step_marked z m x pcs t Q : lock_inv (locked m) pcs → wait_inv z m x pcs → CURRENT_TASK x = Some t → id t ≠ z → pcs (id t) = Marked →
  may x EvSchedule →
  (∀ p x', inv_parts z (mkK m x') (<[id t := p]> pcs) → Q p (mkK m x')) → wp (mutex_step Marked) Q (mkK m x).
Proof.
  intros Hl Hw Hc Hne Hpc Hmay HQ. pose proof (wi_inv _ _ _ _ Hw) as [Hi H0]. destruct (wi_idle _ _ _ _ Hw) as (Hz1 & Hz2 & Hz3).
  assert (Hout : outside_event EvSchedule) by done.
  assert (Hrun : wp schedule (λ _ x', ∃ u, CURRENT_TASK x' = Some (set_state Running u)) x).
  { apply schedule_spec; [done|done|done|..].
    - intros Hq. exfalso. by apply (idle_ready z x t Hi Hz2 Hz3 Hc Hne).
    - intros u r x' (rest & _ & _ & Hu & _) _ _ _ _. by exists u. }
  destruct (proj1 (wp_run _ _ _) Hrun) as (r & x' & Hr & u & Hu).
  assert (Hev : run_event EvSchedule x = Some (tt, x')).
  { unfold run_event, ignore, mbind, M_bind. by rewrite Hr. }
  pose proof (wait_inv_event z m x pcs EvSchedule x' Hw Hout Hmay Hev) as Hw'.
  unfold mutex_step. wp_step. apply wp_on_sched. cbn [ks km]. apply wp_run. exists r, x'. split; [done|]. wp_step.
  apply HQ. split; simpl; [by apply lock_inv_same; rewrite ?Hpc|].
  destruct Hw' as [Hi' (Hz1' & Hz2' & Hz3') Hm' Hp' Hq' Ha'].
  assert (Hkeep : ∀ j, to_wake m pcs j → to_wake m (<[id t := Locking]> pcs) j).
  { intros j. apply to_wake_keep; [|done]. intros k. by rewrite Hpc. }
  split.
  - done.
  - by rewrite fn_lookup_insert_ne.
  - intros v Hv Hs. rewrite Hu in Hv. injection Hv as <-. done.
  - intros j Hj. destruct (decide (id t = j)) as [<-|Hij]; [rewrite fn_lookup_insert; by right|].
    rewrite fn_lookup_insert_ne by done. by apply Hp'.
  - intros j Hj. destruct (decide (id t = j)) as [<-|Hij]; [by rewrite fn_lookup_insert in Hj|].
    rewrite fn_lookup_insert_ne in Hj by done. destruct (Hq' j Hj); [left; by apply Hkeep|by right].
  - intros j Hj. by apply Hkeep, Ha'.
Qed.

Lemma step_waking z m x pcs t i Q : lock_inv (locked m) pcs → wait_inv z m x pcs → CURRENT_TASK x = Some t → id t ≠ z → pcs (id t) = Waking i →
  (∀ p x', inv_parts z (mkK m x') (<[id t := p]> pcs) → Q p (mkK m x')) → wp (mutex_step (Waking i)) Q (mkK m x).
Proof.
  intros Hl Hw Hc Hne Hpc HQ. pose proof (wi_inv _ _ _ _ Hw) as Hi.
  assert (Hrun : wp (unblock_task i) (λ _ x', run_event (EvUnblock i) x = Some (tt, x') ∧ awake i x' ∧ CURRENT_TASK x' = CURRENT_TASK x ∧
    (BLOCKED_TASKS x !! i = None → i ∈ WAKEUP_PENDING x')) x).
  { apply wp_run. destruct (proj1 (wp_run _ _ _) (run_event_spec (EvUnblock i) x Hi I)) as ([] & x' & Hr & _).
    exists tt, x'. split; [exact Hr|]. split; [exact Hr|].
    split; [exact (wp_elim _ _ _ _ _ (unblock_awake i x (proj1 Hi)) Hr)|].
    refine (wp_elim (unblock_task i) (λ _ x', CURRENT_TASK x' = CURRENT_TASK x ∧ (_ → i ∈ WAKEUP_PENDING x')) x tt x' _ Hr).
    apply unblock_task_spec; [apply Hi|..].
    - intros _. split; [done|]. simpl. set_solver.
    - intros u x1 Hu _ _ _ Hc1 _ _ _. split; [done|]. congruence. }
  destruct (proj1 (wp_run _ _ _) Hrun) as ([] & x' & Hr & Hev & Haw & Hcur & Hpend).
  destruct (wait_inv_event z m x pcs (EvUnblock i) x' Hw ltac:(done) I Hev) as [Hi' (Hz1' & Hz2' & Hz3') Hm' Hp' Hq' Ha'].
  unfold mutex_step. wp_step. apply wp_on_sched. cbn [ks km]. apply wp_run. exists tt, x'. split; [done|]. wp_step.
  apply HQ. split; simpl; [by apply lock_inv_same; rewrite ?Hpc|].
  assert (Hkeep : ∀ j, j ≠ i → to_wake m pcs j → to_wake m (<[id t := Outside]> pcs) j).
  { intros j Hj [?|[k Hk]]; [by left|right]. exists k. rewrite fn_lookup_insert_ne; [done|]. intros <-. congruence. }
  split.
  - done.
  - by rewrite fn_lookup_insert_ne.
  - intros v Hv Hs. rewrite fn_lookup_insert_ne; [by apply Hm'|]. intros Hid. rewrite Hcur, Hc in Hv. injection Hv as <-.
    rewrite (wi_marked _ _ _ _ Hw t Hc Hs) in Hpc. done.
  - intros j Hj. assert (id t ≠ j). { intros <-. rewrite Hcur in *. apply Hj, current_not_parked; [apply Hi'|congruence]. }
    rewrite fn_lookup_insert_ne by done. by apply Hp'.
  - intros j Hj. destruct (decide (id t = j)) as [<-|Hij]; [by rewrite fn_lookup_insert in Hj|].
    rewrite fn_lookup_insert_ne in Hj by done. destruct (decide (j = i)) as [->|Hji].
    + right. apply Hpend. destruct (BLOCKED_TASKS x !! i) as [u|] eqn:Hb; [|done]. exfalso.
      destruct (wi_parked _ _ _ _ Hw i); congruence.
    + destruct (Hq' j Hj); [left; by apply Hkeep|by right].
  - intros j Hj. apply Hkeep; [by intros ->|by apply Ha'].
Qed.

(** Every step of a task. *)
Lemma mutex_step_inv z m x pcs t Q : inv_parts z (mkK m x) pcs → CURRENT_TASK x = Some t → id t ≠ z → may x EvSchedule →
  (∀ p k, inv_parts z k (<[id t := p]> pcs) → Q p k) → wp (mutex_step (pcs (id t))) Q (mkK m x).
Proof.
  intros [Hl Hw] Hc Hne Hmay HQ. simpl in Hl, Hw.
  destruct (pcs (id t)) as [| | | | | | | |i] eqn:Hpc.
  - unfold mutex_step. wp_step. apply HQ. split; [by apply lock_inv_same; rewrite ?Hpc|]. by apply (quiet z m); rewrite ?Hpc.
  - unfold mutex_step, compare_exchange. wp_step. wp_step. wp_step. simpl. destruct (locked m) eqn:Hlk.
    + wp_step. wp_step. apply HQ. split; [rewrite <-Hlk in Hl; by apply lock_inv_same; rewrite ?Hpc|]. by apply (quiet z m); rewrite ?Hpc.
    + wp_step. wp_step. wp_step. wp_step. apply HQ. split; [by apply lock_inv_take|]. by apply (quiet z m); rewrite ?Hpc.
  - unfold mutex_step. wp_step. apply wp_on_sched. unfold is_interrupt_context. wp_step. wp_step. wp_step. cbn [ks km].
    destruct (negb (IF_flag x)).
    + wp_step. apply HQ. split; [by apply lock_inv_same; rewrite ?Hpc|]. by apply (quiet z m); rewrite ?Hpc.
    + wp_step. apply (wp_wait_enqueue _ _ _ t); [done|]. wp_step. apply HQ. split; [by apply lock_inv_same; rewrite ?Hpc|].
      apply (quiet z m); rewrite ?Hpc; [done|done|done|done|done|..]; simpl; set_solver.
  - unfold mutex_step. wp_step. wp_step. simpl. destruct (locked m) eqn:Hlk; wp_step; apply HQ;
      (split; [rewrite <-Hlk in Hl; by apply lock_inv_same; rewrite ?Hpc|]; by apply (quiet z m); rewrite ?Hpc).
  - eapply step_queued; [done|done|done|done|done|]. intros p x' H. by apply HQ.
  - eapply step_marked; [done|done|done|done|done|done|]. intros p x' H. by apply HQ.
  - unfold mutex_step. wp_step. wp_step. wp_step. apply HQ. split; [by eapply lock_inv_drop|]. by apply (quiet z m); rewrite ?Hpc.
  - unfold mutex_step. wp_step. apply wp_pop_waiter; cbn [km ks].
    + intros He. wp_step. apply HQ. split; [by apply lock_inv_same; rewrite ?Hpc|]. by apply (quiet z m); rewrite ?Hpc.
    + intros i l Hil. wp_step. apply HQ. split; [by apply lock_inv_same; rewrite ?Hpc|]. simpl.
      apply (wait_inv_step z m); [done|done| | | |done].
      * apply current_not_parked; [apply Hw|done].
      * intros u Hu Hid Hs. rewrite <-Hid, (wi_marked _ _ _ _ Hw u Hu Hs) in Hpc. done.
      * intros j [Hj|[k Hk]].
        -- rewrite Hil, elem_of_cons in Hj. destruct Hj as [->|Hj]; [|by left]. right. exists (id t). by rewrite fn_lookup_insert.
        -- right. exists k. rewrite fn_lookup_insert_ne; [done|]. intros <-. congruence.
  - eapply step_waking; [done|done|done|done|done|]. intros p x' H. by apply HQ.
Qed.

Lemma sys_step_inv z s s' : mutex_inv z s → sys_step z s s' → mutex_inv z s'.
Proof.
  intros Hinv Hstep. destruct Hstep as [s t p k Hc Hne Hmay Hrun|s e x Hout Hmay Hrun].
  - destruct s as [[m x] pcs]. simpl in *.
    exact (wp_elim _ _ _ _ _ (mutex_step_inv z m x pcs t (λ p k, mutex_inv z (mkSys k (<[id t := p]> pcs))) Hinv Hc Hne Hmay (λ p k H, H)) Hrun).
  - destruct Hinv as [Hl Hw]. split; [exact Hl|]. simpl. by eapply wait_inv_event.
Qed.

Lemma sys_start_inv z x : sys_inv x → BLOCKED_TASKS x = ∅ → z ∈ ids x →
  (∀ t, CURRENT_TASK x = Some t → state t ≠ Blocked) → mutex_inv z (sys_start x).
Proof.
  intros Hi Hb Hz Hst. assert (Haw : ∀ i, awake i x).
  { intros i. split; [by rewrite Hb|]. right. intros t Ht _. by apply Hst. }
  split; simpl.
  - split; [done|]. split; [done|]. by intros [i Hi'].
  - split; simpl.
    + done.
    + split; [done|]. by split.
    + intros t Ht Hs. by destruct (Hst t).
    + intros i Hn. by rewrite Hb in Hn.
    + done.
    + intros i Hn. by destruct Hn.
Qed.

Lemma reachable_inv z x s : sys_inv x → BLOCKED_TASKS x = ∅ → z ∈ ids x →
  (∀ t, CURRENT_TASK x = Some t → state t ≠ Blocked) → reachable z x s → mutex_inv z s.
Proof.
  intros Hi Hb Hz Hst Hr. assert (H0 : mutex_inv z (sys_start x)) by (by apply sys_start_inv).
  unfold reachable in Hr. induction Hr as [s|s1 s2 s3 Hstep _ IH]; [done|]. apply IH. by eapply sys_step_inv.
Qed.
End steps.
