(* ===== verification/SyncProps.v ===== *)
(** * Wait queues and the mutex: the theorems. *)
From S2P Require Import Prelude BTree Context Task Sched SchedSpec SchedThms SchedOps SchedProps Sync SyncThms.
From stdpp Require Import relations.
#[local] Open Scope Z_scope.
Set Default Goal Selector "!".

(** ** Runs as data, for the witnesses *)
Inductive action := Cur | Preempt.
Definition exec_action (z : Z) (a : action) (s : sys) : option sys :=
  if ACCUMULATED_RUNTIME (ks (sk s)) * BASE_WEIGHT <? 2 ^ 64 then
    match a with
    | Cur =>
        t ← CURRENT_TASK (ks (sk s));
        if id t =? z then None else
        '(p, k) ← mutex_step (pcs s (id t)) (sk s);
        Some (mkSys k (<[id t := p]> (pcs s)))
    | Preempt => '(_, x) ← run_event EvSchedule (ks (sk s)); Some (mkSys (mkK (km (sk s)) x) (pcs s))
    end
  else None.
Fixpoint exec (z : Z) (acts : list action) (s : sys) : option sys :=
  match acts with [] => Some s | a :: acts' => s' ← exec_action z a s; exec z acts' s' end.

Section props.
Implicit Types (x : sched) (s : sys).

Lemma exec_action_step z a s s' : exec_action z a s = Some s' → sys_step z s s'.
Proof.
  unfold exec_action. destruct (Z.ltb_spec (ACCUMULATED_RUNTIME (ks (sk s)) * BASE_WEIGHT) (2 ^ 64)) as [Hacc|]; [|done].
  destruct a.
  - destruct (CURRENT_TASK (ks (sk s))) as [t|] eqn:Hc; [|done]. simpl. destruct (Z.eqb_spec (id t) z); [done|].
    destruct (mutex_step (pcs s (id t)) (sk s)) as [[p k]|] eqn:Hm; [|done]. simpl. intros [= <-]. by eapply step_current.
  - destruct (run_event EvSchedule (ks (sk s))) as [[[] x]|] eqn:Hr; [|done]. simpl. intros [= <-].
    apply (step_event z s EvSchedule); [done|done|]. exact Hr.
Qed.

Lemma exec_reachable z acts s s' : exec z acts s = Some s' → rtc (sys_step z) s s'.
Proof.
  revert s. induction acts as [|a acts IH]; intros s; simpl; [by intros [= ->]|].
  destruct (exec_action z a s) as [s1|] eqn:Ha; [|done]. simpl. intros He.
  eapply rtc_l; [by eapply exec_action_step|by apply IH].
Qed.

(** Only a wake-up takes a task out of the blocked map. *)
Lemma parked_stays i e x : sys_inv x → may x e → e ≠ EvUnblock i → BLOCKED_TASKS x !! i ≠ None →
  wp (run_event e) (λ _ x', BLOCKED_TASKS x' !! i ≠ None) x.
Proof.
  intros [Hi H0] Hmay Hne Hb. destruct e as [| |j|t|delta|]; simpl in *; unfold ignore.
  - wp_step. apply schedule_spec; [done|done|done|..].
    + intros _. by wp_step.
    + intros t r x' (rest & _ & _ & _ & Hold) _ _ _ _. wp_step. destruct (CURRENT_TASK x) as [o|].
      * destruct Hold as [_ Hpl]. unfold placed in Hpl. case_decide.
        -- destruct Hpl as (_ & -> & _). intros [Hn _]%lookup_insert_None. done.
        -- destruct Hpl as (_ & -> & _). done.
      * destruct Hold as (_ & _ & -> & _). done.
  - wp_step. apply mark_blocked_spec; [done|..]; intros; by wp_step.
  - apply unblock_task_spec; [done|done|]. intros t x' _ _ _ _ _ -> _ _. rewrite lookup_delete_ne by congruence. done.
  - apply try_add_task_spec; [done|done|]. intros x' _ _ _ (_ & -> & _). done.
  - unfold update_current_task_vruntime. by wp_step.
  - unfold set_need_resched. by wp_step.
Qed.

Lemma parked_stays_steps i x es x' : sys_inv x → steps x es x' → EvUnblock i ∉ es → BLOCKED_TASKS x !! i ≠ None →
  BLOCKED_TASKS x' !! i ≠ None.
Proof.
  intros Hs Hsteps. induction Hsteps as [|x e x1 es x2 Hmay Hrun _ IH]; [done|]. rewrite not_elem_of_cons. intros [Hne Hn] Hb.
  apply IH; [exact (proj1 (wp_elim _ _ _ _ _ (run_event_spec e x Hs Hmay) Hrun))|done|].
  refine (wp_elim _ _ _ _ _ (parked_stays i e x Hs Hmay _ Hb) Hrun). by intros ->.
Qed.

(** [wake_all] wakes every waiter, in any state of the scheduler. *)
Lemma wake_all_loop_spec l : ∀ n m x Q, (length l < n)%nat → waiters m = l → sys_inv x →
  (∀ x', sys_inv x' → ids x' ≡ₚ ids x → CURRENT_TASK x' = CURRENT_TASK x → (∀ i, i ∈ l ∨ awake i x → awake i x') → Q tt (mkK (mkMutex (locked m) []) x')) →
  wp (wake_all_loop n) Q (mkK m x).
Proof.
  induction l as [|i l IH]; intros [|n] m x Q Hn Hw Hs HQ; simpl in Hn; try lia.
  - cbn [wake_all_loop]. wp_step. apply wp_pop_waiter; cbn [km ks]; [|congruence]. intros _. wp_step.
    destruct m as [b w]. simpl in *. subst w. apply HQ; [done|done|done|]. intros i [Hi|Hi]; [by apply not_elem_of_nil in Hi|done].
  - cbn [wake_all_loop]. wp_step. apply wp_pop_waiter; cbn [km ks]; [congruence|]. intros i' l' Hil. rewrite Hw in Hil.
    injection Hil as <- <-. wp_step. apply wp_on_sched. cbn [ks km].
    destruct (proj1 (wp_run _ _ _) (run_event_spec (EvUnblock i) x Hs I)) as ([] & x1 & Hr & Hs1 & Hids1). simpl in Hr.
    pose proof (wp_elim _ _ _ _ _ (unblock_awake i x (proj1 Hs)) Hr) as Ha. simpl in Ha.
    assert (Hm1 : ∀ j, awake j x → awake j x1).
    { intros j Hj. refine (wp_elim _ _ _ _ _ (run_event_awake j (EvUnblock i) x Hs I _ Hj) Hr). by intros [? _]. }
    assert (Hc1 : CURRENT_TASK x1 = CURRENT_TASK x).
    { refine (wp_elim (unblock_task i) (λ _ x', CURRENT_TASK x' = CURRENT_TASK x) x tt x1 _ Hr).
      apply unblock_task_spec; [apply Hs|done|]. by intros t x' _ _ _ _ Hc _ _ _. }
    apply wp_run. exists tt, x1. split; [exact Hr|]. apply (IH n (mkMutex (locked m) l)); [lia|done|done|].
    intros x' Hs' Hids' Hc' Hm'. apply HQ; [done|by rewrite Hids', Hids1|by rewrite Hc', Hc1|].
    intros j [Hj|Hj]; [|by apply Hm'; right; apply Hm1]. apply elem_of_cons in Hj as [->|Hj]; apply Hm'; [by right|by left].
Qed.
End props.

(** The state the examples start in: tasks 1 and 2 and the idle task 4. *)
Definition demo_two : sched :=
  default demo_boot (run_events [EvAdd (demo_task 2 Normal 0 0); EvAdd (demo_task 4 Idle 0 19)] demo_boot).
Lemma demo_two_inv : sys_inv demo_two ∧ ids demo_two ≡ₚ [2; 4; 1].
Proof.
  apply (steps_spec demo_boot [EvAdd (demo_task 2 Normal 0 0); EvAdd (demo_task 4 Idle 0 19)] demo_two demo_boot_inv).
  eapply steps_cons; [apply demo_fresh; [vm_compute; set_solver|done]|vm_compute; reflexivity|].
  eapply steps_cons; [apply demo_fresh; [vm_compute; set_solver|done]|vm_compute; reflexivity|].
  vm_compute. constructor.
Qed.
Lemma demo_two_ids : 4 ∈ ids demo_two.
Proof. rewrite (proj2 demo_two_inv). right. by left. Qed.

(** C12: Mutual exclusion: in every interleaving of any number of tasks locking and
    unlocking, preempted anywhere, woken spuriously, at most one holds the
    guard, and the flag is set exactly while one does; no step of the running
    task panics. *)
Theorem mutex_mutual_exclusion (z : Z) (x : sched) (s : sys) (Hx : sys_inv x) (Hb : BLOCKED_TASKS x = ∅) (Hz : z ∈ ids x)
    (Hst : ∀ t, CURRENT_TASK x = Some t → state t ≠ Blocked) (Hr : reachable z x s) :
  (∀ i j, pcs s i = Holding → pcs s j = Holding → i = j) ∧
  (locked (km (sk s)) = true ↔ ∃ i, pcs s i = Holding) ∧
  (∀ t, CURRENT_TASK (ks (sk s)) = Some t → id t ≠ z → ACCUMULATED_RUNTIME (ks (sk s)) * BASE_WEIGHT < 2 ^ 64 →
     ∃ p k, mutex_step (pcs s (id t)) (sk s) = Some (p, k)).
Proof.
  destruct (reachable_inv z x s Hx Hb Hz Hst Hr) as [[Hu Hl] Hw]. split; [exact Hu|]. split; [exact Hl|].
  intros t Hc Hne Hacc. destruct s as [[m y] pcs0]. simpl in *.
  destruct (proj1 (wp_run _ _ _) (mutex_step_inv z m y pcs0 t (λ _ _, True) (conj (Build_lock_inv _ _ Hu Hl) Hw) Hc Hne Hacc (λ _ _ _, I)))
    as (p & k & Hp & _). by exists p, k.
Qed.

(** Witness: the second task fails to lock while the first holds the guard. *)
Lemma mutex_mutual_exclusion_witness : ∃ s, reachable 4 demo_two s ∧ pcs s 1 = Holding ∧ pcs s 2 = Contended ∧ locked (km (sk s)) = true.
Proof.
  destruct (exec 4 [Cur; Cur; Preempt; Cur; Cur] (sys_start demo_two)) as [s|] eqn:He; [|by vm_compute in He].
  assert (Hr : reachable 4 demo_two s) by (by eapply exec_reachable).
  assert (Hp : (λ s, (pcs s 1, pcs s 2)) <$> exec 4 [Cur; Cur; Preempt; Cur; Cur] (sys_start demo_two) = Some (Holding, Contended))
    by (vm_compute; reflexivity).
  rewrite He in Hp. simpl in Hp. injection Hp as Hp1 Hp2.
  exists s. split; [exact Hr|]. split; [exact Hp1|]. split; [exact Hp2|].
  destruct (mutex_mutual_exclusion 4 demo_two s (proj1 demo_two_inv) ltac:(vm_compute; reflexivity) demo_two_ids
    ltac:(vm_compute; by intros t [= <-]) Hr) as (_ & [_ Hl] & _).
  apply Hl. by exists 1.
Defined.

(** C13: A task that sleeps in [lock] can be found: in every interleaving, a parked
    task, or one marked blocked with no wake-up pending, is on the wait queue or
    already popped by a task that will wake it; so is every task between queueing
    itself and sleeping, unless its wake-up is pending already. *)
Theorem mutex_sleepers_queued (z : Z) (x : sched) (s : sys) (Hx : sys_inv x) (Hb : BLOCKED_TASKS x = ∅) (Hz : z ∈ ids x)
    (Hst : ∀ t, CURRENT_TASK x = Some t → state t ≠ Blocked) (Hr : reachable z x s) (i : Z) :
  (BLOCKED_TASKS (ks (sk s)) !! i ≠ None → i ∈ waiters (km (sk s)) ∨ ∃ j, pcs s j = Waking i) ∧
  (∀ t, CURRENT_TASK (ks (sk s)) = Some t → id t = i → state t = Blocked → i ∉ WAKEUP_PENDING (ks (sk s)) →
     i ∈ waiters (km (sk s)) ∨ ∃ j, pcs s j = Waking i) ∧
  (pcs s i = Queued → i ∈ waiters (km (sk s)) ∨ (∃ j, pcs s j = Waking i) ∨ i ∈ WAKEUP_PENDING (ks (sk s))).
Proof.
  destruct (reachable_inv z x s Hx Hb Hz Hst Hr) as [_ Hw]. split; [|split].
  - intros Hn. apply (wi_asleep _ _ _ _ Hw). by intros [? _].
  - intros t Hc Hid Hs Hn. apply (wi_asleep _ _ _ _ Hw). intros [_ [?|H]]; [done|]. by apply (H t).
  - intros Hp. destruct (wi_queued _ _ _ _ Hw i Hp) as [[?|?]|?]; tauto.
Qed.

(** Witness: the second task sleeps while the first holds the guard. *)
Lemma mutex_sleepers_queued_witness : ∃ s, reachable 4 demo_two s ∧ pcs s 1 = Holding ∧ BLOCKED_TASKS (ks (sk s)) !! 2 ≠ None ∧
  (2 ∈ waiters (km (sk s)) ∨ ∃ j, pcs s j = Waking 2).
Proof.
  destruct (exec 4 [Cur; Cur; Preempt; Cur; Cur; Cur; Cur; Cur] (sys_start demo_two)) as [s|] eqn:He; [|by vm_compute in He].
  assert (Hr : reachable 4 demo_two s) by (by eapply exec_reachable).
  assert (Hp : (λ s, (pcs s 1, id <$> BLOCKED_TASKS (ks (sk s)) !! 2)) <$> exec 4 [Cur; Cur; Preempt; Cur; Cur; Cur; Cur; Cur] (sys_start demo_two)
    = Some (Holding, Some 2)) by (vm_compute; reflexivity).
  rewrite He in Hp. simpl in Hp. injection Hp as Hp1 Hp2.
  assert (Hbl : BLOCKED_TASKS (ks (sk s)) !! 2 ≠ None) by (intros Hn; by rewrite Hn in Hp2).
  exists s. split; [exact Hr|]. split; [exact Hp1|]. split; [exact Hbl|].
  destruct (mutex_sleepers_queued 4 demo_two s (proj1 demo_two_inv) ltac:(vm_compute; reflexivity) demo_two_ids
    ltac:(vm_compute; by intros t [= <-]) Hr 2) as (H & _).
  by apply H.
Defined.

(** [wake_all] ends for every queue, leaves it empty and every waiter awake; no
    other task is put to sleep or lost, the mutex flag is untouched. *)
Theorem wake_all_correct (k : kstate) (Hs : sys_inv (ks k)) :
  ∃ x', wake_all k = Some (tt, mkK (mkMutex (locked (km k)) []) x') ∧ sys_inv x' ∧ ids x' ≡ₚ ids (ks k) ∧
    ∀ i, i ∈ waiters (km k) ∨ awake i (ks k) → awake i x'.
Proof.
  destruct k as [m x]. simpl in *.
  assert (Hw : wp wake_all (λ _ k', ∃ x', k' = mkK (mkMutex (locked m) []) x' ∧ sys_inv x' ∧ ids x' ≡ₚ ids x ∧
    ∀ i, i ∈ waiters m ∨ awake i x → awake i x') (mkK m x)).
  { unfold wake_all. wp_step. wp_step. cbn [km]. apply (wake_all_loop_spec (waiters m)); [lia|done|done|].
    intros x' Hs' Hids _ Hm. by exists x'. }
  destruct (proj1 (wp_run _ _ _) Hw) as ([] & k' & Hr & x' & -> & H). by exists x'.
Qed.

Lemma wake_all_correct_witness : ∃ x', wake_all (mkK (mkMutex true [2; 1]) demo_two) = Some (tt, mkK (mkMutex true []) x') ∧ awake 2 x'.
Proof.
  destruct (wake_all_correct (mkK (mkMutex true [2; 1]) demo_two) (proj1 demo_two_inv)) as (x' & Hr & _ & _ & H).
  exists x'. split; [exact Hr|]. apply H. left. simpl. by left.
Defined.

(** C33: A wake-up that [lock] loses: the holder unlocks between the second task's
    failed compare-exchange and its entering the wait queue.  It finds no one to
    wake; the second task then queues itself and is parked although the mutex is
    free, and stays parked whatever the scheduler does, until somebody locks and
    unlocks again. *)
Theorem mutex_lost_wakeup :
  ∃ s, reachable 4 demo_two s ∧ locked (km (sk s)) = false ∧ pcs s 1 = Outside ∧ pcs s 2 = Locking ∧
    waiters (km (sk s)) = [2] ∧ BLOCKED_TASKS (ks (sk s)) !! 2 ≠ None ∧
    ∀ es x', steps (ks (sk s)) es x' → EvUnblock 2 ∉ es → BLOCKED_TASKS x' !! 2 ≠ None.
Proof.
  set (acts := [Cur; Cur; Preempt; Cur; Cur; Preempt; Cur; Cur; Preempt; Cur; Cur; Cur]).
  destruct (exec 4 acts (sys_start demo_two)) as [s|] eqn:He; [|by vm_compute in He].
  assert (Hr : reachable 4 demo_two s) by (by eapply exec_reachable).
  assert (Hp : (λ s, (locked (km (sk s)), pcs s 1, pcs s 2, waiters (km (sk s)), id <$> BLOCKED_TASKS (ks (sk s)) !! 2)) <$>
    exec 4 acts (sys_start demo_two) = Some (false, Outside, Locking, [2], Some 2)) by (vm_compute; reflexivity).
  rewrite He in Hp. simpl in Hp. injection Hp as Hl Hp1 Hp2 Hw Hb.
  assert (Hbl : BLOCKED_TASKS (ks (sk s)) !! 2 ≠ None) by (intros Hn; by rewrite Hn in Hb).
  exists s. do 6 (split; [done|]). intros es x' Hsteps Hn. eapply parked_stays_steps; [|done|done|done].
  destruct (reachable_inv 4 demo_two s (proj1 demo_two_inv) ltac:(vm_compute; reflexivity) demo_two_ids
    ltac:(vm_compute; by intros t [= <-]) Hr) as [_ Hwi]. apply Hwi.
Qed.
