(* ===== verification/Timer.v ===== *)
(** * Timers ([kernel/src/timer.rs]), sleeping ([sleep_ms]) and the timer
    interrupt ([idt.rs], [check_resched_on_interrupt_exit]).

    The timer queue is the standard library's [BinaryHeap]; the code is written
    against its interface, the class [Heap].  A callback is the wake-up that
    [sleep_ms] registers or any other closure, a parameter of the model. *)
From S2P Require Import Prelude BTree Context Task Sched SchedSpec SchedThms SchedOps.
Set Default Goal Selector "!".

(** ** Priority queues *)
(** [BinaryHeap] with the reversed comparison of [Timer]: [heap_pop] (and [peek])
    answer an element with the least key; which one among equals is left open. *)
Class Heap (T H : Type) (key : T → Z) := {
  heap_new : H;
  heap_push : T → H → H;
  heap_pop : H → option (T * H);
  heap_list : H → list T;
  heap_new_list : heap_list heap_new = [];
  heap_push_list t h : heap_list (heap_push t h) ≡ₚ t :: heap_list h;
  heap_pop_none h : heap_pop h = None → heap_list h = [];
  heap_pop_some h t h' : heap_pop h = Some (t, h') →
    heap_list h ≡ₚ t :: heap_list h' ∧ ∀ u, u ∈ heap_list h' → key t ≤ key u;
}.
Arguments heap_new {T H key _}.
Arguments heap_push {T H key _} t h.
Arguments heap_pop {T H key _} h.
Arguments heap_list {T H key _} h.

(** ** State *)
Inductive callback (X : Type) := Unblock (task_id : Z) | Other (x : X).
Arguments Unblock {X} task_id.
Arguments Other {X} x.

Record Timer (X : Type) := mkTimer { timer_id : Z; expires_at : Z; cb : option (callback X) }.
Arguments mkTimer {X} timer_id expires_at cb.
Arguments timer_id {X} _.
Arguments expires_at {X} _.
Arguments cb {X} _.

Record timers (X H : Type) := mkTimers {
  TICK_COUNT : Z; TIMER_ID_COUNTER : Z; TIMER_FREQUENCY_HZ : Z;
  SOFTIRQ_PENDING : bool; IN_SOFTIRQ : bool;
  TIMER_QUEUE : H; PENDING_QUEUE : list (Timer X) }.
Arguments mkTimers {X H}.
Arguments TICK_COUNT {X H} _.
Arguments TIMER_ID_COUNTER {X H} _.
Arguments TIMER_FREQUENCY_HZ {X H} _.
Arguments SOFTIRQ_PENDING {X H} _.
Arguments IN_SOFTIRQ {X H} _.
Arguments TIMER_QUEUE {X H} _.
Arguments PENDING_QUEUE {X H} _.

(** The timers and the scheduler. *)
Record kernel (X H : Type) := mkKernel { tm : timers X H; sc : sched }.
Arguments mkKernel {X H}.
Arguments tm {X H} _.
Arguments sc {X H} _.

Section timer.
Context {X H : Type} `{!Heap (Timer X) H expires_at}.
Implicit Types (k : kernel X H) (t : timers X H).

Definition on_sc {A} (m : M sched A) : M (kernel X H) A := zoom sc (λ x k, mkKernel (tm k) x) m.
Definition set_tm (t : timers X H) (k : kernel X H) : kernel X H := mkKernel t (sc k).
Definition set_tick (v : Z) k : kernel X H :=
  let t := tm k in set_tm (mkTimers v (TIMER_ID_COUNTER t) (TIMER_FREQUENCY_HZ t) (SOFTIRQ_PENDING t) (IN_SOFTIRQ t) (TIMER_QUEUE t) (PENDING_QUEUE t)) k.
Definition set_timer_id (v : Z) k : kernel X H :=
  let t := tm k in set_tm (mkTimers (TICK_COUNT t) v (TIMER_FREQUENCY_HZ t) (SOFTIRQ_PENDING t) (IN_SOFTIRQ t) (TIMER_QUEUE t) (PENDING_QUEUE t)) k.
Definition set_freq (v : Z) k : kernel X H :=
  let t := tm k in set_tm (mkTimers (TICK_COUNT t) (TIMER_ID_COUNTER t) v (SOFTIRQ_PENDING t) (IN_SOFTIRQ t) (TIMER_QUEUE t) (PENDING_QUEUE t)) k.
Definition set_softirq (v : bool) k : kernel X H :=
  let t := tm k in set_tm (mkTimers (TICK_COUNT t) (TIMER_ID_COUNTER t) (TIMER_FREQUENCY_HZ t) v (IN_SOFTIRQ t) (TIMER_QUEUE t) (PENDING_QUEUE t)) k.
Definition set_in_softirq (v : bool) k : kernel X H :=
  let t := tm k in set_tm (mkTimers (TICK_COUNT t) (TIMER_ID_COUNTER t) (TIMER_FREQUENCY_HZ t) (SOFTIRQ_PENDING t) v (TIMER_QUEUE t) (PENDING_QUEUE t)) k.
Definition set_queue (v : H) k : kernel X H :=
  let t := tm k in set_tm (mkTimers (TICK_COUNT t) (TIMER_ID_COUNTER t) (TIMER_FREQUENCY_HZ t) (SOFTIRQ_PENDING t) (IN_SOFTIRQ t) v (PENDING_QUEUE t)) k.
Definition set_pendingq (v : list (Timer X)) k : kernel X H :=
  let t := tm k in set_tm (mkTimers (TICK_COUNT t) (TIMER_ID_COUNTER t) (TIMER_FREQUENCY_HZ t) (SOFTIRQ_PENDING t) (IN_SOFTIRQ t) (TIMER_QUEUE t) v) k.

(** ** Ticks and conversions *)
Definition timer_init (frequency_hz : Z) : M (kernel X H) unit := modify (set_freq frequency_hz).
Definition current_tick : M (kernel X H) Z := gets (λ k, TICK_COUNT (tm k)).
Definition increment_tick : M (kernel X H) Z :=
  old ← current_tick; modify (set_tick (wrap 64 (old + 1))) ;; lift (cadd 64 old 1).
Definition ms_to_ticks (ms : Z) : M (kernel X H) Z :=
  frequency ← gets (λ k, TIMER_FREQUENCY_HZ (tm k));
  p ← lift (cmul 64 ms frequency); mret (p / 1000).
Definition seconds_to_ticks (seconds : Z) : M (kernel X H) Z :=
  frequency ← gets (λ k, TIMER_FREQUENCY_HZ (tm k)); lift (cmul 64 seconds frequency).

(** ** Registering *)
Definition Timer_new (delay_ticks : Z) (callback_ : callback X) : M (kernel X H) (Timer X) :=
  i ← gets (λ k, TIMER_ID_COUNTER (tm k));
  modify (set_timer_id (wrap 64 (i + 1))) ;;
  now ← current_tick;
  e ← lift (cadd 64 now delay_ticks);
  mret (mkTimer i e (Some callback_)).
(** [pushfq; cli] and the conditional [sti]. *)
Definition tm_without_interrupts {A} (f : M (kernel X H) A) : M (kernel X H) A :=
  flags ← gets (λ k, IF_flag (sc k));
  on_sc cli ;;
  r ← f;
  (if flags : bool then on_sc sti else mret tt) ;;
  mret r.
Definition register_timer (delay_ticks : Z) (callback_ : callback X) : M (kernel X H) Z :=
  timer ← Timer_new delay_ticks callback_;
  tm_without_interrupts (modify (λ k, set_queue (heap_push timer (TIMER_QUEUE (tm k))) k)) ;;
  mret (timer_id timer).

(** ** The interrupt side *)
Definition raise_softirq : M (kernel X H) unit := modify (set_softirq true).

(** The loop of [check_timers]: each round takes a timer out of the heap. *)
Fixpoint check_timers_loop (fuel : nat) (current : Z) (has_pending : bool) : M (kernel X H) bool :=
  match fuel with
  | O => panic
  | S fuel' =>
      queue ← gets (λ k, TIMER_QUEUE (tm k));
      match heap_pop queue with
      | Some (timer, rest) =>
          if expires_at timer <=? current then
            modify (set_queue rest) ;;
            modify (λ k, set_pendingq (PENDING_QUEUE (tm k) ++ [timer]) k) ;;
            check_timers_loop fuel' current true
          else mret has_pending
      | None => mret has_pending
      end
  end.
Definition check_timers : M (kernel X H) unit :=
  current ← current_tick;
  n ← gets (λ k, length (heap_list (TIMER_QUEUE (tm k))));
  has_pending ← check_timers_loop (S n) current false;
  if has_pending : bool then raise_softirq else mret tt.

(** ** The softirq side *)
Context (run_other : X → M (kernel X H) unit).
Definition run_callback (c : callback X) : M (kernel X H) unit :=
  match c with Unblock i => on_sc (unblock_task i) | Other x => run_other x end.

Definition pop_pending : M (kernel X H) (option (Timer X)) :=
  tm_without_interrupts (
    pending ← gets (λ k, PENDING_QUEUE (tm k));
    match pending with [] => mret None | timer :: rest => modify (set_pendingq rest) ;; mret (Some timer) end).

Fixpoint process_pending_timers (fuel : nat) : M (kernel X H) unit :=
  match fuel with
  | O => panic
  | S fuel' =>
      timer ← pop_pending;
      match timer with
      | Some timer =>
          match cb timer with Some callback_ => run_callback callback_ | None => mret tt end ;;
          process_pending_timers fuel'
      | None => mret tt
      end
  end.

Fixpoint softirq_loop (fuel : nat) : M (kernel X H) unit :=
  match fuel with
  | O => panic
  | S fuel' =>
      pending ← gets (λ k, SOFTIRQ_PENDING (tm k));
      modify (set_softirq false) ;;
      if pending : bool then process_pending_timers fuel ;; softirq_loop fuel' else mret tt
  end.
Definition do_softirq (fuel : nat) : M (kernel X H) unit :=
  busy ← gets (λ k, IN_SOFTIRQ (tm k));
  modify (set_in_softirq true) ;;
  if busy : bool then mret tt else softirq_loop fuel ;; modify (set_in_softirq false).

(** ** Leaving an interrupt *)
Definition check_resched_on_interrupt_exit (fuel : nat) : M (kernel X H) (option (ctx_ptr * ctx_ptr)) :=
  pending ← gets (λ k, SOFTIRQ_PENDING (tm k));
  (if pending : bool then on_sc sti ;; do_softirq fuel ;; on_sc cli else mret tt) ;;
  busy ← gets (λ k, IN_SOFTIRQ (tm k));
  if busy : bool then mret None else
  need ← gets (λ k, NEED_RESCHED (sc k));
  on_sc (modify (set_need false)) ;;
  if need : bool then on_sc schedule else mret None.

Definition TIMER_PERIOD_NS : Z := 4000000.
(** [timer_handler_inner]; the end-of-interrupt write goes to the APIC. *)
Definition timer_handler_inner : M (kernel X H) unit :=
  increment_tick ;;
  check_timers ;;
  on_sc (update_current_task_vruntime TIMER_PERIOD_NS) ;;
  on_sc set_need_resched.
(** The interrupt gate clears the flag; [iretq] puts it back for the task it
    interrupted, unless that task was switched away from. *)
Definition timer_interrupt (fuel : nat) : M (kernel X H) (option (ctx_ptr * ctx_ptr)) :=
  on_sc cli ;; timer_handler_inner ;; check_resched_on_interrupt_exit fuel.

(** ** Sleeping *)
Definition sleep_ms (ms : Z) : M (kernel X H) (option (ctx_ptr * ctx_ptr)) :=
  irq ← on_sc is_interrupt_context;
  assert_ (negb irq) ;;
  if ms =? 0 then on_sc yield_now else
  task_id ← on_sc current_task_id;
  ticks ← ms_to_ticks ms;
  register_timer (Z.max ticks 1) (Unblock task_id) ;;
  on_sc block_current_task.
End timer.

(** ** A heap *)
(** Lists in deadline order, later insertions behind equal ones. *)
Section list_heap.
Context {X : Type}.
Fixpoint insert_timer (t : Timer X) (l : list (Timer X)) : list (Timer X) :=
  match l with [] => [t] | u :: l' => if expires_at t <? expires_at u then t :: l else u :: insert_timer t l' end.
Fixpoint ordered (l : list (Timer X)) : Prop :=
  match l with [] => True | t :: l' => (∀ u, u ∈ l' → expires_at t ≤ expires_at u) ∧ ordered l' end.

Lemma insert_timer_perm t l : insert_timer t l ≡ₚ t :: l.
Proof. induction l as [|u l IH]; simpl; [done|]. case_match; [done|]. rewrite IH. by constructor. Qed.
Lemma insert_timer_ordered t l : ordered l → ordered (insert_timer t l).
Proof.
  induction l as [|u l IH]; simpl; [intros _; split; [intros ? Hu; by apply not_elem_of_nil in Hu|done]|]. intros [Hu Hl].
  destruct (Z.ltb_spec (expires_at t) (expires_at u)) as [Hlt|Hge]; simpl.
  - split; [|done]. intros v. rewrite elem_of_cons. intros [->|Hv]; [lia|]. specialize (Hu v Hv). lia.
  - split; [|by apply IH]. intros v. rewrite insert_timer_perm, elem_of_cons. intros [->|Hv]; [lia|by apply Hu].
Qed.

Definition list_heap : Type := { l : list (Timer X) | ordered l }.
#[export] Instance list_heap_heap : Heap (Timer X) list_heap expires_at.
Proof.
  refine {| heap_new := exist ordered [] I; heap_push := λ t h, exist ordered (insert_timer t (`h)) (insert_timer_ordered t (`h) (proj2_sig h));
    heap_pop := λ h, match h with exist _ [] _ => None | exist _ (t :: l) Hl => Some (t, exist ordered l (proj2 Hl)) end;
    heap_list := λ h, `h |}.
  - done.
  - intros t [l Hl]. apply insert_timer_perm.
  - by intros [[|t l] Hl].
  - intros [[|u l] Hl] t h'; [done|]. intros [= <- <-]. simpl. split; [done|]. apply Hl.
Defined.
End list_heap.
