(* ===== verification/TimerThms.v ===== *)
(** * Timers: lemmas about each operation. *)
From S2P Require Import Prelude BTree Context Task Sched SchedSpec SchedThms SchedOps Timer.
Set Default Goal Selector "!".

(** What a closure registered as a timer callback may do for the theorems to
    hold: end, keep the scheduler's invariant, put no task to sleep, and leave
    the softirq state alone (it may register timers, wake tasks, add tasks). *)
Record callback_ok {X H} (run_other : X → M (kernel X H) unit) : Prop := {
  co_run : ∀ x k, sys_inv (sc k) → wp (run_other x) (λ _ k',
    sys_inv (sc k') ∧ (∀ i, awake i (sc k) → awake i (sc k')) ∧ (∀ i, i ∈ ids (sc k) → i ∈ ids (sc k')) ∧
    ACCUMULATED_RUNTIME (sc k') = ACCUMULATED_RUNTIME (sc k) ∧
    PENDING_QUEUE (tm k') = PENDING_QUEUE (tm k) ∧ SOFTIRQ_PENDING (tm k') = SOFTIRQ_PENDING (tm k) ∧
    IN_SOFTIRQ (tm k') = IN_SOFTIRQ (tm k) ∧ TICK_COUNT (tm k') = TICK_COUNT (tm k)) k
}.

Section thms.
Context {X H : Type} `{!Heap (Timer X) H expires_at}.
Implicit Types (k : kernel X H).

Definition queue_of k : list (Timer X) := heap_list (TIMER_QUEUE (tm k)).

Lemma wp_on_sc {A} (f : M sched A) Q k : wp f (λ a x, Q a (mkKernel (tm k) x)) (sc k) → wp (on_sc f) Q k.
Proof. intros. by apply wp_zoom. Qed.

Lemma wp_tm_without {A} (f : M (kernel X H) A) Q k :
  wp f (λ a k', IF_flag (sc k') = false ∧ Q a (mkKernel (tm k') (set_if (IF_flag (sc k)) (sc k')))) (mkKernel (tm k) (set_if false (sc k))) →
  wp (tm_without_interrupts f) Q k.
Proof.
  intros Hf. unfold tm_without_interrupts, cli, sti. wp_step. wp_step. wp_step. apply wp_on_sc. wp_step. wp_step.
  eapply wp_mono; [exact Hf|]. intros a [t' x'] [Hif HQ]. simpl in *. wp_step. destruct (IF_flag (sc k)).
  - apply wp_on_sc. wp_step. wp_step. exact HQ.
  - wp_step. wp_step. destruct x'. simpl in *. by subst.
Qed.

Lemma set_if_restore (x : sched) : set_if (IF_flag x) (set_if false x) = x.
Proof. by destruct x. Qed.

(** ** Registering *)
Lemma register_timer_spec d c Q k : TICK_COUNT (tm k) + d < 2 ^ 64 →
  (∀ k', sc k' = sc k → queue_of k' ≡ₚ mkTimer (TIMER_ID_COUNTER (tm k)) (TICK_COUNT (tm k) + d) (Some c) :: queue_of k →
     PENDING_QUEUE (tm k') = PENDING_QUEUE (tm k) → TICK_COUNT (tm k') = TICK_COUNT (tm k) →
     SOFTIRQ_PENDING (tm k') = SOFTIRQ_PENDING (tm k) → IN_SOFTIRQ (tm k') = IN_SOFTIRQ (tm k) →
     Q (TIMER_ID_COUNTER (tm k)) k') →
  wp (register_timer d c) Q k.
Proof.
  intros Hd HQ. unfold register_timer, Timer_new, current_tick. wp_step. wp_step. wp_step. wp_step. wp_step. wp_step. wp_step.
  wp_step. wp_step; [by apply cadd_some|]. wp_step. wp_step. apply wp_tm_without. wp_step. split; [done|]. wp_step.
  apply HQ; simpl; [by rewrite set_if_restore| |done..]. unfold queue_of. simpl. apply heap_push_list.
Qed.

(** ** Checking *)
Lemma check_loop_spec now n : ∀ k b Q, (length (queue_of k) < n)%nat →
  (∀ moved h, queue_of k ≡ₚ moved ++ heap_list h → ordered moved →
     (∀ t, t ∈ moved → expires_at t ≤ now) → (∀ t, t ∈ heap_list h → now < expires_at t) →
     Q (b || bool_decide (moved ≠ []))
       (set_pendingq (PENDING_QUEUE (tm k) ++ moved) (set_queue h k))) →
  wp (check_timers_loop n now b) Q k.
Proof.
  induction n as [|n IH]; intros k b Q Hn HQ; [lia|]. cbn [check_timers_loop]. wp_step. wp_step.
  assert (Hstop : (∀ t, t ∈ queue_of k → now < expires_at t) → wp (mret b) Q k).
  { intros Hall. wp_step. specialize (HQ [] (TIMER_QUEUE (tm k))). simpl in HQ. rewrite orb_false_r in HQ.
    replace (set_pendingq (PENDING_QUEUE (tm k) ++ []) (set_queue (TIMER_QUEUE (tm k)) k)) with k in HQ
      by (destruct k as [[] ?]; unfold set_pendingq, set_queue, set_tm; simpl; by rewrite app_nil_r).
    apply HQ; [done|done| |done]. intros t Ht. by apply not_elem_of_nil in Ht. }
  destruct (heap_pop (TIMER_QUEUE (tm k))) as [[t rest]|] eqn:Hp.
  - destruct (heap_pop_some _ _ _ Hp) as [Hperm Hmin]. destruct (Z.leb_spec (expires_at t) now) as [Hle|Hgt].
    + wp_step. wp_step. wp_step. wp_step. apply IH.
      { unfold queue_of in *. simpl. rewrite Hperm in Hn. simpl in Hn. lia. }
      intros moved h Hq Hord Hm Hh. unfold queue_of in Hq. simpl in Hq.
      specialize (HQ (t :: moved) h). rewrite bool_decide_true, orb_true_r in HQ by done.
      assert (Hkk : set_pendingq (PENDING_QUEUE (tm k) ++ t :: moved) (set_queue h k) =
        set_pendingq ((PENDING_QUEUE (tm k) ++ [t]) ++ moved) (set_queue h (set_pendingq (PENDING_QUEUE (tm k) ++ [t]) (set_queue rest k)))).
      { unfold set_pendingq, set_queue, set_tm. simpl. by rewrite <-app_assoc. }
      rewrite Hkk in HQ. apply HQ; [unfold queue_of; by rewrite Hperm, Hq| | |done].
      * split; [|done]. intros u Hu. apply Hmin. rewrite Hq, elem_of_app. by left.
      * intros u. rewrite elem_of_cons. intros [->|Hu]; [done|by apply Hm].
    + apply Hstop. intros u. unfold queue_of. rewrite Hperm, elem_of_cons. intros [->|Hu]; [done|]. specialize (Hmin u Hu). lia.
  - apply Hstop. unfold queue_of. rewrite (heap_pop_none _ Hp). intros u Hu. by apply not_elem_of_nil in Hu.
Qed.

Lemma check_timers_spec Q k :
  (∀ moved h b, queue_of k ≡ₚ moved ++ heap_list h → ordered moved →
     (∀ t, t ∈ moved → expires_at t ≤ TICK_COUNT (tm k)) → (∀ t, t ∈ heap_list h → TICK_COUNT (tm k) < expires_at t) →
     b = SOFTIRQ_PENDING (tm k) || bool_decide (moved ≠ []) →
     Q tt (set_softirq b (set_pendingq (PENDING_QUEUE (tm k) ++ moved) (set_queue h k)))) →
  wp check_timers Q k.
Proof.
  intros HQ. unfold check_timers, current_tick, raise_softirq. wp_step. wp_step. wp_step. wp_step. wp_step.
  apply check_loop_spec; [unfold queue_of; lia|]. intros moved h Hq Hord Hm Hh. simpl. destruct (bool_decide (moved ≠ [])) eqn:Hb.
  - wp_step. apply HQ; try done. by rewrite Hb, orb_true_r.
  - wp_step. specialize (HQ moved h (SOFTIRQ_PENDING (tm k))). apply HQ; try done. by rewrite Hb, orb_false_r.
Qed.

(** ** Running callbacks *)
Context (run_other : X → M (kernel X H) unit) (Hok : callback_ok run_other).

(** The state that running callbacks keeps. *)
Record kept k k' : Prop := {
  kp_inv : sys_inv (sc k');
  kp_awake : ∀ i, awake i (sc k) → awake i (sc k');
  kp_ids : ∀ i, i ∈ ids (sc k) → i ∈ ids (sc k');
  kp_runtime : ACCUMULATED_RUNTIME (sc k') = ACCUMULATED_RUNTIME (sc k);
  kp_softirq : SOFTIRQ_PENDING (tm k') = SOFTIRQ_PENDING (tm k);
  kp_in : IN_SOFTIRQ (tm k') = IN_SOFTIRQ (tm k);
  kp_tick : TICK_COUNT (tm k') = TICK_COUNT (tm k);
}.
Lemma kept_trans k1 k2 k3 : kept k1 k2 → kept k2 k3 → kept k1 k3.
Proof. intros [] []. split; try done; try congruence; auto. Qed.
Lemma kept_refl k : sys_inv (sc k) → kept k k.
Proof. by split. Qed.

Lemma run_callback_spec c k : sys_inv (sc k) →
  wp (run_callback run_other c) (λ _ k', kept k k' ∧ PENDING_QUEUE (tm k') = PENDING_QUEUE (tm k) ∧
    match c with Unblock i => awake i (sc k') | Other _ => True end) k.
Proof.
  intros Hs. destruct c as [i|x]; simpl.
  - apply wp_on_sc. destruct (proj1 (wp_run _ _ _) (run_event_spec (EvUnblock i) (sc k) Hs I)) as ([] & x' & Hr & Hs' & Hids). simpl in Hr.
    apply wp_run. exists tt, x'. split; [done|]. split; [|split; [done|exact (wp_elim _ _ _ _ _ (unblock_awake i _ (proj1 Hs)) Hr)]].
    split; simpl; try done.
    + intros j Hj. refine (wp_elim _ _ _ _ _ (run_event_awake j (EvUnblock i) (sc k) Hs I _ Hj) Hr). by intros [? _].
    + intros j. by rewrite Hids.
    + refine (wp_elim (unblock_task i) (λ _ x', ACCUMULATED_RUNTIME x' = ACCUMULATED_RUNTIME (sc k)) (sc k) tt x' _ Hr).
      apply unblock_task_spec; [apply Hs|done|]. done.
  - eapply wp_mono; [by apply (co_run _ Hok)|]. intros _ k' (? & ? & ? & ? & ? & ? & ? & ?). split; [by split|]. done.
Qed.

Lemma pop_pending_spec Q k :
  (PENDING_QUEUE (tm k) = [] → Q None k) →
  (∀ t rest, PENDING_QUEUE (tm k) = t :: rest → Q (Some t) (set_pendingq rest k)) → wp pop_pending Q k.
Proof.
  intros Hnone Hsome. unfold pop_pending. apply wp_tm_without. wp_step. wp_step. simpl.
  destruct (PENDING_QUEUE (tm k)) as [|t rest] eqn:Hp.
  - wp_step. split; [done|]. simpl. rewrite set_if_restore. destruct k. by apply Hnone.
  - wp_step. wp_step. wp_step. split; [done|]. simpl. rewrite set_if_restore. by apply Hsome.
Qed.

Lemma kept_pendingq k l : sys_inv (sc k) → kept k (set_pendingq l k).
Proof. by split. Qed.

Lemma process_pending_spec n : ∀ k Q, (length (PENDING_QUEUE (tm k)) < n)%nat → sys_inv (sc k) →
  (∀ k', kept k k' → PENDING_QUEUE (tm k') = [] →
     (∀ t i, t ∈ PENDING_QUEUE (tm k) → cb t = Some (Unblock i) → awake i (sc k')) → Q tt k') →
  wp (process_pending_timers run_other n) Q k.
Proof.
  induction n as [|n IH]; intros k Q Hn Hs HQ; [lia|]. cbn [process_pending_timers]. wp_step. apply pop_pending_spec.
  - intros Hp. wp_step. apply HQ; [by apply kept_refl|done|]. rewrite Hp. intros t i Ht. by apply not_elem_of_nil in Ht.
  - intros t rest Hp. rewrite Hp in Hn. simpl in Hn. wp_step.
    assert (Hcb : wp (match cb t with Some c => run_callback run_other c | None => mret tt end)
      (λ _ k', kept k k' ∧ PENDING_QUEUE (tm k') = rest ∧ ∀ i, cb t = Some (Unblock i) → awake i (sc k')) (set_pendingq rest k)).
    { destruct (cb t) as [c|].
      - eapply wp_mono; [by apply run_callback_spec|]. intros _ k' (Hk & Hpq & Hc). split; [by eapply kept_trans; [apply kept_pendingq|]|].
        split; [done|]. by intros i [= ->].
      - wp_step. split; [by apply kept_pendingq|]. done. }
    eapply wp_mono; [exact Hcb|]. intros _ k1 (Hk1 & Hp1 & Hi1). apply IH; [rewrite Hp1; lia|apply Hk1|].
    intros k' Hk' Hpq' Hi'. apply HQ; [by eapply kept_trans|done|]. rewrite Hp. intros u i. rewrite elem_of_cons.
    intros [->|Hu] Hcu; [by apply (kp_awake _ _ Hk'), Hi1|]. apply (Hi' u); [by rewrite Hp1|done].
Qed.

(** The softirq, when none is running: two rounds, the second finds the flag down. *)
Lemma do_softirq_spec n k Q : (S (length (PENDING_QUEUE (tm k))) < n)%nat → sys_inv (sc k) →
  IN_SOFTIRQ (tm k) = false → SOFTIRQ_PENDING (tm k) = true →
  (∀ k', sys_inv (sc k') → (∀ i, awake i (sc k) → awake i (sc k')) → (∀ i, i ∈ ids (sc k) → i ∈ ids (sc k')) →
     ACCUMULATED_RUNTIME (sc k') = ACCUMULATED_RUNTIME (sc k) → TICK_COUNT (tm k') = TICK_COUNT (tm k) →
     SOFTIRQ_PENDING (tm k') = false → IN_SOFTIRQ (tm k') = false → PENDING_QUEUE (tm k') = [] →
     (∀ t i, t ∈ PENDING_QUEUE (tm k) → cb t = Some (Unblock i) → awake i (sc k')) → Q tt k') →
  wp (do_softirq run_other n) Q k.
Proof.
  intros Hn Hs Hin Hsp HQ. unfold do_softirq. destruct n as [|[|n]]; [lia|lia|]. wp_step. wp_step. rewrite Hin. wp_step. wp_step. wp_step.
  cbn [softirq_loop]. wp_step. wp_step. wp_step. wp_step. cbn [set_in_softirq set_tm tm SOFTIRQ_PENDING]. rewrite Hsp. wp_step.
  apply process_pending_spec; [simpl; lia|done|]. intros k1 [] Hp1 Hi1. wp_step. wp_step. wp_step. wp_step. simpl in *.
  rewrite kp_softirq0. wp_step. wp_step. apply HQ; simpl; try done.
Qed.

(** The softirq while one is running does nothing. *)
Lemma do_softirq_busy n k : IN_SOFTIRQ (tm k) = true → do_softirq run_other n k = Some (tt, k).
Proof.
  intros Hin. unfold do_softirq, gets, modify, mbind, M_bind. rewrite Hin. destruct k as [[] x]. simpl in *. by subst.
Qed.
End thms.
