(* ===== verification/TimerProps.v ===== *)
(** * Timers: the theorems. *)
From S2P Require Import Prelude BTree Context Task Sched SchedSpec SchedThms SchedOps SchedProps Timer TimerThms.
Set Default Goal Selector "!".

Section lemmas.
Context {X H : Type} `{!Heap (Timer X) H expires_at}.
Implicit Types (k : kernel X H).

(** The handler proper: one tick, expired timers pending, run time charged. *)
Lemma handler_spec Q k : sys_inv (sc k) → 0 ≤ TICK_COUNT (tm k) → TICK_COUNT (tm k) + 1 < 2 ^ 64 →
  ACCUMULATED_RUNTIME (sc k) + TIMER_PERIOD_NS < 2 ^ 64 →
  (∀ moved h b, let now := TICK_COUNT (tm k) + 1 in
     queue_of k ≡ₚ moved ++ heap_list h → ordered moved →
     (∀ t, t ∈ moved → expires_at t ≤ now) → (∀ t, t ∈ heap_list h → now < expires_at t) →
     b = SOFTIRQ_PENDING (tm k) || bool_decide (moved ≠ []) →
     Q tt (mkKernel (tm (set_softirq b (set_pendingq (PENDING_QUEUE (tm k) ++ moved) (set_queue h (set_tick now k)))))
       (set_need true (set_runtime (ACCUMULATED_RUNTIME (sc k) + TIMER_PERIOD_NS) (sc k))))) →
  wp timer_handler_inner Q k.
Proof.
  intros [_ H0] Ht Htick Hacc HQ. unfold timer_handler_inner, increment_tick, current_tick. wp_step. wp_step. wp_step. wp_step. wp_step.
  wp_step; [by apply cadd_some|]. wp_step.
  assert (Hw : wrap 64 (TICK_COUNT (tm k) + 1) = TICK_COUNT (tm k) + 1) by (unfold wrap; apply Z.mod_small; lia). rewrite Hw.
  apply check_timers_spec. cbn [set_tick set_tm tm TICK_COUNT sc]. intros moved h b Hq Hord Hm Hh Hb.
  unfold update_current_task_vruntime, set_need_resched.
  wp_step. apply wp_on_sc. wp_step. apply wp_on_sc. wp_step.
  assert (Hw2 : wrap 64 (ACCUMULATED_RUNTIME (sc k) + TIMER_PERIOD_NS) = ACCUMULATED_RUNTIME (sc k) + TIMER_PERIOD_NS)
    by (unfold wrap; apply Z.mod_small; unfold TIMER_PERIOD_NS in *; lia).
  simpl. rewrite Hw2. by apply HQ.
Qed.

Lemma inv_cli (x : sched) v : sys_inv x → sys_inv (set_if v x).
Proof. intros [Hi H0]. split; [by apply inv_if|done]. Qed.

Lemma inv_tick (x : sched) r : sys_inv x → 0 ≤ r → sys_inv (set_need true (set_runtime r x)).
Proof. intros [Hi H0] Hr. split; [|done]. by apply (inv_same x (set_need true (set_runtime r x)) Hi). Qed.

(** The end of the interrupt, no softirq running. *)
Lemma exit_spec run_other n Q k : callback_ok run_other → sys_inv (sc k) → IN_SOFTIRQ (tm k) = false →
  (S (length (PENDING_QUEUE (tm k))) < n)%nat → (SOFTIRQ_PENDING (tm k) = false → PENDING_QUEUE (tm k) = []) →
  ACCUMULATED_RUNTIME (sc k) * BASE_WEIGHT < 2 ^ 64 →
  (∀ r k', sys_inv (sc k') → (∀ i, awake i (sc k) → awake i (sc k')) → (∀ i, i ∈ ids (sc k) → i ∈ ids (sc k')) →
     TICK_COUNT (tm k') = TICK_COUNT (tm k) → SOFTIRQ_PENDING (tm k') = false → IN_SOFTIRQ (tm k') = false → PENDING_QUEUE (tm k') = [] →
     (∀ t i, t ∈ PENDING_QUEUE (tm k) → cb t = Some (Unblock i) → awake i (sc k')) → Q r k') →
  wp (check_resched_on_interrupt_exit run_other n) Q k.
Proof.
  intros Hok Hs Hin Hn Hsp Hacc HQ. unfold check_resched_on_interrupt_exit. wp_step. wp_step. wp_step.
  assert (Htail : ∀ k1, sys_inv (sc k1) → (∀ i, awake i (sc k) → awake i (sc k1)) → (∀ i, i ∈ ids (sc k) → i ∈ ids (sc k1)) →
     ACCUMULATED_RUNTIME (sc k1) = ACCUMULATED_RUNTIME (sc k) → TICK_COUNT (tm k1) = TICK_COUNT (tm k) →
     SOFTIRQ_PENDING (tm k1) = false → IN_SOFTIRQ (tm k1) = false → PENDING_QUEUE (tm k1) = [] →
     (∀ t i, t ∈ PENDING_QUEUE (tm k) → cb t = Some (Unblock i) → awake i (sc k1)) →
     wp (busy ← gets (λ k, IN_SOFTIRQ (tm k)); if busy : bool then mret None else
         need ← gets (λ k, NEED_RESCHED (sc k)); on_sc (modify (set_need false)) ;;
         if need : bool then on_sc schedule else mret None) Q k1).
  { intros k1 Hs1 Ha1 Hi1 Hr1 Ht1 Hp1 Hn1 Hq1 Hc1. wp_step. wp_step. rewrite Hn1. wp_step. wp_step. wp_step. apply wp_on_sc. wp_step.
    assert (Hsn : sys_inv (set_need false (sc k1))).
    { split; [|apply Hs1]. by apply (inv_same (sc k1) (set_need false (sc k1)) (proj1 Hs1)). }
    destruct (NEED_RESCHED (sc k1)); [|by wp_step; apply HQ]. apply wp_on_sc. cbn [sc tm].
    assert (Hm : may (set_need false (sc k1)) EvSchedule) by (simpl; by rewrite Hr1).
    destruct (proj1 (wp_run _ _ _) (run_event_spec EvSchedule (set_need false (sc k1)) Hsn Hm)) as ([] & x' & Hr & Hs' & Hids).
    pose proof Hr as Hrs. unfold run_event, ignore, mbind, M_bind in Hrs.
    destruct (schedule (set_need false (sc k1))) as [[r x'']|] eqn:Hsch; [|done]. injection Hrs as ->.
    apply wp_run. exists r, x'. split; [done|].
    assert (Haw : ∀ i, awake i (sc k1) → awake i x').
    { intros i Hi. refine (wp_elim _ _ _ _ _ (run_event_awake i EvSchedule (set_need false (sc k1)) Hsn Hm _ Hi) Hr). by intros [? _]. }
    apply HQ; cbn [sc tm]; try done; [by auto| |by eauto]. intros i Hi. rewrite Hids. simpl. by apply Hi1. }
  destruct (SOFTIRQ_PENDING (tm k)) eqn:Hsoft.
  - wp_step. unfold sti, cli. apply wp_on_sc. wp_step. wp_step. apply do_softirq_spec; simpl; [done|done|by apply inv_cli|done|done|].
    intros k1 Hs1 Ha1 Hi1 Hr1 Ht1 Hp1 Hn1 Hq1 Hc1. apply wp_on_sc. wp_step. by apply Htail; [apply inv_cli|..].
  - wp_step. apply Htail; try done; [by apply Hsp|]. rewrite Hsp by done. intros t i Ht. by apply not_elem_of_nil in Ht.
Qed.
End lemmas.

(** ** Instances for the witnesses *)
Definition demo_kernel (q p : list (Timer Empty_set)) (soft : bool) (Hq : ordered q) (x : sched) : kernel Empty_set (@list_heap Empty_set) :=
  mkKernel (mkTimers 10 7 250 soft false (exist ordered q Hq) p) x.
Definition no_other : Empty_set → M (kernel Empty_set (@list_heap Empty_set)) unit := λ x, match x with end.
Lemma no_other_ok : callback_ok no_other.
Proof. split. by intros []. Qed.
Definition two_timers : list (Timer Empty_set) := [mkTimer 1 11 (Some (Unblock 2)); mkTimer 2 30 (Some (Unblock 3))].
Lemma two_timers_ordered : ordered two_timers.
Proof. simpl. repeat split; try (intros u; rewrite ?elem_of_cons, ?elem_of_nil; intros ?; naive_solver lia). Qed.

(** [check_timers] ends for every heap: exactly the timers whose time has come
    move to the pending queue, in the order of their deadlines and behind those
    already there; the softirq is raised if any moved and never lowered, and
    nothing else changes. *)
Theorem check_timers_correct {X H : Type} `{!Heap (Timer X) H expires_at} (k : kernel X H) :
  ∃ moved h k', check_timers k = Some (tt, k') ∧
    heap_list (TIMER_QUEUE (tm k)) ≡ₚ moved ++ heap_list h ∧ ordered moved ∧
    (∀ t, t ∈ moved → expires_at t ≤ TICK_COUNT (tm k)) ∧ (∀ t, t ∈ heap_list h → TICK_COUNT (tm k) < expires_at t) ∧
    k' = set_softirq (SOFTIRQ_PENDING (tm k) || bool_decide (moved ≠ [])) (set_pendingq (PENDING_QUEUE (tm k) ++ moved) (set_queue h k)).
Proof.
  assert (Hw : wp check_timers (λ _ k', ∃ moved h, heap_list (TIMER_QUEUE (tm k)) ≡ₚ moved ++ heap_list h ∧ ordered moved ∧
    (∀ t, t ∈ moved → expires_at t ≤ TICK_COUNT (tm k)) ∧ (∀ t, t ∈ heap_list h → TICK_COUNT (tm k) < expires_at t) ∧
    k' = set_softirq (SOFTIRQ_PENDING (tm k) || bool_decide (moved ≠ [])) (set_pendingq (PENDING_QUEUE (tm k) ++ moved) (set_queue h k))) k).
  { apply check_timers_spec. intros moved h b Hq Hord Hm Hh ->. by exists moved, h. }
  destruct (proj1 (wp_run _ _ _) Hw) as ([] & k' & Hr & moved & h & ?). by exists moved, h, k'.
Qed.

(** C14: The timer interrupt: one tick, and when it returns every task whose timer
    was due is awake, whoever ran; no task is lost, the pending queue is empty and
    the softirq is down. *)
Theorem timer_interrupt_wakes {X H : Type} `{!Heap (Timer X) H expires_at} (run_other : X → M (kernel X H) unit)
    (k : kernel X H) (fuel : nat) (Hok : callback_ok run_other) (Hs : sys_inv (sc k)) (Hin : IN_SOFTIRQ (tm k) = false)
    (Hsoft : SOFTIRQ_PENDING (tm k) = false → PENDING_QUEUE (tm k) = [])
    (Htick : 0 ≤ TICK_COUNT (tm k) ∧ TICK_COUNT (tm k) + 1 < 2 ^ 64)
    (Hacc : (ACCUMULATED_RUNTIME (sc k) + TIMER_PERIOD_NS) * BASE_WEIGHT < 2 ^ 64)
    (Hfuel : (length (heap_list (TIMER_QUEUE (tm k))) + length (PENDING_QUEUE (tm k)) + 1 < fuel)%nat) :
  ∃ r k', timer_interrupt run_other fuel k = Some (r, k') ∧ sys_inv (sc k') ∧ TICK_COUNT (tm k') = TICK_COUNT (tm k) + 1 ∧
    PENDING_QUEUE (tm k') = [] ∧ SOFTIRQ_PENDING (tm k') = false ∧ IN_SOFTIRQ (tm k') = false ∧
    (∀ i, i ∈ ids (sc k) → i ∈ ids (sc k')) ∧ (∀ i, awake i (sc k) → awake i (sc k')) ∧
    (∀ t i, t ∈ PENDING_QUEUE (tm k) ∨ (t ∈ heap_list (TIMER_QUEUE (tm k)) ∧ expires_at t ≤ TICK_COUNT (tm k) + 1) →
       cb t = Some (Unblock i) → awake i (sc k')).
Proof.
  assert (Hw : wp (timer_interrupt run_other fuel) (λ r k', sys_inv (sc k') ∧ TICK_COUNT (tm k') = TICK_COUNT (tm k) + 1 ∧
    PENDING_QUEUE (tm k') = [] ∧ SOFTIRQ_PENDING (tm k') = false ∧ IN_SOFTIRQ (tm k') = false ∧
    (∀ i, i ∈ ids (sc k) → i ∈ ids (sc k')) ∧ (∀ i, awake i (sc k) → awake i (sc k')) ∧
    (∀ t i, t ∈ PENDING_QUEUE (tm k) ∨ (t ∈ heap_list (TIMER_QUEUE (tm k)) ∧ expires_at t ≤ TICK_COUNT (tm k) + 1) →
       cb t = Some (Unblock i) → awake i (sc k'))) k).
  { unfold timer_interrupt, cli. wp_step. apply wp_on_sc. wp_step. wp_step.
    apply handler_spec; cbn [tm sc set_if ACCUMULATED_RUNTIME];
      [by apply inv_cli|lia|lia|unfold BASE_WEIGHT in *; destruct Hs; lia|].
    intros moved h b Hq Hord Hm Hh ->. change (queue_of _) with (heap_list (TIMER_QUEUE (tm k))) in Hq.
    apply exit_spec; cbn [tm sc set_softirq set_pendingq set_queue set_tick set_tm IN_SOFTIRQ SOFTIRQ_PENDING PENDING_QUEUE TICK_COUNT].
    - done.
    - destruct Hs as [Hi H0]. apply inv_tick; [by apply inv_cli|unfold TIMER_PERIOD_NS; lia].
    - done.
    - rewrite Hq in Hfuel. rewrite length_app in *. lia.
    - intros [Hf Hb]%orb_false_elim. apply bool_decide_eq_false in Hb. rewrite (Hsoft Hf). destruct moved; [done|]. by destruct Hb.
    - simpl. lia.
    - intros r k' Hs' Ha' Hi' Ht' Hsp' Hin' Hp' Hc'. do 5 (split; [done|]). split; [done|]. split; [done|].
      intros t i [Ht|[Ht Hexp]] Hcb; apply (Hc' t); [rewrite elem_of_app; by left|done| |done].
      rewrite Hq, elem_of_app in Ht. rewrite elem_of_app. right. destruct Ht as [?|Ht]; [done|]. specialize (Hh t Ht). lia. }
  destruct (proj1 (wp_run _ _ _) Hw) as (r & k' & Hr & H'). by exists r, k'.
Qed.

(** Witness: task 2 sleeps until tick 11. *)
Definition demo_asleep : sched := default demo_boot (run_events [EvAdd (demo_task 2 Normal 0 0); EvSchedule; EvMarkBlocked; EvSchedule] demo_boot).
Lemma demo_asleep_inv : sys_inv demo_asleep.
Proof.
  apply (steps_spec demo_boot [EvAdd (demo_task 2 Normal 0 0); EvSchedule; EvMarkBlocked; EvSchedule] demo_asleep demo_boot_inv).
  eapply steps_cons; [apply demo_fresh; [vm_compute; set_solver|done]|vm_compute; reflexivity|].
  eapply steps_cons; [by vm_compute|vm_compute; reflexivity|].
  eapply steps_cons; [vm_compute; by intros t [= <-]|vm_compute; reflexivity|].
  eapply steps_cons; [by vm_compute|vm_compute; reflexivity|]. vm_compute. constructor.
Qed.
Lemma timer_interrupt_wakes_witness : ∃ r k', BLOCKED_TASKS demo_asleep !! 2 ≠ None ∧
  timer_interrupt no_other 5 (demo_kernel two_timers [] false two_timers_ordered demo_asleep) = Some (r, k') ∧
  BLOCKED_TASKS (sc k') !! 2 = None.
Proof.
  destruct (timer_interrupt_wakes no_other (demo_kernel two_timers [] false two_timers_ordered demo_asleep) 5 no_other_ok demo_asleep_inv)
    as (r & k' & Hr & _ & _ & _ & _ & _ & _ & _ & Hw).
  - reflexivity.
  - reflexivity.
  - simpl. lia.
  - by vm_compute.
  - simpl. lia.
  - exists r, k'. split; [by vm_compute|]. split; [exact Hr|].
    destruct (Hw (mkTimer 1 11 (Some (Unblock 2))) 2) as [Hb _]; [|reflexivity|exact Hb].
    right. simpl. split; [by left|lia].
Defined.

(** [block_current_task] of a running task. *)
Lemma block_current_spec (x : sched) (t : Task) Q : sys_inv x → CURRENT_TASK x = Some t → ACCUMULATED_RUNTIME x * BASE_WEIGHT < 2 ^ 64 →
  queued x ≠ [] →
  (id t ∈ WAKEUP_PENDING x → Q None (set_pending (WAKEUP_PENDING x ∖ {[id t]}) x)) →
  (∀ u x', id t ∉ WAKEUP_PENDING x → sys_inv x' → best x u → CURRENT_TASK x' = Some (set_state Running u) →
     BLOCKED_TASKS x' !! id t = Some (charge (ACCUMULATED_RUNTIME x) (set_state Blocked t)) → ids x' ≡ₚ ids x →
     Q (Some (task_context (id t), task_context (id u))) x') →
  wp block_current_task Q x.
Proof.
  intros [Hi H0] Hc Hacc Hq Hpend Hpark. unfold block_current_task. wp_step. apply mark_blocked_spec; [done|congruence|..].
  - intros u Hu Hin. assert (u = t) as -> by congruence. wp_step. by apply Hpend.
  - intros u Hu Hin. assert (u = t) as -> by congruence. cbv iota.
    destruct (inv_recurrent x t (set_state Blocked t) Hi Hc) as [Hi' Hids]; [done|done|exact (proj2 (si_current _ Hi _ Hc))|].
    apply schedule_spec; [done|done|done|by intros Hq'; destruct Hq|].
    intros v r x' (rest & Hbest & _ & Hcur & Hold) Hi2 Hids2 _ [? _]. simpl in Hold. destruct Hold as [-> Hpl].
    unfold placed in Hpl. rewrite decide_True in Hpl by done. destruct Hpl as (_ & Hb & _).
    apply Hpark; [done|done|exact Hbest|done| |by rewrite Hids2, Hids].
    rewrite Hb. simpl. by rewrite lookup_insert_eq.
Qed.

(** C15: [sleep_ms]: with interrupts off it panics, and so does a time whose product
    with the frequency leaves 64 bits; 0 ms yields; otherwise a timer is
    registered that wakes the task after the right number of ticks, at least one,
    and the task is parked and the best ready one runs; a wake-up that is already
    pending is consumed instead and the task runs on, its timer still registered. *)
Theorem sleep_ms_correct {X H : Type} `{!Heap (Timer X) H expires_at} (k : kernel X H) (t : Task) (ms : Z)
    (Hs : sys_inv (sc k)) (Hc : CURRENT_TASK (sc k) = Some t) (Hready : queued (sc k) ≠ [])
    (Hms : 0 < ms) (Hfreq : 0 ≤ TIMER_FREQUENCY_HZ (tm k)) (Htick : TICK_COUNT (tm k) + Z.max 1 (ms * TIMER_FREQUENCY_HZ (tm k) / 1000) < 2 ^ 64)
    (Hacc : ACCUMULATED_RUNTIME (sc k) * BASE_WEIGHT < 2 ^ 64) :
  (IF_flag (sc k) = false → sleep_ms ms k = None) ∧
  (IF_flag (sc k) = true → sleep_ms 0 k = on_sc schedule k) ∧
  (IF_flag (sc k) = true → 2 ^ 64 ≤ ms * TIMER_FREQUENCY_HZ (tm k) → sleep_ms ms k = None) ∧
  (IF_flag (sc k) = true → ms * TIMER_FREQUENCY_HZ (tm k) < 2 ^ 64 →
   ∃ r k', sleep_ms ms k = Some (r, k') ∧ sys_inv (sc k') ∧
     heap_list (TIMER_QUEUE (tm k')) ≡ₚ mkTimer (TIMER_ID_COUNTER (tm k))
       (TICK_COUNT (tm k) + Z.max 1 (ms * TIMER_FREQUENCY_HZ (tm k) / 1000)) (Some (Unblock (id t))) :: heap_list (TIMER_QUEUE (tm k)) ∧
     if decide (id t ∈ WAKEUP_PENDING (sc k)) then r = None ∧ CURRENT_TASK (sc k') = Some t ∧ WAKEUP_PENDING (sc k') = WAKEUP_PENDING (sc k) ∖ {[id t]}
     else ∃ u, best (sc k) u ∧ r = Some (task_context (id t), task_context (id u)) ∧ CURRENT_TASK (sc k') = Some (set_state Running u) ∧
       BLOCKED_TASKS (sc k') !! id t = Some (charge (ACCUMULATED_RUNTIME (sc k)) (set_state Blocked t))).
Proof.
  assert (Hid : ∀ Q, Q (id t) k → wp (on_sc current_task_id) Q k).
  { intros Q HQ. apply wp_on_sc. unfold current_task_id. apply wp_without_interrupts. wp_step. wp_step. simpl. rewrite Hc. wp_step.
    split; [done|]. rewrite set_if_restore. by destruct k. }
  assert (Hhead : IF_flag (sc k) = true → sleep_ms ms k =
    (task_id ← on_sc current_task_id; ticks ← ms_to_ticks ms; register_timer (Z.max ticks 1) (Unblock task_id) ;; on_sc block_current_task) k).
  { intros Hif. unfold sleep_ms. rewrite (proj2 (Z.eqb_neq ms 0)) by lia. destruct k as [tk []]. simpl in Hif. subst. reflexivity. }
  split; [|split; [|split]].
  - intros Hif. unfold sleep_ms, is_interrupt_context, on_sc, zoom, gets, mbind, M_bind. by rewrite Hif.
  - intros Hif. unfold sleep_ms, is_interrupt_context, on_sc, zoom, gets, mbind, M_bind. rewrite Hif. by destruct k.
  - intros Hif Hov. destruct (proj1 (wp_run _ _ _) (Hid (λ i k', i = id t ∧ k' = k) ltac:(done))) as (i & k' & Hr & -> & ->).
    rewrite Hhead by done. unfold mbind at 1, M_bind at 1. rewrite Hr.
    unfold ms_to_ticks, gets, lift, mbind, M_bind, cmul. by rewrite (proj2 (Z.ltb_ge _ _)).
  - intros Hif Hno.
    assert (Hw : wp (sleep_ms ms) (λ r k', sys_inv (sc k') ∧
     heap_list (TIMER_QUEUE (tm k')) ≡ₚ mkTimer (TIMER_ID_COUNTER (tm k))
       (TICK_COUNT (tm k) + Z.max 1 (ms * TIMER_FREQUENCY_HZ (tm k) / 1000)) (Some (Unblock (id t))) :: heap_list (TIMER_QUEUE (tm k)) ∧
     if decide (id t ∈ WAKEUP_PENDING (sc k)) then r = None ∧ CURRENT_TASK (sc k') = Some t ∧ WAKEUP_PENDING (sc k') = WAKEUP_PENDING (sc k) ∖ {[id t]}
     else ∃ u, best (sc k) u ∧ r = Some (task_context (id t), task_context (id u)) ∧ CURRENT_TASK (sc k') = Some (set_state Running u) ∧
       BLOCKED_TASKS (sc k') !! id t = Some (charge (ACCUMULATED_RUNTIME (sc k)) (set_state Blocked t))) k).
    { apply (wp_eq _ _ _ _ (Hhead Hif)). wp_step. apply Hid.
      unfold ms_to_ticks. wp_step. wp_step. wp_step. wp_step. wp_step; [by apply cmul_some|]. wp_step. wp_step.
      rewrite (Z.max_comm _ 1). apply register_timer_spec; [done|]. intros k1 Hsc Hq _ _ _ _. apply wp_on_sc. rewrite Hsc.
      apply (block_current_spec _ t); [done|done|done|done|..].
      - intros Hin. cbn [tm sc]. split; [|split; [exact Hq|]].
        + split; [|apply Hs]. apply inv_pending; [apply Hs|]. set_solver.
        + rewrite decide_True by done. done.
      - intros u x' Hn Hs' Hbest Hcur Hb Hids. cbn [tm sc]. split; [done|]. split; [exact Hq|].
        rewrite decide_False by done. by exists u. }
    destruct (proj1 (wp_run _ _ _) Hw) as (r & k' & Hr & H'). by exists r, k'.
Qed.

(** Witness: 1 ms at 250 Hz is rounded up to one tick. *)
Lemma sleep_ms_correct_witness : ∃ r k', sleep_ms 1 (demo_kernel two_timers [] false two_timers_ordered (set_if true demo_sched)) = Some (r, k') ∧
  mkTimer 7 11 (Some (Unblock 1)) ∈ heap_list (TIMER_QUEUE (tm k')).
Proof.
  destruct (sleep_ms_correct (demo_kernel two_timers [] false two_timers_ordered (set_if true demo_sched)) (demo_task 1 Normal 0 0) 1)
    as (_ & _ & _ & H).
  - split; [apply inv_if|]; apply demo_sched_inv.
  - reflexivity.
  - by vm_compute.
  - lia.
  - by vm_compute.
  - by vm_compute.
  - by vm_compute.
  - destruct H as (r & k' & Hr & _ & Hq & _); [reflexivity|by vm_compute|]. exists r, k'. split; [exact Hr|].
    rewrite Hq. simpl. by left.
Defined.

(** While a softirq is in progress - a callback that blocked leaves it so - no
    timer interrupt runs a callback, wakes a task or switches: expired timers
    only pile up, whatever the time. *)
Theorem softirq_in_progress {X H : Type} `{!Heap (Timer X) H expires_at} (run_other : X → M (kernel X H) unit)
    (k : kernel X H) (fuel : nat) (Hs : sys_inv (sc k)) (Hin : IN_SOFTIRQ (tm k) = true)
    (Htick : 0 ≤ TICK_COUNT (tm k) ∧ TICK_COUNT (tm k) + 1 < 2 ^ 64)
    (Hacc : ACCUMULATED_RUNTIME (sc k) + TIMER_PERIOD_NS < 2 ^ 64) :
  ∃ k' moved, timer_interrupt run_other fuel k = Some (None, k') ∧ IN_SOFTIRQ (tm k') = true ∧
    CURRENT_TASK (sc k') = CURRENT_TASK (sc k) ∧ BLOCKED_TASKS (sc k') = BLOCKED_TASKS (sc k) ∧ queued (sc k') = queued (sc k) ∧
    NEED_RESCHED (sc k') = true ∧ PENDING_QUEUE (tm k') = PENDING_QUEUE (tm k) ++ moved.
Proof.
  assert (Hw : wp (timer_interrupt run_other fuel) (λ r k', r = None ∧ ∃ moved, IN_SOFTIRQ (tm k') = true ∧
    CURRENT_TASK (sc k') = CURRENT_TASK (sc k) ∧ BLOCKED_TASKS (sc k') = BLOCKED_TASKS (sc k) ∧ queued (sc k') = queued (sc k) ∧
    NEED_RESCHED (sc k') = true ∧ PENDING_QUEUE (tm k') = PENDING_QUEUE (tm k) ++ moved) k).
  { unfold timer_interrupt, cli. wp_step. apply wp_on_sc. wp_step. wp_step.
    apply handler_spec; cbn [tm sc set_if ACCUMULATED_RUNTIME]; [by apply inv_cli|lia|lia|lia|].
    intros moved h b _ _ _ _ _. unfold check_resched_on_interrupt_exit. wp_step. wp_step. wp_step.
    assert (Htail : ∀ (k1 : kernel X H) Q, IN_SOFTIRQ (tm k1) = true → Q None k1 →
      wp (busy ← gets (λ k, IN_SOFTIRQ (tm k)); if busy : bool then mret None else
         need ← gets (λ k, NEED_RESCHED (sc k)); on_sc (modify (set_need false)) ;;
         if need : bool then on_sc schedule else mret None) Q k1).
    { intros k1 Q Hk1 HQ. wp_step. wp_step. rewrite Hk1. by wp_step. }
    simpl. destruct b.
    - wp_step. unfold sti, cli. apply wp_on_sc. wp_step. wp_step.
      set (k1 := mkKernel _ _). assert (Hk1 : IN_SOFTIRQ (tm k1) = true) by done.
      apply wp_run. exists tt, k1. split; [by apply do_softirq_busy|]. apply wp_on_sc. wp_step.
      apply Htail; [done|]. split; [done|]. by exists moved.
    - wp_step. apply Htail; [done|]. split; [done|]. by exists moved. }
  destruct (proj1 (wp_run _ _ _) Hw) as (r & k' & Hr & -> & moved & H'). by exists k', moved.
Qed.

Lemma softirq_in_progress_witness : ∃ k' moved,
  timer_interrupt no_other 5 (set_in_softirq true (demo_kernel two_timers [] true two_timers_ordered demo_asleep)) = Some (None, k') ∧
  BLOCKED_TASKS (sc k') = BLOCKED_TASKS demo_asleep ∧ PENDING_QUEUE (tm k') = moved.
Proof.
  destruct (softirq_in_progress no_other (set_in_softirq true (demo_kernel two_timers [] true two_timers_ordered demo_asleep)) 5 demo_asleep_inv)
    as (k' & moved & Hr & _ & _ & Hb & _ & _ & Hp).
  - reflexivity.
  - simpl. lia.
  - by vm_compute.
  - exists k', moved. split; [exact Hr|]. split; [exact Hb|exact Hp].
Defined.
