(* ===== verification/Graphics.v ===== *)
(** * Drawing, shadow buffer and compositor ([kernel/src/graphics/]).

    A pixel buffer is a map from pixel indices to colours; an access outside it
    is undefined behaviour and ends the run.  Coordinates of [usize] and [u32]
    are checked as in the dev profile. *)
From S2P Require Import Prelude Font.
Set Default Goal Selector "!".

Abbreviation pixels := (gmap Z Z).
Definition put (i color : Z) : M pixels unit := λ b, if decide (is_Some (b !! i)) then Some (tt, <[i := color]> b) else None.
Definition get (i : Z) : M pixels Z := b ← gets id; lift (b !! i).

(** ** Regions *)
Record Region := mkRegion { rx : Z; ry : Z; rwidth : Z; rheight : Z }.
Definition right (r : Region) : option Z := cadd 32 (rx r) (rwidth r).
Definition bottom (r : Region) : option Z := cadd 32 (ry r) (rheight r).
(** [&&] evaluates the sums it reaches. *)
Definition contains (r : Region) (px py : Z) : option bool :=
  if negb (rx r <=? px) then Some false else
  xr ← cadd 32 (rx r) (rwidth r);
  if negb (px <? xr) then Some false else
  if negb (ry r <=? py) then Some false else
  yb ← cadd 32 (ry r) (rheight r);
  Some (py <? yb).

(** ** Drawing functions *)
Definition fast_fill_u32 (ptr value count : Z) : M pixels unit :=
  for_each (seqZ 0 count) (λ i, put (ptr + i) value).

Definition draw_rect (width x y w h color : Z) : M pixels unit :=
  if (w =? 0) || (h =? 0) then mret tt else
  let stride := width in
  let x_end := Z.min (saturating_add 64 x w) stride in
  if x_end <=? x then mret tt else
  let clipped_w := x_end - x in
  for_each (seqZ 0 h) (λ dy,
    let pixel_y := saturating_add 64 y dy in
    row ← lift (cmul 64 pixel_y stride);
    row_start ← lift (cadd 64 row x);
    fast_fill_u32 row_start color clipped_w).

(** The two paths of [draw_char] differ in the number of columns. *)
Definition draw_glyph (stride x y : Z) (glyph : list Z) (cols color : Z) : M pixels unit :=
  for_each (seqZ 0 8) (λ row,
    glyph_row ← lift (glyph !! Z.to_nat row);
    if glyph_row =? 0 then mret tt else
    py ← lift (cadd 64 y row);
    off ← lift (cmul 64 py stride);
    row_offset ← lift (cadd 64 off x);
    for_each (seqZ 0 cols) (λ col,
      if Z.land (Z.shiftr glyph_row col) 1 =? 1 then put (row_offset + col) color else mret tt)).
Definition draw_char (width x y ch color : Z) : M pixels unit :=
  let stride := width in
  if (ch <? 32) || (126 <? ch) then mret tt else
  match cadd 64 x 8, cadd 64 y 8 with
  | Some x_end, Some y_end =>
      if (stride <=? x) || (y_end =? 0) then mret tt else
      glyph ← lift (FONT_8X8 !! Z.to_nat (ch - 32));
      if x_end <=? stride then draw_glyph stride x y glyph 8 color
      else draw_glyph stride x y glyph (Z.min (saturating_sub stride x) 8) color
  | _, _ => mret tt
  end.

Fixpoint draw_string (width x y : Z) (s : list Z) (color : Z) : M pixels unit :=
  match s with
  | [] => mret tt
  | ch :: s' =>
      draw_char width x y ch color ;;
      match cadd 64 x 8 with
      | Some next_x => draw_string width next_x y s' color
      | None => mret tt
      end
  end.

(** [*fb.add(off) = color] when the offset [y * width + x] is representable. *)
Definition put_at (width x y color : Z) : M pixels unit :=
  match y_off ← cmul 64 y width; cadd 64 y_off x with Some off => put off color | None => mret tt end.
Definition draw_rect_outline (width x y w h color : Z) : M pixels unit :=
  if (w =? 0) || (h =? 0) then mret tt else
  for_each (seqZ 0 w) (λ dx,
    match cadd 64 x dx with
    | Some pixel_x =>
        if pixel_x <? width then
          put_at width pixel_x y color ;;
          match cadd 64 y (h - 1) with Some bottom_y => put_at width pixel_x bottom_y color | None => mret tt end
        else mret tt
    | None => mret tt
    end) ;;
  for_each (seqZ 0 h) (λ dy,
    match cadd 64 y dy with
    | Some pixel_y =>
        (if x <? width then put_at width x pixel_y color else mret tt) ;;
        match cadd 64 x (w - 1) with
        | Some right_x => if right_x <? width then put_at width right_x pixel_y color else mret tt
        | None => mret tt
        end
    | None => mret tt
    end).

(** ** The frame buffer console *)
Record FramebufferWriter := mkConsole { fb : pixels; fwidth : Z; fheight : Z; fx : Z; fy : Z; fcolor : Z }.
Definition FramebufferWriter_new (fb_base : pixels) (width height color : Z) : FramebufferWriter :=
  mkConsole fb_base width height 0 0 color.
Definition fb_set_position (x y : Z) (f : FramebufferWriter) : FramebufferWriter := mkConsole (fb f) (fwidth f) (fheight f) x y (fcolor f).
Definition fb_set_color (color : Z) (f : FramebufferWriter) : FramebufferWriter := mkConsole (fb f) (fwidth f) (fheight f) (fx f) (fy f) color.
Definition on_fb {A} (m : M pixels A) : M FramebufferWriter A :=
  zoom fb (λ b f, mkConsole b (fwidth f) (fheight f) (fx f) (fy f) (fcolor f)) m.
Definition clear_area (width_chars bg_color : Z) : M FramebufferWriter unit :=
  f ← gets id; width_pixels ← lift (cmul 64 width_chars 8);
  on_fb (draw_rect (fwidth f) (fx f) (fy f) width_pixels 10 bg_color).
Definition newline : M FramebufferWriter unit :=
  f ← gets id; y ← lift (cadd 64 (fy f) 10); modify (fb_set_position 0 y).
Definition clear_screen (color : Z) : M FramebufferWriter unit :=
  f ← gets id; total_pixels ← lift (cmul 64 (fwidth f) (fheight f));
  on_fb (fast_fill_u32 0 color total_pixels) ;; modify (fb_set_position 0 0).
Definition fb_write_byte (ch : Z) : M FramebufferWriter unit :=
  if ch =? 10 then newline else
  f ← gets id; xe ← lift (cadd 64 (fx f) 8);
  (if fwidth f <? xe then newline else mret tt) ;;
  f ← gets id;
  on_fb (draw_char (fwidth f) (fx f) (fy f) ch (fcolor f)) ;;
  x ← lift (cadd 64 (fx f) 8); modify (fb_set_position x (fy f)).
Definition fb_write_str (s : list Z) : M FramebufferWriter unit := for_each s fb_write_byte.

(** ** The shadow buffer *)
Record ShadowBuffer := mkShadow { buffer : pixels; swidth : Z; sheight : Z; dirty_rect : option Region }.
Definition black (n : Z) : pixels := list_to_map ((λ i, (i, 0)) <$> seqZ 0 n).
Definition ShadowBuffer_new (width height : Z) : option ShadowBuffer :=
  size ← cmul 64 width height;
  Some (mkShadow (black size) width height None).
Definition set_buffer (b : pixels) (s : ShadowBuffer) : ShadowBuffer := mkShadow b (swidth s) (sheight s) (dirty_rect s).
Definition set_dirty (d : option Region) (s : ShadowBuffer) : ShadowBuffer := mkShadow (buffer s) (swidth s) (sheight s) d.
Definition on_buffer {A} (m : M pixels A) : M ShadowBuffer A := zoom buffer set_buffer m.

Definition mark_all_dirty : M ShadowBuffer unit :=
  modify (λ s, set_dirty (Some (mkRegion 0 0 (swidth s) (sheight s))) s).
Definition clear (color : Z) : M ShadowBuffer unit :=
  modify (λ s, set_buffer ((λ _, color) <$> buffer s) s) ;; mark_all_dirty.

Definition mark_dirty (region : Region) : M ShadowBuffer unit :=
  s ← gets id;
  let x := Z.min (rx region) (swidth s) in
  let y := Z.min (ry region) (sheight s) in
  r ← lift (cadd 32 (rx region) (rwidth region));
  b ← lift (cadd 32 (ry region) (rheight region));
  let right_ := Z.min r (swidth s) in
  let bottom_ := Z.min b (sheight s) in
  if (right_ <=? x) || (bottom_ <=? y) then mret tt else
  let clipped := mkRegion x y (right_ - x) (bottom_ - y) in
  match dirty_rect s with
  | Some existing =>
      let min_x := Z.min (rx existing) (rx clipped) in
      let min_y := Z.min (ry existing) (ry clipped) in
      er ← lift (right existing); cr ← lift (right clipped);
      eb ← lift (bottom existing); cb ← lift (bottom clipped);
      let max_x := Z.max er cr in
      let max_y := Z.max eb cb in
      modify (set_dirty (Some (mkRegion min_x min_y (max_x - min_x) (max_y - min_y))))
  | None => modify (set_dirty (Some clipped))
  end.

Definition take_dirty_rect : M ShadowBuffer (option Region) :=
  s ← gets id; modify (set_dirty None) ;; mret (dirty_rect s).

(** [DrawTarget for ShadowBuffer]. *)
Definition fill_rect (x y w h color : Z) : M ShadowBuffer unit :=
  s ← gets id; on_buffer (draw_rect (swidth s) x y w h color) ;; mark_dirty (mkRegion x y w h).
Definition target_draw_char (x y ch color : Z) : M ShadowBuffer unit :=
  s ← gets id; on_buffer (draw_char (swidth s) x y ch color) ;; mark_dirty (mkRegion x y 8 8).
Definition target_draw_string (x y : Z) (text : list Z) (color : Z) : M ShadowBuffer unit :=
  s ← gets id; on_buffer (draw_string (swidth s) x y text color) ;;
  str_width ← lift (cmul 32 (wrap 32 (Z.of_nat (length text))) 8);
  mark_dirty (mkRegion x y str_width 8).

(** [blit_to]: the rows of the dirty rectangle, pixel by pixel. *)
Record screen := mkScreen { shadow : ShadowBuffer; hw : pixels }.
Definition copy_row (src_dst count : Z) : M screen unit :=
  for_each (seqZ 0 count) (λ i,
    c ← zoom (λ v, buffer (shadow v)) (λ _ v, v) (get (src_dst + i));
    zoom hw (λ b v, mkScreen (shadow v) b) (put (src_dst + i) c)).
Definition on_shadow {A} (m : M ShadowBuffer A) : M screen A := zoom shadow (λ s v, mkScreen s (hw v)) m.
Definition blit_to : M screen bool :=
  dirty ← on_shadow take_dirty_rect;
  match dirty with
  | None => mret false
  | Some dirty =>
      stride ← gets (λ v, swidth (shadow v));
      bottom_ ← lift (cadd 32 (ry dirty) (rheight dirty));
      for_each (seqZ (ry dirty) (bottom_ - ry dirty)) (λ y,
        row_offset ← lift (off ← cmul 64 y stride; cadd 64 off (rx dirty));
        copy_row row_offset (rwidth dirty)) ;;
      mret true
  end.

(** ** Draw commands *)
Inductive DrawCommand :=
  | DrawChar (x y ch color : Z)
  | DrawString (x y : Z) (text : list Z) (color : Z)
  | FillRect (x y width height color : Z)
  | Clear (color : Z).

Record WriterBuffer := mkWriter { commands : list DrawCommand; dirty : bool; wregion : Region }.
Definition WriterBuffer_new (region : Region) : WriterBuffer := mkWriter [] false region.
Definition push_command (cmd : DrawCommand) (b : WriterBuffer) : WriterBuffer := mkWriter (commands b ++ [cmd]) true (wregion b).
Definition extend_commands (cmds : list DrawCommand) (b : WriterBuffer) : WriterBuffer :=
  let old_len := length (commands b) in
  let l := commands b ++ cmds in
  mkWriter l (if (old_len <? length l)%nat then true else dirty b) (wregion b).
Definition clear_commands (b : WriterBuffer) : WriterBuffer := mkWriter [] false (wregion b).

(** ** The compositor *)
Definition render_command (region : Region) (cmd : DrawCommand) : M ShadowBuffer unit :=
  shadow_width ← gets swidth;
  match cmd with
  | Clear color =>
      on_buffer (draw_rect shadow_width (rx region) (ry region) (rwidth region) (rheight region) color) ;;
      mark_dirty region
  | DrawChar x y ch color =>
      global_x ← lift (cadd 32 (rx region) x); global_y ← lift (cadd 32 (ry region) y);
      on_buffer (draw_char shadow_width global_x global_y ch color) ;;
      mark_dirty (mkRegion global_x global_y 8 8)
  | DrawString x y text color =>
      global_x ← lift (cadd 32 (rx region) x); global_y ← lift (cadd 32 (ry region) y);
      on_buffer (draw_string shadow_width global_x global_y text color) ;;
      text_width ← lift (cmul 32 (wrap 32 (Z.of_nat (length text))) 8);
      mark_dirty (mkRegion global_x global_y text_width 8)
  | FillRect x y width height color =>
      global_x ← lift (cadd 32 (rx region) x); global_y ← lift (cadd 32 (ry region) y);
      on_buffer (draw_rect shadow_width global_x global_y width height color) ;;
      mark_dirty (mkRegion global_x global_y width height)
  end.
Definition render_commands_to (region : Region) (cmds : list DrawCommand) : M ShadowBuffer unit :=
  for_each cmds (render_command region).

(** The registered buffers, each with the flag of its mutex; a snapshot of the
    list is its length then, as buffers are shared and only appended. *)
Record compositor := mkComp { buffers : list (bool * WriterBuffer); scr : screen; FRAME_COUNT : Z }.
Definition register_writer (region : Region) : M compositor nat :=
  c ← gets id;
  modify (λ c, mkComp (buffers c ++ [(false, WriterBuffer_new region)]) (scr c) (FRAME_COUNT c)) ;;
  mret (length (buffers c)).
Definition get_buffers_snapshot : M compositor nat := gets (λ c, length (buffers c)).

Definition render_buffer (i : nat) : M compositor unit :=
  c ← gets id;
  e ← lift (buffers c !! i);
  let '(locked, buf) := (e : bool * WriterBuffer) in
  if locked then mret tt else
  if dirty buf then
    zoom scr (λ v c, mkComp (buffers c) v (FRAME_COUNT c)) (on_shadow (render_commands_to (wregion buf) (commands buf))) ;;
    modify (λ c, mkComp (<[i := (locked, clear_commands buf)]> (buffers c)) (scr c) (FRAME_COUNT c))
  else mret tt.
(** One round of the loop of [compositor_task], up to its sleep. *)
Definition compositor_frame : M compositor bool :=
  snapshot ← get_buffers_snapshot;
  for_each (seq 0 snapshot) render_buffer ;;
  blitted ← zoom scr (λ v c, mkComp (buffers c) v (FRAME_COUNT c)) blit_to;
  modify (λ c, mkComp (buffers c) (scr c) (wrap 64 (FRAME_COUNT c + 1))) ;;
  mret blitted.
