(* ===== verification/GraphicsSpec.v ===== *)
(** * What the drawing functions paint.

    Pixel [i] of a buffer [w] wide is column [i mod w] of row [i / w]. *)
From S2P Require Import Prelude Font Graphics.
Set Default Goal Selector "!".

(** A buffer of [w] times [h] pixels. *)
Definition full (w h : Z) (b : pixels) : Prop := ∀ i, is_Some (b !! i) ↔ 0 ≤ i < w * h.
(** Pixel [i] lies in a rectangle. *)
Definition in_rect (w x y rw rh i : Z) : Prop := x ≤ i mod w < x + rw ∧ y ≤ i / w < y + rh.
#[export] Instance in_rect_dec w x y rw rh i : Decision (in_rect w x y rw rh i).
Proof. unfold in_rect. apply _. Defined.

(** The bit of the glyph of [ch] at a column and row. *)
Definition inked (ch col row : Z) : bool :=
  match FONT_8X8 !! Z.to_nat (ch - 32) with
  | Some glyph => match glyph !! Z.to_nat row with Some bits => Z.land (Z.shiftr bits col) 1 =? 1 | None => false end
  | None => false
  end.

(** [b'] is [b] painted with [c] where [P] holds, within the buffer. *)
Definition painted (P : Z → Prop) `{∀ i, Decision (P i)} (c : Z) (b b' : pixels) : Prop :=
  ∀ i, b' !! i = if decide (P i ∧ is_Some (b !! i)) then Some c else b !! i.
(** [b'] differs from [b] only where [P] holds, and has the same pixels. *)
Definition only (P : Z → Prop) (b b' : pixels) : Prop :=
  (∀ i, is_Some (b' !! i) ↔ is_Some (b !! i)) ∧ ∀ i, ¬ P i → b' !! i = b !! i.

Section spec.
Implicit Types (b : pixels) (i w h x y c : Z).

Lemma row_index w r x xe i : 0 < w → 0 ≤ x → xe ≤ w → (r * w + x ≤ i < r * w + xe ↔ i / w = r ∧ x ≤ i mod w < xe).
Proof.
  intros Hw Hx Hxe. pose proof (Z.div_mod i w ltac:(lia)). pose proof (Z.mod_pos_bound i w Hw). split.
  - intros Hi. assert (i / w = r) by (symmetry; apply Z.div_unique with (r := i - r * w); lia). nia.
  - intros [<- ?]. nia.
Qed.

Lemma pixel_index w col row : 0 ≤ col < w → (row * w + col) / w = row ∧ (row * w + col) mod w = col.
Proof. intros Hc. pose proof (row_index w row col (col + 1) (row * w + col) ltac:(lia) ltac:(lia) ltac:(lia)). lia. Qed.

(** A black buffer. *)
Lemma black_lookup n i p : black n !! i = Some p ↔ 0 ≤ i < n ∧ p = 0.
Proof.
  unfold black. rewrite <-elem_of_list_to_map.
  - rewrite list_elem_of_fmap. setoid_rewrite elem_of_seqZ. split; [intros (j & [= -> ->] & ?); lia|]. intros [? ->]. exists i. split; [done|lia].
  - rewrite <-list_fmap_compose. rewrite (list_fmap_ext _ id); [rewrite list_fmap_id; apply NoDup_seqZ|done].
Qed.
Lemma black_full w h : full w h (black (w * h)).
Proof.
  intros i. split; [intros [c Hc]; by apply black_lookup in Hc as []|]. intros Hi. exists 0. by apply black_lookup.
Qed.

Lemma wp_put i c Q b : is_Some (b !! i) → Q tt (<[i := c]> b) → wp (put i c) Q b.
Proof. intros Hb HQ. unfold wp, put. by rewrite decide_True. Qed.

Lemma painted_only P `{∀ i, Decision (P i)} c b b' : painted P c b b' → only P b b'.
Proof.
  intros Hp. split.
  - intros i. rewrite (Hp i). case_decide; [|done]. split; [tauto|]. by intros _.
  - intros i Hn. rewrite (Hp i). apply decide_False. tauto.
Qed.
Lemma painted_pixel P `{∀ i, Decision (P i)} (p : bool) c b b' i : painted P c b b' → is_Some (b !! i) → (p = true ↔ P i) →
  b' !! i = if p then Some c else b !! i.
Proof.
  intros Hp Hs Hiff. rewrite (Hp i). destruct p; [rewrite decide_True; [done|]; split; [by apply Hiff|done]|].
  apply decide_False. intros [HP _]. by apply Hiff in HP.
Qed.
Lemma only_full P w h b b' : only P b b' → full w h b → full w h b'.
Proof. intros [Hs _] Hf i. by rewrite Hs. Qed.
Lemma only_weaken (P P' : Z → Prop) b b' : (∀ i, P i → P' i) → only P b b' → only P' b b'.
Proof. intros Hw [? Ho]. split; [done|]. intros i Hn. apply Ho. intros Hp. by apply Hn, Hw. Qed.
Lemma only_refl P b : only P b b.
Proof. done. Qed.
Lemma only_trans P b1 b2 b3 : only P b1 b2 → only P b2 b3 → only P b1 b3.
Proof. intros [S1 O1] [S2 O2]. split; [intros i; by rewrite S2, S1|]. intros i Hn. by rewrite O2, O1. Qed.

(** Painting twice in one colour. *)
Lemma painted_trans P1 P2 P3 `{∀ i, Decision (P1 i)} `{∀ i, Decision (P2 i)} `{∀ i, Decision (P3 i)} c b b' b'' :
  painted P1 c b b' → painted P2 c b' b'' → (∀ i, is_Some (b !! i) → (P3 i ↔ P1 i ∨ P2 i)) → painted P3 c b b''.
Proof.
  intros Hp1 Hp2 Hiff i. specialize (Hiff i). destruct (painted_only _ _ _ _ Hp1) as [Hs _]. specialize (Hs i).
  specialize (Hp1 i). specialize (Hp2 i). rewrite Hp2. clear Hp2.
  destruct (decide (P2 i ∧ is_Some (b' !! i))) as [[? ?]|Hn].
  - symmetry. apply decide_True. tauto.
  - rewrite Hp1. apply decide_ext. tauto.
Qed.

(** A run of pixels. *)
Lemma fill_spec p c n b : 0 ≤ n → (∀ j, 0 ≤ j < n → is_Some (b !! (p + j))) →
  wp (fast_fill_u32 p c n) (λ _ b', painted (λ i, p ≤ i < p + n) c b b') b.
Proof.
  intros Hn Hb. unfold fast_fill_u32.
  apply (wp_for_range n _ (λ k b', painted (λ i, p ≤ i < p + k) c b b')); [done| |].
  - intros i. rewrite decide_False; [done|lia].
  - intros k b' Hk HI. apply wp_put.
    + apply (painted_only _ _ _ _ HI). by apply Hb.
    + intros i. destruct (decide (p + k = i)) as [<-|Hne].
      * rewrite lookup_insert_eq. rewrite decide_True; [done|]. split; [lia|by apply Hb].
      * rewrite lookup_insert_ne by done. rewrite (HI i). apply decide_ext. split; intros [? ?]; (split; [lia|done]).
Qed.

Lemma full_index w h b r x : full w h b → 0 ≤ x < w → 0 ≤ r < h → is_Some (b !! (r * w + x)).
Proof. intros Hf Hx Hr. apply Hf. nia. Qed.

(** Rectangles: clipped at the right edge, not at the bottom. *)
Lemma draw_rect_spec w h x y rw rh c b : full w h b → 0 < w → w * h < 2 ^ 64 → 0 ≤ x < 2 ^ 63 → 0 ≤ rw < 2 ^ 63 → 0 ≤ y → 0 ≤ rh → y + rh ≤ h →
  wp (draw_rect w x y rw rh c) (λ _ b', painted (in_rect w x y rw rh) c b b') b.
Proof.
  intros Hf Hw Hsz Hx Hrw Hy Hrh Hfit. unfold draw_rect.
  assert (Hnone : (∀ i, ¬ (in_rect w x y rw rh i)) → painted (in_rect w x y rw rh) c b b).
  { intros Hn i. rewrite decide_False; [done|]. intros [Hi _]. by apply (Hn i). }
  destruct (orb (rw =? 0) (rh =? 0)) eqn:Hz.
  { apply wp_ret, Hnone. unfold in_rect. apply orb_true_iff in Hz as [Hz%Z.eqb_eq|Hz%Z.eqb_eq]; intros i; lia. }
  apply orb_false_iff in Hz as [Hz1%Z.eqb_neq Hz2%Z.eqb_neq]. unfold saturating_add.
  rewrite (Z.min_r (2 ^ 64 - 1) (x + rw)) by lia. destruct (Z.leb_spec (Z.min (x + rw) w) x) as [Hle|Hgt].
  { apply wp_ret, Hnone. intros i [Hi _]. pose proof (Z.mod_pos_bound i w Hw). lia. }
  eapply wp_mono; [apply (wp_for_range rh _ (λ k b', painted (in_rect w x y rw k) c b b'))|done]; [done| |].
  - intros i. rewrite decide_False; [done|]. unfold in_rect. lia.
  - intros k b' Hk HI. assert (Hrow : (y + k) * w + w ≤ w * h) by nia. assert (y + k ≤ (y + k) * w) by nia.
    rewrite (Z.min_r (2 ^ 64 - 1) (y + k)) by lia. wp_step. wp_step; [apply cmul_some; lia|]. wp_step. wp_step; [apply cadd_some; lia|].
    pose proof (painted_only _ _ _ _ HI) as Ho. pose proof (only_full _ _ _ _ _ Ho Hf) as Hf'.
    eapply wp_mono; [apply fill_spec; [lia|]|].
    + intros j Hj. rewrite <-Z.add_assoc. apply (full_index w h); [done|lia|lia].
    + intros [] b'' Hp. eapply painted_trans; [exact HI|exact Hp|]. intros i _.
      assert (Hiff : (y + k) * w + x ≤ i < (y + k) * w + x + (Z.min (x + rw) w - x) ↔ i / w = y + k ∧ x ≤ i mod w < x + rw).
      { replace ((y + k) * w + x + (Z.min (x + rw) w - x)) with ((y + k) * w + Z.min (x + rw) w) by lia.
        rewrite row_index by lia. pose proof (Z.mod_pos_bound i w Hw). lia. }
      rewrite Hiff. unfold in_rect. lia.
Qed.

(** A rectangle that reaches below the last row leaves the buffer. *)
Lemma put_full w h i c b b' : put i c b = Some (tt, b') → full w h b → full w h b'.
Proof.
  unfold put. destruct (decide (is_Some (b !! i))) as [Hs|]; [|done]. intros [= <-] Hf j. destruct (decide (i = j)) as [->|Hne].
  - rewrite lookup_insert_eq. rewrite <-(Hf j). split; [done|by intros _].
  - rewrite lookup_insert_ne by done. apply Hf.
Qed.
Lemma draw_rect_below w h x y rw rh c b : full w h b → 0 < w → w * h < 2 ^ 64 → 0 ≤ x < 2 ^ 63 → 0 < rw < 2 ^ 63 → 0 ≤ y → 0 < rh → x < w → h < y + rh →
  draw_rect w x y rw rh c b = None.
Proof.
  intros Hf Hw Hsz Hx Hrw Hy Hrh Hxw Hbelow. unfold draw_rect. rewrite (proj2 (Z.eqb_neq rw 0)), (proj2 (Z.eqb_neq rh 0)) by lia. cbn [orb].
  unfold saturating_add at 1. rewrite (Z.min_r (2 ^ 64 - 1) (x + rw)) by lia. rewrite (proj2 (Z.leb_gt _ _)) by lia.
  set (n := Z.min (x + rw) w - x). set (k := Z.max 0 (h - y)). replace rh with (k + (rh - k)) by lia.
  rewrite (seqZ_app 0 k (rh - k)), (seqZ_cons (0 + k)) by lia. apply for_each_fails. intros b' Hb'.
  assert (Hf' : full w h b').
  { refine (for_each_keeps (full w h) _ _ _ _ _ Hb' Hf). intros dy b1 b2. unfold mbind, M_bind, lift.
    destruct (cmul _ _ _) as [row|]; [|done]. destruct (cadd _ _ _) as [start|]; [|done]. unfold fast_fill_u32.
    apply for_each_keeps. intros i b3 b4. apply put_full. }
  unfold mbind, M_bind, lift, cmul, cadd, saturating_add. set (py := Z.min (2 ^ 64 - 1) (y + (0 + k))).
  destruct (py * w <? 2 ^ 64); [|done]. destruct (py * w + x <? 2 ^ 64); [|done]. unfold fast_fill_u32.
  rewrite (seqZ_cons 0) by lia. apply (for_each_fails _ []). intros b2 [= <-]. unfold put. rewrite decide_False; [done|].
  rewrite (Hf' _). assert (h ≤ py) by (destruct (decide (0 < h)); nia). nia.
Qed.

(** ** Characters *)
Lemma glyphs_8 : forallb (λ g, Nat.eqb (length g) 8) FONT_8X8 = true.
Proof. vm_compute. reflexivity. Qed.
Lemma font_lookup ch : 32 ≤ ch ≤ 126 → ∃ g, FONT_8X8 !! Z.to_nat (ch - 32) = Some g ∧ length g = 8%nat.
Proof.
  intros Hch. assert (Hl : (Z.to_nat (ch - 32) < length FONT_8X8)%nat) by (change (length FONT_8X8) with 95%nat; lia).
  apply lookup_lt_is_Some in Hl as [g Hg]. exists g. split; [done|].
  apply Nat.eqb_eq. apply (proj1 (forallb_forall _ _) glyphs_8). apply list_elem_of_In. by eapply list_elem_of_lookup_2.
Qed.

(** The pixels of the first [rows] rows and [cols] columns of a character. *)
Definition in_glyph w x y cols rows ch i : Prop :=
  in_rect w x y cols rows i ∧ inked ch (i mod w - x) (i / w - y) = true.
#[local] Instance in_glyph_dec w x y cols rows ch i : Decision (in_glyph w x y cols rows ch i).
Proof. unfold in_glyph. apply _. Defined.

Lemma glyph_row_spec w h x r cols bits c b : full w h b → 0 < w → 0 ≤ x → 0 ≤ cols → x + cols ≤ w → 0 ≤ r < h →
  wp (for_each (seqZ 0 cols) (λ col, if Z.land (Z.shiftr bits col) 1 =? 1 then put (r * w + x + col) c else mret tt))
    (λ _ b', painted (λ i, (i / w = r ∧ x ≤ i mod w < x + cols) ∧ (Z.land (Z.shiftr bits (i mod w - x)) 1 =? 1) = true) c b b') b.
Proof.
  intros Hf Hw Hx Hc Hfit Hr.
  apply (wp_for_range cols _ (λ k b', painted (λ i, (i / w = r ∧ x ≤ i mod w < x + k) ∧ (Z.land (Z.shiftr bits (i mod w - x)) 1 =? 1) = true) c b b')).
  - done.
  - intros i. rewrite decide_False; [done|]. lia.
  - intros k b' Hk HI. pose proof (painted_only _ _ _ _ HI) as Ho. pose proof (only_full _ _ _ _ _ Ho Hf) as Hf'.
    assert (Hidx : ∀ i, i = r * w + x + k ↔ i / w = r ∧ i mod w = x + k).
    { intros i. pose proof (row_index w r (x + k) (x + k + 1) i Hw ltac:(lia) ltac:(lia)). lia. }
    destruct (Z.land (Z.shiftr bits k) 1 =? 1) eqn:Hb.
    + apply wp_put; [rewrite <-Z.add_assoc; apply (full_index w h); [done|lia|done]|].
      refine (painted_trans _ (λ i, i = r * w + x + k) _ c b b' _ HI _ _).
      * intros i. case_decide as Hd; [destruct Hd as [-> _]; apply lookup_insert_eq|].
        destruct (decide (r * w + x + k = i)) as [<-|Hne]; [|by apply lookup_insert_ne].
        exfalso. apply Hd. split; [done|]. rewrite <-Z.add_assoc. apply (full_index w h); [done|lia|done].
      * intros i _. rewrite Hidx. split.
        -- intros [[Hi1 Hi2] Hbit]. destruct (decide (i mod w = x + k)); [by right|left]. split; [lia|done].
        -- intros [[[Hi1 Hi2] Hbit]|[Hi1 Hi2]]; [split; [lia|done]|]. split; [lia|]. rewrite Hi2. by replace (x + k - x) with k by lia.
    + wp_step. refine (painted_trans _ (λ _, False) _ c b b' _ HI _ _).
      * intros i. by rewrite decide_False by tauto.
      * intros i _. split; [|intros [H|[]]; split; [lia|tauto]]. intros [[Hi1 Hi2] Hbit]. left. split; [|done].
        destruct (decide (i mod w = x + k)) as [He|]; [|lia]. rewrite He in Hbit. replace (x + k - x) with k in Hbit by lia. congruence.
Qed.

Lemma draw_glyph_spec w h x y cols ch g c b : full w h b → 0 < w → w * h < 2 ^ 64 → 0 ≤ x → 0 ≤ y → y + 8 ≤ h → 0 ≤ cols ≤ 8 → x + cols ≤ w →
  FONT_8X8 !! Z.to_nat (ch - 32) = Some g → length g = 8%nat →
  wp (draw_glyph w x y g cols c) (λ _ b', painted (in_glyph w x y cols 8 ch) c b b') b.
Proof.
  intros Hf Hw Hsz Hx Hy Hfit Hc Hxc Hg Hlen. unfold draw_glyph.
  apply (wp_for_range 8 _ (λ k b', painted (in_glyph w x y cols k ch) c b b')); [done| |].
  - intros i. rewrite decide_False; [done|]. unfold in_glyph, in_rect. lia.
  - intros k b' Hk HI. pose proof (painted_only _ _ _ _ HI) as Ho. pose proof (only_full _ _ _ _ _ Ho Hf) as Hf'.
    destruct (proj2 (lookup_lt_is_Some g (Z.to_nat k)) ltac:(lia)) as [bits Hbits].
    assert (Hink : ∀ i, i / w = y + k → inked ch (i mod w - x) (i / w - y) = (Z.land (Z.shiftr bits (i mod w - x)) 1 =? 1)).
    { intros i ->. unfold inked. replace (y + k - y) with k by lia. by rewrite Hg, Hbits. }
    assert (Hstep : ∀ i, in_glyph w x y cols (k + 1) ch i ↔
      in_glyph w x y cols k ch i ∨ ((i / w = y + k ∧ x ≤ i mod w < x + cols) ∧ (Z.land (Z.shiftr bits (i mod w - x)) 1 =? 1) = true)).
    { intros i. unfold in_glyph, in_rect. destruct (decide (i / w = y + k)) as [He|Hne].
      - rewrite (Hink i He). split; [intros [? ?]; right; split; [lia|done]|]. intros [[? ?]|[? ?]]; (split; [lia|done]).
      - split; [intros [? ?]; left; split; [lia|done]|]. intros [[? ?]|[? ?]]; [split; [lia|done]|exfalso; tauto]. }
    wp_step. wp_step; [exact Hbits|]. destruct (Z.eqb_spec bits 0) as [->|Hnz].
    + wp_step. refine (painted_trans _ (λ _, False) _ c b b' _ HI _ _); [intros i; by rewrite decide_False by tauto|].
      intros i _. rewrite Hstep. rewrite Z.shiftr_0_l, Z.land_0_l. split; [intros [?|[_ ?]]; [by left|done]|intros [?|[]]; by left].
    + wp_step. assert (Hrow : (y + k) * w + w ≤ w * h) by nia. assert (y + k ≤ (y + k) * w) by nia.
      wp_step; [apply cadd_some; lia|]. wp_step. wp_step; [apply cmul_some; lia|]. wp_step. wp_step; [apply cadd_some; lia|].
      eapply wp_mono; [apply (glyph_row_spec w h); [done|done|done|lia|done|lia]|].
      intros [] b'' Hp. eapply painted_trans; [exact HI|exact Hp|]. intros i _. apply Hstep.
Qed.

(** A character: its glyph, clipped at the right edge; nothing for other bytes. *)
Lemma draw_char_spec w h x y ch c b : full w h b → 0 < w → w * h < 2 ^ 64 → 0 ≤ x < 2 ^ 63 → 0 ≤ y → y + 8 ≤ h →
  wp (draw_char w x y ch c) (λ _ b', painted (λ i, 32 ≤ ch ≤ 126 ∧ in_glyph w x y 8 8 ch i) c b b') b.
Proof.
  intros Hf Hw Hsz Hx Hy Hfit. unfold draw_char. assert (Hh : h ≤ w * h) by nia.
  destruct (orb (ch <? 32) (126 <? ch)) eqn:Hch.
  { wp_step. intros i. rewrite decide_False; [done|]. apply orb_true_iff in Hch as [Hch%Z.ltb_lt|Hch%Z.ltb_lt]; lia. }
  apply orb_false_iff in Hch as [Hc1%Z.ltb_ge Hc2%Z.ltb_ge]. rewrite (cadd_some 64 x 8), (cadd_some 64 y 8) by lia.
  assert (Hmod : ∀ i, 0 ≤ i mod w < w) by (intros; by apply Z.mod_pos_bound).
  destruct (Z.leb_spec w x) as [Hle|Hgt]; cbn [orb].
  { wp_step. intros i. rewrite decide_False; [done|]. unfold in_glyph, in_rect. specialize (Hmod i). lia. }
  rewrite (proj2 (Z.eqb_neq (y + 8) 0)) by lia.
  destruct (font_lookup ch) as (g & Hg & Hlen); [lia|]. wp_step. wp_step; [exact Hg|].
  assert (Hany : ∀ cols, 0 ≤ cols ≤ 8 → x + cols ≤ w → (cols = 8 ∨ x + cols = w) →
    wp (draw_glyph w x y g cols c) (λ _ b', painted (λ i, 32 ≤ ch ≤ 126 ∧ in_glyph w x y 8 8 ch i) c b b') b).
  { intros cols H1 H2 H3. eapply wp_mono; [eapply (draw_glyph_spec w h x y cols); eauto; lia|].
    intros [] b' Hp i. rewrite (Hp i). apply decide_ext. unfold in_glyph, in_rect. specialize (Hmod i). intuition lia. }
  destruct (Z.leb_spec (x + 8) w); apply Hany; unfold saturating_sub; lia.
Qed.

(** A string: within the row of its characters' cells. *)
Lemma draw_string_spec w h s : ∀ x y c b, full w h b → 0 < w → w * h < 2 ^ 64 → 0 ≤ x → x + 8 * Z.of_nat (length s) < 2 ^ 63 → 0 ≤ y → y + 8 ≤ h →
  wp (draw_string w x y s c) (λ _ b', only (in_rect w x y (8 * Z.of_nat (length s)) 8) b b') b.
Proof.
  induction s as [|ch s IH]; intros x y c b Hf Hw Hsz Hx Hlen Hy Hfit; cbn [draw_string length] in *; [by wp_step|].
  wp_step. eapply wp_mono; [apply (draw_char_spec w h); [done|done|done|lia|done|done]|]. intros [] b1 Hp.
  apply painted_only in Hp. pose proof (only_full _ _ _ _ _ Hp Hf) as Hf1. rewrite cadd_some by lia.
  eapply wp_mono; [apply IH; [done|done|done|lia|lia|done|done]|]. intros [] b2 Ho.
  eapply only_trans; (eapply only_weaken; [|done]); intros i; unfold in_glyph, in_rect; cbv beta; lia.
Qed.
End spec.
