(* ===== verification/GraphicsThms.v ===== *)
(** * Dirty rectangles, command rendering, frames of the compositor and the
    console. *)
From S2P Require Import Prelude Font Graphics GraphicsSpec.
Set Default Goal Selector "!".

(** ** Dirty rectangles, command rendering and the transfer to the screen. *)
(** Pixel [i] is in the dirty rectangle. *)
Definition in_region (w : Z) (r : Region) (i : Z) : Prop := in_rect w (rx r) (ry r) (rwidth r) (rheight r) i.
Definition in_dirty (s : ShadowBuffer) (i : Z) : Prop :=
  match dirty_rect s with Some r => in_region (swidth s) r i | None => False end.
#[export] Instance in_dirty_dec s i : Decision (in_dirty s i).
Proof. unfold in_dirty, in_region. destruct (dirty_rect s); apply _. Defined.

(** A rectangle of [u32] fields that stays within 32 bits. *)
Definition rect_ok (r : Region) : Prop :=
  0 ≤ rx r ∧ 0 ≤ ry r ∧ 0 ≤ rwidth r ∧ 0 ≤ rheight r ∧ rx r + rwidth r < 2 ^ 32 ∧ ry r + rheight r < 2 ^ 32.

Record shadow_ok (s : ShadowBuffer) : Prop := {
  sh_full : full (swidth s) (sheight s) (buffer s);
  sh_width : 0 < swidth s < 2 ^ 32;
  sh_height : 0 ≤ sheight s < 2 ^ 32;
  sh_dirty : ∀ r, dirty_rect s = Some r → 0 ≤ rx r ∧ 0 ≤ ry r ∧ 0 ≤ rwidth r ∧ 0 ≤ rheight r ∧
    rx r + rwidth r ≤ swidth s ∧ ry r + rheight r ≤ sheight s;
}.

(** A command whose pixels lie above the bottom of the screen. *)
Definition cmd_ok (region : Region) (sh : Z) (cmd : DrawCommand) : Prop :=
  rect_ok region ∧ match cmd with
  | Clear _ => ry region + rheight region ≤ sh
  | DrawChar x y _ _ => 0 ≤ x ∧ 0 ≤ y ∧ rx region + x + 8 < 2 ^ 32 ∧ ry region + y + 8 ≤ sh
  | DrawString x y text _ =>
      0 ≤ x ∧ 0 ≤ y ∧ rx region + x + 8 * Z.of_nat (length text) < 2 ^ 32 ∧ ry region + y + 8 ≤ sh
  | FillRect x y w h _ => 0 ≤ x ∧ 0 ≤ y ∧ 0 ≤ w ∧ 0 ≤ h ∧ rx region + x + w < 2 ^ 32 ∧ ry region + y + h ≤ sh
  end.

(** The specification of the compositor: the command drawn straight into a
    frame buffer. *)
Definition draw_direct (w : Z) (region : Region) (cmd : DrawCommand) : M pixels unit :=
  match cmd with
  | Clear color => draw_rect w (rx region) (ry region) (rwidth region) (rheight region) color
  | DrawChar x y ch color => draw_char w (rx region + x) (ry region + y) ch color
  | DrawString x y text color => draw_string w (rx region + x) (ry region + y) text color
  | FillRect x y width height color => draw_rect w (rx region + x) (ry region + y) width height color
  end.

(** What rendering does to the shadow buffer. *)
Record rendered (m : M pixels unit) (s s' : ShadowBuffer) : Prop := {
  rd_ok : shadow_ok s';
  rd_size : swidth s' = swidth s ∧ sheight s' = sheight s;
  rd_draw : m (buffer s) = Some (tt, buffer s');
  rd_dirty : ∀ i, in_dirty s i → in_dirty s' i;
  rd_same : ∀ i, ¬ in_dirty s' i → buffer s' !! i = buffer s !! i;
}.

Section thms.
Implicit Types (s : ShadowBuffer) (r : Region) (b : pixels).

Lemma on_screen s i : shadow_ok s → is_Some (buffer s !! i) → 0 ≤ i mod swidth s < swidth s ∧ 0 ≤ i / swidth s < sheight s.
Proof.
  intros Hok Hi. apply (sh_full _ Hok) in Hi. pose proof (sh_width _ Hok). split; [apply Z.mod_pos_bound; lia|].
  split; [apply Z.div_pos; lia|]. apply Z.div_lt_upper_bound; lia.
Qed.

Lemma mark_dirty_spec r s : shadow_ok s → rect_ok r →
  wp (mark_dirty r) (λ _ s', shadow_ok s' ∧ buffer s' = buffer s ∧ swidth s' = swidth s ∧ sheight s' = sheight s ∧
    ∀ i, in_dirty s i ∨ (is_Some (buffer s !! i) ∧ in_region (swidth s) r i) → in_dirty s' i) s.
Proof.
  intros Hok (H1 & H2 & H3 & H4 & H5 & H6). pose proof (on_screen s) as Hscr. destruct Hok as [Hf Hw Hh Hd].
  assert (Hok : shadow_ok s) by done.
  unfold mark_dirty. wp_step. wp_step. unfold id. wp_step. wp_step; [by apply cadd_some|]. wp_step. wp_step; [by apply cadd_some|].
  destruct (orb _ _) eqn:Hempty.
  { wp_step. split; [done|]. do 3 (split; [done|]). intros i [?|[Hs Hin]]; [done|]. exfalso. specialize (Hscr i Hok Hs).
    unfold in_region, in_rect in Hin. apply orb_true_iff in Hempty as [Hle%Z.leb_le|Hle%Z.leb_le]; lia. }
  apply orb_false_iff in Hempty as [He1%Z.leb_gt He2%Z.leb_gt].
  destruct (dirty_rect s) as [e|] eqn:Hdr.
  - destruct (Hd e eq_refl) as (? & ? & ? & ? & ? & ?). unfold right, bottom. cbn [rx ry rwidth rheight].
    wp_step. wp_step; [apply cadd_some; lia|]. wp_step. wp_step; [apply cadd_some; lia|].
    wp_step. wp_step; [apply cadd_some; lia|]. wp_step. wp_step; [apply cadd_some; lia|]. wp_step.
    split; [split; [done|done|done|]|].
    + intros r' [= <-]. cbn [rx ry rwidth rheight swidth sheight set_dirty]. lia.
    + do 3 (split; [done|]). unfold in_dirty. cbn [set_dirty dirty_rect swidth]. rewrite Hdr. unfold in_region, in_rect. cbn [rx ry rwidth rheight].
      intros i [?|[Hs ?]]; [lia|]. specialize (Hscr i Hok Hs). lia.
  - wp_step. split; [split; [done|done|done|]|].
    + intros r' [= <-]. cbn [rx ry rwidth rheight swidth sheight set_dirty]. lia.
    + do 3 (split; [done|]). unfold in_dirty. cbn [set_dirty dirty_rect swidth]. rewrite Hdr. unfold in_region, in_rect. cbn [rx ry rwidth rheight].
      intros i [[]|[Hs ?]]. specialize (Hscr i Hok Hs). lia.
Qed.

(** A drawing function followed by the mark of its rectangle. *)
Lemma draw_and_mark (m : M pixels unit) r s Q : shadow_ok s → rect_ok r →
  wp m (λ _ b', only (in_region (swidth s) r) (buffer s) b') (buffer s) →
  (∀ s', rendered m s s' → Q tt s') →
  wp (on_buffer m) (λ _ s', wp (mark_dirty r) Q s') s.
Proof.
  intros Hok Hr Hm HQ. apply wp_zoom. apply wp_run in Hm as ([] & b' & Hrun & Ho). apply wp_run. exists tt, b'. split; [done|].
  assert (Hok' : shadow_ok (set_buffer b' s)).
  { destruct Hok. split; try done. by eapply only_full. }
  eapply wp_mono; [by apply mark_dirty_spec|]. intros [] s' (Hok2 & Hb & Hw & Hh & Hd). apply HQ. split.
  - done.
  - done.
  - by rewrite Hb.
  - intros i Hi. apply Hd. by left.
  - intros i Hn. rewrite Hb. simpl. destruct (buffer s !! i) as [c|] eqn:Hi.
    + destruct Ho as [Hs Ho]. rewrite <-Hi. apply Ho. intros Hin. apply Hn, Hd. right. split; [|done]. simpl. apply Hs. by rewrite Hi.
    + apply eq_None_not_Some. intros Hs. simpl in Hs. apply Ho in Hs. rewrite Hi in Hs. by destruct Hs.
Qed.

Lemma render_command_spec region cmd s Q : shadow_ok s → cmd_ok region (sheight s) cmd →
  (∀ s', rendered (draw_direct (swidth s) region cmd) s s' → Q tt s') →
  wp (render_command region cmd) Q s.
Proof.
  intros Hok [Hr Hcmd] HQ. pose proof Hok as [Hf Hw Hh _]. pose proof Hr as (H1 & H2 & H3 & H4 & H5 & H6).
  assert (Hsz : swidth s * sheight s < 2 ^ 64) by nia.
  assert (Hrect : ∀ x y rw rh c, 0 ≤ x → 0 ≤ y → 0 ≤ rw → 0 ≤ rh → x + rw < 2 ^ 32 → y + rh ≤ sheight s →
    wp (draw_rect (swidth s) x y rw rh c) (λ _ b', only (in_region (swidth s) (mkRegion x y rw rh)) (buffer s) b') (buffer s)).
  { intros. eapply wp_mono; [apply (draw_rect_spec _ (sheight s)); (done || lia)|]. intros [] b' Hp. exact (painted_only _ _ _ _ Hp). }
  assert (Hchar : ∀ x y ch c, 0 ≤ x → 0 ≤ y → x + 8 < 2 ^ 32 → y + 8 ≤ sheight s →
    wp (draw_char (swidth s) x y ch c) (λ _ b', only (in_region (swidth s) (mkRegion x y 8 8)) (buffer s) b') (buffer s)).
  { intros. eapply wp_mono; [apply (draw_char_spec _ (sheight s)); (done || lia)|]. intros [] b' Hp.
    eapply only_weaken; [|exact (painted_only _ _ _ _ Hp)]. intros i [_ [Hi _]]. exact Hi. }
  unfold render_command. wp_step. wp_step. destruct cmd as [x y ch c|x y text c|x y w h c|c]; cbn [draw_direct] in HQ.
  - destruct Hcmd as (? & ? & ? & ?). wp_step. wp_step; [apply cadd_some; lia|]. wp_step. wp_step; [apply cadd_some; lia|]. wp_step.
    apply draw_and_mark; [done|unfold rect_ok; simpl; lia|apply Hchar; lia|exact HQ].
  - destruct Hcmd as (? & ? & ? & ?). wp_step. wp_step; [apply cadd_some; lia|]. wp_step. wp_step; [apply cadd_some; lia|]. wp_step.
    assert (Hwrap : wrap 32 (Z.of_nat (length text)) = Z.of_nat (length text)) by (unfold wrap; apply Z.mod_small; lia).
    assert (Hdm : wp (on_buffer (draw_string (swidth s) (rx region + x) (ry region + y) text c))
      (λ _ s', wp (mark_dirty (mkRegion (rx region + x) (ry region + y) (Z.of_nat (length text) * 8) 8)) Q s') s).
    { apply draw_and_mark; [done|unfold rect_ok; simpl; lia| |exact HQ].
      eapply wp_mono; [apply (draw_string_spec _ (sheight s)); (done || lia)|]. intros [] b' Ho. rewrite Z.mul_comm in Ho. exact Ho. }
    eapply wp_mono; [exact Hdm|]. intros [] s' Hs'. wp_step. wp_step; [rewrite Hwrap; apply cmul_some; lia|exact Hs'].
  - destruct Hcmd as (? & ? & ? & ? & ? & ?). wp_step. wp_step; [apply cadd_some; lia|]. wp_step. wp_step; [apply cadd_some; lia|]. wp_step.
    apply draw_and_mark; [done|unfold rect_ok; simpl; lia|apply Hrect; lia|exact HQ].
  - wp_step. apply draw_and_mark; [done|done|destruct region; apply Hrect; simpl in *; lia|exact HQ].
Qed.

Lemma rendered_refl s : shadow_ok s → rendered (mret tt) s s.
Proof. by split. Qed.
Lemma rendered_trans m1 m2 s1 s2 s3 : rendered m1 s1 s2 → rendered m2 s2 s3 → rendered (m1 ;; m2) s1 s3.
Proof.
  intros [A1 [A2 A2'] A3 A4 A5] [B1 [B2 B2'] B3 B4 B5]. split.
  - done.
  - by rewrite B2, B2'.
  - unfold mbind, M_bind. by rewrite A3.
  - auto.
  - intros i Hn. rewrite B5 by done. apply A5. intros Hd. by apply Hn, B4.
Qed.

Lemma render_commands_spec region cmds : ∀ s Q, shadow_ok s → (∀ cmd, cmd ∈ cmds → cmd_ok region (sheight s) cmd) →
  (∀ s', rendered (for_each cmds (draw_direct (swidth s) region)) s s' → Q tt s') →
  wp (render_commands_to region cmds) Q s.
Proof.
  unfold render_commands_to. induction cmds as [|cmd cmds IH]; intros s Q Hok Hcmds HQ; cbn [for_each] in *.
  - wp_step. by apply HQ, rendered_refl.
  - wp_step. apply render_command_spec; [done|apply Hcmds; by left|]. intros s1 H1. pose proof (rd_size _ _ _ H1) as [Hw Hh].
    apply IH; [apply H1|intros; rewrite Hh; apply Hcmds; by right|]. intros s2 H2. apply HQ. rewrite Hw in H2. by eapply rendered_trans.
Qed.

(** ** The transfer *)
Lemma copy_row_spec w h p n v : full w h (buffer (shadow v)) → full w h (hw v) → 0 ≤ n → (∀ j, 0 ≤ j < n → 0 ≤ p + j < w * h) →
  wp (copy_row p n) (λ _ v', shadow v' = shadow v ∧ full w h (hw v') ∧
    ∀ i, hw v' !! i = if decide (p ≤ i < p + n) then buffer (shadow v) !! i else hw v !! i) v.
Proof.
  intros Hs Hd Hn Hin. unfold copy_row.
  apply (wp_for_range n _ (λ k v', shadow v' = shadow v ∧ full w h (hw v') ∧
    ∀ i, hw v' !! i = if decide (p ≤ i < p + k) then buffer (shadow v) !! i else hw v !! i)); [done| |].
  - split; [done|]. split; [done|]. intros i. by rewrite decide_False by lia.
  - intros k v' Hk (Hsh & Hf & HI). destruct (proj2 (Hs (p + k)) (Hin k Hk)) as [c Hc].
    wp_step. apply wp_zoom. unfold get. wp_step. wp_step. rewrite Hsh. eapply wp_lift; [exact Hc|].
    apply wp_zoom. apply wp_put; [by apply Hf, Hin|]. cbn [shadow hw]. split; [done|]. split.
    + intros i. destruct (decide (p + k = i)) as [<-|Hne].
      * rewrite lookup_insert_eq. split; [intros _; by apply Hin|by intros _].
      * rewrite lookup_insert_ne by done. apply Hf.
    + intros i. destruct (decide (p + k = i)) as [<-|Hne].
      * rewrite lookup_insert_eq, decide_True by lia. done.
      * rewrite lookup_insert_ne, HI by done. apply decide_ext. lia.
Qed.

(** The transfer copies exactly the dirty rectangle. *)
Lemma blit_spec v Q : shadow_ok (shadow v) → full (swidth (shadow v)) (sheight (shadow v)) (hw v) →
  (∀ h', full (swidth (shadow v)) (sheight (shadow v)) h' →
     (∀ i, h' !! i = if decide (in_dirty (shadow v) i) then buffer (shadow v) !! i else hw v !! i) →
     Q (bool_decide (dirty_rect (shadow v) ≠ None)) (mkScreen (set_dirty None (shadow v)) h')) →
  wp blit_to Q v.
Proof.
  intros Hok Hhw HQ. pose proof Hok as [Hf Hw Hh Hd]. unfold blit_to, take_dirty_rect. wp_step. apply wp_zoom. wp_step. wp_step. wp_step. wp_step. wp_step.
  unfold id. assert (Hin : ∀ i, in_dirty (shadow v) i ↔ match dirty_rect (shadow v) with Some r => in_region (swidth (shadow v)) r i | None => False end) by done.
  destruct (dirty_rect (shadow v)) as [r|] eqn:Hdr.
  - destruct (Hd r eq_refl) as (? & ? & ? & ? & ? & ?). wp_step. wp_step. wp_step. wp_step; [apply cadd_some; lia|]. wp_step.
    cbn [shadow set_dirty swidth]. replace (ry r + rheight r - ry r) with (rheight r) by lia.
    set (w := swidth (shadow v)) in *. set (h := sheight (shadow v)) in *.
    set (v0 := mkScreen (set_dirty None (shadow v)) (hw v)).
    assert (Hindex : ∀ y, ry r ≤ y < ry r + rheight r → y * w + w ≤ w * h) by (intros; nia).
    eapply wp_mono; [apply (wp_for_seqZ (ry r) (rheight r) _ (λ k v', shadow v' = shadow v0 ∧ full w h (hw v') ∧
      ∀ i, hw v' !! i = if decide (in_rect w (rx r) (ry r) (rwidth r) (k - ry r) i) then buffer (shadow v) !! i else hw v !! i))|].
    + done.
    + split; [done|]. split; [done|]. intros i. rewrite decide_False; [done|]. unfold in_rect. lia.
    + intros y v' Hy (Hsh & Hf' & HI). specialize (Hindex y Hy). assert (0 ≤ y * w) by nia.
      assert (Hsz : w * h < 2 ^ 64) by nia. wp_step.
      wp_step; [rewrite cmul_some by lia; simpl; apply cadd_some; lia|].
      assert (Hbuf : buffer (shadow v') = buffer (shadow v)) by (by rewrite Hsh).
      eapply wp_mono; [apply (copy_row_spec w h); [by rewrite Hbuf|done|lia|lia]|].
      intros [] v'' (Hsh' & Hf'' & Hcp). split; [by rewrite Hsh'|]. split; [done|]. intros i. rewrite Hcp, HI, Hbuf.
      pose proof (row_index w y (rx r) (rx r + rwidth r) i ltac:(lia) ltac:(lia) ltac:(lia)) as Hri. rewrite Z.add_assoc in Hri.
      destruct (decide (y * w + rx r ≤ i < y * w + rx r + rwidth r)) as [Hi|Hout].
      * rewrite decide_True; [done|]. apply Hri in Hi. unfold in_rect. lia.
      * apply decide_ext. unfold in_rect. destruct (decide (i / w = y)); [|lia]. split; intros; exfalso; apply Hout, Hri; lia.
    + intros [] v' (Hsh & Hf' & HI). wp_step. rewrite bool_decide_true in HQ by done. destruct v' as [sh' h']. simpl in Hsh, Hf', HI. subst sh'.
      apply HQ; [done|]. intros i. rewrite HI. apply decide_ext. rewrite Hin. unfold in_region. fold w.
      by replace (ry r + rheight r - ry r) with (rheight r) by lia.
  - wp_step. rewrite bool_decide_false in HQ by tauto. apply HQ; [done|]. intros i. rewrite decide_False; [done|]. rewrite Hin. tauto.
Qed.
End thms.

(** ** Frames: what one round of the compositor does. *)
(** ** The specification

    A frame draws the commands of every dirty buffer it finds unlocked straight
    on the screen, in the order of registration, and empties those buffers. *)
Definition buffer_spec (w : Z) (e : bool * WriterBuffer) : M pixels unit :=
  if negb e.1 && dirty e.2 then for_each (commands e.2) (draw_direct w (wregion e.2)) else mret tt.
Definition frame_spec (w : Z) (bufs : list (bool * WriterBuffer)) : M pixels unit := for_each bufs (buffer_spec w).
Definition after_frame (e : bool * WriterBuffer) : bool * WriterBuffer :=
  if negb e.1 && dirty e.2 then (e.1, clear_commands e.2) else e.

(** Between frames the screen shows the shadow buffer, and every buffered
    command stays above the bottom of the screen. *)
Record frame_ready (c : compositor) : Prop := {
  fr_shadow : shadow_ok (shadow (scr c));
  fr_clean : dirty_rect (shadow (scr c)) = None;
  fr_hw : hw (scr c) = buffer (shadow (scr c));
  fr_cmds : ∀ l buf cmd, (l, buf) ∈ buffers c → cmd ∈ commands buf → cmd_ok (wregion buf) (sheight (shadow (scr c))) cmd;
}.

Section frame.
Implicit Types (c : compositor) (s : ShadowBuffer) (bufs : list (bool * WriterBuffer)).

Lemma rendered_ext (m m' : M pixels unit) s s' : (∀ b, m b = m' b) → rendered m s s' → rendered m' s s'.
Proof. intros He [? ? Hd ? ?]. split; try done. by rewrite <-He. Qed.

(** One buffer, found in state [c] at index [i]. *)
Lemma render_buffer_spec i e c Q : buffers c !! i = Some e → shadow_ok (shadow (scr c)) →
  (∀ cmd, cmd ∈ commands e.2 → cmd_ok (wregion e.2) (sheight (shadow (scr c))) cmd) →
  (∀ s', rendered (buffer_spec (swidth (shadow (scr c))) e) (shadow (scr c)) s' →
     Q tt (mkComp (<[i := after_frame e]> (buffers c)) (mkScreen s' (hw (scr c))) (FRAME_COUNT c))) →
  wp (render_buffer i) Q c.
Proof.
  intros Hi Hok Hcmds HQ. unfold render_buffer. wp_step. wp_step. wp_step. wp_step; [exact Hi|]. destruct e as [l buf].
  assert (Hskip : negb l && dirty buf = false → Q tt c).
  { intros Hn. unfold buffer_spec, after_frame in HQ. cbn [fst snd] in HQ. rewrite Hn in HQ. specialize (HQ _ (rendered_refl _ Hok)).
    rewrite list_insert_id in HQ by done. by destruct c as [? [? ?] ?]. }
  unfold buffer_spec, after_frame in HQ. cbn [fst snd] in HQ.
  destruct l; [wp_step; by apply Hskip|]. destruct (dirty buf) eqn:Hd; [|wp_step; by apply Hskip]. cbn [negb andb] in HQ.
  wp_step. apply wp_zoom. unfold on_shadow. apply wp_zoom. apply render_commands_spec; [done|done|]. intros s' Hs'. wp_step. by apply HQ.
Qed.

(** The loop over the snapshot. *)
Lemma render_all_spec c : shadow_ok (shadow (scr c)) →
  (∀ l buf cmd, (l, buf) ∈ buffers c → cmd ∈ commands buf → cmd_ok (wregion buf) (sheight (shadow (scr c))) cmd) →
  wp (for_each (seq 0 (length (buffers c))) render_buffer)
    (λ _ c', ∃ s', rendered (frame_spec (swidth (shadow (scr c))) (buffers c)) (shadow (scr c)) s' ∧
       c' = mkComp (after_frame <$> buffers c) (mkScreen s' (hw (scr c))) (FRAME_COUNT c)) c.
Proof.
  intros Hok Hcmds. set (w := swidth (shadow (scr c))). set (bufs := buffers c) in *.
  eapply wp_mono; [apply (wp_for_each _ (λ dn c', ∃ s', rendered (frame_spec w (take (length dn) bufs)) (shadow (scr c)) s' ∧
    c' = mkComp ((after_frame <$> take (length dn) bufs) ++ drop (length dn) bufs) (mkScreen s' (hw (scr c))) (FRAME_COUNT c)))|].
  - exists (shadow (scr c)). split; [by apply rendered_refl|]. by destruct c as [? [? ?] ?].
  - intros dn i todo c' Heq (s' & Hs' & ->).
    assert (Hi : seq 0 (length bufs) !! length dn = Some i) by (by rewrite Heq, list_lookup_middle).
    apply lookup_seq in Hi as [-> Hlt]. simpl. set (k := length dn) in *.
    apply lookup_lt_is_Some in Hlt as [[l buf] He]. pose proof (rd_size _ _ _ Hs') as [Hsw Hsh].
    pose proof (lookup_lt_Some _ _ _ He) as Hk.
    assert (Hlk : length (after_frame <$> take k bufs) = k) by (rewrite length_fmap, length_take; lia).
    assert (Hdrop : drop k bufs = (l, buf) :: drop (S k) bufs) by (by apply drop_S).
    apply (render_buffer_spec _ (l, buf)).
    + cbn [buffers]. rewrite Hdrop. rewrite lookup_app_r by lia. by rewrite Hlk, Nat.sub_diag.
    + apply Hs'.
    + intros cmd Hcmd. cbn [scr shadow snd]. rewrite Hsh. eapply Hcmds; [|done]. by eapply list_elem_of_lookup_2.
    + intros s'' Hs''. cbn [scr shadow buffers hw FRAME_COUNT] in *. exists s''. rewrite length_app. cbn [length]. rewrite Nat.add_1_r. fold k.
      rewrite (take_S_r _ _ _ He), fmap_app, <-app_assoc. split.
      * rewrite Hsw in Hs''. eapply rendered_ext; [|eapply rendered_trans; [exact Hs'|exact Hs'']]. intros b. symmetry. apply for_each_snoc.
      * fold k. f_equal. rewrite Hdrop. rewrite insert_app_r_alt by lia. by rewrite Hlk, Nat.sub_diag.
  - intros [] c'. rewrite length_seq, firstn_all, drop_all, app_nil_r. done.
Qed.

(** A whole frame. *)
Lemma frame_effect c : frame_ready c →
  ∃ blitted c', compositor_frame c = Some (blitted, c') ∧ frame_ready c' ∧
    frame_spec (swidth (shadow (scr c))) (buffers c) (hw (scr c)) = Some (tt, hw (scr c')) ∧
    buffers c' = after_frame <$> buffers c ∧ FRAME_COUNT c' = wrap 64 (FRAME_COUNT c + 1) ∧
    swidth (shadow (scr c')) = swidth (shadow (scr c)) ∧ sheight (shadow (scr c')) = sheight (shadow (scr c)) ∧
    (blitted = false → hw (scr c') = hw (scr c)).
Proof.
  intros [Hok Hclean Hhw Hcmds].
  enough (Hwp : wp compositor_frame (λ blitted c', frame_ready c' ∧
    frame_spec (swidth (shadow (scr c))) (buffers c) (hw (scr c)) = Some (tt, hw (scr c')) ∧
    buffers c' = after_frame <$> buffers c ∧ FRAME_COUNT c' = wrap 64 (FRAME_COUNT c + 1) ∧
    swidth (shadow (scr c')) = swidth (shadow (scr c)) ∧ sheight (shadow (scr c')) = sheight (shadow (scr c)) ∧
    (blitted = false → hw (scr c') = hw (scr c))) c).
  { apply wp_run in Hwp as (bl & c' & ? & ?). by exists bl, c'. }
  unfold compositor_frame, get_buffers_snapshot. wp_step. wp_step. wp_step. eapply wp_mono; [by apply render_all_spec|].
  intros [] c1 (s' & Hs' & ->). pose proof (rd_size _ _ _ Hs') as [Hsw Hsh]. wp_step. apply wp_zoom. cbn [scr].
  apply blit_spec; cbn [shadow hw].
  - apply Hs'.
  - rewrite Hsw, Hsh, Hhw. apply Hok.
  - intros h' Hf' Hh'. wp_step. wp_step. wp_step. cbn [scr shadow hw buffers FRAME_COUNT] in *.
    assert (Heq : h' = buffer s').
    { apply map_eq. intros i. rewrite Hh'. destruct (decide (in_dirty s' i)) as [|Hn]; [done|]. rewrite Hhw. symmetry. by apply Hs'. }
    pose proof (rd_ok _ _ _ Hs') as [? ? ? _].
    split; [|split; [by rewrite Hhw, Heq; apply Hs'|do 4 (split; [done|])]].
    + split; cbn [scr shadow hw set_dirty dirty_rect buffer buffers sheight]; [by split|done|done|]. intros l buf cmd Hin Hcmd. rewrite Hsh.
      apply list_elem_of_fmap in Hin as ([l0 buf0] & Heq0 & Hin). unfold after_frame in Heq0. cbn [fst snd] in Heq0.
      destruct (negb l0 && dirty buf0); injection Heq0 as -> ->; [by apply elem_of_nil in Hcmd|by eapply Hcmds].
    + intros Hb. rewrite bool_decide_eq_false in Hb. apply dec_stable in Hb. apply map_eq. intros i. rewrite Hh', decide_False; [done|].
      unfold in_dirty. rewrite Hb. tauto.
Qed.
End frame.

(** ** The frame buffer console: lemmas. *)
Section console.
Implicit Types f : FramebufferWriter.

Lemma clear_screen_spec c f : full (fwidth f) (fheight f) (fb f) → 0 < fwidth f < 2 ^ 32 → 0 ≤ fheight f < 2 ^ 32 →
  wp (clear_screen c) (λ _ f', fx f' = 0 ∧ fy f' = 0 ∧ ∀ i, fb f' !! i = (λ _, c) <$> fb f !! i) f.
Proof.
  intros Hf Hw Hh. unfold clear_screen. wp_step. wp_step. unfold id. wp_step. wp_step; [apply cmul_some; nia|]. wp_step. apply wp_zoom.
  eapply wp_mono; [apply fill_spec; [nia|]; intros j Hj; apply Hf; lia|]. intros [] b' Hp. wp_step. split; [done|]. split; [done|].
  intros i. cbn. rewrite (Hp i). destruct (fb f !! i) as [p|] eqn:Hi; cbn.
  - rewrite decide_True; [done|]. split; [|done]. apply Hf. by rewrite Hi.
  - apply decide_False. intros [_ [? ?]]. done.
Qed.

(** One byte, with room below; [top] is a row above which nothing changes. *)
Lemma fb_write_byte_spec ch f top : full (fwidth f) (fheight f) (fb f) → 8 ≤ fwidth f < 2 ^ 32 → 0 ≤ fx f ≤ fwidth f → 0 ≤ top ≤ fy f →
  fy f + 18 ≤ fheight f < 2 ^ 32 →
  wp (fb_write_byte ch) (λ _ f', full (fwidth f) (fheight f) (fb f') ∧ 0 ≤ fx f' ≤ fwidth f ∧ fy f ≤ fy f' ≤ fy f + 10 ∧
    fwidth f' = fwidth f ∧ fheight f' = fheight f ∧ ∀ i, 0 ≤ i < top * fwidth f → fb f' !! i = fb f !! i) f.
Proof.
  intros Hf Hw Hx Hy Hfit. unfold fb_write_byte, newline. destruct (ch =? 10).
  { wp_step. wp_step. wp_step. unfold id. wp_step; [apply cadd_some; lia|]. wp_step. cbn. repeat (split; [done || lia|]). done. }
  wp_step. wp_step. unfold id. wp_step. wp_step; [apply cadd_some; lia|].
  assert (Htail : ∀ f1, fb f1 = fb f → fwidth f1 = fwidth f → fheight f1 = fheight f → 0 ≤ fx f1 → fx f1 + 8 ≤ fwidth f → fy f ≤ fy f1 ≤ fy f + 10 →
    wp (f ← gets id; on_fb (draw_char (fwidth f) (fx f) (fy f) ch (fcolor f)) ;; x ← lift (cadd 64 (fx f) 8); modify (fb_set_position x (fy f)))
      (λ _ f', full (fwidth f) (fheight f) (fb f') ∧ 0 ≤ fx f' ≤ fwidth f ∧ fy f ≤ fy f' ≤ fy f + 10 ∧
        fwidth f' = fwidth f ∧ fheight f' = fheight f ∧ ∀ i, 0 ≤ i < top * fwidth f → fb f' !! i = fb f !! i) f1).
  { intros f1 Hb1 Hw1 Hh1 Hx1 Hx1' Hy1. wp_step. wp_step. unfold id. wp_step. apply wp_zoom. rewrite Hb1, Hw1.
    eapply wp_mono; [apply (draw_char_spec _ (fheight f)); [done|lia|nia|lia|lia|lia]|]. intros [] b' Hp.
    wp_step. wp_step; [apply cadd_some; lia|]. wp_step. cbn. pose proof (painted_only _ _ _ _ Hp) as Ho. split; [by eapply only_full|].
    split; [lia|]. split; [lia|]. split; [done|]. split; [done|]. intros i Hi. apply Ho. intros [_ [[_ Hrow] _]].
    assert (i / fwidth f < top) by (apply Z.div_lt_upper_bound; lia). lia. }
  wp_step. destruct (Z.ltb_spec (fwidth f) (fx f + 8)).
  - wp_step. wp_step. wp_step. wp_step; [apply cadd_some; lia|]. wp_step. apply Htail; cbn; (done || lia).
  - wp_step. apply Htail; (done || lia).
Qed.

Lemma fb_write_str_spec s : ∀ f top, full (fwidth f) (fheight f) (fb f) → 8 ≤ fwidth f < 2 ^ 32 → 0 ≤ fx f ≤ fwidth f → 0 ≤ top ≤ fy f →
  fheight f < 2 ^ 32 → fy f + 10 * Z.of_nat (length s) + 8 ≤ fheight f →
  wp (fb_write_str s) (λ _ f', full (fwidth f) (fheight f) (fb f') ∧ 0 ≤ fx f' ≤ fwidth f ∧ fy f ≤ fy f' ≤ fy f + 10 * Z.of_nat (length s) ∧
    fwidth f' = fwidth f ∧ fheight f' = fheight f ∧ ∀ i, 0 ≤ i < top * fwidth f → fb f' !! i = fb f !! i) f.
Proof.
  unfold fb_write_str. induction s as [|ch s IH]; intros f top Hf Hw Hx Hy Hh Hfit; cbn [for_each length] in *.
  - wp_step. repeat (split; [done || lia|]). done.
  - wp_step. eapply wp_mono; [apply (fb_write_byte_spec ch f top); (done || lia)|]. intros [] f1 (H1 & H2 & H3 & H4 & H5 & H6).
    eapply wp_mono; [apply (IH f1 top); rewrite ?H4, ?H5; (done || lia)|]. rewrite H4, H5. intros [] f2 (K1 & K2 & K3 & K4 & K5 & K6).
    repeat (split; [done || lia|]). intros i Hi. by rewrite K6, H6.
Qed.

(** A visible character below the last row: its first pixel is outside. *)
Lemma fb_write_below f : full (fwidth f) (fheight f) (fb f) → 8 ≤ fwidth f < 2 ^ 32 → 0 ≤ fx f → fx f + 8 ≤ fwidth f → 0 ≤ fheight f ≤ fy f → fy f < 2 ^ 32 →
  fb_write_str [65] f = None.
Proof.
  intros Hf Hw Hx Hx' Hh Hy. unfold fb_write_str. apply (for_each_fails _ []). intros f' [= <-]. unfold fb_write_byte.
  change (65 =? 10) with false. cbv iota. unfold mbind at 1 2 3, M_bind, gets, lift, id. rewrite (cadd_some 64 (fx f) 8) by lia.
  rewrite (proj2 (Z.ltb_ge _ _)) by lia. cbv [mret M_ret].
  assert (Hd : draw_char (fwidth f) (fx f) (fy f) 65 (fcolor f) (fb f) = None).
  { unfold draw_char. change ((65 <? 32) || (126 <? 65)) with false. rewrite (cadd_some 64 (fx f) 8), (cadd_some 64 (fy f) 8) by lia.
    rewrite (proj2 (Z.leb_gt (fwidth f) (fx f))), (proj2 (Z.eqb_neq (fy f + 8) 0)) by lia. cbv [orb].
    rewrite (proj2 (Z.leb_le (fx f + 8) (fwidth f))) by lia. unfold mbind, M_bind, lift.
    change (FONT_8X8 !! Z.to_nat (65 - 32)) with (Some [12; 30; 51; 51; 63; 51; 51; 0]). cbv iota. unfold draw_glyph.
    apply (for_each_fails _ [] 0 [1; 2; 3; 4; 5; 6; 7]). intros b [= <-]. unfold mbind, M_bind, lift.
    assert (H0 : [12; 30; 51; 51; 63; 51; 51; 0] !! Z.to_nat 0 = Some 12) by reflexivity. rewrite H0. cbv beta iota. change (12 =? 0) with false. cbv iota beta. unfold cadd, cmul.
    destruct (_ <? _); [|done]. destruct (_ <? _); [|done]. destruct (_ <? _); [|done].
    apply (for_each_fails _ [0; 1] 2 [3; 4; 5; 6; 7]). intros b [= <-]. cbv iota. unfold put.
    change (Z.land (Z.shiftr 12 2) 1 =? 1) with true. cbv iota. apply decide_False. rewrite (Hf _). nia. }
  unfold mbind, M_bind, on_fb, zoom. by rewrite Hd.
Qed.
End console.
