(* ===== verification/Writer.v ===== *)
(** * Task writers ([kernel/src/graphics/writer.rs]).

    A task collects commands in its writer and moves them to its shared buffer
    with [flush].  The writer names the buffer by its index in the compositor.
    Text is the bytes of the [String]: a byte pushed [as char] is one byte below
    128 and two (UTF-8) above. *)
From S2P Require Import Prelude Font Graphics.
Set Default Goal Selector "!".

Record TaskWriter := mkTask {
  wbuffer : nat; local_commands : list DrawCommand; region : Region;
  cursor_x : Z; cursor_y : Z; color : Z; pending_text : list Z; pending_x : Z; pending_y : Z }.

(** [new] locks the shared buffer to read its region. *)
Definition TaskWriter_new (buffer : nat) (color : Z) : M compositor TaskWriter :=
  c ← gets id;
  e ← lift (buffers c !! buffer);
  let '(locked, buf) := (e : bool * WriterBuffer) in
  assert_ (negb locked) ;;
  mret (mkTask buffer [] (wregion buf) 0 0 color [] 0 0).
Definition set_cursor (x y : Z) (t : TaskWriter) : TaskWriter :=
  mkTask (wbuffer t) (local_commands t) (region t) x y (color t) (pending_text t) (pending_x t) (pending_y t).
Definition set_position : Z → Z → TaskWriter → TaskWriter := set_cursor.
Definition set_color (c : Z) (t : TaskWriter) : TaskWriter :=
  mkTask (wbuffer t) (local_commands t) (region t) (cursor_x t) (cursor_y t) c (pending_text t) (pending_x t) (pending_y t).
Definition push_local (cmd : DrawCommand) (t : TaskWriter) : TaskWriter :=
  mkTask (wbuffer t) (local_commands t ++ [cmd]) (region t) (cursor_x t) (cursor_y t) (color t) (pending_text t) (pending_x t) (pending_y t).
Definition set_pending_text (s : list Z) (t : TaskWriter) : TaskWriter :=
  mkTask (wbuffer t) (local_commands t) (region t) (cursor_x t) (cursor_y t) (color t) s (pending_x t) (pending_y t).
Definition set_pending_start (x y : Z) (t : TaskWriter) : TaskWriter :=
  mkTask (wbuffer t) (local_commands t) (region t) (cursor_x t) (cursor_y t) (color t) (pending_text t) x y.
Definition set_local (l : list DrawCommand) (t : TaskWriter) : TaskWriter :=
  mkTask (wbuffer t) l (region t) (cursor_x t) (cursor_y t) (color t) (pending_text t) (pending_x t) (pending_y t).

Definition commit_pending_text (t : TaskWriter) : TaskWriter :=
  match pending_text t with
  | [] => t
  | text => push_local (DrawString (pending_x t) (pending_y t) text (color t)) (set_pending_text [] t)
  end.

Definition clear (bg_color : Z) (t : TaskWriter) : TaskWriter :=
  set_cursor 0 0 (push_local (Clear bg_color) (commit_pending_text t)).

(** [String::push(ch as char)] for a byte. *)
Definition char_bytes (ch : Z) : list Z :=
  if ch <? 128 then [ch] else [Z.lor 0xC0 (Z.shiftr ch 6); Z.lor 0x80 (Z.land ch 0x3F)].

(** The body of the loop of [write_str]. *)
Definition write_byte (ch : Z) : M TaskWriter unit :=
  if ch =? 10 then
    modify commit_pending_text ;;
    t ← gets id; y ← lift (cadd 32 (cursor_y t) 10); modify (set_cursor 0 y)
  else
    t ← gets id; xe ← lift (cadd 32 (cursor_x t) 8);
    (if rwidth (region t) <? xe then
       modify commit_pending_text ;;
       t ← gets id; y ← lift (cadd 32 (cursor_y t) 10); modify (set_cursor 0 y)
     else mret tt) ;;
    t ← gets id; ye ← lift (cadd 32 (cursor_y t) 8);
    (if rheight (region t) <? ye then
       modify commit_pending_text ;;
       modify (push_local (Clear 0)) ;;
       modify (λ t, set_cursor (cursor_x t) 0 t)
     else mret tt) ;;
    modify (λ t, match pending_text t with [] => set_pending_start (cursor_x t) (cursor_y t) t | _ => t end) ;;
    modify (λ t, set_pending_text (pending_text t ++ char_bytes ch) t) ;;
    t ← gets id; x ← lift (cadd 32 (cursor_x t) 8); modify (set_cursor x (cursor_y t)).
Definition write_str (s : list Z) : M TaskWriter unit := for_each s write_byte.

(** [flush] locks the shared buffer, so it goes on from a state where it is free. *)
Record drawing := mkDrawing { writer : TaskWriter; comp : compositor }.
Definition flush : M drawing unit :=
  modify (λ d, mkDrawing (commit_pending_text (writer d)) (comp d)) ;;
  d ← gets id;
  match local_commands (writer d) with
  | [] => mret tt
  | cmds =>
      e ← lift (buffers (comp d) !! wbuffer (writer d));
      let '(locked, buf) := (e : bool * WriterBuffer) in
      assert_ (negb locked) ;;
      modify (λ d, mkDrawing (set_local [] (writer d))
        (mkComp (<[wbuffer (writer d) := (locked, extend_commands cmds buf)]> (buffers (comp d))) (scr (comp d)) (FRAME_COUNT (comp d))))
  end.
