(* ===== verification/WriterThms.v ===== *)
(** * A task's output stays in its region and is what an unbatched writer draws. *)
From S2P Require Import Prelude Font Graphics GraphicsSpec GraphicsThms Writer.
Set Default Goal Selector "!".

(** A command, in the coordinates of its region, that stays inside it. *)
Definition cmd_inside (r : Region) (cmd : DrawCommand) : Prop :=
  match cmd with
  | Clear _ => True
  | DrawChar x y _ _ => 0 ≤ x ∧ 0 ≤ y ∧ x + 8 ≤ rwidth r ∧ y + 8 ≤ rheight r
  | DrawString x y text _ => 0 ≤ x ∧ 0 ≤ y ∧ x + 8 * Z.of_nat (length text) ≤ rwidth r ∧ y + 8 ≤ rheight r
  | FillRect x y w h _ => 0 ≤ x ∧ 0 ≤ y ∧ 0 ≤ w ∧ 0 ≤ h ∧ x + w ≤ rwidth r ∧ y + h ≤ rheight r
  end.

(** Invariant of a writer. *)
Record writer_ok (t : TaskWriter) : Prop := {
  wo_region : rect_ok (region t) ∧ 8 ≤ rwidth (region t) < 2 ^ 32 - 8 ∧ 8 ≤ rheight (region t);
  wo_cursor : 0 ≤ cursor_x t ≤ rwidth (region t) ∧ 0 ≤ cursor_y t;
  wo_pending : pending_text t ≠ [] →
    0 ≤ pending_x t ∧ cursor_x t = pending_x t + 8 * Z.of_nat (length (pending_text t)) ∧
    pending_y t = cursor_y t ∧ cursor_y t + 8 ≤ rheight (region t);
  wo_local : ∀ cmd, cmd ∈ local_commands t → cmd_inside (region t) cmd;
}.

(** ** Commands that draw the same *)
Definition same_drawing (r : Region) (l1 l2 : list DrawCommand) : Prop :=
  ∀ w b, for_each l1 (draw_direct w r) b = for_each l2 (draw_direct w r) b.

#[export] Instance same_drawing_equiv r : Equivalence (same_drawing r).
Proof. split; [done|by intros ? ? H w b|]. intros l1 l2 l3 H1 H2 w b. by rewrite H1, H2. Qed.
#[export] Instance app_same r : Proper (same_drawing r ==> same_drawing r ==> same_drawing r) app.
Proof.
  intros l1 l1' H1 l2 l2' H2 w b. rewrite !for_each_app. unfold mbind, M_bind. rewrite H1.
  destruct (for_each l1' _ b) as [[[] b1]|]; [apply H2|done].
Qed.

Lemma draw_string_snoc w y c ch s : ∀ x b, 0 ≤ x → x + 8 * Z.of_nat (length s) < 2 ^ 64 - 8 →
  draw_string w x y (s ++ [ch]) c b = (draw_string w x y s c ;; draw_char w (x + 8 * Z.of_nat (length s)) y ch c) b.
Proof.
  induction s as [|c0 s IH]; intros x b Hx Hl; cbn [app draw_string length] in *; unfold mbind, M_bind in *.
  - rewrite Z.add_0_r, cadd_some by lia. cbv [mret M_ret]. by destruct (draw_char w x y ch c b) as [[[] b1]|].
  - rewrite cadd_some by lia. destruct (draw_char w x y c0 c b) as [[[] b1]|]; [|done]. rewrite IH by lia.
    by replace (x + 8 + 8 * Z.of_nat (length s)) with (x + 8 * Z.of_nat (S (length s))) by lia.
Qed.

(** The batched string is the string and one more character. *)
Lemma string_snoc r x y s ch c : 0 ≤ rx r + x → rx r + x + 8 * Z.of_nat (length s) < 2 ^ 64 - 8 →
  same_drawing r [DrawString x y (s ++ [ch]) c] [DrawString x y s c; DrawChar (x + 8 * Z.of_nat (length s)) y ch c].
Proof.
  intros H1 H2 w b. cbn [for_each draw_direct]. unfold mbind, M_bind. rewrite draw_string_snoc by done. unfold mbind, M_bind.
  rewrite Z.add_assoc. by destruct (draw_string _ _ _ s _ b) as [[[] b1]|].
Qed.
Lemma string_nil r x y c : same_drawing r [DrawString x y [] c] [].
Proof. done. Qed.

(** ** The reference writer

    One [DrawChar] per byte: the commands so far and the cursor. *)
Definition layout : Type := list DrawCommand * Z * Z.
Definition ref_wrap (r : Region) (st : layout) : layout :=
  let '(cmds, x, y) := st in if rwidth r <? x + 8 then (cmds, 0, y + 10) else st.
Definition ref_scroll (r : Region) (st : layout) : layout :=
  let '(cmds, x, y) := st in if rheight r <? y + 8 then (cmds ++ [Clear 0], x, 0) else st.
Definition ref_place (c ch : Z) (st : layout) : layout :=
  let '(cmds, x, y) := st in (cmds ++ [DrawChar x y ch c], x + 8, y).
Definition ref_byte (r : Region) (c : Z) (st : layout) (ch : Z) : layout :=
  if ch =? 10 then let '(cmds, x, y) := st in (cmds, 0, y + 10) else ref_place c ch (ref_scroll r (ref_wrap r st)).

(** The writer's commands, with the pending text committed. *)
Definition committed (t : TaskWriter) : list DrawCommand := local_commands (commit_pending_text t).
Definition shows (t : TaskWriter) (st : layout) : Prop :=
  let '(cmds, x, y) := st in same_drawing (region t) (committed t) cmds ∧ cursor_x t = x ∧ cursor_y t = y.

Section writer.
Implicit Types (t : TaskWriter) (r : Region) (st : layout).

Lemma commit_ok t : writer_ok t → writer_ok (commit_pending_text t) ∧ pending_text (commit_pending_text t) = [] ∧
  region (commit_pending_text t) = region t ∧ cursor_x (commit_pending_text t) = cursor_x t ∧ cursor_y (commit_pending_text t) = cursor_y t ∧
  wbuffer (commit_pending_text t) = wbuffer t ∧ color (commit_pending_text t) = color t.
Proof.
  intros [Hr Hc Hp Hl]. unfold commit_pending_text. destruct (pending_text t) as [|ch s] eqn:Ht.
  - done.
  - split; [|done]. destruct Hp as (H1 & H2 & H3 & H4); [done|]. split; try done. simpl. intros cmd.
    rewrite elem_of_app, list_elem_of_singleton. intros [Hin| ->]; [by apply Hl|]. unfold cmd_inside. cbn [length] in *. lia.
Qed.

Lemma newline_ok t y : writer_ok t → 0 ≤ y → writer_ok (set_cursor 0 y (commit_pending_text t)).
Proof.
  intros Hok Hy. destruct (commit_ok t Hok) as ([Hr Hc Hp Hl] & Hpt & Hrg & _). split; try done.
  - simpl. destruct Hr as [(?&?&?&?&?) ?]. lia.
Qed.

(** Commands with nothing pending are committed. *)
Lemma committed_nil t : pending_text t = [] → committed t = local_commands t.
Proof. unfold committed, commit_pending_text. by intros ->. Qed.

(** One more character of pending text, from a cursor with room. *)
Definition add_char (ch : Z) (t : TaskWriter) : TaskWriter :=
  let t1 := match pending_text t with [] => set_pending_start (cursor_x t) (cursor_y t) t | _ => t end in
  set_cursor (cursor_x t1 + 8) (cursor_y t1) (set_pending_text (pending_text t1 ++ char_bytes ch) t1).

Lemma add_char_ok ch t st : writer_ok t → 0 ≤ ch < 128 → cursor_x t + 8 ≤ rwidth (region t) → cursor_y t + 8 ≤ rheight (region t) →
  shows t st → writer_ok (add_char ch t) ∧ shows (add_char ch t) (ref_place (color t) ch st).
Proof.
  intros [Hr Hc Hp Hl] Hch Hx Hy Hs. destruct st as [[cmds x] y]. destruct Hs as (Hsame & <- & <-). pose proof Hr as [(R1 & R2 & R3 & R4 & R5 & R6) ?].
  unfold add_char, char_bytes. rewrite (proj2 (Z.ltb_lt ch 128)) by lia. unfold committed, commit_pending_text in Hsame.
  destruct (pending_text t) as [|c0 s0] eqn:Hpt; cbn [set_pending_start pending_text cursor_x cursor_y] in *; rewrite Hpt.
  - split; [split; simpl; [done|lia| |done]; intros _; lia|]. split; [|done]. unfold committed. simpl. rewrite <-Hsame. apply app_same; [done|].
    pose proof (string_snoc (region t) (cursor_x t) (cursor_y t) [] ch (color t) ltac:(lia) ltac:(simpl; lia)) as He.
    simpl in He. rewrite Z.add_0_r in He. rewrite He. by apply (app_same _ [_] []); [apply string_nil|].
  - destruct Hp as (P1 & P2 & P3 & P4); [done|]. split.
    + split; simpl; [done|lia| |done]. intros _. rewrite length_app. cbn [length] in *. lia.
    + split; [|done]. unfold committed, commit_pending_text. cbn [set_cursor set_pending_text pending_text].
      change ((c0 :: s0) ++ [ch]) with (c0 :: s0 ++ [ch]). cbv iota. simpl. simpl in Hsame. rewrite <-Hsame, <-app_assoc. apply app_same; [done|].
      rewrite P2. cbn [length] in *. rewrite <-P3. apply (string_snoc (region t) (pending_x t) (pending_y t) (c0 :: s0)); cbn [length]; lia.
Qed.

(** What a write keeps, and how far the cursor moves down. *)
Definition moves t t' : Prop := region t' = region t ∧ wbuffer t' = wbuffer t ∧ color t' = color t ∧ cursor_y t' ≤ cursor_y t + 10.

Lemma newline_moves t : writer_ok t → moves t (set_cursor 0 (cursor_y t + 10) (commit_pending_text t)).
Proof. intros Hok. destruct (commit_ok t Hok) as (_ & _ & ? & _ & _ & ? & ?). by repeat split. Qed.
Lemma newline_shows t cmds x y : writer_ok t → shows t (cmds, x, y) → shows (set_cursor 0 (cursor_y t + 10) (commit_pending_text t)) (cmds, 0, y + 10).
Proof.
  intros Hok (Hs & Hx & <-). destruct (commit_ok t Hok) as (_ & Hp & Hr & _). split; [|done]. rewrite committed_nil by done.
  cbn [set_cursor region local_commands]. by rewrite Hr.
Qed.

(** The end of the loop body, from a state with room to the right. *)
Lemma put_char_spec ch t st Q : writer_ok t → 0 ≤ ch < 128 → cursor_y t + 10 < 2 ^ 32 → cursor_x t + 8 ≤ rwidth (region t) → shows t st →
  (∀ t', writer_ok t' → region t' = region t → wbuffer t' = wbuffer t → color t' = color t → cursor_y t' ≤ cursor_y t →
     shows t' (ref_place (color t) ch (ref_scroll (region t) st)) → Q tt t') → wp
    (t ← gets id; ye ← lift (cadd 32 (cursor_y t) 8);
     (if rheight (region t) <? ye then
        modify commit_pending_text ;; modify (push_local (Clear 0)) ;; modify (λ t, set_cursor (cursor_x t) 0 t)
      else mret tt) ;;
     modify (λ t, match pending_text t with [] => set_pending_start (cursor_x t) (cursor_y t) t | _ => t end) ;;
     modify (λ t, set_pending_text (pending_text t ++ char_bytes ch) t) ;;
     t ← gets id; x ← lift (cadd 32 (cursor_x t) 8); modify (set_cursor x (cursor_y t))) Q t.
Proof.
  intros Hok Hch Hy Hx Hs HQ. pose proof Hok as [(Hr & H8 & H8') Hc _ _]. wp_step. wp_step. unfold id. wp_step. wp_step; [apply cadd_some; lia|]. wp_step.
  assert (Hroom : ∀ t2 st2, writer_ok t2 → region t2 = region t → wbuffer t2 = wbuffer t → color t2 = color t → cursor_y t2 ≤ cursor_y t →
    cursor_x t2 + 8 ≤ rwidth (region t2) → cursor_y t2 + 8 ≤ rheight (region t2) →
    shows t2 st2 → ref_scroll (region t) st = st2 → wp
    (modify (λ t, match pending_text t with [] => set_pending_start (cursor_x t) (cursor_y t) t | _ => t end) ;;
     modify (λ t, set_pending_text (pending_text t ++ char_bytes ch) t) ;;
     t ← gets (λ x, x); x ← lift (cadd 32 (cursor_x t) 8); modify (set_cursor x (cursor_y t))) Q t2).
  { intros t2 st2 Hok2 Hrg2 Hwb2 Hcl2 Hy2 Hx2 Hyy2 Hs2 Hst. destruct (add_char_ok ch t2 st2) as [Hok' Hs']; [done..|].
    wp_step. wp_step. wp_step. wp_step. wp_step. wp_step. wp_step.
    assert (Hcx : cursor_x t2 + 8 < 2 ^ 32) by (destruct Hok2 as [(_ & ? & _) ? _ _]; lia).
    wp_step; [apply cadd_some; by destruct (pending_text t2)|]. wp_step. rewrite Hst, <-Hcl2 in HQ.
    apply (HQ (add_char ch t2)); unfold add_char in *; [done| | | | |done]; by destruct (pending_text t2). }
  destruct (commit_ok t Hok) as ([Hr' Hc' Hp' Hl'] & Hpt' & Hrg' & Hcx' & Hcy' & Hwb' & Hcl').
  destruct st as [[cmds x] y]. pose proof Hs as (Hsame & Hcx & Hcy).
  destruct (Z.ltb_spec (rheight (region t)) (cursor_y t + 8)) as [Hlt|Hge].
  - wp_step. wp_step. wp_step. wp_step. wp_step. apply (Hroom _ (cmds ++ [Clear 0], x, 0)); cbn [set_cursor push_local region wbuffer color cursor_x cursor_y]; try done.
    + split; simpl; try done; [rewrite Hrg' in *; lia|]. intros cmd. rewrite elem_of_app, list_elem_of_singleton. intros [?| ->]; [by apply Hl'|done].
    + lia.
    + by rewrite Hcx', Hrg'.
    + rewrite Hrg'. lia.
    + split; [|split; [cbn; by rewrite Hcx'|done]]. rewrite committed_nil by done. cbn [set_cursor push_local region local_commands]. rewrite Hrg'. fold (committed t). by rewrite Hsame.
    + cbn [ref_scroll]. by rewrite <-Hcy, (proj2 (Z.ltb_lt _ _) Hlt).
  - wp_step. apply (Hroom _ (cmds, x, y)); try done. cbn [ref_scroll]. by rewrite <-Hcy, (proj2 (Z.ltb_ge _ _) Hge).
Qed.

Lemma write_byte_spec ch t st Q : writer_ok t → 0 ≤ ch < 128 → cursor_y t + 20 < 2 ^ 32 → shows t st →
  (∀ t', writer_ok t' → moves t t' → shows t' (ref_byte (region t) (color t) st ch) → Q tt t') → wp (write_byte ch) Q t.
Proof.
  intros Hok Hch Hy Hs HQ. pose proof Hok as [(Hr & H8 & H8') Hc _ _].
  destruct (commit_ok t Hok) as (_ & _ & Hrg & _ & Hcy & _ & Hcl). destruct st as [[cmds x] y]. pose proof Hs as (_ & Hcx & _).
  unfold write_byte. unfold ref_byte in HQ. destruct (ch =? 10).
  { wp_step. wp_step. wp_step. wp_step. unfold id. rewrite Hcy. wp_step. wp_step; [apply cadd_some; lia|]. wp_step.
    apply HQ; [by apply newline_ok; [|lia]|by apply newline_moves|by eapply newline_shows]. }
  wp_step. wp_step. unfold id. wp_step.
 wp_step; [apply cadd_some; lia|]. wp_step. 
  assert (Hw : ref_wrap (region t) (cmds, x, y) = if rwidth (region t) <? cursor_x t + 8 then (cmds, 0, y + 10) else (cmds, x, y))
    by (by rewrite Hcx).
  rewrite Hw in HQ.
  destruct (Z.ltb_spec (rwidth (region t)) (cursor_x t + 8)) as [Hlt|Hge].
  - wp_step. wp_step. wp_step. wp_step. wp_step. unfold id. rewrite Hcy. wp_step; [apply cadd_some; lia|]. wp_step.
    apply (put_char_spec ch _ (cmds, 0, y + 10)); [by apply newline_ok; [|lia]|done|simpl; lia|simpl; rewrite Hrg; lia|by eapply newline_shows|].
    cbn [set_cursor region color wbuffer cursor_y]. rewrite Hrg, Hcl. destruct (newline_moves t Hok) as (? & ? & ? & ?).
    intros t' ? ? ? ? ? ?. apply HQ; [done| |done]. split; [congruence|]. simpl in *. split; [congruence|]. split; [congruence|lia].
  - wp_step. apply (put_char_spec ch _ (cmds, x, y)); [done|done|lia|lia|done|]. intros t' ? ? ? ? ? ?.
    apply HQ; [done| |done]. split; [congruence|]. split; [congruence|]. split; [congruence|lia].
Qed.

Lemma write_str_spec s : ∀ t st Q, writer_ok t → (∀ ch, ch ∈ s → 0 ≤ ch < 128) → cursor_y t + 10 * Z.of_nat (length s) + 10 < 2 ^ 32 → shows t st →
  (∀ t', writer_ok t' → region t' = region t → wbuffer t' = wbuffer t → color t' = color t → shows t' (foldl (ref_byte (region t) (color t)) st s) → Q tt t') →
  wp (write_str s) Q t.
Proof.
  unfold write_str. induction s as [|ch s IH]; intros t st Q Hok Hs Hy Hsh HQ; cbn [for_each length foldl] in *.
  - wp_step. by apply HQ.
  - wp_step. apply (write_byte_spec ch t st); [done|apply Hs; by left|lia|done|]. intros t1 Hok1 (Hr1 & Hb1 & Hc1 & Hy1) Hsh1.
    eapply IH; [done|intros; apply Hs; by right|lia|exact Hsh1|]. rewrite Hr1, Hb1, Hc1. exact HQ.
Qed.

Lemma clear_ok c t : writer_ok t → writer_ok (clear c t).
Proof.
  intros Hok. unfold clear. destruct (commit_ok t Hok) as ([Hr Hc Hp Hl] & Hpt & _). split; simpl; try done.
  - destruct Hr as [(?&?&?&?&?) ?]. lia.
  - intros cmd. rewrite elem_of_app, list_elem_of_singleton. intros [?| ->]; [by apply Hl|done].
Qed.
End writer.
