(* ===== verification/GraphicsProps.v ===== *)
(** * Graphics: the theorems.

    A frame of the compositor refines drawing every command straight on the
    screen; the tasks and the compositor, in any order of events, neither fail
    nor touch a pixel outside the regions of the writers. *)
From S2P Require Import Prelude Font Graphics GraphicsSpec GraphicsThms Writer WriterThms.
Set Default Goal Selector "!".

(** ** Commands inside a region on the screen *)
Definition region_on_screen (sw sh : Z) (r : Region) : Prop :=
  rect_ok r ∧ rx r + rwidth r ≤ sw ∧ ry r + rheight r ≤ sh.

Lemma cmd_inside_ok r sw sh cmd : region_on_screen sw sh r → cmd_inside r cmd → cmd_ok r sh cmd.
Proof. intros ((?&?&?&?&?&?) & ? & ?) Hc. split; [done|]. destruct cmd; cbn [cmd_inside] in Hc; lia. Qed.

(** Such a command changes pixels of its region only. *)
Lemma draw_inside w h r cmd b : full w h b → 0 < w < 2 ^ 32 → 0 ≤ h < 2 ^ 32 → region_on_screen w h r → cmd_inside r cmd →
  wp (draw_direct w r cmd) (λ _ b', only (in_region w r) b b') b.
Proof.
  intros Hf Hw Hh ((?&?&?&?&?&?) & ? & ?) Hc. assert (w * h < 2 ^ 64) by nia. destruct cmd as [x y ch c|x y s c|x y rw rh c|c]; cbn [cmd_inside draw_direct] in *.
  - eapply wp_mono; [apply (draw_char_spec _ h); (done || lia)|]. intros [] b' Hp. eapply only_weaken; [|exact (painted_only _ _ _ _ Hp)].
    intros i [_ [Hi _]]. unfold in_region, in_rect in *. lia.
  - eapply wp_mono; [apply (draw_string_spec _ h); (done || lia)|]. intros [] b' Ho. eapply only_weaken; [|exact Ho].
    intros i. unfold in_region, in_rect. lia.
  - eapply wp_mono; [apply (draw_rect_spec _ h); (done || lia)|]. intros [] b' Hp. eapply only_weaken; [|exact (painted_only _ _ _ _ Hp)].
    intros i. unfold in_region, in_rect. lia.
  - eapply wp_mono; [apply (draw_rect_spec _ h); (done || lia)|]. intros [] b' Hp. exact (painted_only _ _ _ _ Hp).
Qed.

Lemma draws_inside (P : Z → Prop) w h r cmds b : full w h b → 0 < w < 2 ^ 32 → 0 ≤ h < 2 ^ 32 → region_on_screen w h r →
  (∀ cmd, cmd ∈ cmds → cmd_inside r cmd) → (∀ i, in_region w r i → P i) →
  wp (for_each cmds (draw_direct w r)) (λ _ b', only P b b') b.
Proof.
  intros Hf Hw Hh Hr Hc HP. revert b Hf. induction cmds as [|cmd cmds IH]; intros b Hf; cbn [for_each]; [by wp_step|].
  wp_step. eapply wp_mono; [apply (draw_inside w h); [done..|apply Hc; by left]|]. intros [] b1 H1.
  apply (only_weaken _ P) in H1; [|done]. eapply wp_mono; [apply IH; [intros; apply Hc; by right|by eapply only_full]|].
  intros [] b2 H2. by eapply only_trans.
Qed.

(** ** Tasks, their writers and the compositor *)
Record display := mkDisplay { dcomp : compositor; writers : list TaskWriter }.

(** What happens: a task registers and makes a writer, writes, clears, changes
    colour, flushes; a task is preempted in [flush] holding the lock and later
    releases it; the compositor draws a frame. *)
Inductive event :=
  | Register (r : Region) (color : Z) | Write (i : nat) (s : list Z) | WClear (i : nat) (c : Z) | SetColor (i : nat) (c : Z)
  | Flush (i : nat) | Hold (i : nat) (locked : bool) | Frame.

Definition on_comp {A} (m : M compositor A) : M display A := zoom dcomp (λ c d, mkDisplay c (writers d)) m.
Definition on_writer {A} (i : nat) (m : M drawing A) : M display A := λ d,
  match writers d !! i with
  | Some t => match m (mkDrawing t (dcomp d)) with
              | Some (a, d') => Some (a, mkDisplay (comp d') (<[i := writer d']> (writers d)))
              | None => None end
  | None => None
  end.
Definition on_task {A} (m : M TaskWriter A) : M drawing A := zoom writer (λ t d, mkDrawing t (comp d)) m.
Definition set_locked (i : nat) (b : bool) (c : compositor) : compositor :=
  mkComp (alter (λ e, (b, e.2)) i (buffers c)) (scr c) (FRAME_COUNT c).
Definition run_event (e : event) : M display unit :=
  match e with
  | Register r color =>
      i ← on_comp (register_writer r);
      t ← on_comp (TaskWriter_new i color);
      modify (λ d, mkDisplay (dcomp d) (writers d ++ [t]))
  | Write i s => on_writer i (on_task (write_str s))
  | WClear i c => on_writer i (on_task (modify (Writer.clear c)))
  | SetColor i c => on_writer i (on_task (modify (set_color c)))
  | Flush i => on_writer i flush
  | Hold i b => on_comp (modify (set_locked i b))
  | Frame => on_comp compositor_frame ;; mret tt
  end.

(** When an event may happen: regions lie on the screen and hold a character,
    text is ASCII and does not run the 32-bit line counter over, [flush] goes on
    when the lock is free. *)
Definition event_ok (e : event) (d : display) : Prop :=
  let s := shadow (scr (dcomp d)) in
  match e with
  | Register r _ => region_on_screen (swidth s) (sheight s) r ∧ 8 ≤ rwidth r < 2 ^ 32 - 8 ∧ 8 ≤ rheight r
  | Write i s => ∃ t, writers d !! i = Some t ∧ (∀ ch, ch ∈ s → 0 ≤ ch < 128) ∧ cursor_y t + 10 * Z.of_nat (length s) + 10 < 2 ^ 32
  | WClear i _ | SetColor i _ => is_Some (writers d !! i)
  | Flush i => ∃ t buf, writers d !! i = Some t ∧ buffers (dcomp d) !! wbuffer t = Some (false, buf)
  | Hold _ _ | Frame => True
  end.

Definition regions (d : display) : list Region := (λ e, wregion e.2) <$> buffers (dcomp d).

(** The invariant. *)
Record display_ok (d : display) : Prop := {
  do_ready : frame_ready (dcomp d);
  do_buffers : ∀ l buf, (l, buf) ∈ buffers (dcomp d) →
    region_on_screen (swidth (shadow (scr (dcomp d)))) (sheight (shadow (scr (dcomp d)))) (wregion buf) ∧
    ∀ cmd, cmd ∈ commands buf → cmd_inside (wregion buf) cmd;
  do_writers : ∀ i t, writers d !! i = Some t → writer_ok t ∧
    ∃ l buf, buffers (dcomp d) !! wbuffer t = Some (l, buf) ∧ wregion buf = region t;
  do_outside : ∀ i c, hw (scr (dcomp d)) !! i = Some c →
    (∀ r, r ∈ regions d → ¬ in_region (swidth (shadow (scr (dcomp d)))) r i) → c = 0;
}.

(** A display of [w] times [h] black pixels with no writers. *)
Definition display_new (w h : Z) : option display :=
  s ← ShadowBuffer_new w h; Some (mkDisplay (mkComp [] (mkScreen s (buffer s)) 0) []).

(** Displays reached by events in any order. *)
Inductive reached (w h : Z) : display → Prop :=
  | reached_new d : display_new w h = Some d → reached w h d
  | reached_event d e d' : reached w h d → event_ok e d → run_event e d = Some (tt, d') → reached w h d'.

(** ** Every event keeps the invariant *)
Section display.
Implicit Types (d : display) (c : compositor) (t : TaskWriter).

Lemma change_buffers d d' : display_ok d → scr (dcomp d') = scr (dcomp d) →
  (∀ l buf, (l, buf) ∈ buffers (dcomp d') →
     region_on_screen (swidth (shadow (scr (dcomp d)))) (sheight (shadow (scr (dcomp d)))) (wregion buf) ∧
     ∀ cmd, cmd ∈ commands buf → cmd_inside (wregion buf) cmd) →
  (∀ i t, writers d' !! i = Some t → writer_ok t ∧ ∃ l buf, buffers (dcomp d') !! wbuffer t = Some (l, buf) ∧ wregion buf = region t) →
  (∀ r, r ∈ regions d → r ∈ regions d') → display_ok d'.
Proof.
  intros [[H1 H2 H3 _] _ _ Hout] Hs Hb Hw Hr. split; rewrite ?Hs; try done.
  - split; rewrite ?Hs; try done. intros l buf cmd Hin Hc. destruct (Hb l buf Hin) as [? Hi]. eapply cmd_inside_ok; [done|by apply Hi].
  - intros i c Hi Hn. apply (Hout i c Hi). intros r Hin. by apply Hn, Hr.
Qed.

(** A writer changes, and perhaps the contents of its buffer. *)
Lemma change_writer d i t t' c' : display_ok d → writers d !! i = Some t → writer_ok t' → region t' = region t → wbuffer t' = wbuffer t →
  scr c' = scr (dcomp d) →
  (∃ k l buf buf', buffers (dcomp d) !! k = Some (l, buf) ∧ buffers c' = <[k := (l, buf')]> (buffers (dcomp d)) ∧ wregion buf' = wregion buf ∧
    ∀ cmd, cmd ∈ commands buf' → cmd_inside (wregion buf) cmd) →
  display_ok (mkDisplay c' (<[i := t']> (writers d))).
Proof.
  intros Hok Hi Ht' Hrg Hwb Hs (k & l & buf & buf' & Hk & Hbs & Hreg & Hin).
  pose proof Hok as [_ Hb Hw _]. apply (change_buffers d); [done|done| | |]; cbn [dcomp writers].
  - rewrite Hbs. intros l0 b0 Hin0. apply list_elem_of_lookup_1 in Hin0 as [j Hj].
    apply list_lookup_insert_Some in Hj as [(<- & [= <- <-] & _)|[_ Hj]].
    + rewrite Hreg. split; [|by setoid_rewrite <-Hreg in Hin; rewrite <-Hreg]. eapply Hb. by eapply list_elem_of_lookup_2.
    + apply (Hb l0). by eapply list_elem_of_lookup_2.
  - intros j t0 Hj.
    assert (Hback : ∀ n l0 b0, buffers (dcomp d) !! n = Some (l0, b0) → ∃ l1 b1, buffers c' !! n = Some (l1, b1) ∧ wregion b1 = wregion b0).
    { intros n l0 b0 Hn. rewrite Hbs. destruct (decide (k = n)) as [->|Hne].
      - rewrite list_lookup_insert_eq by (by eapply lookup_lt_Some). rewrite Hk in Hn. injection Hn as <- <-. eauto.
      - rewrite list_lookup_insert_ne by done. eauto. }
    apply list_lookup_insert_Some in Hj as [(<- & <- & _)|[_ Hj]].
    + split; [done|]. destruct (Hw i t Hi) as (_ & l0 & b0 & Hb0 & Hr0). rewrite Hwb, Hrg. destruct (Hback _ _ _ Hb0) as (l1 & b1 & ? & ?).
      exists l1, b1. split; [done|congruence].
    + destruct (Hw j t0 Hj) as (? & l0 & b0 & Hb0 & Hr0). split; [done|]. destruct (Hback _ _ _ Hb0) as (l1 & b1 & ? & ?).
      exists l1, b1. split; [done|congruence].
  - unfold regions. cbn [dcomp]. rewrite Hbs, list_fmap_insert. cbn [snd]. rewrite Hreg. intros r. rewrite list_insert_id; [done|].
    by rewrite list_lookup_fmap, Hk.
Qed.

Lemma change_writer_only d i t t' : display_ok d → writers d !! i = Some t → writer_ok t' → region t' = region t → wbuffer t' = wbuffer t →
  display_ok (mkDisplay (dcomp d) (<[i := t']> (writers d))).
Proof.
  intros Hok Hi Ht' Hrg Hwb. destruct (do_writers _ Hok i t Hi) as (_ & l & buf & Hb & Hr).
  eapply change_writer; try done. exists (wbuffer t), l, buf, buf. split; [done|]. rewrite list_insert_id by done.
  do 2 (split; [done|]). apply (do_buffers _ Hok l). by eapply list_elem_of_lookup_2.
Qed.

Lemma on_writer_task d i t (m : M TaskWriter unit) Q : writers d !! i = Some t →
  wp m (λ _ t', Q tt (mkDisplay (dcomp d) (<[i := t']> (writers d)))) t → wp (on_writer i (on_task m)) Q d.
Proof.
  intros Hi Hm. apply wp_run in Hm as ([] & t' & Hrun & HQ). unfold wp, on_writer, on_task, zoom. rewrite Hi. cbn [writer comp].
  by rewrite Hrun.
Qed.

Lemma flush_spec i t buf d (Q : unit → display → Prop) : display_ok d → writers d !! i = Some t → buffers (dcomp d) !! wbuffer t = Some (false, buf) →
  (∀ d', display_ok d' → Q tt d') → wp (on_writer i flush) Q d.
Proof.
  intros Hok Hi Hb HQ. destruct (do_writers _ Hok i t Hi) as (Ht & l & buf0 & Hb0 & Hr). rewrite Hb in Hb0. injection Hb0 as <- <-.
  destruct (commit_ok t Ht) as (Hct & Hpt & Hrg & _ & _ & Hwb & _).
  assert (Hwp : wp flush (λ _ (g : drawing), display_ok (mkDisplay (comp g) (<[i := writer g]> (writers d)))) (mkDrawing t (dcomp d))).
  { unfold flush. wp_step. wp_step. wp_step. wp_step. unfold id. cbn [writer comp].
    destruct (local_commands (commit_pending_text t)) as [|c0 cs] eqn:Hl.
    - wp_step. by apply (change_writer_only d i t).
    - rewrite <-Hl. wp_step. wp_step; [rewrite Hwb; exact Hb|]. cbv iota. wp_step. wp_step; [done|]. wp_step. cbn [writer comp].
      apply (change_writer d i t); try done.
      + destruct Hct as [? ? ? ?]. split; try done. intros cmd Hc. by apply elem_of_nil in Hc.
      + exists (wbuffer t), false, buf, (extend_commands (local_commands (commit_pending_text t)) buf). rewrite Hwb.
        do 3 (split; [done|]). intros cmd. cbn [commands extend_commands]. rewrite elem_of_app. intros [Hc|Hc].
        * eapply (do_buffers _ Hok); [by eapply list_elem_of_lookup_2|done].
        * rewrite Hr, <-Hrg. by apply (wo_local _ Hct). }
  apply wp_run in Hwp as ([] & d1 & Hrun & Hd1). unfold wp, on_writer. rewrite Hi, Hrun. by apply HQ.
Qed.

(** A frame draws inside the registered regions. *)
Lemma frame_inside (P : Z → Prop) w h bufs b : full w h b → 0 < w < 2 ^ 32 → 0 ≤ h < 2 ^ 32 →
  (∀ l buf, (l, buf) ∈ bufs → region_on_screen w h (wregion buf) ∧ (∀ cmd, cmd ∈ commands buf → cmd_inside (wregion buf) cmd) ∧
     ∀ i, in_region w (wregion buf) i → P i) →
  wp (frame_spec w bufs) (λ _ b', only P b b') b.
Proof.
  intros Hf Hw Hh. revert b Hf. unfold frame_spec. induction bufs as [|[l buf] bufs IH]; intros b Hf Hb; cbn [for_each]; [by wp_step|].
  destruct (Hb l buf) as (Hr & Hc & HP); [by left|]. wp_step. apply (wp_mono _ (λ _ b', only P b b')).
  - unfold buffer_spec. cbn [fst snd]. destruct (negb l && dirty buf); [|by wp_step]. by apply (draws_inside P w h).
  - intros [] b1 H1. eapply wp_mono; [apply IH; [by eapply only_full|]|].
    + intros l' buf' Hin. apply (Hb l'). by right.
    + intros [] b2 H2. by eapply only_trans.
Qed.

Lemma register_spec r col d Q : display_ok d → event_ok (Register r col) d → (∀ d', display_ok d' → Q tt d') → wp (run_event (Register r col)) Q d.
Proof.
  intros Hok ((Hr & Hon) & Hw & Hh) HQ. pose proof Hok as [_ Hb Hws _]. unfold run_event, register_writer, TaskWriter_new.
  wp_step. apply wp_zoom. wp_step. wp_step. wp_step. wp_step. wp_step. unfold id. wp_step. apply wp_zoom. wp_step. wp_step. unfold id. wp_step.
  wp_step; [cbn [dcomp buffers]; by apply list_lookup_middle|]. cbv iota. wp_step. wp_step; [done|]. wp_step. wp_step. cbn [dcomp writers wregion WriterBuffer_new].
  apply HQ, (change_buffers d); [done|done| | |]; cbn [dcomp writers buffers].
  - intros l buf. rewrite elem_of_app, list_elem_of_singleton. intros [Hin|[= -> ->]]; [by apply (Hb l)|]. split; [done|].
    intros cmd Hc. by apply elem_of_nil in Hc.
  - intros i t Hi. apply lookup_app_Some in Hi as [Hi|[_ Hi]].
    + destruct (Hws i t Hi) as (? & l & buf & Hl & ?). split; [done|]. exists l, buf. split; [|done]. by apply lookup_app_l_Some.
    + apply list_lookup_singleton_Some in Hi as [_ <-]. split.
      * split; cbn; [done|destruct Hr as (?&?&?&?&?); lia|done|]. intros cmd Hc. by apply elem_of_nil in Hc.
      * exists false, (WriterBuffer_new r). split; [by apply list_lookup_middle|done].
  - unfold regions. cbn [dcomp buffers]. intros r0. rewrite fmap_app, elem_of_app. by left.
Qed.

Lemma hold_spec i b d Q : display_ok d → (∀ d', display_ok d' → Q tt d') → wp (run_event (Hold i b)) Q d.
Proof.
  intros Hok HQ. pose proof Hok as [_ Hb Hws _]. unfold run_event. apply wp_zoom. wp_step. apply HQ.
  assert (Hback : ∀ k e', alter (λ e : bool * WriterBuffer, (b, e.2)) i (buffers (dcomp d)) !! k = Some e' →
    ∃ e, buffers (dcomp d) !! k = Some e ∧ e'.2 = e.2).
  { intros k e'. rewrite list_lookup_alter. destruct (decide (i = k)) as [<-|]; [|eauto].
    destruct (buffers (dcomp d) !! i) as [e0|]; [|done].
    intros [= <-]. eauto. }
  apply (change_buffers d); [done|done| | |]; cbn [dcomp writers buffers set_locked].
  - intros l buf Hin. apply list_elem_of_lookup_1 in Hin as [k Hk]. apply Hback in Hk as ([l0 buf0] & Hk & [= ->]).
    apply (Hb l0). by eapply list_elem_of_lookup_2.
  - intros j t Hj. destruct (Hws j t Hj) as (? & l & buf & Hl & Hr). split; [done|]. rewrite list_lookup_alter.
    destruct (decide (i = wbuffer t)) as [->|]; rewrite Hl; cbn; eauto.
  - unfold regions. cbn [dcomp buffers set_locked]. intros r Hr. apply list_elem_of_fmap in Hr as (e & -> & He).
    apply list_elem_of_lookup_1 in He as [k Hk]. destruct (decide (i = k)) as [->|Hne].
    + apply list_elem_of_fmap. exists (b, e.2). split; [done|]. apply (list_elem_of_lookup_2 _ k). by rewrite list_lookup_alter_eq, Hk.
    + apply list_elem_of_fmap. exists e. split; [done|]. apply (list_elem_of_lookup_2 _ k). by rewrite list_lookup_alter_ne.
Qed.

Lemma frame_event_spec d Q : display_ok d → (∀ d', display_ok d' → Q tt d') → wp (run_event Frame) Q d.
Proof.
  intros Hok HQ. pose proof Hok as [Hready Hb Hws Hout]. unfold run_event. wp_step. apply wp_zoom.
  destruct (frame_effect _ Hready) as (bl & c' & Hrun & Hready' & Hspec & Hbs & _ & Hw & Hh & _).
  apply wp_run. exists bl, c'. split; [done|]. wp_step. apply HQ.
  pose proof Hready as [[Hf Hw1 Hh1 _] _ Hhw _]. set (w := swidth (shadow (scr (dcomp d)))) in *. set (h := sheight (shadow (scr (dcomp d)))) in *.
  assert (Hregs : regions (mkDisplay c' (writers d)) = regions d).
  { unfold regions. cbn [dcomp]. rewrite Hbs. rewrite <-list_fmap_compose. apply list_fmap_ext. intros _ [l buf] _. cbn.
    unfold after_frame. cbn [fst snd]. by destruct (negb l && dirty buf). }
  assert (Hback : ∀ l buf, (l, buf) ∈ buffers c' → ∃ buf0, (l, buf0) ∈ buffers (dcomp d) ∧ wregion buf = wregion buf0 ∧
    ∀ cmd, cmd ∈ commands buf → cmd ∈ commands buf0).
  { intros l buf. rewrite Hbs. intros ([l0 buf0] & He & Hin)%list_elem_of_fmap. unfold after_frame in He. cbn [fst snd] in He.
    exists buf0. destruct (negb l0 && dirty buf0); injection He as -> ->; (split; [done|]); (split; [done|]); [|done].
    intros cmd Hc. by apply elem_of_nil in Hc. }
  split; cbn [dcomp writers]; [done| | |].
  - rewrite Hw, Hh. intros l buf Hin. destruct (Hback l buf Hin) as (buf0 & Hin0 & -> & Hc). destruct (Hb l buf0 Hin0). auto.
  - intros i t Hi. destruct (Hws i t Hi) as (? & l & buf & Hl & Hr). split; [done|]. rewrite Hbs, list_lookup_fmap, Hl. cbn.
    unfold after_frame. cbn [fst snd]. destruct (negb l && dirty buf); eauto.
  - rewrite Hw, Hregs. fold w. intros i c Hi Hn. apply (Hout i c); [|done]. rewrite <-Hi. symmetry.
    assert (Hwp : wp (frame_spec w (buffers (dcomp d))) (λ _ b', only (λ i, ∃ r, r ∈ regions d ∧ in_region w r i) (hw (scr (dcomp d))) b') (hw (scr (dcomp d)))).
    { apply (frame_inside _ w h); [by rewrite Hhw|done|done|]. intros l buf Hin. destruct (Hb l buf Hin) as [? ?]. split; [done|]. split; [done|].
      intros j Hj. exists (wregion buf). split; [|done]. apply list_elem_of_fmap. by exists (l, buf). }
    pose proof (wp_elim _ _ _ _ _ Hwp Hspec) as [_ Ho]. apply Ho. intros (r & Hr & Hir). by apply (Hn r).
Qed.

(** An allowed event neither fails nor breaks the invariant. *)
Lemma event_spec e d Q : display_ok d → event_ok e d → (∀ d', display_ok d' → Q tt d') → wp (run_event e) Q d.
Proof.
  intros Hok He HQ. destruct e as [r col|i s|i c|i c|i|i b|].
  - by apply register_spec.
  - destruct He as (t & Hi & Hs & Hy). destruct (do_writers _ Hok i t Hi) as [Ht _]. apply (on_writer_task d i t); [done|].
    apply (write_str_spec s t (committed t, cursor_x t, cursor_y t)); [done|done|done|done|]. intros t' Ht' Hr' Hb' _ _.
    apply HQ. by eapply change_writer_only.
  - destruct He as [t Hi]. destruct (do_writers _ Hok i t Hi) as [Ht _]. apply (on_writer_task d i t); [done|]. wp_step.
    destruct (commit_ok t Ht) as (_ & _ & ? & _ & _ & ? & _). apply HQ. eapply change_writer_only; [done|done|by apply clear_ok|done|done].
  - destruct He as [t Hi]. destruct (do_writers _ Hok i t Hi) as [[? ? ? ?] _]. apply (on_writer_task d i t); [done|]. wp_step.
    apply HQ. by eapply change_writer_only.
  - destruct He as (t & buf & Hi & Hb). by eapply flush_spec.
  - by apply hold_spec.
  - by apply frame_event_spec.
Qed.

Lemma new_ok w h d : 0 < w < 2 ^ 32 → 0 ≤ h < 2 ^ 32 → display_new w h = Some d → display_ok d.
Proof.
  intros Hw Hh Hd. unfold display_new, ShadowBuffer_new in Hd. rewrite cmul_some in Hd by nia. cbn in Hd. injection Hd as <-.
  split; cbn [dcomp scr shadow swidth sheight writers buffers hw buffer].
  - split; [|done|done|]; cbn.
    + split; [apply black_full|done|done|done].
    + intros l buf cmd Hin. by apply elem_of_nil in Hin.
  - intros l buf Hin. by apply elem_of_nil in Hin.
  - done.
  - intros i c Hi _. by apply black_lookup in Hi as [].
Qed.

Lemma reached_ok w h d : 0 < w < 2 ^ 32 → 0 ≤ h < 2 ^ 32 → reached w h d → display_ok d.
Proof.
  intros Hw Hh Hr. induction Hr as [d Hd|d e d' _ IH He Hrun]; [by apply (new_ok w h)|].
  assert (Hwp : wp (run_event e) (λ _ d', display_ok d') d) by (by apply event_spec). by apply (wp_elim _ _ _ _ _ Hwp Hrun).
Qed.
End display.

(** ** The theorems *)

(** C16: A frame refines direct drawing.  Between frames the screen shows the
    shadow buffer; the compositor then renders every dirty buffer it can lock
    into the shadow buffer, gathers the dirty rectangle and transfers only that,
    and the screen ends up exactly as if each command had been drawn straight on
    it in order.  Those buffers end up empty, locked ones are left for a later
    frame, and the frame never fails. *)
Theorem compositor_frame_refines c (H : frame_ready c) :
  ∃ blitted c', compositor_frame c = Some (blitted, c') ∧ frame_ready c' ∧
    frame_spec (swidth (shadow (scr c))) (buffers c) (hw (scr c)) = Some (tt, hw (scr c')) ∧
    buffers c' = after_frame <$> buffers c ∧ FRAME_COUNT c' = wrap 64 (FRAME_COUNT c + 1) ∧
    (blitted = false → hw (scr c') = hw (scr c)).
Proof.
  destruct (frame_effect c H) as (bl & c' & H1 & H2 & H3 & H4 & H5 & _ & _ & H6). by exists bl, c'.
Qed.

(** C17: Tasks and the compositor in any order of events: no draw, write or flush
    fails or reaches outside the frame buffer; what the screen shows outside
    the registered regions stays black, whatever the tasks write. *)
Theorem graphics_runs_safe w h d (Hw : 0 < w < 2 ^ 32) (Hh : 0 ≤ h < 2 ^ 32) (Hr : reached w h d) :
  display_ok d ∧ ∀ e, event_ok e d → ∃ d', run_event e d = Some (tt, d') ∧ display_ok d'.
Proof.
  pose proof (reached_ok w h d Hw Hh Hr) as Hok. split; [done|]. intros e He.
  assert (Hwp : wp (run_event e) (λ _ d', display_ok d') d) by (by apply event_spec).
  apply wp_run in Hwp as ([] & d' & ? & ?). by exists d'.
Qed.

(** C18: Batching is invisible: [write_str], which gathers characters into
    strings, leaves the cursor where, and draws exactly what, a writer does that
    emits one character at a time, with the same line breaks, wraps and clears. *)
Theorem write_str_batching t s (Ht : writer_ok t) (Hs : ∀ ch, ch ∈ s → 0 ≤ ch < 128) (Hy : cursor_y t + 10 * Z.of_nat (length s) + 10 < 2 ^ 32) :
  ∃ t' cmds, write_str s t = Some (tt, t') ∧ writer_ok t' ∧ region t' = region t ∧
    foldl (ref_byte (region t) (color t)) (committed t, cursor_x t, cursor_y t) s = (cmds, cursor_x t', cursor_y t') ∧
    same_drawing (region t) (committed t') cmds.
Proof.
  assert (Hwp : wp (write_str s) (λ _ t', writer_ok t' ∧ region t' = region t ∧
    shows t' (foldl (ref_byte (region t) (color t)) (committed t, cursor_x t, cursor_y t) s)) t) by (by apply (write_str_spec s t (committed t, cursor_x t, cursor_y t))).
  apply wp_run in Hwp as ([] & t' & Hrun & Hok & Hrg & Hsh).
  destruct (foldl _ _ s) as [[cmds x] y]. destruct Hsh as (Hsame & <- & <-). exists t', cmds. by rewrite <-Hrg.
Qed.

(** What [draw_char] paints, pixel by pixel: the set bits of the glyph for
    the 95 printable characters, cut at the right edge; nothing for other bytes;
    no other pixel changes. *)
Theorem draw_char_pixels w h x y ch c b (Hf : full w h b) (Hw : 0 < w) (Hsz : w * h < 2 ^ 64) (Hx : 0 ≤ x < 2 ^ 63) (Hy : 0 ≤ y) (Hfit : y + 8 ≤ h) :
  ∃ b', draw_char w x y ch c b = Some (tt, b') ∧ full w h b' ∧ ∀ col row, 0 ≤ col < w → 0 ≤ row < h →
    b' !! (row * w + col) =
      if (32 <=? ch) && (ch <=? 126) && (x <=? col) && (col <? x + 8) && (y <=? row) && (row <? y + 8) && inked ch (col - x) (row - y)
      then Some c else b !! (row * w + col).
Proof.
  pose proof (draw_char_spec w h x y ch c b Hf Hw Hsz Hx Hy Hfit) as Hwp. apply wp_run in Hwp as ([] & b' & Hrun & Hp).
  exists b'. split; [done|]. split; [exact (only_full _ _ _ _ _ (painted_only _ _ _ _ Hp) Hf)|]. intros col row Hcol Hrow.
  destruct (pixel_index w col row Hcol) as [Hr Hc]. apply (painted_pixel _ _ _ _ _ _ Hp); [by apply (full_index w h)|].
  unfold in_glyph, in_rect. rewrite Hr, Hc, !andb_true_iff, !Z.leb_le, !Z.ltb_lt. tauto.
Qed.

(** Rectangles are cut at the right edge only: inside the screen every pixel
    of the rectangle and no other takes the colour, but a rectangle that
    reaches below the last row writes beyond the end of the buffer. *)
Theorem draw_rect_pixels w h x y rw rh c b (Hf : full w h b) (Hw : 0 < w) (Hsz : w * h < 2 ^ 64) (Hx : 0 ≤ x < 2 ^ 63)
  (Hrw : 0 ≤ rw < 2 ^ 63) (Hy : 0 ≤ y) (Hrh : 0 ≤ rh) :
  (y + rh ≤ h → ∃ b', draw_rect w x y rw rh c b = Some (tt, b') ∧ full w h b' ∧ ∀ col row, 0 ≤ col < w → 0 ≤ row < h →
     b' !! (row * w + col) = if (x <=? col) && (col <? x + rw) && (y <=? row) && (row <? y + rh) then Some c else b !! (row * w + col)) ∧
  (h < y + rh → x < w → 0 < rw → 0 < rh → draw_rect w x y rw rh c b = None).
Proof.
  split.
  - intros Hfit. pose proof (draw_rect_spec w h x y rw rh c b Hf Hw Hsz Hx Hrw Hy Hrh Hfit) as Hwp. apply wp_run in Hwp as ([] & b' & Hrun & Hp).
    exists b'. split; [done|]. split; [exact (only_full _ _ _ _ _ (painted_only _ _ _ _ Hp) Hf)|]. intros col row Hcol Hrow.
    destruct (pixel_index w col row Hcol) as [Hr Hc]. apply (painted_pixel _ _ _ _ _ _ Hp); [by apply (full_index w h)|].
    unfold in_rect. rewrite Hr, Hc, !andb_true_iff, !Z.leb_le, !Z.ltb_lt. tauto.
  - intros. apply (draw_rect_below w h); (done || lia).
Qed.

(** The console: clearing paints the whole screen; text that stays above the
    bottom is drawn without failing, the cursor stays within a line and no row
    above it changes.  Nothing keeps the text above the bottom: the first visible
    character below the last row is written outside the frame buffer. *)
Theorem console_correct f s c (Hf : full (fwidth f) (fheight f) (fb f)) (Hw : 8 ≤ fwidth f < 2 ^ 32) (Hh : 0 ≤ fheight f < 2 ^ 32)
  (Hx : 0 ≤ fx f ≤ fwidth f) (Hy : 0 ≤ fy f) :
  (∃ f', clear_screen c f = Some (tt, f') ∧ fx f' = 0 ∧ fy f' = 0 ∧ ∀ i, fb f' !! i = (λ _, c) <$> fb f !! i) ∧
  (fy f + 10 * Z.of_nat (length s) + 8 ≤ fheight f → ∃ f', fb_write_str s f = Some (tt, f') ∧ full (fwidth f) (fheight f) (fb f') ∧
     0 ≤ fx f' ≤ fwidth f ∧ fy f ≤ fy f' ≤ fy f + 10 * Z.of_nat (length s) ∧
     ∀ i, 0 ≤ i < fy f * fwidth f → fb f' !! i = fb f !! i) ∧
  (fheight f ≤ fy f < 2 ^ 32 → fx f + 8 ≤ fwidth f → fb_write_str [65] f = None).
Proof.
  split; [|split].
  - pose proof (clear_screen_spec c f Hf ltac:(lia) Hh) as Hwp. by apply wp_run in Hwp as ([] & f' & ? & ?); exists f'.
  - intros Hfit. pose proof (fb_write_str_spec s f (fy f) Hf Hw Hx ltac:(lia) ltac:(lia) Hfit) as Hwp.
    apply wp_run in Hwp as ([] & f' & Hrun & H1 & H2 & H3 & _ & _ & H4). by exists f'.
  - intros Hbelow Hroom. apply fb_write_below; (done || lia).
Qed.

(** ** A display of 40 by 24 pixels with one writer *)
Definition after (e : event) (d : display) : display := match run_event e d with Some (_, d') => d' | None => d end.
Lemma reached_after w h d e : 0 < w < 2 ^ 32 → 0 ≤ h < 2 ^ 32 → reached w h d → event_ok e d → reached w h (after e d).
Proof.
  intros Hw Hh Hr He. assert (Hwp : wp (run_event e) (λ _ d', True) d) by (by apply event_spec; [apply (reached_ok w h)|..]).
  apply wp_run in Hwp as ([] & d' & Hrun & _). unfold after. rewrite Hrun. by eapply reached_event.
Defined.

Definition demo_display : display := match display_new 40 24 with Some d => d | None => mkDisplay (mkComp [] (mkScreen (mkShadow ∅ 0 0 None) ∅) 0) [] end.
Definition demo_registered : display := after (Register (mkRegion 4 4 24 16) 0xFFFFFF) demo_display.
Definition demo_text : list Z := [72; 105; 10; 65; 66; 67; 68].
Definition demo_written : display := after (Write 0 demo_text) demo_registered.
Definition demo_flushed : display := after (Flush 0) demo_written.

Lemma demo_reached_flushed : reached 40 24 demo_flushed.
Proof.
  repeat (apply reached_after; [lia|lia| |]); [by apply reached_new| | |].
  - vm_compute. repeat split; (reflexivity || discriminate).
  - eexists. split; [vm_compute; reflexivity|]. split; [|vm_compute; reflexivity].
    intros ch. unfold demo_text. rewrite !elem_of_cons, elem_of_nil. lia.
  - eexists _, _. split; vm_compute; reflexivity.
Defined.
Lemma demo_ready : frame_ready (dcomp demo_flushed).
Proof. apply (do_ready _ (reached_ok 40 24 _ ltac:(lia) ltac:(lia) demo_reached_flushed)). Qed.

Lemma compositor_frame_refines_witness : ∃ blitted c', compositor_frame (dcomp demo_flushed) = Some (blitted, c') ∧ frame_ready c'.
Proof.
  destruct (compositor_frame_refines (dcomp demo_flushed) demo_ready) as (bl & c' & H1 & H2 & _). 
  exists bl, c'. split; [exact H1|exact H2].
Defined.

Lemma graphics_runs_safe_witness : display_ok demo_flushed ∧ ∃ d', run_event Frame demo_flushed = Some (tt, d').
Proof.
  destruct (graphics_runs_safe 40 24 demo_flushed ltac:(lia) ltac:(lia) demo_reached_flushed) as [H1 H2]. split; [exact H1|].
  destruct (H2 Frame I) as (d' & H & _). exists d'. exact H.
Defined.

Definition demo_writer : TaskWriter := mkTask 0 [] (mkRegion 4 4 24 16) 0 0 0xFFFFFF [] 0 0.
Lemma demo_writer_ok : writer_ok demo_writer.
Proof. split; cbn; [unfold rect_ok; cbn; lia|lia|done|]. intros cmd Hc. by apply elem_of_nil in Hc. Qed.
Lemma write_str_batching_witness : ∃ t', write_str demo_text demo_writer = Some (tt, t') ∧ cursor_x t' = 8 ∧ cursor_y t' = 0.
Proof.
  destruct (write_str_batching demo_writer demo_text demo_writer_ok) as (t' & cmds & H1 & _ & _ & H2 & _).
  - intros ch. unfold demo_text. rewrite !elem_of_cons, elem_of_nil. lia.
  - vm_compute. reflexivity.
  - exists t'. split; [done|]. apply (f_equal (λ p : layout, (p.1.2, p.2))) in H2. change ((8, 0) = (cursor_x t', cursor_y t')) in H2. by injection H2 as <- <-.
Defined.

Lemma draw_char_pixels_witness : ∃ b', draw_char 16 10 3 65 7 (black 256) = Some (tt, b') ∧ b' !! (3 * 16 + 12) = Some 7.
Proof.
  destruct (draw_char_pixels 16 16 10 3 65 7 (black 256) (black_full 16 16)) as (b' & H1 & _ & H2); [lia|reflexivity|lia|lia|lia|].
  exists b'. split; [done|]. rewrite H2 by lia. reflexivity.
Defined.
Lemma draw_rect_pixels_witness : (∃ b', draw_rect 16 10 3 20 5 7 (black 256) = Some (tt, b')) ∧ draw_rect 16 10 3 20 14 7 (black 256) = None.
Proof.
  split.
  - destruct (draw_rect_pixels 16 16 10 3 20 5 7 (black 256) (black_full 16 16) ltac:(lia) ltac:(reflexivity) ltac:(lia) ltac:(lia) ltac:(lia) ltac:(lia)) as [H _].
    destruct H as (b' & H & _); [lia|]. by exists b'.
  - apply (draw_rect_pixels 16 16 10 3 20 14 7 (black 256) (black_full 16 16) ltac:(lia) ltac:(reflexivity) ltac:(lia) ltac:(lia) ltac:(lia) ltac:(lia)); lia.
Defined.
Lemma console_correct_witness :
  let f := FramebufferWriter_new (black (32 * 32)) 32 32 7 in
  (∃ f', fb_write_str [72] f = Some (tt, f')) ∧ fb_write_str [65] (fb_set_position 0 32 f) = None.
Proof.
  intros f. split.
  - destruct (console_correct f [72] 0 (black_full 32 32)) as (_ & H & _); [cbn; lia..|].
    destruct H as (f' & H & _); [cbn; lia|]. exists f'. exact H.
  - apply (console_correct (fb_set_position 0 32 f) [] 0 (black_full 32 32)); cbn; lia.
Defined.
