(* ===== verification/TimerDevice.v ===== *)
(** * Timer devices ([kernel/src/timer_device.rs], [hpet.rs], [pit.rs]).

    A device's hardware is state: a sequence of the values its counter answers,
    one per read, that no operation chooses.  The clock register of the HPET and
    the port of the PIT's channel 0 are such sequences. *)
From S2P Require Import Prelude Addr Paging.
Set Default Goal Selector "!".

Definition saturating_mul (w a b : Z) : Z := Z.min (2 ^ w - 1) (a * b).
Definition wrapping_sub (w a b : Z) : Z := wrap w (a - b).

(** ** The trait, with its provided methods *)
Class TimerDevice (S : Type) := {
  is_available : M S bool;
  frequency : M S Z;
  delay_ns : Z → M S unit;
  delay_us : Z → M S unit;
  delay_ms : Z → M S unit }.
Definition default_delay_us {S} (delay_ns : Z → M S unit) (us : Z) : M S unit := delay_ns (saturating_mul 64 us 1000).
Definition default_delay_ms {S} (delay_ns : Z → M S unit) (ms : Z) : M S unit := delay_ns (saturating_mul 64 ms 1000000).
Definition ElapsedTimer_elapsed_us {S} (elapsed_ns : M S Z) : M S Z := ns ← elapsed_ns; mret (ns / 1000).
Definition ElapsedTimer_elapsed_ms {S} (elapsed_ns : M S Z) : M S Z := ns ← elapsed_ns; mret (ns / 1000000).

(** ** HPET *)
Inductive HpetError := NotInitialized.
Definition GENERAL_CAP_ID : Z := 0x000.
Definition GENERAL_CONFIG : Z := 0x010.
Definition MAIN_COUNTER : Z := 0x0F0.

(** The device: where its registers are, their contents, the counter's answers. *)
Record hpet_device := mkDev { dev_base : Z; cap_id : Z; config : Z; counter : nat → Z; reads : nat }.
Record hpet := mkHpet {
  HPET_AVAILABLE : bool; HPET_BASE : Z; HPET_FREQUENCY : Z; HPET_PERIOD_FS : Z; HPET_START_COUNTER : Z; device : hpet_device }.
Definition set_device (d : hpet_device) (h : hpet) : hpet :=
  mkHpet (HPET_AVAILABLE h) (HPET_BASE h) (HPET_FREQUENCY h) (HPET_PERIOD_FS h) (HPET_START_COUNTER h) d.
Definition set_base (b : Z) (h : hpet) : hpet :=
  mkHpet (HPET_AVAILABLE h) b (HPET_FREQUENCY h) (HPET_PERIOD_FS h) (HPET_START_COUNTER h) (device h).
Definition set_rate (period freq : Z) (h : hpet) : hpet :=
  mkHpet (HPET_AVAILABLE h) (HPET_BASE h) freq period (HPET_START_COUNTER h) (device h).
Definition set_start (c : Z) (h : hpet) : hpet :=
  mkHpet true (HPET_BASE h) (HPET_FREQUENCY h) (HPET_PERIOD_FS h) c (device h).

(** Volatile accesses: the device's registers, nothing elsewhere. *)
Definition read_volatile (addr : Z) : M hpet Z :=
  h ← gets id;
  let d := device h in
  if addr =? dev_base d + GENERAL_CAP_ID then mret (cap_id d)
  else if addr =? dev_base d + GENERAL_CONFIG then mret (config d)
  else if addr =? dev_base d + MAIN_COUNTER then
    modify (set_device (mkDev (dev_base d) (cap_id d) (config d) (counter d) (S (reads d)))) ;; mret (counter d (reads d))
  else panic.
Definition write_volatile (addr value : Z) : M hpet unit :=
  h ← gets id;
  let d := device h in
  if addr =? dev_base d + GENERAL_CONFIG then modify (set_device (mkDev (dev_base d) (cap_id d) value (counter d) (reads d))) else panic.

Definition read_hpet_reg (offset : Z) : M hpet (result Z HpetError) :=
  base ← gets HPET_BASE;
  if base =? 0 then mret (Err NotInitialized) else
  addr ← lift (cadd 64 base offset); v ← read_volatile addr; mret (Ok v).
Definition write_hpet_reg (offset value : Z) : M hpet (result unit HpetError) :=
  base ← gets HPET_BASE;
  if base =? 0 then mret (Err NotInitialized) else
  addr ← lift (cadd 64 base offset); write_volatile addr value ;; mret (Ok tt).
(** [.expect(..)]. *)
Definition expect {S A E} (m : M S (result A E)) : M S A := r ← m; match r with Ok a => mret a | Err _ => panic end.

(** The part of [init] after the mapping. *)
Definition hpet_start (base_virt : Z) : M hpet unit :=
  modify (set_base base_virt) ;;
  cap_id ← expect (read_hpet_reg GENERAL_CAP_ID);
  let period_fs := Z.shiftr cap_id 32 in
  let freq := if 0 <? period_fs then 1000000000000000 / period_fs else 0 in
  modify (set_rate period_fs freq) ;;
  config ← expect (read_hpet_reg GENERAL_CONFIG);
  expect (write_hpet_reg GENERAL_CONFIG (Z.lor config 1)) ;;
  start_counter ← expect (read_hpet_reg MAIN_COUNTER);
  modify (set_start start_counter).
Record hpet_sys := mkHpetSys { hs_paging : pstate; hs_hpet : hpet }.
Definition hpet_init (base_phys_addr : Z) : M hpet_sys (result unit PagingError) :=
  base_virt ←? zoom hs_paging (λ p s, mkHpetSys p (hs_hpet s)) (map_mmio base_phys_addr PAGE_SIZE);
  zoom hs_hpet (λ h s, mkHpetSys (hs_paging s) h) (hpet_start base_virt) ;; mret (Ok tt).

Definition hpet_is_available : M hpet bool := gets HPET_AVAILABLE.
Definition hpet_frequency : M hpet Z := gets HPET_FREQUENCY.
Definition read_counter : M hpet Z := r ← read_hpet_reg MAIN_COUNTER; mret (match r with Ok v => v | Err _ => 0 end).

(** [while read_counter().wrapping_sub(start) < target_counts], in at most
    [fuel] rounds; running out is a failure. *)
Fixpoint delay_loop (fuel : nat) (start target_counts : Z) : M hpet unit :=
  match fuel with
  | O => panic
  | S fuel => c ← read_counter; if wrapping_sub 64 c start <? target_counts then delay_loop fuel start target_counts else mret tt
  end.
Definition hpet_delay_ns (fuel : nat) (ns : Z) : M hpet unit :=
  available ← hpet_is_available;
  if negb available then mret tt else
  period_fs ← gets HPET_PERIOD_FS;
  if period_fs =? 0 then mret tt else
  fs ← lift (cmul 64 ns 1000000);
  let target_counts := fs / period_fs in
  start ← read_counter;
  delay_loop fuel start target_counts.
(** The free functions multiply with an overflow check. *)
Definition hpet_delay_us (fuel : nat) (us : Z) : M hpet unit := ns ← lift (cmul 64 us 1000); hpet_delay_ns fuel ns.
Definition hpet_delay_ms (fuel : nat) (ms : Z) : M hpet unit := ns ← lift (cmul 64 ms 1000000); hpet_delay_ns fuel ns.

Definition elapsed_counts : M hpet Z :=
  current ← read_counter; start ← gets HPET_START_COUNTER; mret (wrapping_sub 64 current start).
Definition elapsed_ns : M hpet Z :=
  available ← hpet_is_available;
  if negb available then mret 0 else
  period_fs ← gets HPET_PERIOD_FS;
  if period_fs =? 0 then mret 0 else
  counts ← elapsed_counts;
  whole ← lift (cmul 64 (counts / 1000000) period_fs);
  part ← lift (cmul 64 (counts mod 1000000) period_fs);
  lift (cadd 64 whole (part / 1000000)).
Definition elapsed_us : M hpet Z := ns ← elapsed_ns; mret (ns / 1000).
Definition elapsed_ms : M hpet Z := ns ← elapsed_ns; mret (ns / 1000000).
Definition elapsed_secs : M hpet Z := ns ← elapsed_ns; mret (ns / 1000000000).

#[export] Instance Hpet_TimerDevice (fuel : nat) : TimerDevice hpet := {|
  is_available := hpet_is_available; frequency := hpet_frequency; delay_ns := hpet_delay_ns fuel;
  delay_us := default_delay_us (hpet_delay_ns fuel); delay_ms := default_delay_ms (hpet_delay_ns fuel) |}.

(** ** PIT *)
Definition PIT_FREQUENCY : Z := 1193182.
Definition MAX_POLL_ITERATIONS : Z := 100000.
Definition CHANNEL_0 : Z := 0x40.
Definition COMMAND : Z := 0x43.

(** The bytes written to the ports, oldest first, and the answers of channel 0. *)
Record pit := mkPit { outs : list (Z * Z); ins : nat → Z; pit_reads : nat }.
Definition port_write_u8 (port value : Z) : M pit unit := modify (λ p, mkPit (outs p ++ [(port, value)]) (ins p) (pit_reads p)).
Definition port_read_u8 (port : Z) : M pit Z :=
  p ← gets id; modify (λ p, mkPit (outs p) (ins p) (S (pit_reads p))) ;; mret (ins p (pit_reads p)).
Definition read_current_count : M pit Z :=
  low ← port_read_u8 CHANNEL_0; high ← port_read_u8 CHANNEL_0; mret (Z.lor (Z.shiftl high 8) low).
Definition program_count (count : Z) : M pit unit :=
  port_write_u8 COMMAND 0x30 ;;
  port_write_u8 CHANNEL_0 (Z.land count 0xFF) ;;
  port_write_u8 CHANNEL_0 (Z.land (Z.shiftr count 8) 0xFF).

(** The polling loop: [rounds] rounds remain of [MAX_POLL_ITERATIONS]. *)
Fixpoint poll_1ms (rounds : nat) (last_count : Z) : M pit unit :=
  match rounds with
  | O => mret tt
  | S rounds =>
      port_write_u8 COMMAND 0x00 ;;
      current_count ← read_current_count;
      if (current_count =? 0) || (last_count <? current_count) then mret tt else poll_1ms rounds current_count
  end.
Definition sleep_1ms : M pit unit :=
  program_count (wrap 16 (PIT_FREQUENCY / 1000)) ;;
  port_write_u8 COMMAND 0x00 ;;
  last_count ← read_current_count;
  poll_1ms (Z.to_nat MAX_POLL_ITERATIONS) last_count.
Definition pit_sleep_ms (ms : Z) : M pit unit := for_each (seqZ 0 ms) (λ _, sleep_1ms).
Definition oneshot (count : Z) : M pit unit := program_count count.

Fixpoint poll_zero (rounds : nat) : M pit unit :=
  match rounds with
  | O => mret tt
  | S rounds =>
      port_write_u8 COMMAND 0x00 ;;
      current ← read_current_count;
      if current =? 0 then mret tt else poll_zero rounds
  end.
Definition udelay (us : Z) : M pit unit :=
  count ← lift (cmul 64 PIT_FREQUENCY us);
  program_count (wrap 16 (count / 1000000)) ;;
  poll_zero (Z.to_nat MAX_POLL_ITERATIONS).
Definition pit_delay_ns (ns : Z) : M pit unit :=
  up ← lift (cadd 64 ns 999);
  let us := wrap 32 (up / 1000) in
  if 0 <? us then udelay us else mret tt.
Definition pit_delay_ms (ms : Z) : M pit unit := pit_sleep_ms (wrap 32 (Z.min ms u32_max)).
#[export] Instance Pit_TimerDevice : TimerDevice pit := {|
  is_available := mret true; frequency := mret PIT_FREQUENCY; delay_ns := pit_delay_ns;
  delay_us := default_delay_us pit_delay_ns; delay_ms := pit_delay_ms |}.
