(* ===== verification/Apic.v ===== *)
(** * The local APIC and its timer ([kernel/src/apic.rs]).

    The register page records what is written to it; the current count answers
    from a sequence, one value per read. *)
From stdpp Require Import sorting.
From S2P Require Import Prelude Addr Paging TimerDevice.
#[local] Open Scope Z_scope.
Set Default Goal Selector "!".

Inductive ApicError := NotCalibrated | CalibrationFailed | InitFailed | InvalidFrequency.
Definition DEFAULT_APIC_PHYS_BASE : Z := 0xFEE00000.
Definition PAGE_ALIGNMENT_MASK : Z := 0xFFF.
Definition SPURIOUS_INTERRUPT_VECTOR : Z := 0xF0.
Definition EOI : Z := 0xB0.
Definition TIMER_LVT : Z := 0x320.
Definition TIMER_DIVIDE_CONFIG : Z := 0x3E0.
Definition TIMER_INITIAL_COUNT : Z := 0x380.
Definition TIMER_CURRENT_COUNT : Z := 0x390.
Definition TIMER_INTERRUPT_VECTOR : Z := 32.

(** Statics, the page's last written values by address and the write log, the
    [IA32_APIC_BASE] register, the masks of the legacy controllers. *)
Record apic := mkApic {
  APIC_PHYS_BASE : Z; APIC_MMIO_MAPPED : bool; APIC_TIMER_FREQUENCY : Z;
  apic_writes : list (Z * Z); current_counts : nat → Z; count_reads : nat;
  ia32_apic_base : Z; pic_masks : Z * Z }.
Definition apic_boot (msr : Z) (counts : nat → Z) : apic := mkApic DEFAULT_APIC_PHYS_BASE false 0 [] counts 0 msr (0, 0).
Definition set_phys_base (b : Z) (a : apic) : apic :=
  mkApic b (APIC_MMIO_MAPPED a) (APIC_TIMER_FREQUENCY a) (apic_writes a) (current_counts a) (count_reads a) (ia32_apic_base a) (pic_masks a).
Definition set_mapped (b : bool) (a : apic) : apic :=
  mkApic (APIC_PHYS_BASE a) b (APIC_TIMER_FREQUENCY a) (apic_writes a) (current_counts a) (count_reads a) (ia32_apic_base a) (pic_masks a).
Definition set_frequency (f : Z) (a : apic) : apic :=
  mkApic (APIC_PHYS_BASE a) (APIC_MMIO_MAPPED a) f (apic_writes a) (current_counts a) (count_reads a) (ia32_apic_base a) (pic_masks a).
Definition log_write (addr value : Z) (a : apic) : apic :=
  mkApic (APIC_PHYS_BASE a) (APIC_MMIO_MAPPED a) (APIC_TIMER_FREQUENCY a) (apic_writes a ++ [(addr, value)]) (current_counts a) (count_reads a) (ia32_apic_base a) (pic_masks a).
Definition count_read (a : apic) : apic :=
  mkApic (APIC_PHYS_BASE a) (APIC_MMIO_MAPPED a) (APIC_TIMER_FREQUENCY a) (apic_writes a) (current_counts a) (S (count_reads a)) (ia32_apic_base a) (pic_masks a).
Definition set_msr (v : Z) (a : apic) : apic :=
  mkApic (APIC_PHYS_BASE a) (APIC_MMIO_MAPPED a) (APIC_TIMER_FREQUENCY a) (apic_writes a) (current_counts a) (count_reads a) v (pic_masks a).
Definition set_masks (m : Z * Z) (a : apic) : apic :=
  mkApic (APIC_PHYS_BASE a) (APIC_MMIO_MAPPED a) (APIC_TIMER_FREQUENCY a) (apic_writes a) (current_counts a) (count_reads a) (ia32_apic_base a) m.

Definition apic_virt_base : M apic Z :=
  a ← gets id; assert_ (APIC_MMIO_MAPPED a) ;; lift (cadd 64 KERNEL_VIRTUAL_BASE (APIC_PHYS_BASE a)).
Definition write_apic_register (offset value : Z) : M apic unit :=
  base ← apic_virt_base; addr ← lift (cadd 64 base offset); modify (log_write addr value).
(** The only register the code reads is the current count. *)
Definition read_apic_register (offset : Z) : M apic Z :=
  base ← apic_virt_base; addr ← lift (cadd 64 base offset);
  if addr =? base + TIMER_CURRENT_COUNT then a ← gets id; modify count_read ;; mret (current_counts a (count_reads a)) else panic.

Record apic_sys := mkApicSys { as_paging : pstate; as_hpet : hpet; as_pit : pit; as_apic : apic }.
Definition on_apic {A} (m : M apic A) : M apic_sys A := zoom as_apic (λ a s, mkApicSys (as_paging s) (as_hpet s) (as_pit s) a) m.
Definition on_hpet {A} (m : M hpet A) : M apic_sys A := zoom as_hpet (λ h s, mkApicSys (as_paging s) h (as_pit s) (as_apic s)) m.
Definition on_pit {A} (m : M pit A) : M apic_sys A := zoom as_pit (λ p s, mkApicSys (as_paging s) (as_hpet s) p (as_apic s)) m.

Definition enable_apic : M apic_sys (result unit PagingError) :=
  phys ← on_apic (gets APIC_PHYS_BASE);
  _ ←? zoom as_paging (λ p s, mkApicSys p (as_hpet s) (as_pit s) (as_apic s)) (map_mmio phys PAGE_SIZE);
  on_apic (modify (set_mapped true) ;;
    a ← gets id; modify (set_msr (Z.lor (ia32_apic_base a) (Z.shiftl 1 11))) ;;
    write_apic_register SPURIOUS_INTERRUPT_VECTOR 0x1FF) ;;
  mret (Ok tt).

(** The timer runs down from its maximum while [delay_fn] waits. *)
Definition measure_apic_ticks (delay_fn : M apic_sys unit) : M apic_sys Z :=
  on_apic (write_apic_register TIMER_DIVIDE_CONFIG 0x3) ;;
  on_apic (write_apic_register TIMER_LVT (Z.shiftl 1 16)) ;;
  on_apic (write_apic_register TIMER_INITIAL_COUNT 0xFFFFFFFF) ;;
  delay_fn ;;
  current_count ← on_apic (read_apic_register TIMER_CURRENT_COUNT);
  on_apic (write_apic_register TIMER_INITIAL_COUNT 0) ;;
  lift (csub 0xFFFFFFFF current_count).

Definition CALIBRATION_MS : Z := 50.
Definition MEASUREMENTS : nat := 5.
Fixpoint measure_n (n : nat) (m : M apic_sys Z) : M apic_sys (list Z) :=
  match n with O => mret [] | S n => x ← m; xs ← measure_n n m; mret (x :: xs) end.
(** [fuel] bounds the polling loop of the HPET.  The log line of the PIT branch
    multiplies every measurement, with the same overflow check. *)
Definition calibrate_timer (fuel : nat) : M apic_sys (result unit ApicError) :=
  available ← on_hpet (is_available (TimerDevice := Hpet_TimerDevice fuel));
  ticks_per_second ←
    (if available : bool then
       ticks ← measure_apic_ticks (on_hpet (delay_ms (TimerDevice := Hpet_TimerDevice fuel) CALIBRATION_MS));
       lift (cmul 32 ticks (1000 / CALIBRATION_MS))
     else
       measurements ← measure_n MEASUREMENTS (measure_apic_ticks (on_pit (delay_ms CALIBRATION_MS)));
       let sorted := merge_sort Z.le measurements in
       median_ticks ← lift (sorted !! (MEASUREMENTS / 2)%nat);
       let multiplier := 1000 / CALIBRATION_MS in
       tps ← lift (cmul 32 median_ticks multiplier);
       for_each sorted (λ t, _ ← lift (cmul 32 t multiplier); mret tt) ;;
       mret tps);
  on_apic (modify (set_frequency ticks_per_second)) ;;
  if ticks_per_second =? 0 then mret (Err CalibrationFailed) else mret (Ok tt).

Definition init_timer (frequency_hz : Z) : M apic (result unit ApicError) :=
  if frequency_hz =? 0 then mret (Err InvalidFrequency) else
  apic_freq ← gets APIC_TIMER_FREQUENCY;
  if apic_freq =? 0 then mret (Err NotCalibrated) else
  write_apic_register TIMER_DIVIDE_CONFIG 0x3 ;;
  let timer_mode_periodic := Z.shiftl 1 17 in
  let not_masked := Z.shiftl 0 16 in
  let lvt_value := Z.lor (Z.lor timer_mode_periodic not_masked) TIMER_INTERRUPT_VECTOR in
  write_apic_register TIMER_LVT lvt_value ;;
  let initial_count := apic_freq / frequency_hz in
  write_apic_register TIMER_INITIAL_COUNT initial_count ;;
  mret (Ok tt).
Definition send_eoi : M apic unit := write_apic_register EOI 0.
Definition disable_legacy_pic : M apic unit := modify (set_masks (0xFF, 0xFF)).
Definition apic_init (apic_base_addr : option Z) : M apic_sys (result unit PagingError) :=
  match apic_base_addr with
  | Some addr => if negb (Z.land addr PAGE_ALIGNMENT_MASK =? 0) then mret tt else on_apic (modify (set_phys_base addr))
  | None => mret tt
  end ;;
  on_apic disable_legacy_pic ;;
  _ ←? enable_apic; mret (Ok tt).
