(* ===== verification/ClockThms.v ===== *)
(** * Clock devices: lemmas on the HPET, the PIT and the APIC timer. *)
From stdpp Require Import sorting.
From S2P Require Import Prelude Addr Paging TimerDevice Apic.
#[local] Open Scope Z_scope.
Set Default Goal Selector "!".

(** ** HPET *)
(** The statics name the device's registers. *)
Record hpet_ready (h : hpet) : Prop := {
  hr_available : HPET_AVAILABLE h = true;
  hr_base : HPET_BASE h = dev_base (device h) ∧ 0 < HPET_BASE h < 2 ^ 64 - 0x1000;
  hr_period : 0 ≤ HPET_PERIOD_FS h < 2 ^ 32;
  hr_start : 0 ≤ HPET_START_COUNTER h < 2 ^ 64;
}.
(** The counter after one more read. *)
Definition next_read (h : hpet) : hpet :=
  let d := device h in set_device (mkDev (dev_base d) (cap_id d) (config d) (counter d) (S (reads d))) h.
Definition now (h : hpet) : Z := counter (device h) (reads (device h)).

Section hpet.
Implicit Types h : hpet.

(** The registers, once the base is set. *)
Definition hpet_based h : Prop := HPET_BASE h = dev_base (device h) ∧ 0 < HPET_BASE h < 2 ^ 64 - 0x1000.
Lemma read_reg_run offset h : hpet_based h → 0 ≤ offset < 0x1000 → read_hpet_reg offset h = (v ← read_volatile (HPET_BASE h + offset); mret (Ok v)) h.
Proof.
  intros [_ Hr] Ho. unfold read_hpet_reg, mbind at 1, M_bind, gets. rewrite (proj2 (Z.eqb_neq _ _)) by lia.
  unfold lift, mbind at 1, M_bind. by rewrite cadd_some by lia.
Qed.
Lemma read_cap_run h : hpet_based h → read_hpet_reg GENERAL_CAP_ID h = Some (Ok (cap_id (device h)), h).
Proof.
  intros Hb. rewrite read_reg_run by (done || (unfold GENERAL_CAP_ID; lia)). unfold read_volatile, mbind, M_bind, gets, id.
  destruct Hb as [-> _]. by rewrite Z.eqb_refl.
Qed.
Lemma read_config_run h : hpet_based h → read_hpet_reg GENERAL_CONFIG h = Some (Ok (config (device h)), h).
Proof.
  intros Hb. rewrite read_reg_run by (done || (unfold GENERAL_CONFIG; lia)). unfold read_volatile, mbind, M_bind, gets, id.
  destruct Hb as [-> _]. unfold GENERAL_CAP_ID, GENERAL_CONFIG. rewrite (proj2 (Z.eqb_neq _ _)) by lia. by rewrite Z.eqb_refl.
Qed.
Lemma read_main_run h : hpet_based h → read_hpet_reg MAIN_COUNTER h = Some (Ok (now h), next_read h).
Proof.
  intros Hb. rewrite read_reg_run by (done || (unfold MAIN_COUNTER; lia)). unfold read_volatile, mbind, M_bind, gets, id.
  destruct Hb as [-> _]. unfold GENERAL_CAP_ID, GENERAL_CONFIG, MAIN_COUNTER. rewrite !(proj2 (Z.eqb_neq _ _)) by lia. by rewrite Z.eqb_refl.
Qed.
Lemma write_config_run v h : hpet_based h →
  write_hpet_reg GENERAL_CONFIG v h =
    Some (Ok tt, let d := device h in set_device (mkDev (dev_base d) (cap_id d) v (counter d) (reads d)) h).
Proof.
  intros [Hb Hr]. unfold write_hpet_reg, mbind, M_bind, gets. rewrite (proj2 (Z.eqb_neq _ _)) by lia. unfold lift, GENERAL_CONFIG.
  rewrite cadd_some by lia. unfold write_volatile, mbind, M_bind, gets, id. rewrite Hb. by rewrite Z.eqb_refl.
Qed.
Lemma read_counter_run h : hpet_ready h → read_counter h = Some (now h, next_read h).
Proof. intros [_ Hb _ _]. unfold read_counter, mbind, M_bind. by rewrite read_main_run. Qed.
Lemma next_ready h : hpet_ready h → hpet_ready (next_read h).
Proof. by intros [? ? ? ?]. Qed.

(** What [init] makes of the statics and the device, once its registers are mapped at [v]. *)
Definition hpet_started (v : Z) h : hpet :=
  let d := device h in let period := cap_id d / 2 ^ 32 in
  mkHpet true v (if period =? 0 then 0 else 10 ^ 15 / period) period (now h) (mkDev (dev_base d) (cap_id d) (Z.lor (config d) 1) (counter d) (S (reads d))).
Lemma hpet_start_run v h : dev_base (device h) = v → 0 < v < 2 ^ 64 - 0x1000 → 0 ≤ cap_id (device h) < 2 ^ 64 → hpet_start v h = Some (tt, hpet_started v h).
Proof.
  intros Hb Hv Hcap. destruct h as [av bs fr pe st [db ci cf ct rd]]. cbn in *. subst db. unfold hpet_start, expect, mbind, M_bind, modify, set_base. cbn.
  rewrite read_cap_run by done. cbn. unfold set_rate. cbn. rewrite read_config_run by done. cbn. rewrite write_config_run by done. cbn.
  unfold set_device. cbn. rewrite read_main_run by done. cbn. unfold set_start, hpet_started, now. cbn. rewrite Z.shiftr_div_pow2 by lia.
  assert (Hpd : 0 ≤ ci / 2 ^ 32) by (apply Z.div_pos; lia). do 2 f_equal. destruct (Z.eqb_spec (ci / 2 ^ 32) 0) as [->|Hne]; [done|]. by rewrite (proj2 (Z.ltb_lt _ _)) by lia.
Qed.
Lemma hpet_started_ready v h : dev_base (device h) = v → 0 < v < 2 ^ 64 - 0x1000 → 0 ≤ cap_id (device h) < 2 ^ 64 → (∀ n, 0 ≤ counter (device h) n < 2 ^ 64) → hpet_ready (hpet_started v h).
Proof.
  intros Hb Hv Hcap Hct. split; cbn; [done|by rewrite Hb| |apply Hct]. split; [apply Z.div_pos; lia|apply Z.div_lt_upper_bound; lia].
Qed.
(** A mapping that is made answers the direct-map address. *)
Lemma map_mmio_answer phys size ps r ps' : map_mmio phys size ps = Some (r, ps') → match r with Ok v => v = phys + KERNEL_VIRTUAL_BASE | Err _ => True end.
Proof.
  unfold map_mmio, mbind, M_bind. destruct (assert_interrupts_disabled ps) as [[[] s1]|]; [|done]. destruct (negb _); [by intros [= <- _]|].
  unfold lift at 1. destruct (cadd 64 size PAGE_SIZE) as [sum|]; [|done]. unfold try_bind, mbind, M_bind. destruct (try_for_each _ _ s1) as [[[[]|e] s2]|]; [|by intros [= <- _]|done].
  destruct (reload_cr3 s2) as [[[] s3]|]; [|done]. unfold lift, phys_to_virt. destruct (phys =? 0); [by intros [= <- _]|]. unfold cadd.
  destruct (_ <? _); [|done]. by intros [= <- _].
Qed.

(** Splitting the product loses nothing. *)
Lemma split_product counts p : (counts / 1000000) * p + (counts mod 1000000) * p / 1000000 = counts * p / 1000000.
Proof.
  rewrite (Z.div_mod counts 1000000) at 3 by lia. rewrite Z.mul_add_distr_r.
  replace (1000000 * (counts / 1000000) * p) with ((counts / 1000000) * p * 1000000) by lia. by rewrite Z.div_add_l.
Qed.

Lemma elapsed_ns_run h : hpet_ready h → 0 < HPET_PERIOD_FS h →
  elapsed_ns h = let ns := wrapping_sub 64 (now h) (HPET_START_COUNTER h) * HPET_PERIOD_FS h / 1000000 in
    if ns <? 2 ^ 64 then Some (ns, next_read h) else None.
Proof.
  intros Hr Hp. pose proof Hr as [Ha _ Hper _]. unfold elapsed_ns, elapsed_counts, hpet_is_available. unfold mbind, M_bind, gets. rewrite Ha.
  cbn [negb]. rewrite (proj2 (Z.eqb_neq _ _)) by lia. rewrite read_counter_run by done. cbn [mret M_ret HPET_START_COUNTER HPET_PERIOD_FS next_read set_device].
  set (counts := wrapping_sub 64 (now h) (HPET_START_COUNTER h)). assert (Hc : 0 ≤ counts) by (apply Z.mod_pos_bound; lia).
  set (p := HPET_PERIOD_FS h) in *. pose proof (split_product counts p) as Hsp. cbv zeta.
  pose proof (Z.mod_pos_bound counts 1000000 ltac:(lia)) as Hmod. pose proof (Z.div_pos counts 1000000 Hc ltac:(lia)) as Hq.
  assert (H0 : 0 ≤ counts mod 1000000 * p / 1000000) by (apply Z.div_pos; nia).
  unfold lift, cmul at 1. destruct (Z.ltb_spec (counts / 1000000 * p) (2 ^ 64)).
  - rewrite cmul_some by nia. unfold cadd. rewrite Hsp. by destruct (_ <? _).
  - rewrite (proj2 (Z.ltb_ge _ _)) by lia. done.
Qed.

(** ** Waiting: the counter as the low 64 bits of a clock [t] that advances with
    every read, by at most [D] ticks. *)
Definition ticking (h : hpet) (t : nat → Z) (D : Z) : Prop :=
  (∀ n, counter (device h) n = wrap 64 (t n)) ∧ ∀ n, t n < t (S n) ≤ t n + D.

Lemma ticking_mono h t D n k : ticking h t D → t n + Z.of_nat k ≤ t (n + k)%nat.
Proof. intros [_ Ht]. induction k as [|k IH]; [rewrite Nat.add_0_r; lia|]. rewrite Nat.add_succ_r. specialize (Ht (n + k)%nat). lia. Qed.

Definition read_n (n : nat) (h : hpet) : hpet :=
  let d := device h in set_device (mkDev (dev_base d) (cap_id d) (config d) (counter d) (reads d + n)%nat) h.
Lemma read_n_ready n h : hpet_ready h → hpet_ready (read_n n h).
Proof. by intros [? ? ? ?]. Qed.

Lemma delay_loop_run t D target fuel : ∀ h n0, hpet_ready h → ticking h t D → 0 < D → target + D ≤ 2 ^ 64 →
  t n0 ≤ t (reads (device h)) ≤ t n0 + target - 1 + D → 0 ≤ target →
  Z.max 0 (target - (t (reads (device h)) - t n0)) < Z.of_nat fuel →
  ∃ k, delay_loop fuel (wrap 64 (t n0)) target h = Some (tt, read_n (S k) h) ∧
    target ≤ t (reads (device h) + k)%nat - t n0 ≤ target - 1 + D.
Proof.
  induction fuel as [|fuel IH]; intros h n0 Hr Hk HD Hfit Hpos Htar Hfuel; [lia|]. cbn [delay_loop]. unfold mbind at 1, M_bind.
  rewrite read_counter_run by done. unfold now. rewrite (proj1 Hk). set (m := reads (device h)) in *.
  assert (Hsub : wrapping_sub 64 (wrap 64 (t m)) (wrap 64 (t n0)) = t m - t n0).
  { unfold wrapping_sub, wrap. rewrite <-Zminus_mod. apply Z.mod_small. lia. }
  rewrite Hsub. destruct (Z.ltb_spec (t m - t n0) target) as [Hlt|Hge].
  - pose proof (proj2 Hk m) as Hstep. destruct (IH (next_read h) n0) as (k & Hrun & Hend).
    + by apply next_ready.
    + done.
    + done.
    + done.
    + cbn [next_read set_device device reads]. fold m. lia.
    + done.
    + cbn [next_read set_device device reads]. fold m. lia.
    + cbn [next_read set_device device reads] in *. fold m in Hend, Hrun. exists (S k). rewrite Nat.add_succ_r. split; [|done].
      rewrite Hrun. unfold read_n, next_read. cbn. by rewrite (Nat.add_succ_r _ (S k)).
  - exists 0%nat. rewrite Nat.add_0_r. split; [|lia]. unfold read_n, next_read. cbn [mret M_ret]. by rewrite Nat.add_1_r.
Qed.

Lemma hpet_delay_run h t D ns fuel : hpet_ready h → 0 < HPET_PERIOD_FS h → ticking h t D → 0 < D → 0 ≤ ns → ns * 1000000 < 2 ^ 64 →
  let target := ns * 1000000 / HPET_PERIOD_FS h in
  target + D ≤ 2 ^ 64 → target < Z.of_nat fuel →
  ∃ k, hpet_delay_ns fuel ns h = Some (tt, read_n (2 + k) h) ∧
    target ≤ t (reads (device h) + S k)%nat - t (reads (device h)) ≤ Z.max target 1 - 1 + D.
Proof.
  intros Hr Hp Hk HD Hns Hov target Hfit Hfuel. unfold hpet_delay_ns, hpet_is_available. unfold mbind, M_bind, gets, lift.
  rewrite (hr_available _ Hr). cbn [negb]. rewrite (proj2 (Z.eqb_neq _ _)) by lia. rewrite cmul_some by done. fold target.
  rewrite read_counter_run by done. unfold now. rewrite (proj1 Hk). set (m := reads (device h)) in *.
  assert (Htar : 0 ≤ target) by (apply Z.div_pos; lia). pose proof (proj2 Hk m) as Hstep.
  destruct (decide (target = 0)) as [Hz|Hnz].
  - destruct fuel as [|fuel]; [lia|]. exists 0%nat. cbn [delay_loop]. unfold mbind, M_bind. rewrite read_counter_run by (by apply next_ready).
    rewrite Hz. rewrite (proj2 (Z.ltb_ge _ _)) by (apply Z.mod_pos_bound; lia). split.
    + unfold read_n, next_read. cbn. by rewrite Nat.add_comm.
    + rewrite Nat.add_1_r. lia.
  - destruct (delay_loop_run t D target fuel (next_read h) m) as (k & Hrun & Hend); cbn [next_read set_device device reads]; fold m;
      [by apply next_ready|done|done|done|lia|done|lia|].
    exists k. rewrite Hrun. split; [unfold read_n, next_read; cbn; by rewrite (Nat.add_succ_r _ (S k))|].
    cbn [next_read set_device device reads] in Hend. fold m in Hend. replace (m + S k)%nat with (S m + k)%nat by lia. lia.
Qed.
End hpet.

(** ** PIT *)
(** [polls] latch commands, each followed by two reads. *)
Definition polled (polls : nat) (p : pit) : pit :=
  mkPit (outs p ++ replicate polls (COMMAND, 0)) (ins p) (pit_reads p + 2 * polls).
(** What the chip is told for a wait of [count] ticks. *)
Definition burst (count : Z) (polls : nat) : list (Z * Z) :=
  [(COMMAND, 0x30); (CHANNEL_0, Z.land count 0xFF); (CHANNEL_0, Z.land (Z.shiftr count 8) 0xFF)] ++ replicate polls (COMMAND, 0).

Section pit.
Implicit Types p : pit.

Lemma latch_run {A} (k : Z → M pit A) p :
  (port_write_u8 COMMAND 0x00 ;; c ← read_current_count; k c) p =
    k (Z.lor (Z.shiftl (ins p (S (pit_reads p))) 8) (ins p (pit_reads p))) (polled 1 p).
Proof. unfold polled. cbn. by rewrite Nat.add_succ_r, Nat.add_1_r. Qed.
Lemma polled_polled a b p : polled a (polled b p) = polled (b + a) p.
Proof. unfold polled. cbn [outs ins pit_reads]. rewrite <-app_assoc, <-replicate_add. f_equal. lia. Qed.

Lemma poll_1ms_run n : ∀ last p, ∃ k, (k ≤ n)%nat ∧ poll_1ms n last p = Some (tt, polled k p).
Proof.
  induction n as [|n IH]; intros last p; cbn [poll_1ms].
  - exists 0%nat. split; [lia|]. unfold polled. cbn. rewrite app_nil_r, Nat.add_0_r. by destruct p.
  - rewrite latch_run. destruct (_ || _).
    + exists 1%nat. split; [lia|done].
    + destruct (IH (Z.lor (Z.shiftl (ins p (S (pit_reads p))) 8) (ins p (pit_reads p))) (polled 1 p)) as (k & Hk & Hrun).
      exists (S k). split; [lia|]. rewrite Hrun. by rewrite polled_polled.
Qed.
Lemma poll_zero_run n : ∀ p, ∃ k, (k ≤ n)%nat ∧ poll_zero n p = Some (tt, polled k p).
Proof.
  induction n as [|n IH]; intros p; cbn [poll_zero].
  - exists 0%nat. split; [lia|]. unfold polled. cbn. rewrite app_nil_r, Nat.add_0_r. by destruct p.
  - rewrite latch_run. destruct (_ =? _).
    + exists 1%nat. split; [lia|done].
    + destruct (IH (polled 1 p)) as (k & Hk & Hrun). exists (S k). split; [lia|]. rewrite Hrun. by rewrite polled_polled.
Qed.

Lemma program_run {A} count (k : unit → M pit A) p : (program_count count ≫= k) p = k tt (mkPit (outs p ++ burst count 0) (ins p) (pit_reads p)).
Proof.
  unfold program_count, burst, port_write_u8, modify, mbind, M_bind. cbn [outs ins pit_reads replicate]. by rewrite <-!app_assoc.
Qed.

Lemma sleep_1ms_run p : ∃ k, (1 ≤ k ≤ S (Z.to_nat MAX_POLL_ITERATIONS))%nat ∧
  sleep_1ms p = Some (tt, mkPit (outs p ++ burst 1193 k) (ins p) (pit_reads p + 2 * k)).
Proof.
  unfold sleep_1ms. change (wrap 16 (PIT_FREQUENCY / 1000)) with 1193. rewrite program_run. generalize (Z.to_nat MAX_POLL_ITERATIONS) as n. intros n.
  rewrite latch_run. match goal with |- context [poll_1ms n ?l ?q] => destruct (poll_1ms_run n l q) as (k & Hk & ->) end.
  exists (S k). split; [lia|]. rewrite polled_polled. unfold polled, burst. cbn [outs ins pit_reads replicate app Nat.add]. by rewrite <-app_assoc.
Qed.

(** [ms] bursts, one after the other, whatever the chip answers. *)
Lemma pit_sleep_run (n : nat) : ∀ a p, ∃ polls, length polls = n ∧ Forall (λ k, (1 ≤ k ≤ S (Z.to_nat MAX_POLL_ITERATIONS))%nat) polls ∧
  for_each (seqZ a (Z.of_nat n)) (λ _, sleep_1ms) p =
    Some (tt, mkPit (outs p ++ concat (burst 1193 <$> polls)) (ins p) (pit_reads p + 2 * sum_list polls)).
Proof.
  induction n as [|n IH]; intros a p.
  - exists []. split; [done|]. split; [done|]. cbn. rewrite app_nil_r, Nat.add_0_r. by destruct p.
  - rewrite seqZ_cons by lia. cbn [for_each]. unfold mbind, M_bind. destruct (sleep_1ms_run p) as (k & Hk & ->).
    replace (Z.pred (Z.of_nat (S n))) with (Z.of_nat n) by lia.
    destruct (IH (Z.succ a) (mkPit (outs p ++ burst 1193 k) (ins p) (pit_reads p + 2 * k))) as (polls & Hl & Hf & Hrun).
    exists (k :: polls). split; [simpl; lia|]. split; [by constructor|]. rewrite Hrun. cbn [outs ins pit_reads fmap list_fmap concat sum_list].
    rewrite <-app_assoc. cbn [sum_list sum_list_with foldr id]. f_equal. f_equal. f_equal. unfold sum_list. cbn. lia.
Qed.
End pit.

(** ** The APIC's registers *)
Definition apic_on (a : apic) : Prop :=
  APIC_MMIO_MAPPED a = true ∧ 0 ≤ APIC_PHYS_BASE a ∧ KERNEL_VIRTUAL_BASE + APIC_PHYS_BASE a + 0x1000 ≤ 2 ^ 64.
Definition reg (a : apic) (offset : Z) : Z := KERNEL_VIRTUAL_BASE + APIC_PHYS_BASE a + offset.

Section apic.
Implicit Types (a : apic) (s : apic_sys).

Lemma write_apic_run a offset value : apic_on a → 0 ≤ offset < 0x1000 →
  write_apic_register offset value a = Some (tt, log_write (reg a offset) value a).
Proof.
  intros (Hm & Hb & Hfit) Ho. unfold write_apic_register, apic_virt_base, mbind, M_bind, gets, assert_, lift, id. rewrite Hm.
  rewrite cadd_some by lia. by rewrite cadd_some by lia.
Qed.
Lemma read_apic_run a : apic_on a → read_apic_register TIMER_CURRENT_COUNT a = Some (current_counts a (count_reads a), count_read a).
Proof.
  intros (Hm & Hb & Hfit). unfold read_apic_register, apic_virt_base, mbind, M_bind, gets, assert_, lift, id. rewrite Hm.
  rewrite cadd_some by lia. rewrite cadd_some by (unfold TIMER_CURRENT_COUNT; lia). by rewrite Z.eqb_refl.
Qed.
Lemma log_on a addr v : apic_on a → apic_on (log_write addr v a).
Proof. done. Qed.
Lemma init_timer_run a hz : apic_on a → hz ≠ 0 → APIC_TIMER_FREQUENCY a ≠ 0 →
  init_timer hz a = Some (Ok tt, log_write (reg a TIMER_INITIAL_COUNT) (APIC_TIMER_FREQUENCY a / hz)
    (log_write (reg a TIMER_LVT) 0x20020 (log_write (reg a TIMER_DIVIDE_CONFIG) 3 a))).
Proof.
  intros Ha Hz Hf. unfold init_timer. rewrite (proj2 (Z.eqb_neq _ _) Hz). unfold mbind at 1, M_bind, gets. rewrite (proj2 (Z.eqb_neq _ _) Hf).
  unfold mbind, M_bind. rewrite (write_apic_run a) by (done || (unfold TIMER_DIVIDE_CONFIG; lia)).
  rewrite write_apic_run by (done || (unfold TIMER_LVT; lia)). by rewrite write_apic_run by (done || (unfold TIMER_INITIAL_COUNT; lia)).
Qed.

(** ** Enabling *)
(** The page the registers are taken to be at: what the tables say, if aligned. *)
Definition apic_page (from_tables : option Z) a : Z :=
  match from_tables with Some addr => if Z.land addr PAGE_ALIGNMENT_MASK =? 0 then addr else APIC_PHYS_BASE a | None => APIC_PHYS_BASE a end.
(** The local APIC after its initialisation, the legacy controllers masked. *)
Definition enabled_at (phys : Z) a : apic :=
  mkApic phys true (APIC_TIMER_FREQUENCY a) (apic_writes a ++ [(KERNEL_VIRTUAL_BASE + phys + SPURIOUS_INTERRUPT_VECTOR, 0x1FF)]) (current_counts a) (count_reads a)
    (Z.lor (ia32_apic_base a) (Z.shiftl 1 11)) (0xFF, 0xFF).
Lemma apic_init_run s from_tables v p' : let phys := apic_page from_tables (as_apic s) in
  map_mmio phys PAGE_SIZE (as_paging s) = Some (Ok v, p') → KERNEL_VIRTUAL_BASE + phys + SPURIOUS_INTERRUPT_VECTOR < 2 ^ 64 →
  apic_init from_tables s = Some (Ok tt, mkApicSys p' (as_hpet s) (as_pit s) (enabled_at phys (as_apic s))).
Proof.
  cbv zeta. intros Hmap Hfit. destruct s as [pg hp pi a]. cbn [as_paging as_hpet as_pit as_apic] in *.
  set (phys := apic_page from_tables a) in *.
  assert (Hset : (match from_tables with
    | Some addr => if negb (Z.land addr PAGE_ALIGNMENT_MASK =? 0) then mret tt else on_apic (modify (set_phys_base addr))
    | None => mret tt end) (mkApicSys pg hp pi a) = Some (tt, mkApicSys pg hp pi (set_phys_base phys a))).
  { subst phys. unfold apic_page. destruct from_tables as [addr|]; [destruct (_ =? 0)|]; [done|by destruct a|by destruct a]. }
  unfold apic_init. apply run_bind. unfold wp. rewrite Hset. apply run_bind. unfold wp, disable_legacy_pic, on_apic, zoom, modify. cbn [as_paging as_hpet as_pit as_apic].
  unfold try_bind, enable_apic. apply run_bind, wp_bind. unfold wp at 1, on_apic at 1, zoom at 1, gets at 1. cbn [as_paging as_hpet as_pit as_apic].
  unfold try_bind. apply wp_bind. unfold wp at 1, zoom at 1. cbn [as_paging as_hpet as_pit as_apic]. change (APIC_PHYS_BASE (set_masks _ _)) with phys. rewrite Hmap.
  apply wp_bind. unfold on_apic. apply wp_zoom. cbn [as_apic]. apply wp_bind, wp_modify, wp_bind, wp_gets, wp_bind, wp_modify.
  unfold write_apic_register, apic_virt_base. apply wp_bind, wp_bind, wp_gets, wp_bind, wp_assert; [done|]. eapply wp_lift; [apply cadd_some; unfold id; cbn; unfold SPURIOUS_INTERRUPT_VECTOR in Hfit; lia|].
  apply wp_bind. eapply wp_lift; [apply cadd_some; unfold id; cbn; unfold SPURIOUS_INTERRUPT_VECTOR in *; lia|]. apply wp_modify, wp_ret. done.
Qed.

(** The registers as a measurement leaves them. *)
Definition measured a : apic :=
  log_write (reg a TIMER_INITIAL_COUNT) 0 (count_read (log_write (reg a TIMER_INITIAL_COUNT) 0xFFFFFFFF
    (log_write (reg a TIMER_LVT) 0x10000 (log_write (reg a TIMER_DIVIDE_CONFIG) 3 a)))).
Definition set_apic (a : apic) s : apic_sys := mkApicSys (as_paging s) (as_hpet s) (as_pit s) a.

(** A delay that leaves the APIC alone. *)
Lemma measure_run d s s' : apic_on (as_apic s) → 0 ≤ current_counts (as_apic s) (count_reads (as_apic s)) < 2 ^ 32 →
  (∀ a, d (set_apic a s) = Some (tt, set_apic a s')) →
  measure_apic_ticks d s = Some (0xFFFFFFFF - current_counts (as_apic s) (count_reads (as_apic s)), set_apic (measured (as_apic s)) s').
Proof.
  intros Ha Hc Hd. unfold measure_apic_ticks, on_apic, zoom, mbind, M_bind.
  rewrite write_apic_run by (done || (unfold TIMER_DIVIDE_CONFIG; lia)). cbn [as_apic as_paging as_hpet as_pit].
  rewrite write_apic_run by (done || (unfold TIMER_LVT; lia)). cbn [as_apic as_paging as_hpet as_pit].
  rewrite write_apic_run by (done || (unfold TIMER_INITIAL_COUNT; lia)). cbn [as_apic as_paging as_hpet as_pit].
  match goal with |- context [d ?x] => change x with (set_apic (as_apic x) s) end. rewrite Hd. cbn [as_apic set_apic as_paging as_hpet as_pit].
  rewrite read_apic_run by done. cbn [as_apic set_apic as_paging as_hpet as_pit].
  rewrite write_apic_run by (done || (unfold TIMER_INITIAL_COUNT; lia)). cbn [as_apic set_apic as_paging as_hpet as_pit].
  unfold lift. by rewrite csub_some by (cbn; lia).
Qed.

(** ** Calibration *)
Definition pit_measurement : M apic_sys Z := measure_apic_ticks (on_pit (delay_ms CALIBRATION_MS)).
Lemma pit_measure_run s : apic_on (as_apic s) → 0 ≤ current_counts (as_apic s) (count_reads (as_apic s)) < 2 ^ 32 →
  ∃ p', pit_measurement s = Some (0xFFFFFFFF - current_counts (as_apic s) (count_reads (as_apic s)),
    mkApicSys (as_paging s) (as_hpet s) p' (measured (as_apic s))).
Proof.
  intros Ha Hc. destruct (pit_sleep_run 50 0 (as_pit s)) as (polls & _ & _ & Hrun). set (p' := mkPit _ _ _) in Hrun. exists p'. unfold pit_measurement.
  rewrite (measure_run _ s (mkApicSys (as_paging s) (as_hpet s) p' (as_apic s))); [done|done|done|].
  intros a. unfold on_pit, zoom. cbn [set_apic as_pit delay_ms Pit_TimerDevice]. unfold pit_delay_ms, pit_sleep_ms.
  change (wrap 32 (Z.min CALIBRATION_MS u32_max)) with (Z.of_nat 50). rewrite Hrun. done.
Qed.

(** A measurement with the HPET. *)
Lemma hpet_measure_run t D fuel s : apic_on (as_apic s) → 0 ≤ current_counts (as_apic s) (count_reads (as_apic s)) < 2 ^ 32 →
  hpet_ready (as_hpet s) → 0 < HPET_PERIOD_FS (as_hpet s) → ticking (as_hpet s) t D → 0 < D →
  50000000 * 1000000 / HPET_PERIOD_FS (as_hpet s) + D ≤ 2 ^ 64 → 50000000 * 1000000 / HPET_PERIOD_FS (as_hpet s) < Z.of_nat fuel →
  ∃ k, measure_apic_ticks (on_hpet (delay_ms (TimerDevice := Hpet_TimerDevice fuel) CALIBRATION_MS)) s =
    Some (0xFFFFFFFF - current_counts (as_apic s) (count_reads (as_apic s)), mkApicSys (as_paging s) (read_n k (as_hpet s)) (as_pit s) (measured (as_apic s))).
Proof.
  intros Ha Hc Hr Hp Ht HD Hwin Hfuel. destruct (hpet_delay_run (as_hpet s) t D 50000000 fuel Hr Hp Ht HD ltac:(lia) ltac:(lia) Hwin Hfuel) as (k & Hrun & _).
  exists (2 + k)%nat. rewrite (measure_run _ s (mkApicSys (as_paging s) (read_n (2 + k) (as_hpet s)) (as_pit s) (as_apic s))); [done|done|done|].
  intros a. unfold on_hpet, zoom. cbn [set_apic as_hpet delay_ms Hpet_TimerDevice]. unfold default_delay_ms.
  change (saturating_mul 64 CALIBRATION_MS 1000000) with 50000000. by rewrite Hrun.
Qed.

(** The ticks that [n] measurements from read [r] on give. *)
Definition ticks (a : apic) (r n : nat) : list Z := (λ i, 0xFFFFFFFF - current_counts a i) <$> seq r n.
(** What a measurement does not touch: everything but the timer's registers. *)
Definition kept (a a' : apic) : Prop :=
  APIC_MMIO_MAPPED a' = APIC_MMIO_MAPPED a ∧ APIC_PHYS_BASE a' = APIC_PHYS_BASE a ∧ ia32_apic_base a' = ia32_apic_base a ∧ pic_masks a' = pic_masks a.
Lemma kept_on a a' : kept a a' → apic_on a → apic_on a'.
Proof. intros (E1 & E2 & _) Ha. unfold apic_on. by rewrite E1, E2. Qed.
Lemma measure_n_run n : ∀ s, apic_on (as_apic s) → (∀ i, 0 ≤ current_counts (as_apic s) i < 2 ^ 32) →
  ∃ p' a', measure_n n pit_measurement s = Some (ticks (as_apic s) (count_reads (as_apic s)) n, mkApicSys (as_paging s) (as_hpet s) p' a') ∧ kept (as_apic s) a'.
Proof.
  induction n as [|n IH]; intros s Ha Hc; cbn [measure_n].
  - exists (as_pit s), (as_apic s). by destruct s.
  - unfold mbind, M_bind. destruct (pit_measure_run s Ha (Hc _)) as (p1 & ->).
    destruct (IH (mkApicSys (as_paging s) (as_hpet s) p1 (measured (as_apic s)))) as (p' & a' & -> & Ha'); [done|done|]. by exists p', a'.
Qed.

(** The middle of five sorted values. *)
Lemma sorted_median (l : list Z) : Sorted Z.le l → length l = 5%nat → ∃ med, l !! 2%nat = Some med ∧ med ∈ l ∧
  3 ≤ Z.of_nat (length (filter (λ x, x ≤ med) l)) ∧ 3 ≤ Z.of_nat (length (filter (λ x, med ≤ x) l)).
Proof.
  intros Hs Hl. destruct l as [|x1 [|x2 [|x3 [|x4 [|x5 [|? ?]]]]]]; try done. exists x3. split; [done|]. split; [set_solver|].
  repeat match goal with H : Sorted _ (_ :: _) |- _ => apply Sorted_inv in H as [? ?] | H : HdRel _ _ (_ :: _) |- _ => apply HdRel_inv in H end.
  rewrite !filter_cons, !filter_nil. repeat case_decide; cbn [length]; lia.
Qed.
Lemma median_spec (xs : list Z) : length xs = 5%nat → ∃ med, merge_sort Z.le xs !! 2%nat = Some med ∧ med ∈ xs ∧
  3 ≤ Z.of_nat (length (filter (λ x, x ≤ med) xs)) ∧ 3 ≤ Z.of_nat (length (filter (λ x, med ≤ x) xs)).
Proof.
  intros Hlen. pose proof (merge_sort_Permutation Z.le xs) as Hp.
  destruct (sorted_median (merge_sort Z.le xs)) as (med & H1 & H2 & H3 & H4).
  - apply Sorted_merge_sort. intros x y. lia.
  - by rewrite Hp.
  - exists med. rewrite Hp in H2. rewrite (filter_Permutation (λ x, x ≤ med) _ _ Hp) in H3.
    rewrite (filter_Permutation (λ x, med ≤ x) _ _ Hp) in H4. done.
Qed.
End apic.
