(* ===== verification/ClockProps.v ===== *)
(** * Clock devices and the APIC timer: the theorems. *)
From stdpp Require Import sorting.
From S2P Require Import Prelude Addr Paging TimerDevice Apic ClockThms.
#[local] Open Scope Z_scope.
Set Default Goal Selector "!".

(** [elapsed_ns] multiplies in two parts so as not to overflow; the parts
    add up to the exact time, rounded down: elapsed counts (modulo 2^64) times
    the period over 10^6.  It fails exactly when that time does not fit in 64
    bits. *)
Theorem hpet_elapsed_exact h (Hr : hpet_ready h) (Hp : 0 < HPET_PERIOD_FS h) :
  let ns := wrapping_sub 64 (now h) (HPET_START_COUNTER h) * HPET_PERIOD_FS h / 1000000 in
  elapsed_ns h = (if ns <? 2 ^ 64 then Some (ns, next_read h) else None) ∧
  elapsed_ms h = (if ns <? 2 ^ 64 then Some (ns / 1000000, next_read h) else None).
Proof.
  intros ns. pose proof (elapsed_ns_run h Hr Hp) as Hrun. split; [exact Hrun|].
  unfold elapsed_ms, mbind, M_bind. rewrite Hrun. cbv zeta. fold ns. by destruct (ns <? 2 ^ 64).
Qed.

(** C34: [delay_ns] ends and waits long enough: when the counter advances at
    every read, by at most [D] ticks, the loop stops after at least
    [ns * 10^6 / period] ticks and less than [D] more (so the wait falls short of
    [ns] by less than one period); without a running HPET it returns at once;
    it fails on a request of 2^64 femtoseconds or more, also when it comes
    through the saturating [delay_ms] of the trait. *)
Theorem hpet_delay_correct h t D fuel ns (Hr : hpet_ready h) (Hp : 0 < HPET_PERIOD_FS h) (Ht : ticking h t D) (HD : 0 < D) (Hns : 0 ≤ ns) :
  (ns * 1000000 < 2 ^ 64 → ns * 1000000 / HPET_PERIOD_FS h + D ≤ 2 ^ 64 → ns * 1000000 / HPET_PERIOD_FS h < Z.of_nat fuel →
     ∃ k waited, hpet_delay_ns fuel ns h = Some (tt, read_n (2 + k) h) ∧ waited = t (reads (device h) + S k)%nat - t (reads (device h)) ∧
       (ns * 1000000 - HPET_PERIOD_FS h < waited * HPET_PERIOD_FS h) ∧ waited ≤ Z.max (ns * 1000000 / HPET_PERIOD_FS h) 1 - 1 + D) ∧
  (2 ^ 64 ≤ ns * 1000000 → hpet_delay_ns fuel ns h = None) ∧
  (2 ^ 64 ≤ ns * 1000000 * 1000000 → delay_ms (TimerDevice := Hpet_TimerDevice fuel) ns h = None) ∧
  hpet_delay_ns fuel ns (mkHpet false (HPET_BASE h) (HPET_FREQUENCY h) (HPET_PERIOD_FS h) (HPET_START_COUNTER h) (device h)) =
    Some (tt, mkHpet false (HPET_BASE h) (HPET_FREQUENCY h) (HPET_PERIOD_FS h) (HPET_START_COUNTER h) (device h)).
Proof.
  assert (Hover : ∀ n, 2 ^ 64 ≤ n * 1000000 → hpet_delay_ns fuel n h = None).
  { intros n Hn. unfold hpet_delay_ns, hpet_is_available, mbind, M_bind, gets, lift. rewrite (hr_available _ Hr). cbn [negb].
    rewrite (proj2 (Z.eqb_neq _ _)) by lia. unfold cmul. by rewrite (proj2 (Z.ltb_ge _ _)). }
  split; [|split; [by apply Hover|split; [|done]]].
  - intros Hfit Hwin Hfuel. destruct (hpet_delay_run h t D ns fuel Hr Hp Ht HD Hns Hfit Hwin Hfuel) as (k & Hrun & Hw).
    exists k, (t (reads (device h) + S k)%nat - t (reads (device h))). split; [done|]. split; [done|]. split; [|lia].
    pose proof (Z.mul_succ_div_gt (ns * 1000000) (HPET_PERIOD_FS h) Hp). nia.
  - intros Hn. cbn [delay_ms Hpet_TimerDevice]. unfold default_delay_ms. apply Hover. unfold saturating_mul. lia.
Qed.

(** [hpet::init]: a mapping error is passed on and leaves the HPET as it
    was; otherwise the period is the high half of the capability register, the
    frequency 10^15 over it (0 when it is 0), the device is switched on and time
    starts at the counter read last. *)
Theorem hpet_init_correct s phys (Hdev : ∀ v p', map_mmio phys PAGE_SIZE (hs_paging s) = Some (Ok v, p') → dev_base (device (hs_hpet s)) = v ∧ 0 < v < 2 ^ 64 - 0x1000)
  (Hcap : 0 ≤ cap_id (device (hs_hpet s)) < 2 ^ 64) (Hcount : ∀ n, 0 ≤ counter (device (hs_hpet s)) n < 2 ^ 64) :
  match map_mmio phys PAGE_SIZE (hs_paging s) with
  | Some (Ok _, p') => ∃ h', hpet_init phys s = Some (Ok tt, mkHpetSys p' h') ∧ hpet_ready h' ∧
      HPET_PERIOD_FS h' = cap_id (device (hs_hpet s)) / 2 ^ 32 ∧ Z.testbit (config (device h')) 0 = true ∧
      HPET_FREQUENCY h' = (if HPET_PERIOD_FS h' =? 0 then 0 else 10 ^ 15 / HPET_PERIOD_FS h') ∧
      HPET_START_COUNTER h' = now (hs_hpet s)
  | Some (Err e, p') => hpet_init phys s = Some (Err e, mkHpetSys p' (hs_hpet s))
  | None => hpet_init phys s = None
  end.
Proof.
  unfold hpet_init, try_bind. destruct (map_mmio phys PAGE_SIZE (hs_paging s)) as [[[v|e] p']|] eqn:Hmap.
  - destruct (Hdev v p' eq_refl) as [Hb Hv]. unfold mbind at 1, M_bind, zoom. rewrite Hmap. cbn [hs_hpet hs_paging].
    exists (hpet_started v (hs_hpet s)). split; [unfold mbind, M_bind; cbn [hs_hpet hs_paging]; by rewrite hpet_start_run|]. split; [by apply hpet_started_ready|]. cbn. split; [done|].
    split; [|done]. rewrite <-Z.bit0_odd, Z.lor_spec. by rewrite orb_true_r.
  - unfold mbind, M_bind, zoom. by rewrite Hmap.
  - unfold mbind, M_bind, zoom. by rewrite Hmap.
Qed.

(** The PIT's waits end whatever the chip answers: [sleep_ms] starts one
    count of 1193 per millisecond and polls each at most 100,001 times; [udelay]
    starts a count of [us * 1193182 / 10^6] when that fits in 16 bits (up to
    54,925 us) and of its low 16 bits otherwise. *)
Theorem pit_waits_end p (n : nat) us (Hus : 0 ≤ us < 2 ^ 32) :
  (∃ polls, length polls = n ∧ Forall (λ k, 1 ≤ Z.of_nat k ≤ 100001) polls ∧
     pit_sleep_ms (Z.of_nat n) p = Some (tt, mkPit (outs p ++ concat (burst 1193 <$> polls)) (ins p) (pit_reads p + 2 * sum_list polls))) ∧
  (∃ k count, Z.of_nat k ≤ 100000 ∧ udelay us p = Some (tt, mkPit (outs p ++ burst count k) (ins p) (pit_reads p + 2 * k)) ∧
     (us ≤ 54925 → count = us * 1193182 / 1000000) ∧ count = (us * 1193182 / 1000000) mod 2 ^ 16).
Proof.
  split.
  - destruct (pit_sleep_run n 0 p) as (polls & Hl & Hf & Hrun). exists polls. split; [done|]. split; [|exact Hrun].
    eapply Forall_impl; [|exact Hf]. cbv beta. intros k. change MAX_POLL_ITERATIONS with 100000. lia.
  - unfold udelay, mbind at 1, M_bind, lift, PIT_FREQUENCY. rewrite cmul_some by lia. rewrite program_run.
    match goal with |- context [poll_zero ?m ?q] => destruct (poll_zero_run m q) as (k & Hk & Hrun) end.
    exists k, ((us * 1193182 / 1000000) mod 2 ^ 16). split; [change MAX_POLL_ITERATIONS with 100000 in Hk; lia|].
    replace (1193182 * us) with (us * 1193182) in * by lia. split; [|split; [|done]].
    + rewrite Hrun. unfold polled, burst, wrap. cbn [outs ins pit_reads]. by rewrite <-app_assoc.
    + intros Hs. apply Z.mod_small. split; [apply Z.div_pos; lia|apply Z.div_lt_upper_bound; lia].
Qed.

(** The run of the calibration: the paging and the HPET stay, the frequency is
    the only static that changes. *)
Lemma calibrate_pit_run s fuel (Hav : HPET_AVAILABLE (as_hpet s) = false) (Hon : apic_on (as_apic s))
  (Hc : ∀ i, 0 ≤ current_counts (as_apic s) i < 2 ^ 32) :
  let ms := ticks (as_apic s) (count_reads (as_apic s)) 5 in
  ((∀ m, m ∈ ms → m * 20 < 2 ^ 32) → ∃ med p' a', med ∈ ms ∧
     3 ≤ Z.of_nat (length (filter (λ x, x ≤ med) ms)) ∧ 3 ≤ Z.of_nat (length (filter (λ x, med ≤ x) ms)) ∧
     calibrate_timer fuel s = Some (if med =? 0 then Err CalibrationFailed else Ok tt, mkApicSys (as_paging s) (as_hpet s) p' (set_frequency (med * 20) a')) ∧
     kept (as_apic s) a') ∧
  ((∃ m, m ∈ ms ∧ 2 ^ 32 ≤ m * 20) → calibrate_timer fuel s = None).
Proof.
  intros ms. destruct (measure_n_run 5 s Hon Hc) as (p1 & a1 & Hrun & Hkept). set (s1 := mkApicSys _ _ p1 a1) in Hrun. fold ms in Hrun.
  destruct (median_spec ms eq_refl) as (med & Hmed & Hin & H3 & H4).
  pose proof (merge_sort_Permutation Z.le ms) as Hperm.
  assert (Hsteps : calibrate_timer fuel s = (tps ← lift (cmul 32 med 20);
     for_each (merge_sort Z.le ms) (λ t, _ ← lift (cmul 32 t 20); mret tt) ;;
     on_apic (modify (set_frequency tps)) ;; if tps =? 0 then mret (Err CalibrationFailed) else mret (Ok tt)) s1).
  { unfold calibrate_timer. unfold mbind at 1, M_bind, on_hpet, zoom. cbn [is_available Hpet_TimerDevice hpet_is_available gets]. rewrite Hav.
    cbn [as_hpet]. replace (mkApicSys _ _ _ _) with s by (by destruct s). unfold mbind, M_bind. fold pit_measurement. unfold MEASUREMENTS. rewrite Hrun.
    change (5 / 2)%nat with 2%nat. rewrite Hmed. change (1000 / CALIBRATION_MS) with 20. unfold lift.
    destruct (cmul 32 med 20); [|done]. by match goal with |- context [@for_each ?S ?A ?l ?f s1] => destruct (@for_each S A l f s1) as [[[] ?]|] end. }
  rewrite Hsteps. split.
  - intros Hall. exists med, p1, a1. split; [done|]. split; [done|]. split; [done|]. split; [|done]. unfold mbind at 1, M_bind, lift at 1. rewrite cmul_some by (by apply Hall).
    assert (Hlog : for_each (merge_sort Z.le ms) (λ t : Z, _ ← lift (cmul 32 t 20); mret tt) s1 = Some (tt, s1)).
    { assert (Hall' : ∀ m, m ∈ merge_sort Z.le ms → m * 20 < 2 ^ 32) by (intros m; rewrite Hperm; apply Hall).
      clear -Hall'. induction (merge_sort Z.le ms) as [|m l IH]; [done|]. cbn [for_each]. unfold mbind, M_bind, lift in *.
      rewrite cmul_some by (apply Hall'; by left). apply IH. intros m' Hm'. apply Hall'. by right. }
    unfold mbind, M_bind. unfold mbind, M_bind in Hlog. rewrite Hlog.
    cbn. destruct (Z.eqb_spec med 0) as [->|Hne]; [done|]. rewrite (proj2 (Z.eqb_neq (med * 20) 0)) by lia. done.
  - intros (m & Hm & Hbig). unfold mbind at 1, M_bind, lift at 1. destruct (cmul 32 med 20) as [tps|]; [|done].
    rewrite <-Hperm in Hm. apply list_elem_of_split in Hm as (l1 & l2 & ->). unfold mbind at 1, M_bind.
    rewrite for_each_fails; [done|]. intros s2 _. unfold mbind, M_bind, lift, cmul. by rewrite (proj2 (Z.ltb_ge _ _)).
Qed.

Lemma calibrate_hpet_run t D fuel s : HPET_AVAILABLE (as_hpet s) = true → apic_on (as_apic s) → (∀ i, 0 ≤ current_counts (as_apic s) i < 2 ^ 32) →
  hpet_ready (as_hpet s) → 0 < HPET_PERIOD_FS (as_hpet s) → ticking (as_hpet s) t D → 0 < D →
  50000000 * 1000000 / HPET_PERIOD_FS (as_hpet s) + D ≤ 2 ^ 64 → 50000000 * 1000000 / HPET_PERIOD_FS (as_hpet s) < Z.of_nat fuel →
  ∀ m, ticks (as_apic s) (count_reads (as_apic s)) 1 = [m] → m * 20 < 2 ^ 32 →
  ∃ k a', calibrate_timer fuel s = Some (if m =? 0 then Err CalibrationFailed else Ok tt, mkApicSys (as_paging s) (read_n k (as_hpet s)) (as_pit s) (set_frequency (m * 20) a')) ∧
    kept (as_apic s) a'.
Proof.
  intros Hav Hon Hc Hr Hp Ht HD Hwin Hfuel m [= Hm] Hbig. destruct (hpet_measure_run t D fuel s Hon (Hc _) Hr Hp Ht HD Hwin Hfuel) as (k & Hrun). exists k, (measured (as_apic s)). split; [|done].
  assert (Havail : on_hpet (is_available (TimerDevice := Hpet_TimerDevice fuel)) s = Some (true, s)) by (destruct s; cbn in *; by rewrite Hav).
  unfold calibrate_timer. unfold mbind at 1, M_bind. rewrite Havail. unfold mbind at 1, M_bind. unfold mbind at 1, M_bind. rewrite Hrun, Hm.
  change (1000 / CALIBRATION_MS) with 20. unfold lift. rewrite cmul_some by done. unfold on_apic, zoom, modify, mbind, M_bind. cbn [as_paging as_hpet as_pit as_apic].
  destruct (Z.eqb_spec m 0) as [->|Hne]; [done|]. by rewrite (proj2 (Z.eqb_neq (m * 20) 0)) by lia.
Qed.

(** Calibration without an HPET measures five times and takes the median:
    at least three of the measurements are not above it and three not below.
    The stored frequency is twenty times the median; zero is an error.  One
    measurement of 2^32/20 ticks or more ends the kernel, even one the median
    would discard, as the log line multiplies all five. *)
Theorem calibrate_pit_median s fuel (Hav : HPET_AVAILABLE (as_hpet s) = false) (Hon : apic_on (as_apic s))
  (Hc : ∀ i, 0 ≤ current_counts (as_apic s) i < 2 ^ 32) :
  let ms := ticks (as_apic s) (count_reads (as_apic s)) 5 in
  ((∀ m, m ∈ ms → m * 20 < 2 ^ 32) → ∃ med s', med ∈ ms ∧
     3 ≤ Z.of_nat (length (filter (λ x, x ≤ med) ms)) ∧ 3 ≤ Z.of_nat (length (filter (λ x, med ≤ x) ms)) ∧
     calibrate_timer fuel s = Some (if med =? 0 then Err CalibrationFailed else Ok tt, s') ∧ APIC_TIMER_FREQUENCY (as_apic s') = med * 20) ∧
  ((∃ m, m ∈ ms ∧ 2 ^ 32 ≤ m * 20) → calibrate_timer fuel s = None).
Proof.
  intros ms. destruct (calibrate_pit_run s fuel Hav Hon Hc) as [H1 H2]. split; [|exact H2].
  intros Hall. destruct (H1 Hall) as (med & p' & a' & Hin & H3 & H4 & Hrun & _). exists med. eexists. by split_and!.
Qed.

(** Starting the timer: the two errors touch no register; otherwise the
    divider, the periodic unmasked vector 32 and the initial count
    [freq / hz] are written in that order.  The rate asked for is met from above, within
    one count; a rate above the timer's own frequency writes a count of 0, which
    leaves the timer stopped, and still answers [Ok]. *)
Theorem init_timer_correct a hz (Hon : apic_on a) (Hhz : 0 ≤ hz < 2 ^ 32) (Hf : 0 ≤ APIC_TIMER_FREQUENCY a < 2 ^ 32) :
  let f := APIC_TIMER_FREQUENCY a in
  (hz = 0 → init_timer hz a = Some (Err InvalidFrequency, a)) ∧
  (hz ≠ 0 → f = 0 → init_timer hz a = Some (Err NotCalibrated, a)) ∧
  (hz ≠ 0 → f ≠ 0 → ∃ count a', init_timer hz a = Some (Ok tt, a') ∧
     apic_writes a' = apic_writes a ++ [(reg a TIMER_DIVIDE_CONFIG, 3); (reg a TIMER_LVT, 0x20020); (reg a TIMER_INITIAL_COUNT, count)] ∧
     count * hz ≤ f < (count + 1) * hz ∧ (count = 0 ↔ f < hz)).
Proof.
  intros f. split; [|split].
  - intros ->. done.
  - intros Hz Hf0. unfold init_timer. rewrite (proj2 (Z.eqb_neq _ _) Hz). unfold mbind, M_bind, gets. fold f. by rewrite Hf0.
  - intros Hz Hf0. exists (f / hz). eexists. split; [by apply init_timer_run|]. split; [cbn; by rewrite <-!app_assoc|].
    pose proof (Z.div_mod f hz Hz). pose proof (Z.mod_pos_bound f hz ltac:(lia)). split; [nia|]. rewrite Z.div_small_iff by done. lia.
Qed.

(** ** A concrete machine: an HPET of 10 ns, an APIC at the default address *)
Definition demo_counter (n : nat) : Z := wrap 64 (2 ^ 64 - 5 + 3 * Z.of_nat n).
Definition demo_hpet : hpet := mkHpet true 0xFFFF8000FED00000 100000000 10000000 (2 ^ 64 - 20) (mkDev 0xFFFF8000FED00000 (10000000 * 2 ^ 32) 1 demo_counter 0).
Lemma demo_hpet_ready : hpet_ready demo_hpet.
Proof. split; cbn; lia. Qed.
Lemma demo_ticking : ticking demo_hpet (λ n, 2 ^ 64 - 5 + 3 * Z.of_nat n) 3.
Proof. split; [done|]. intros n. lia. Qed.

Lemma hpet_elapsed_exact_witness : elapsed_ns demo_hpet = Some (150, next_read demo_hpet).
Proof.
  destruct (hpet_elapsed_exact demo_hpet demo_hpet_ready ltac:(cbn; lia)) as [H _]. rewrite H.
  replace (wrapping_sub 64 (now demo_hpet) (HPET_START_COUNTER demo_hpet) * HPET_PERIOD_FS demo_hpet / 1000000) with 150 by (vm_compute; reflexivity).
  reflexivity.
Defined.

Lemma hpet_delay_correct_witness : (∃ k, hpet_delay_ns 1000 500 demo_hpet = Some (tt, read_n (2 + k) demo_hpet)) ∧
  delay_ms (TimerDevice := Hpet_TimerDevice 1000) (2 ^ 30) demo_hpet = None.
Proof.
  split.
  - destruct (hpet_delay_correct demo_hpet _ 3 1000 500 demo_hpet_ready ltac:(cbn; lia) demo_ticking ltac:(lia) ltac:(lia)) as [H _].
    destruct H as (k & w & H & _); [vm_compute; reflexivity|vm_compute; discriminate|vm_compute; reflexivity|]. exists k. exact H.
  - apply (hpet_delay_correct demo_hpet _ 3 1000 (2 ^ 30) demo_hpet_ready ltac:(cbn; lia) demo_ticking ltac:(lia) ltac:(lia)). lia.
Defined.

Definition demo_hpet_sys : hpet_sys :=
  mkHpetSys (paging_boot 0x9000 2) (mkHpet false 0 0 0 0 (mkDev 0xFFFF8000FED00000 (10000000 * 2 ^ 32) 0 demo_counter 0)).
Lemma demo_map_mmio : fst <$> map_mmio 0xFED00000 PAGE_SIZE (hs_paging demo_hpet_sys) = Some (Ok 0xFFFF8000FED00000).
Proof. vm_compute. reflexivity. Qed.
Lemma hpet_init_correct_witness : ∃ s', hpet_init 0xFED00000 demo_hpet_sys = Some (Ok tt, s').
Proof.
  pose proof (hpet_init_correct demo_hpet_sys 0xFED00000) as H. pose proof demo_map_mmio as Hm.
  destruct (map_mmio 0xFED00000 PAGE_SIZE (hs_paging demo_hpet_sys)) as [[[v|e] p']|]; [|discriminate Hm|discriminate Hm].
  injection Hm as ->. destruct H as (h' & H & _).
  - intros v p [= <- <-]. cbn. lia.
  - cbn. lia.
  - intros n. cbn. apply Z.mod_pos_bound. lia.
  - exists (mkHpetSys p' h'). exact H.
Defined.

Definition demo_pit : pit := mkPit [] (λ _, 0) 0.
Lemma pit_waits_end_witness : (∃ p', pit_sleep_ms 2 demo_pit = Some (tt, p')) ∧ ∃ p', udelay 100 demo_pit = Some (tt, p').
Proof.
  destruct (pit_waits_end demo_pit 2 100 ltac:(lia)) as [(polls & _ & _ & H1) (k & count & _ & H2 & _)].
  split; eexists; [exact H1|exact H2].
Defined.

Definition demo_apic : apic := set_mapped true (apic_boot 0xFEE00900 (λ i, if (i <? 5)%nat then 0xFFFFFFFF - 3000000 - Z.of_nat i else 0)).
Lemma demo_apic_on : apic_on demo_apic.
Proof. split; [done|]. vm_compute. split; [discriminate|discriminate]. Qed.
Definition demo_apic_sys : apic_sys := mkApicSys (paging_boot 0x9000 2) (hs_hpet demo_hpet_sys) demo_pit demo_apic.
Lemma demo_counts i : 0 ≤ current_counts (as_apic demo_apic_sys) i < 2 ^ 32.
Proof.
  change (current_counts (as_apic demo_apic_sys) i) with (if (i <? 5)%nat then 0xFFFFFFFF - 3000000 - Z.of_nat i else 0).
  destruct (Nat.ltb_spec i 5); lia.
Qed.
Lemma demo_ticks m : m ∈ ticks (as_apic demo_apic_sys) 0 5 → m = 3000000 ∨ m = 3000001 ∨ m = 3000002 ∨ m = 3000003 ∨ m = 3000004.
Proof.
  assert (He : ticks (as_apic demo_apic_sys) 0 5 = [3000000; 3000001; 3000002; 3000003; 3000004]) by reflexivity. rewrite He, !elem_of_cons, elem_of_nil. lia.
Qed.
Definition demo_apic_sys' : apic_sys := mkApicSys (paging_boot 0x9000 2) (hs_hpet demo_hpet_sys) demo_pit (set_mapped true (apic_boot 0 (λ i, if (i =? 3)%nat then 0 else 0xFFFFFFFF))).
Lemma calibrate_pit_median_witness : (∃ s', calibrate_timer 0 demo_apic_sys = Some (Ok tt, s')) ∧ calibrate_timer 0 demo_apic_sys' = None.
Proof.
  split.
  - destruct (calibrate_pit_median demo_apic_sys 0 eq_refl demo_apic_on) as [H _].
    + apply demo_counts.
    + destruct H as (med & s' & Hin & _ & _ & H & _).
      * intros m Hm. apply demo_ticks in Hm. lia.
      * exists s'. apply demo_ticks in Hin. rewrite (proj2 (Z.eqb_neq med 0)) in H by lia. exact H.
  - apply (calibrate_pit_median demo_apic_sys' 0 eq_refl).
    + split; [done|]. vm_compute. split; [discriminate|discriminate].
    + intros i. cbn. destruct (_ =? _)%nat; lia.
    + exists 0xFFFFFFFF. split; [|lia]. vm_compute. set_solver.
Defined.

Lemma init_timer_correct_witness : ∃ count a', init_timer 250 (set_frequency 60000000 demo_apic) = Some (Ok tt, a') ∧ count = 240000.
Proof.
  destruct (init_timer_correct (set_frequency 60000000 demo_apic) 250 demo_apic_on ltac:(lia) ltac:(cbn; lia)) as (_ & _ & H).
  destruct H as (count & a' & H & _ & Hc & _); [lia|cbn; lia|]. exists count, a'. split; [exact H|]. cbn in Hc. lia.
Defined.
