(* ===== verification/Pci.v ===== *)
(** * PCI configuration space ([kernel/src/pci.rs]).

    The hardware is the 32-bit configuration registers of every function, named
    by their offset in the 256 MiB configuration window: 4 KiB per function.
    Both access mechanisms decode to that name: the memory window (MMCONFIG) by
    its address, the legacy ports by the latched CONFIG_ADDRESS.  What a register
    keeps of a value written to it is the function's own affair ([keeps]). *)
From S2P Require Import Prelude Addr.
Set Default Goal Selector "!".

Definition CONFIG_ADDRESS : Z := 0xCF8.
Definition CONFIG_DATA : Z := 0xCFC.
Definition PCI_STATUS : Z := 0x06.
Definition PCI_STATUS_CAP_LIST : Z := 0x10.
Definition PCI_CAP_POINTER : Z := 0x34.
Definition CAP_MSI : Z := 0x05.
Definition CAP_MSIX : Z := 0x11.

Record pci := mkPci {
  MMCONFIG_BASE : Z; MMCONFIG_START_BUS : Z; MMCONFIG_END_BUS : Z;
  config_address : Z; ecam : Z; registers : Z → Z; keeps : Z → Z → Z → Z; config_log : list (Z * Z) }.
Definition set_mm (base start_bus end_bus : Z) (p : pci) : pci :=
  mkPci base start_bus end_bus (config_address p) (ecam p) (registers p) (keeps p) (config_log p).
Definition latch (a : Z) (p : pci) : pci :=
  mkPci (MMCONFIG_BASE p) (MMCONFIG_START_BUS p) (MMCONFIG_END_BUS p) a (ecam p) (registers p) (keeps p) (config_log p).
(** A write to register [k], which is logged. *)
Definition store (k v : Z) (p : pci) : pci :=
  mkPci (MMCONFIG_BASE p) (MMCONFIG_START_BUS p) (MMCONFIG_END_BUS p) (config_address p) (ecam p)
    (<[k := keeps p k (registers p k) v]> (registers p)) (keeps p) (config_log p ++ [(k, v)]).

(** ** The hardware's decoding *)
Definition port_decode (a : Z) : option Z :=
  if Z.testbit a 31 then
    Some (Z.shiftl (Z.land (Z.shiftr a 16) 0xFF) 20 + Z.shiftl (Z.land (Z.shiftr a 11) 31) 15 +
          Z.shiftl (Z.land (Z.shiftr a 8) 7) 12 + Z.land a 0xFC)
  else None.
Definition outl (port value : Z) : M pci unit :=
  p ← gets id;
  if port =? CONFIG_ADDRESS then modify (latch value)
  else if port =? CONFIG_DATA then match port_decode (config_address p) with Some k => modify (store k value) | None => mret tt end
  else panic.
Definition inl (port : Z) : M pci Z :=
  p ← gets id;
  if port =? CONFIG_DATA then mret (match port_decode (config_address p) with Some k => registers p k | None => 0xFFFFFFFF end) else panic.
(** A 4-byte volatile access must be aligned and inside the window. *)
Definition window_decode (virt_addr : Z) : M pci Z :=
  p ← gets id;
  let k := virt_addr - KERNEL_VIRTUAL_BASE - ecam p in
  if (0 <=? k) && (k <? 2 ^ 28) && (k mod 4 =? 0) then mret k else panic.
Definition pci_read_volatile (virt_addr : Z) : M pci Z := k ← window_decode virt_addr; gets (λ p, registers p k).
Definition pci_write_volatile (virt_addr value : Z) : M pci unit := k ← window_decode virt_addr; modify (store k value).

(** ** The two mechanisms *)
Definition legacy_address (bus device function offset : Z) : Z :=
  Z.lor (Z.lor (Z.lor (Z.lor (Z.shiftl 1 31) (Z.shiftl bus 16)) (Z.shiftl device 11)) (Z.shiftl function 8)) (Z.land offset 0xFC).
Definition pci_config_read_u32 (bus device function offset : Z) : M pci Z :=
  outl CONFIG_ADDRESS (legacy_address bus device function offset) ;; inl CONFIG_DATA.
Definition pci_config_write_u32 (bus device function offset value : Z) : M pci unit :=
  outl CONFIG_ADDRESS (legacy_address bus device function offset) ;; outl CONFIG_DATA value.

Definition set_mmconfig (base_address segment start_bus end_bus : Z) : M pci unit :=
  if negb (segment =? 0) then mret tt else modify (set_mm base_address start_bus end_bus).
Definition is_mmconfig_available (bus : Z) : M pci bool :=
  p ← gets id;
  if MMCONFIG_BASE p =? 0 then mret false else
  mret ((wrap 8 (MMCONFIG_START_BUS p) <=? bus) && (bus <=? wrap 8 (MMCONFIG_END_BUS p))).
Definition mmconfig_address (bus device function offset : Z) : M pci Z :=
  base ← gets MMCONFIG_BASE;
  a ← lift (cadd 64 base (Z.shiftl bus 20)); a ← lift (cadd 64 a (Z.shiftl device 15));
  a ← lift (cadd 64 a (Z.shiftl function 12)); phys_addr ← lift (cadd 64 a offset);
  lift (cadd 64 KERNEL_VIRTUAL_BASE phys_addr).
Definition mmconfig_read_u32 (bus device function offset : Z) : M pci Z :=
  virt_addr ← mmconfig_address bus device function offset; pci_read_volatile virt_addr.
Definition mmconfig_write_u32 (bus device function offset value : Z) : M pci unit :=
  virt_addr ← mmconfig_address bus device function offset; pci_write_volatile virt_addr value.

(** ** The trait, with its provided methods *)
Class PciConfigAccess := {
  read_u32 : Z → Z → Z → Z → M pci Z;
  write_u32 : Z → Z → Z → Z → Z → M pci unit }.
Section access.
Context `{PciConfigAccess}.
Definition read_u16 (bus device function offset : Z) : M pci Z :=
  data ← read_u32 bus device function (Z.land offset 0xFFFC);
  mret (Z.land (Z.shiftr data (Z.land offset 0x02 * 8)) 0xFFFF).
Definition read_u8 (bus device function offset : Z) : M pci Z :=
  data ← read_u32 bus device function (Z.land offset 0xFFFC);
  mret (Z.land (Z.shiftr data (Z.land offset 0x03 * 8)) 0xFF).
Definition write_u16 (bus device function offset value : Z) : M pci unit :=
  let aligned := Z.land offset 0xFFFC in
  let shift := Z.land offset 0x02 * 8 in
  current ← read_u32 bus device function aligned;
  let new_val := Z.lor (Z.land current (bnot 32 (Z.shiftl 0xFFFF shift))) (Z.shiftl value shift) in
  write_u32 bus device function aligned new_val.
Definition write_u8 (bus device function offset value : Z) : M pci unit :=
  let aligned := Z.land offset 0xFFFC in
  let shift := Z.land offset 0x03 * 8 in
  current ← read_u32 bus device function aligned;
  let new_val := Z.lor (Z.land current (bnot 32 (Z.shiftl 0xFF shift))) (Z.shiftl value shift) in
  write_u32 bus device function aligned new_val.
End access.

#[export] Instance UnifiedPciConfig : PciConfigAccess := {|
  read_u32 bus device function offset :=
    available ← is_mmconfig_available bus;
    if available : bool then mmconfig_read_u32 bus device function offset
    else pci_config_read_u32 bus device function (wrap 8 offset);
  write_u32 bus device function offset value :=
    available ← is_mmconfig_available bus;
    if available : bool then mmconfig_write_u32 bus device function offset value
    else pci_config_write_u32 bus device function (wrap 8 offset) value |}.
Definition LegacyPciConfig : PciConfigAccess := {|
  read_u32 bus device function offset :=
    if 256 <=? offset then mret 0xFFFFFFFF else pci_config_read_u32 bus device function (wrap 8 offset);
  write_u32 bus device function offset value :=
    if 256 <=? offset then mret tt else pci_config_write_u32 bus device function (wrap 8 offset) value |}.

(** ** Functions of a device *)
Record PciDevice := mkDevice {
  dbus : Z; ddevice : Z; dfunction : Z; vendor_id : Z; device_id : Z; class_code : Z; subclass : Z; prog_if : Z; revision : Z; header_type : Z }.
Record BarInfo := mkBar { base_address : Z; is_memory : bool; is_64bit : bool; prefetchable : bool }.

Definition PciDevice_read (bus device function : Z) : M pci (option PciDevice) :=
  vendor_id ← read_u16 bus device function 0x00;
  if vendor_id =? 0xFFFF then mret None else
  device_id ← read_u16 bus device function 0x02;
  revision ← read_u8 bus device function 0x08;
  prog_if ← read_u8 bus device function 0x09;
  subclass ← read_u8 bus device function 0x0A;
  class_code ← read_u8 bus device function 0x0B;
  header_type ← read_u8 bus device function 0x0E;
  mret (Some (mkDevice bus device function vendor_id device_id class_code subclass prog_if revision header_type)).

(** The loop of [find_capability], with the rounds left. *)
Fixpoint walk_capabilities (rounds : nat) (d : PciDevice) (cap_id cap_ptr : Z) : M pci (option Z) :=
  match rounds with
  | O => mret None
  | S rounds =>
      if cap_ptr =? 0 then mret None else
      cap_header ← read_u16 (dbus d) (ddevice d) (dfunction d) cap_ptr;
      let current_id := Z.land cap_header 0xFF in
      let next_ptr := Z.land (Z.shiftr cap_header 8) 0xFC in
      if current_id =? cap_id then mret (Some cap_ptr) else walk_capabilities rounds d cap_id next_ptr
  end.
Definition find_capability (d : PciDevice) (cap_id : Z) : M pci (option Z) :=
  status ← read_u16 (dbus d) (ddevice d) (dfunction d) PCI_STATUS;
  if Z.land status PCI_STATUS_CAP_LIST =? 0 then mret None else
  ptr ← read_u8 (dbus d) (ddevice d) (dfunction d) PCI_CAP_POINTER;
  walk_capabilities 48 d cap_id (Z.land ptr 0xFC).
Definition supports_msi (d : PciDevice) : M pci bool := c ← find_capability d CAP_MSI; mret (bool_decide (is_Some c)).
Definition supports_msix (d : PciDevice) : M pci bool := c ← find_capability d CAP_MSIX; mret (bool_decide (is_Some c)).

Definition read_bar (d : PciDevice) (bar_index : Z) : M pci (option BarInfo) :=
  if 5 <? bar_index then mret None else
  let bar_offset := 0x10 + bar_index * 4 in
  bar_value ← read_u32 (dbus d) (ddevice d) (dfunction d) bar_offset;
  if bar_value =? 0 then mret None else
  if Z.land bar_value 0x01 =? 0 then
    let bar_type := Z.land (Z.shiftr bar_value 1) 0x03 in
    let is_64bit := bar_type =? 0x02 in
    let prefetchable := negb (Z.land bar_value 0x08 =? 0) in
    if is_64bit then
      if 4 <? bar_index then mret None else
      bar_upper ← read_u32 (dbus d) (ddevice d) (dfunction d) (bar_offset + 4);
      let low := Z.land bar_value 0xFFFFFFF0 in
      let high := Z.shiftl bar_upper 32 in
      mret (Some (mkBar (Z.lor high low) true true prefetchable))
    else mret (Some (mkBar (Z.land bar_value 0xFFFFFFF0) true false prefetchable))
  else mret (Some (mkBar (Z.land bar_value 0xFFFFFFFC) false false false)).

(** ** The scan: the functions it prints, in order; their number is the count. *)
Record scan := mkScan { sc_pci : pci; printed : list PciDevice }.
Definition on_pci {A} (m : M pci A) : M scan A := zoom sc_pci (λ p s, mkScan p (printed s)) m.
Definition print_device (d : PciDevice) : M scan unit := modify (λ s, mkScan (sc_pci s) (printed s ++ [d])).
Definition scan_functions (bus device : Z) : M scan unit :=
  for_each (seqZ 1 7) (λ function,
    f ← on_pci (PciDevice_read bus device function);
    match f with Some func_dev => print_device func_dev | None => mret tt end).
Definition scan_device (bus device : Z) : M scan unit :=
  d ← on_pci (PciDevice_read bus device 0);
  match d with
  | Some pci_dev =>
      print_device pci_dev ;;
      let is_multi_function := negb (Z.land (header_type pci_dev) 0x80 =? 0) in
      if is_multi_function then scan_functions bus device else mret tt
  | None => mret tt
  end.
Definition scan_pci_bus : M scan unit :=
  for_each (seqZ 0 256) (λ bus, for_each (seqZ 0 32) (λ device, scan_device bus device)).
