(* ===== verification/PciThms.v ===== *)
(** * Configuration space accesses: lemmas.

    Every access of the code is stated on the registers by name, so that the
    client lemmas do not depend on the mechanism that was used. *)
From S2P Require Import Prelude Addr Pci.
Set Default Goal Selector "!".

(** The register of a function at an offset. *)
Definition pkey (bus device function offset : Z) : Z := bus * 2 ^ 20 + device * 2 ^ 15 + function * 2 ^ 12 + offset.
(** A function's address. *)
Definition bdf_ok (bus device function : Z) : Prop := 0 ≤ bus < 256 ∧ 0 ≤ device < 32 ∧ 0 ≤ function < 8.

Record pci_ok (p : pci) : Prop := {
  pk_regs : ∀ k, 0 ≤ registers p k < 2 ^ 32;
  pk_keeps : ∀ k old new, 0 ≤ new < 2 ^ 32 → 0 ≤ keeps p k old new < 2 ^ 32;
  pk_ecam : 0 ≤ ecam p ∧ (ecam p) mod 4 = 0 ∧ KERNEL_VIRTUAL_BASE + ecam p + 2 ^ 28 ≤ 2 ^ 64;
  pk_base : MMCONFIG_BASE p = 0 ∨ MMCONFIG_BASE p = ecam p;
}.

(** Equal but for the latched address: what reads change. *)
Definition same (p p' : pci) : Prop := ∃ a, p' = latch a p.
#[export] Instance same_equiv : Equivalence same.
Proof.
  split.
  - intros p. exists (config_address p). by destruct p.
  - intros p p' [a ->]. exists (config_address p). by destruct p.
  - intros p p1 p2 [a ->] [b ->]. by exists b.
Qed.
Lemma same_regs p p' : same p p' → registers p' = registers p.
Proof. by intros [a ->]. Qed.
Lemma same_ok p p' : same p p' → pci_ok p → pci_ok p'.
Proof. intros [a ->] [? ? ? ?]. by split. Qed.
Lemma same_store p p' k v : same p p' → same (store k v p) (store k v p').
Proof. intros [a ->]. by exists a. Qed.
Lemma store_ok k v p : 0 ≤ v < 2 ^ 32 → pci_ok p → pci_ok (store k v p).
Proof.
  intros Hv [Hr Hk He Hb]. split; try done. intros j. cbn. destruct (decide (k = j)) as [->|Hne].
  - rewrite fn_lookup_insert. by apply Hk.
  - rewrite fn_lookup_insert_ne by done. apply Hr.
Qed.

(** ** Bit fields as quotients *)
Lemma lor_low y x n : 0 ≤ n → 0 ≤ x < 2 ^ n → Z.lor (y * 2 ^ n) x = y * 2 ^ n + x.
Proof.
  intros Hn Hx. assert (H0 : Z.land (y * 2 ^ n) x = 0).
  { apply Z.bits_inj'. intros i Hi. rewrite Z.land_spec, testbit_pow2_mul, Z.bits_0 by done. destruct (Z.ltb_spec i n); [done|].
    rewrite <-(Z.mod_small x (2 ^ n)) by done. rewrite Z.mod_pow2_bits_high by lia. apply andb_false_r. }
  rewrite <-Z.lxor_lor by done. by rewrite <-Z.add_nocarry_lxor.
Qed.
Lemma land_mask_mid x n m : 0 ≤ n ≤ m → Z.land x (Z.ones m - Z.ones n) = x mod 2 ^ m / 2 ^ n * 2 ^ n.
Proof.
  intros Hn. assert (Hm : Z.ones m - Z.ones n = Z.ones (m - n) * 2 ^ n).
  { rewrite !Z.ones_equiv. unfold Z.pred. rewrite Z.mul_add_distr_r, <-Z.pow_add_r by lia. replace (m - n + n) with m by lia. lia. }
  rewrite Hm. apply Z.bits_inj'. intros i Hi. rewrite Z.land_spec, !testbit_pow2_mul by lia. destruct (Z.ltb_spec i n); [apply andb_false_r|].
  rewrite Z.div_pow2_bits by lia. replace (i - n + n) with i by lia. destruct (Z.ltb_spec i m).
  - rewrite Z.ones_spec_low, Z.mod_pow2_bits_low by lia. apply andb_true_r.
  - rewrite Z.ones_spec_high, Z.mod_pow2_bits_high by lia. apply andb_false_r.
Qed.
Lemma land_fc x : Z.land x 0xFC = x mod 256 / 4 * 4.
Proof. exact (land_mask_mid x 2 8 ltac:(lia)). Qed.
Lemma land_fffc x : 0 ≤ x < 2 ^ 16 → Z.land x 0xFFFC = x / 4 * 4.
Proof. intros Hx. pose proof (land_mask_mid x 2 16 ltac:(lia)) as H. rewrite Z.mod_small in H by lia. exact H. Qed.

Lemma legacy_decode bus device function offset : bdf_ok bus device function → 0 ≤ offset < 256 →
  port_decode (legacy_address bus device function offset) = Some (pkey bus device function (offset / 4 * 4)).
Proof.
  intros (Hb & Hd & Hf) Ho. assert (Ha : legacy_address bus device function offset = 2 ^ 31 + bus * 2 ^ 16 + device * 2 ^ 11 + function * 2 ^ 8 + offset / 4 * 4).
  { unfold legacy_address. rewrite !Z.shiftl_mul_pow2, land_fc, (Z.mod_small offset) by lia.
    rewrite (lor_low 1 _ 31) by lia.
    replace (1 * 2 ^ 31 + bus * 2 ^ 16) with ((2 ^ 15 + bus) * 2 ^ 16) by lia. rewrite (lor_low _ _ 16) by lia.
    replace ((2 ^ 15 + bus) * 2 ^ 16 + device * 2 ^ 11) with ((2 ^ 20 + bus * 32 + device) * 2 ^ 11) by lia. rewrite (lor_low _ _ 11) by lia.
    replace ((2 ^ 20 + bus * 32 + device) * 2 ^ 11 + function * 2 ^ 8) with ((2 ^ 23 + bus * 2 ^ 8 + device * 8 + function) * 2 ^ 8) by lia.
    rewrite (lor_low _ _ 8) by dlia. lia. }
  unfold port_decode. rewrite Ha. set (o := offset / 4) in *. assert (0 ≤ o < 64) by (unfold o; dlia).
  set (x := 2 ^ 31 + bus * 2 ^ 16 + device * 2 ^ 11 + function * 2 ^ 8 + o * 4) in *.
  assert (H31 : x / 2 ^ 31 = 1) by (symmetry; apply Z.div_unique with (r := x - 2 ^ 31); unfold x; lia).
  assert (H16 : x / 2 ^ 16 = 2 ^ 15 + bus) by (symmetry; apply Z.div_unique with (r := x - (2 ^ 15 + bus) * 2 ^ 16); unfold x; lia).
  assert (H11 : x / 2 ^ 11 = 2 ^ 20 + bus * 32 + device)
    by (symmetry; apply Z.div_unique with (r := x - (2 ^ 20 + bus * 32 + device) * 2 ^ 11); unfold x; lia).
  assert (H8 : x / 2 ^ 8 = 2 ^ 23 + bus * 2 ^ 8 + device * 8 + function)
    by (symmetry; apply Z.div_unique with (r := x - (2 ^ 23 + bus * 2 ^ 8 + device * 8 + function) * 2 ^ 8); unfold x; lia).
  rewrite Z.testbit_eqb, H31 by lia. cbn [Z.eqb]. rewrite (proj2 (Z.eqb_eq _ _)) by done. f_equal.
  rewrite !Z.shiftl_mul_pow2, !Z.shiftr_div_pow2, land_fc, H16, H11, H8 by lia.
  change 0xFF with (Z.ones 8). change (Z.land (2 ^ 20 + bus * 32 + device) 31) with (Z.land (2 ^ 20 + bus * 32 + device) (Z.ones 5)).
  change 7 with (Z.ones 3). rewrite !Z.land_ones by lia.
  assert (Hb' : (2 ^ 15 + bus) mod 2 ^ 8 = bus) by (symmetry; apply Z.mod_unique with (q := 2 ^ 7); lia).
  assert (Hd' : (2 ^ 20 + bus * 32 + device) mod 2 ^ 5 = device) by (symmetry; apply Z.mod_unique with (q := 2 ^ 15 + bus); lia).
  assert (Hf' : (2 ^ 23 + bus * 2 ^ 8 + device * 8 + function) mod 2 ^ 3 = function)
    by (symmetry; apply Z.mod_unique with (q := 2 ^ 20 + bus * 32 + device); lia).
  assert (Ho' : x mod 256 = o * 4).
  { symmetry. apply Z.mod_unique with (q := 2 ^ 23 + bus * 2 ^ 8 + device * 8 + function); unfold x; lia. }
  rewrite Hb', Hd', Hf', Ho', Z.div_mul by lia. reflexivity.
Qed.

(** ** Reading and writing registers *)
Section access.
Implicit Types p : pci.

Lemma is_available_run bus p : is_mmconfig_available bus p =
  Some (negb (MMCONFIG_BASE p =? 0) && ((wrap 8 (MMCONFIG_START_BUS p) <=? bus) && (bus <=? wrap 8 (MMCONFIG_END_BUS p))), p).
Proof. unfold is_mmconfig_available, mbind, M_bind, gets, id. by destruct (MMCONFIG_BASE p =? 0). Qed.
Lemma mmconfig_address_run bus device function offset p : pci_ok p → MMCONFIG_BASE p = ecam p → bdf_ok bus device function → 0 ≤ offset < 4096 →
  mmconfig_address bus device function offset p = Some (KERNEL_VIRTUAL_BASE + ecam p + pkey bus device function offset, p).
Proof.
  intros [_ _ (He & _ & Hfit) _] Hbase (Hb & Hd & Hf) Ho. unfold mmconfig_address, mbind, M_bind, gets, lift. rewrite Hbase.
  rewrite !Z.shiftl_mul_pow2 by lia. unfold KERNEL_VIRTUAL_BASE in *. rewrite !cadd_some by lia. unfold pkey. f_equal. f_equal. lia.
Qed.
Lemma window_decode_run k p : pci_ok p → 0 ≤ k < 2 ^ 28 → k mod 4 = 0 → window_decode (KERNEL_VIRTUAL_BASE + ecam p + k) p = Some (k, p).
Proof.
  intros _ Hk Hal. unfold window_decode, mbind, M_bind, gets, id. replace (_ + _ + k - _ - _) with k by lia.
  rewrite (proj2 (Z.leb_le _ _)), (proj2 (Z.ltb_lt _ _)), (proj2 (Z.eqb_eq _ _)) by lia. done.
Qed.
Lemma pkey_range bus device function offset : bdf_ok bus device function → 0 ≤ offset < 4096 → offset mod 4 = 0 →
  0 ≤ pkey bus device function offset < 2 ^ 28 ∧ pkey bus device function offset mod 4 = 0.
Proof. intros (Hb & Hd & Hf) Ho Hal. unfold pkey. dlia. Qed.

(** An access reaches its register by either mechanism. *)
Lemma wp_read_u32 bus device function offset Q p : pci_ok p → bdf_ok bus device function → 0 ≤ offset < 256 → offset mod 4 = 0 →
  (∀ p', same p p' → Q (registers p (pkey bus device function offset)) p') → wp (read_u32 bus device function offset) Q p.
Proof.
  intros Hok Hbdf Ho Hal HQ. cbn [read_u32 UnifiedPciConfig]. unfold wp, mbind at 1, M_bind. rewrite is_available_run.
  destruct (Z.eqb_spec (MMCONFIG_BASE p) 0) as [Hz|Hnz]; [|destruct (_ && _)]; cbn [negb andb].
  2: { pose proof (pkey_range bus device function offset Hbdf ltac:(lia) Hal) as [Hr Hm]. destruct (pk_base _ Hok) as [?|Hbase]; [done|].
       unfold mmconfig_read_u32, pci_read_volatile, mbind, M_bind, gets. rewrite mmconfig_address_run by (done || lia).
       rewrite window_decode_run by done. by apply HQ. }
  all: unfold pci_config_read_u32, outl, inl, CONFIG_ADDRESS, CONFIG_DATA, mbind, M_bind, gets, modify, id; cbn [Z.eqb Pos.eqb config_address latch registers];
    unfold wrap; rewrite (Z.mod_small offset) by lia; rewrite legacy_decode by (done || lia);
    replace (offset / 4 * 4) with offset by dlia; apply HQ; by eexists.
Qed.
Lemma wp_write_u32 bus device function offset v Q p : pci_ok p → bdf_ok bus device function → 0 ≤ offset < 256 → offset mod 4 = 0 →
  (∀ p', same (store (pkey bus device function offset) v p) p' → Q tt p') → wp (write_u32 bus device function offset v) Q p.
Proof.
  intros Hok Hbdf Ho Hal HQ. cbn [write_u32 UnifiedPciConfig]. unfold wp, mbind at 1, M_bind. rewrite is_available_run.
  destruct (Z.eqb_spec (MMCONFIG_BASE p) 0) as [Hz|Hnz]; [|destruct (_ && _)]; cbn [negb andb].
  2: { pose proof (pkey_range bus device function offset Hbdf ltac:(lia) Hal) as [Hr Hm]. destruct (pk_base _ Hok) as [?|Hbase]; [done|].
       unfold mmconfig_write_u32, pci_write_volatile, mbind, M_bind, gets. rewrite mmconfig_address_run by (done || lia).
       rewrite window_decode_run by done. by apply HQ. }
  all: unfold pci_config_write_u32, outl, CONFIG_ADDRESS, CONFIG_DATA, mbind, M_bind, gets, modify, id; cbn [Z.eqb Pos.eqb config_address latch];
    unfold wrap; rewrite (Z.mod_small offset) by lia; rewrite legacy_decode by (done || lia);
    replace (offset / 4 * 4) with offset by dlia; apply HQ; by eexists.
Qed.
End access.

(** ** Fields of registers *)
Definition field (p : pci) (bus device function offset n : Z) : Z :=
  registers p (pkey bus device function (offset / 4 * 4)) / 2 ^ (8 * (offset mod 4)) mod 2 ^ n.
(** Register [cur] with 16 bits from bit [s] on replaced by [v]. *)
Definition replace16 (cur s v : Z) : Z := cur - cur / 2 ^ s mod 2 ^ 16 * 2 ^ s + v * 2 ^ s.

Section fields.
Implicit Types p : pci.

Lemma same_field p p' bus device function offset n : same p p' → field p' bus device function offset n = field p bus device function offset n.
Proof. intros Hs. unfold field. by rewrite (same_regs _ _ Hs). Qed.
Lemma field_range p bus device function offset n : 0 ≤ n → 0 ≤ field p bus device function offset n < 2 ^ n.
Proof. intros Hn. apply Z.mod_pos_bound. lia. Qed.

Lemma wp_read_u16 bus device function offset Q p : pci_ok p → bdf_ok bus device function → 0 ≤ offset < 256 → offset mod 2 = 0 →
  (∀ p', same p p' → Q (field p bus device function offset 16) p') → wp (read_u16 bus device function offset) Q p.
Proof.
  intros Hok Hbdf Ho Hal HQ. unfold read_u16. wp_step. rewrite land_fffc by lia. apply wp_read_u32; [done|done|dlia|dlia|].
  intros p' Hs. wp_step. change (Z.land offset 2) with (Z.land offset (Z.ones 2 - Z.ones 1)). rewrite land_mask_mid by lia.
  change 0xFFFF with (Z.ones 16). rewrite Z.land_ones, Z.shiftr_div_pow2 by dlia.
  replace (offset mod 2 ^ 2 / 2 ^ 1 * 2 ^ 1 * 8) with (8 * (offset mod 4)) by dlia. by apply HQ.
Qed.
Lemma wp_read_u8 bus device function offset Q p : pci_ok p → bdf_ok bus device function → 0 ≤ offset < 256 →
  (∀ p', same p p' → Q (field p bus device function offset 8) p') → wp (read_u8 bus device function offset) Q p.
Proof.
  intros Hok Hbdf Ho HQ. unfold read_u8. wp_step. rewrite land_fffc by lia. apply wp_read_u32; [done|done|dlia|dlia|].
  intros p' Hs. wp_step. change (Z.land offset 3) with (Z.land offset (Z.ones 2)). change 0xFF with (Z.ones 8).
  rewrite !Z.land_ones, Z.shiftr_div_pow2 by dlia. change (2 ^ 2) with 4. rewrite (Z.mul_comm (offset mod 4)). by apply HQ.
Qed.

Lemma replace16_bits cur s v : 0 ≤ cur < 2 ^ 32 → 0 ≤ v < 2 ^ 16 → s = 0 ∨ s = 16 →
  Z.lor (Z.land cur (bnot 32 (Z.shiftl 0xFFFF s))) (Z.shiftl v s) = replace16 cur s v ∧ 0 ≤ replace16 cur s v < 2 ^ 32.
Proof.
  intros Hc Hv [-> | ->]; unfold replace16.
  - rewrite !Z.shiftl_0_r. change 0xFFFF with (2 ^ 16 - 1). rewrite land_not_mask by lia. rewrite lor_low by lia. change (2 ^ 0) with 1. dlia.
  - change (bnot 32 (Z.shiftl 0xFFFF 16)) with (Z.ones 16). rewrite Z.land_ones, Z.shiftl_mul_pow2 by lia.
    rewrite Z.lor_comm, lor_low by dlia. dlia.
Qed.
Lemma wp_write_u16 bus device function offset v Q p : pci_ok p → bdf_ok bus device function → 0 ≤ offset < 256 → offset mod 2 = 0 → 0 ≤ v < 2 ^ 16 →
  (∀ p', same (store (pkey bus device function (offset / 4 * 4))
     (replace16 (registers p (pkey bus device function (offset / 4 * 4))) (8 * (offset mod 4)) v) p) p' → pci_ok p' → Q tt p') →
  wp (write_u16 bus device function offset v) Q p.
Proof.
  intros Hok Hbdf Ho Hal Hv HQ. unfold write_u16. rewrite land_fffc by lia.
  change (Z.land offset 2) with (Z.land offset (Z.ones 2 - Z.ones 1)). rewrite land_mask_mid by lia.
  replace (offset mod 2 ^ 2 / 2 ^ 1 * 2 ^ 1 * 8) with (8 * (offset mod 4)) by dlia. wp_step.
  apply wp_read_u32; [done|done|dlia|dlia|]. intros p1 Hs1.
  destruct (replace16_bits (registers p (pkey bus device function (offset / 4 * 4))) (8 * (offset mod 4)) v) as [-> Hr];
    [apply Hok|done|dlia|].
  apply wp_write_u32; [by apply (same_ok p)|done|dlia|dlia|]. intros p' Hs'.
  assert (Hs : same (store (pkey bus device function (offset / 4 * 4)) (replace16 (registers p (pkey bus device function (offset / 4 * 4))) (8 * (offset mod 4)) v) p) p')
    by (etransitivity; [by apply same_store|exact Hs']).
  apply HQ; [exact Hs|]. eapply same_ok; [exact Hs|]. by apply store_ok.
Qed.
End fields.

(** ** Capabilities *)
Section capabilities.
Context (p : pci) (d : PciDevice).
(** The identifier and the successor of the capability at an offset. *)
Definition cap_at (ptr : Z) : Z := field p (dbus d) (ddevice d) (dfunction d) ptr 16 mod 256.
Definition next_cap (ptr : Z) : Z := field p (dbus d) (ddevice d) (dfunction d) ptr 16 / 256 / 4 * 4.
Definition first_cap : Z := field p (dbus d) (ddevice d) (dfunction d) PCI_CAP_POINTER 8 / 4 * 4.
(** The offsets the walk visits, in at most [rounds] rounds. *)
Fixpoint cap_list (rounds : nat) (ptr : Z) : list Z :=
  match rounds with
  | O => []
  | S rounds => if ptr =? 0 then [] else ptr :: cap_list rounds (next_cap ptr)
  end.
Definition has_cap_list : Prop := Z.testbit (field p (dbus d) (ddevice d) (dfunction d) PCI_STATUS 16) 4 = true.
#[export] Instance has_cap_list_dec : Decision has_cap_list.
Proof. unfold has_cap_list. apply _. Defined.
(** The first of the visited capabilities with an identifier. *)
Definition first_with (id : Z) (l : list Z) : option Z := snd <$> list_find (λ ptr, cap_at ptr = id) l.

Lemma next_cap_range ptr : 0 ≤ next_cap ptr < 256 ∧ next_cap ptr mod 4 = 0.
Proof. unfold next_cap. pose proof (field_range p (dbus d) (ddevice d) (dfunction d) ptr 16 ltac:(lia)). dlia. Qed.
End capabilities.

Section walk.
Implicit Types (p : pci) (d : PciDevice).
Definition dev_ok d : Prop := bdf_ok (dbus d) (ddevice d) (dfunction d).

Lemma walk_spec rounds d id : ∀ ptr p p0 Q, pci_ok p → same p0 p → dev_ok d → 0 ≤ ptr < 256 → ptr mod 4 = 0 →
  (∀ p', same p0 p' → Q (first_with p0 d id (cap_list p0 d rounds ptr)) p') → wp (walk_capabilities rounds d id ptr) Q p.
Proof.
  induction rounds as [|rounds IH]; intros ptr p p0 Q Hok Hs Hd Hptr Hal HQ; cbn [walk_capabilities cap_list] in *; [wp_step; by apply HQ|].
  destruct (Z.eqb_spec ptr 0) as [->|Hnz]; [wp_step; by apply HQ|]. wp_step. apply wp_read_u16; [done|done|done|dlia|].
  intros p1 Hs1. rewrite (same_field _ _ _ _ _ _ _ Hs). pose proof (field_range p0 (dbus d) (ddevice d) (dfunction d) ptr 16 ltac:(lia)) as Hfr.
  set (hdr := field p0 _ _ _ ptr 16) in *. change 0xFF with (Z.ones 8). rewrite Z.land_ones, land_fc, Z.shiftr_div_pow2 by lia.
  rewrite (Z.mod_small (hdr / 2 ^ 8)) by dlia.
  unfold first_with in HQ. cbn [list_find] in HQ. destruct (Z.eqb_spec (hdr mod 2 ^ 8) id) as [He|Hne].
  - wp_step. rewrite decide_True in HQ by exact He. apply HQ. by rewrite Hs.
  - rewrite decide_False in HQ by exact Hne. eapply (IH _ p1 p0); [by apply (same_ok p)|by rewrite Hs|done|dlia|dlia|].
    intros p' Hs'. specialize (HQ p' Hs'). unfold first_with. change (hdr / 2 ^ 8 / 4 * 4) with (next_cap p0 d ptr). by destruct (list_find _ _) as [[? ?]|].
Qed.

Lemma find_capability_spec d id Q p : pci_ok p → dev_ok d →
  (∀ p', same p p' → (has_cap_list p d → Q (first_with p d id (cap_list p d 48 (first_cap p d))) p') ∧ (¬ has_cap_list p d → Q None p')) →
  wp (find_capability d id) Q p.
Proof.
  intros Hok Hd HQ. unfold find_capability. wp_step. apply wp_read_u16; [done|done|unfold PCI_STATUS; lia|done|]. intros p1 Hs1.
  assert (Hbit : (Z.land (field p (dbus d) (ddevice d) (dfunction d) PCI_STATUS 16) PCI_STATUS_CAP_LIST =? 0) = negb (Z.testbit (field p (dbus d) (ddevice d) (dfunction d) PCI_STATUS 16) 4)).
  { set (s := field _ _ _ _ PCI_STATUS 16). unfold PCI_STATUS_CAP_LIST. change 16 with (Z.ones 5 - Z.ones 4). rewrite land_mask_mid by lia.
    rewrite Z.testbit_eqb by lia. destruct (Z.eqb_spec (s / 2 ^ 4 mod 2) 1); cbn [negb]; [apply Z.eqb_neq|apply Z.eqb_eq]; dlia. }
  rewrite Hbit. destruct (Z.testbit _ 4) eqn:Ht; cbn [negb].
  - wp_step. apply wp_read_u8; [by apply (same_ok p)|done|unfold PCI_CAP_POINTER; lia|]. intros p2 Hs2. rewrite (same_field _ _ _ _ _ _ _ Hs1).
    pose proof (field_range p (dbus d) (ddevice d) (dfunction d) PCI_CAP_POINTER 8 ltac:(lia)) as Hfr.
    rewrite land_fc, Z.mod_small by done. fold (first_cap p d). apply (walk_spec _ _ _ _ p2 p); [by apply (same_ok p1), (same_ok p)|by rewrite Hs1|done| | |].
    + unfold first_cap. dlia.
    + unfold first_cap. dlia.
    + intros p' Hs'. by apply (HQ p').
  - wp_step. apply (HQ p1 Hs1). unfold has_cap_list. by rewrite Ht.
Qed.
End walk.
