(* ===== verification/PciProps.v ===== *)
(** * PCI configuration space: the theorems. *)
From S2P Require Import Prelude Addr Pci PciThms.
Set Default Goal Selector "!".

(** ** What is on the bus *)
Section bus.
Context (p : pci).
Definition present (b d f : Z) : bool := negb (field p b d f 0 16 =? 0xFFFF).
Definition dev_of (b d f : Z) : PciDevice :=
  mkDevice b d f (field p b d f 0 16) (field p b d f 2 16) (field p b d f 0xB 8) (field p b d f 0xA 8) (field p b d f 9 8) (field p b d f 8 8) (field p b d f 0xE 8).
Definition function_list (b d f : Z) : list PciDevice := if present b d f then [dev_of b d f] else [].
Definition slot_list (b d : Z) : list PciDevice :=
  if present b d 0 then
    dev_of b d 0 :: (if Z.testbit (field p b d 0 0xE 8) 7 then concat (function_list b d <$> seqZ 1 7) else [])
  else [].
Definition bus_list : list PciDevice := concat ((λ b, concat (slot_list b <$> seqZ 0 32)) <$> seqZ 0 256).
End bus.

(** ** Paths through the capability list *)
Definition cap_ptr (p : pci) (d : PciDevice) (k : nat) : Z := Nat.iter k (next_cap p d) (first_cap p d).
(** The list has a [k]th entry and it lies at [q]. *)
Definition entry (p : pci) (d : PciDevice) (k : nat) (q : Z) : Prop := cap_ptr p d k = q ∧ ∀ j, (j ≤ k)%nat → cap_ptr p d j ≠ 0.
Definition on_list (p : pci) (d : PciDevice) (q : Z) : Prop := ∃ k, entry p d k q.

Section capabilities.
Implicit Types (p : pci) (d : PciDevice).

Lemma cap_list_lookup p d n : ∀ ptr k q, cap_list p d n ptr !! k = Some q ↔
  (k < n)%nat ∧ Nat.iter k (next_cap p d) ptr = q ∧ ∀ j, (j ≤ k)%nat → Nat.iter j (next_cap p d) ptr ≠ 0.
Proof.
  induction n as [|n IH]; intros ptr k q; cbn [cap_list]; [split; [done|lia]|].
  destruct (Z.eqb_spec ptr 0) as [->|Hnz].
  - split; [done|]. intros (_ & _ & Hj). exfalso. by apply (Hj 0%nat); [lia|].
  - destruct k as [|k]; cbn [lookup list_lookup].
    + split; [intros [= <-]; split; [lia|]; split; [done|]; intros j Hj; by replace j with 0%nat by lia|]. by intros (_ & <- & _).
    + change (cap_list p d n (next_cap p d ptr) !! k = Some q ↔ (S k < S n)%nat ∧ Nat.iter (S k) (next_cap p d) ptr = q ∧ ∀ j, (j ≤ S k)%nat → Nat.iter j (next_cap p d) ptr ≠ 0).
      rewrite IH, Nat.iter_succ_r. split.
      * intros (Hk & Hq & Hj). split; [lia|]. split; [done|]. intros [|j] Hle; [done|]. rewrite Nat.iter_succ_r. apply Hj. lia.
      * intros (Hk & Hq & Hj). split; [lia|]. split; [done|]. intros j Hle. rewrite <-Nat.iter_succ_r. apply Hj. lia.
Qed.
Lemma cap_list_spec p d n ptr q : q ∈ cap_list p d n ptr ↔
  ∃ k, (k < n)%nat ∧ Nat.iter k (next_cap p d) ptr = q ∧ ∀ j, (j ≤ k)%nat → Nat.iter j (next_cap p d) ptr ≠ 0.
Proof. rewrite list_elem_of_lookup. by setoid_rewrite cap_list_lookup. Qed.

Lemma least_hop p d q k : cap_ptr p d k = q → ∃ m, (m ≤ k)%nat ∧ cap_ptr p d m = q ∧ ∀ j, (j < m)%nat → cap_ptr p d j ≠ q.
Proof.
  induction k as [k IH] using lt_wf_ind. intros Hk. destruct (decide (Exists (λ j, cap_ptr p d j = q) (seq 0 k))) as [He|Hn].
  - apply Exists_exists in He as (j & Hj%list_elem_of_In%elem_of_seq & Hq). destruct (IH j ltac:(lia) Hq) as (m & Hm & ? & ?). exists m. split; [lia|done].
  - exists k. split; [lia|]. split; [done|]. intros j Hj Hq. apply Hn, Exists_exists. exists j. split; [|done]. apply list_elem_of_In, elem_of_seq. lia.
Qed.

(** The shortest way to an offset visits no offset twice. *)
Lemma least_no_dup p d q m : cap_ptr p d m = q → (∀ j, (j < m)%nat → cap_ptr p d j ≠ q) → NoDup (cap_ptr p d <$> seq 0 (S m)).
Proof.
  intros Hm Hleast. assert (Hlt : ∀ i j, (i < j ≤ m)%nat → cap_ptr p d i ≠ cap_ptr p d j).
  { intros i j Hij He. apply (Hleast (m - j + i)%nat); [lia|]. rewrite <-Hm. unfold cap_ptr in *.
    rewrite Nat.iter_add, He, <-Nat.iter_add. f_equal. lia. }
  apply NoDup_alt. intros i j x. rewrite !list_lookup_fmap. intros Hi Hj.
  apply fmap_Some in Hi as (i' & Hi' & ->). apply fmap_Some in Hj as (j' & Hj' & He). apply lookup_seq in Hi' as [-> Hi'], Hj' as [-> Hj'].
  cbn in He. destruct (Nat.lt_trichotomy i j) as [Hl|[?|Hl]]; [|done|]; exfalso; eapply Hlt; [|exact He| |symmetry; exact He]; lia.
Qed.

(** Offsets from 0x40 on: 48 slots. *)
Lemma hops_bound p d q m : cap_ptr p d m = q → (∀ j, (j < m)%nat → cap_ptr p d j ≠ q) → (∀ j, (j ≤ m)%nat → 0x40 ≤ cap_ptr p d j) → (m < 48)%nat.
Proof.
  intros Hm Hleast Hslot. pose proof (least_no_dup p d q m Hm Hleast) as Hnd.
  assert (Hsub : cap_ptr p d <$> seq 0 (S m) ⊆+ (λ i, 0x40 + 4 * i) <$> seqZ 0 48).
  { apply NoDup_submseteq; [done|]. intros x (j & -> & Hj%elem_of_seq)%list_elem_of_fmap. pose proof (Hslot j ltac:(lia)) as Hlo.
    assert (Hr : 0 ≤ cap_ptr p d j < 256 ∧ cap_ptr p d j mod 4 = 0).
    { destruct j as [|j]; [|apply next_cap_range]. cbn. unfold first_cap.
      pose proof (field_range p (dbus d) (ddevice d) (dfunction d) PCI_CAP_POINTER 8 ltac:(lia)). dlia. }
    apply list_elem_of_fmap. exists ((cap_ptr p d j - 0x40) / 4). split; [dlia|]. apply elem_of_seqZ. dlia. }
  apply submseteq_length in Hsub. rewrite !length_fmap, length_seq, length_seqZ in Hsub. change (Z.to_nat 48) with 48%nat in Hsub. lia.
Qed.

Lemma on_list_visited p d q : (∀ q, on_list p d q → 0x40 ≤ q) → on_list p d q ↔ q ∈ cap_list p d 48 (first_cap p d).
Proof.
  intros Hwf. rewrite cap_list_spec. split.
  - intros (k & Hk & Hnz). destruct (least_hop p d q k Hk) as (m & Hmk & Hm & Hleast). exists m. split; [|split; [done|intros j Hj; apply Hnz; lia]].
    apply (hops_bound p d q m Hm Hleast). intros j Hj. apply Hwf. exists j. split; [done|]. intros j' Hj'. apply Hnz. lia.
  - intros (k & _ & Hk & Hnz). by exists k.
Qed.
End capabilities.

(** ** The scan *)
Section scan.
Context (p0 : pci) (Hok : pci_ok p0).
Definition scanned (s : scan) (l : list PciDevice) (s' : scan) : Prop := same p0 (sc_pci s') ∧ printed s' = printed s ++ l.

Lemma for_each_prints {A} (g : A → list PciDevice) (body : A → M scan unit) (l : list A) : ∀ s, same p0 (sc_pci s) →
  (∀ x s, x ∈ l → same p0 (sc_pci s) → wp (body x) (λ _ s', scanned s (g x) s') s) →
  wp (for_each l body) (λ _ s', scanned s (concat (g <$> l)) s') s.
Proof.
  induction l as [|x l IH]; intros s Hs Hb; cbn [for_each fmap list_fmap concat].
  - wp_step. split; [done|by rewrite app_nil_r].
  - wp_step. eapply wp_mono; [apply Hb; [by left|done]|]. intros [] s1 [H1 E1]. eapply wp_mono; [apply IH; [done|]|].
    + intros y s2 Hy. apply Hb. by right.
    + intros [] s2 [H2 E2]. split; [done|]. by rewrite E2, E1, app_assoc.
Qed.

Lemma device_read_spec b d f s Q : bdf_ok b d f → same p0 (sc_pci s) →
  (∀ s', scanned s [] s' → Q (if present p0 b d f then Some (dev_of p0 b d f) else None) s') →
  wp (on_pci (PciDevice_read b d f)) Q s.
Proof.
  intros Hbdf Hs HQ. apply wp_zoom. assert (Hend : ∀ p' r, same p0 p' → r = (if present p0 b d f then Some (dev_of p0 b d f) else None) → Q r (mkScan p' (printed s))).
  { intros p' r Hp' ->. apply HQ. split; [done|by rewrite app_nil_r]. }
  assert (Hk : ∀ p', same p0 p' → pci_ok p') by (intros p' ?; by apply (same_ok p0)).
  assert (Hf : ∀ p' o n, same p0 p' → field p' b d f o n = field p0 b d f o n) by (intros; by apply same_field).
  unfold PciDevice_read. wp_step. apply wp_read_u16; [by apply Hk|done|lia|done|]. intros p1 H1. rewrite (Hf (sc_pci s)) by done. unfold present in Hend.
  assert (S1 : same p0 p1) by (by etransitivity).
  destruct (Z.eqb_spec (field p0 b d f 0 16) 0xFFFF) as [He|Hne]; [wp_step; by apply Hend|].
  wp_step. apply wp_read_u16; [by apply Hk|done|lia|done|]. intros p2 H2. rewrite (Hf (p1)) by done. assert (S2 : same p0 p2) by (by etransitivity).
  wp_step. apply wp_read_u8; [by apply Hk|done|lia|]. intros p3 H3. rewrite (Hf (p2)) by done. assert (S3 : same p0 p3) by (by etransitivity).
  wp_step. apply wp_read_u8; [by apply Hk|done|lia|]. intros p4 H4. rewrite (Hf (p3)) by done. assert (S4 : same p0 p4) by (by etransitivity).
  wp_step. apply wp_read_u8; [by apply Hk|done|lia|]. intros p5 H5. rewrite (Hf (p4)) by done. assert (S5 : same p0 p5) by (by etransitivity).
  wp_step. apply wp_read_u8; [by apply Hk|done|lia|]. intros p6 H6. rewrite (Hf (p5)) by done. assert (S6 : same p0 p6) by (by etransitivity).
  wp_step. apply wp_read_u8; [by apply Hk|done|lia|]. intros p7 H7. rewrite (Hf (p6)) by done. wp_step. apply Hend; [by etransitivity|done].
Qed.

Lemma scan_device_spec b d s : 0 ≤ b < 256 → 0 ≤ d < 32 → same p0 (sc_pci s) → wp (scan_device b d) (λ _ s', scanned s (slot_list p0 b d) s') s.
Proof.
  intros Hb Hd Hs. unfold scan_device, slot_list. wp_step. apply device_read_spec; [unfold bdf_ok; lia|done|]. intros s1 [S1 E1]. rewrite app_nil_r in E1.
  destruct (present p0 b d 0); [|wp_step; split; [done|by rewrite E1, app_nil_r]]. unfold print_device. wp_step. wp_step.
  assert (Hbit : negb (Z.land (header_type (dev_of p0 b d 0)) 0x80 =? 0) = Z.testbit (field p0 b d 0 0xE 8) 7).
  { cbn [header_type dev_of]. set (x := field _ _ _ _ _ _). change 128 with (Z.ones 8 - Z.ones 7). rewrite land_mask_mid by lia.
    rewrite Z.testbit_eqb by lia. destruct (Z.eqb_spec (x / 2 ^ 7 mod 2) 1).
    - rewrite (proj2 (Z.eqb_neq _ _)) by dlia. done.
    - rewrite (proj2 (Z.eqb_eq _ _)) by dlia. done. }
  rewrite Hbit. destruct (Z.testbit _ 7); [|wp_step; split; [done|cbn [printed]; by rewrite E1]].
  unfold scan_functions. eapply wp_mono; [apply (for_each_prints (function_list p0 b d)); [done|]|].
  - intros f s2 Hf%elem_of_seqZ S2. wp_step. apply device_read_spec; [unfold bdf_ok; lia|done|]. intros s3 [S3 E3]. rewrite app_nil_r in E3.
    unfold function_list. destruct (present p0 b d f); unfold print_device; wp_step; split; cbn [sc_pci printed]; try done.
    + by rewrite E3.
    + by rewrite E3, app_nil_r.
  - intros [] s2 [S2 E2]. split; [done|]. rewrite E2. cbn [printed]. by rewrite E1, <-app_assoc.
Qed.
End scan.

Lemma first_with_spec p d id l q : first_with p d id l = Some q ↔
  ∃ k, l !! k = Some q ∧ cap_at p d q = id ∧ ∀ j y, (j < k)%nat → l !! j = Some y → cap_at p d y ≠ id.
Proof.
  unfold first_with. rewrite fmap_Some. split.
  - intros ([k y] & (Hk & Hy & Hj)%list_find_Some & ->). exists k. split; [done|]. split; [done|]. intros j z Hjk Hz. by apply (Hj j z).
  - intros (k & Hk & Hq & Hj). exists (k, q). split; [|done]. apply list_find_Some. split; [done|]. split; [done|]. intros j z Hz Hjk. by apply (Hj j z).
Qed.
Lemma first_with_none p d id l : first_with p d id l = None → Forall (λ q, cap_at p d q ≠ id) l.
Proof. unfold first_with. intros H%fmap_None. by apply list_find_None in H. Qed.

(** What [find_capability] answers. *)
Definition found (p : pci) (d : PciDevice) (id : Z) (r : option Z) : Prop :=
  match r with
  | Some q => has_cap_list p d ∧ on_list p d q ∧ cap_at p d q = id
  | None => ¬ has_cap_list p d ∨ ∀ q, on_list p d q → cap_at p d q ≠ id
  end.
Lemma find_capability_wp p d id Q : pci_ok p → dev_ok d → (∀ q, on_list p d q → 0x40 ≤ q) →
  (∀ r p', same p p' → found p d id r → Q r p') → wp (find_capability d id) Q p.
Proof.
  intros Hok Hd Hwf HQ. apply find_capability_spec; [done|done|]. intros p' Hs. split; intros Hl; (apply HQ; [done|]); [|by left].
  unfold first_with, found. destruct (list_find _ _) as [[i q]|] eqn:Hf; cbn.
  - apply list_find_Some in Hf as (Hi & Hq & _). split; [done|]. split; [|done]. apply on_list_visited; [done|]. by eapply list_elem_of_lookup_2.
  - right. intros q Hq. apply on_list_visited in Hq; [|done]. apply list_find_None in Hf. by apply (proj1 (list.Forall_forall _ _) Hf).
Qed.

(** The base address register [i] decoded. *)
Definition bar_of (p : pci) (d : PciDevice) (i : Z) : option BarInfo :=
  let v j := registers p (pkey (dbus d) (ddevice d) (dfunction d) (0x10 + 4 * j)) in
  if 5 <? i then None else if v i =? 0 then None
     else if v i mod 2 =? 1 then Some (mkBar (v i / 4 * 4) false false false)
     else if v i / 2 mod 4 =? 2 then
       if i =? 5 then None else Some (mkBar (v (i + 1) * 2 ^ 32 + v i / 16 * 16) true true (Z.testbit (v i) 3))
     else Some (mkBar (v i / 16 * 16) true false (Z.testbit (v i) 3)).
Lemma read_bar_wp p d i : pci_ok p → dev_ok d → 0 ≤ i < 256 → wp (read_bar d i) (λ r p', same p p' ∧ r = bar_of p d i) p.
Proof.
  intros Hok Hd Hi. unfold bar_of. set (v j := registers p (pkey (dbus d) (ddevice d) (dfunction d) (0x10 + 4 * j))).
  assert (Hlow : ∀ x, 0 ≤ x < 2 ^ 32 → Z.land x 0xFFFFFFF0 = x / 16 * 16).
  { intros x Hx. pose proof (land_mask_mid x 4 32 ltac:(lia)) as H. rewrite Z.mod_small in H by done. exact H. }
  assert (Hlow2 : ∀ x, 0 ≤ x < 2 ^ 32 → Z.land x 0xFFFFFFFC = x / 4 * 4).
  { intros x Hx. pose proof (land_mask_mid x 2 32 ltac:(lia)) as H. rewrite Z.mod_small in H by done. exact H. }
  assert (Hpf : ∀ x, negb (Z.land x 8 =? 0) = Z.testbit x 3).
  { intros x. change 8 with (Z.ones 4 - Z.ones 3). rewrite land_mask_mid, Z.testbit_eqb by lia.
    destruct (Z.eqb_spec (x / 2 ^ 3 mod 2) 1); [apply negb_true_iff, Z.eqb_neq|apply negb_false_iff, Z.eqb_eq]; dlia. }
  unfold read_bar. destruct (Z.ltb_spec 5 i); [by wp_step|]. wp_step. apply wp_read_u32; [done|done|lia|dlia|]. intros p1 S1.
    rewrite (Z.mul_comm i 4). fold (v i). assert (Hv : 0 ≤ v i < 2 ^ 32) by apply Hok.
    destruct (v i =? 0); [by wp_step|]. change 1 with (Z.ones 1) at 1. rewrite Z.land_ones by lia. change (2 ^ 1) with 2.
    destruct (Z.eqb_spec (v i mod 2) 0) as [Heven|Hodd].
    - rewrite (proj2 (Z.eqb_neq _ 1)) by lia. rewrite Z.shiftr_div_pow2 by lia. change 3 with (Z.ones 2) at 1. rewrite Z.land_ones, Hpf by lia.
      change (2 ^ 1) with 2. change (2 ^ 2) with 4. destruct (v i / 2 mod 4 =? 2).
      + destruct (Z.ltb_spec 4 i); [wp_step; split; [done|]; by rewrite (proj2 (Z.eqb_eq i 5)) by lia|].
        wp_step. apply wp_read_u32; [by apply (same_ok p)|done|lia|dlia|]. intros p2 S2. wp_step. split; [by etransitivity|].
        rewrite (proj2 (Z.eqb_neq i 5)), (same_regs _ _ S1) by lia. replace (16 + 4 * i + 4) with (16 + 4 * (i + 1)) by lia. fold (v (i + 1)).
        rewrite Hlow, Z.shiftl_mul_pow2, lor_low by (done || dlia). done.
      + wp_step. split; [done|]. by rewrite Hlow.
    - rewrite (proj2 (Z.eqb_eq _ 1)) by dlia. wp_step. split; [done|]. by rewrite Hlow2.
Qed.

(** ** The theorems *)


(** C29: [find_capability] on any registers, lists that are cyclic or point below
    0x40 included: it ends and changes no register, and it answers the offset
    [q] exactly when the status register announces a list, one of its first 48
    entries lies at [q] and has the identifier, and no earlier entry has it;
    [None] exactly when there is no list or none of the first 48 entries has it.
    The 48 rounds lose nothing when the entries lie where the standard puts
    them, at 0x40 or above: there are 48 such offsets, and a shortest path
    visits none twice, so [None] then means that no entry at all has the
    identifier. *)
Theorem find_capability_complete p d id (Hok : pci_ok p) (Hd : dev_ok d) :
  ∃ r p', find_capability d id p = Some (r, p') ∧ same p p' ∧
    (∀ q, r = Some q ↔ has_cap_list p d ∧ ∃ k, (k < 48)%nat ∧ entry p d k q ∧ cap_at p d q = id ∧ ∀ j, (j < k)%nat → cap_at p d (cap_ptr p d j) ≠ id) ∧
    (r = None ↔ ¬ has_cap_list p d ∨ ∀ k q, (k < 48)%nat → entry p d k q → cap_at p d q ≠ id) ∧
    (r = None → has_cap_list p d → (∀ q, on_list p d q → 0x40 ≤ q) → ∀ q, on_list p d q → cap_at p d q ≠ id).
Proof.
  assert (Hwp : wp (find_capability d id) (λ r p', same p p' ∧
    (has_cap_list p d → r = first_with p d id (cap_list p d 48 (first_cap p d))) ∧ (¬ has_cap_list p d → r = None)) p).
  { apply find_capability_spec; [done|done|]. intros p' Hs. split; intros Hl; (split; [done|]); split; intros; done. }
  apply wp_run in Hwp as (r & p' & Hrun & Hs & Hyes & Hno). exists r, p'. split; [done|]. split; [done|].
  assert (Hiff : ∀ q, r = Some q ↔ has_cap_list p d ∧ ∃ k, (k < 48)%nat ∧ entry p d k q ∧ cap_at p d q = id ∧ ∀ j, (j < k)%nat → cap_at p d (cap_ptr p d j) ≠ id).
  { intros q. destruct (decide (has_cap_list p d)) as [Hl|Hl]; [rewrite (Hyes Hl)|rewrite (Hno Hl); split; [done|by intros [? _]]].
    rewrite (first_with_spec p d id). split; [intros (k & Hk & Hid & Hj)|intros (_ & k & Hk & He & Hid & Hj)].
    - split; [done|]. apply cap_list_lookup in Hk as (Hk & Hq & Hnz). exists k. split; [done|]. split; [done|]. split; [done|].
      intros j Hjk. apply (Hj j); [done|]. apply cap_list_lookup. split; [lia|]. split; [done|]. intros i Hi. apply Hnz. lia.
    - exists k. destruct He as [He Hnz]. split; [by apply cap_list_lookup|]. split; [done|]. intros j y Hjk Hy. apply cap_list_lookup in Hy as (_ & <- & _). by apply Hj. }
  split; [exact Hiff|]. split.
  - split.
    + intros ->. destruct (decide (has_cap_list p d)) as [Hl|Hl]; [right|by left]. intros k q Hk He Hid.
      pose proof (Hyes Hl) as Hnone. symmetry in Hnone. apply first_with_none in Hnone. apply (proj1 (list.Forall_forall _ _) Hnone q); [|done].
      apply cap_list_spec. exists k. split; [done|exact He].
    + intros Hor. destruct r as [q|]; [|done]. destruct (proj1 (Hiff q) eq_refl) as (Hl & k & Hk & He & Hid & _). destruct Hor as [?|Hor]; [done|]. by destruct (Hor k q Hk He).
  - intros -> Hl Hwf q Hq. apply on_list_visited in Hq; [|done]. pose proof (Hyes Hl) as Hnone. symmetry in Hnone. apply first_with_none in Hnone.
    by apply (proj1 (list.Forall_forall _ _) Hnone q).
Qed.

(** [read_bar] on every value: unused, I/O and 32- and 64-bit memory bars,
    a 64-bit bar joined with the next register, none past bar 5. *)
Theorem read_bar_correct p d i (Hok : pci_ok p) (Hd : dev_ok d) (Hi : 0 ≤ i < 256) :
  let v j := registers p (pkey (dbus d) (ddevice d) (dfunction d) (0x10 + 4 * j)) in
  ∃ p', same p p' ∧ read_bar d i p = Some (
    (if 5 <? i then None else if v i =? 0 then None
     else if v i mod 2 =? 1 then Some (mkBar (v i / 4 * 4) false false false)
     else if v i / 2 mod 4 =? 2 then
       if i =? 5 then None else Some (mkBar (v (i + 1) * 2 ^ 32 + v i / 16 * 16) true true (Z.testbit (v i) 3))
     else Some (mkBar (v i / 16 * 16) true false (Z.testbit (v i) 3))), p').
Proof.
  intros v. pose proof (read_bar_wp p d i Hok Hd Hi) as Hwp. apply wp_run in Hwp as (r & p' & Hrun & Hs & ->). by exists p'.
Qed.

(** The scan prints every function of the bus once, in order: function 0 of
    each slot that answers, the others only of multi-function devices; it
    changes no register. *)
Theorem scan_pci_bus_correct p (Hok : pci_ok p) :
  ∃ s', scan_pci_bus (mkScan p []) = Some (tt, s') ∧ same p (sc_pci s') ∧ printed s' = bus_list p.
Proof.
  assert (Hwp : wp scan_pci_bus (λ _ s', scanned p (mkScan p []) (bus_list p) s') (mkScan p [])).
  { unfold scan_pci_bus, bus_list. apply for_each_prints; [done|]. intros b s Hb%elem_of_seqZ Hs. apply for_each_prints; [done|].
    intros d s2 Hd%elem_of_seqZ Hs2. apply scan_device_spec; [done|lia|lia|done]. }
  apply wp_run in Hwp as ([] & s' & Hrun & Hs & Hp). by exists s'.
Qed.

(** ** A bus with one function: 00:01.0 with an MSI-X and an MSI capability *)
Definition demo_registers (k : Z) : Z :=
  match k - 0x8000 with
  | 0 => 0x12348086 | 4 => 0x00100000 | 8 => 0x02000001 | 0xC => 0 | 0x10 => 0xFE00000C | 0x14 => 1 | 0x34 => 0x40
  | 0x40 => 0x00035011 | 0x44 => 0x00002000 | 0x48 => 0x00003000 | 0x50 => 0x00800005 | 0x54 => 0 | 0x58 => 0 | 0x5C => 0
  | _ => 0xFFFFFFFF
  end.
(** The message controls have read-only bits. *)
Definition kept (writable old new : Z) : Z := Z.lor (Z.land new writable) (Z.land old (bnot 32 writable)).
Definition demo_keeps (k old new : Z) : Z := match k - 0x8000 with 0x40 => kept 0xC0000000 old new | 0x50 => kept 0x00710000 old new | _ => new end.
Definition demo_pci : pci := mkPci 0xE0000000 0 3 0 0xE0000000 demo_registers demo_keeps [].
Definition demo_device : PciDevice := mkDevice 0 1 0 0x8086 0x1234 2 0 0 1 0.
Lemma demo_registers_u32 k : 0 ≤ demo_registers k < 2 ^ 32.
Proof. unfold demo_registers. repeat (case_match; try lia). Qed.
Lemma land_range x m : 0 ≤ m → 0 ≤ Z.land x m ≤ m.
Proof.
  intros Hm. split; [apply Z.land_nonneg; by right|]. rewrite <-(Z.lor_ldiff_and m x) at 2. rewrite Z.land_comm.
  assert (H : Z.land (Z.ldiff m x) (Z.land m x) = 0).
  { apply Z.bits_inj'. intros i _. rewrite !Z.land_spec, Z.ldiff_spec, Z.bits_0. by destruct (Z.testbit m i), (Z.testbit x i). }
  rewrite <-Z.lxor_lor by done. rewrite <-Z.add_nocarry_lxor by done. assert (0 ≤ Z.ldiff m x) by (apply Z.ldiff_nonneg; by left). lia.
Qed.
Lemma kept_range w old new : 0 ≤ w < 2 ^ 32 → 0 ≤ kept w old new < 2 ^ 32.
Proof.
  intros Hw. unfold kept. pose proof (land_range new w ltac:(lia)) as H1.
  assert (Hb : 0 ≤ bnot 32 w < 2 ^ 32).
  { unfold bnot. change (2 ^ 32 - 1) with (Z.ones 32). rewrite Z.lxor_comm. change (0 ≤ Z.lxor (Z.ones 32) w < 2 ^ 32).
    assert (Hx : 0 ≤ Z.lxor (Z.ones 32) w) by (apply Z.lxor_nonneg; split; intros _; [lia|vm_compute; discriminate]).
    split; [done|]. destruct (decide (Z.lxor (Z.ones 32) w = 0)) as [->|Hne]; [lia|]. apply Z.log2_lt_pow2; [lia|].
    eapply Z.le_lt_trans; [apply Z.log2_lxor; [vm_compute; discriminate|lia]|]. apply Z.max_lub_lt; [vm_compute; reflexivity|].
    destruct (decide (w = 0)) as [->|]; [done|apply Z.log2_lt_pow2; lia]. }
  pose proof (land_range old (bnot 32 w) ltac:(lia)) as H2. split; [apply Z.lor_nonneg; lia|].
  set (a := Z.land new w) in *. set (b := Z.land old (bnot 32 w)) in *. destruct (decide (Z.lor a b = 0)) as [->|Hne]; [lia|].
  apply Z.log2_lt_pow2; [assert (0 ≤ Z.lor a b) by (apply Z.lor_nonneg; lia); lia|]. rewrite Z.log2_lor by lia.
  apply Z.max_lub_lt; [destruct (decide (a = 0)) as [->|]; [done|apply Z.log2_lt_pow2; lia]|destruct (decide (b = 0)) as [->|]; [done|apply Z.log2_lt_pow2; lia]].
Qed.
Lemma kept_bit w old new i : 0 ≤ i < 32 → Z.testbit (kept w old new) i = if Z.testbit w i then Z.testbit new i else Z.testbit old i.
Proof.
  intros Hi. unfold kept, bnot. change (2 ^ 32 - 1) with (Z.ones 32). rewrite Z.lor_spec, !Z.land_spec, Z.lxor_spec, Z.ones_spec_low by lia.
  destruct (Z.testbit w i), (Z.testbit new i), (Z.testbit old i); reflexivity.
Qed.
Lemma demo_pci_ok : pci_ok demo_pci.
Proof.
  split.
  - apply demo_registers_u32.
  - intros k old new Hnew. cbn [keeps demo_pci]. unfold demo_keeps. repeat case_match; first [exact Hnew|apply kept_range; lia].
  - split; [cbn; lia|]. split; [done|]. vm_compute. discriminate.
  - by right.
Qed.
Lemma demo_device_ok : dev_ok demo_device.
Proof. unfold dev_ok, bdf_ok. cbn. lia. Qed.
Lemma demo_caps q : on_list demo_pci demo_device q → q = 0x40 ∨ q = 0x50.
Proof.
  intros ([|[|k]] & <- & Hnz); [left; vm_compute; reflexivity|right; vm_compute; reflexivity|].
  exfalso. apply (Hnz 2%nat); [lia|]. vm_compute. reflexivity.
Qed.

(** Witness: the second entry has the MSI identifier; a list that is one entry pointing below 0x40 to itself ends. *)
Definition loop_registers (k : Z) : Z := match k - 0x8000 with 4 => 0x00100000 | 0x34 => 0x10 | 0x10 => 0x1011 | _ => 0 end.
Definition loop_pci : pci := mkPci 0xE0000000 0 3 0 0xE0000000 loop_registers (λ _ _ new, new) [].
Lemma loop_pci_ok : pci_ok loop_pci.
Proof.
  split.
  - intros k. cbn [registers loop_pci]. unfold loop_registers. repeat (case_match; try lia).
  - done.
  - split; [cbn; lia|]. split; [done|]. vm_compute. discriminate.
  - by right.
Qed.
Lemma find_capability_complete_witness :
  (∃ p', find_capability demo_device CAP_MSI demo_pci = Some (Some 0x50, p')) ∧
  ∃ p', find_capability demo_device CAP_MSI loop_pci = Some (None, p').
Proof.
  split.
  - destruct (find_capability_complete demo_pci demo_device CAP_MSI demo_pci_ok demo_device_ok) as (r & p' & Hrun & _ & Hr & _).
    exists p'. rewrite Hrun. f_equal. f_equal. apply Hr. split; [vm_compute; reflexivity|]. exists 1%nat. split; [lia|]. split.
    + split; [vm_compute; reflexivity|]. intros [|[|j]] Hj; [vm_compute; discriminate|vm_compute; discriminate|lia].
    + split; [vm_compute; reflexivity|]. intros [|j] Hj; [vm_compute; discriminate|lia].
  - destruct (find_capability_complete loop_pci demo_device CAP_MSI loop_pci_ok demo_device_ok) as (r & p' & Hrun & _ & _ & Hr & _).
    exists p'. rewrite Hrun. f_equal. f_equal. apply Hr. right. intros k q _ [<- _].
    assert (Hloop : cap_ptr loop_pci demo_device k = 0x10).
    { clear. unfold cap_ptr. induction k as [|k IH]; [vm_compute; reflexivity|]. rewrite Nat.iter_succ, IH. vm_compute. reflexivity. }
    rewrite Hloop. vm_compute. discriminate.
Defined.
Lemma read_bar_correct_witness : ∃ p', read_bar demo_device 0 demo_pci = Some (Some (mkBar 0x1FE000000 true true true), p').
Proof.
  destruct (read_bar_correct demo_pci demo_device 0 demo_pci_ok demo_device_ok ltac:(lia)) as (p' & _ & H). exists p'. exact H.
Defined.
Lemma scan_pci_bus_correct_witness : ∃ s', scan_pci_bus (mkScan demo_pci []) = Some (tt, s') ∧ printed s' = [demo_device].
Proof.
  destruct (scan_pci_bus_correct demo_pci demo_pci_ok) as (s' & H & _ & Hl). exists s'. split; [exact H|]. rewrite Hl. vm_compute. reflexivity.
Defined.
