(* ===== verification/Msi.v ===== *)
(** * Message signalled interrupts ([kernel/src/msi.rs]).

    MSI is set up in configuration space, MSI-X also in a table in device memory,
    which is a map from addresses to 32-bit words. *)
From S2P Require Import Prelude Addr Pci.
Set Default Goal Selector "!".

Definition MSI_MESSAGE_CONTROL : Z := 0x02.
Definition MESSAGE_ADDRESS : Z := 0x04.
Definition MESSAGE_ADDRESS_UPPER : Z := 0x08.
Definition MESSAGE_DATA_32 : Z := 0x08.
Definition MESSAGE_DATA_64 : Z := 0x0C.
Definition MSI_ENABLE : Z := Z.shiftl 1 0.
Definition ADDR_64BIT : Z := Z.shiftl 1 7.
Definition MSIX_MESSAGE_CONTROL : Z := 0x02.
Definition TABLE_OFFSET_BIR : Z := 0x04.
Definition PBA_OFFSET_BIR : Z := 0x08.
Definition MSIX_ENABLE : Z := Z.shiftl 1 15.
Definition TABLE_SIZE_MASK : Z := 0x07FF.
Definition MSG_UPPER_ADDR : Z := 0x04.
Definition MSG_DATA : Z := 0x08.
Definition VECTOR_CONTROL : Z := 0x0C.
Definition ENTRY_SIZE : Z := 0x10.
Definition MASK : Z := Z.shiftl 1 0.
Definition LAPIC_MSI_ADDRESS_BASE : Z := 0xFEE00000.
Definition MIN_MSI_VECTOR : Z := 32.
Definition MAX_MSI_VECTOR : Z := 239.
Definition PCI_COMMAND : Z := 0x04.
Definition PCI_COMMAND_INTX_DISABLE : Z := Z.shiftl 1 10.

Inductive MsiError :=
  | NotSupported | InvalidVector (vector : Z) | InvalidEntry (index table_size : Z) | InvalidBar (bar_index : Z)
  | TooManyVectors (requested available : Z) | MappingFailed.
Record MsiConfig := mkMsiConfig { mc_vector : Z; mc_cap_offset : Z }.
Record MsixCapability := mkMsixCap {
  cap_offset : Z; table_size : Z; table_bir : Z; table_offset : Z; pba_bir : Z; pba_offset : Z }.
Record MsixConfig := mkMsixConfig { capability : MsixCapability; table_virt_addr : Z }.
Definition MsixConfig_new (capability : MsixCapability) (table_virt_addr : Z) : MsixConfig := mkMsixConfig capability table_virt_addr.
Definition invalid_vector (v : Z) : bool := (v <? MIN_MSI_VECTOR) || (MAX_MSI_VECTOR <? v).

Definition disable_intx (d : PciDevice) : M pci unit :=
  command ← read_u16 (dbus d) (ddevice d) (dfunction d) PCI_COMMAND;
  write_u16 (dbus d) (ddevice d) (dfunction d) PCI_COMMAND (Z.lor command PCI_COMMAND_INTX_DISABLE).
Definition enable_intx (d : PciDevice) : M pci unit :=
  command ← read_u16 (dbus d) (ddevice d) (dfunction d) PCI_COMMAND;
  write_u16 (dbus d) (ddevice d) (dfunction d) PCI_COMMAND (Z.land command (bnot 16 PCI_COMMAND_INTX_DISABLE)).

(** [.ok_or(NotSupported)?] *)
Definition ok_or {S A E} (m : M S (option A)) (e : E) : M S (result A E) :=
  o ← m; mret (match o with Some a => Ok a | None => Err e end).

Definition configure_msi (d : PciDevice) (vector : Z) : M pci (result MsiConfig MsiError) :=
  if invalid_vector vector then mret (Err (InvalidVector vector)) else
  cap_offset ←? ok_or (find_capability d CAP_MSI) NotSupported;
  let bus := dbus d in let dev := ddevice d in let func := dfunction d in
  msg_ctrl ← read_u16 bus dev func (cap_offset + MSI_MESSAGE_CONTROL);
  let is_64bit := negb (Z.land msg_ctrl ADDR_64BIT =? 0) in
  write_u16 bus dev func (cap_offset + MSI_MESSAGE_CONTROL) (Z.land msg_ctrl (bnot 16 MSI_ENABLE)) ;;
  write_u32 bus dev func (cap_offset + MESSAGE_ADDRESS) LAPIC_MSI_ADDRESS_BASE ;;
  data_offset ← (if is_64bit : bool then
      write_u32 bus dev func (cap_offset + MESSAGE_ADDRESS_UPPER) 0 ;; mret MESSAGE_DATA_64
    else mret MESSAGE_DATA_32);
  write_u16 bus dev func (cap_offset + data_offset) vector ;;
  write_u16 bus dev func (cap_offset + MSI_MESSAGE_CONTROL) (Z.lor msg_ctrl MSI_ENABLE) ;;
  disable_intx d ;;
  mret (Ok (mkMsiConfig vector cap_offset)).

Definition disable_msi (d : PciDevice) : M pci (result unit MsiError) :=
  cap_offset ←? ok_or (find_capability d CAP_MSI) NotSupported;
  let bus := dbus d in let dev := ddevice d in let func := dfunction d in
  msg_ctrl ← read_u16 bus dev func (cap_offset + MSI_MESSAGE_CONTROL);
  write_u16 bus dev func (cap_offset + MSI_MESSAGE_CONTROL) (Z.land msg_ctrl (bnot 16 MSI_ENABLE)) ;;
  enable_intx d ;;
  mret (Ok tt).

(** ** MSI-X *)
Definition detect_msix (d : PciDevice) : M pci (option MsixCapability) :=
  c ← find_capability d CAP_MSIX;
  match c with
  | None => mret None
  | Some cap_offset =>
      let bus := dbus d in let dev := ddevice d in let func := dfunction d in
      msg_ctrl ← read_u16 bus dev func (cap_offset + MSIX_MESSAGE_CONTROL);
      let table_size := Z.land msg_ctrl TABLE_SIZE_MASK + 1 in
      table_offset_bir ← read_u32 bus dev func (cap_offset + TABLE_OFFSET_BIR);
      pba_offset_bir ← read_u32 bus dev func (cap_offset + PBA_OFFSET_BIR);
      mret (Some (mkMsixCap cap_offset table_size (Z.land table_offset_bir 0x07) (Z.land table_offset_bir 0xFFFFFFF8)
        (Z.land pba_offset_bir 0x07) (Z.land pba_offset_bir 0xFFFFFFF8)))
  end.

(** The writes to either, in the order they are made. *)
Inductive msix_event := Config (register value : Z) | Table (addr value : Z).
Record msix_sys := mkMsixSys { ms_pci : pci; table : Z → Z; trace : list msix_event }.
Definition config_since (p p' : pci) : list msix_event := (λ '(k, v), Config k v) <$> drop (length (config_log p)) (config_log p').
Definition on_config {A} (m : M pci A) : M msix_sys A := λ s,
  match m (ms_pci s) with Some (a, p) => Some (a, mkMsixSys p (table s) (trace s ++ config_since (ms_pci s) p)) | None => None end.
(** Volatile accesses of 4 bytes. *)
Definition msix_write (addr value : Z) : M msix_sys unit :=
  assert_ (addr mod 4 =? 0) ;; modify (λ s, mkMsixSys (ms_pci s) (<[addr := value]> (table s)) (trace s ++ [Table addr value])).
Definition msix_read (addr : Z) : M msix_sys Z := assert_ (addr mod 4 =? 0) ;; gets (λ s, table s addr).

(** [self.table_virt_addr + (index as u64) * SIZE], and a field of the entry. *)
Definition entry_address (c : MsixConfig) (index : Z) : option Z := off ← cmul 64 index ENTRY_SIZE; cadd 64 (table_virt_addr c) off.

Definition configure_entry (c : MsixConfig) (index vector : Z) : M msix_sys (result unit MsiError) :=
  if table_size (capability c) <=? index then mret (Err (InvalidEntry index (table_size (capability c)))) else
  if invalid_vector vector then mret (Err (InvalidVector vector)) else
  entry_addr ← lift (entry_address c index);
  msix_write entry_addr LAPIC_MSI_ADDRESS_BASE ;;
  upper ← lift (cadd 64 entry_addr MSG_UPPER_ADDR); msix_write upper 0 ;;
  data ← lift (cadd 64 entry_addr MSG_DATA); msix_write data vector ;;
  mret (Ok tt).
Definition mask_entry (c : MsixConfig) (index : Z) : M msix_sys (result unit MsiError) :=
  if table_size (capability c) <=? index then mret (Err (InvalidEntry index (table_size (capability c)))) else
  entry_addr ← lift (entry_address c index);
  ctrl_ptr ← lift (cadd 64 entry_addr VECTOR_CONTROL);
  ctrl ← msix_read ctrl_ptr;
  msix_write ctrl_ptr (Z.lor ctrl MASK) ;;
  mret (Ok tt).
Definition unmask_entry (c : MsixConfig) (index : Z) : M msix_sys (result unit MsiError) :=
  if table_size (capability c) <=? index then mret (Err (InvalidEntry index (table_size (capability c)))) else
  entry_addr ← lift (entry_address c index);
  ctrl_ptr ← lift (cadd 64 entry_addr VECTOR_CONTROL);
  ctrl ← msix_read ctrl_ptr;
  msix_write ctrl_ptr (Z.land ctrl (bnot 32 MASK)) ;;
  mret (Ok tt).
Definition mask_all (c : MsixConfig) : M msix_sys unit :=
  for_each (seqZ 0 (table_size (capability c))) (λ i, r ← mask_entry c i; assert_ (result_is_ok r)).

(** The first vector out of range. *)
Definition check_vectors (vectors : list Z) : result unit MsiError :=
  match filter (λ v, invalid_vector v = true) vectors with v :: _ => Err (InvalidVector v) | [] => Ok tt end.

Definition configure_msix (d : PciDevice) (vectors : list Z) : M msix_sys (result MsixConfig MsiError) :=
  capability ←? on_config (ok_or (detect_msix d) NotSupported);
  if table_size capability <? Z.of_nat (length vectors) then
    mret (Err (TooManyVectors (Z.of_nat (length vectors)) (table_size capability))) else
  _ ←? mret (check_vectors vectors);
  bar_info ←? on_config (ok_or (read_bar d (table_bir capability)) (InvalidBar (table_bir capability)));
  if negb (is_memory bar_info) then mret (Err (InvalidBar (table_bir capability))) else
  match cadd 64 (base_address bar_info) (table_offset capability) with
  | None => mret (Err (InvalidBar (table_bir capability)))
  | Some table_phys_addr =>
      r ← lift (phys_to_virt table_phys_addr);
      match r with
      | Err _ => mret (Err MappingFailed)
      | Ok table_virt_addr =>
          let config := MsixConfig_new capability table_virt_addr in
          let bus := dbus d in let dev := ddevice d in let func := dfunction d in
          msg_ctrl ← on_config (read_u16 bus dev func (cap_offset capability + MSIX_MESSAGE_CONTROL));
          on_config (write_u16 bus dev func (cap_offset capability + MSIX_MESSAGE_CONTROL) (Z.land msg_ctrl (bnot 16 MSIX_ENABLE))) ;;
          mask_all config ;;
          _ ←? try_for_each (imap (λ i v, (Z.of_nat i, v)) vectors) (λ '(i, vector), configure_entry config (wrap 16 i) vector);
          _ ←? try_for_each (seqZ 0 (Z.of_nat (length vectors))) (λ i, unmask_entry config (wrap 16 i));
          on_config (write_u16 bus dev func (cap_offset capability + MSIX_MESSAGE_CONTROL) (Z.lor msg_ctrl MSIX_ENABLE)) ;;
          on_config (disable_intx d) ;;
          mret (Ok config)
      end
  end.

Definition disable_msix (d : PciDevice) : M pci (result unit MsiError) :=
  cap_offset ←? ok_or (find_capability d CAP_MSIX) NotSupported;
  let bus := dbus d in let dev := ddevice d in let func := dfunction d in
  msg_ctrl ← read_u16 bus dev func (cap_offset + MSIX_MESSAGE_CONTROL);
  write_u16 bus dev func (cap_offset + MSIX_MESSAGE_CONTROL) (Z.land msg_ctrl (bnot 16 MSIX_ENABLE)) ;;
  enable_intx d ;;
  mret (Ok tt).
