(* ===== verification/MsiThms.v ===== *)
(** * Message signalled interrupts: lemmas. *)
From S2P Require Import Prelude Addr Pci PciThms PciProps Msi.
Set Default Goal Selector "!".

(** ** Runs of register writes *)
Definition stores (l : list (Z * Z)) (p : pci) : pci := foldl (λ p kv, store kv.1 kv.2 p) p l.
Definition writes_ok (l : list (Z * Z)) : Prop := Forall (λ kv, 0 ≤ kv.2 < 2 ^ 32) l.

Section stores.
Implicit Types (p : pci) (l : list (Z * Z)).

Lemma stores_snoc l k v p : stores (l ++ [(k, v)]) p = store k v (stores l p).
Proof. unfold stores. by rewrite foldl_app. Qed.
Lemma stores_keeps l p : keeps (stores l p) = keeps p.
Proof. induction l as [|[k v] l IH] using rev_ind; [done|]. rewrite stores_snoc. exact IH. Qed.
Lemma stores_log l p : config_log (stores l p) = config_log p ++ l.
Proof.
  induction l as [|[k v] l IH] using rev_ind; [by rewrite app_nil_r|]. rewrite stores_snoc. cbn. by rewrite IH, app_assoc.
Qed.
Lemma stores_ok l p : writes_ok l → pci_ok p → pci_ok (stores l p).
Proof.
  intros Hl Hok. induction l as [|[k v] l IH] using rev_ind; [done|]. apply Forall_app in Hl as [Hl Hv]. rewrite stores_snoc.
  apply store_ok; [by inversion Hv|by apply IH].
Qed.
Lemma stores_here l k v p : registers (stores (l ++ [(k, v)]) p) k = keeps p k (registers (stores l p) k) v.
Proof. rewrite stores_snoc. cbn. by rewrite fn_lookup_insert, stores_keeps. Qed.
Lemma stores_there l k v p j : k ≠ j → registers (stores (l ++ [(k, v)]) p) j = registers (stores l p) j.
Proof. intros Hne. rewrite stores_snoc. cbn. by rewrite fn_lookup_insert_ne. Qed.
Lemma writes_snoc l k v : writes_ok l → 0 ≤ v < 2 ^ 32 → writes_ok (l ++ [(k, v)]).
Proof. intros Hl Hv. apply Forall_app. split; [done|]. constructor; [done|constructor]. Qed.

Lemma stores_skip l l' p k : (∀ kv, kv ∈ l' → kv.1 ≠ k) → registers (stores (l ++ l') p) k = registers (stores l p) k.
Proof.
  induction l' as [|[k' v'] l' IH] using rev_ind; intros Hn; [by rewrite app_nil_r|]. rewrite app_assoc, stores_there.
  - apply IH. intros kv Hin. apply Hn, elem_of_app. by left.
  - apply (Hn (k', v')), elem_of_app. right. by left.
Qed.

(** Accesses in a state reached by the writes [l]. *)
Definition after_writes (p0 : pci) l p : Prop := same (stores l p0) p ∧ writes_ok l.
Section accesses.
Context (p0 : pci) (Hok : pci_ok p0) (b d f : Z) (Hbdf : bdf_ok b d f).

Lemma after_ok l p : after_writes p0 l p → pci_ok p.
Proof. intros [Hs Hl]. eapply same_ok; [exact Hs|]. by apply stores_ok. Qed.
Lemma after_read16 l p off Q : after_writes p0 l p → 0 ≤ off < 256 → off mod 2 = 0 →
  (∀ p', after_writes p0 l p' → Q (field (stores l p0) b d f off 16) p') → wp (read_u16 b d f off) Q p.
Proof.
  intros Ha Ho Hal HQ. pose proof (after_ok _ _ Ha) as Hp. destruct Ha as [Hs Hl]. apply wp_read_u16; [done|done|done|done|].
  intros p' Hs'. rewrite (same_field _ _ _ _ _ _ _ Hs). apply HQ. split; [by etransitivity|done].
Qed.
Lemma after_read32 l p off Q : after_writes p0 l p → 0 ≤ off < 256 → off mod 4 = 0 →
  (∀ p', after_writes p0 l p' → Q (registers (stores l p0) (pkey b d f off)) p') → wp (read_u32 b d f off) Q p.
Proof.
  intros Ha Ho Hal HQ. pose proof (after_ok _ _ Ha) as Hp. destruct Ha as [Hs Hl]. apply wp_read_u32; [done|done|done|done|].
  intros p' Hs'. rewrite (same_regs _ _ Hs). apply HQ. split; [by etransitivity|done].
Qed.
Lemma after_write32 l p off v Q : after_writes p0 l p → 0 ≤ off < 256 → off mod 4 = 0 → 0 ≤ v < 2 ^ 32 →
  (∀ p', after_writes p0 (l ++ [(pkey b d f off, v)]) p' → Q tt p') → wp (write_u32 b d f off v) Q p.
Proof.
  intros Ha Ho Hal Hv HQ. pose proof (after_ok _ _ Ha) as Hp. destruct Ha as [Hs Hl]. apply wp_write_u32; [done|done|done|done|].
  intros p' Hs'. apply HQ. split; [|by apply writes_snoc]. rewrite stores_snoc. etransitivity; [by apply same_store|exact Hs'].
Qed.
(** A 16-bit write of the low or the high half of the register at [off]. *)
Lemma after_write16 l p off s v Q : after_writes p0 l p → 0 ≤ off → off + 4 ≤ 256 → off mod 4 = 0 → s = 0 ∨ s = 2 → 0 ≤ v < 2 ^ 16 →
  (∀ p', after_writes p0 (l ++ [(pkey b d f off, replace16 (registers (stores l p0) (pkey b d f off)) (8 * s) v)]) p' → Q tt p') →
  wp (write_u16 b d f (off + s) v) Q p.
Proof.
  intros Ha Ho Hfit Hal Hs Hv HQ. pose proof (after_ok _ _ Ha) as Hp. destruct Ha as [Hsm Hl].
  apply wp_write_u16; [done|done|lia|dlia|done|]. replace ((off + s) / 4 * 4) with off by dlia. replace ((off + s) mod 4) with s by dlia.
  rewrite (same_regs _ _ Hsm). intros p' Hs' _. apply HQ. set (w := replace16 _ _ _) in *.
  assert (Hw : 0 ≤ w < 2 ^ 32).
  { apply (replace16_bits (registers (stores l p0) (pkey b d f off)) (8 * s) v); [by apply stores_ok|done|lia]. }
  split; [|by apply writes_snoc]. rewrite stores_snoc. etransitivity; [by apply same_store|exact Hs'].
Qed.
End accesses.

Lemma replace16_high cur v : 0 ≤ cur < 2 ^ 32 → 0 ≤ v < 2 ^ 16 → replace16 cur 16 v / 2 ^ 16 = v ∧ replace16 cur 16 v mod 2 ^ 16 = cur mod 2 ^ 16.
Proof. intros. unfold replace16. dlia. Qed.
Lemma replace16_low cur v : 0 ≤ cur < 2 ^ 32 → 0 ≤ v < 2 ^ 16 → replace16 cur 0 v mod 2 ^ 16 = v ∧ replace16 cur 0 v / 2 ^ 16 = cur / 2 ^ 16.
Proof. intros. unfold replace16. change (2 ^ 0) with 1. dlia. Qed.
End stores.

(** Setting and clearing one bit of a 16-bit value. *)
Lemma set_bit16 x n : 0 ≤ x < 2 ^ 16 → 0 ≤ n < 16 → 0 ≤ Z.lor x (Z.shiftl 1 n) < 2 ^ 16.
Proof.
  intros Hx Hn. rewrite Z.shiftl_1_l. split; [apply Z.lor_nonneg; lia|].
  destruct (decide (x = 0)) as [->|]; [rewrite Z.lor_0_l; apply Z.pow_lt_mono_r; lia|]. apply Z.log2_lt_pow2.
  - assert (Z.lor x (2 ^ n) ≠ 0) by (rewrite Z.lor_eq_0_iff; lia). assert (0 ≤ Z.lor x (2 ^ n)) by (apply Z.lor_nonneg; lia). lia.
  - rewrite Z.log2_lor, Z.log2_pow2 by lia. assert (Z.log2 x < 16) by (apply Z.log2_lt_pow2; lia). lia.
Qed.
Lemma clear_bits x m : 0 ≤ x < 2 ^ 16 → 0 ≤ Z.land x m < 2 ^ 16.
Proof.
  intros Hx. split; [apply Z.land_nonneg; left; lia|].
  rewrite <-(Z.mod_small x (2 ^ 16)), <-Z.land_ones by lia. rewrite <-Z.land_assoc, (Z.land_comm _ m), Z.land_assoc, Z.land_ones by lia.
  apply Z.mod_pos_bound. lia.
Qed.

Lemma same_log p p' : same p p' → config_log p' = config_log p.
Proof. by intros [a ->]. Qed.

(** ** Registers with read-only bits *)
(** The writable bits take the written value, the others stay. *)
Definition stores_bits (writable : Z → bool) (old new r : Z) : Prop :=
  ∀ i, 0 ≤ i < 32 → Z.testbit r i = if writable i then Z.testbit new i else Z.testbit old i.
(** The command half: the interrupt disable bit is writable, each other bit may be or stay. *)
Definition command_bits (old new r : Z) : Prop :=
  Z.testbit r 10 = Z.testbit new 10 ∧ ∀ i, 0 ≤ i < 16 → Z.testbit r i = Z.testbit new i ∨ Z.testbit r i = Z.testbit old i.

Lemma bits_eq n x y : 0 ≤ n → 0 ≤ x < 2 ^ n → 0 ≤ y < 2 ^ n → (∀ i, 0 ≤ i < n → Z.testbit x i = Z.testbit y i) → x = y.
Proof.
  intros Hn Hx Hy Hb. apply Z.bits_inj'. intros i Hi. destruct (Z.ltb_spec i n); [by apply Hb|].
  by rewrite <-(Z.mod_small x (2 ^ n)), <-(Z.mod_small y (2 ^ n)), !Z.mod_pow2_bits_high by lia.
Qed.
(** The control half after a write that changes one writable bit. *)
Lemma control_stored writable old new r b : stores_bits writable old new r → 0 ≤ old < 2 ^ 32 → 0 ≤ r < 2 ^ 32 → 0 ≤ b < 16 → writable (b + 16) = true →
  0 ≤ new / 2 ^ 16 < 2 ^ 16 → (∀ i, 0 ≤ i < 16 → i ≠ b → Z.testbit (new / 2 ^ 16) i = Z.testbit (old / 2 ^ 16) i) → r / 2 ^ 16 = new / 2 ^ 16.
Proof.
  intros Hs Hold Hr Hb Hw Hnew Hsame. apply (bits_eq 16); [lia|dlia|done|]. intros i Hi. rewrite Z.div_pow2_bits by lia. rewrite Hs by lia.
  destruct (decide (i = b)) as [->|Hne]; [by rewrite Hw, Z.div_pow2_bits by lia|]. specialize (Hsame i Hi Hne).
  destruct (writable (i + 16)); [by rewrite Z.div_pow2_bits by lia|]. rewrite Hsame. by rewrite Z.div_pow2_bits by lia.
Qed.
Lemma command_stored old new r : command_bits old new r → 0 ≤ new mod 2 ^ 16 → new mod 2 ^ 16 = Z.lor (old mod 2 ^ 16) PCI_COMMAND_INTX_DISABLE → r mod 2 ^ 16 = new mod 2 ^ 16.
Proof.
  intros [H10 Hr] _ Hnew. apply (bits_eq 16); [lia|dlia|dlia|]. intros i Hi. rewrite Z.mod_pow2_bits_low by lia.
  assert (Hnb : ∀ j, 0 ≤ j < 16 → Z.testbit new j = Z.testbit (new mod 2 ^ 16) j) by (intros j Hj; by rewrite Z.mod_pow2_bits_low by lia).
  destruct (decide (i = 10)) as [->|Hne]; [by rewrite H10, Hnb by lia|]. destruct (Hr i Hi) as [->| ->]; [by apply Hnb|].
  rewrite Hnew, Z.lor_spec, Z.mod_pow2_bits_low by lia. unfold PCI_COMMAND_INTX_DISABLE. rewrite Z.shiftl_1_l, Z.pow2_bits_false by lia. by rewrite orb_false_r.
Qed.
(** The two writes of the control half, clearing and setting its bit [b]. *)
Lemma other_bits x b : 0 ≤ b < 16 → ∀ i, 0 ≤ i < 16 → i ≠ b →
  Z.testbit (Z.land x (bnot 16 (Z.shiftl 1 b))) i = Z.testbit x i ∧ Z.testbit (Z.lor x (Z.shiftl 1 b)) i = Z.testbit x i.
Proof.
  intros Hb i Hi Hne. rewrite Z.land_spec, Z.lor_spec, Z.shiftl_1_l. unfold bnot. change (2 ^ 16 - 1) with (Z.ones 16).
  rewrite Z.lxor_spec, Z.ones_spec_low, Z.pow2_bits_false by lia. by rewrite orb_false_r, andb_true_r.
Qed.

Lemma control_twice writable r0 w1 r1 w2 r2 b : 0 ≤ b < 16 → writable (b + 16) = true → 0 ≤ r0 < 2 ^ 32 → 0 ≤ r1 < 2 ^ 32 → 0 ≤ r2 < 2 ^ 32 →
  stores_bits writable r0 w1 r1 → stores_bits writable r1 w2 r2 →
  w1 / 2 ^ 16 = Z.land (r0 / 2 ^ 16) (bnot 16 (Z.shiftl 1 b)) → w2 / 2 ^ 16 = Z.lor (r0 / 2 ^ 16) (Z.shiftl 1 b) →
  r2 / 2 ^ 16 = Z.lor (r0 / 2 ^ 16) (Z.shiftl 1 b).
Proof.
  intros Hb Hw H0 H1 H2 S1 S2 E1 E2. assert (Hc : 0 ≤ r0 / 2 ^ 16 < 2 ^ 16) by dlia.
  assert (Hr1 : r1 / 2 ^ 16 = w1 / 2 ^ 16).
  { apply (control_stored writable r0 w1 r1 b); try done; rewrite E1; [by apply clear_bits|]. intros i Hi Hne. by apply other_bits. }
  rewrite <-E2. apply (control_stored writable r1 w2 r2 b); try done; rewrite E2; [by apply set_bit16|].
  intros i Hi Hne. destruct (other_bits (r0 / 2 ^ 16) b Hb i Hi Hne) as [Ho1 Ho2]. by rewrite Ho2, Hr1, E1, Ho1.
Qed.

(** ** MSI registers of a function *)
Section msi.
Context (p : pci) (Hok : pci_ok p) (d : PciDevice) (Hd : dev_ok d).
Notation K off := (pkey (dbus d) (ddevice d) (dfunction d) off).
Notation fld q off := (field q (dbus d) (ddevice d) (dfunction d) off 16).

Lemma half_high q c : pci_ok q → 0 ≤ c → c mod 4 = 0 → fld q (c + 2) = registers q (K c) / 2 ^ 16.
Proof.
  intros Hq Hc Hal. unfold field. replace ((c + 2) / 4 * 4) with c by dlia. replace ((c + 2) mod 4) with 2 by dlia.
  pose proof (pk_regs _ Hq (K c)). apply Z.mod_small. dlia.
Qed.
Lemma half_low q c : 0 ≤ c → c mod 4 = 0 → fld q c = registers q (K c) mod 2 ^ 16.
Proof.
  intros Hc Hal. unfold field. replace (c / 4 * 4) with c by dlia. replace (c mod 4) with 0 by lia. by rewrite Z.div_1_r.
Qed.

(** What the function keeps of the writes to its MSI capability at [c]: the
    upper half of the control register, the address, the data, and the command
    half of the command and status register. *)
Definition is_64 (c : Z) : bool := negb (Z.land (fld p (c + 2)) ADDR_64BIT =? 0).
Record msi_regs (c : Z) : Prop := {
  mr_fits : 0x40 ≤ c ∧ c mod 4 = 0 ∧ c + 0x10 ≤ 0x100;
  mr_ctrl : ∀ old new, stores_bits (λ i, (i =? 16) || (20 <=? i) && (i <=? 22)) old new (keeps p (K c) old new);
  mr_addr : ∀ old new, new mod 4 = 0 → keeps p (K (c + 4)) old new = new;
  mr_upper : is_64 c = true → ∀ old new, keeps p (K (c + 8)) old new = new;
  mr_data : ∀ old new, keeps p (K (c + (if is_64 c then 12 else 8))) old new mod 2 ^ 16 = new mod 2 ^ 16;
  mr_cmd : ∀ old new, command_bits old new (keeps p (K 4) old new);
}.
Record msi_set (v c : Z) (p' : pci) : Prop := {
  ms_ok : pci_ok p';
  ms_addr : registers p' (K (c + 4)) = LAPIC_MSI_ADDRESS_BASE;
  ms_upper : is_64 c = true → registers p' (K (c + 8)) = 0;
  ms_data : fld p' (c + (if is_64 c then 12 else 8)) = v;
  ms_ctrl : fld p' (c + 2) = Z.lor (fld p (c + 2)) 1;
  ms_cmd : fld p' 4 = Z.lor (fld p 4) 1024;
  ms_order : ∃ w1 mid w2 w3, config_log p' = config_log p ++ (K c, w1) :: mid ++ [(K c, w2); (K 4, w3)] ∧
    Z.testbit w1 16 = false ∧ Z.testbit w2 16 = true ∧ ∀ kv, kv ∈ mid → kv.1 ≠ K c;
}.

Lemma pkey_ne a b : a ≠ b → K a ≠ K b.
Proof. unfold pkey. lia. Qed.

Lemma high_testbit w : Z.testbit w 16 = Z.testbit (w / 2 ^ 16) 0.
Proof. by rewrite Z.div_pow2_bits. Qed.

(** The writes after the capability was found. *)
Lemma msi_writes v c p1 (Q : result MsiConfig MsiError → pci → Prop) : msi_regs c → 0 ≤ v < 2 ^ 16 → same p p1 → (∀ p', msi_set v c p' → Q (Ok (mkMsiConfig v c)) p') →
  wp (msg_ctrl ← read_u16 (dbus d) (ddevice d) (dfunction d) (c + MSI_MESSAGE_CONTROL);
      let is_64bit := negb (Z.land msg_ctrl ADDR_64BIT =? 0) in
      write_u16 (dbus d) (ddevice d) (dfunction d) (c + MSI_MESSAGE_CONTROL) (Z.land msg_ctrl (bnot 16 MSI_ENABLE)) ;;
      write_u32 (dbus d) (ddevice d) (dfunction d) (c + MESSAGE_ADDRESS) LAPIC_MSI_ADDRESS_BASE ;;
      data_offset ← (if is_64bit : bool then
          write_u32 (dbus d) (ddevice d) (dfunction d) (c + MESSAGE_ADDRESS_UPPER) 0 ;; mret MESSAGE_DATA_64
        else mret MESSAGE_DATA_32);
      write_u16 (dbus d) (ddevice d) (dfunction d) (c + data_offset) v ;;
      write_u16 (dbus d) (ddevice d) (dfunction d) (c + MSI_MESSAGE_CONTROL) (Z.lor msg_ctrl MSI_ENABLE) ;;
      disable_intx d ;;
      mret (Ok (mkMsiConfig v c))) Q p1.
Proof.
  intros Hm Hv Hs HQ. destruct (mr_fits _ Hm) as (Hlo & Hal & Hfit). set (ctrl := fld p (c + 2)).
  assert (Hctrl : 0 ≤ ctrl < 2 ^ 16) by (apply field_range; lia).
  assert (A0 : after_writes p [] p1) by (split; [done|constructor]).
  assert (Hoff : ctrl = registers p (K c) / 2 ^ 16) by (by apply half_high; [|lia|]).
  pose proof (pk_regs _ Hok) as Hreg.
  unfold MSI_MESSAGE_CONTROL, MESSAGE_ADDRESS, MESSAGE_ADDRESS_UPPER, MESSAGE_DATA_64, MESSAGE_DATA_32.
  wp_step. apply (after_read16 p Hok _ _ _ Hd [] p1); [done|lia|dlia|]. change (stores [] p) with p. fold ctrl. intros p2 A2.
  wp_step. apply (after_write16 p Hok _ _ _ Hd [] p2 c 2); [done|lia|lia|done|by right|by apply clear_bits|]. cbn [app].
  set (w1 := replace16 _ _ _). intros p3 A3.
  wp_step. apply (after_write32 p Hok _ _ _ Hd [(K c, w1)] p3 (c + 4)); [exact A3|lia|dlia|done|]. intros p4 A4. change (negb (Z.land ctrl ADDR_64BIT =? 0)) with (is_64 c).
  set (l4 := [(K c, w1)] ++ [(K (c + 4), LAPIC_MSI_ADDRESS_BASE)]) in *.
  assert (Hl4c : registers (stores l4 p) (K c) = keeps p (K c) (registers p (K c)) w1).
  { unfold l4. rewrite stores_there by (apply pkey_ne; lia). exact (stores_here [] (K c) w1 p). }
  (* the upper address, when there is one *)
  set (off := if is_64 c then 12 else 8).
  assert (Hmid : ∀ k (l5 : list (Z * Z)) p5, after_writes p (l4 ++ l5) p5 → k = off → (∀ kv, kv ∈ l5 → kv.1 = K (c + 8) ∧ is_64 c = true) →
    (is_64 c = true → registers (stores (l4 ++ l5) p) (K (c + 8)) = 0) →
    wp (write_u16 (dbus d) (ddevice d) (dfunction d) (c + k) v ;;
        write_u16 (dbus d) (ddevice d) (dfunction d) (c + 2) (Z.lor ctrl MSI_ENABLE) ;; disable_intx d ;; mret (Ok (mkMsiConfig v c))) Q p5).
  { intros k l5 p5 A5 -> Hl5 Hup. assert (Hoffr : 8 ≤ off ≤ 12 ∧ off mod 4 = 0) by (unfold off; by destruct (is_64 c)).
    wp_step. replace (c + off) with (c + off + 0) by lia. apply (after_write16 p Hok _ _ _ Hd (l4 ++ l5) p5 (c + off) 0); [exact A5|lia|lia|dlia|by left|done|].
    set (w4 := replace16 _ _ _). intros p6 A6. set (l6 := (l4 ++ l5) ++ [(K (c + off), w4)]) in *.
    wp_step. apply (after_write16 p Hok _ _ _ Hd l6 p6 c 2); [exact A6|lia|lia|done|by right|by apply (set_bit16 ctrl 0)|].
    set (w5 := replace16 _ _ _). intros p7 A7. set (l7 := l6 ++ [(K c, w5)]) in *.
    unfold disable_intx, PCI_COMMAND. wp_step. wp_step. apply (after_read16 p Hok _ _ _ Hd l7 p7); [exact A7|lia|done|]. set (cmd := fld (stores l7 p) 4).
    intros p8 A8. change 4 with (4 + 0) at 1. assert (Hcmd : 0 ≤ cmd < 2 ^ 16) by (apply field_range; lia).
    apply (after_write16 p Hok _ _ _ Hd l7 p8 4 0); [exact A8|lia|lia|done|by left|by apply (set_bit16 cmd 10)|].
    set (w6 := replace16 _ _ _). intros p9 A9. wp_step. apply HQ. destruct A9 as [S9 W9].
    pose proof (stores_ok _ _ W9 Hok) as Hok9. pose proof (proj2 A6) as W6. pose proof (proj2 A7) as W7. pose proof (proj2 A5) as W5.
    assert (Hreg' : ∀ l, writes_ok l → ∀ k, 0 ≤ registers (stores l p) k < 2 ^ 32) by (intros l Hl; apply (stores_ok l p Hl Hok)).
    assert (Hne : ∀ kv, kv ∈ l5 → kv.1 ≠ K c ∧ kv.1 ≠ K (c + 4) ∧ kv.1 ≠ K 4).
    { intros kv Hin. destruct (Hl5 kv Hin) as [-> _]. split; [|split]; apply pkey_ne; lia. }
    assert (Hskip : ∀ k, k = K c ∨ k = K (c + 4) ∨ k = K 4 → registers (stores (l4 ++ l5) p) k = registers (stores l4 p) k).
    { intros k Hk. apply stores_skip. intros kv Hin. destruct (Hne kv Hin) as (? & ? & ?). by destruct Hk as [->|[->| ->]]. }
    assert (Hc4 : registers (stores l7 p) (K 4) = registers p (K 4)).
    { unfold l7, l6. rewrite !stores_there by (apply pkey_ne; lia). rewrite Hskip by (by right; right). unfold l4.
      rewrite stores_there by (apply pkey_ne; lia). apply (stores_there []). apply pkey_ne. lia. }
    assert (Hcmd' : cmd = fld p 4) by (unfold cmd; rewrite !half_low by dlia; by rewrite Hc4).
    assert (Hl6 : registers (stores l6 p) (K c) = keeps p (K c) (registers p (K c)) w1).
    { unfold l6. rewrite stores_there by (apply pkey_ne; lia). rewrite Hskip by (by left). rewrite Hl4c. done. }
    destruct (replace16_high (registers (stores l6 p) (K c)) (Z.lor ctrl MSI_ENABLE)) as [Hw5 _]; [by apply Hreg'|by apply (set_bit16 ctrl 0)|].
    destruct (replace16_low (registers (stores (l4 ++ l5) p) (K (c + off))) v) as [Hw4 _]; [by apply Hreg'|done|].
    destruct (replace16_low (registers (stores l7 p) (K 4)) (Z.lor cmd PCI_COMMAND_INTX_DISABLE)) as [Hw6 _]; [by apply Hreg'|by apply (set_bit16 cmd 10)|].
    destruct (replace16_high (registers p (K c)) (Z.land ctrl (bnot 16 MSI_ENABLE))) as [Hw1 _]; [done|by apply clear_bits|].
    split.
    - by apply (same_ok _ _ S9).
    - rewrite (same_regs _ _ S9). unfold l7, l6. rewrite !stores_there by (apply pkey_ne; lia). rewrite Hskip by (by right; left).
      unfold l4. rewrite stores_here. by apply mr_addr.
    - intros H64. rewrite (same_regs _ _ S9). unfold l7, l6. rewrite !stores_there by (apply pkey_ne; unfold off; rewrite ?H64; lia). by apply Hup.
    - fold off. rewrite (same_field _ _ _ _ _ _ _ S9), half_low by dlia. unfold l7. rewrite !stores_there by (apply pkey_ne; lia). unfold l6.
      rewrite stores_here. unfold off at 1. rewrite (mr_data _ Hm). fold w4 in Hw4. exact Hw4.
    - rewrite (same_field _ _ _ _ _ _ _ S9), half_high by (done || lia). rewrite stores_there by (apply pkey_ne; lia). unfold l7.
      rewrite stores_here. fold ctrl. rewrite Hoff. change 1 with (Z.shiftl 1 0).
      apply (control_twice (λ i, (i =? 16) || (20 <=? i) && (i <=? 22)) _ w1 (registers (stores l6 p) (K c)) w5); try done; try lia.
      + by apply Hreg'.
      + apply (pk_keeps _ Hok). apply Forall_app in W7 as [_ W7]. exact (Forall_inv W7).
      + rewrite Hl6. apply (mr_ctrl _ Hm).
      + apply (mr_ctrl _ Hm).
      + rewrite <-Hoff. exact Hw1.
      + rewrite <-Hoff. exact Hw5.
    - rewrite (same_field _ _ _ _ _ _ _ S9), half_low by dlia. rewrite stores_here. change (w6 mod 2 ^ 16 = Z.lor cmd PCI_COMMAND_INTX_DISABLE) in Hw6.
      rewrite (command_stored (registers (stores l7 p) (K 4)) w6); [by rewrite Hw6, Hcmd'|apply (mr_cmd _ Hm)|rewrite Hw6; by apply (set_bit16 cmd 10)|].
      rewrite Hw6, Hc4, Hcmd'. by rewrite half_low by dlia.
    - exists w1, ((K (c + 4), LAPIC_MSI_ADDRESS_BASE) :: l5 ++ [(K (c + off), w4)]), w5, w6. rewrite (same_log _ _ S9), stores_log.
      split; [unfold l7, l6, l4; cbn [app]; by rewrite <-!app_assoc|]. split; [|split].
      + rewrite high_testbit. change (w1 / 2 ^ 16 = Z.land ctrl (bnot 16 MSI_ENABLE)) in Hw1. rewrite Hw1, Z.land_spec. change (Z.testbit (bnot 16 MSI_ENABLE) 0) with false. apply andb_false_r.
      + rewrite high_testbit. change (w5 / 2 ^ 16 = Z.lor ctrl MSI_ENABLE) in Hw5. rewrite Hw5, Z.lor_spec. change (Z.testbit MSI_ENABLE 0) with true. apply orb_true_r.
      + intros kv. rewrite elem_of_cons, elem_of_app, list_elem_of_singleton. intros [->|[Hin| ->]].
        * apply pkey_ne. lia.
        * by apply Hne.
        * apply pkey_ne. lia. }
  clearbody l4. destruct (is_64 c) eqn:H64.
  - wp_step. wp_step. apply (after_write32 p Hok _ _ _ Hd l4 p4 (c + 8)); [exact A4|lia|dlia|done|]. intros p5 A5. wp_step. cbv beta.
    apply (Hmid 12 [(K (c + 8), 0)]); [exact A5|done| |].
    + intros kv. rewrite list_elem_of_singleton. by intros ->.
    + intros _. rewrite stores_here. by apply mr_upper.
  - wp_step. wp_step. apply (Hmid 8 []); [by rewrite app_nil_r|done| |done]. intros kv Hin. by apply elem_of_nil in Hin.
Qed.
End msi.

(** ** The MSI-X table *)
Section table.
Context (c : MsixConfig) (n : Z) (Hn : table_size (capability c) = n) (Hpos : 0 ≤ n ≤ 2048).
Context (Hal : table_virt_addr c mod 4 = 0) (Hlo : 0 ≤ table_virt_addr c) (Hfit : table_virt_addr c + 16 * n ≤ 2 ^ 64).
Implicit Types (s : msix_sys) (T : Z → Z).
(** Word [w] of entry [i]. *)
Definition word (i w : Z) : Z := table_virt_addr c + 16 * i + 4 * w.

Lemma entry_address_run i : 0 ≤ i < n → entry_address c i = Some (word i 0).
Proof.
  intros Hi. unfold entry_address, ENTRY_SIZE. rewrite cmul_some by lia. cbn. rewrite cadd_some by lia. unfold word. f_equal. lia.
Qed.
Lemma wp_msix_write i w v Q s : 0 ≤ i < n → 0 ≤ w < 4 → Q tt (mkMsixSys (ms_pci s) (<[word i w := v]> (table s)) (trace s ++ [Table (word i w) v])) → wp (msix_write (word i w) v) Q s.
Proof.
  intros Hi Hw HQ. unfold msix_write. wp_step. wp_step; [apply Z.eqb_eq; unfold word; dlia|]. by wp_step.
Qed.
Lemma word_inj i w j u : 0 ≤ w < 4 → 0 ≤ u < 4 → word i w = word j u → i = j ∧ w = u.
Proof. unfold word. lia. Qed.

(** Entries before [k] satisfy [P], in their old and new words; no other word of
    memory changed. *)
Definition entries_done (P : Z → (Z → Z) → (Z → Z) → Prop) (k : Z) T T' : Prop :=
  (∀ i, 0 ≤ i < k → P i (λ w, T (word i w)) (λ w, T' (word i w))) ∧
  ∀ a, (∀ i w, 0 ≤ i < k → 0 ≤ w < 4 → a ≠ word i w) → T' a = T a.

(** One more entry. *)
Lemma entries_step (P : Z → (Z → Z) → (Z → Z) → Prop) k T T1 T2 : 0 ≤ k →
  (∀ i f g f' g', P i f g → (∀ w, 0 ≤ w < 4 → f w = f' w) → (∀ w, 0 ≤ w < 4 → g w = g' w) → P i f' g') →
  entries_done P k T T1 → P k (λ w, T1 (word k w)) (λ w, T2 (word k w)) →
  (∀ a, (∀ w, 0 ≤ w < 4 → a ≠ word k w) → T2 a = T1 a) → entries_done P (k + 1) T T2.
Proof.
  intros Hk Hext [Hd Ho] HP Hother. split.
  - intros i Hi. destruct (decide (i = k)) as [->|Hne].
    + eapply Hext; [exact HP| |done]. intros w Hw. apply Ho. intros j u Hj Hu He. apply word_inj in He as [? ?]; [lia|done|done].
    + eapply Hext; [apply Hd; lia|done|]. intros w Hw. symmetry. apply Hother. intros u Hu He. apply word_inj in He as [? ?]; [lia|done|done].
  - intros a Ha. rewrite Hother by (intros w Hw; apply Ha; lia). apply Ho. intros i w Hi Hw. apply Ha; lia.
Qed.

Definition masked (i : Z) (f g : Z → Z) : Prop := g 3 = Z.lor (f 3) 1 ∧ ∀ w, 0 ≤ w < 3 → g w = f w.
Definition unmasked (i : Z) (f g : Z → Z) : Prop := g 3 = Z.land (f 3) (bnot 32 1) ∧ ∀ w, 0 ≤ w < 3 → g w = f w.
Definition programmed (vectors : list Z) (i : Z) (f g : Z → Z) : Prop :=
  g 0 = LAPIC_MSI_ADDRESS_BASE ∧ g 1 = 0 ∧ vectors !! Z.to_nat i = Some (g 2) ∧ g 3 = f 3.

(** Reading and rewriting the control word of entry [i]. *)
Lemma control_spec i (h : Z → Z) Q s : 0 ≤ i < n →
  Q (Ok tt) (mkMsixSys (ms_pci s) (<[word i 3 := h (table s (word i 3))]> (table s)) (trace s ++ [Table (word i 3) (h (table s (word i 3)))])) →
  wp (entry_addr ← lift (entry_address c i); ctrl_ptr ← lift (cadd 64 entry_addr VECTOR_CONTROL); ctrl ← msix_read ctrl_ptr;
      msix_write ctrl_ptr (h ctrl) ;; mret (Ok tt : result unit MsiError)) Q s.
Proof.
  intros Hi HQ. wp_step. wp_step; [by apply entry_address_run|]. wp_step.
  wp_step; [apply cadd_some; unfold word, VECTOR_CONTROL; lia|]. replace (word i 0 + VECTOR_CONTROL) with (word i 3) by (unfold word, VECTOR_CONTROL; lia).
  unfold msix_read. wp_step. wp_step. wp_step; [apply Z.eqb_eq; unfold word; dlia|]. wp_step. wp_step. apply wp_msix_write; [done|lia|]. by wp_step.
Qed.
Lemma control_entry i (h : Z → Z) s : 
  let T2 := <[word i 3 := h (table s (word i 3))]> (table s) in
  (T2 (word i 3) = h (table s (word i 3)) ∧ ∀ w, 0 ≤ w < 3 → T2 (word i w) = table s (word i w)) ∧
  ∀ a, (∀ w, 0 ≤ w < 4 → a ≠ word i w) → T2 a = table s a.
Proof.
  intros T2. unfold T2. rewrite fn_lookup_insert. split; [split; [done|]|].
  - intros w Hw. apply fn_lookup_insert_ne. unfold word. lia.
  - intros a Ha. apply fn_lookup_insert_ne. intros He. apply (Ha 3); [lia|done].
Qed.

(** The writes each phase makes, in order. *)
Definition mask_writes T (k : Z) : list msix_event := (λ i, Table (word i 3) (Z.lor (T (word i 3)) MASK)) <$> seqZ 0 k.
Definition unmask_writes T (k : Z) : list msix_event := (λ i, Table (word i 3) (Z.land (T (word i 3)) (bnot 32 MASK))) <$> seqZ 0 k.
Definition program_entry (i : nat) (v : Z) : list msix_event :=
  [Table (word (Z.of_nat i) 0) LAPIC_MSI_ADDRESS_BASE; Table (word (Z.of_nat i) 1) 0; Table (word (Z.of_nat i) 2) v].
Definition program_writes (vectors : list Z) : list msix_event := concat (imap program_entry vectors).
Lemma seqZ_snoc k : 0 ≤ k → seqZ 0 (k + 1) = seqZ 0 k ++ [k].
Proof. intros Hk. rewrite seqZ_app by lia. by rewrite Z.add_0_l. Qed.
Lemma entries_keep P k T T' w : entries_done P k T T' → 0 ≤ w < 4 → 0 ≤ k → T' (word k w) = T (word k w).
Proof. intros [_ Ho] Hw Hk. apply Ho. intros i u Hi Hu He. apply word_inj in He as [? ?]; [lia|done|done]. Qed.

Lemma mask_all_spec s : wp (mask_all c) (λ _ s', ms_pci s' = ms_pci s ∧ entries_done masked n (table s) (table s') ∧ trace s' = trace s ++ mask_writes (table s) n) s.
Proof.
  unfold mask_all. rewrite Hn. apply (wp_for_range n _ (λ k s', ms_pci s' = ms_pci s ∧ entries_done masked k (table s) (table s') ∧ trace s' = trace s ++ mask_writes (table s) k)); [lia| |].
  - split; [done|]. split; [split; [lia|done]|]. by rewrite app_nil_r.
  - intros i s' Hi (Hp & Hd & Htr). unfold mask_entry. rewrite Hn, (proj2 (Z.leb_gt n i)) by lia. wp_step.
    apply (control_spec i (λ x, Z.lor x MASK)); [done|]. wp_step; [done|]. split; [done|]. apply and_comm; split.
    { cbn [trace]. unfold mask_writes. rewrite seqZ_snoc, fmap_app by lia. by rewrite Htr, (entries_keep _ _ _ _ 3 Hd), <-app_assoc by lia. }
    pose proof (control_entry i (λ x, Z.lor x MASK) s') as [HP Ho]. eapply entries_step; [lia| |exact Hd|exact HP|exact Ho].
    intros j f g f' g' [H3 Hw] Hf Hg. split; [by rewrite <-Hf, <-Hg by lia|]. intros w Hw'. rewrite <-Hf, <-Hg by lia. by apply Hw.
Qed.

Lemma unmask_spec (len : nat) s : Z.of_nat len ≤ n →
  wp (try_for_each (seqZ 0 (Z.of_nat len)) (λ i, unmask_entry c (wrap 16 i)))
    (λ r s', r = Ok tt ∧ ms_pci s' = ms_pci s ∧ entries_done unmasked (Z.of_nat len) (table s) (table s') ∧ trace s' = trace s ++ unmask_writes (table s) (Z.of_nat len)) s.
Proof.
  intros Hlen. apply (wp_try_for_range _ _ (λ k s', ms_pci s' = ms_pci s ∧ entries_done unmasked k (table s) (table s') ∧ trace s' = trace s ++ unmask_writes (table s) k)); [lia| |].
  - split; [done|]. split; [split; [lia|done]|]. by rewrite app_nil_r.
  - intros i s' Hi (Hp & Hd & Htr). unfold unmask_entry, wrap. rewrite (Z.mod_small i) by lia. rewrite Hn, (proj2 (Z.leb_gt n i)) by lia.
    apply (control_spec i (λ x, Z.land x (bnot 32 MASK))); [lia|]. split; [done|]. split; [done|]. apply and_comm; split.
    { cbn [trace]. unfold unmask_writes. rewrite seqZ_snoc, fmap_app by lia. by rewrite Htr, (entries_keep _ _ _ _ 3 Hd), <-app_assoc by lia. }
    pose proof (control_entry i (λ x, Z.land x (bnot 32 MASK)) s') as [HP Ho]. eapply entries_step; [lia| |exact Hd|exact HP|exact Ho].
    intros j f g f' g' [H3 Hw] Hf Hg. split; [by rewrite <-Hf, <-Hg by lia|]. intros w Hw'. rewrite <-Hf, <-Hg by lia. by apply Hw.
Qed.

Lemma configure_entries_spec vectors s : Z.of_nat (length vectors) ≤ n → (∀ v, v ∈ vectors → invalid_vector v = false) →
  wp (try_for_each (imap (λ i v, (Z.of_nat i, v)) vectors) (λ '(i, vector), configure_entry c (wrap 16 i) vector))
    (λ r s', r = Ok tt ∧ ms_pci s' = ms_pci s ∧ entries_done (programmed vectors) (Z.of_nat (length vectors)) (table s) (table s') ∧ trace s' = trace s ++ program_writes vectors) s.
Proof.
  intros Hlen Hv. eapply wp_mono; [apply (wp_try_for_each _ (λ dn s', ms_pci s' = ms_pci s ∧
    entries_done (programmed vectors) (Z.of_nat (length dn)) (table s) (table s') ∧ trace s' = trace s ++ concat (take (length dn) (imap program_entry vectors))))|].
  - split; [done|]. split; [split; [cbn; lia|done]|]. by rewrite app_nil_r.
  - intros dn [i v] todo s' Heq (Hp & Hd & Htr). set (k := Z.of_nat (length dn)) in *.
    assert (Hi : imap (λ i v, (Z.of_nat i, v)) vectors !! length dn = Some (i, v)) by (by rewrite Heq, list_lookup_middle).
    rewrite list_lookup_imap in Hi. apply fmap_Some in Hi as (v' & Hlk & [= -> <-]). pose proof (lookup_lt_Some _ _ _ Hlk) as Hlt. fold k.
    unfold configure_entry, wrap. rewrite (Z.mod_small k) by lia. rewrite Hn, (proj2 (Z.leb_gt n k)) by lia.
    rewrite Hv by (by eapply list_elem_of_lookup_2). wp_step. wp_step; [apply entry_address_run; lia|].
    wp_step. apply wp_msix_write; [lia|lia|]. wp_step. wp_step; [apply cadd_some; unfold word, MSG_UPPER_ADDR; lia|].
    replace (word k 0 + MSG_UPPER_ADDR) with (word k 1) by (unfold word, MSG_UPPER_ADDR; lia). wp_step. apply wp_msix_write; [lia|lia|].
    wp_step. wp_step; [apply cadd_some; unfold word, MSG_DATA; lia|].
    replace (word k 0 + MSG_DATA) with (word k 2) by (unfold word, MSG_DATA; lia). wp_step. apply wp_msix_write; [lia|lia|].
    wp_step. cbn [ms_pci table trace]. split; [done|]. split; [done|]. apply and_comm; split.
    { rewrite length_app, Nat.add_1_r. rewrite (take_S_r _ _ (program_entry (length dn) v)) by (by rewrite list_lookup_imap, Hlk).
      rewrite concat_app, Htr. cbn [concat app]. unfold program_entry, k. by rewrite <-!app_assoc. }
    rewrite length_app. cbn [length]. replace (Z.of_nat (length dn + 1)) with (k + 1) by lia.
    assert (Hdiff : ∀ a b, a ≠ b → word k a ≠ word k b) by (unfold word; lia).
    eapply entries_step; [lia| |exact Hd| |].
    + intros j f g f' g' (P0 & P1 & P2 & P3) Hf Hg. split; [by rewrite <-Hg by lia|]. split; [by rewrite <-Hg by lia|].
      split; [by rewrite <-Hg by lia|by rewrite <-Hf, <-Hg by lia].
    + split; [|split; [|split]].
      * by rewrite !fn_lookup_insert_ne, fn_lookup_insert by (by apply Hdiff).
      * by rewrite fn_lookup_insert_ne, fn_lookup_insert by (by apply Hdiff).
      * rewrite fn_lookup_insert. unfold k. by rewrite Nat2Z.id.
      * by rewrite !fn_lookup_insert_ne by (by apply Hdiff).
    + intros a Ha. rewrite !fn_lookup_insert_ne; [done| | |]; intros He; eapply Ha; try (symmetry; exact He); lia.
  - intros r s' (-> & Hp & Hd & Htr). rewrite length_imap in Hd, Htr. split; [done|]. split; [done|]. split; [done|]. by rewrite take_ge in Htr by (by rewrite length_imap).
Qed.
End table.
