(* ===== verification/MsiProps.v ===== *)
(** * Message signalled interrupts: the theorems. *)
From S2P Require Import Prelude Addr Pci PciThms PciProps Msi MsiThms.
Set Default Goal Selector "!".

Section props.
Context (p : pci) (Hok : pci_ok p) (d : PciDevice) (Hd : dev_ok d).
Notation K off := (pkey (dbus d) (ddevice d) (dfunction d) off).
Notation fld q off := (field q (dbus d) (ddevice d) (dfunction d) off 16).

(** ** MSI-X: what the capability at [c] says *)
Definition msix_capability (c : Z) : MsixCapability :=
  mkMsixCap c (fld p (c + 2) mod 2 ^ 11 + 1) (registers p (K (c + 4)) mod 8) (registers p (K (c + 4)) / 8 * 8)
    (registers p (K (c + 8)) mod 8) (registers p (K (c + 8)) / 8 * 8).
(** What the function keeps of a write, as PCI has it: of the message control
    register the enable bit and the function mask are writable, the table size
    and the rest are not; of the command register the interrupt disable bit is
    writable and every other bit may or may not be. And its table is addressable. *)
Record msix_regs (c : Z) : Prop := {
  mx_fits : 0x40 ≤ c ∧ c mod 4 = 0 ∧ c + 0x0C ≤ 0x100;
  mx_ctrl : ∀ old new, stores_bits (λ i, (30 <=? i) && (i <=? 31)) old new (keeps p (K c) old new);
  mx_cmd : ∀ old new, command_bits old new (keeps p (K 4) old new);
  mx_table : ∀ bar, bar_of p d (table_bir (msix_capability c)) = Some bar → is_memory bar = true →
    base_address bar + table_offset (msix_capability c) < 2 ^ 64 →
    KERNEL_VIRTUAL_BASE + (base_address bar + table_offset (msix_capability c)) + 16 * 2048 ≤ 2 ^ 64;
}.

Lemma detect_msix_wp Q : (∀ q, on_list p d q → 0x40 ≤ q) → (∀ q, on_list p d q → cap_at p d q = CAP_MSIX → msix_regs q) →
  (∀ r p', same p p' → found p d CAP_MSIX r → Q (msix_capability <$> r) p') → wp (detect_msix d) Q p.
Proof.
  intros Hwf Hregs HQ. unfold detect_msix. wp_step. apply find_capability_wp; [done|done|done|]. intros r p1 S1 Hr.
  destruct r as [c|]; [|wp_step; by apply (HQ None)]. pose proof Hr as (_ & Hon & Hat). destruct (mx_fits _ (Hregs c Hon Hat)) as (Hlo & Hal & Hfit).
  assert (A1 : after_writes p [] p1) by (split; [done|constructor]). pose proof (pk_regs _ Hok) as Hreg.
  unfold MSIX_MESSAGE_CONTROL, TABLE_OFFSET_BIR, PBA_OFFSET_BIR.
  wp_step. apply (after_read16 p Hok _ _ _ Hd [] p1); [done|lia|dlia|]. intros p2 A2.
  wp_step. apply (after_read32 p Hok _ _ _ Hd [] p2); [done|lia|dlia|]. intros p3 A3.
  wp_step. apply (after_read32 p Hok _ _ _ Hd [] p3); [done|lia|dlia|]. intros p4 A4.
  change (stores [] p) with p. wp_step.
  assert (Hlow : ∀ x, 0 ≤ x < 2 ^ 32 → Z.land x 0xFFFFFFF8 = x / 8 * 8).
  { intros x Hx. pose proof (land_mask_mid x 3 32 ltac:(lia)) as H. rewrite Z.mod_small in H by done. exact H. }
  rewrite !Hlow by done. unfold TABLE_SIZE_MASK. change 0x07FF with (Z.ones 11). change 0x07 with (Z.ones 3). rewrite !Z.land_ones by lia.
  apply (HQ (Some c)); [by destruct A4|done].
Qed.

(** ** Outcomes of [configure_msix] *)
(** A successful configuration: entries with a vector are programmed and
    unmasked, the others masked, the function is enabled and its pin interrupt
    off; no other memory changed.  And the writes, all of them, in their order:
    the function is disabled, every entry is masked, the entries are programmed,
    then unmasked, and only then is the function enabled and the pin interrupt
    turned off. *)
Record msix_done (vectors : list Z) (T : Z → Z) (c : Z) (cfg : MsixConfig) (s' : msix_sys) : Prop := {
  md_cap : capability cfg = msix_capability c;
  md_entry : ∀ i, 0 ≤ i < Z.of_nat (length vectors) →
    table s' (word cfg i 0) = LAPIC_MSI_ADDRESS_BASE ∧ table s' (word cfg i 1) = 0 ∧
    vectors !! Z.to_nat i = Some (table s' (word cfg i 2)) ∧
    table s' (word cfg i 3) = Z.land (Z.lor (T (word cfg i 3)) 1) (bnot 32 1);
  md_rest : ∀ i, Z.of_nat (length vectors) ≤ i < table_size (capability cfg) →
    table s' (word cfg i 3) = Z.lor (T (word cfg i 3)) 1 ∧ ∀ w, 0 ≤ w < 3 → table s' (word cfg i w) = T (word cfg i w);
  md_outside : ∀ a, (∀ i w, 0 ≤ i < table_size (capability cfg) → 0 ≤ w < 4 → a ≠ word cfg i w) → table s' a = T a;
  md_ctrl : fld (ms_pci s') (c + 2) = Z.lor (fld p (c + 2)) MSIX_ENABLE;
  md_cmd : fld (ms_pci s') 4 = Z.lor (fld p 4) PCI_COMMAND_INTX_DISABLE;
  md_order : ∃ w1 w2 w3, Z.testbit w1 31 = false ∧ Z.testbit w2 31 = true ∧
    trace s' = Config (K c) w1 :: mask_writes cfg T (table_size (capability cfg)) ++ program_writes cfg vectors ++
      unmask_writes cfg (λ a, Z.lor (T a) 1) (Z.of_nat (length vectors)) ++ [Config (K c) w2; Config (K 4) w3];
}.
(** The reasons of the errors. *)
Definition msix_error (vectors : list Z) (e : MsiError) : Prop :=
  match e with
  | NotSupported => found p d CAP_MSIX None
  | TooManyVectors n m => ∃ c, found p d CAP_MSIX (Some c) ∧ n = Z.of_nat (length vectors) ∧ m = table_size (msix_capability c) ∧ m < n
  | InvalidVector v => v ∈ vectors ∧ invalid_vector v = true
  | InvalidBar b => ∃ c, found p d CAP_MSIX (Some c) ∧ b = table_bir (msix_capability c) ∧
      ∀ bar, bar_of p d b = Some bar → is_memory bar = true → 2 ^ 64 ≤ base_address bar + table_offset (msix_capability c)
  | MappingFailed => ∃ c bar, found p d CAP_MSIX (Some c) ∧ bar_of p d (table_bir (msix_capability c)) = Some bar ∧
      base_address bar + table_offset (msix_capability c) = 0
  | InvalidEntry _ _ => False
  end.

Lemma check_vectors_spec vectors : match check_vectors vectors with
  | Ok _ => ∀ v, v ∈ vectors → invalid_vector v = false
  | Err e => msix_error vectors e end.
Proof.
  unfold check_vectors. destruct (filter _ vectors) as [|v l] eqn:Hf.
  - intros v Hin. destruct (invalid_vector v) eqn:Hv; [|done]. exfalso.
    assert (H : v ∈ filter (λ v, invalid_vector v = true) vectors) by (by apply list_elem_of_filter). rewrite Hf in H. by apply elem_of_nil in H.
  - assert (H : v ∈ filter (λ v, invalid_vector v = true) vectors) by (rewrite Hf; by left). apply list_elem_of_filter in H as [? ?]. done.
Qed.

(** Three phases on one table. *)
Lemma phases cfg n (vectors : list Z) (T T1 T2 T3 : Z → Z) : 0 ≤ n → Z.of_nat (length vectors) ≤ n →
  entries_done cfg masked n T T1 → entries_done cfg (programmed vectors) (Z.of_nat (length vectors)) T1 T2 →
  entries_done cfg unmasked (Z.of_nat (length vectors)) T2 T3 →
  (∀ i, 0 ≤ i < Z.of_nat (length vectors) → T3 (word cfg i 0) = LAPIC_MSI_ADDRESS_BASE ∧ T3 (word cfg i 1) = 0 ∧
     vectors !! Z.to_nat i = Some (T3 (word cfg i 2)) ∧ T3 (word cfg i 3) = Z.land (Z.lor (T (word cfg i 3)) 1) (bnot 32 1)) ∧
  (∀ i, Z.of_nat (length vectors) ≤ i < n → T3 (word cfg i 3) = Z.lor (T (word cfg i 3)) 1 ∧ ∀ w, 0 ≤ w < 3 → T3 (word cfg i w) = T (word cfg i w)) ∧
  (∀ a, (∀ i w, 0 ≤ i < n → 0 ≤ w < 4 → a ≠ word cfg i w) → T3 a = T a).
Proof.
  intros Hn Hlen [M1 O1] [P2 O2] [U3 O3]. split; [|split].
  - intros i Hi. destruct (M1 i ltac:(lia)) as [Hm _]. destruct (P2 i Hi) as (Q0 & Q1 & Q2 & Q3). destruct (U3 i Hi) as [R3 Rw].
    rewrite !Rw by lia. split; [done|]. split; [done|]. split; [done|]. by rewrite R3, Q3, Hm.
  - intros i Hi. assert (Hout : ∀ w, 0 ≤ w < 4 → T3 (word cfg i w) = T1 (word cfg i w)).
    { intros w Hw. rewrite O3, O2; [done| |]; intros j u Hj Hu He; apply word_inj in He as [? ?]; lia. }
    destruct (M1 i ltac:(lia)) as [Hm Hw]. split; [by rewrite Hout by lia|]. intros w Hw'. rewrite Hout by lia. by apply Hw.
  - intros a Ha. rewrite O3, O2, O1; [done|done| |]; intros i w Hi Hw; apply Ha; lia.
Qed.

Lemma wp_on_config {A} (m : M pci A) Q s : wp m (λ a q, Q a (mkMsixSys q (table s) (trace s ++ config_since (ms_pci s) q))) (ms_pci s) → wp (on_config m) Q s.
Proof. unfold wp, on_config. by destruct (m (ms_pci s)) as [[a q]|]. Qed.
Lemma since_writes l l' q q' : after_writes p l q → after_writes p (l ++ l') q' → config_since q q' = (λ '(k, v), Config k v) <$> l'.
Proof.
  intros [S _] [S' _]. unfold config_since. rewrite (same_log _ _ S), (same_log _ _ S'), !stores_log, app_assoc, drop_app_length. done.
Qed.
Lemma since_same q q' : same q q' → config_since q q' = [].
Proof. intros S. unfold config_since. rewrite (same_log _ _ S). by rewrite drop_ge by lia. Qed.
Lemma unmask_writes_ext cfg T T' k : (∀ i, 0 ≤ i < k → T (word cfg i 3) = T' (word cfg i 3)) → unmask_writes cfg T k = unmask_writes cfg T' k.
Proof. intros HT. unfold unmask_writes. apply list_fmap_ext. intros j i Hi. apply lookup_seqZ in Hi as [-> Hi]. by rewrite HT by lia. Qed.

(** The end of [configure_msix], from the state after detection. *)
Lemma configure_msix_tail vectors c cfg T s Q : msix_regs c → capability cfg = msix_capability c → table s = T → trace s = [] → after_writes p [] (ms_pci s) →
  Z.of_nat (length vectors) ≤ table_size (capability cfg) → (∀ v, v ∈ vectors → invalid_vector v = false) →
  table_virt_addr cfg mod 4 = 0 → 0 ≤ table_virt_addr cfg → table_virt_addr cfg + 16 * 2048 ≤ 2 ^ 64 →
  (∀ s', msix_done vectors T c cfg s' → Q (Ok cfg) s') →
  wp (msg_ctrl ← on_config (read_u16 (dbus d) (ddevice d) (dfunction d) (c + MSIX_MESSAGE_CONTROL));
      on_config (write_u16 (dbus d) (ddevice d) (dfunction d) (c + MSIX_MESSAGE_CONTROL) (Z.land msg_ctrl (bnot 16 MSIX_ENABLE))) ;;
      mask_all cfg ;;
      _ ←? try_for_each (imap (λ i v, (Z.of_nat i, v)) vectors) (λ '(i, vector), configure_entry cfg (wrap 16 i) vector);
      _ ←? try_for_each (seqZ 0 (Z.of_nat (length vectors))) (λ i, unmask_entry cfg (wrap 16 i));
      on_config (write_u16 (dbus d) (ddevice d) (dfunction d) (c + MSIX_MESSAGE_CONTROL) (Z.lor msg_ctrl MSIX_ENABLE)) ;;
      on_config (disable_intx d) ;;
      mret (Ok cfg)) Q s.
Proof.
  intros Hm Hcap HT Htr0 A0 Hlen Hv Hal Hlo Hfit HQ. destruct (mx_fits _ Hm) as (Hc & Hcal & Hcfit). pose proof (pk_regs _ Hok) as Hreg.
  assert (Hn : 0 < table_size (capability cfg) ≤ 2048).
  { rewrite Hcap. cbn. pose proof (Z.mod_pos_bound (fld p (c + 2)) (2 ^ 11) ltac:(lia)). lia. }
  set (n := table_size (capability cfg)) in *. set (ctrl := fld p (c + 2)). assert (Hctrl : 0 ≤ ctrl < 2 ^ 16) by (apply field_range; lia).
  unfold MSIX_MESSAGE_CONTROL. wp_step. apply wp_on_config. apply (after_read16 p Hok _ _ _ Hd [] (ms_pci s)); [done|lia|dlia|].
  change (stores [] p) with p. fold ctrl. intros p1 A1. rewrite (since_writes [] [] _ _ A0 A1), Htr0. wp_step. apply wp_on_config. cbn [ms_pci table trace app fmap list_fmap].
  apply (after_write16 p Hok _ _ _ Hd [] p1 c 2); [done|lia|lia|done|by right|by apply clear_bits|]. cbn [app]. change (stores [] p) with p.
  set (w1 := replace16 _ _ _). intros p2 A2. rewrite (since_writes [] [(K c, w1)] _ _ A1 A2). cbn [table].
  wp_step. eapply wp_mono; [apply (mask_all_spec cfg n eq_refl); lia|]. intros [] s3 (E3 & D3 & W3). cbn [ms_pci table trace app fmap list_fmap] in E3, D3, W3.
  apply wp_try_bind. eapply wp_mono; [apply (configure_entries_spec cfg n eq_refl); (lia || done)|]. intros r4 s4 (-> & E4 & D4 & W4).
  apply wp_try_bind. eapply wp_mono; [apply (unmask_spec cfg n eq_refl); lia|]. intros r5 s5 (-> & E5 & D5 & W5).
  assert (A5 : after_writes p [(K c, w1)] (ms_pci s5)) by (by rewrite E5, E4, E3).
  wp_step. apply wp_on_config. apply (after_write16 p Hok _ _ _ Hd [(K c, w1)] (ms_pci s5) c 2); [done|lia|lia|done|by right|by apply (set_bit16 ctrl 15)|].
  set (w2 := replace16 _ _ _). intros p6 A6. rewrite (since_writes [(K c, w1)] [(K c, w2)] _ _ A5 A6). unfold disable_intx, PCI_COMMAND. wp_step. apply wp_on_config. cbn [ms_pci table trace]. wp_step.
  apply (after_read16 p Hok _ _ _ Hd ([(K c, w1)] ++ [(K c, w2)]) p6); [done|lia|done|]. set (cmd := fld (stores _ p) 4). intros p7 A7.
  assert (Hcmd : 0 ≤ cmd < 2 ^ 16) by (apply field_range; lia). change 4 with (4 + 0) at 1.
  apply (after_write16 p Hok _ _ _ Hd ([(K c, w1)] ++ [(K c, w2)]) p7 4 0); [done|lia|lia|done|by left|by apply (set_bit16 cmd 10)|].
  set (w3 := replace16 _ _ _). intros p8 A8. rewrite (since_writes ([(K c, w1)] ++ [(K c, w2)]) [(K 4, w3)] _ _ A6 A8). destruct A8 as [S8 W8]. wp_step. apply HQ. cbn [table ms_pci].
  pose proof (stores_ok _ _ W8 Hok) as Hok8. pose proof (stores_ok _ _ (proj2 A7) Hok) as Hok7. pose proof (stores_ok _ _ (proj2 A2) Hok) as Hok2.
  assert (Hc4 : ∀ l, (∀ kv, kv ∈ l → kv.1 = K c) → registers (stores l p) (K 4) = registers p (K 4)).
  { intros l Hl. apply (stores_skip [] l). intros kv Hin. rewrite Hl by done. apply pkey_ne. lia. }
  assert (Hcmd' : cmd = fld p 4).
  { unfold cmd. rewrite !half_low by done. rewrite Hc4; [done|]. intros kv. cbn [app]. rewrite !elem_of_cons, elem_of_nil. by intros [->|[->|[]]]. }
  destruct (replace16_high (registers (stores [(K c, w1)] p) (K c)) (Z.lor ctrl MSIX_ENABLE)) as [Hw2 _]; [apply Hok2|by apply (set_bit16 ctrl 15)|].
  change (w2 / 2 ^ 16 = Z.lor ctrl MSIX_ENABLE) in Hw2.
  destruct (replace16_high (registers p (K c)) (Z.land ctrl (bnot 16 MSIX_ENABLE))) as [Hw1 _]; [done|by apply clear_bits|].
  change (w1 / 2 ^ 16 = Z.land ctrl (bnot 16 MSIX_ENABLE)) in Hw1.
  destruct (replace16_low (registers (stores ([(K c, w1)] ++ [(K c, w2)]) p) (K 4)) (Z.lor cmd PCI_COMMAND_INTX_DISABLE)) as [Hw3 _];
    [apply Hok7|by apply (set_bit16 cmd 10)|]. change (w3 mod 2 ^ 16 = Z.lor cmd PCI_COMMAND_INTX_DISABLE) in Hw3.
  destruct (phases cfg n vectors (table s) (table s3) (table s4) (table s5)) as (F1 & F2 & F3); [lia|done|done|done|done|]. rewrite HT in *.
  assert (Htop : ∀ w, Z.testbit w 31 = Z.testbit (w / 2 ^ 16) 15) by (intros w; by rewrite Z.div_pow2_bits).
  split; cbn [table ms_pci]; try done.
  - rewrite (same_field _ _ _ _ _ _ _ S8), half_high by (done || lia). rewrite stores_there by (apply pkey_ne; lia).
    rewrite stores_here. assert (Hc0 : ctrl = registers p (K c) / 2 ^ 16) by (apply half_high; [done|lia|done]). fold ctrl. rewrite Hc0. unfold MSIX_ENABLE.
    apply (control_twice (λ i, (30 <=? i) && (i <=? 31)) _ w1 (registers (stores [(K c, w1)] p) (K c)) w2); try done; try lia.
    + by apply (stores_ok _ _ (proj2 A2) Hok).
    + apply (pk_keeps _ Hok). pose proof (proj2 A7) as Wt. apply Forall_app in Wt as [_ Wt]. exact (Forall_inv Wt).
    + pose proof (stores_here [] (K c) w1 p) as Hh. cbn [app] in Hh. rewrite Hh. apply (mx_ctrl _ Hm).
    + apply (mx_ctrl _ Hm).
    + rewrite <-Hc0. exact Hw1.
    + rewrite <-Hc0. exact Hw2.
  - rewrite (same_field _ _ _ _ _ _ _ S8), half_low by done. rewrite stores_here.
    rewrite (command_stored (registers (stores ([(K c, w1)] ++ [(K c, w2)]) p) (K 4)) w3); [by rewrite Hw3, Hcmd'|apply (mx_cmd _ Hm)|rewrite Hw3; by apply (set_bit16 cmd 10)|].
    rewrite Hw3. f_equal. unfold cmd. by rewrite half_low by done.
  - exists w1, w2, w3. rewrite !Htop, Hw1, Hw2, Z.land_spec, Z.lor_spec.
    change (Z.testbit (bnot 16 MSIX_ENABLE) 15) with false. change (Z.testbit MSIX_ENABLE 15) with true. rewrite andb_false_r, orb_true_r. split; [done|]. split; [done|].
    assert (Hun : unmask_writes cfg (table s4) (Z.of_nat (length vectors)) = unmask_writes cfg (λ a, Z.lor (T a) 1) (Z.of_nat (length vectors))).
    { apply unmask_writes_ext. intros i Hi. destruct (proj1 D4 i Hi) as (_ & _ & _ & ->). by destruct (proj1 D3 i ltac:(lia)) as [-> _]. }
    rewrite W5, W4, W3, Hun. cbn [fmap list_fmap app]. rewrite <-!app_assoc. done.
Qed.

(** Programming MSI: a vector outside 32 to 239 and a function without the
    capability are refused before anything is written; otherwise the message
    address is the local APIC's, the data the vector (in the place the 64-bit
    flag says), the function is enabled with its other control bits as they
    were and its pin interrupt is off.  The message is written while the
    function is disabled. *)
Theorem configure_msi_correct v (Hv : 0 ≤ v < 256) (Hwf : ∀ q, on_list p d q → 0x40 ≤ q)
  (Hregs : ∀ q, on_list p d q → cap_at p d q = CAP_MSI → msi_regs p d q) :
  ∃ r p', configure_msi d v p = Some (r, p') ∧
    match r with
    | Ok cfg => 32 ≤ v ≤ 239 ∧ mc_vector cfg = v ∧ found p d CAP_MSI (Some (mc_cap_offset cfg)) ∧ msi_set p d v (mc_cap_offset cfg) p'
    | Err (InvalidVector w) => w = v ∧ ¬ 32 ≤ v ≤ 239 ∧ p' = p
    | Err NotSupported => 32 ≤ v ≤ 239 ∧ found p d CAP_MSI None ∧ same p p'
    | Err _ => False
    end.
Proof.
  apply wp_run. unfold configure_msi. destruct (invalid_vector v) eqn:Hinv; unfold invalid_vector, MIN_MSI_VECTOR, MAX_MSI_VECTOR in Hinv.
  - wp_step. split; [done|]. split; [|done]. apply orb_true_iff in Hinv as [?%Z.ltb_lt|?%Z.ltb_lt]; lia.
  - apply orb_false_iff in Hinv as [?%Z.ltb_ge ?%Z.ltb_ge]. apply wp_try_bind. unfold ok_or. wp_step. apply find_capability_wp; [done|done|done|].
    intros r p1 S1 Hr. wp_step. destruct r as [c|]; [|done]. pose proof Hr as (_ & Hon & Hat).
    apply (msi_writes p Hok d Hd v c p1); [by apply Hregs|lia|done|]. intros p' Hset. done.
Qed.

(** C28: Programming MSI-X on a function whose capabilities lie at 0x40 or above and
    whose registers keep what PCI has them keep (read-only table size, enable
    and mask bits writable): every error writes nothing and has its reason; on
    success exactly the first entries of the table carry the vectors, unmasked,
    the others are masked, no other word of memory changed, the function is
    enabled and its pin interrupt is off.  The writes to configuration space
    and table are exactly, in this order: enable cleared, every entry masked,
    the entries programmed, those unmasked, enable set, pin interrupt off; so
    no entry is touched while the function may signal. *)
Theorem configure_msix_correct vectors (T : Z → Z) (Hwf : ∀ q, on_list p d q → 0x40 ≤ q)
  (Hregs : ∀ q, on_list p d q → cap_at p d q = CAP_MSIX → msix_regs q) :
  ∃ r s', configure_msix d vectors (mkMsixSys p T []) = Some (r, s') ∧
    match r with
    | Ok cfg => ∃ c, found p d CAP_MSIX (Some c) ∧ Z.of_nat (length vectors) ≤ table_size (msix_capability c) ∧
        (∀ v, v ∈ vectors → 32 ≤ v ≤ 239) ∧ msix_done vectors T c cfg s'
    | Err e => same p (ms_pci s') ∧ table s' = T ∧ trace s' = [] ∧ msix_error vectors e
    end.
Proof.
  apply wp_run. unfold configure_msix. apply wp_try_bind. apply wp_on_config. cbn [ms_pci]. unfold ok_or at 1. wp_step.
  apply detect_msix_wp; [done|done|]. intros r p1 S1 Hr. wp_step. rewrite (since_same _ _ S1). cbn [table trace app]. destruct r as [c|]; cbn [fmap option_fmap option_map]; [|done].
  pose proof Hr as (_ & Hon & Hat). pose proof (Hregs c Hon Hat) as Hm.
  destruct (Z.ltb_spec (table_size (msix_capability c)) (Z.of_nat (length vectors))) as [Hlt|Hle].
  { wp_step. split; [done|]. split; [done|]. split; [done|]. by exists c. }
  apply wp_try_bind. wp_step. pose proof (check_vectors_spec vectors) as Hcv. destruct (check_vectors vectors) as [[]|e]; [|done].
  assert (Hbir : 0 ≤ table_bir (msix_capability c) < 8) by (cbn; apply Z.mod_pos_bound; lia).
  apply wp_try_bind. apply wp_on_config. cbn [ms_pci]. unfold ok_or. wp_step.
  assert (Hok1 : pci_ok p1) by (by apply (same_ok p)).
  assert (Hbar : bar_of p1 d (table_bir (msix_capability c)) = bar_of p d (table_bir (msix_capability c))) by (unfold bar_of; by rewrite (same_regs _ _ S1)).
  eapply wp_mono; [apply (read_bar_wp p1 d); [done|done|lia]|]. intros r p2 [S2 ->]. rewrite Hbar. wp_step. rewrite (since_same _ _ S2). cbn [table trace app].
  assert (S12 : same p p2) by (by etransitivity).
  destruct (bar_of p d (table_bir (msix_capability c))) as [bar|] eqn:Hb.
  2: { split; [done|]. split; [done|]. split; [done|]. exists c. split; [done|]. split; [done|]. rewrite Hb. done. }
  destruct (is_memory bar) eqn:Hmem; cbn [negb].
  2: { wp_step. split; [done|]. split; [done|]. split; [done|]. exists c. split; [done|]. split; [done|]. rewrite Hb. intros ? [= <-]. by rewrite Hmem. }
  assert (Hbase : 0 ≤ base_address bar ∧ base_address bar mod 4 = 0).
  { clear -Hb Hok. revert Hb. unfold bar_of. generalize (table_bir (msix_capability c)) as i. intros i. cbv zeta.
    pose proof (pk_regs _ Hok (K (0x10 + 4 * i))) as H1. pose proof (pk_regs _ Hok (K (0x10 + 4 * (i + 1)))) as H2.
    intros Hb. repeat case_match; try done; injection Hb as <-; cbn [base_address]; dlia. }
  assert (Hoff : 0 ≤ table_offset (msix_capability c) ∧ table_offset (msix_capability c) mod 4 = 0).
  { cbn. pose proof (pk_regs _ Hok (K (c + 4))). dlia. }
  destruct (Z.ltb_spec (base_address bar + table_offset (msix_capability c)) (2 ^ 64)) as [Hsum|Hover]; unfold cadd at 1.
  2: { rewrite (proj2 (Z.ltb_ge _ _)) by done. wp_step. split; [done|]. split; [done|]. split; [done|]. exists c. split; [done|]. split; [done|]. rewrite Hb. by intros ? [= <-]. }
  rewrite (proj2 (Z.ltb_lt _ _)) by done. pose proof (mx_table _ Hm bar Hb Hmem Hsum) as Hroom.
  set (phys := base_address bar + table_offset (msix_capability c)) in *. wp_step.
  destruct (decide (phys = 0)) as [Hz|Hnz].
  { wp_step; [by unfold phys_to_virt; rewrite Hz|]. cbv iota. wp_step. split; [done|]. split; [done|]. split; [done|]. by exists c, bar. }
  wp_step; [apply phys_to_virt_ok; unfold KERNEL_VIRTUAL_BASE in *; lia|]. cbv iota.
  set (cfg := MsixConfig_new (msix_capability c) (phys + KERNEL_VIRTUAL_BASE)).
  eapply (configure_msix_tail vectors c cfg T (mkMsixSys p2 T [])); try done.
  - split; [done|constructor].
  - cbn. unfold KERNEL_VIRTUAL_BASE. dlia.
  - cbn. unfold KERNEL_VIRTUAL_BASE. lia.
  - cbn. lia.
  - intros s' Hdone. exists c. split; [done|]. split; [done|]. split; [|done]. intros v Hin. specialize (Hcv v Hin).
    unfold invalid_vector in Hcv. apply orb_false_iff in Hcv as [?%Z.ltb_ge ?%Z.ltb_ge]. unfold MIN_MSI_VECTOR, MAX_MSI_VECTOR in *. lia.
Qed.
End props.

(** ** The function 00:01.0 of [PciProps] *)
Lemma demo_slots q : on_list demo_pci demo_device q → 0x40 ≤ q.
Proof. intros Hq. apply demo_caps in Hq. lia. Qed.
Lemma kept_stores w writable old new : forallb (λ i, Bool.eqb (Z.testbit w i) (writable i)) (seqZ 0 32) = true → stores_bits writable old new (kept w old new).
Proof.
  intros Hall i Hi. rewrite kept_bit by done. rewrite forallb_forall in Hall. specialize (Hall i). rewrite Bool.eqb_true_iff in Hall.
  rewrite Hall; [done|]. apply list_elem_of_In, elem_of_seqZ. lia.
Qed.
Lemma demo_command old new : command_bits old new (keeps demo_pci (pkey 0 1 0 4) old new).
Proof. split; [done|]. by left. Qed.
Lemma demo_msi_regs q : on_list demo_pci demo_device q → cap_at demo_pci demo_device q = CAP_MSI → msi_regs demo_pci demo_device q.
Proof.
  intros [-> | ->]%demo_caps Hat; [by vm_compute in Hat|]. split; try done.
  - intros old new. by apply (kept_stores 0x00710000).
  - intros old new. apply demo_command.
Qed.
Lemma demo_msix_regs q : on_list demo_pci demo_device q → cap_at demo_pci demo_device q = CAP_MSIX → msix_regs demo_pci demo_device q.
Proof.
  intros [-> | ->]%demo_caps Hat; [|by vm_compute in Hat]. split; try done.
  - intros old new. by apply (kept_stores 0xC0000000).
  - intros old new. apply demo_command.
  - intros bar Hb _ _. assert (Hbar : bar_of demo_pci demo_device (table_bir (msix_capability demo_pci demo_device 0x40)) = Some (mkBar 0x1FE000000 true true true)) by (vm_compute; reflexivity).
    rewrite Hbar in Hb. injection Hb as <-. vm_compute. discriminate.
Qed.
Lemma configure_msi_correct_witness : ∃ p', configure_msi demo_device 40 demo_pci = Some (Ok (mkMsiConfig 40 0x50), p') ∧
  registers p' (pkey 0 1 0 0x54) = LAPIC_MSI_ADDRESS_BASE.
Proof.
  destruct (configure_msi_correct demo_pci demo_pci_ok demo_device demo_device_ok 40 ltac:(lia) demo_slots demo_msi_regs) as (r & p' & Hrun & Hr).
  assert (Hf : fst <$> configure_msi demo_device 40 demo_pci = Some (Ok (mkMsiConfig 40 0x50))) by (vm_compute; reflexivity).
  rewrite Hrun in Hf. injection Hf as ->. exists p'. split; [exact Hrun|]. destruct Hr as (_ & _ & _ & Hset). exact (ms_addr _ _ _ _ _ Hset).
Defined.
Lemma configure_msix_correct_witness : ∃ cfg s', configure_msix demo_device [40; 41] (mkMsixSys demo_pci (λ _, 0) []) = Some (Ok cfg, s') ∧
  table s' (word cfg 1 2) = 41.
Proof.
  destruct (configure_msix_correct demo_pci demo_pci_ok demo_device demo_device_ok [40; 41] (λ _, 0) demo_slots demo_msix_regs) as (r & s' & Hrun & Hr).
  assert (Hf : result_is_ok <$> (fst <$> configure_msix demo_device [40; 41] (mkMsixSys demo_pci (λ _, 0) [])) = Some true) by (vm_compute; reflexivity).
  rewrite Hrun in Hf. destruct r as [cfg|e]; [|discriminate Hf]. exists cfg, s'. split; [exact Hrun|].
  destruct Hr as (c & _ & _ & _ & Hdone). destruct (md_entry _ _ _ _ _ _ _ Hdone 1) as (_ & _ & Hv & _); [cbn; lia|]. by injection Hv as <-.
Defined.
