(* ===== verification/Acpi.v ===== *)
(** * ACPI tables ([kernel/src/acpi.rs]).

    Memory is bytes at virtual addresses, [None] where nothing is mapped.  A
    packed structure is read field by field, little-endian.  A table's signature
    is compared as bytes: [signature_str] is those bytes when they are UTF-8 and
    question marks otherwise, and the names it is compared with are neither. *)
From S2P Require Import Prelude Addr BootInfo Paging TimerDevice Pci.
Set Default Goal Selector "!".

Definition MAX_ACPI_TABLE_LENGTH : Z := 100 * 1024 * 1024.
Definition HEADER_SIZE : Z := 36.
Definition MIN_ACPI_TABLE_LENGTH : Z := HEADER_SIZE.
Definition MADT_SIZE : Z := 44.
Definition MCFG_SIZE : Z := 44.
Definition MCFG_ENTRY_SIZE : Z := 16.
Definition RSDP_SIZE : Z := 20.

Inductive AcpiError := AddressConversionFailed | ChecksumFailed | AcpiNotSupported | AcpiPagingError (e : PagingError).

Record acpi := mkAcpi { mem : Z → option Z; LOCAL_APIC_ADDRESS : Z; ac_pci : pci; ac_hpet : hpet_sys }.
Definition set_lapic (v : Z) (s : acpi) : acpi := mkAcpi (mem s) v (ac_pci s) (ac_hpet s).
Definition get_local_apic_address (s : acpi) : option Z := if LOCAL_APIC_ADDRESS s =? 0 then None else Some (LOCAL_APIC_ADDRESS s).

(** ** Reading memory *)
Definition read_byte (a : Z) : M acpi Z := s ← gets id; lift (mem s a).
Fixpoint read_bytes (n : nat) (a : Z) : M acpi (list Z) :=
  match n with O => mret [] | S n => b ← read_byte a; bs ← read_bytes n (a + 1); mret (b :: bs) end.
Definition read_le (n : nat) (a : Z) : M acpi Z := bs ← read_bytes n a; mret (from_le bs).
(** [bytes.iter().fold(0u8, |acc, &b| acc.wrapping_add(b))] over [n] bytes. *)
Definition sum_bytes (n a : Z) : M acpi Z :=
  bs ← read_bytes (Z.to_nat n) a; mret (foldl (λ acc b, wrap 8 (acc + b)) 0 bs).

(** ** Table headers *)
Definition signature_is (sig : list Z) (table : Z) : M acpi bool := s ← read_bytes (length sig) table; mret (bool_decide (s = sig)).
Definition table_length (table : Z) : M acpi Z := read_le 4 (table + 4).
Definition verify_checksum (table : Z) : M acpi bool :=
  length ← table_length table;
  if (length <? MIN_ACPI_TABLE_LENGTH) || (MAX_ACPI_TABLE_LENGTH <? length) then mret false else
  sum ← sum_bytes length table; mret (sum =? 0).
Definition sig_APIC : list Z := [65; 80; 73; 67].
Definition sig_MCFG : list Z := [77; 67; 70; 71].
Definition sig_HPET : list Z := [72; 80; 69; 84].
Definition sig_XSDT : list Z := [88; 83; 68; 84].
Definition sig_RSDT : list Z := [82; 83; 68; 84].
Definition sig_RSDP : list Z := [82; 83; 68; 32; 80; 84; 82; 32].
(** [phys_to_virt(..).map_err(|_| AddressConversionFailed)?] *)
Definition acpi_to_virt (phys : Z) : M acpi (result Z AcpiError) :=
  r ← lift (phys_to_virt phys); mret (match r with Ok v => Ok v | Err _ => Err AddressConversionFailed end).

(** ** MADT *)
(** The loop over the entries: the processors and I/O APICs counted so far.
    [fuel] bounds the rounds. *)
Fixpoint madt_entries (fuel : nat) (current_addr entries_end cpu_count io_apic_count : Z) : M acpi (Z * Z) :=
  match fuel with
  | O => panic
  | S fuel =>
      if negb (current_addr <? entries_end) then mret (cpu_count, io_apic_count) else
      entry_type ← read_byte current_addr;
      entry_length ← read_byte (current_addr + 1);
      counts ←
        (if entry_type =? 0 then
           _ ← read_byte (current_addr + 2); _ ← read_byte (current_addr + 3);
           entry_flags ← read_le 4 (current_addr + 4);
           mret (if negb (Z.land entry_flags 1 =? 0) then (cpu_count + 1, io_apic_count) else (cpu_count, io_apic_count))
         else if entry_type =? 1 then
           _ ← read_byte (current_addr + 2); _ ← read_le 4 (current_addr + 4); _ ← read_le 4 (current_addr + 8);
           mret (cpu_count, io_apic_count + 1)
         else mret (cpu_count, io_apic_count));
      let '(cpu_count, io_apic_count) := (counts : Z * Z) in
      next ← lift (cadd 64 current_addr entry_length);
      madt_entries fuel next entries_end cpu_count io_apic_count
  end.
Definition parse_madt (fuel : nat) (madt_phys_addr : Z) : M acpi (result unit AcpiError) :=
  madt ←? acpi_to_virt madt_phys_addr;
  valid ← verify_checksum madt;
  if negb valid then mret (Err ChecksumFailed) else
  local_apic_addr ← read_le 4 (madt + 36);
  flags ← read_le 4 (madt + 40);
  length ← table_length madt;
  modify (set_lapic local_apic_addr) ;;
  entries_start ← lift (cadd 64 madt MADT_SIZE);
  entries_end ← lift (cadd 64 madt length);
  madt_entries fuel entries_start entries_end 0 0 ;;
  mret (Ok tt).

(** ** MCFG *)
Definition on_acpi_pci {A} (m : M pci A) : M acpi A := zoom ac_pci (λ p s, mkAcpi (mem s) (LOCAL_APIC_ADDRESS s) p (ac_hpet s)) m.
Fixpoint mcfg_entries (fuel : nat) (current_addr entries_end : Z) : M acpi unit :=
  match fuel with
  | O => panic
  | S fuel =>
      if negb (current_addr <? entries_end) then mret tt else
      base_addr ← read_le 8 current_addr;
      segment ← read_le 2 (current_addr + 8);
      start_bus ← read_byte (current_addr + 10);
      end_bus ← read_byte (current_addr + 11);
      on_acpi_pci (set_mmconfig base_addr segment start_bus end_bus) ;;
      next ← lift (cadd 64 current_addr MCFG_ENTRY_SIZE);
      mcfg_entries fuel next entries_end
  end.
Definition parse_mcfg (fuel : nat) (mcfg_phys_addr : Z) : M acpi (result unit AcpiError) :=
  mcfg ←? acpi_to_virt mcfg_phys_addr;
  valid ← verify_checksum mcfg;
  if negb valid then mret (Err ChecksumFailed) else
  length ← table_length mcfg;
  entries_start ← lift (cadd 64 mcfg MCFG_SIZE);
  entries_end ← lift (cadd 64 mcfg length);
  room ← lift (csub length MCFG_SIZE);
  let entry_count := room / MCFG_ENTRY_SIZE in
  mcfg_entries fuel entries_start entries_end ;;
  mret (Ok tt).

(** ** HPET *)
Definition parse_hpet (hpet_phys_addr : Z) : M acpi (result unit AcpiError) :=
  hpet ←? acpi_to_virt hpet_phys_addr;
  valid ← verify_checksum hpet;
  if negb valid then mret (Err ChecksumFailed) else
  base_address ← read_le 8 (hpet + 44);
  address_space ← read_byte (hpet + 40);
  if negb (address_space =? 0) then mret (Err AcpiNotSupported) else
  r ← zoom ac_hpet (λ h s, mkAcpi (mem s) (LOCAL_APIC_ADDRESS s) (ac_pci s) h) (hpet_init base_address);
  mret (match r with Ok _ => Ok tt | Err e => Err (AcpiPagingError e) end).

(** ** The root tables: [SdtEntry], with the entry size and the signature *)
Class SdtEntry := { SDT_ENTRY_SIZE : nat; SDT_SIGNATURE : list Z }.
Definition Xsdt : SdtEntry := {| SDT_ENTRY_SIZE := 8; SDT_SIGNATURE := sig_XSDT |}.
Definition Rsdt : SdtEntry := {| SDT_ENTRY_SIZE := 4; SDT_SIGNATURE := sig_RSDT |}.
(** One entry: tables that fail to parse are passed over. *)
Definition parse_entry (fuel : nat) (table_phys_addr : Z) : M acpi unit :=
  r ← lift (phys_to_virt table_phys_addr);
  match r with
  | Err _ => mret tt
  | Ok table =>
      sig ← read_bytes 4 table;
      if bool_decide (sig = sig_APIC) then parse_madt fuel table_phys_addr ;; mret tt
      else if bool_decide (sig = sig_MCFG) then parse_mcfg fuel table_phys_addr ;; mret tt
      else if bool_decide (sig = sig_HPET) then parse_hpet table_phys_addr ;; mret tt
      else mret tt
  end.
Definition parse_sdt (E : SdtEntry) (fuel : nat) (sdt_phys_addr : Z) : M acpi (result unit AcpiError) :=
  sdt ←? acpi_to_virt sdt_phys_addr;
  named ← signature_is SDT_SIGNATURE sdt;
  if negb named then mret (Err AcpiNotSupported) else
  valid ← verify_checksum sdt;
  if negb valid then mret (Err ChecksumFailed) else
  length ← table_length sdt;
  room ← lift (csub length HEADER_SIZE);
  let entry_count := room / Z.of_nat SDT_ENTRY_SIZE in
  entries_base ← lift (cadd 64 sdt HEADER_SIZE);
  for_each (seqZ 0 entry_count) (λ i,
    table_phys_addr ← read_le SDT_ENTRY_SIZE (entries_base + i * Z.of_nat SDT_ENTRY_SIZE);
    parse_entry fuel table_phys_addr) ;;
  mret (Ok tt).

Definition acpi_init (fuel : nat) (rsdp_address : Z) : M acpi (result unit AcpiError) :=
  if rsdp_address =? 0 then mret (Err AddressConversionFailed) else
  rsdp ←? acpi_to_virt rsdp_address;
  named ← signature_is sig_RSDP rsdp;
  if negb named then mret (Err AcpiNotSupported) else
  sum ← sum_bytes RSDP_SIZE rsdp;
  if negb (sum =? 0) then mret (Err ChecksumFailed) else
  revision ← read_byte (rsdp + 15);
  if 2 <=? revision then
    xsdt_addr ← read_le 8 (rsdp + 24); parse_sdt Xsdt fuel xsdt_addr
  else
    rsdt_addr ← read_le 4 (rsdp + 16); parse_sdt Rsdt fuel rsdt_addr.
