(* ===== verification/AcpiThms.v ===== *)
(** * ACPI tables: reading and encoding lemmas, and what parsing each table does. *)
From S2P Require Import Prelude Addr BootInfo Paging TimerDevice Pci Acpi.
Set Default Goal Selector "!".

(** ** ACPI tables: reading and encoding lemmas.

    Tables are described by the bytes firmware would write: little-endian
    fields, a header with its length and a sum of zero, a list of entries.  The
    parsing loops are stated on these encodings. *)
(** ** Bytes in memory *)
Definition bytes_at (m : Z → option Z) (a : Z) (bs : list Z) : Prop := ∀ i b, bs !! i = Some b → m (a + Z.of_nat i) = Some b.

Lemma bytes_at_nil m a : bytes_at m a [].
Proof. intros i b H. by rewrite lookup_nil in H. Qed.
Lemma bytes_at_cons m a b bs : bytes_at m a (b :: bs) ↔ m a = Some b ∧ bytes_at m (a + 1) bs.
Proof.
  split.
  - intros H. split; [rewrite <-(H 0%nat b eq_refl); f_equal; lia|]. intros i c Hi.
    rewrite <-(H (S i) c Hi). f_equal. lia.
  - intros [Hb H] [|i] c Hi; simpl in Hi.
    + injection Hi as ->. by rewrite Z.add_0_r.
    + rewrite <-(H i c Hi). f_equal. lia.
Qed.
Lemma bytes_at_app m a l1 l2 : bytes_at m a (l1 ++ l2) ↔ bytes_at m a l1 ∧ bytes_at m (a + Z.of_nat (length l1)) l2.
Proof.
  revert a. induction l1 as [|b l1 IH]; intros a; cbn [app length].
  - rewrite Z.add_0_r. pose proof (bytes_at_nil m a). tauto.
  - rewrite !bytes_at_cons, IH. replace (a + 1 + Z.of_nat (length l1)) with (a + Z.of_nat (S (length l1))) by lia. tauto.
Qed.
Lemma bytes_at_sub m a bs o n : bytes_at m a bs → bytes_at m (a + Z.of_nat o) (take n (drop o bs)).
Proof.
  intros H i b Hi. apply lookup_take_Some in Hi as [Hi _]. rewrite lookup_drop in Hi. rewrite <-(H _ _ Hi). f_equal. lia.
Qed.

Lemma read_bytes_run bs a (s : acpi) : bytes_at (mem s) a bs → read_bytes (length bs) a s = Some (bs, s).
Proof.
  revert a. induction bs as [|b bs IH]; intros a; [done|]. intros [Hb Hbs]%bytes_at_cons.
  cbn [length read_bytes]. unfold read_byte, mbind, M_bind, gets, lift, id. by rewrite Hb, IH.
Qed.
Lemma wp_read_bytes n bs a Q (s : acpi) : bytes_at (mem s) a bs → length bs = n → Q bs s → wp (read_bytes n a) Q s.
Proof. intros H <- HQ. unfold wp. by rewrite read_bytes_run. Qed.
Lemma wp_read_le n bs a Q (s : acpi) : bytes_at (mem s) a bs → length bs = n → Q (from_le bs) s → wp (read_le n a) Q s.
Proof. intros H Hn HQ. apply wp_bind. by eapply wp_read_bytes. Qed.
Lemma wp_read_byte b a Q (s : acpi) : mem s a = Some b → Q b s → wp (read_byte a) Q s.
Proof. intros H HQ. unfold read_byte. do 2 wp_step. wp_step; [exact H|exact HQ]. Qed.
Lemma wp_acpi_to_virt p Q (s : acpi) : 0 < p → p + KERNEL_VIRTUAL_BASE < 2 ^ 64 → Q (Ok (p + KERNEL_VIRTUAL_BASE)) s → wp (acpi_to_virt p) Q s.
Proof. intros H1 H2 HQ. unfold acpi_to_virt. wp_step. wp_step; [by apply phys_to_virt_ok|]. by wp_step. Qed.
(** Every read of a 4- or 8-byte field fails where a byte is missing. *)
Lemma read_bytes_missing n a (s : acpi) i : (i < n)%nat → mem s (a + Z.of_nat i) = None → read_bytes n a s = None.
Proof.
  revert a i. induction n as [|n IH]; intros a i Hi Hm; [lia|]. cbn [read_bytes]. unfold read_byte, mbind, M_bind, gets, lift, id.
  destruct i as [|i]; [by rewrite Z.add_0_r in Hm; rewrite Hm|]. destruct (mem s a); [|done]. rewrite (IH _ i); [done|lia|].
  rewrite <-Hm. f_equal. lia.
Qed.
Lemma read_le_missing n a (s : acpi) i : (i < n)%nat → mem s (a + Z.of_nat i) = None → read_le n a s = None.
Proof. intros Hi Hm. unfold read_le, mbind, M_bind. by rewrite (read_bytes_missing n a s i). Qed.

(** ** Sums *)
Definition zsum (bs : list Z) : Z := foldr Z.add 0 bs.
Lemma zsum_app l1 l2 : zsum (l1 ++ l2) = zsum l1 + zsum l2.
Proof. induction l1; simpl; lia. Qed.
Lemma wrapping_sum bs x : 0 ≤ x < 256 → foldl (λ acc b, wrap 8 (acc + b)) x bs = (x + zsum bs) mod 256.
Proof.
  revert x. induction bs as [|b bs IH]; intros x Hx; cbn [foldl zsum foldr].
  - rewrite Z.add_0_r, Z.mod_small; done.
  - rewrite IH; [|apply Z.mod_pos_bound; lia]. unfold wrap. change (2 ^ 8) with 256. rewrite Zplus_mod_idemp_l. f_equal. unfold zsum. lia.
Qed.
Lemma wp_sum_bytes bs a n Q (s : acpi) : bytes_at (mem s) a bs → Z.of_nat (length bs) = n → Q (zsum bs mod 256) s → wp (sum_bytes n a) Q s.
Proof.
  intros H Hn HQ. unfold sum_bytes. wp_step. eapply wp_read_bytes; [done|lia|]. wp_step. rewrite wrapping_sum by lia. exact HQ.
Qed.
(** Changing one byte changes the sum. *)
Lemma zsum_insert bs i b c : bs !! i = Some b → zsum (<[i := c]> bs) = zsum bs - b + c.
Proof.
  revert i. induction bs as [|d bs IH]; intros [|i] Hi; simpl in Hi |- *; try done.
  - injection Hi as ->. lia.
  - rewrite (IH _ Hi). lia.
Qed.

(** ** Tables: a header of 36 bytes with the table's length at byte 4 *)
Definition length_field (bs : list Z) : Z := from_le (take 4 (drop 4 bs)).
Lemma wp_table_length bs a Q (s : acpi) : bytes_at (mem s) a bs → (8 ≤ length bs)%nat → Q (length_field bs) s → wp (table_length a) Q s.
Proof.
  intros H Hl HQ. unfold table_length. eapply wp_read_le; [by apply (bytes_at_sub (mem s) a bs 4 4)| |done]. rewrite length_take, length_drop. lia.
Qed.
Definition sums_to_zero (bs : list Z) : bool := let L := length_field bs in
  (MIN_ACPI_TABLE_LENGTH <=? L) && (L <=? MAX_ACPI_TABLE_LENGTH) && (zsum (take (Z.to_nat L) bs) mod 256 =? 0).
Lemma wp_verify_checksum bs a Q (s : acpi) : bytes_at (mem s) a bs → (8 ≤ length bs)%nat →
  (MIN_ACPI_TABLE_LENGTH ≤ length_field bs ≤ MAX_ACPI_TABLE_LENGTH → length_field bs ≤ Z.of_nat (length bs)) →
  Q (sums_to_zero bs) s → wp (verify_checksum a) Q s.
Proof.
  intros H Hl Hfit HQ. unfold verify_checksum. wp_step. eapply wp_table_length; [done|done|]. unfold sums_to_zero in HQ.
  destruct (Z.ltb_spec (length_field bs) MIN_ACPI_TABLE_LENGTH); cbn [orb].
  { wp_step. by rewrite (proj2 (Z.leb_gt _ _)) in HQ. }
  destruct (Z.ltb_spec MAX_ACPI_TABLE_LENGTH (length_field bs)); cbn [orb].
  { wp_step. rewrite (proj2 (Z.leb_le _ _)), (proj2 (Z.leb_gt _ _)) in HQ by done. done. }
  rewrite !(proj2 (Z.leb_le _ _)) in HQ by done. cbn [andb] in HQ. wp_step.
  specialize (Hfit ltac:(done)). unfold MIN_ACPI_TABLE_LENGTH, HEADER_SIZE in *.
  eapply (wp_sum_bytes (take (Z.to_nat (length_field bs)) bs)).
  - pose proof (bytes_at_sub (mem s) a bs 0 (Z.to_nat (length_field bs)) H) as H'. by rewrite Z.add_0_r in H'.
  - rewrite length_take. lia.
  - by wp_step.
Qed.

(** A sound table: its signature and its contents. *)
Definition table_at (m : Z → option Z) (a : Z) (sig body : list Z) : Prop := ∃ header,
  bytes_at m a (header ++ body) ∧ length header = 36%nat ∧ take 4 header = sig ∧
  length_field header = 36 + Z.of_nat (length body) ∧ 36 + Z.of_nat (length body) ≤ MAX_ACPI_TABLE_LENGTH ∧
  zsum (header ++ body) mod 256 = 0.
Section table.
Context (s : acpi) (a : Z) (sig body : list Z) (Ht : table_at (mem s) a sig body).

Lemma wp_table_sig Q : Q sig s → wp (read_bytes 4 a) Q s.
Proof.
  destruct Ht as (h & Hb & Hl & Hs & _). intros HQ. apply bytes_at_app in Hb as [Hb _].
  pose proof (bytes_at_sub (mem s) a h 0 4 Hb) as H. rewrite Z.add_0_r in H. rewrite drop_0, Hs in H.
  eapply wp_read_bytes; [exact H| |exact HQ]. rewrite <-Hs, length_take. lia.
Qed.
Lemma wp_table_len Q : Q (36 + Z.of_nat (length body)) s → wp (table_length a) Q s.
Proof.
  destruct Ht as (h & Hb & Hl & _ & Hf & _). intros HQ. apply bytes_at_app in Hb as [Hb _].
  eapply wp_table_length; [done|lia|]. by rewrite Hf.
Qed.
Lemma wp_table_valid Q : Q true s → wp (verify_checksum a) Q s.
Proof.
  destruct Ht as (h & Hb & Hl & _ & Hf & Hm & Hz). intros HQ. assert (Hf' : length_field (h ++ body) = length_field h).
  { unfold length_field. rewrite drop_app_le, take_app_le by (rewrite ?length_drop; lia). done. }
  eapply wp_verify_checksum; [done| | |]; rewrite ?length_app; [lia|lia|]. unfold sums_to_zero. rewrite Hf', Hf.
  rewrite take_ge by (rewrite length_app; lia). unfold MIN_ACPI_TABLE_LENGTH, HEADER_SIZE.
  rewrite !(proj2 (Z.leb_le _ _)), (proj2 (Z.eqb_eq _ _)) by lia. exact HQ.
Qed.
Lemma table_body : bytes_at (mem s) (a + 36) body.
Proof. destruct Ht as (h & Hb & Hl & _). apply bytes_at_app in Hb as [_ Hb]. by rewrite Hl in Hb. Qed.
End table.

(** ** MADT entries *)
Inductive madt_entry :=
  | LocalApic (acpi_id apic_id flags : Z)
  | IoApic (id address gsi_base : Z)
  | OtherEntry (type : Z) (payload : list Z).
Definition encode_entry (e : madt_entry) : list Z :=
  match e with
  | LocalApic acpi_id apic_id flags => [0; 8; acpi_id; apic_id] ++ to_le 4 flags
  | IoApic id address gsi_base => [1; 12; id; 0] ++ to_le 4 address ++ to_le 4 gsi_base
  | OtherEntry type payload => [type; 2 + Z.of_nat (length payload)] ++ payload
  end.
Definition entry_ok (e : madt_entry) : Prop :=
  match e with LocalApic _ _ flags => is_u32 flags | IoApic _ _ _ => True | OtherEntry type _ => 2 ≤ type end.
Definition encode_entries (es : list madt_entry) : list Z := concat (encode_entry <$> es).
Definition enabled (e : madt_entry) : bool := match e with LocalApic _ _ flags => Z.testbit flags 0 | _ => false end.
Definition is_io_apic (e : madt_entry) : bool := match e with IoApic _ _ _ => true | _ => false end.
Definition count (f : madt_entry → bool) (es : list madt_entry) : Z := Z.of_nat (length (filter (λ e, f e = true) es)).
Lemma count_cons f e es : count f (e :: es) = (if f e then 1 else 0) + count f es.
Proof.
  unfold count. destruct (f e) eqn:He; [rewrite filter_cons_True by done|rewrite filter_cons_False by (by rewrite He)]; cbn [length]; lia.
Qed.
Lemma land_1_testbit x : negb (Z.land x 1 =? 0) = Z.testbit x 0.
Proof. change 1 with (Z.ones 1). rewrite Z.land_ones, Z.bit0_odd, Zmod_odd by lia. by destruct (Z.odd x). Qed.

Section madt.
Context (s : acpi).
Implicit Types (c i a n : Z).

(** One round reads one entry. *)
Lemma madt_entry_run fuel a n c i e : bytes_at (mem s) a (encode_entry e) → entry_ok e → a < n → a + Z.of_nat (length (encode_entry e)) < 2 ^ 64 →
  madt_entries (S fuel) a n c i s =
  madt_entries fuel (a + Z.of_nat (length (encode_entry e))) n (c + if enabled e then 1 else 0) (i + if is_io_apic e then 1 else 0) s.
Proof.
  intros Hb He Hlt Hfit. cbn [madt_entries]. rewrite (proj2 (Z.ltb_lt _ _)) by done. cbn [negb].
  destruct e as [acpi_id apic_id flags|id address gsi|type payload]; cbn [encode_entry app entry_ok enabled is_io_apic] in *;
    repeat (rewrite bytes_at_cons in Hb; let H := fresh "B" in destruct Hb as [H Hb]);
    repeat rewrite length_cons in Hfit |- *;
    (apply run_bind; eapply wp_read_byte; [exact B|]); (apply run_bind; eapply wp_read_byte; [exact B0|]); apply run_bind.
  - rewrite length_to_le in *. cbn [Z.eqb Pos.eqb]. wp_step. eapply wp_read_byte; [by rewrite <-B1; f_equal; lia|].
    wp_step. eapply wp_read_byte; [by rewrite <-B2; f_equal; lia|]. wp_step. eapply wp_read_le; [|apply length_to_le|].
    { replace (a + 4) with (a + 1 + 1 + 1 + 1) by lia. exact Hb. }
    rewrite from_le_to_le by exact He. rewrite land_1_testbit. wp_step.
    destruct (Z.testbit flags 0); apply run_bind; (wp_step; [apply cadd_some; lia|]); by rewrite ?Z.add_0_r.
  - rewrite length_app, !length_to_le in *. apply bytes_at_app in Hb as [Hb1 Hb2]. rewrite length_to_le in Hb2. cbn [Z.eqb Pos.eqb].
    wp_step. eapply wp_read_byte; [by rewrite <-B1; f_equal; lia|]. wp_step. eapply wp_read_le; [|apply length_to_le|].
    { replace (a + 4) with (a + 1 + 1 + 1 + 1) by lia. exact Hb1. }
    wp_step. eapply wp_read_le; [|apply length_to_le|].
    { replace (a + 8) with (a + 1 + 1 + 1 + 1 + Z.of_nat 4) by lia. exact Hb2. }
    wp_step. apply run_bind. wp_step; [apply cadd_some; lia|]. by rewrite ?Z.add_0_r.
  - rewrite !(proj2 (Z.eqb_neq type _)) by lia. wp_step. apply run_bind. wp_step; [apply cadd_some; lia|]. rewrite !Z.add_0_r.
    f_equal. lia.
Qed.

Lemma madt_prefix_run fuel es a n c i : bytes_at (mem s) a (encode_entries es) → Forall entry_ok es →
  a + Z.of_nat (length (encode_entries es)) ≤ n → n < 2 ^ 64 →
  madt_entries (length es + fuel) a n c i s =
  madt_entries fuel (a + Z.of_nat (length (encode_entries es))) n (c + count enabled es) (i + count is_io_apic es) s.
Proof.
  intros Hb Hok. revert a c i Hb. induction Hok as [|e es He _ IH]; intros a c i Hb Hn Hfit.
  - cbn. by rewrite !Z.add_0_r.
  - change (encode_entries (e :: es)) with (encode_entry e ++ encode_entries es) in *. rewrite length_app in *.
    apply bytes_at_app in Hb as [Hb1 Hb2]. cbn [length Nat.add].
    assert (Hpos : (0 < length (encode_entry e))%nat) by (destruct e; simpl; lia).
    rewrite (madt_entry_run _ a n c i e), IH by (done || lia). rewrite !count_cons, Nat2Z.inj_add, <-!Z.add_assoc. done.
Qed.
Lemma madt_entries_run fuel es a c i : bytes_at (mem s) a (encode_entries es) → Forall entry_ok es →
  a + Z.of_nat (length (encode_entries es)) < 2 ^ 64 → (length es < fuel)%nat →
  madt_entries fuel a (a + Z.of_nat (length (encode_entries es))) c i s = Some ((c + count enabled es, i + count is_io_apic es), s).
Proof.
  intros Hb Hok Hfit Hf. replace fuel with (length es + S (fuel - length es - 1))%nat by lia.
  rewrite madt_prefix_run by (done || lia). cbn [madt_entries]. by rewrite Z.ltb_irrefl.
Qed.
(** A failure after the entries is one from their start. *)
Lemma madt_prefix_fails es a n : bytes_at (mem s) a (encode_entries es) → Forall entry_ok es →
  a + Z.of_nat (length (encode_entries es)) ≤ n → n < 2 ^ 64 →
  (∀ fuel c i, madt_entries fuel (a + Z.of_nat (length (encode_entries es))) n c i s = None) → ∀ fuel c i, madt_entries fuel a n c i s = None.
Proof.
  intros Hb Hok Hn Hfit Hend fuel c i. destruct (decide (length es ≤ fuel)%nat) as [Hle|Hgt].
  - replace fuel with (length es + (fuel - length es))%nat by lia. by rewrite madt_prefix_run.
  - clear Hend. revert a c i es Hb Hok Hn Hgt. induction fuel as [|fuel IH]; intros a c i es Hb Hok Hn Hgt; [done|].
    destruct Hok as [|e es He Hok]; [cbn in Hgt; lia|]. change (encode_entries (e :: es)) with (encode_entry e ++ encode_entries es) in *.
    rewrite length_app in Hn. apply bytes_at_app in Hb as [Hb1 Hb2]. cbn [length] in Hgt.
    assert (Hpos : (0 < length (encode_entry e))%nat) by (destruct e; simpl; lia).
    rewrite (madt_entry_run _ a n c i e) by (done || lia). apply (IH _ _ _ es); [done|done|lia|lia].
Qed.
End madt.

(** The loop does not change the state. *)
Lemma read_bytes_keeps n a (s s' : acpi) bs : read_bytes n a s = Some (bs, s') → s' = s.
Proof.
  revert a bs. induction n as [|n IH]; intros a bs; cbn [read_bytes]; [by intros [= _ <-]|].
  unfold read_byte, mbind, M_bind, gets, lift, id. destruct (mem s a); [|done]. destruct (read_bytes n (a + 1) s) as [[bs' s1]|] eqn:Hr; [|done].
  intros [= _ <-]. by eapply IH.
Qed.
Lemma read_le_keeps n a (s s' : acpi) v : read_le n a s = Some (v, s') → s' = s.
Proof.
  unfold read_le, mbind, M_bind. destruct (read_bytes n a s) as [[bs s1]|] eqn:Hr; [|done]. intros [= _ <-]. by eapply read_bytes_keeps.
Qed.

(** An entry of length zero: no number of rounds is enough. *)
Lemma madt_zero_length fuel a n c i (s : acpi) : a < n → mem s (a + 1) = Some 0 → madt_entries fuel a n c i s = None.
Proof.
  intros Hlt Hz. revert c i. induction fuel as [|fuel IH]; intros c i; [done|]. cbn [madt_entries]. rewrite (proj2 (Z.ltb_lt _ _)) by done.
  cbn [negb]. unfold read_byte, mbind, M_bind, gets, lift, id, mret, M_ret. destruct (mem s a) as [t|]; [|done]. rewrite Hz.
  assert (Hnext : ∀ c' i', match match cadd 64 a 0 with Some a0 => Some (a0, s) | None => None end with
    | Some (a0, s') => madt_entries fuel a0 n c' i' s' | None => None end = None).
  { intros c' i'. unfold cadd. destruct (_ <? _); [|done]. rewrite Z.add_0_r. apply IH. }
  destruct (t =? 0); [|destruct (t =? 1)].
  - destruct (mem s (a + 2)); [|done]. destruct (mem s (a + 3)); [|done]. destruct (read_le 4 (a + 4) s) as [[f s1]|] eqn:Hr; [|done].
    apply read_le_keeps in Hr as ->. destruct (negb _); apply Hnext.
  - destruct (mem s (a + 2)); [|done]. destruct (read_le 4 (a + 4) s) as [[f s1]|] eqn:Hr; [|done]. apply read_le_keeps in Hr as ->.
    destruct (read_le 4 (a + 8) s) as [[g s1]|] eqn:Hr; [|done]. apply read_le_keeps in Hr as ->. apply Hnext.
  - apply Hnext.
Qed.

(** ** ACPI tables: what parsing each table does.

    The effect of a table on the state, as a function of what it describes, and
    the lemmas that the parsers have that effect. *)
(** ** MCFG entries *)
Record mcfg_entry := mkMcfgEntry { me_base : Z; me_segment : Z; me_start : Z; me_end : Z }.
Definition encode_mcfg (e : mcfg_entry) : list Z := to_le 8 (me_base e) ++ to_le 2 (me_segment e) ++ [me_start e; me_end e] ++ to_le 4 0.
Definition encode_mcfgs (es : list mcfg_entry) : list Z := concat (encode_mcfg <$> es).
Definition mcfg_entry_ok (e : mcfg_entry) : Prop := is_u64 (me_base e) ∧ 0 ≤ me_segment e < 2 ^ 16.
Definition mcfg_effect (p : pci) (e : mcfg_entry) : pci := if me_segment e =? 0 then set_mm (me_base e) (me_start e) (me_end e) p else p.
Definition set_pci (p : pci) (s : acpi) : acpi := mkAcpi (mem s) (LOCAL_APIC_ADDRESS s) p (ac_hpet s).
Definition mcfg_effects (es : list mcfg_entry) (s : acpi) : acpi := set_pci (foldl mcfg_effect (ac_pci s) es) s.
Lemma length_encode_mcfg e : length (encode_mcfg e) = 16%nat.
Proof. unfold encode_mcfg. by rewrite !length_app, !length_to_le. Qed.
Lemma length_encode_mcfgs es : Z.of_nat (length (encode_mcfgs es)) = 16 * Z.of_nat (length es).
Proof.
  induction es as [|e es IH]; [done|]. change (encode_mcfgs (e :: es)) with (encode_mcfg e ++ encode_mcfgs es).
  rewrite length_app, length_encode_mcfg. cbn [length]. lia.
Qed.

Lemma mcfg_entry_run fuel a n e (s : acpi) : bytes_at (mem s) a (encode_mcfg e) → mcfg_entry_ok e → a < n → a + 16 < 2 ^ 64 →
  mcfg_entries (S fuel) a n s = mcfg_entries fuel (a + 16) n (set_pci (mcfg_effect (ac_pci s) e) s).
Proof.
  intros Hb [Hbase Hseg] Hlt Hfit. cbn [mcfg_entries]. rewrite (proj2 (Z.ltb_lt _ _)) by done. cbn [negb].
  unfold encode_mcfg in Hb. apply bytes_at_app in Hb as [H0 Hb]. apply bytes_at_app in Hb as [H8 Hb].
  rewrite length_to_le in *. cbn [app] in Hb. apply bytes_at_cons in Hb as [H10 Hb]. apply bytes_at_cons in Hb as [H11 _]. rewrite length_to_le in *.
  apply run_bind. eapply wp_read_le; [exact H0|apply length_to_le|]. rewrite from_le_to_le by done.
  apply run_bind. eapply wp_read_le; [by replace (a + 8) with (a + Z.of_nat 8) by lia|apply length_to_le|]. rewrite from_le_to_le by done.
  apply run_bind. eapply wp_read_byte; [by rewrite <-H10; f_equal; lia|].
  apply run_bind. eapply wp_read_byte; [by rewrite <-H11; f_equal; lia|].
  apply run_bind. apply wp_zoom. unfold set_mmconfig, mcfg_effect. destruct (me_segment e =? 0); cbn [negb]; wp_step;
    apply run_bind; (wp_step; [apply cadd_some; unfold MCFG_ENTRY_SIZE; lia|]); done.
Qed.
Lemma mcfg_prefix_run fuel es a n (s : acpi) : bytes_at (mem s) a (encode_mcfgs es) → Forall mcfg_entry_ok es →
  a + 16 * Z.of_nat (length es) < n + 16 → n + 16 < 2 ^ 64 →
  mcfg_entries (length es + fuel) a n s = mcfg_entries fuel (a + 16 * Z.of_nat (length es)) n (mcfg_effects es s).
Proof.
  intros Hb Hok. revert a s Hb. induction Hok as [|e es He _ IH]; intros a s Hb Hn Hfit.
  - cbn. destruct s. by rewrite Z.add_0_r.
  - change (encode_mcfgs (e :: es)) with (encode_mcfg e ++ encode_mcfgs es) in *.
    apply bytes_at_app in Hb as [Hb1 Hb2]. rewrite length_encode_mcfg in Hb2. cbn [length Nat.add] in *.
    rewrite (mcfg_entry_run _ a n e), IH by (done || lia). f_equal. lia.
Qed.
Lemma mcfg_entries_run fuel es a (s : acpi) : bytes_at (mem s) a (encode_mcfgs es) → Forall mcfg_entry_ok es →
  a + Z.of_nat (length (encode_mcfgs es)) + 16 < 2 ^ 64 → (length es < fuel)%nat →
  mcfg_entries fuel a (a + Z.of_nat (length (encode_mcfgs es))) s = Some (tt, mcfg_effects es s).
Proof.
  intros Hb Hok Hfit Hf. rewrite length_encode_mcfgs in *. replace fuel with (length es + S (fuel - length es - 1))%nat by lia.
  rewrite mcfg_prefix_run by (done || lia). cbn [mcfg_entries]. by rewrite Z.ltb_irrefl.
Qed.
(** An entry of which a byte is missing. *)
Lemma mcfg_missing es a n (s : acpi) : bytes_at (mem s) a (encode_mcfgs es) → Forall mcfg_entry_ok es →
  a + 16 * Z.of_nat (length es) < n < a + 16 * Z.of_nat (length es) + 10 → n + 16 < 2 ^ 64 → (∀ k, n ≤ k → mem s k = None) →
  ∀ fuel, mcfg_entries fuel a n s = None.
Proof.
  intros Hb Hok Hn Hfit Hm fuel. revert a s es Hb Hok Hn Hm. induction fuel as [|fuel IH]; intros a s es Hb Hok Hn Hm; [done|].
  destruct Hok as [|e es He Hok].
  - cbn [length] in Hn. cbn [mcfg_entries]. rewrite (proj2 (Z.ltb_lt _ _)) by lia. cbn [negb].
    unfold mbind at 1, M_bind. destruct (read_le 8 a s) as [[b s1]|] eqn:Hr; [|done]. apply read_le_keeps in Hr as ->.
    apply fails_bind. apply (read_le_missing 2 (a + 8) s 1); [lia|apply Hm; lia].
  - change (encode_mcfgs (e :: es)) with (encode_mcfg e ++ encode_mcfgs es) in *.
    apply bytes_at_app in Hb as [Hb1 Hb2]. rewrite length_encode_mcfg in Hb2. cbn [length] in *.
    rewrite (mcfg_entry_run _ a n e) by (done || lia). apply (IH _ _ es); [done|done|lia|done].
Qed.

(** ** The parsers *)
Section parsers.
Context (s : acpi) (phys : Z) (Hphys : 0 < phys) (Hfit : phys + KERNEL_VIRTUAL_BASE + 2 ^ 28 < 2 ^ 64).
Notation virt := (phys + KERNEL_VIRTUAL_BASE).

(** The steps every parser of a table starts with. *)
Lemma open_run sig body {A} (k : Z → M acpi (result A AcpiError)) : table_at (mem s) virt sig body →
  (table ←? acpi_to_virt phys; valid ← verify_checksum table; if negb valid then mret (Err ChecksumFailed) else k table) s = k virt s.
Proof.
  intros Ht. apply run_bind. apply wp_acpi_to_virt; [done|lia|]. apply run_bind. by eapply wp_table_valid.
Qed.
Lemma body_size sig body : table_at (mem s) virt sig body → 36 + Z.of_nat (length body) ≤ MAX_ACPI_TABLE_LENGTH.
Proof. by intros (h & _ & _ & _ & _ & ? & _). Qed.

Definition madt_body (apic flags : Z) (entries : list Z) : list Z := to_le 4 apic ++ to_le 4 flags ++ entries.
Lemma parse_madt_run fuel sig apic flags entries : table_at (mem s) virt sig (madt_body apic flags entries) → is_u32 apic →
  parse_madt fuel phys s =
  (madt_entries fuel (virt + 44) (virt + 44 + Z.of_nat (length entries)) 0 0 ;; mret (Ok tt)) (set_lapic apic s).
Proof.
  intros Ht Hapic. unfold parse_madt. rewrite (open_run _ _ _ Ht). pose proof (table_body _ _ _ _ Ht) as Hb. pose proof (body_size _ _ Ht) as Hs.
  unfold madt_body in Hb, Hs. apply bytes_at_app in Hb as [H0 Hb]. apply bytes_at_app in Hb as [H4 _]. rewrite length_to_le in *.
  rewrite !length_app, !length_to_le in Hs. unfold MAX_ACPI_TABLE_LENGTH in Hs.
  apply run_bind. eapply wp_read_le; [exact H0|apply length_to_le|]. rewrite from_le_to_le by done.
  apply run_bind. eapply wp_read_le; [by replace (virt + 40) with (virt + 36 + Z.of_nat 4) by lia|apply length_to_le|].
  apply run_bind. eapply wp_table_len; [exact Ht|]. unfold madt_body. rewrite !length_app, !length_to_le. apply run_bind. wp_step.
  apply run_bind. wp_step; [apply cadd_some; unfold MADT_SIZE; lia|]. apply run_bind. wp_step; [apply cadd_some; lia|].
  unfold MADT_SIZE. replace (virt + (36 + Z.of_nat (4 + (4 + length entries)))) with (virt + 44 + Z.of_nat (length entries)) by lia. done.
Qed.
Lemma parse_mcfg_run fuel sig reserved entries : table_at (mem s) virt sig (reserved ++ entries) → length reserved = 8%nat →
  parse_mcfg fuel phys s = (mcfg_entries fuel (virt + 44) (virt + 44 + Z.of_nat (length entries)) ;; mret (Ok tt)) s.
Proof.
  intros Ht Hr. unfold parse_mcfg. rewrite (open_run _ _ _ Ht). pose proof (body_size _ _ Ht) as Hs.
  rewrite length_app, Hr in Hs. unfold MAX_ACPI_TABLE_LENGTH in Hs.
  apply run_bind. eapply wp_table_len; [exact Ht|]. rewrite length_app, Hr.
  apply run_bind. wp_step; [apply cadd_some; unfold MCFG_SIZE; lia|]. apply run_bind. wp_step; [apply cadd_some; lia|].
  apply run_bind. wp_step; [apply csub_some; unfold MCFG_SIZE; lia|]. unfold MCFG_SIZE.
  replace (virt + (36 + Z.of_nat (8 + length entries))) with (virt + 44 + Z.of_nat (length entries)) by lia. done.
Qed.
Definition hpet_body (block : list Z) (space : Z) (pad : list Z) (base : Z) (rest : list Z) : list Z := block ++ [space] ++ pad ++ to_le 8 base ++ rest.
Lemma parse_hpet_run sig block space pad base rest : table_at (mem s) virt sig (hpet_body block space pad base rest) → length block = 4%nat → length pad = 3%nat → is_u64 base →
  parse_hpet phys s =
    (if negb (space =? 0) then mret (Err AcpiNotSupported) else
     r ← zoom ac_hpet (λ h s, mkAcpi (mem s) (LOCAL_APIC_ADDRESS s) (ac_pci s) h) (hpet_init base);
     mret (match r with Ok _ => Ok tt | Err e => Err (AcpiPagingError e) end)) s.
Proof.
  intros Ht Hl Hp Hbase. unfold parse_hpet. rewrite (open_run _ _ _ Ht). pose proof (table_body _ _ _ _ Ht) as Hb.
  unfold hpet_body in Hb. apply bytes_at_app in Hb as [_ Hb]. rewrite Hl in Hb. apply bytes_at_app in Hb as [Hs Hb]. apply bytes_at_app in Hb as [_ Hb]. rewrite Hp in Hb.
  apply bytes_at_app in Hb as [Hb _]. cbn [length] in Hb. replace (virt + 36 + Z.of_nat 4 + Z.of_nat 1 + Z.of_nat 3) with (virt + 44) in Hb by lia.
  apply run_bind. eapply wp_read_le; [exact Hb|apply length_to_le|]. rewrite from_le_to_le by done.
  apply run_bind. apply (wp_read_byte space); [|done]. specialize (Hs 0%nat space eq_refl). by replace (virt + 36 + Z.of_nat 4 + Z.of_nat 0) with (virt + 40) in Hs by lia.
Qed.
(** A table too short for its own fixed part. *)
Lemma parse_mcfg_short fuel sig body : table_at (mem s) virt sig body → (length body < 8)%nat → parse_mcfg fuel phys s = None.
Proof.
  intros Ht Hl. unfold parse_mcfg. rewrite (open_run _ _ _ Ht). apply run_bind. eapply wp_table_len; [exact Ht|].
  apply run_bind. wp_step; [apply cadd_some; unfold MCFG_SIZE; lia|]. apply run_bind. wp_step; [apply cadd_some; lia|].
  apply fails_bind. unfold lift, csub, MCFG_SIZE. by rewrite (proj2 (Z.leb_gt _ _)) by lia.
Qed.
End parsers.

(** ** Parsing leaves memory alone *)
Definition keeps_mem {A} (m : M acpi A) : Prop := ∀ s a s', m s = Some (a, s') → mem s' = mem s.
Create HintDb keeps_mem.
Lemma mem_keeps_ret {A} (a : A) : keeps_mem (mret a).
Proof. by intros s b s' [= _ <-]. Qed.
Lemma keeps_panic {A} : keeps_mem (@panic acpi A).
Proof. by intros s b s' [=]. Qed.
Lemma mem_keeps_lift {A} (o : option A) : keeps_mem (lift o).
Proof. intros s b s'. unfold lift. destruct o; [by intros [= _ <-]|done]. Qed.
Lemma mem_keeps_bind {A B} (m : M acpi A) (k : A → M acpi B) : keeps_mem m → (∀ a, keeps_mem (k a)) → keeps_mem (m ≫= k).
Proof.
  intros Hm Hk s b s'. unfold mbind, M_bind. destruct (m s) as [[a s1]|] eqn:H1; [|done]. intros H2.
  rewrite (Hk _ _ _ _ H2). by eapply Hm.
Qed.
Lemma keeps_try {A B E} (m : M acpi (result A E)) (k : A → M acpi (result B E)) : keeps_mem m → (∀ a, keeps_mem (k a)) → keeps_mem (try_bind m k).
Proof. intros Hm Hk. apply mem_keeps_bind; [done|]. intros [a|e]; [done|apply mem_keeps_ret]. Qed.
Lemma keeps_read_bytes n a : keeps_mem (read_bytes n a).
Proof. intros s bs s' H. by rewrite (read_bytes_keeps _ _ _ _ _ H). Qed.
Lemma keeps_read_byte a : keeps_mem (read_byte a).
Proof. intros s b s'. unfold read_byte, mbind, M_bind, gets, lift, id. destruct (mem s a); [by intros [= _ <-]|done]. Qed.
Lemma keeps_zoom {S A} (get : acpi → S) (set : S → acpi → acpi) (m : M S A) : (∀ p s, mem (set p s) = mem s) → keeps_mem (zoom get set m).
Proof. intros Hs s a s'. unfold zoom. destruct (m (get s)) as [[b p]|]; [|done]. intros [= _ <-]. apply Hs. Qed.
Lemma keeps_set_lapic v : keeps_mem (modify (set_lapic v)).
Proof. by intros s a s' [= _ <-]. Qed.
#[export] Hint Resolve mem_keeps_ret keeps_panic mem_keeps_lift keeps_read_bytes keeps_read_byte keeps_set_lapic : keeps_mem.
(** The code splits into these cases. *)
Ltac keeps_mem := repeat first
  [ solve [auto with keeps_mem] | apply keeps_try; [|intros] | apply mem_keeps_bind; [|intros] | apply keeps_zoom; done
  | match goal with |- keeps_mem (if ?b then _ else _) => destruct b | |- keeps_mem (match ?x with _ => _ end) => destruct x end ].

Lemma keeps_read_le n a : keeps_mem (read_le n a).
Proof. unfold read_le. keeps_mem. Qed.
Lemma keeps_to_virt p : keeps_mem (acpi_to_virt p).
Proof. unfold acpi_to_virt. keeps_mem. Qed.
#[export] Hint Resolve keeps_read_le keeps_to_virt : keeps_mem.
Lemma keeps_length t : keeps_mem (table_length t).
Proof. unfold table_length. keeps_mem. Qed.
#[export] Hint Resolve keeps_length : keeps_mem.
Lemma keeps_checksum t : keeps_mem (verify_checksum t).
Proof. unfold verify_checksum, sum_bytes. keeps_mem. Qed.
#[export] Hint Resolve keeps_checksum : keeps_mem.
Lemma keeps_madt_entries fuel a n c i : keeps_mem (madt_entries fuel a n c i).
Proof. revert a c i. induction fuel as [|fuel IH]; intros a c i; cbn [madt_entries]; keeps_mem; apply IH. Qed.
Lemma keeps_mcfg_entries fuel a n : keeps_mem (mcfg_entries fuel a n).
Proof. revert a. induction fuel as [|fuel IH]; intros a; cbn [mcfg_entries]; unfold on_acpi_pci; keeps_mem; apply IH. Qed.
#[export] Hint Resolve keeps_madt_entries keeps_mcfg_entries : keeps_mem.
Lemma keeps_parse_entry fuel p : keeps_mem (parse_entry fuel p).
Proof. unfold parse_entry, parse_madt, parse_mcfg, parse_hpet. keeps_mem. Qed.

(** ** Root tables *)
Definition encode_addresses (n : nat) (addrs : list Z) : list Z := concat (to_le n <$> addrs).
Lemma length_encode_addresses n addrs : length (encode_addresses n addrs) = (n * length addrs)%nat.
Proof.
  induction addrs as [|a l IH]; [cbn; lia|]. change (encode_addresses n (a :: l)) with (to_le n a ++ encode_addresses n l).
  rewrite length_app, length_to_le, IH. cbn [length]. lia.
Qed.

Lemma sdt_loop (E : SdtEntry) fuel base addrs k (s : acpi) :
  bytes_at (mem s) (base + k * Z.of_nat SDT_ENTRY_SIZE) (encode_addresses SDT_ENTRY_SIZE addrs) →
  Forall (λ a, 0 ≤ a < 2 ^ (8 * Z.of_nat SDT_ENTRY_SIZE)) addrs →
  for_each (seqZ k (Z.of_nat (length addrs))) (λ i,
    table_phys_addr ← read_le SDT_ENTRY_SIZE (base + i * Z.of_nat SDT_ENTRY_SIZE); parse_entry fuel table_phys_addr) s =
  for_each addrs (parse_entry fuel) s.
Proof.
  intros Hb Hok. revert k s Hb. induction Hok as [|a addrs Ha _ IH]; intros k s Hb; [done|].
  change (encode_addresses SDT_ENTRY_SIZE (a :: addrs)) with (to_le SDT_ENTRY_SIZE a ++ encode_addresses SDT_ENTRY_SIZE addrs) in Hb.
  apply bytes_at_app in Hb as [H0 Hb]. rewrite length_to_le in Hb. cbn [length]. rewrite seqZ_cons by lia. cbn [for_each].
  assert (Hbody : (table_phys_addr ← read_le SDT_ENTRY_SIZE (base + k * Z.of_nat SDT_ENTRY_SIZE); parse_entry fuel table_phys_addr) s = parse_entry fuel a s).
  { apply run_bind. eapply wp_read_le; [exact H0|apply length_to_le|]. by rewrite from_le_to_le. }
  unfold mbind, M_bind in *. rewrite Hbody.
  destruct (parse_entry fuel a s) as [[[] s1]|] eqn:Hrun; [|done]. apply keeps_parse_entry in Hrun.
  replace (Z.pred (Z.of_nat (S (length addrs)))) with (Z.of_nat (length addrs)) by lia. apply IH. rewrite Hrun.
  by replace (base + Z.succ k * Z.of_nat SDT_ENTRY_SIZE) with (base + k * Z.of_nat SDT_ENTRY_SIZE + Z.of_nat SDT_ENTRY_SIZE) by lia.
Qed.
Lemma parse_sdt_run (E : SdtEntry) fuel phys addrs rest (s : acpi) : (0 < SDT_ENTRY_SIZE)%nat → length SDT_SIGNATURE = 4%nat →
  0 < phys → phys + KERNEL_VIRTUAL_BASE + 2 ^ 28 < 2 ^ 64 →
  table_at (mem s) (phys + KERNEL_VIRTUAL_BASE) SDT_SIGNATURE (encode_addresses SDT_ENTRY_SIZE addrs ++ rest) →
  Forall (λ a, 0 ≤ a < 2 ^ (8 * Z.of_nat SDT_ENTRY_SIZE)) addrs → (length rest < SDT_ENTRY_SIZE)%nat →
  parse_sdt E fuel phys s = (for_each addrs (parse_entry fuel) ;; mret (Ok tt)) s.
Proof.
  intros Hpos Hsig Hp Hfit Ht Hok Hrest. pose proof (table_body _ _ _ _ Ht) as Hb. apply bytes_at_app in Hb as [Hb _].
  unfold parse_sdt. apply run_bind. apply wp_acpi_to_virt; [done|lia|]. apply run_bind. unfold signature_is. wp_step.
  rewrite Hsig. eapply wp_table_sig; [exact Ht|]. wp_step. rewrite bool_decide_true by done. cbn [negb].
  apply run_bind. eapply wp_table_valid; [exact Ht|]. cbn [negb]. apply run_bind. eapply wp_table_len; [exact Ht|].
  rewrite length_app, length_encode_addresses. unfold HEADER_SIZE. apply run_bind. wp_step; [apply csub_some; lia|].
  replace (36 + Z.of_nat (SDT_ENTRY_SIZE * length addrs + length rest) - 36) with (Z.of_nat (length rest) + Z.of_nat (length addrs) * Z.of_nat SDT_ENTRY_SIZE) by lia.
  rewrite Z.div_add, Z.div_small by lia. rewrite Z.add_0_l. apply run_bind. wp_step; [apply cadd_some; lia|].
  pose proof (sdt_loop E fuel (phys + KERNEL_VIRTUAL_BASE + 36) addrs 0 s) as Hloop. rewrite Z.mul_0_l, Z.add_0_r in Hloop.
  specialize (Hloop Hb Hok). unfold mbind, M_bind in *. by rewrite Hloop.
Qed.
