(* ===== verification/AcpiProps.v ===== *)
(** * ACPI tables: the theorems. *)
From S2P Require Import Prelude Addr BootInfo Paging TimerDevice ClockThms ClockProps Pci PciProps Acpi AcpiThms.
Set Default Goal Selector "!".

Definition set_mem (m : Z → option Z) (s : acpi) : acpi := mkAcpi m (LOCAL_APIC_ADDRESS s) (ac_pci s) (ac_hpet s).

(** A table is accepted exactly if its length is between 36 bytes and
    100 MiB and its bytes sum to zero modulo 256, and no accepted table stays
    accepted when one byte other than its length changes. *)
Theorem verify_checksum_correct a bs (s : acpi) (Hb : bytes_at (mem s) a bs) (Hhdr : (8 ≤ length bs)%nat)
  (Hfit : 36 ≤ length_field bs ≤ 100 * 2 ^ 20 → length_field bs ≤ Z.of_nat (length bs)) :
  (∃ ok, verify_checksum a s = Some (ok, s) ∧
     (ok = true ↔ 36 ≤ length_field bs ≤ 100 * 2 ^ 20 ∧ zsum (take (Z.to_nat (length_field bs)) bs) mod 256 = 0)) ∧
  (∀ i b c, bs !! i = Some b → is_byte b → is_byte c → b ≠ c → ¬ (4 ≤ i < 8)%nat → Z.of_nat i < length_field bs →
     verify_checksum a s = Some (true, s) →
     let s' := set_mem (<[a + Z.of_nat i := Some c]> (mem s)) s in verify_checksum a s' = Some (false, s')).
Proof.
  assert (Hrun : ∀ (s : acpi) bs, bytes_at (mem s) a bs → (8 ≤ length bs)%nat →
    (36 ≤ length_field bs ≤ 100 * 2 ^ 20 → length_field bs ≤ Z.of_nat (length bs)) → verify_checksum a s = Some (sums_to_zero bs, s)).
  { intros s1 bs1 H1 H2 H3. pose proof (wp_verify_checksum bs1 a (λ b s', b = sums_to_zero bs1 ∧ s' = s1) s1 H1 H2 H3 (conj eq_refl eq_refl)) as Hw.
    apply wp_run in Hw as (b & s2 & Hw & -> & ->). exact Hw. }
  assert (Hiff : ∀ bs, sums_to_zero bs = true ↔ 36 ≤ length_field bs ≤ 100 * 2 ^ 20 ∧ zsum (take (Z.to_nat (length_field bs)) bs) mod 256 = 0).
  { intros bs1. unfold sums_to_zero, MIN_ACPI_TABLE_LENGTH, HEADER_SIZE, MAX_ACPI_TABLE_LENGTH.
    rewrite !andb_true_iff, !Z.leb_le, Z.eqb_eq. lia. }
  split; [exists (sums_to_zero bs); by split; [apply Hrun|apply Hiff]|].
  intros i b c Hi Hbb Hcb Hne Hout Hin. rewrite (Hrun s bs) by done. intros [= Hok]. cbv zeta.
  assert (Hlen : length_field (<[i := c]> bs) = length_field bs).
  { unfold length_field. f_equal. destruct (decide (i < 4)%nat); [by rewrite drop_insert_lt by lia|].
    rewrite drop_insert_ge by lia. rewrite take_insert_ge by lia. done. }
  rewrite (Hrun _ (<[i := c]> bs)).
  - do 2 f_equal. apply not_true_is_false. rewrite Hiff, Hlen. apply Hiff in Hok as [Hr Hz]. intros [_ Hz'].
    rewrite take_insert_lt in Hz' by lia. erewrite zsum_insert in Hz' by (rewrite lookup_take_lt; [done|lia]).
    unfold is_byte in *. dlia.
  - intros j d Hj. cbn [mem set_mem]. destruct (decide (j = i)) as [->|Hji].
    + rewrite list_lookup_insert_eq in Hj by (by eapply lookup_lt_Some). by rewrite fn_lookup_insert.
    + rewrite list_lookup_insert_ne in Hj by done. rewrite fn_lookup_insert_ne by lia. by apply Hb.
  - by rewrite length_insert.
  - by rewrite length_insert, Hlen.
Qed.

(** ** MADT *)
(** For any list of entries, parsing the MADT that encodes them succeeds
    with one round more than there are entries, records the local APIC address
    and nothing else, and counts exactly the enabled processors and the I/O
    APICs.  If an entry of length zero follows them, no number of rounds is
    enough: the loop of the code does not end. *)
Theorem parse_madt_correct phys sig apic flags es rest (s : acpi) (Hphys : 0 < phys) (Hfit : phys + KERNEL_VIRTUAL_BASE + 2 ^ 28 < 2 ^ 64)
  (Ht : table_at (mem s) (phys + KERNEL_VIRTUAL_BASE) sig (madt_body apic flags (encode_entries es ++ rest)))
  (Hapic : is_u32 apic) (Hok : Forall entry_ok es) :
  (rest = [] → ∀ fuel, (length es < fuel)%nat →
     parse_madt fuel phys s = Some (Ok tt, set_lapic apic s) ∧
     let first := phys + KERNEL_VIRTUAL_BASE + 44 in
     madt_entries fuel first (first + Z.of_nat (length (encode_entries es))) 0 0 s = Some ((count enabled es, count is_io_apic es), s)) ∧
  (∀ type more, rest = type :: 0 :: more → ∀ fuel, parse_madt fuel phys s = None).
Proof.
  pose proof (table_body _ _ _ _ Ht) as Hb. pose proof (body_size _ _ _ _ Ht) as Hs. unfold madt_body in Hb, Hs.
  rewrite !length_app, !length_to_le in Hs. unfold MAX_ACPI_TABLE_LENGTH in Hs. rewrite app_assoc in Hb.
  apply bytes_at_app in Hb as [_ Hb]. rewrite length_app, !length_to_le in Hb.
  replace (phys + KERNEL_VIRTUAL_BASE + 36 + Z.of_nat (4 + 4)) with (phys + KERNEL_VIRTUAL_BASE + 44) in Hb by lia.
  apply bytes_at_app in Hb as [Hb Hr]. split.
  - intros -> fuel Hf. rewrite app_nil_r in *. cbv zeta. rewrite madt_entries_run by (done || cbn in Hs; lia). split; [|done].
    erewrite parse_madt_run by done. unfold mbind, M_bind. by rewrite madt_entries_run by (done || cbn in Hs; lia).
  - intros type more -> fuel. erewrite parse_madt_run by done. apply fails_bind. rewrite length_app in *. cbn [length] in *.
    apply (madt_prefix_fails _ es); [done|done|lia|lia|]. intros fuel' c i. apply madt_zero_length; [lia|].
    apply bytes_at_cons in Hr as [_ Hr]. by apply bytes_at_cons in Hr as [Hr _].
Qed.

(** ** MCFG *)
(** For any list of entries, parsing the MCFG that encodes them succeeds
    with one round more than there are entries, and the configuration window is
    the one of the last entry for segment 0.  A sound table shorter than 44
    bytes overflows, and a table that ends in the first ten bytes of an entry is
    read past its end. *)
Theorem parse_mcfg_correct phys sig body (s : acpi) (Hphys : 0 < phys) (Hfit : phys + KERNEL_VIRTUAL_BASE + 2 ^ 28 < 2 ^ 64)
  (Ht : table_at (mem s) (phys + KERNEL_VIRTUAL_BASE) sig body) :
  ((length body < 8)%nat → ∀ fuel, parse_mcfg fuel phys s = None) ∧
  (∀ reserved es rest, body = reserved ++ encode_mcfgs es ++ rest → length reserved = 8%nat → Forall mcfg_entry_ok es →
     (rest = [] → ∀ fuel, (length es < fuel)%nat → parse_mcfg fuel phys s = Some (Ok tt, mcfg_effects es s)) ∧
     ((0 < length rest < 10)%nat → (∀ k, phys + KERNEL_VIRTUAL_BASE + 36 + Z.of_nat (length body) ≤ k → mem s k = None) →
        ∀ fuel, parse_mcfg fuel phys s = None)).
Proof.
  split; [intros Hl fuel; by eapply parse_mcfg_short|]. intros reserved es rest -> Hr Hok.
  pose proof (table_body _ _ _ _ Ht) as Hb. pose proof (body_size _ _ _ _ Ht) as Hs.
  apply bytes_at_app in Hb as [_ Hb]. apply bytes_at_app in Hb as [Hb _]. rewrite Hr in Hb.
  replace (phys + KERNEL_VIRTUAL_BASE + 36 + Z.of_nat 8) with (phys + KERNEL_VIRTUAL_BASE + 44) in Hb by lia.
  rewrite !length_app, Hr in Hs. unfold MAX_ACPI_TABLE_LENGTH in Hs. split.
  - intros -> fuel Hf. rewrite app_nil_r in *. erewrite parse_mcfg_run by done. unfold mbind, M_bind.
    by rewrite mcfg_entries_run by (done || cbn in Hs; lia).
  - intros Hrest Hend fuel. erewrite parse_mcfg_run by done. apply fails_bind. rewrite !length_app, Hr in *.
    pose proof (length_encode_mcfgs es). apply (mcfg_missing es); [done|done|lia|lia|]. intros k Hk. apply Hend. lia.
Qed.

(** ** Initialisation *)
(** What a root table entry can point to. *)
Inductive acpi_table :=
  | MadtTable (apic flags : Z) (es : list madt_entry)
  | McfgTable (reserved : list Z) (es : list mcfg_entry)
  | HpetTable (block : list Z) (space : Z) (pad : list Z) (base : Z) (rest : list Z)
  | InvalidTable (bs : list Z)
  | OtherTable (sig : list Z)
  | AbsentTable.
Definition describes (m : Z → option Z) (phys : Z) (t : acpi_table) : Prop :=
  (t = AbsentTable → phys = 0) ∧ (t ≠ AbsentTable → 0 < phys ∧ phys + KERNEL_VIRTUAL_BASE + 2 ^ 28 < 2 ^ 64) ∧
  let virt := phys + KERNEL_VIRTUAL_BASE in
  match t with
  | MadtTable apic flags es => table_at m virt sig_APIC (madt_body apic flags (encode_entries es)) ∧ is_u32 apic ∧ Forall entry_ok es
  | McfgTable reserved es => table_at m virt sig_MCFG (reserved ++ encode_mcfgs es) ∧ length reserved = 8%nat ∧ Forall mcfg_entry_ok es
  | HpetTable block space pad base rest => table_at m virt sig_HPET (hpet_body block space pad base rest) ∧ length block = 4%nat ∧ length pad = 3%nat ∧ is_u64 base
  | InvalidTable bs => bytes_at m virt bs ∧ (8 ≤ length bs)%nat ∧ sums_to_zero bs = false ∧
      (MIN_ACPI_TABLE_LENGTH ≤ length_field bs ≤ MAX_ACPI_TABLE_LENGTH → length_field bs ≤ Z.of_nat (length bs))
  | OtherTable sig => bytes_at m virt sig ∧ length sig = 4%nat ∧ sig ∉ [sig_APIC; sig_MCFG; sig_HPET]
  | AbsentTable => True
  end.
(** What initialisation is to do with it.  An HPET in memory is mapped and, when
    that succeeds, started; one in I/O space is not supported.  [None]: the
    mapping panics. *)
Definition set_hpet (hs : hpet_sys) (s : acpi) : acpi := mkAcpi (mem s) (LOCAL_APIC_ADDRESS s) (ac_pci s) hs.
Definition hpet_effect (base : Z) (hs : hpet_sys) : option hpet_sys :=
  match map_mmio base PAGE_SIZE (hs_paging hs) with
  | Some (Ok v, p') => Some (mkHpetSys p' (hpet_started v (hs_hpet hs)))
  | Some (Err _, p') => Some (mkHpetSys p' (hs_hpet hs))
  | None => None
  end.
Definition effect (t : acpi_table) (s : acpi) : option acpi :=
  match t with
  | MadtTable apic _ _ => Some (set_lapic apic s)
  | McfgTable _ es => Some (mcfg_effects es s)
  | HpetTable _ space _ base _ => if space =? 0 then (λ hs, set_hpet hs s) <$> hpet_effect base (ac_hpet s) else Some s
  | _ => Some s
  end.
Fixpoint effects (tables : list acpi_table) (s : acpi) : option acpi :=
  match tables with [] => Some s | t :: tables => s' ← effect t s; effects tables s' end.
(** The device's registers are where the tables say: in the direct map of the
    base address. *)
Definition hpet_placed (base : Z) (h : hpet) : Prop :=
  dev_base (device h) = base + KERNEL_VIRTUAL_BASE ∧ 0 < base + KERNEL_VIRTUAL_BASE < 2 ^ 64 - 0x1000 ∧ 0 ≤ cap_id (device h) < 2 ^ 64.
Definition hpet_bases (tables : list acpi_table) : list Z :=
  omap (λ t, match t with HpetTable _ space _ base _ => if space =? 0 then Some base else None | _ => None end) tables.
Definition rounds (t : acpi_table) : nat := match t with MadtTable _ _ es => length es | McfgTable _ es => length es | _ => 0%nat end.

Lemma parse_invalid fuel phys bs (s : acpi) : describes (mem s) phys (InvalidTable bs) →
  (parse_madt fuel phys ;; mret tt) s = Some (tt, s) ∧ (parse_mcfg fuel phys ;; mret tt) s = Some (tt, s) ∧ (parse_hpet phys ;; mret tt) s = Some (tt, s).
Proof.
  intros (_ & Hp & Hb & Hl & Hz & Hfit). destruct Hp as [Hp Hf]; [done|]. unfold parse_madt, parse_mcfg, parse_hpet.
  split; [|split]; apply run_bind; apply wp_try_bind; (apply wp_acpi_to_virt; [done|lia|]); wp_step;
    (eapply wp_verify_checksum; [exact Hb|exact Hl|exact Hfit|]); rewrite Hz; cbn [negb]; by wp_step.
Qed.
Lemma effect_hpet_keeps base hs hs' : hpet_effect base hs = Some hs' → ∀ b, hpet_placed b (hs_hpet hs) → hpet_placed b (hs_hpet hs').
Proof. unfold hpet_effect. destruct (map_mmio _ _ _) as [[[v|e] p']|]; [|by intros [= <-]|done]. by intros [= <-]. Qed.
Lemma effect_keeps t s s' : effect t s = Some s' → mem s' = mem s ∧ ∀ b, hpet_placed b (hs_hpet (ac_hpet s)) → hpet_placed b (hs_hpet (ac_hpet s')).
Proof.
  destruct t as [apic flags es|reserved es|block space pad base rest|bs|sig|]; cbn [effect]; try (by intros [= <-]).
  destruct (space =? 0); [|by intros [= <-]]. intros (hs & Hhs & ->)%fmap_Some. split; [done|]. by apply effect_hpet_keeps with (base := base).
Qed.
Lemma hpet_init_run base hs : hpet_placed base (hs_hpet hs) →
  hpet_init base hs = (λ hs', (match map_mmio base PAGE_SIZE (hs_paging hs) with Some (Err e, _) => Err e | _ => Ok tt end, hs')) <$> hpet_effect base hs.
Proof.
  intros (Hd & Hv & Hcap). unfold hpet_effect, hpet_init, try_bind, mbind, M_bind, zoom. destruct (map_mmio base PAGE_SIZE (hs_paging hs)) as [[[v|e] p']|] eqn:Hm; [|done|done].
  cbn [hs_hpet hs_paging]. pose proof (map_mmio_answer _ _ _ _ _ Hm) as Ha. cbv beta iota in Ha. subst v. by rewrite hpet_start_run.
Qed.
Lemma parse_entry_run fuel phys t (s : acpi) : describes (mem s) phys t → (rounds t < fuel)%nat → (∀ b, b ∈ hpet_bases [t] → hpet_placed b (hs_hpet (ac_hpet s))) →
  parse_entry fuel phys s = (λ s', (tt, s')) <$> effect t s.
Proof.
  intros Hd Hf Hdev. pose proof Hd as (H0 & Hp & Ht). cbv zeta in Ht. unfold parse_entry. destruct t as [apic flags es|reserved es|block space pad base rest|bs|sig|].
  6: { rewrite H0 by done. done. }
  all: destruct Hp as [Hp Hfit]; [done|]; apply run_bind; (eapply wp_lift; [apply phys_to_virt_ok; lia|]); cbv iota.
  - destruct Ht as (Ht & Hapic & Hok). apply run_bind. eapply wp_table_sig; [exact Ht|]. rewrite bool_decide_true by done.
    rewrite <-(app_nil_r (encode_entries es)) in Ht. unfold mbind, M_bind. erewrite parse_madt_run by done.
    rewrite app_nil_r in *. pose proof (table_body _ _ _ _ Ht) as Hb. unfold madt_body in Hb. rewrite app_assoc in Hb.
    apply bytes_at_app in Hb as [_ Hb]. rewrite length_app, !length_to_le in Hb. pose proof (body_size _ _ _ _ Ht) as Hs.
    unfold madt_body, MAX_ACPI_TABLE_LENGTH in Hs. rewrite !length_app, !length_to_le in Hs.
    replace (phys + KERNEL_VIRTUAL_BASE + 36 + Z.of_nat (4 + 4)) with (phys + KERNEL_VIRTUAL_BASE + 44) in Hb by lia.
    unfold mbind, M_bind. by rewrite madt_entries_run by (done || lia).
  - destruct Ht as (Ht & Hr & Hok). apply run_bind. eapply wp_table_sig; [exact Ht|]. rewrite bool_decide_false by done. rewrite bool_decide_true by done.
    unfold mbind, M_bind. erewrite parse_mcfg_run by done. pose proof (table_body _ _ _ _ Ht) as Hb. apply bytes_at_app in Hb as [_ Hb].
    pose proof (body_size _ _ _ _ Ht) as Hs. rewrite length_app, Hr in *. unfold MAX_ACPI_TABLE_LENGTH in Hs.
    replace (phys + KERNEL_VIRTUAL_BASE + 36 + Z.of_nat 8) with (phys + KERNEL_VIRTUAL_BASE + 44) in Hb by lia.
    unfold mbind, M_bind. by rewrite mcfg_entries_run by (done || lia).
  - destruct Ht as (Ht & Hl & Hpad & Hbase). apply run_bind. eapply wp_table_sig; [exact Ht|]. rewrite !bool_decide_false by done. rewrite bool_decide_true by done.
    unfold mbind, M_bind. erewrite parse_hpet_run by done. cbn [effect]. destruct (Z.eqb_spec space 0) as [->|Hne]; cbn [negb]; [|done].
    unfold mbind, M_bind, zoom. rewrite hpet_init_run by (apply Hdev; by left). destruct (hpet_effect base (ac_hpet s)) as [hs|]; [|done].
    cbn. by repeat case_match.
  - destruct (parse_invalid fuel phys bs s Hd) as (H1 & H2 & H3). destruct Ht as (Hb & Hl & _). apply run_bind.
    pose proof (bytes_at_sub (mem s) _ bs 0 4 Hb) as Hsig. rewrite Z.add_0_r, drop_0 in Hsig.
    eapply wp_read_bytes; [exact Hsig|rewrite length_take; lia|]. repeat (destruct (bool_decide _); [done|]). done.
  - destruct Ht as (Hb & Hl & Hne). apply run_bind. eapply wp_read_bytes; [exact Hb|done|]. rewrite !elem_of_cons in Hne.
    rewrite !bool_decide_false by (intros ->; apply Hne; auto). done.
Qed.
Lemma parse_entries_run fuel addrs tables (s : acpi) : Forall2 (describes (mem s)) addrs tables → Forall (λ t, rounds t < fuel)%nat tables →
  (∀ b, b ∈ hpet_bases tables → hpet_placed b (hs_hpet (ac_hpet s))) →
  for_each addrs (parse_entry fuel) s = (λ s', (tt, s')) <$> effects tables s.
Proof.
  intros Hd Hf. revert addrs s Hd. induction Hf as [|t tables Ht _ IH]; intros addrs s Hd Hdev; [by apply Forall2_nil_inv_r in Hd as ->|].
  apply Forall2_cons_inv_r in Hd as (phys & addrs' & Hd & Hds & ->). cbn [for_each effects]. unfold mbind at 1, M_bind.
  assert (Hbs : hpet_bases (t :: tables) = hpet_bases [t] ++ hpet_bases tables) by (unfold hpet_bases; by rewrite <-omap_app).
  rewrite (parse_entry_run fuel phys t s Hd Ht) by (intros b Hb; apply Hdev; rewrite Hbs, elem_of_app; by left).
  destruct (effect t s) as [s1|] eqn:He; [|done]. apply effect_keeps in He as [Hm Hk]. cbn [mbind option_bind fmap option_fmap option_map]. apply IH; [by rewrite Hm|].
  intros b Hb. apply Hk, Hdev. rewrite Hbs, elem_of_app. by right.
Qed.

(** The root pointer: the 20 bytes the checksum covers, its revision, and the
    root table it names. *)
Definition rsdp_revision (rs : list Z) : Z := nth 15 rs 0.
Definition rsdp_sdt (rs : list Z) : SdtEntry := if 2 <=? rsdp_revision rs then Xsdt else Rsdt.
Definition rsdp_root (rs : list Z) : Z := if 2 <=? rsdp_revision rs then from_le (take 8 (drop 24 rs)) else from_le (take 4 (drop 16 rs)).

Lemma acpi_init_run fuel rsdp rs addrs rest tables (s : acpi)
  (Hrsdp : 0 < rsdp) (Hfit : rsdp + KERNEL_VIRTUAL_BASE + 2 ^ 28 < 2 ^ 64)
  (Hrs : bytes_at (mem s) (rsdp + KERNEL_VIRTUAL_BASE) rs) (Hlen : (20 ≤ length rs)%nat) (Hext : 2 ≤ rsdp_revision rs → (36 ≤ length rs)%nat)
  (Hroot : 0 < rsdp_root rs) (Hrfit : rsdp_root rs + KERNEL_VIRTUAL_BASE + 2 ^ 28 < 2 ^ 64)
  (Hsdt : table_at (mem s) (rsdp_root rs + KERNEL_VIRTUAL_BASE) (@SDT_SIGNATURE (rsdp_sdt rs))
     (encode_addresses (@SDT_ENTRY_SIZE (rsdp_sdt rs)) addrs ++ rest))
  (Haddrs : Forall (λ a, 0 ≤ a < 2 ^ (8 * Z.of_nat (@SDT_ENTRY_SIZE (rsdp_sdt rs)))) addrs)
  (Hrest : (length rest < @SDT_ENTRY_SIZE (rsdp_sdt rs))%nat)
  (Htables : Forall2 (describes (mem s)) addrs tables) (Hfuel : Forall (λ t, rounds t < fuel)%nat tables)
  (Hdev : ∀ b, b ∈ hpet_bases tables → hpet_placed b (hs_hpet (ac_hpet s))) :
  acpi_init fuel rsdp s = (
    if bool_decide (take 8 rs = sig_RSDP) then
      if zsum (take 20 rs) mod 256 =? 0 then (λ s', (Ok tt, s')) <$> effects tables s else Some (Err ChecksumFailed, s)
    else Some (Err AcpiNotSupported, s)) ∧
  acpi_init fuel 0 s = Some (Err AddressConversionFailed, s).
Proof.
  split; [|done]. unfold acpi_init. rewrite (proj2 (Z.eqb_neq _ _)) by lia. apply run_bind. apply wp_acpi_to_virt; [done|lia|].
  set (virt := rsdp + KERNEL_VIRTUAL_BASE) in *.
  assert (Hsub : ∀ o n, (o + n ≤ length rs)%nat → bytes_at (mem s) (virt + Z.of_nat o) (take n (drop o rs)) ∧ length (take n (drop o rs)) = n).
  { intros o n Ho. split; [by apply bytes_at_sub|]. rewrite length_take, length_drop. lia. }
  destruct (Hsub 0%nat 8%nat) as [H8 L8]; [lia|]. rewrite Z.add_0_r, drop_0 in *. destruct (Hsub 0%nat 20%nat) as [H20 L20]; [lia|]. rewrite Z.add_0_r, drop_0 in *.
  apply run_bind. unfold signature_is. wp_step. eapply wp_read_bytes; [exact H8|done|]. wp_step. destruct (bool_decide _); [|done]. cbn [negb].
  apply run_bind. eapply wp_sum_bytes; [exact H20|by rewrite L20|]. destruct (_ =? 0); [|done]. cbn [negb].
  apply run_bind. apply (wp_read_byte (rsdp_revision rs)).
  { apply (Hrs 15%nat). unfold rsdp_revision. destruct (nth_lookup_or_length rs 15 0); [done|lia]. }
  unfold rsdp_root, rsdp_sdt in *. destruct (2 <=? rsdp_revision rs) eqn:Hrev.
  - apply Z.leb_le in Hrev. destruct (Hsub 24%nat 8%nat) as [Hx Lx]; [specialize (Hext Hrev); lia|].
    apply run_bind. eapply wp_read_le; [exact Hx|exact Lx|]. erewrite (parse_sdt_run Xsdt) by (done || exact Hsdt || (cbn; lia)).
    unfold mbind, M_bind. erewrite parse_entries_run by done. by destruct (effects tables s).
  - destruct (Hsub 16%nat 4%nat) as [Hx Lx]; [lia|].
    apply run_bind. eapply wp_read_le; [exact Hx|exact Lx|]. erewrite (parse_sdt_run Rsdt) by (done || exact Hsdt || (cbn; lia)).
    unfold mbind, M_bind. erewrite parse_entries_run by done. by destruct (effects tables s).
Qed.

(** Memory in which the root pointer at [rsdp] leads to [tables]. *)
Definition root_described (m : Z → option Z) (fuel : nat) (rsdp : Z) (tables : list acpi_table) : Prop := ∃ rs addrs rest,
  0 < rsdp ∧ rsdp + KERNEL_VIRTUAL_BASE + 2 ^ 28 < 2 ^ 64 ∧ bytes_at m (rsdp + KERNEL_VIRTUAL_BASE) rs ∧ (20 ≤ length rs)%nat ∧ (2 ≤ rsdp_revision rs → (36 ≤ length rs)%nat) ∧
  take 8 rs = sig_RSDP ∧ zsum (take 20 rs) mod 256 = 0 ∧
  0 < rsdp_root rs ∧ rsdp_root rs + KERNEL_VIRTUAL_BASE + 2 ^ 28 < 2 ^ 64 ∧
  table_at m (rsdp_root rs + KERNEL_VIRTUAL_BASE) (@SDT_SIGNATURE (rsdp_sdt rs)) (encode_addresses (@SDT_ENTRY_SIZE (rsdp_sdt rs)) addrs ++ rest) ∧
  Forall (λ a, 0 ≤ a < 2 ^ (8 * Z.of_nat (@SDT_ENTRY_SIZE (rsdp_sdt rs)))) addrs ∧ (length rest < @SDT_ENTRY_SIZE (rsdp_sdt rs))%nat ∧
  Forall2 (describes m) addrs tables ∧ Forall (λ t, rounds t < fuel)%nat tables.
(** Initialisation with no root pointer, or with one that leads to tables. *)
Lemma acpi_starts fuel rsdp tables s s' : rsdp = 0 ∧ s' = s ∨ root_described (mem s) fuel rsdp tables ∧ (∀ b, b ∈ hpet_bases tables → hpet_placed b (hs_hpet (ac_hpet s))) ∧ effects tables s = Some s' →
  ∃ r, acpi_init fuel rsdp s = Some (r, s').
Proof.
  intros [[-> ->]|((rs & addrs & rest & H1 & H2 & H3 & H4 & H5 & H6 & H7 & H8 & H9 & H10 & H11 & H12 & H13 & H14) & Hdev & He)]; [by exists (Err AddressConversionFailed)|].
  destruct (acpi_init_run fuel rsdp rs addrs rest tables s H1 H2 H3 H4 H5 H8 H9 H10 H11 H12 H13 H14 Hdev) as [Hrun _].
  rewrite bool_decide_true in Hrun by done. rewrite H7, He in Hrun. exists (Ok tt). exact Hrun.
Qed.
(** The effects on the parts of the state: the APIC's address and the windows do
    not depend on the HPET. *)
Definition plain_effect (lp : Z * pci) (t : acpi_table) : Z * pci :=
  match t with MadtTable apic _ _ => (apic, lp.2) | McfgTable _ es => (lp.1, foldl mcfg_effect lp.2 es) | _ => lp end.
Lemma effects_split tables : ∀ m l p hs, effects tables (mkAcpi m l p hs) =
  hs' ← foldr (λ b k hs, hs' ← hpet_effect b hs; k hs') Some (hpet_bases tables) hs;
  Some (mkAcpi m (foldl plain_effect (l, p) tables).1 (foldl plain_effect (l, p) tables).2 hs').
Proof.
  induction tables as [|t tables IH]; intros m l p hs; [done|].
  destruct t as [apic flags es|reserved es|block space pad base rest|bs|sig|]; cbn [effects effect foldl]; try exact (IH m _ _ hs).
  destruct (Z.eqb_spec space 0) as [->|Hne].
  - change (hpet_bases (HpetTable block 0 pad base rest :: tables)) with (base :: hpet_bases tables). cbn [foldr ac_hpet]. destruct (hpet_effect base hs) as [hs1|]; [|done]. exact (IH m l p hs1).
  - assert (Hbs : hpet_bases (HpetTable block space pad base rest :: tables) = hpet_bases tables) by (unfold hpet_bases; cbn; by rewrite (proj2 (Z.eqb_neq _ _))).
    rewrite Hbs. exact (IH m l p hs).
Qed.

(** C27: Initialisation with a root table of either width does for every table
    it lists, in order, exactly what the table describes: the local APIC
    address of the MADT; the configuration windows of the MCFG; an HPET in
    memory space, whose registers are where its table says, gets its page mapped
    as device memory and, when that succeeds, its statics filled (base, period,
    frequency, start) and its counter switched on, while a refused mapping
    leaves it as it was and one that panics is a panic; an HPET in I/O space,
    and unsound, unknown and absent tables are passed over.  A root pointer with
    a wrong signature or sum is refused with its error and nothing is changed. *)
Theorem acpi_init_correct fuel rsdp rs addrs rest tables (s : acpi)
  (Hrsdp : 0 < rsdp) (Hfit : rsdp + KERNEL_VIRTUAL_BASE + 2 ^ 28 < 2 ^ 64)
  (Hrs : bytes_at (mem s) (rsdp + KERNEL_VIRTUAL_BASE) rs) (Hlen : (20 ≤ length rs)%nat) (Hext : 2 ≤ rsdp_revision rs → (36 ≤ length rs)%nat)
  (Hroot : 0 < rsdp_root rs) (Hrfit : rsdp_root rs + KERNEL_VIRTUAL_BASE + 2 ^ 28 < 2 ^ 64)
  (Hsdt : table_at (mem s) (rsdp_root rs + KERNEL_VIRTUAL_BASE) (@SDT_SIGNATURE (rsdp_sdt rs))
     (encode_addresses (@SDT_ENTRY_SIZE (rsdp_sdt rs)) addrs ++ rest))
  (Haddrs : Forall (λ a, 0 ≤ a < 2 ^ (8 * Z.of_nat (@SDT_ENTRY_SIZE (rsdp_sdt rs)))) addrs)
  (Hrest : (length rest < @SDT_ENTRY_SIZE (rsdp_sdt rs))%nat)
  (Htables : Forall2 (describes (mem s)) addrs tables) (Hfuel : Forall (λ t, rounds t < fuel)%nat tables)
  (Hdev : ∀ b, b ∈ hpet_bases tables → hpet_placed b (hs_hpet (ac_hpet s))) :
  acpi_init fuel rsdp s = (
    if bool_decide (take 8 rs = sig_RSDP) then
      if zsum (take 20 rs) mod 256 =? 0 then (λ s', (Ok tt, s')) <$> effects tables s else Some (Err ChecksumFailed, s)
    else Some (Err AcpiNotSupported, s)) ∧
  acpi_init fuel 0 s = Some (Err AddressConversionFailed, s).
Proof. by apply (acpi_init_run fuel rsdp rs addrs rest tables s). Qed.

(** ** Witnesses: tables as firmware would lay them out *)
Definition make_header (sig body : list Z) : list Z :=
  let h c := sig ++ to_le 4 (36 + Z.of_nat (length body)) ++ [1; c] ++ replicate 26 0 in h ((- zsum (h 0 ++ body)) mod 256).
Definition make_table (sig body : list Z) : list Z := make_header sig body ++ body.
(** Memory that holds the given images. *)
Definition load (images : list (Z * list Z)) (a : Z) : option Z :=
  foldr (λ '(base, bs) r, if base <=? a then match bs !! Z.to_nat (a - base) with Some b => Some b | None => r end else r) None images.
Definition bytes_atb (m : Z → option Z) (a : Z) (bs : list Z) : bool :=
  forallb (λ i, bool_decide (m (a + Z.of_nat i) = bs !! i)) (seq 0 (length bs)).
Lemma bytes_atb_spec m a bs : bytes_atb m a bs = true → bytes_at m a bs.
Proof.
  intros H i b Hi. pose proof (lookup_lt_Some _ _ _ Hi). unfold bytes_atb in H. rewrite forallb_forall in H.
  assert (Hin : In i (seq 0 (length bs))) by (apply in_seq; lia). specialize (H i Hin). apply bool_decide_eq_true in H. by rewrite H.
Qed.
Definition demo_madt : list madt_entry := [LocalApic 0 0 1; LocalApic 1 1 0; OtherEntry 2 [0; 0; 2; 0; 0; 0; 0; 0]; IoApic 2 0xFEC00000 0].
Definition demo_mcfg : list mcfg_entry := [mkMcfgEntry 0xB0000000 0 0 255; mkMcfgEntry 0xC0000000 1 0 255].
Definition demo_rsdp : list Z := let h c := sig_RSDP ++ [c] ++ replicate 6 0 ++ [2] ++ to_le 4 0 in h ((- zsum (h 0)) mod 256) ++ to_le 4 36 ++ to_le 8 0x2000 ++ [0; 0; 0; 0].
Definition demo_images : list (Z * list Z) := (λ '(p, bs), (p + KERNEL_VIRTUAL_BASE, bs)) <$>
  [(0x1000, demo_rsdp); (0x2000, make_table sig_XSDT (encode_addresses 8 [0x3000; 0; 0x4000; 0x7000] ++ []));
   (0x3000, make_table sig_APIC (madt_body 0xFEE00000 1 (encode_entries demo_madt)));
   (0x4000, make_table sig_MCFG (replicate 8 0 ++ encode_mcfgs demo_mcfg));
   (0x5000, make_table sig_APIC (madt_body 0xFEE00000 1 (encode_entries demo_madt ++ [2; 0]))); (0x6000, make_table sig_MCFG []);
   (0x7000, make_table sig_HPET (hpet_body (to_le 4 0x8086A701) 0 [64; 0; 0] 0xFED00000 [0; 0; 0; 0]))].
Definition demo_acpi : acpi := mkAcpi (load demo_images) 0 demo_pci demo_hpet_sys.
(** An image of [make_table] is a sound table. *)
Lemma make_table_at m a sig body : bytes_atb m a (make_table sig body) = true → length sig = 4%nat →
  length_field (make_header sig body) = 36 + Z.of_nat (length body) → 36 + Z.of_nat (length body) ≤ MAX_ACPI_TABLE_LENGTH →
  zsum (make_table sig body) mod 256 = 0 → table_at m a sig body.
Proof.
  intros Hb Hs Hl Hm Hz. exists (make_header sig body). split; [by apply bytes_atb_spec|]. unfold make_header at 1 2.
  split; [by rewrite !length_app, length_to_le, Hs|]. split; [by rewrite take_app_le, take_ge by lia|]. by split.
Qed.
Ltac demo_table := apply make_table_at; [vm_compute; reflexivity|reflexivity|vm_compute; reflexivity|vm_compute; discriminate|vm_compute; reflexivity].

Lemma verify_checksum_correct_witness : verify_checksum (0x3000 + KERNEL_VIRTUAL_BASE) demo_acpi = Some (true, demo_acpi) ∧
  let s' := set_mem (<[0x3000 + KERNEL_VIRTUAL_BASE + 50 := Some 7]> (mem demo_acpi)) demo_acpi in
  verify_checksum (0x3000 + KERNEL_VIRTUAL_BASE) s' = Some (false, s').
Proof.
  pose (bs := make_table sig_APIC (madt_body 0xFEE00000 1 (encode_entries demo_madt))).
  destruct (verify_checksum_correct (0x3000 + KERNEL_VIRTUAL_BASE) bs demo_acpi) as [(ok & Hrun & Hok) Hflip].
  - apply bytes_atb_spec. vm_compute. reflexivity.
  - vm_compute. lia.
  - intros _. vm_compute. discriminate.
  - assert (Ht : ok = true) by (apply Hok; vm_compute; split; [split; discriminate|reflexivity]). rewrite Ht in Hrun. split; [exact Hrun|].
    apply (Hflip 50%nat 0 7); [vm_compute; reflexivity|unfold is_byte; lia|unfold is_byte; lia|lia|lia|vm_compute; reflexivity|exact Hrun].
Defined.
Lemma parse_madt_correct_witness : (∃ s', parse_madt 5 0x3000 demo_acpi = Some (Ok tt, s') ∧ get_local_apic_address s' = Some 0xFEE00000) ∧
  count enabled demo_madt = 1 ∧ count is_io_apic demo_madt = 1 ∧ ∀ fuel, parse_madt fuel 0x5000 demo_acpi = None.
Proof.
  assert (Hok : Forall entry_ok demo_madt) by (repeat constructor; cbn; unfold is_u32; lia).
  destruct (parse_madt_correct 0x3000 sig_APIC 0xFEE00000 1 demo_madt [] demo_acpi) as [H1 _]; [lia|unfold KERNEL_VIRTUAL_BASE; lia|demo_table|unfold is_u32; lia|exact Hok|].
  destruct (parse_madt_correct 0x5000 sig_APIC 0xFEE00000 1 demo_madt [2; 0] demo_acpi) as [_ H2]; [lia|unfold KERNEL_VIRTUAL_BASE; lia|demo_table|unfold is_u32; lia|exact Hok|].
  split; [|split; [reflexivity|split; [reflexivity|exact (H2 2 [] eq_refl)]]].
  eexists. split; [apply (H1 eq_refl 5%nat); cbn; lia|reflexivity].
Defined.
Lemma parse_mcfg_correct_witness : (∃ s', parse_mcfg 3 0x4000 demo_acpi = Some (Ok tt, s') ∧ MMCONFIG_BASE (ac_pci s') = 0xB0000000) ∧
  ∀ fuel, parse_mcfg fuel 0x6000 demo_acpi = None.
Proof.
  assert (Hok : Forall mcfg_entry_ok demo_mcfg) by (repeat constructor; cbn; unfold is_u64; lia).
  destruct (parse_mcfg_correct 0x4000 sig_MCFG (replicate 8 0 ++ encode_mcfgs demo_mcfg) demo_acpi) as [_ H1]; [lia|unfold KERNEL_VIRTUAL_BASE; lia|demo_table|].
  destruct (parse_mcfg_correct 0x6000 sig_MCFG [] demo_acpi) as [H2 _]; [lia|unfold KERNEL_VIRTUAL_BASE; lia|demo_table|].
  destruct (H1 (replicate 8 0) demo_mcfg []) as [H3 _]; [by rewrite app_nil_r|reflexivity|exact Hok|].
  split; [|apply H2; cbn; lia]. eexists. split; [apply (H3 eq_refl 3%nat); cbn; lia|reflexivity].
Defined.
Lemma acpi_init_correct_witness : ∃ s', acpi_init 5 0x1000 demo_acpi = Some (Ok tt, s') ∧
  get_local_apic_address s' = Some 0xFEE00000 ∧ MMCONFIG_BASE (ac_pci s') = 0xB0000000 ∧ HPET_AVAILABLE (hs_hpet (ac_hpet s')) = true ∧ HPET_PERIOD_FS (hs_hpet (ac_hpet s')) = 10000000.
Proof.
  assert (Hok : Forall entry_ok demo_madt) by (repeat constructor; cbn; unfold is_u32; lia).
  assert (Hok' : Forall mcfg_entry_ok demo_mcfg) by (repeat constructor; cbn; unfold is_u64; lia).
  destruct (acpi_init_correct 5 0x1000 demo_rsdp [0x3000; 0; 0x4000; 0x7000] []
    [MadtTable 0xFEE00000 1 demo_madt; AbsentTable; McfgTable (replicate 8 0) demo_mcfg; HpetTable (to_le 4 0x8086A701) 0 [64; 0; 0] 0xFED00000 [0; 0; 0; 0]] demo_acpi) as [Hrun _].
  - lia.
  - unfold KERNEL_VIRTUAL_BASE. lia.
  - apply bytes_atb_spec. vm_compute. reflexivity.
  - vm_compute. lia.
  - vm_compute. lia.
  - vm_compute. reflexivity.
  - vm_compute. reflexivity.
  - demo_table.
  - repeat constructor; vm_compute; discriminate.
  - vm_compute. lia.
  - constructor; [|constructor; [|constructor; [|constructor; [|constructor]]]].
    + split; [discriminate|]. split; [unfold KERNEL_VIRTUAL_BASE; lia|]. split; [demo_table|]. split; [unfold is_u32; lia|exact Hok].
    + split; [reflexivity|]. split; [intros H; by destruct H|exact I].
    + split; [discriminate|]. split; [unfold KERNEL_VIRTUAL_BASE; lia|]. split; [demo_table|]. split; [reflexivity|exact Hok'].
    + split; [discriminate|]. split; [unfold KERNEL_VIRTUAL_BASE; lia|]. split; [demo_table|]. split; [reflexivity|]. split; [reflexivity|]. unfold is_u64. lia.
  - repeat constructor; vm_compute; lia.
  - intros b [->|[]%elem_of_nil]%elem_of_cons. split; [reflexivity|]. split; [unfold KERNEL_VIRTUAL_BASE; lia|cbn; lia].
  - rewrite bool_decide_true in Hrun by reflexivity. change (zsum (take 20 demo_rsdp) mod 256 =? 0) with true in Hrun. cbv iota in Hrun.
    pose proof demo_map_mmio as Hm. cbn [effects effect mbind option_bind set_lapic mcfg_effects set_pci ac_hpet demo_acpi mem LOCAL_APIC_ADDRESS ac_pci Z.eqb] in Hrun. unfold hpet_effect in Hrun.
    destruct (map_mmio 0xFED00000 PAGE_SIZE (hs_paging demo_hpet_sys)) as [[r p']|]; [|discriminate Hm]. injection Hm as ->.
    eexists. split; [exact Hrun|]. split_and!; reflexivity.
Defined.
