(* ===== verification/Boot.v ===== *)
(** * The boot loader ([bootloader/src/main.rs], [common/src/elf.rs]).

    Physical memory is bytes, identity mapped by the firmware; the kernel file is
    read into [FILE_BUFFER], a part of it, and its segments are written to the
    physical addresses they name, so a segment may overwrite what is read later.
    The loader's own page tables and its [BOOT_INFO] are kept beside that memory.
    The firmware's answers are the fields of [firmware]; console output is left
    out.  [None] is a panic, or an access outside a buffer, or a reference that is
    not aligned. *)
From S2P Require Import Prelude BootInfo.
Set Default Goal Selector "!".

Definition PAGE_PRESENT : Z := Z.shiftl 1 0.
Definition PAGE_WRITABLE : Z := Z.shiftl 1 1.
Definition PAGE_HUGE : Z := Z.shiftl 1 7.
Definition KERNEL_VMA : Z := 0xFFFF800000000000.
Definition EFI_SUCCESS : Z := 0.

(** Addresses of the loader's static and stack variables. *)
Record loader_image := mkLoaderImage {
  pml4_at : Z; pdp_low_at : Z; pdp_high_at : Z; pd_low_at : Z; pd_high_at : Z;
  file_buffer_at : Z; boot_info_at : Z; map_buffer_at : Z }.

(** ** Initial page tables *)
Record boot_tables := mkTables {
  BOOT_PML4 : list Z; BOOT_PDP_LOW : list Z; BOOT_PDP_HIGH : list Z;
  BOOT_PD_LOW : list (list Z); BOOT_PD_HIGH : list (list Z) }.
Definition PageTable_new : list Z := replicate 512 0.
Definition boot_tables_new : boot_tables :=
  mkTables PageTable_new PageTable_new PageTable_new (replicate 8 PageTable_new) (replicate 8 PageTable_new).
(** [table.entries[i] = e] and [tables[i].entries[j] = e], with the bounds checks. *)
Definition set_entry (i e : Z) (t : list Z) : option (list Z) := if (0 <=? i) && (i <? 512) then Some (<[Z.to_nat i := e]> t) else None.
Definition set_entry_of (i j e : Z) (ts : list (list Z)) : option (list (list Z)) :=
  t ← ts !! Z.to_nat i; t ← set_entry j e t; Some (<[Z.to_nat i := t]> ts).
Definition update {S T} (get : S → T) (set : T → S → S) (f : T → option T) : M S unit :=
  s ← gets get; t ← lift (f s); modify (set t).
Definition on_pml4 := update BOOT_PML4 (λ t s, mkTables t (BOOT_PDP_LOW s) (BOOT_PDP_HIGH s) (BOOT_PD_LOW s) (BOOT_PD_HIGH s)).
Definition on_pdp_low := update BOOT_PDP_LOW (λ t s, mkTables (BOOT_PML4 s) t (BOOT_PDP_HIGH s) (BOOT_PD_LOW s) (BOOT_PD_HIGH s)).
Definition on_pdp_high := update BOOT_PDP_HIGH (λ t s, mkTables (BOOT_PML4 s) (BOOT_PDP_LOW s) t (BOOT_PD_LOW s) (BOOT_PD_HIGH s)).
Definition on_pd_low := update BOOT_PD_LOW (λ t s, mkTables (BOOT_PML4 s) (BOOT_PDP_LOW s) (BOOT_PDP_HIGH s) t (BOOT_PD_HIGH s)).
Definition on_pd_high := update BOOT_PD_HIGH (λ t s, mkTables (BOOT_PML4 s) (BOOT_PDP_LOW s) (BOOT_PDP_HIGH s) (BOOT_PD_LOW s) t).

Definition map_2mb (max_phys_addr i j : Z) : M boot_tables unit :=
  let huge_flags := Z.lor (Z.lor PAGE_PRESENT PAGE_WRITABLE) PAGE_HUGE in
  let phys_addr := (i * 512 + j) * 2 * 1024 * 1024 in
  if phys_addr <? max_phys_addr then
    on_pd_low (set_entry_of i j (Z.lor phys_addr huge_flags)) ;;
    on_pd_high (set_entry_of i j (Z.lor phys_addr huge_flags))
  else mret tt.
Definition map_1gb (img : loader_image) (max_phys_addr i : Z) : M boot_tables unit :=
  let flags := Z.lor PAGE_PRESENT PAGE_WRITABLE in
  on_pdp_low (set_entry i (Z.lor (pd_low_at img + 4096 * i) flags)) ;;
  on_pdp_high (set_entry i (Z.lor (pd_high_at img + 4096 * i) flags)) ;;
  for_each (seqZ 0 512) (λ j, map_2mb max_phys_addr i j).
Definition setup_initial_page_tables (img : loader_image) (max_phys_addr : Z) : M boot_tables Z :=
  let flags := Z.lor PAGE_PRESENT PAGE_WRITABLE in
  sum ← lift (cadd 64 max_phys_addr (Z.shiftl 1 30));
  let required_gb := Z.min (Z.shiftr (sum - 1) 30) 8 in
  on_pml4 (set_entry 0 (Z.lor (pdp_low_at img) flags)) ;;
  on_pml4 (set_entry 256 (Z.lor (pdp_high_at img) flags)) ;;
  for_each (seqZ 0 required_gb) (λ i, map_1gb img max_phys_addr i) ;;
  mret (pml4_at img).

(** ** The memory map *)
Record EfiMemoryDescriptor := mkDescriptor { d_type : Z; physical_start : Z; virtual_start : Z; number_of_pages : Z; attribute : Z }.
(** [&*(buffer.as_ptr().add(offset) as *const EfiMemoryDescriptor)]. *)
Definition field_at (buffer : list Z) (offset : Z) (n : nat) : Z := from_le (take n (drop (Z.to_nat offset) buffer)).
Definition descriptor_at (at_ : Z) (buffer : list Z) (offset : Z) : option EfiMemoryDescriptor :=
  if (offset + 40 <=? Z.of_nat (length buffer)) && ((at_ + offset) mod 8 =? 0) then
    Some (mkDescriptor (field_at buffer offset 4) (field_at buffer (offset + 8) 8) (field_at buffer (offset + 16) 8)
            (field_at buffer (offset + 24) 8) (field_at buffer (offset + 32) 8))
  else None.
Fixpoint analyze_loop (at_ : Z) (buffer : list Z) (descriptor_size : Z) (ixs : list Z) (max_phys_addr : Z) : option Z :=
  match ixs with
  | [] => Some max_phys_addr
  | i :: ixs =>
      offset ← cmul 64 i descriptor_size;
      desc ← descriptor_at at_ buffer offset;
      size ← cmul 64 (number_of_pages desc) 4096;
      region_end ← cadd 64 (physical_start desc) size;
      analyze_loop at_ buffer descriptor_size ixs (if max_phys_addr <? region_end then region_end else max_phys_addr)
  end.
Definition analyze_memory_map (at_ : Z) (buffer : list Z) (entry_count descriptor_size : Z) : option Z :=
  analyze_loop at_ buffer descriptor_size (seqZ 0 entry_count) 0.

Definition set_framebuffer (fb : FramebufferInfo) (b : BootInfo) : BootInfo := mkBootInfo fb (memory_map b) (memory_map_count b) (rsdp_address b) (max_physical_address b).
Definition set_memory_map (l : list MemoryRegion) (b : BootInfo) : BootInfo := mkBootInfo (framebuffer b) l (memory_map_count b) (rsdp_address b) (max_physical_address b).
Definition set_map_count (n : Z) (b : BootInfo) : BootInfo := mkBootInfo (framebuffer b) (memory_map b) n (rsdp_address b) (max_physical_address b).
Definition set_rsdp (a : Z) (b : BootInfo) : BootInfo := mkBootInfo (framebuffer b) (memory_map b) (memory_map_count b) a (max_physical_address b).
Definition set_max_address (a : Z) (b : BootInfo) : BootInfo := mkBootInfo (framebuffer b) (memory_map b) (memory_map_count b) (rsdp_address b) a.

Definition copy_region (at_ : Z) (buffer : list Z) (descriptor_size i : Z) : M BootInfo unit :=
  offset ← lift (cmul 64 i descriptor_size);
  desc ← lift (descriptor_at at_ buffer offset);
  size ← lift (cmul 64 (number_of_pages desc) 4096);
  modify (λ b, set_memory_map (<[Z.to_nat i := mkRegion (physical_start desc) size (d_type desc)]> (memory_map b)) b).
Definition copy_memory_map (at_ : Z) (buffer : list Z) (map_size descriptor_size : Z) : M BootInfo unit :=
  if descriptor_size =? 0 then panic else
  let entry_count := map_size / descriptor_size in
  n ← gets (λ b, Z.min entry_count (Z.of_nat (length (memory_map b))));
  for_each (seqZ 0 n) (copy_region at_ buffer descriptor_size) ;;
  modify (set_map_count n) ;;
  assert_ (map_size <=? Z.of_nat (length buffer)) ;;
  max_phys_addr ← lift (analyze_memory_map at_ (take (Z.to_nat map_size) buffer) entry_count descriptor_size);
  modify (set_max_address max_phys_addr).

(** ** The ACPI root pointer in the configuration tables *)
Definition EfiGuid : Type := Z * Z * Z * list Z.
Definition EFI_ACPI_20_TABLE_GUID : EfiGuid := (0x8868e871, 0xe4f1, 0x11d3, [0xbc; 0x22; 0x00; 0x80; 0xc7; 0x3c; 0x88; 0x81]).
Definition EFI_ACPI_TABLE_GUID : EfiGuid := (0xeb9d2d30, 0x2d88, 0x11d3, [0x9a; 0x16; 0x00; 0x90; 0x27; 0x3f; 0xc1; 0x4d]).
Record EfiConfigurationTable := mkConfigTable { vendor_guid : EfiGuid; vendor_table : Z }.
Fixpoint find_rsdp (entries : list EfiConfigurationTable) (rsdp_addr : Z) : Z :=
  match entries with
  | [] => rsdp_addr
  | entry :: entries =>
      if bool_decide (vendor_guid entry = EFI_ACPI_20_TABLE_GUID) then vendor_table entry
      else if bool_decide (vendor_guid entry = EFI_ACPI_TABLE_GUID) then find_rsdp entries (vendor_table entry)
      else find_rsdp entries rsdp_addr
  end.

(** ** The kernel file *)
Definition bmem : Type := Z → Z.
Definition FILE_BUFFER_SIZE : Z := 2 * 1024 * 1024.
Definition PT_LOAD : Z := 1.
Definition ELF_HEADER_SIZE : Z := 64.
Definition PROGRAM_HEADER_SIZE : Z := 56.
Definition load_le (n : nat) (a : Z) : M bmem Z := gets (λ m, from_le (m <$> seqZ a (Z.of_nat n))).
(** A reference to [size] bytes at an offset of the buffer. *)
Definition file_ref (img : loader_image) (offset size : Z) : M bmem Z :=
  assert_ ((offset + size <=? FILE_BUFFER_SIZE) && ((file_buffer_at img + offset) mod 8 =? 0)) ;; mret (file_buffer_at img + offset).
Definition is_valid (elf_header : Z) : M bmem bool :=
  magic ← load_le 4 elf_header; class ← load_le 1 (elf_header + 4);
  mret ((magic =? from_le [0x7f; 69; 76; 70]) && (class =? 2)).

Definition copy_nonoverlapping (src dst n : Z) : M bmem unit :=
  assert_ ((n =? 0) || (0 <? dst) && (dst + n <=? 2 ^ 64) && ((src + n <=? dst) || (dst + n <=? src))) ;;
  modify (λ m a, if (dst <=? a) && (a <? dst + n) then m (src + (a - dst)) else m a).
Definition write_bytes (dst n : Z) : M bmem unit :=
  assert_ ((n =? 0) || (0 <? dst) && (dst + n <=? 2 ^ 64)) ;;
  modify (λ m a, if (dst <=? a) && (a <? dst + n) then 0 else m a).

(** One program header: the offset between virtual and physical addresses found so far. *)
Definition load_segment (img : loader_image) (elf_header : Z) (i : Z) (kernel_virt_offset : option Z) : M bmem (option Z) :=
  e_phoff ← load_le 8 (elf_header + 32);
  ph_offset ← lift (cadd 64 e_phoff (i * PROGRAM_HEADER_SIZE));
  ph ← file_ref img ph_offset PROGRAM_HEADER_SIZE;
  p_type ← load_le 4 ph;
  if negb (p_type =? PT_LOAD) then mret kernel_virt_offset else
  p_vaddr ← load_le 8 (ph + 16);
  p_paddr ← load_le 8 (ph + 24);
  kernel_virt_offset ←
    (match kernel_virt_offset with
     | None => if negb (p_vaddr =? p_paddr) then d ← lift (csub p_vaddr p_paddr); mret (Some d) else mret None
     | Some d => mret (Some d)
     end);
  p_offset ← load_le 8 (ph + 8);
  p_filesz ← load_le 8 (ph + 32);
  assert_ (p_offset + p_filesz <=? FILE_BUFFER_SIZE) ;;
  copy_nonoverlapping (file_buffer_at img + p_offset) p_paddr p_filesz ;;
  p_memsz ← load_le 8 (ph + 40);
  p_filesz ← load_le 8 (ph + 32);
  (if p_filesz <? p_memsz then write_bytes (p_paddr + p_filesz) (p_memsz - p_filesz) else mret tt) ;;
  mret kernel_virt_offset.
Fixpoint load_segments (img : loader_image) (elf_header : Z) (ixs : list Z) (kernel_virt_offset : option Z) : M bmem (option Z) :=
  match ixs with
  | [] => mret kernel_virt_offset
  | i :: ixs => o ← load_segment img elf_header i kernel_virt_offset; load_segments img elf_header ixs o
  end.
Definition load_elf (img : loader_image) : M bmem Z :=
  elf_header ← file_ref img 0 ELF_HEADER_SIZE;
  valid ← is_valid elf_header;
  if negb valid then mret 0 else
  e_phnum ← load_le 2 (elf_header + 56);
  kernel_virt_offset ← load_segments img elf_header (seqZ 0 e_phnum) None;
  e_entry ← load_le 8 (elf_header + 24);
  match kernel_virt_offset with Some offset => lift (csub e_entry offset) | None => mret e_entry end.

(** ** The firmware's answers *)
(** A call of [GetMemoryMap]; [ma_buffer] is the whole buffer after it. *)
Record map_answer := mkMapAnswer { ma_status : Z; ma_size : Z; ma_key : Z; ma_descriptor_size : Z; ma_buffer : list Z }.
Record firmware := mkFirmware {
  gop_status : Z; gop_mode : Z * Z * Z * Z;
  map_first : map_answer; map_query_again : map_answer; map_again : map_answer;
  configuration_table : list EfiConfigurationTable;
  sfs_status : Z; volume_status : Z; open_status : Z; read_status : Z; kernel_file : list Z;
  exit_boot_services : Z → Z }.
Record boot := mkBoot { b_tables : boot_tables; b_mem : bmem; b_info : BootInfo; b_cr3 : Z }.
Definition on_tables {A} (m : M boot_tables A) : M boot A := zoom b_tables (λ t s, mkBoot t (b_mem s) (b_info s) (b_cr3 s)) m.
Definition on_bmem {A} (m : M bmem A) : M boot A := zoom b_mem (λ m s, mkBoot (b_tables s) m (b_info s) (b_cr3 s)) m.
Definition on_info {A} (m : M BootInfo A) : M boot A := zoom b_info (λ i s, mkBoot (b_tables s) (b_mem s) i (b_cr3 s)) m.
Definition load_page_tables (pml4_addr : Z) : M boot unit := modify (λ s, mkBoot (b_tables s) (b_mem s) (b_info s) pml4_addr).

(** [read] fills at most the buffer. *)
Definition fill_buffer (img : loader_image) (file : list Z) (m : bmem) : bmem := λ a,
  match take (Z.to_nat FILE_BUFFER_SIZE) file !! Z.to_nat (a - file_buffer_at img) with
  | Some b => if file_buffer_at img <=? a then b else m a
  | None => m a
  end.
Definition read_file (img : loader_image) (file : list Z) : M bmem unit := modify (fill_buffer img file).
Definition load_kernel_elf (img : loader_image) (fw : firmware) : M boot Z :=
  if negb (sfs_status fw =? EFI_SUCCESS) then mret 0 else
  if negb (volume_status fw =? EFI_SUCCESS) then mret 0 else
  if negb (open_status fw =? EFI_SUCCESS) then mret 0 else
  on_bmem (read_file img (kernel_file fw)) ;;
  if negb (read_status fw =? EFI_SUCCESS) then mret 0 else
  on_bmem (load_elf img).

(** ** The entry point: it halts, or jumps to the kernel with one argument. *)
Inductive halt_reason := NoGop | NoKernel | MapTooLarge | NoMap | ExitFailed.
Inductive boot_end := Halted (r : halt_reason) | Jump (entry argument : Z).
Definition MAP_BUFFER_SIZE : Z := 4096 * 4.
Definition efi_main (img : loader_image) (fw : firmware) : M boot boot_end :=
  if negb (gop_status fw =? EFI_SUCCESS) then mret (Halted NoGop) else
  let '(fb_base, fb_size, width, height) := gop_mode fw in
  on_info (modify (set_framebuffer (mkFb fb_base fb_size width height width))) ;;
  on_info (modify (set_rsdp (find_rsdp (configuration_table fw) 0))) ;;
  (if ma_status (map_first fw) =? EFI_SUCCESS
   then on_info (copy_memory_map (map_buffer_at img) (ma_buffer (map_first fw)) (ma_size (map_first fw)) (ma_descriptor_size (map_first fw)))
   else mret tt) ;;
  kernel_entry ← load_kernel_elf img fw;
  if kernel_entry =? 0 then mret (Halted NoKernel) else
  map_size ← lift (cadd 64 (ma_size (map_query_again fw)) (ma_descriptor_size (map_query_again fw)));
  if MAP_BUFFER_SIZE <? map_size then mret (Halted MapTooLarge) else
  if negb (ma_status (map_again fw) =? EFI_SUCCESS) then mret (Halted NoMap) else
  if negb (exit_boot_services fw (ma_key (map_again fw)) =? EFI_SUCCESS) then mret (Halted ExitFailed) else
  max_phys_addr ← gets (λ s, max_physical_address (b_info s));
  pml4_addr ← on_tables (setup_initial_page_tables img max_phys_addr);
  load_page_tables pml4_addr ;;
  kernel_high_addr ← lift (cadd 64 kernel_entry KERNEL_VMA);
  mret (Jump kernel_high_addr (boot_info_at img)).
