(* ===== verification/BootTables.v ===== *)
(** * The boot loader's page tables: what they hold and what the processor makes
    of them. *)
From S2P Require Import Prelude Addr BootInfo X86 Paging PagingSpec PagingWalk Boot.
Set Default Goal Selector "!".

(** ** Tables as functions of the index *)
Definition table_of (f : Z → Z) : list Z := f <$> seqZ 0 512.
Definition array_of (f : Z → Z → Z) : list (list Z) := (λ i, table_of (f i)) <$> seqZ 0 8.
Definition at_index {A} (i : Z) (v : A) (f : Z → A) (j : Z) : A := if j =? i then v else f j.

Lemma fmap_seqZ_lookup {A} (f : Z → A) n i : 0 ≤ i < n → (f <$> seqZ 0 n) !! Z.to_nat i = Some (f i).
Proof. intros Hi. rewrite list_lookup_fmap, lookup_seqZ_lt by lia. simpl. f_equal. f_equal. lia. Qed.
Lemma fmap_seqZ_ext {A} (f g : Z → A) n : (∀ i, 0 ≤ i < n → f i = g i) → f <$> seqZ 0 n = g <$> seqZ 0 n.
Proof. intros H. apply list_fmap_ext. intros k x Hx. apply lookup_seqZ in Hx. apply H. lia. Qed.
Lemma fmap_seqZ_insert {A} (f : Z → A) n i v : 0 ≤ i < n → <[Z.to_nat i := v]> (f <$> seqZ 0 n) = at_index i v f <$> seqZ 0 n.
Proof.
  intros Hi. apply list_eq_same_length with (n := length (seqZ 0 n)); [by rewrite ?length_insert, length_fmap|by rewrite ?length_insert, length_fmap|].
  rewrite length_seqZ. intros k x y Hk. rewrite (list_lookup_fmap _ _ k), lookup_seqZ_lt by lia. simpl. intros Hx [= <-]. revert Hx. unfold at_index.
  destruct (decide (k = Z.to_nat i)) as [->|Hne].
  - rewrite list_lookup_insert_eq by (rewrite length_fmap, length_seqZ; lia). intros [= <-]. rewrite (proj2 (Z.eqb_eq _ _)) by lia. done.
  - rewrite list_lookup_insert_ne by done. rewrite list_lookup_fmap, lookup_seqZ_lt by lia. simpl. intros [= <-].
    rewrite (proj2 (Z.eqb_neq _ _)) by lia. done.
Qed.
Lemma table_new_of : PageTable_new = table_of (λ _, 0).
Proof. reflexivity. Qed.
Lemma table_lookup f i : 0 ≤ i < 512 → table_of f !! Z.to_nat i = Some (f i).
Proof. apply fmap_seqZ_lookup. Qed.
Lemma array_lookup f i : 0 ≤ i < 8 → array_of f !! Z.to_nat i = Some (table_of (f i)).
Proof. apply (fmap_seqZ_lookup (λ i, table_of (f i))). Qed.
Lemma set_entry_of_table i e f : 0 ≤ i < 512 → set_entry i e (table_of f) = Some (table_of (at_index i e f)).
Proof.
  intros Hi. unfold set_entry. rewrite (proj2 (Z.leb_le _ _)), (proj2 (Z.ltb_lt _ _)) by lia. cbn [andb]. f_equal. by apply fmap_seqZ_insert.
Qed.
Lemma set_entry_of_array i j e f : 0 ≤ i < 8 → 0 ≤ j < 512 → set_entry_of i j e (array_of f) = Some (array_of (at_index i (at_index j e (f i)) f)).
Proof.
  intros Hi Hj. unfold set_entry_of. rewrite array_lookup by done. cbn [mbind option_bind]. rewrite set_entry_of_table by done.
  cbn [mbind option_bind]. f_equal. unfold array_of. rewrite (fmap_seqZ_insert (λ i, table_of (f i)) 8) by done.
  apply fmap_seqZ_ext. intros k Hk. unfold at_index. by destruct (k =? i).
Qed.

(** ** What [setup_initial_page_tables] builds *)
Definition links (base gb i : Z) : Z := if i <? gb then Z.lor (base + 4096 * i) 3 else 0.
(** After [k] whole GiB and [jj] entries of the next one. *)
Definition pages (max k jj i j : Z) : Z :=
  if ((i <? k) || (i =? k) && (j <? jj)) && ((i * 512 + j) * 2 ^ 21 <? max) then Z.lor ((i * 512 + j) * 2 ^ 21) 0x83 else 0.
Definition built (img : loader_image) (max k k' jj : Z) : boot_tables :=
  mkTables (table_of (at_index 256 (Z.lor (pdp_high_at img) 3) (at_index 0 (Z.lor (pdp_low_at img) 3) (λ _, 0))))
    (table_of (links (pd_low_at img) k')) (table_of (links (pd_high_at img) k')) (array_of (pages max k jj)) (array_of (pages max k jj)).
Definition required_gb (max : Z) : Z := Z.min ((max + 2 ^ 30 - 1) / 2 ^ 30) 8.

Section setup.
Context (img : loader_image) (max : Z).
Implicit Types s : boot_tables.

Lemma wp_update {S T} (get : S → T) set f t Q (s : S) : f (get s) = Some t → Q tt (set t s) → wp (update get set f) Q s.
Proof. intros Hf HQ. unfold update. wp_step. wp_step. wp_step. wp_step; [exact Hf|]. by wp_step. Qed.

Lemma array_ext f g : (∀ i j, 0 ≤ i < 8 → 0 ≤ j < 512 → f i j = g i j) → array_of f = array_of g.
Proof. intros H. apply fmap_seqZ_ext. intros i Hi. apply fmap_seqZ_ext. intros j Hj. by apply H. Qed.

Lemma map_2mb_spec k j Q : 0 ≤ k < 8 → 0 ≤ j < 512 → Q tt (built img max k (k + 1) (j + 1)) → wp (map_2mb max k j) Q (built img max k (k + 1) j).
Proof.
  intros Hk Hj HQ. unfold map_2mb. replace ((k * 512 + j) * 2 * 1024 * 1024) with ((k * 512 + j) * 2 ^ 21) by lia.
  assert (Hnext : ∀ i' j', 0 ≤ i' < 8 → 0 ≤ j' < 512 → (k * 512 + j) * 2 ^ 21 <? max = false ∨ i' ≠ k ∨ j' ≠ j →
    pages max k (j + 1) i' j' = pages max k j i' j').
  { intros i' j' Hi' Hj' Hor. unfold pages. destruct (Z.ltb_spec i' k); [done|]. cbn [orb]. destruct (Z.eqb_spec i' k) as [->|]; [|done]. cbn [andb].
    destruct (Z.ltb_spec j' (j + 1)), (Z.ltb_spec j' j); try done; try lia. assert (j' = j) as -> by lia. cbn [andb]. destruct Hor as [->|[?|?]]; done. }
  destruct ((k * 512 + j) * 2 ^ 21 <? max) eqn:Hin.
  - assert (Hset : ∀ n, array_of (at_index k (at_index j (Z.lor ((k * 512 + j) * 2 ^ 21) n) (pages max k j k)) (pages max k j)) =
      array_of (λ i' j', if (i' =? k) && (j' =? j) then Z.lor ((k * 512 + j) * 2 ^ 21) n else pages max k j i' j')).
    { intros n. apply array_ext. intros i' j' Hi' Hj'. unfold at_index. destruct (Z.eqb_spec i' k) as [->|]; [|done]. by destruct (j' =? j). }
    assert (Hbuilt : array_of (λ i' j', if (i' =? k) && (j' =? j) then Z.lor ((k * 512 + j) * 2 ^ 21) 0x83 else pages max k j i' j') = array_of (pages max k (j + 1))).
    { apply array_ext. intros i' j' Hi' Hj'. destruct (Z.eqb_spec i' k) as [->|]; [destruct (Z.eqb_spec j' j) as [->|]|]; cbn [andb].
      - unfold pages. rewrite Z.ltb_irrefl, Z.eqb_refl, (proj2 (Z.ltb_lt _ (j + 1))), Hin by lia. done.
      - symmetry. apply Hnext; auto.
      - symmetry. apply Hnext; auto. }
    wp_step. eapply wp_update; [apply set_entry_of_array; lia|]. rewrite Hset. change (Z.lor (Z.lor PAGE_PRESENT PAGE_WRITABLE) PAGE_HUGE) with 0x83. rewrite Hbuilt.
    eapply wp_update; [apply set_entry_of_array; lia|]. rewrite Hset, Hbuilt. exact HQ.
  - wp_step. unfold built in *. rewrite (array_ext (pages max k j) (pages max k (j + 1))); [exact HQ|].
    intros i' j' Hi' Hj'. symmetry. apply Hnext; auto.
Qed.

Lemma map_1gb_spec k Q : 0 ≤ k < 8 → Q tt (built img max (k + 1) (k + 1) 0) → wp (map_1gb img max k) Q (built img max k k 0).
Proof.
  intros Hk HQ. unfold map_1gb. change (Z.lor PAGE_PRESENT PAGE_WRITABLE) with 3.
  assert (Hlink : ∀ base, table_of (at_index k (Z.lor (base + 4096 * k) 3) (links base k)) = table_of (links base (k + 1))).
  { intros base. apply fmap_seqZ_ext. intros i Hi. unfold at_index, links.
    destruct (Z.eqb_spec i k) as [->|]; [by rewrite (proj2 (Z.ltb_lt _ _)) by lia|]. destruct (Z.ltb_spec i k), (Z.ltb_spec i (k + 1)); done || lia. }
  wp_step. eapply wp_update; [apply set_entry_of_table; lia|]. rewrite Hlink.
  wp_step. eapply wp_update; [apply set_entry_of_table; lia|]. rewrite Hlink.
  eapply wp_mono; [apply (wp_for_range 512 _ (λ j s, s = built img max k (k + 1) j)); [lia|done|]|].
  - intros j s Hj ->. by apply map_2mb_spec.
  - intros [] s ->. replace (built img max k (k + 1) 512) with (built img max (k + 1) (k + 1) 0); [done|]. unfold built.
    rewrite (array_ext (pages max (k + 1) 0) (pages max k 512)); [done|]. intros i j Hi Hj. unfold pages.
    destruct (Z.ltb_spec i (k + 1)), (Z.ltb_spec i k), (Z.eqb_spec i (k + 1)), (Z.eqb_spec i k), (Z.ltb_spec j 0), (Z.ltb_spec j 512); done || lia.
Qed.

Lemma setup_spec Q : 0 ≤ max → max + 2 ^ 30 < 2 ^ 64 → Q (pml4_at img) (built img max (required_gb max) (required_gb max) 0) →
  wp (setup_initial_page_tables img max) Q boot_tables_new.
Proof.
  intros Hm Hfit HQ. unfold setup_initial_page_tables. wp_step. wp_step; [apply cadd_some; exact Hfit|].
  replace (Z.min (Z.shiftr (max + Z.shiftl 1 30 - 1) 30) 8) with (required_gb max) by (unfold required_gb; rewrite Z.shiftr_div_pow2 by lia; done).
  assert (Hg : 0 ≤ required_gb max ≤ 8) by (unfold required_gb; dlia).
  unfold boot_tables_new. rewrite table_new_of. change (replicate 8 (table_of (λ _, 0))) with (array_of (λ _ _, 0)).
  wp_step. eapply wp_update; [apply set_entry_of_table; lia|]. wp_step. eapply wp_update; [apply set_entry_of_table; lia|].
  change (Z.lor PAGE_PRESENT PAGE_WRITABLE) with 3. wp_step.
  eapply wp_mono; [apply (wp_for_range (required_gb max) _ (λ k s, s = built img max k k 0)); [lia| |]|].
  - assert (Hl : ∀ base, table_of (links base 0) = table_of (λ _, 0)).
    { intros base. apply fmap_seqZ_ext. intros i Hi. unfold links. by rewrite (proj2 (Z.ltb_ge _ _)) by lia. }
    assert (Hp : array_of (pages max 0 0) = array_of (λ _ _, 0)).
    { apply array_ext. intros i j Hi Hj. unfold pages. rewrite (proj2 (Z.ltb_ge i 0)), (proj2 (Z.ltb_ge j 0)) by lia. by rewrite andb_false_r. }
    unfold built. by rewrite !Hl, Hp.
  - intros k s Hk ->. apply map_1gb_spec; [lia|done].
  - intros [] s ->. by wp_step.
Qed.
End setup.

(** ** The processor's view *)
(** The tables as memory. *)
Definition loader_table (img : loader_image) (s : boot_tables) (a : Z) : option (list Z) :=
  if a =? pml4_at img then Some (BOOT_PML4 s) else
  if a =? pdp_low_at img then Some (BOOT_PDP_LOW s) else
  if a =? pdp_high_at img then Some (BOOT_PDP_HIGH s) else
  if (pd_low_at img <=? a) && (a <? pd_low_at img + 8 * 4096) then BOOT_PD_LOW s !! Z.to_nat ((a - pd_low_at img) / 4096) else
  if (pd_high_at img <=? a) && (a <? pd_high_at img + 8 * 4096) then BOOT_PD_HIGH s !! Z.to_nat ((a - pd_high_at img) / 4096) else None.
(** Page-aligned static tables that do not overlap. *)
Record loader_ok (img : loader_image) : Prop := {
  lo_page : ∀ a, a ∈ [pml4_at img; pdp_low_at img; pdp_high_at img; pd_low_at img; pd_high_at img] → (4096 | a) ∧ 0 ≤ a ∧ a + 8 * 4096 ≤ 2 ^ 52;
  lo_tables : NoDup [pml4_at img; pdp_low_at img; pdp_high_at img];
  lo_arrays : pd_low_at img + 8 * 4096 ≤ pd_high_at img ∨ pd_high_at img + 8 * 4096 ≤ pd_low_at img;
  lo_disjoint : ∀ a b, a ∈ [pml4_at img; pdp_low_at img; pdp_high_at img] → b ∈ [pd_low_at img; pd_high_at img] → a < b ∨ b + 8 * 4096 ≤ a;
}.
(** Both halves show physical memory below the limits, writable and executable. *)
Definition boot_view (max v : Z) : option mapping :=
  let p := if KERNEL_VMA <=? v then v - KERNEL_VMA else v in
  if (p <? 2 ^ 33) && (p / 2 ^ 21 * 2 ^ 21 <? max) then Some (mkMapping p true false false) else None.

Lemma entry_facts a f : (4096 | a) → 0 ≤ a < 2 ^ 52 → f = 3 ∨ f = 0x83 →
  frame_of (Z.lor a f) = a ∧ e_present (Z.lor a f) = true ∧ e_writable (Z.lor a f) = true ∧ e_nx (Z.lor a f) = false ∧
  e_uncached (Z.lor a f) = false ∧ e_large (Z.lor a f) = (f =? 0x83).
Proof.
  intros Hd Ha Hf. rewrite <-(pte_set_page 0 a f Hd Ha). unfold e_present, e_writable, e_nx, e_uncached, e_large.
  rewrite frame_set by (destruct Hf as [->| ->]; reflexivity). rewrite mask_page, !bit_set by (done || lia).
  destruct Hf as [->| ->]; done.
Qed.

Section view.
Context (img : loader_image) (Himg : loader_ok img) (max : Z) (Hmax : 0 ≤ max).
Notation g := (required_gb max).
Notation s := (built img max g g 0).
Notation mem := (loader_table img s).

Lemma zero_entry : e_present 0 = false.
Proof. done. Qed.
Lemma table_pages a : a ∈ [pml4_at img; pdp_low_at img; pdp_high_at img; pd_low_at img; pd_high_at img] → (4096 | a) ∧ 0 ≤ a < 2 ^ 52.
Proof. intros H. destruct (lo_page _ Himg a H) as (Hd & ? & ?). split; [exact Hd|lia]. Qed.
Ltac in_list := rewrite !elem_of_cons; tauto.

Lemma next_root i : 0 ≤ i < 512 → next_entry mem (pml4_at img) i =
  Some (if i =? 256 then Z.lor (pdp_high_at img) 3 else if i =? 0 then Z.lor (pdp_low_at img) 3 else 0).
Proof.
  intros Hi. destruct (table_pages (pml4_at img)) as [Hd Ha]; [in_list|]. unfold next_entry. change (frame_of (pml4_at img)) with (Z.land (pml4_at img) PHYSICAL_ADDRESS_MASK).
  rewrite mask_page by done. unfold loader_table. rewrite Z.eqb_refl. cbn [mbind option_bind]. unfold built. cbn [BOOT_PML4 BOOT_PDP_LOW BOOT_PDP_HIGH]. by rewrite table_lookup.
Qed.
(** The directory of a half, and where its page directories are. *)
Inductive half : Z → Z → Prop := Low : half (pdp_low_at img) (pd_low_at img) | High : half (pdp_high_at img) (pd_high_at img).
Lemma half_pages pdp pd : half pdp pd → ((4096 | pdp) ∧ 0 ≤ pdp < 2 ^ 52) ∧ (4096 | pd) ∧ 0 ≤ pd ∧ pd + 8 * 4096 ≤ 2 ^ 52.
Proof. intros []; (split; [apply table_pages; in_list|apply (lo_page _ Himg); in_list]). Qed.
Lemma boot_pdp_entry pdp pd i : half pdp pd → 0 ≤ i < 512 → next_entry mem (Z.lor pdp 3) i = Some (links pd g i).
Proof.
  intros Hh Hi. destruct (half_pages _ _ Hh) as [[Hd Ha] _]. unfold next_entry. destruct (entry_facts pdp 3 Hd Ha (or_introl eq_refl)) as (-> & _).
  pose proof (lo_tables _ Himg) as Hnd. unfold loader_table.
  assert (H1 : pdp_low_at img ≠ pml4_at img ∧ pdp_high_at img ≠ pml4_at img ∧ pdp_high_at img ≠ pdp_low_at img).
  { rewrite !list.NoDup_cons, !elem_of_cons in Hnd. destruct Hnd as (A & B & _). repeat split; intros E; rewrite E in *; tauto. }
  destruct H1 as (N1 & N2 & N3). destruct Hh.
  - rewrite (proj2 (Z.eqb_neq _ _) N1), Z.eqb_refl. cbn [mbind option_bind]. unfold built. cbn [BOOT_PML4 BOOT_PDP_LOW BOOT_PDP_HIGH]. by rewrite table_lookup.
  - rewrite (proj2 (Z.eqb_neq _ _) N2), (proj2 (Z.eqb_neq _ _) N3), Z.eqb_refl. cbn [mbind option_bind]. unfold built. cbn [BOOT_PML4 BOOT_PDP_LOW BOOT_PDP_HIGH]. by rewrite table_lookup.
Qed.
Lemma boot_pd_entry pdp pd i j : half pdp pd → 0 ≤ i < 8 → 0 ≤ j < 512 → next_entry mem (Z.lor (pd + 4096 * i) 3) j = Some (pages max g 0 i j).
Proof.
  intros Hh Hi Hj. destruct (half_pages _ _ Hh) as [_ (Hd & Ha & Hb)]. unfold next_entry.
  assert (Hd' : (4096 | pd + 4096 * i)) by (apply Z.divide_add_r; [done|apply Z.divide_factor_l]).
  destruct (entry_facts (pd + 4096 * i) 3 Hd' ltac:(lia) (or_introl eq_refl)) as (-> & _).
  assert (Hpd : pd ∈ [pd_low_at img; pd_high_at img]) by (destruct Hh; rewrite !elem_of_cons; tauto).
  assert (Hne : ∀ a, a ∈ [pml4_at img; pdp_low_at img; pdp_high_at img] → pd + 4096 * i =? a = false).
  { intros a Hin. apply Z.eqb_neq. destruct (lo_disjoint _ Himg a pd Hin Hpd); lia. }
  unfold loader_table. rewrite !Hne by (rewrite !elem_of_cons; tauto).
  assert (Hidx : (pd + 4096 * i - pd) / 4096 = i) by (symmetry; apply Z.div_unique_exact; lia).
  pose proof (lo_arrays _ Himg) as Harr. destruct Hh.
  - rewrite (proj2 (Z.leb_le _ _)), (proj2 (Z.ltb_lt _ _)) by lia. cbn [andb]. rewrite Hidx. unfold built at 1. cbn [BOOT_PD_LOW].
    rewrite array_lookup by done. cbn [mbind option_bind]. by rewrite table_lookup.
  - assert (Hout : (pd_low_at img <=? pd_high_at img + 4096 * i) && (pd_high_at img + 4096 * i <? pd_low_at img + 8 * 4096) = false).
    { destruct (Z.leb_spec (pd_low_at img) (pd_high_at img + 4096 * i)), (Z.ltb_spec (pd_high_at img + 4096 * i) (pd_low_at img + 8 * 4096)); done || lia. }
    rewrite Hout, (proj2 (Z.leb_le _ _)), (proj2 (Z.ltb_lt _ _)) by lia. cbn [andb]. rewrite Hidx. unfold built at 1. cbn [BOOT_PD_HIGH].
    rewrite array_lookup by done. cbn [mbind option_bind]. by rewrite table_lookup.
Qed.

(** The walk of a half, from the directory on. *)
Lemma walk_half v p pdp pd : half pdp pd → canonical v = true → 0 ≤ p < 2 ^ 39 →
  next_entry mem (pml4_at img) ((v / 2 ^ 39) mod 512) = Some (Z.lor pdp 3) → (v / 2 ^ 30) mod 512 = p / 2 ^ 30 →
  (v / 2 ^ 21) mod 512 = (p / 2 ^ 21) mod 512 → v mod 2 ^ 21 = p mod 2 ^ 21 →
  walk mem (pml4_at img) v = (if (p <? 2 ^ 33) && (p / 2 ^ 21 * 2 ^ 21 <? max) then Some (mkMapping p true false false) else None).
Proof.
  intros Hh Hc Hp H4 H3 H2 Ho. destruct (half_pages _ _ Hh) as [[Hd Ha] (Hdp & Hap & Hbp)].
  unfold walk. rewrite Hc, H4, H3, H2. cbn [negb mbind option_bind].
  destruct (entry_facts pdp 3 Hd Ha (or_introl eq_refl)) as (_ & -> & -> & -> & _). cbn [negb].
  set (i := p / 2 ^ 30). set (j := (p / 2 ^ 21) mod 512). assert (Hi : 0 ≤ i < 512) by (unfold i; dlia). assert (Hj : 0 ≤ j < 512) by (unfold j; dlia).
  assert (Hn : p / 2 ^ 21 = i * 512 + j) by (unfold i, j; dlia).
  assert (Hg : 0 ≤ g ≤ 8) by (unfold required_gb; dlia).
  assert (Hgi : p / 2 ^ 21 * 2 ^ 21 < max → p < 2 ^ 33 → i < g) by (intros; unfold i, required_gb; dlia).
  rewrite (boot_pdp_entry _ pd) by done. cbn [mbind option_bind]. unfold links. destruct (Z.ltb_spec i g) as [Hlt|Hge].
  - assert (Hdi : (4096 | pd + 4096 * i)) by (apply Z.divide_add_r; [done|apply Z.divide_factor_l]).
    destruct (entry_facts (pd + 4096 * i) 3 Hdi ltac:(lia) (or_introl eq_refl)) as (_ & -> & -> & -> & _ & ->). cbn [negb andb orb Z.eqb Pos.eqb].
    rewrite (boot_pd_entry pdp pd) by (done || lia). cbn [mbind option_bind]. unfold pages. rewrite (proj2 (Z.ltb_lt i g)) by done. cbn [orb andb].
    rewrite (proj2 (Z.ltb_lt p (2 ^ 33))) by (unfold i in *; dlia). cbn [andb]. rewrite Hn. destruct (_ <? max); [|done].
    assert (Hdn : (4096 | (i * 512 + j) * 2 ^ 21)) by (apply Z.divide_mul_r; by exists 512).
    destruct (entry_facts ((i * 512 + j) * 2 ^ 21) 0x83 Hdn ltac:(lia) (or_intror eq_refl)) as (Hfr & -> & Hw & Hnx & Hu & ->).
    cbn [negb Z.eqb Pos.eqb]. unfold leaf. rewrite Hfr, Hw, Hnx, Hu, Ho, Z.div_mul, <-Hn by lia. do 2 f_equal. dlia.
  - rewrite zero_entry. cbn [negb]. destruct (Z.ltb_spec p (2 ^ 33)), (Z.ltb_spec (p / 2 ^ 21 * 2 ^ 21) max); done || lia.
Qed.

Lemma walk_boot v : 0 ≤ v < 2 ^ 64 → walk mem (pml4_at img) v = boot_view max v.
Proof.
  intros Hv. unfold boot_view. destruct (Z.leb_spec KERNEL_VMA v) as [Hhi|Hlo].
  - set (p := v - KERNEL_VMA). assert (Hvp : v = KERNEL_VIRTUAL_BASE + p) by (unfold p, KERNEL_VMA, KERNEL_VIRTUAL_BASE; lia).
    assert (Hp : 0 ≤ p < 2 ^ 47) by (unfold p, KERNEL_VMA in *; lia). destruct (Z.ltb_spec p (2 ^ 39)) as [Hlt|Hge].
    + destruct (direct_indices p ltac:(lia)) as (I4 & I3 & I2 & _). apply (walk_half v p _ _ High).
      * rewrite Hvp. apply direct_canonical. lia.
      * lia.
      * rewrite Hvp, I4, next_root by lia. done.
      * by rewrite Hvp.
      * by rewrite Hvp.
      * rewrite Hvp. by apply direct_offset.
    + rewrite (proj2 (Z.ltb_ge p (2 ^ 33))) by lia. cbn [andb]. unfold walk. rewrite Hvp, direct_canonical by lia. cbn [negb].
      assert (Hi : ((KERNEL_VIRTUAL_BASE + p) / 2 ^ 39) mod 512 = 256 + p / 2 ^ 39) by (unfold KERNEL_VIRTUAL_BASE; dlia).
      rewrite Hi, next_root by dlia. cbn [mbind option_bind]. rewrite !(proj2 (Z.eqb_neq (256 + p / 2 ^ 39) _)) by dlia. done.
  - assert (Hr : v < 2 ^ 47 → (v / 2 ^ 39) mod 512 = v / 2 ^ 39) by (intros; apply Z.mod_small; dlia). destruct (Z.ltb_spec v (2 ^ 47)) as [Hlt|Hge].
    + assert (Hc : canonical v = true) by (unfold canonical; by rewrite (proj2 (Z.ltb_lt _ _))).
      destruct (Z.ltb_spec v (2 ^ 39)).
      * apply (walk_half v v _ _ Low); [done|lia| |apply Z.mod_small; dlia|done|done]. rewrite (Z.div_small v (2 ^ 39)) by lia. change (0 mod 512) with 0. by rewrite next_root by lia.
      * unfold walk. rewrite Hc. cbn [negb]. rewrite next_root by dlia. cbn [mbind option_bind].
        rewrite !(proj2 (Z.eqb_neq ((v / 2 ^ 39) mod 512) _)) by dlia. rewrite zero_entry. cbn [negb]. by rewrite (proj2 (Z.ltb_ge v (2 ^ 33))) by lia.
    + assert (Hc : canonical v = false).
      { unfold canonical. rewrite (proj2 (Z.ltb_ge _ _)), (proj2 (Z.leb_gt _ _)) by (unfold KERNEL_VMA in *; lia). done. }
      unfold walk. rewrite Hc. cbn [negb]. by rewrite (proj2 (Z.ltb_ge v (2 ^ 33))) by lia.
Qed.
End view.
