(* ===== verification/BootThms.v ===== *)
(** * The boot loader: the memory map and the kernel file. *)
From S2P Require Import Prelude BootInfo Boot.
Set Default Goal Selector "!".

(** ** The boot loader: the memory map and the kernel file. *)
(** ** Memory descriptors as the firmware lays them out *)
Definition encode_descriptor (stride : nat) (d : EfiMemoryDescriptor) : list Z :=
  to_le 4 (d_type d) ++ to_le 4 0 ++ to_le 8 (physical_start d) ++ to_le 8 (virtual_start d) ++ to_le 8 (number_of_pages d) ++
  to_le 8 (attribute d) ++ replicate (stride - 40) 0.
Definition encode_descriptors (stride : nat) (ds : list EfiMemoryDescriptor) : list Z := concat (encode_descriptor stride <$> ds).
Record descriptor_ok (d : EfiMemoryDescriptor) : Prop := {
  do_type : 0 ≤ d_type d < 2 ^ 32; do_start : is_u64 (physical_start d); do_virt : is_u64 (virtual_start d);
  do_pages : is_u64 (number_of_pages d); do_attr : is_u64 (attribute d) }.
Lemma length_encode_descriptor stride d : (40 ≤ stride)%nat → length (encode_descriptor stride d) = stride.
Proof. intros H. unfold encode_descriptor. rewrite !length_app, !length_to_le, length_replicate. lia. Qed.
Lemma length_encode_descriptors stride ds : (40 ≤ stride)%nat → length (encode_descriptors stride ds) = (stride * length ds)%nat.
Proof.
  intros H. induction ds as [|d ds IH]; [cbn; lia|]. change (encode_descriptors stride (d :: ds)) with (encode_descriptor stride d ++ encode_descriptors stride ds).
  rewrite length_app, length_encode_descriptor, IH by done. cbn [length]. lia.
Qed.

(** A field behind a prefix of known length. *)
Lemma field_skip l1 l2 o n : field_at (l1 ++ l2) (Z.of_nat (length l1) + Z.of_nat o) n = field_at l2 (Z.of_nat o) n.
Proof.
  unfold field_at. replace (Z.to_nat (Z.of_nat (length l1) + Z.of_nat o)) with (length l1 + o)%nat by lia. rewrite Nat2Z.id.
  rewrite drop_app_ge by lia. do 3 f_equal. lia.
Qed.
Lemma field_here l1 x n l2 : 0 ≤ x < 2 ^ (8 * Z.of_nat n) → field_at (l1 ++ to_le n x ++ l2) (Z.of_nat (length l1)) n = x.
Proof.
  intros Hx. unfold field_at. rewrite Nat2Z.id, drop_app_length, take_app_le, take_ge by (rewrite length_to_le; lia). by apply from_le_to_le.
Qed.
Lemma descriptor_at_encoded at_ stride ds i d rest : at_ mod 8 = 0 → (40 ≤ stride)%nat → (stride mod 8 = 0)%nat → Forall descriptor_ok ds → ds !! i = Some d →
  descriptor_at at_ (encode_descriptors stride ds ++ rest) (Z.of_nat i * Z.of_nat stride) = Some d.
Proof.
  intros Hat Hs Hm Hok Hi. pose proof (lookup_lt_Some _ _ _ Hi) as Hlt. pose proof (take_drop_middle ds i d Hi) as Hsplit.
  assert (Henc : encode_descriptors stride ds = encode_descriptors stride (take i ds) ++ encode_descriptor stride d ++ encode_descriptors stride (drop (S i) ds)).
  { rewrite <-Hsplit at 1. unfold encode_descriptors. rewrite fmap_app, fmap_cons, concat_app. done. }
  assert (Hl1 : Z.of_nat (length (encode_descriptors stride (take i ds))) = Z.of_nat i * Z.of_nat stride).
  { rewrite length_encode_descriptors, length_take by done. rewrite Nat.min_l by lia. lia. }
  unfold descriptor_at. rewrite length_app, length_encode_descriptors by done.
  rewrite (proj2 (Z.leb_le _ _)) by nia. rewrite (proj2 (Z.eqb_eq _ _)).
  2: { destruct (Nat.Div0.mod_divides stride 8) as [Hd _]. destruct (Hd Hm) as [k ->]. replace (at_ + Z.of_nat i * Z.of_nat (8 * k)) with (at_ + (Z.of_nat i * Z.of_nat k) * 8) by lia.
       by rewrite Z.mod_add. }
  cbn [andb]. f_equal. rewrite Henc, <-!app_assoc, <-Hl1. rewrite (Forall_lookup) in Hok. destruct (Hok i d Hi) as [Ht H1 H2 H3 H4].
  set (pre := encode_descriptors stride (take i ds)). set (post := encode_descriptors stride (drop (S i) ds) ++ rest).
  assert (Hf : ∀ l1 n x l2 o, o = Z.of_nat (length l1) → encode_descriptor stride d ++ post = l1 ++ to_le n x ++ l2 → 0 ≤ x < 2 ^ (8 * Z.of_nat n) →
    field_at (pre ++ encode_descriptor stride d ++ post) (Z.of_nat (length pre) + o) n = x).
  { intros l1 n x l2 o -> He Hx. rewrite field_skip, He. by apply field_here. }
  assert (H0 : field_at (pre ++ encode_descriptor stride d ++ post) (Z.of_nat (length pre)) 4 = d_type d).
  { rewrite <-(Z.add_0_r (Z.of_nat (length pre))). eapply (Hf []); [done| |exact Ht]. unfold encode_descriptor. by rewrite <-!app_assoc. }
  rewrite H0. destruct d as [ty st vi np atr]. cbn [d_type physical_start virtual_start number_of_pages attribute] in *. unfold is_u64 in *. f_equal.
  - eapply (Hf (to_le 4 ty ++ to_le 4 0)); [by rewrite length_app, !length_to_le| |done]. unfold encode_descriptor. by rewrite <-!app_assoc.
  - eapply (Hf (to_le 4 ty ++ to_le 4 0 ++ to_le 8 st)); [by rewrite !length_app, !length_to_le| |done]. unfold encode_descriptor. by rewrite <-!app_assoc.
  - eapply (Hf (to_le 4 ty ++ to_le 4 0 ++ to_le 8 st ++ to_le 8 vi)); [by rewrite !length_app, !length_to_le| |done]. unfold encode_descriptor. by rewrite <-!app_assoc.
  - eapply (Hf (to_le 4 ty ++ to_le 4 0 ++ to_le 8 st ++ to_le 8 vi ++ to_le 8 np)); [by rewrite !length_app, !length_to_le| |done]. unfold encode_descriptor. by rewrite <-!app_assoc.
Qed.

(** ** Copying and measuring the map *)
Definition region_of (d : EfiMemoryDescriptor) : MemoryRegion := mkRegion (physical_start d) (number_of_pages d * 4096) (d_type d).
Definition end_of (d : EfiMemoryDescriptor) : Z := physical_start d + number_of_pages d * 4096.
Definition max_end (ds : list EfiMemoryDescriptor) (m : Z) : Z := foldl (λ m d, Z.max m (end_of d)) m ds.
Definition fits (d : EfiMemoryDescriptor) : Prop := 0 ≤ physical_start d ∧ 0 ≤ number_of_pages d ∧ end_of d < 2 ^ 64.
Lemma max_end_le ds m : m ≤ max_end ds m.
Proof. revert m. induction ds as [|d ds IH]; intros m; cbn; [lia|]. etransitivity; [|apply IH]. lia. Qed.
Lemma max_end_lt ds m B : m < B → Forall (λ d, end_of d < B) ds → max_end ds m < B.
Proof. intros Hm H. revert m Hm. induction H as [|d ds Hd _ IH]; intros m Hm; cbn; [done|]. apply IH. lia. Qed.
Lemma max_end_spec ds d : d ∈ ds → ∀ m, end_of d ≤ max_end ds m.
Proof.
  induction 1 as [d ds|d e ds _ IH]; intros m; cbn; [etransitivity; [|apply max_end_le]; lia|apply IH].
Qed.

Section map.
Context (at_ : Z) (buffer : list Z) (stride : Z) (ds : list EfiMemoryDescriptor).
Context (Hds : ∀ i d, ds !! i = Some d → descriptor_at at_ buffer (Z.of_nat i * stride) = Some d) (Hfits : Forall fits ds).
Context (Hstride : 0 ≤ stride) (Hsize : Z.of_nat (length ds) * stride < 2 ^ 64).

Lemma copy_region_spec i d b Q : ds !! i = Some d →
  Q tt (set_memory_map (<[i := region_of d]> (memory_map b)) b) → wp (copy_region at_ buffer stride (Z.of_nat i)) Q b.
Proof.
  intros Hi HQ. pose proof (lookup_lt_Some _ _ _ Hi). rewrite Forall_lookup in Hfits. destruct (Hfits i d Hi) as (H0 & H1 & H2). unfold end_of in H2.
  unfold copy_region. wp_step. wp_step; [apply cmul_some; nia|]. wp_step. wp_step; [by apply Hds|]. wp_step. wp_step; [apply cmul_some; lia|].
  wp_step. by rewrite Nat2Z.id.
Qed.
(** The map after [k] entries. *)
Definition copied (l : list MemoryRegion) (k : nat) : list MemoryRegion := take k (region_of <$> ds) ++ drop k l.
Lemma copied_step l k d : ds !! k = Some d → (k < length l)%nat → <[k := region_of d]> (copied l k) = copied l (S k).
Proof.
  intros Hk Hl. pose proof (lookup_lt_Some _ _ _ Hk). unfold copied. assert (Hr : (region_of <$> ds) !! k = Some (region_of d)) by (by rewrite list_lookup_fmap, Hk).
  assert (Hlen : length (take k (region_of <$> ds)) = k) by (rewrite length_take, length_fmap; lia).
  rewrite (take_S_r _ _ _ Hr). destruct (lookup_lt_is_Some_2 l k Hl) as [x Hx]. rewrite (drop_S _ _ _ Hx).
  replace k with (length (take k (region_of <$> ds)) + 0)%nat at 1 by lia. rewrite insert_app_r. cbn [insert list_insert]. by rewrite <-app_assoc.
Qed.
Lemma copy_loop_spec n b : (n ≤ length ds)%nat → (n ≤ length (memory_map b))%nat →
  wp (for_each (seqZ 0 (Z.of_nat n)) (copy_region at_ buffer stride)) (λ _ b', b' = set_memory_map (copied (memory_map b) n) b) b.
Proof.
  intros Hn Hl. eapply wp_mono; [apply (wp_for_range (Z.of_nat n) _ (λ k b', b' = set_memory_map (copied (memory_map b) (Z.to_nat k)) b)); [lia| |]|].
  - destruct b. unfold copied. cbn. done.
  - intros k b' Hk ->. destruct (lookup_lt_is_Some_2 ds (Z.to_nat k) ltac:(lia)) as [d Hd]. rewrite <-(Z2Nat.id k) at 1 by lia.
    apply (copy_region_spec _ d); [done|]. cbn [memory_map set_memory_map]. rewrite (copied_step _ _ d) by (done || lia).
    replace (Z.to_nat (k + 1)) with (S (Z.to_nat k)) by lia. done.
  - intros [] b' ->. by rewrite Nat2Z.id.
Qed.
Lemma analyze_spec' k m : (k ≤ length ds)%nat → analyze_loop at_ buffer stride (seqZ (Z.of_nat k) (Z.of_nat (length ds - k))) m = Some (max_end (drop k ds) m).
Proof.
  intros Hk. remember (length ds - k)%nat as r eqn:Hr. revert k m Hk Hr. induction r as [|r IH]; intros k m Hk Hr.
  - rewrite drop_ge by lia. done.
  - rewrite seqZ_cons by lia. destruct (lookup_lt_is_Some_2 ds k ltac:(lia)) as [d Hd]. rewrite (drop_S _ _ _ Hd). cbn [analyze_loop].
    rewrite Forall_lookup in Hfits. destruct (Hfits k d Hd) as (H0 & H1 & H2). unfold end_of in H2.
    rewrite cmul_some by nia. cbn [mbind option_bind]. rewrite (Hds k d Hd). cbn [mbind option_bind]. rewrite cmul_some by lia. cbn [mbind option_bind].
    rewrite cadd_some by lia. cbn [mbind option_bind]. replace (Z.succ (Z.of_nat k)) with (Z.of_nat (S k)) by lia. replace (Z.pred (Z.of_nat (S r))) with (Z.of_nat r) by lia.
    rewrite IH by lia. cbn [max_end foldl]. unfold max_end. do 2 f_equal. fold (end_of d). destruct (Z.ltb_spec m (end_of d)); lia.
Qed.
Lemma analyze_spec : analyze_memory_map at_ buffer (Z.of_nat (length ds)) stride = Some (max_end ds 0).
Proof. pose proof (analyze_spec' 0 0 ltac:(lia)) as H. rewrite Nat.sub_0_r in H. exact H. Qed.
End map.

(** The boot information after a whole map. *)
Definition with_map (ds : list EfiMemoryDescriptor) (b : BootInfo) : BootInfo :=
  let n := Nat.min (length ds) (length (memory_map b)) in
  mkBootInfo (framebuffer b) (copied ds (memory_map b) n) (Z.of_nat n) (rsdp_address b) (max_end ds 0).
Lemma copy_memory_map_spec at_ stride ds rest b Q : at_ mod 8 = 0 → (40 ≤ stride)%nat → (stride mod 8 = 0)%nat → Forall descriptor_ok ds → Forall fits ds →
  Z.of_nat (length rest) < Z.of_nat stride → Z.of_nat (length ds) * Z.of_nat stride < 2 ^ 64 → ∀ unused,
  let buffer := encode_descriptors stride ds ++ rest in
  Q tt (with_map ds b) → wp (copy_memory_map at_ (buffer ++ unused) (Z.of_nat (length buffer)) (Z.of_nat stride)) Q b.
Proof.
  intros Hat Hs Hm Hok Hfits Hrest Hsize unused buffer HQ. unfold copy_memory_map. rewrite (proj2 (Z.eqb_neq _ _)) by lia.
  assert (Hn : Z.of_nat (length buffer) / Z.of_nat stride = Z.of_nat (length ds)).
  { unfold buffer. rewrite length_app, length_encode_descriptors by done. symmetry. apply Z.div_unique with (r := Z.of_nat (length rest)); lia. }
  rewrite Hn. wp_step. wp_step. rewrite <-Nat2Z.inj_min. set (n := Nat.min _ _).
  assert (Hd : ∀ more i d, ds !! i = Some d → descriptor_at at_ (encode_descriptors stride ds ++ more) (Z.of_nat i * Z.of_nat stride) = Some d).
  { intros. by apply descriptor_at_encoded. }
  wp_step. eapply wp_mono; [apply (copy_loop_spec at_ (buffer ++ unused) (Z.of_nat stride) ds); try done; try lia|].
  - intros i d Hi. unfold buffer. rewrite <-app_assoc. by apply Hd.
  - intros [] b' ->. wp_step. wp_step. wp_step. wp_step; [apply Z.leb_le; rewrite length_app; lia|]. rewrite Nat2Z.id, take_app_length.
    wp_step. wp_step; [apply analyze_spec; try done; try lia; intros i d Hi; by apply Hd|]. by wp_step.
Qed.

(** ** The boot loader: loading the kernel file.

    The file is bytes; its headers are read back from memory while segments are
    written, so the specification asks that no segment lands on the file buffer. *)
(** ** The file as data *)
Record phdr := mkPhdr { ph_type : Z; ph_offset : Z; ph_vaddr : Z; ph_paddr : Z; ph_filesz : Z; ph_memsz : Z }.
Definition phdr_at (f : list Z) (o : Z) : phdr :=
  mkPhdr (field_at f o 4) (field_at f (o + 8) 8) (field_at f (o + 16) 8) (field_at f (o + 24) 8) (field_at f (o + 32) 8) (field_at f (o + 40) 8).
Definition e_entry_of (f : list Z) : Z := field_at f 24 8.
Definition e_phoff_of (f : list Z) : Z := field_at f 32 8.
Definition e_phnum_of (f : list Z) : Z := field_at f 56 2.
Definition phdrs (f : list Z) : list phdr := (λ i, phdr_at f (e_phoff_of f + i * 56)) <$> seqZ 0 (e_phnum_of f).
Definition elf_magic (f : list Z) : bool := (field_at f 0 4 =? from_le [0x7f; 69; 76; 70]) && (field_at f 4 1 =? 2).
Definition is_load (ph : phdr) : bool := ph_type ph =? PT_LOAD.

(** What a segment does to memory. *)
Definition place (f : list Z) (m : bmem) (ph : phdr) : bmem :=
  if is_load ph then λ a,
    if (ph_paddr ph <=? a) && (a <? ph_paddr ph + ph_filesz ph) then nth (Z.to_nat (ph_offset ph + (a - ph_paddr ph))) f 0
    else if (ph_paddr ph + ph_filesz ph <=? a) && (a <? ph_paddr ph + ph_memsz ph) then 0 else m a
  else m.
(** The offset between virtual and physical addresses: the first segment where they differ. *)
Definition offset_step (o : option Z) (ph : phdr) : option Z :=
  match o with Some d => Some d | None => if is_load ph && negb (ph_vaddr ph =? ph_paddr ph) then Some (ph_vaddr ph - ph_paddr ph) else None end.
Definition entry_of (f : list Z) : Z := e_entry_of f - default 0 (foldl offset_step None (phdrs f)).

(** A segment that stays in the file and away from the buffer. *)
Record segment_ok (img : loader_image) (f : list Z) (ph : phdr) : Prop := {
  so_file : ph_offset ph + ph_filesz ph ≤ Z.of_nat (length f);
  so_dst : 0 < ph_paddr ph ∧ ph_paddr ph + Z.max (ph_filesz ph) (ph_memsz ph) ≤ 2 ^ 64;
  so_away : ph_paddr ph + Z.max (ph_filesz ph) (ph_memsz ph) ≤ file_buffer_at img ∨ file_buffer_at img + FILE_BUFFER_SIZE ≤ ph_paddr ph;
  so_vaddr : ph_paddr ph ≤ ph_vaddr ph;
}.
Record elf_ok (img : loader_image) (f : list Z) : Prop := {
  eo_bytes : Forall is_byte f;
  eo_size : 64 ≤ Z.of_nat (length f) ≤ FILE_BUFFER_SIZE;
  eo_align : file_buffer_at img mod 8 = 0 ∧ 0 ≤ file_buffer_at img;
  eo_magic : elf_magic f = true;
  eo_phoff : e_phoff_of f mod 8 = 0 ∧ e_phoff_of f + e_phnum_of f * 56 ≤ Z.of_nat (length f);
  eo_segments : ∀ ph, ph ∈ phdrs f → is_load ph = true → segment_ok img f ph;
  eo_entry : 0 ≤ entry_of f;
}.

Lemma field_bounds f o n : Forall is_byte f → 0 ≤ field_at f o n.
Proof. intros H. unfold field_at. apply from_le_bound. by apply Forall_take, Forall_drop. Qed.

Section load.
Context (img : loader_image) (f : list Z) (Hok : elf_ok img f).
Notation FB := (file_buffer_at img).

(** Memory that still holds the file. *)
Definition holds (m : bmem) : Prop := ∀ i b, f !! i = Some b → m (FB + Z.of_nat i) = b.
Lemma holds_field m o n : holds m → 0 ≤ o → o + Z.of_nat n ≤ Z.of_nat (length f) → from_le (m <$> seqZ (FB + o) (Z.of_nat n)) = field_at f o n.
Proof.
  intros Hm Ho Hn. unfold field_at. f_equal. apply list_eq_same_length with (n := n).
  - rewrite length_take, length_drop. lia.
  - rewrite length_fmap, length_seqZ. lia.
  - intros i x y Hi. rewrite list_lookup_fmap, lookup_seqZ_lt by lia. cbn. intros [= <-]. rewrite lookup_take_lt, lookup_drop by lia.
    intros Hy. rewrite <-(Hm _ _ Hy). f_equal. lia.
Qed.
Lemma wp_load_le n o Q m : holds m → 0 ≤ o → o + Z.of_nat n ≤ Z.of_nat (length f) → Q (field_at f o n) m → wp (load_le n (FB + o)) Q m.
Proof. intros. unfold load_le. wp_step. by rewrite holds_field. Qed.

Lemma place_holds m ph : 0 ≤ ph_filesz ph → (is_load ph = true → segment_ok img f ph) → holds m → holds (place f m ph).
Proof.
  intros Hnn Hseg Hm i b Hi. unfold place. destruct (is_load ph); [|by apply Hm]. destruct (Hseg eq_refl) as [_ _ Haway _]. pose proof (lookup_lt_Some _ _ _ Hi). pose proof (eo_size _ _ Hok).
  destruct (Z.leb_spec (ph_paddr ph) (FB + Z.of_nat i)), (Z.ltb_spec (FB + Z.of_nat i) (ph_paddr ph + ph_filesz ph)); cbn [andb]; try lia;
    destruct (Z.leb_spec (ph_paddr ph + ph_filesz ph) (FB + Z.of_nat i)), (Z.ltb_spec (FB + Z.of_nat i) (ph_paddr ph + ph_memsz ph)); cbn [andb]; try lia; by apply Hm.
Qed.

(** Copying a piece of the file. *)
Lemma copied_file m ph a : holds m → ph_offset ph + ph_filesz ph ≤ Z.of_nat (length f) → 0 ≤ ph_offset ph → ph_paddr ph ≤ a < ph_paddr ph + ph_filesz ph →
  m (FB + ph_offset ph + (a - ph_paddr ph)) = nth (Z.to_nat (ph_offset ph + (a - ph_paddr ph))) f 0.
Proof.
  intros Hm Hf H0 Ha. destruct (lookup_lt_is_Some_2 f (Z.to_nat (ph_offset ph + (a - ph_paddr ph))) ltac:(lia)) as [b Hb].
  rewrite (nth_lookup_Some _ _ _ _ Hb), <-(Hm _ _ Hb). f_equal. lia.
Qed.

Lemma load_segment_spec i o m (Q : option Z → bmem → Prop) : holds m → 0 ≤ i < e_phnum_of f →
  (∀ m', (∀ a, m' a = place f m (phdr_at f (e_phoff_of f + i * 56)) a) → Q (offset_step o (phdr_at f (e_phoff_of f + i * 56))) m') →
  wp (load_segment img FB i o) Q m.
Proof.
  intros Hm Hi HQ. pose proof (eo_size _ _ Hok) as Hsz. unfold FILE_BUFFER_SIZE in Hsz. destruct (eo_phoff _ _ Hok) as [Hpa Hpf]. destruct (eo_align _ _ Hok) as [Hal H0]. pose proof (eo_bytes _ _ Hok) as Hby.
  set (o' := e_phoff_of f + i * 56) in *. assert (Hpo : 0 ≤ e_phoff_of f) by (by apply field_bounds). assert (Ho' : 0 ≤ o' ∧ o' + 56 ≤ Z.of_nat (length f)) by (unfold o'; lia).
  unfold load_segment. wp_step. apply wp_load_le; [done|lia|lia|]. fold (e_phoff_of f). wp_step.
  wp_step; [apply cadd_some; unfold PROGRAM_HEADER_SIZE; lia|]. unfold PROGRAM_HEADER_SIZE. fold o'. unfold file_ref. wp_step. wp_step. wp_step.
  { apply andb_true_iff. split; [apply Z.leb_le; unfold FILE_BUFFER_SIZE; lia|apply Z.eqb_eq; unfold o'; dlia]. }
  wp_step. wp_step. apply wp_load_le; [done|lia|lia|]. set (ph := phdr_at f o') in *. change (field_at f o' 4) with (ph_type ph).
  assert (Hnn : 0 ≤ ph_offset ph ∧ 0 ≤ ph_filesz ph ∧ 0 ≤ ph_memsz ph) by (split; [|split]; by apply field_bounds).
  unfold place, offset_step in HQ. change (ph_type ph =? PT_LOAD) with (is_load ph). destruct (is_load ph) eqn:Hload; cbn [negb andb] in *.
  2: { wp_step. specialize (HQ m ltac:(done)). by destruct o. }
  assert (Hin : ph ∈ phdrs f) by (apply list_elem_of_fmap; exists i; split; [done|apply elem_of_seqZ; lia]).
  destruct (eo_segments _ _ Hok ph Hin Hload) as [Hfile [Hd1 Hd2] Haway Hva]. unfold FILE_BUFFER_SIZE in Haway.
  rewrite <-!Z.add_assoc.
  wp_step. apply wp_load_le; [done|lia|lia|]. change (field_at f (o' + 16) 8) with (ph_vaddr ph).
  wp_step. apply wp_load_le; [done|lia|lia|]. change (field_at f (o' + 24) 8) with (ph_paddr ph).
  wp_step. set (off := match o with Some d => Some d | None => if negb (ph_vaddr ph =? ph_paddr ph) then Some (ph_vaddr ph - ph_paddr ph) else None end) in *.
  apply wp_mono with (Q := λ r m', r = off ∧ m' = m).
  { unfold off. destruct o as [d|]; [by wp_step|]. destruct (negb _); [|by wp_step]. wp_step. wp_step; [by apply csub_some|]. by wp_step. }
  intros r m' [-> ->]. wp_step. apply wp_load_le; [done|lia|lia|]. change (field_at f (o' + 8) 8) with (ph_offset ph).
  wp_step. apply wp_load_le; [done|lia|lia|]. change (field_at f (o' + 32) 8) with (ph_filesz ph).
  wp_step. wp_step; [apply Z.leb_le; unfold FILE_BUFFER_SIZE; lia|]. wp_step. unfold copy_nonoverlapping. wp_step. wp_step.
  { destruct (Z.eqb_spec (ph_filesz ph) 0); [done|]. cbn [orb]. rewrite !andb_true_iff, orb_true_iff, Z.ltb_lt, !Z.leb_le. lia. }
  wp_step. match goal with |- wp _ _ ?x => set (m1 := x) end.
  assert (Hm1 : holds m1).
  { intros k b Hk. pose proof (lookup_lt_Some _ _ _ Hk). unfold m1.
    destruct (Z.leb_spec (ph_paddr ph) (FB + Z.of_nat k)), (Z.ltb_spec (FB + Z.of_nat k) (ph_paddr ph + ph_filesz ph)); cbn [andb]; try lia; by apply Hm. }
  wp_step. apply wp_load_le; [done|lia|lia|]. change (field_at f (o' + 40) 8) with (ph_memsz ph).
  wp_step. apply wp_load_le; [done|lia|lia|]. change (field_at f (o' + 32) 8) with (ph_filesz ph). wp_step.
  assert (Hcopy : ∀ a, (ph_paddr ph <=? a) && (a <? ph_paddr ph + ph_filesz ph) = true → m1 a = nth (Z.to_nat (ph_offset ph + (a - ph_paddr ph))) f 0).
  { intros a Ha. unfold m1. rewrite Ha. apply andb_true_iff in Ha as [?%Z.leb_le ?%Z.ltb_lt]. apply copied_file; [done|done|lia|lia]. }
  destruct (Z.ltb_spec (ph_filesz ph) (ph_memsz ph)) as [Hlt|Hge].
  - unfold write_bytes. wp_step. wp_step.
    { rewrite orb_true_iff, andb_true_iff, Z.eqb_eq, Z.ltb_lt, Z.leb_le. lia. }
    wp_step. wp_step. apply HQ. intros a. replace (ph_paddr ph + ph_filesz ph + (ph_memsz ph - ph_filesz ph)) with (ph_paddr ph + ph_memsz ph) by lia.
    destruct ((ph_paddr ph <=? a) && (a <? ph_paddr ph + ph_filesz ph)) eqn:Ha.
    + rewrite Hcopy by done. apply andb_true_iff in Ha as [?%Z.leb_le ?%Z.ltb_lt]. by rewrite (proj2 (Z.leb_gt _ _)) by lia.
    + destruct ((ph_paddr ph + ph_filesz ph <=? a) && (a <? ph_paddr ph + ph_memsz ph)); [done|]. unfold m1. by rewrite Ha.
  - wp_step. wp_step. apply HQ. intros a. destruct ((ph_paddr ph <=? a) && (a <? ph_paddr ph + ph_filesz ph)) eqn:Ha; [by apply Hcopy|].
    destruct ((ph_paddr ph + ph_filesz ph <=? a) && (a <? ph_paddr ph + ph_memsz ph)) eqn:Hb.
    { apply andb_true_iff in Hb as [?%Z.leb_le ?%Z.ltb_lt]. lia. }
    unfold m1. by rewrite Ha.
Qed.

(** All segments in order. *)
Lemma place_ext m m' ph : (∀ a, m a = m' a) → ∀ a, place f m ph a = place f m' ph a.
Proof. intros H a. unfold place. destruct (is_load ph); [|done]. by rewrite H. Qed.
Lemma places_ext phs m m' : (∀ a, m a = m' a) → ∀ a, foldl (place f) m phs a = foldl (place f) m' phs a.
Proof. revert m m'. induction phs as [|ph phs IH]; intros m m' H a; cbn; [done|]. apply IH. by apply place_ext. Qed.
Lemma places_holds phs m : (∀ ph, ph ∈ phs → ph ∈ phdrs f) → holds m → holds (foldl (place f) m phs).
Proof.
  revert m. induction phs as [|ph phs IH]; intros m Hin Hm; cbn; [done|]. apply IH; [intros; apply Hin; by right|].
  assert (Hph : ph ∈ phdrs f) by (apply Hin; by left). apply place_holds; [|by apply (eo_segments _ _ Hok)|done].
  apply list_elem_of_fmap in Hph as (i & -> & _). apply field_bounds, (eo_bytes _ _ Hok).
Qed.
Lemma holds_ext m m' : (∀ a, m' a = m a) → holds m → holds m'.
Proof. intros H Hm i b Hi. rewrite H. by apply Hm. Qed.

Lemma load_segments_spec ixs o m (Q : option Z → bmem → Prop) : holds m → (∀ i, i ∈ ixs → 0 ≤ i < e_phnum_of f) →
  let phs := (λ i, phdr_at f (e_phoff_of f + i * 56)) <$> ixs in
  (∀ m', (∀ a, m' a = foldl (place f) m phs a) → Q (foldl offset_step o phs) m') → wp (load_segments img FB ixs o) Q m.
Proof.
  revert o m. induction ixs as [|i ixs IH]; intros o m Hm Hin phs HQ; cbn [load_segments].
  - wp_step. by apply HQ.
  - wp_step. assert (Hi : 0 ≤ i < e_phnum_of f) by (apply Hin; by left). apply load_segment_spec; [done|done|]. intros m1 Hm1.
    assert (Hph : phdr_at f (e_phoff_of f + i * 56) ∈ phdrs f) by (apply list_elem_of_fmap; exists i; split; [done|apply elem_of_seqZ; lia]).
    assert (Hh : holds m1).
    { eapply holds_ext; [exact Hm1|]. apply (places_holds [phdr_at f (e_phoff_of f + i * 56)]); [|done]. intros ph ->%list_elem_of_singleton. done. }
    apply IH; [done|intros j Hj; apply Hin; by right|]. intros m' Hm'. apply HQ. intros a. rewrite Hm'. cbn. by apply places_ext.
Qed.
Lemma load_elf_spec m (Q : Z → bmem → Prop) : holds m → (∀ m', (∀ a, m' a = foldl (place f) m (phdrs f) a) → Q (entry_of f) m') → wp (load_elf img) Q m.
Proof.
  intros Hm HQ. pose proof (eo_size _ _ Hok) as Hsz. destruct (eo_align _ _ Hok) as [Hal H0]. pose proof (eo_bytes _ _ Hok) as Hby.
  unfold load_elf, file_ref. wp_step. wp_step. wp_step.
  { rewrite Z.add_0_r. apply andb_true_iff. split; [apply Z.leb_le; unfold ELF_HEADER_SIZE, FILE_BUFFER_SIZE; lia|by apply Z.eqb_eq]. }
  wp_step. wp_step. unfold is_valid. replace (FB + 0) with FB by lia. wp_step. replace FB with (FB + 0) at 1 by lia. apply wp_load_le; [done|lia|lia|].
  wp_step. apply wp_load_le; [done|lia|lia|]. wp_step. pose proof (eo_magic _ _ Hok) as Hmag. unfold elf_magic in Hmag. rewrite Hmag. cbn [negb].
  wp_step. apply wp_load_le; [done|lia|lia|]. fold (e_phnum_of f). wp_step.
  apply load_segments_spec; [done|intros i Hi%elem_of_seqZ; lia|]. fold (phdrs f). intros m' Hm'.
  assert (Hh : holds m') by (eapply holds_ext; [exact Hm'|by apply places_holds]).
  wp_step. apply wp_load_le; [done|lia|lia|]. fold (e_entry_of f). pose proof (eo_entry _ _ Hok) as He. unfold entry_of in *.
  destruct (foldl offset_step None (phdrs f)) as [d|]; cbn [default from_option id] in *.
  - wp_step; [apply csub_some; lia|]. by apply HQ.
  - wp_step. rewrite <-(Z.sub_0_r (e_entry_of f)). by apply HQ.
Qed.
(** Reading the file. *)
Lemma read_file_holds m : holds (fill_buffer img f m).
Proof.
  intros i b Hi. unfold fill_buffer. replace (Z.to_nat (FB + Z.of_nat i - FB)) with i by lia. pose proof (eo_size _ _ Hok). pose proof (lookup_lt_Some _ _ _ Hi).
  rewrite lookup_take_lt, Hi by lia. by rewrite (proj2 (Z.leb_le _ _)) by lia.
Qed.
End load.

(** Segments that do not overlap are all there in the end. *)
Definition seg_end (ph : phdr) : Z := ph_paddr ph + Z.max (ph_filesz ph) (ph_memsz ph).
Definition apart (p q : phdr) : Prop := is_load p = true → is_load q = true → seg_end p ≤ ph_paddr q ∨ seg_end q ≤ ph_paddr p.
Lemma places_other f phs m a : (∀ q, q ∈ phs → is_load q = true → 0 ≤ ph_filesz q ∧ (a < ph_paddr q ∨ seg_end q ≤ a)) → foldl (place f) m phs a = m a.
Proof.
  revert m. induction phs as [|q phs IH]; intros m H; cbn; [done|]. rewrite IH by (intros; apply H; [by right|done]).
  unfold place. destruct (is_load q) eqn:Hq; [|done]. unfold seg_end in H. destruct (H q ltac:(by left) Hq) as [Hnn Hout].
  destruct (Z.leb_spec (ph_paddr q) a), (Z.ltb_spec a (ph_paddr q + ph_filesz q)); cbn [andb]; try lia;
    destruct (Z.leb_spec (ph_paddr q + ph_filesz q) a), (Z.ltb_spec a (ph_paddr q + ph_memsz q)); cbn [andb]; try lia; done.
Qed.
Lemma places_contents f phs m ph a : ForallOrdPairs apart phs → (∀ q, q ∈ phs → 0 ≤ ph_filesz q) → ph ∈ phs → is_load ph = true → ph_paddr ph ≤ a < seg_end ph →
  foldl (place f) m phs a = (if a <? ph_paddr ph + ph_filesz ph then nth (Z.to_nat (ph_offset ph + (a - ph_paddr ph))) f 0 else 0).
Proof.
  intros Hap Hnn Hin Hload Ha. revert m. induction Hap as [|q phs Hq _ IH]; intros m; [by apply elem_of_nil in Hin|]. cbn.
  apply elem_of_cons in Hin as [->|Hin]; [|apply IH; [intros; apply Hnn; by right|done]]. rewrite places_other.
  - unfold place. rewrite Hload. unfold seg_end in Ha. specialize (Hnn q ltac:(by left)). rewrite (proj2 (Z.leb_le _ _)) by lia. cbn [andb]. destruct (Z.ltb_spec a (ph_paddr q + ph_filesz q)); [done|].
    rewrite (proj2 (Z.leb_le _ _)), (proj2 (Z.ltb_lt _ _)) by lia. done.
  - intros r Hr Hlr. split; [apply Hnn; by right|]. rewrite List.Forall_forall in Hq. destruct (Hq r (proj1 (list_elem_of_In _ _) Hr) Hload Hlr); lia.
Qed.

(** The loader reads each field where its structure's layout puts it. *)
Lemma loader_offsets :
  (∀ at_ buffer o d, descriptor_at at_ buffer o = Some d →
     let read f n := (λ k, field_at buffer (o + k) n) <$> offset_of EfiMemoryDescriptor_fields f in
     o + size_of (struct EfiMemoryDescriptor_fields) ≤ Z.of_nat (length buffer) ∧ read "type"%string 4%nat = Some (d_type d) ∧ read "physical_start"%string 8%nat = Some (physical_start d) ∧
     read "number_of_pages"%string 8%nat = Some (number_of_pages d) ∧ read "attribute"%string 8%nat = Some (attribute d)) ∧
  ELF_HEADER_SIZE = size_of (struct Elf64Header) ∧ PROGRAM_HEADER_SIZE = size_of (struct Elf64ProgramHeader) ∧
  (offset_of Elf64Header <$> ["e_ident"; "e_entry"; "e_phoff"; "e_phnum"]%string) = [Some 0; Some 24; Some 32; Some 56] ∧
  (offset_of Elf64ProgramHeader <$> ["p_type"; "p_offset"; "p_vaddr"; "p_paddr"; "p_filesz"; "p_memsz"]%string) = [Some 0; Some 8; Some 16; Some 24; Some 32; Some 40].
Proof.
  split; [|vm_compute; by repeat split]. intros at_ buffer o d. unfold descriptor_at. destruct (Z.leb_spec (o + 40) (Z.of_nat (length buffer))) as [Hle|]; [|done].
  destruct (_ =? 0); [|done]. intros [= <-]. cbv zeta. split; [exact Hle|].
  assert (E : ∀ f k n, offset_of EfiMemoryDescriptor_fields f = Some k → (λ k, field_at buffer (o + k) n) <$> offset_of EfiMemoryDescriptor_fields f = Some (field_at buffer (o + k) n)) by (by intros f k n ->).
  rewrite (E _ 0), (E _ 8), (E _ 24), (E _ 32), Z.add_0_r by (vm_compute; reflexivity). by repeat split.
Qed.
