(* ===== verification/BootProps.v ===== *)
(** * The boot loader: the theorems. *)
From S2P Require Import Prelude BootInfo X86 Boot BootTables BootThms.
Set Default Goal Selector "!".

(** C26: The loader's page tables, built for any memory size, make the processor
    see physical memory at its own addresses and again from KERNEL_VMA: every
    2 MiB page below 8 GiB that starts below the size, writable and executable,
    and nothing else.  A size whose rounding to GiB overflows is a panic. *)
Theorem boot_paging_correct img max (Himg : loader_ok img) (Hmax : 0 ≤ max) :
  (max + 2 ^ 30 < 2 ^ 64 → ∃ s', setup_initial_page_tables img max boot_tables_new = Some (pml4_at img, s') ∧
     ∀ v, 0 ≤ v < 2 ^ 64 → walk (loader_table img s') (pml4_at img) v = boot_view max v) ∧
  (2 ^ 64 ≤ max + 2 ^ 30 → ∀ s, setup_initial_page_tables img max s = None).
Proof.
  split.
  - intros Hfit. pose proof (setup_spec img max (λ a s', a = pml4_at img ∧ s' = built img max (required_gb max) (required_gb max) 0) Hmax Hfit (conj eq_refl eq_refl)) as Hw.
    apply wp_run in Hw as (a & s' & Hrun & -> & ->). exists (built img max (required_gb max) (required_gb max) 0). split; [exact Hrun|]. intros v Hv. by apply walk_boot.
  - intros Hover s. unfold setup_initial_page_tables, mbind, M_bind, lift, cadd. change (Z.shiftl 1 30) with (2 ^ 30). by rewrite (proj2 (Z.ltb_ge _ _)).
Qed.

(** C35: For every list of descriptors, copying the map the firmware encodes them
    in gives their regions in order, as many as fit, and the end of the highest
    of all of them; nothing else of the boot information changes. *)
Theorem memory_map_correct at_ stride ds rest unused b (Hat : at_ mod 8 = 0) (Hs : (40 ≤ stride)%nat) (Hm : (stride mod 8 = 0)%nat)
  (Hok : Forall descriptor_ok ds) (Hfits : Forall fits ds) (Hrest : (length rest < stride)%nat) (Hsize : Z.of_nat (length ds) * Z.of_nat stride < 2 ^ 64) :
  let buffer := encode_descriptors stride ds ++ rest in
  ∃ b', copy_memory_map at_ (buffer ++ unused) (Z.of_nat (length buffer)) (Z.of_nat stride) b = Some (tt, b') ∧
    memory_map_count b' = Z.of_nat (Nat.min (length ds) (length (memory_map b))) ∧
    (∀ i d, ds !! i = Some d → (i < length (memory_map b))%nat → memory_map b' !! i = Some (mkRegion (physical_start d) (number_of_pages d * 4096) (d_type d))) ∧
    (∀ i, (length ds ≤ i)%nat → memory_map b' !! i = memory_map b !! i) ∧
    (∀ d, d ∈ ds → physical_start d + number_of_pages d * 4096 ≤ max_physical_address b') ∧
    (max_physical_address b' = 0 ∨ ∃ d, d ∈ ds ∧ max_physical_address b' = physical_start d + number_of_pages d * 4096) ∧
    framebuffer b' = framebuffer b ∧ rsdp_address b' = rsdp_address b.
Proof.
  intros buffer. pose proof (copy_memory_map_spec at_ stride ds rest b (λ _ b', b' = with_map ds b) Hat Hs Hm Hok Hfits ltac:(lia) Hsize unused eq_refl) as Hw.
  apply wp_run in Hw as ([] & b' & Hrun & ->). exists (with_map ds b). split; [exact Hrun|]. unfold with_map. cbn [memory_map_count memory_map max_physical_address framebuffer rsdp_address].
  set (n := Nat.min _ _). assert (Hlen : length (take n (region_of <$> ds)) = n) by (rewrite length_take, length_fmap; lia).
  split; [done|]. split; [|split; [|split; [|split; [|done]]]].
  - intros i d Hi Hlt. pose proof (lookup_lt_Some _ _ _ Hi). unfold copied. rewrite lookup_app_l by lia. rewrite lookup_take_lt by lia. by rewrite list_lookup_fmap, Hi.
  - intros i Hi. unfold copied. destruct (decide (i < length (memory_map b))%nat).
    + rewrite lookup_app_r by lia. rewrite Hlen, lookup_drop. f_equal. lia.
    + rewrite (lookup_ge_None_2 (memory_map b)) by lia. apply lookup_ge_None_2. rewrite length_app, Hlen, length_drop. lia.
  - intros d Hd. by apply (max_end_spec ds d Hd 0).
  - assert (H : ∀ m, max_end ds m = m ∨ ∃ d, d ∈ ds ∧ max_end ds m = end_of d).
    { clear. induction ds as [|d ds IH]; intros m; [by left|]. cbn. destruct (IH (Z.max m (end_of d))) as [He|(e & Hin & He)].
      - unfold max_end in He. rewrite He. destruct (Z.max_spec m (end_of d)) as [[? ->]|[? ->]]; [right; exists d; split; [by left|done]|by left].
      - right. exists e. split; [by right|exact He]. }
    destruct (H 0) as [->|(d & Hd & ->)]; [by left|right; by exists d].
Qed.

(** C24: Loading a sound kernel file: every segment's bytes are in memory at its
    physical address with the rest of it zero, memory outside the segments is as
    after reading the file, and the answer is the entry point less the offset of
    the first segment whose addresses differ.  A file without the ELF magic is
    answered with zero. *)
Theorem load_elf_correct img f m (Hok : elf_ok img f) (Hm : holds img f m) :
  (∃ m', load_elf img m = Some (entry_of f, m') ∧
     (∀ a, (∀ ph, ph ∈ phdrs f → is_load ph = true → a < ph_paddr ph ∨ seg_end ph ≤ a) → m' a = m a) ∧
     (ForallOrdPairs apart (phdrs f) → ∀ ph a, ph ∈ phdrs f → is_load ph = true → ph_paddr ph ≤ a < seg_end ph →
        m' a = (if a <? ph_paddr ph + ph_filesz ph then nth (Z.to_nat (ph_offset ph + (a - ph_paddr ph))) f 0 else 0))) ∧
  (∀ m, is_valid (file_buffer_at img) m = Some (false, m) → load_elf img m = Some (0, m)).
Proof.
  assert (Hnn : ∀ q, q ∈ phdrs f → 0 ≤ ph_filesz q).
  { intros q (i & -> & _)%list_elem_of_fmap. apply field_bounds, (eo_bytes _ _ Hok). }
  split.
  - pose proof (load_elf_spec img f Hok m (λ r m', r = entry_of f ∧ ∀ a, m' a = foldl (place f) m (phdrs f) a) Hm) as Hw.
    specialize (Hw ltac:(by intros m' Hm')). apply wp_run in Hw as (r & m' & Hrun & -> & Hm'). exists m'. split; [exact Hrun|]. split.
    + intros a Ha. rewrite Hm'. apply places_other. intros q Hq Hl. split; [by apply Hnn|by apply Ha].
    + intros Hap ph a Hph Hl Ha. rewrite Hm'. by apply places_contents.
  - intros m0 Hv. destruct (eo_align _ _ Hok) as [Hal _]. unfold load_elf. apply run_bind. unfold file_ref. wp_step. wp_step.
    { rewrite Z.add_0_r. by apply Z.eqb_eq. }
    wp_step. replace (file_buffer_at img + 0) with (file_buffer_at img) by lia. unfold mbind, M_bind. by rewrite Hv.
Qed.

(** ** From power-on to the jump *)
(** The ACPI root pointer: the first entry of version 2, or else the last of version 1. *)
Definition rsdp_of (entries : list EfiConfigurationTable) (otherwise : Z) : Z :=
  match list_find (λ e, vendor_guid e = EFI_ACPI_20_TABLE_GUID) entries with
  | Some (_, e) => vendor_table e
  | None => last (vendor_table <$> filter (λ e, vendor_guid e = EFI_ACPI_TABLE_GUID) entries) otherwise
  end.
Lemma last_of_cons {A} (l : list A) x d : last (x :: l) d = last l x.
Proof. revert x d. induction l as [|y l IH]; intros x d; [done|]. change (last (x :: y :: l) d) with (last (y :: l) d). by rewrite !IH. Qed.
Lemma find_rsdp_spec entries a : find_rsdp entries a = rsdp_of entries a.
Proof.
  unfold rsdp_of. revert a. induction entries as [|e entries IH]; intros a; cbn [find_rsdp list_find]; [done|].
  destruct (decide (vendor_guid e = EFI_ACPI_20_TABLE_GUID)) as [H2|H2]; [by rewrite bool_decide_true|]. rewrite bool_decide_false by done.
  destruct (decide (vendor_guid e = EFI_ACPI_TABLE_GUID)) as [H1|H1].
  - rewrite bool_decide_true, IH, filter_cons_True by done. rewrite fmap_cons, last_of_cons. by destruct (list_find _ entries) as [[i x]|].
  - rewrite bool_decide_false, IH, filter_cons_False by done. by destruct (list_find _ entries) as [[i x]|].
Qed.

(** A machine on which everything but the first memory map succeeds. *)
Record machine_ok (img : loader_image) (fw : firmware) (f : list Z) : Prop := {
  mo_gop : gop_status fw = EFI_SUCCESS;
  mo_files : sfs_status fw = EFI_SUCCESS ∧ volume_status fw = EFI_SUCCESS ∧ open_status fw = EFI_SUCCESS ∧ read_status fw = EFI_SUCCESS;
  mo_file : kernel_file fw = f;
  mo_elf : elf_ok img f;
  mo_entry : 0 < entry_of f ∧ entry_of f + KERNEL_VMA < 2 ^ 64;
  mo_again : ma_size (map_query_again fw) + ma_descriptor_size (map_query_again fw) ≤ MAP_BUFFER_SIZE ∧ ma_status (map_again fw) = EFI_SUCCESS;
  mo_exit : exit_boot_services fw (ma_key (map_again fw)) = EFI_SUCCESS;
}.
(** The first memory map, as the firmware encodes it. *)
Definition first_map (img : loader_image) (fw : firmware) (ds : list EfiMemoryDescriptor) : Prop :=
  ma_status (map_first fw) = EFI_SUCCESS ∧ map_buffer_at img mod 8 = 0 ∧ Forall descriptor_ok ds ∧ Forall fits ds ∧
  ∃ stride rest unused, (40 ≤ stride)%nat ∧ (stride mod 8 = 0)%nat ∧ (length rest < stride)%nat ∧ Z.of_nat (length ds) * Z.of_nat stride < 2 ^ 64 ∧
    ma_descriptor_size (map_first fw) = Z.of_nat stride ∧ ma_size (map_first fw) = Z.of_nat (length (encode_descriptors stride ds ++ rest)) ∧
    ma_buffer (map_first fw) = (encode_descriptors stride ds ++ rest) ++ unused.
Definition boot_start (m : bmem) : boot := mkBoot boot_tables_new m BootInfo_new 0.
(** The boot information before the memory map. *)
Definition early_info (fw : firmware) : BootInfo :=
  let '(base, size, width, height) := gop_mode fw in set_rsdp (rsdp_of (configuration_table fw) 0) (set_framebuffer (mkFb base size width height width) BootInfo_new).
(** What the kernel finds when it is entered. *)
Record handed_over (img : loader_image) (f : list Z) (m : bmem) (info : BootInfo) (s : boot) : Prop := {
  ho_info : b_info s = info;
  ho_mem : ∀ a, b_mem s a = foldl (place f) (fill_buffer img f m) (phdrs f) a;
  ho_cr3 : b_cr3 s = pml4_at img;
  ho_walk : ∀ v, 0 ≤ v < 2 ^ 64 → walk (loader_table img (b_tables s)) (b_cr3 s) v = boot_view (max_physical_address info) v;
}.

Section main.
Context (img : loader_image) (fw : firmware) (f : list Z) (Hfw : machine_ok img fw f) (Himg : loader_ok img) (m : bmem).

(** From the loading of the kernel on. *)
Lemma efi_main_tail info (Q : boot_end → boot → Prop) : 0 ≤ max_physical_address info → max_physical_address info + 2 ^ 30 < 2 ^ 64 →
  (ma_status (map_first fw) =? EFI_SUCCESS = true → wp (copy_memory_map (map_buffer_at img) (ma_buffer (map_first fw)) (ma_size (map_first fw)) (ma_descriptor_size (map_first fw)))
     (λ _ b, b = info) (early_info fw)) →
  (ma_status (map_first fw) =? EFI_SUCCESS = false → info = early_info fw) →
  (∀ s, handed_over img f m info s → Q (Jump (entry_of f + KERNEL_VMA) (boot_info_at img)) s) → wp (efi_main img fw) Q (boot_start m).
Proof.
  intros Hmax Hfit Hmap Hnomap HQ. destruct Hfw as [Hg (F1 & F2 & F3 & F4) Hfile Helf [He1 He2] [Ha1 Ha2] Hx].
  unfold efi_main. rewrite Hg. rewrite ?Z.eqb_refl; cbn [negb]. unfold early_info in *. destruct (gop_mode fw) as [[[base size] width] height].
  wp_step. apply wp_zoom. wp_step. cbn [b_tables b_mem b_info b_cr3 boot_start]. wp_step. apply wp_zoom. wp_step. cbn [b_tables b_mem b_info b_cr3]. rewrite find_rsdp_spec.
  set (early := set_rsdp _ _) in *. wp_step. apply wp_mono with (Q := λ _ s', s' = mkBoot boot_tables_new m info 0).
  { destruct (ma_status (map_first fw) =? EFI_SUCCESS).
    - apply wp_zoom. cbn [b_tables b_mem b_info b_cr3]. eapply wp_mono; [by apply Hmap|]. by intros [] b ->.
    - wp_step. by rewrite Hnomap. }
  intros [] s ->. unfold load_kernel_elf, read_file. rewrite F1, F2, F3, F4. rewrite ?Z.eqb_refl; cbn [negb]. wp_step. wp_step. apply wp_zoom. wp_step. apply wp_zoom. cbn [b_tables b_mem b_info b_cr3].
  rewrite Hfile. apply (load_elf_spec img f Helf); [by apply (read_file_holds img f Helf)|]. intros m' Hm'.
  rewrite (proj2 (Z.eqb_neq _ _)) by lia. wp_step. wp_step; [apply cadd_some; unfold MAP_BUFFER_SIZE in Ha1; lia|].
  rewrite (proj2 (Z.ltb_ge _ _)) by exact Ha1. rewrite Ha2. rewrite ?Z.eqb_refl; cbn [negb]. rewrite Hx, Z.eqb_refl. cbn [negb]. wp_step. wp_step. cbn [b_info].
  wp_step. apply wp_zoom. cbn [b_tables b_mem b_info b_cr3]. apply setup_spec; [done|done|]. cbv beta. unfold load_page_tables. wp_step. wp_step. cbn [b_tables b_mem b_info].
  wp_step. wp_step; [by apply cadd_some|]. wp_step. apply HQ. split; cbn [b_tables b_mem b_info b_cr3]; [done|exact Hm'|done|]. intros v Hv. by apply walk_boot.
Qed.

(** C23: On a machine whose firmware answers, the loader jumps to the kernel's
    entry point in the upper half with the address of the boot information;
    that holds the frame buffer, the ACPI root pointer and the first memory
    map; memory holds the kernel; the processor walks the new tables, under
    which the entry point, when its page is below the size of memory and 8 GiB,
    is the physical address the kernel was loaded for. *)
Theorem efi_main_correct ds (Hds : first_map img fw ds) (Hhigh : max_end ds 0 + 2 ^ 30 < 2 ^ 64) :
  ∃ s', efi_main img fw (boot_start m) = Some (Jump (entry_of f + KERNEL_VMA) (boot_info_at img), s') ∧
    handed_over img f m (with_map ds (early_info fw)) s' ∧
    (foldl offset_step None (phdrs f) = Some KERNEL_VMA → entry_of f + KERNEL_VMA = e_entry_of f) ∧
    (entry_of f < 2 ^ 33 → entry_of f / 2 ^ 21 * 2 ^ 21 < max_end ds 0 →
       walk (loader_table img (b_tables s')) (b_cr3 s') (entry_of f + KERNEL_VMA) = Some (mkMapping (entry_of f) true false false)).
Proof.
  destruct Hds as (Hst & Hal & Hdok & Hdf & stride & rest & unused & Hs & Hm8 & Hrest & Hsz & Eds & Esz & Ebuf).
  assert (Hw : wp (efi_main img fw) (λ r s', r = Jump (entry_of f + KERNEL_VMA) (boot_info_at img) ∧ handed_over img f m (with_map ds (early_info fw)) s') (boot_start m)).
  { apply (efi_main_tail (with_map ds (early_info fw))); [apply max_end_le|exact Hhigh| |by rewrite Hst|done].
    intros _. rewrite Eds, Esz, Ebuf. apply copy_memory_map_spec; try done; lia. }
  apply wp_run in Hw as (r & s' & Hrun & -> & Hho). exists s'. split; [exact Hrun|]. split; [exact Hho|]. split.
  - intros Ho. unfold entry_of. rewrite Ho. cbn [default from_option id]. lia.
  - intros Hlow Hpage. destruct (mo_entry _ _ _ Hfw) as [He1 He2]. rewrite (ho_walk _ _ _ _ _ Hho) by (unfold KERNEL_VMA in *; lia). unfold boot_view.
    rewrite (proj2 (Z.leb_le KERNEL_VMA _)) by lia. cbv zeta. replace (entry_of f + KERNEL_VMA - KERNEL_VMA) with (entry_of f) by lia.
    change (max_physical_address (with_map ds (early_info fw))) with (max_end ds 0). by rewrite (proj2 (Z.ltb_lt (entry_of f) _)), (proj2 (Z.ltb_lt _ (max_end ds 0))) by done.
Qed.
End main.

(** ** What halts it *)
Definition files_ok (fw : firmware) : bool :=
  (sfs_status fw =? EFI_SUCCESS) && (volume_status fw =? EFI_SUCCESS) && (open_status fw =? EFI_SUCCESS) && (read_status fw =? EFI_SUCCESS).
(** The first check that fails, in the order of the loader. *)
Definition verdict (fw : firmware) : option halt_reason :=
  if negb (gop_status fw =? EFI_SUCCESS) then Some NoGop
  else if negb (files_ok fw && elf_magic (kernel_file fw) && negb (entry_of (kernel_file fw) =? 0)) then Some NoKernel
  else if MAP_BUFFER_SIZE <? ma_size (map_query_again fw) + ma_descriptor_size (map_query_again fw) then Some MapTooLarge
  else if negb (ma_status (map_again fw) =? EFI_SUCCESS) then Some NoMap
  else if negb (exit_boot_services fw (ma_key (map_again fw)) =? EFI_SUCCESS) then Some ExitFailed
  else None.
(** The kernel file, when it is read: a sound one, or one without the header. *)
Definition file_sane (img : loader_image) (f : list Z) : Prop :=
  elf_ok img f ∨ elf_magic f = false ∧ (5 ≤ length f)%nat ∧ Z.of_nat (length f) ≤ FILE_BUFFER_SIZE ∧ file_buffer_at img mod 8 = 0 ∧ 0 ≤ file_buffer_at img.
(** The first memory map is the encoding of [ds], or the firmware did not give one and [ds] is empty. *)
Definition map_sane (img : loader_image) (fw : firmware) (ds : list EfiMemoryDescriptor) : Prop :=
  first_map img fw ds ∨ ma_status (map_first fw) ≠ EFI_SUCCESS ∧ ds = [].
Definition info_of (fw : firmware) (ds : list EfiMemoryDescriptor) : BootInfo :=
  if ma_status (map_first fw) =? EFI_SUCCESS then with_map ds (early_info fw) else early_info fw.

Lemma bad_elf_spec img f m : elf_magic f = false → (5 ≤ length f)%nat → Z.of_nat (length f) ≤ FILE_BUFFER_SIZE → file_buffer_at img mod 8 = 0 → 0 ≤ file_buffer_at img →
  load_elf img (fill_buffer img f m) = Some (0, fill_buffer img f m).
Proof.
  intros Hmag Hlen Hsz Hal H0. assert (Hh : holds img f (fill_buffer img f m)).
  { intros i b Hb. pose proof (lookup_lt_Some _ _ _ Hb). unfold fill_buffer. replace (Z.to_nat (file_buffer_at img + Z.of_nat i - file_buffer_at img)) with i by lia.
    rewrite lookup_take_lt by (unfold FILE_BUFFER_SIZE in *; lia). rewrite Hb. by rewrite (proj2 (Z.leb_le _ _)) by lia. }
  assert (Hw : wp (load_elf img) (λ r m', r = 0 ∧ m' = fill_buffer img f m) (fill_buffer img f m)).
  { unfold load_elf, file_ref. wp_step. wp_step. wp_step.
    { rewrite Z.add_0_r. apply andb_true_iff. split; [apply Z.leb_le; unfold ELF_HEADER_SIZE, FILE_BUFFER_SIZE; lia|by apply Z.eqb_eq]. }
    wp_step. wp_step. unfold is_valid. replace (file_buffer_at img + 0) with (file_buffer_at img) by lia. wp_step. replace (file_buffer_at img) with (file_buffer_at img + 0) at 1 by lia.
    apply (wp_load_le img f); [done|lia|lia|]. wp_step. apply (wp_load_le img f); [done|lia|lia|]. wp_step. unfold elf_magic in Hmag. rewrite Hmag. cbn [negb]. by wp_step. }
  apply wp_run in Hw as (r & m' & Hrun & -> & ->). exact Hrun.
Qed.

(** How a run ends, by what it looked at. *)
Definition statuses_ok (fw : firmware) : Prop :=
  gop_status fw = EFI_SUCCESS ∧ sfs_status fw = EFI_SUCCESS ∧ volume_status fw = EFI_SUCCESS ∧ open_status fw = EFI_SUCCESS ∧ read_status fw = EFI_SUCCESS ∧
  ma_size (map_query_again fw) + ma_descriptor_size (map_query_again fw) ≤ MAP_BUFFER_SIZE ∧ ma_status (map_again fw) = EFI_SUCCESS ∧ exit_boot_services fw (ma_key (map_again fw)) = EFI_SUCCESS.
Definition same_tables (s s' : boot) : Prop := b_tables s' = b_tables s ∧ b_cr3 s' = b_cr3 s.
Lemma on_info_keeps {A} (k : M BootInfo A) s r s' : on_info k s = Some (r, s') → same_tables s s'.
Proof. unfold on_info, zoom. destruct (k (b_info s)) as [[x i]|]; [|done]. by intros [= <- <-]. Qed.
Lemma on_bmem_keeps {A} (k : M bmem A) s r s' : on_bmem k s = Some (r, s') → same_tables s s'.
Proof. unfold on_bmem, zoom. destruct (k (b_mem s)) as [[x i]|]; [|done]. by intros [= <- <-]. Qed.
Lemma same_tables_trans s1 s2 s3 : same_tables s1 s2 → same_tables s2 s3 → same_tables s1 s3.
Proof. intros [A B] [C D]. split; [by rewrite C|by rewrite D]. Qed.
Lemma load_kernel_elf_inv img fw s r s' : load_kernel_elf img fw s = Some (r, s') → same_tables s s' ∧
  (r = 0 ∨ sfs_status fw = EFI_SUCCESS ∧ volume_status fw = EFI_SUCCESS ∧ open_status fw = EFI_SUCCESS ∧ read_status fw = EFI_SUCCESS).
Proof.
  unfold load_kernel_elf, mret, M_ret. destruct (Z.eqb_spec (sfs_status fw) EFI_SUCCESS); cbn [negb]; [|intros [= <- <-]; split; [done|by left]].
  destruct (Z.eqb_spec (volume_status fw) EFI_SUCCESS); cbn [negb]; [|intros [= <- <-]; split; [done|by left]].
  destruct (Z.eqb_spec (open_status fw) EFI_SUCCESS); cbn [negb]; [|intros [= <- <-]; split; [done|by left]].
  unfold mbind, M_bind. destruct (on_bmem (read_file img (kernel_file fw)) s) as [[[] s1]|] eqn:E1; [|done]. apply on_bmem_keeps in E1.
  destruct (Z.eqb_spec (read_status fw) EFI_SUCCESS); cbn [negb]; [|intros [= <- <-]; split; [done|by left]].
  intros E2%on_bmem_keeps. split; [by eapply same_tables_trans|by right].
Qed.
Lemma efi_main_inv img fw s r s' : efi_main img fw s = Some (r, s') → match r with Halted _ => same_tables s s' | Jump _ _ => statuses_ok fw end.
Proof.
  unfold efi_main, mret, M_ret. destruct (Z.eqb_spec (gop_status fw) EFI_SUCCESS); cbn [negb]; [|by intros [= <- <-]].
  destruct (gop_mode fw) as [[[base size] width] height]. unfold mbind, M_bind.
  destruct (on_info _ s) as [[[] s1]|] eqn:E1; [|done]. apply on_info_keeps in E1.
  destruct (on_info _ s1) as [[[] s2]|] eqn:E2; [|done]. apply on_info_keeps in E2. pose proof (same_tables_trans _ _ _ E1 E2) as H2.
  match goal with |- context [match ?x s2 with _ => _ end] => destruct (x s2) as [[[] s3]|] eqn:E3; [|done] end.
  assert (H3 : same_tables s s3).
  { eapply same_tables_trans; [exact H2|]. destruct (ma_status (map_first fw) =? EFI_SUCCESS); [by eapply on_info_keeps|by injection E3 as ->]. }
  destruct (load_kernel_elf img fw s3) as [[entry s4]|] eqn:E4; [|done]. apply load_kernel_elf_inv in E4 as [E4 Hr]. pose proof (same_tables_trans _ _ _ H3 E4) as H4.
  destruct (Z.eqb_spec entry 0); [by intros [= <- <-]|]. destruct Hr as [?|(F1 & F2 & F3 & F4)]; [done|].
  unfold lift at 1. destruct (cadd 64 (ma_size (map_query_again fw)) _) as [size'|] eqn:Esize; [|done].
  assert (Es : size' = ma_size (map_query_again fw) + ma_descriptor_size (map_query_again fw)) by (unfold cadd in Esize; destruct (_ <? _); [by injection Esize as <-|done]).
  destruct (Z.ltb_spec MAP_BUFFER_SIZE size'); [by intros [= <- <-]|]. destruct (Z.eqb_spec (ma_status (map_again fw)) EFI_SUCCESS); cbn [negb]; [|by intros [= <- <-]].
  destruct (Z.eqb_spec (exit_boot_services fw (ma_key (map_again fw))) EFI_SUCCESS); cbn [negb]; [|by intros [= <- <-]].
  unfold gets. destruct (on_tables _ s4) as [[a s5]|]; [|done]. unfold load_page_tables, modify, lift. destruct (cadd 64 entry KERNEL_VMA); [|done].
  intros [= <- <-]. rewrite Es in *. by repeat split.
Qed.

Section verdicts.
Context (img : loader_image) (fw : firmware) (m : bmem) (ds : list EfiMemoryDescriptor).
Notation f := (kernel_file fw).

Lemma load_kernel_elf_spec s : (files_ok fw = true → file_sane img f) →
  wp (load_kernel_elf img fw) (λ r s', same_tables s s' ∧ b_info s' = b_info s ∧
    if files_ok fw && elf_magic f then r = entry_of f ∧ ∀ a, b_mem s' a = foldl (place f) (fill_buffer img f (b_mem s)) (phdrs f) a else r = 0) s.
Proof.
  unfold load_kernel_elf, files_ok. intros Hf.
  destruct (sfs_status fw =? EFI_SUCCESS); cbn [negb andb] in *; [|by wp_step].
  destruct (volume_status fw =? EFI_SUCCESS); cbn [negb andb] in *; [|by wp_step].
  destruct (open_status fw =? EFI_SUCCESS); cbn [negb andb] in *; [|by wp_step].
  wp_step. unfold read_file. apply wp_zoom. wp_step. cbn [b_tables b_mem b_info b_cr3].
  destruct (read_status fw =? EFI_SUCCESS); cbn [negb andb] in *; [|by wp_step].
  apply wp_zoom. cbn [b_tables b_mem b_info b_cr3]. destruct (Hf eq_refl) as [Hok|(Hmag & Hlen & Hsz & Hal & H0)].
  - rewrite (eo_magic _ _ Hok). apply (load_elf_spec img f Hok); [by apply read_file_holds|]. intros m' Hm'. done.
  - rewrite Hmag. unfold wp. by rewrite bad_elf_spec.
Qed.

Lemma efi_main_verdict (Himg : loader_ok img) (Hmap : map_sane img fw ds) (Hfile : files_ok fw = true → file_sane img f)
  (Hsize : 0 ≤ ma_size (map_query_again fw) + ma_descriptor_size (map_query_again fw) < 2 ^ 64) (Hhigh : max_end ds 0 + 2 ^ 30 < 2 ^ 64) (Hentry : 0 ≤ entry_of f < 2 ^ 64 - KERNEL_VMA) :
  wp (efi_main img fw) (λ r s', match verdict fw with
    | Some reason => r = Halted reason ∧ same_tables (boot_start m) s'
    | None => r = Jump (entry_of f + KERNEL_VMA) (boot_info_at img) ∧ handed_over img f m (info_of fw ds) s'
    end) (boot_start m).
Proof.
  unfold efi_main, verdict. destruct (gop_status fw =? EFI_SUCCESS) eqn:Hg; cbn [negb]; [|by wp_step].
  assert (Hearly : max_physical_address (early_info fw) = 0) by (unfold early_info; by destruct (gop_mode fw) as [[[? ?] ?] ?]).
  assert (Hmaxi : 0 ≤ max_physical_address (info_of fw ds) ∧ max_physical_address (info_of fw ds) + 2 ^ 30 < 2 ^ 64).
  { unfold info_of. destruct (ma_status (map_first fw) =? EFI_SUCCESS).
    - split; [apply max_end_le|exact Hhigh].
    - rewrite Hearly. lia. }
  assert (Hcopy : ma_status (map_first fw) =? EFI_SUCCESS = true → wp (copy_memory_map (map_buffer_at img) (ma_buffer (map_first fw)) (ma_size (map_first fw)) (ma_descriptor_size (map_first fw)))
     (λ _ b, b = info_of fw ds) (early_info fw)).
  { intros Hst. destruct Hmap as [Hds|[Hno _]]; [|by apply Z.eqb_eq in Hst]. destruct Hds as (_ & Hal & Hdok & Hdf & stride & rest & unused & Hs & Hm8 & Hrest & Hsz & Eds & Esz & Ebuf).
    unfold info_of. rewrite Hst, Eds, Esz, Ebuf. apply copy_memory_map_spec; try done; lia. }
  unfold early_info in Hcopy. destruct (gop_mode fw) as [[[base size] width] height] eqn:Em.
  wp_step. apply wp_zoom. wp_step. cbn [b_tables b_mem b_info b_cr3 boot_start]. wp_step. apply wp_zoom. wp_step. cbn [b_tables b_mem b_info b_cr3]. rewrite find_rsdp_spec.
  wp_step. apply wp_mono with (Q := λ _ s', s' = mkBoot boot_tables_new m (info_of fw ds) 0).
  { destruct (ma_status (map_first fw) =? EFI_SUCCESS) eqn:Est.
    - apply wp_zoom. cbn [b_tables b_mem b_info b_cr3]. eapply wp_mono; [by apply Hcopy|]. by intros [] b ->.
    - wp_step. unfold info_of. rewrite Est. unfold early_info. by rewrite Em. }
  intros [] s ->. wp_step. eapply wp_mono; [by apply load_kernel_elf_spec|]. cbv beta. intros entry s (Hsame & Hinfo & Hr). cbn [b_info] in Hinfo.
  assert (Hkeep : same_tables (boot_start m) s) by exact Hsame. clear Hsame.
  destruct (files_ok fw && elf_magic f); cbn [andb negb]; [|subst entry; rewrite Z.eqb_refl; by wp_step]. destruct Hr as [-> Hmem]. cbn [b_mem] in Hmem.
  destruct (Z.eqb_spec (entry_of f) 0) as [|Hne]; cbn [negb]; [by wp_step|].
  wp_step. wp_step; [apply cadd_some; lia|]. destruct (MAP_BUFFER_SIZE <? _); [by wp_step|].
  destruct (ma_status (map_again fw) =? EFI_SUCCESS); cbn [negb]; [|by wp_step].
  destruct (exit_boot_services fw _ =? EFI_SUCCESS); cbn [negb]; [|by wp_step].
  wp_step. wp_step. rewrite Hinfo. destruct Hkeep as [Kt Kc]. cbn [boot_start b_tables b_cr3] in Kt, Kc.
  wp_step. apply wp_zoom. cbn [b_tables b_mem b_info b_cr3]. rewrite Kt. apply setup_spec; [apply Hmaxi|apply Hmaxi|]. cbv beta. unfold load_page_tables. wp_step. wp_step. cbn [b_tables b_mem b_info].
  wp_step. wp_step; [apply cadd_some; lia|]. wp_step. split; [done|]. split; cbn [b_tables b_mem b_info b_cr3]; [exact Hinfo|exact Hmem|done|]. intros v Hv. apply walk_boot; try done; try apply Hmaxi.
Qed.
End verdicts.

(** C36: How the loader ends, over the firmware's answers.  With a first memory map
    that is sound or refused, and a kernel file that is sound or has no valid
    ELF header, it comes to an end, and its end is the first check that fails in
    this order: no frame buffer; no kernel, which is one of the four statuses
    of the file's calls, the header, or an entry point of zero; a second map
    larger than the buffer; no second map; boot services not left. Whichever
    fails, it halts there and has touched neither its tables nor the
    processor's.  When none does, it jumps to the kernel as prepared.  The
    status of the first memory map is not among them: when only that fails, it
    jumps under tables in which no address is mapped.  Whatever the answers
    (unsound ones included, on which it may panic), a run that halts keeps the
    tables and a run that jumps has seen every status succeed and the map fit. *)
Theorem efi_main_errors img fw m ds (Himg : loader_ok img) (Hmap : map_sane img fw ds) (Hfile : files_ok fw = true → file_sane img (kernel_file fw))
  (Hsize : 0 ≤ ma_size (map_query_again fw) + ma_descriptor_size (map_query_again fw) < 2 ^ 64) (Hhigh : max_end ds 0 + 2 ^ 30 < 2 ^ 64)
  (Hentry : 0 ≤ entry_of (kernel_file fw) < 2 ^ 64 - KERNEL_VMA) :
  (∃ s', efi_main img fw (boot_start m) =
      Some (match verdict fw with Some reason => Halted reason | None => Jump (entry_of (kernel_file fw) + KERNEL_VMA) (boot_info_at img) end, s') ∧
    match verdict fw with
    | Some _ => b_tables s' = boot_tables_new ∧ b_cr3 s' = 0
    | None => handed_over img (kernel_file fw) m (info_of fw ds) s' ∧
        (ma_status (map_first fw) ≠ EFI_SUCCESS → ∀ v, 0 ≤ v < 2 ^ 64 → walk (loader_table img (b_tables s')) (b_cr3 s') v = None)
    end) ∧
  (∀ fw s r s', efi_main img fw s = Some (Halted r, s') → b_tables s' = b_tables s ∧ b_cr3 s' = b_cr3 s) ∧
  (∀ fw s e a s', efi_main img fw s = Some (Jump e a, s') → statuses_ok fw).
Proof.
  split; [|split; [intros ? s r s' H; exact (efi_main_inv _ _ _ _ _ H)|intros ? s e a s' H; exact (efi_main_inv _ _ _ _ _ H)]].
  pose proof (efi_main_verdict img fw m ds Himg Hmap Hfile Hsize Hhigh Hentry) as Hw. apply wp_run in Hw as (r & s' & Hrun & Hend).
  exists s'. destruct (verdict fw) as [reason|]; destruct Hend as [-> Hend]; (split; [exact Hrun|]); [exact Hend|]. split; [exact Hend|].
  intros Hst v Hv. rewrite (ho_walk _ _ _ _ _ Hend) by done. assert (Hmax : max_physical_address (info_of fw ds) = 0).
  { unfold info_of. rewrite (proj2 (Z.eqb_neq _ _)) by done. unfold early_info. by destruct (gop_mode fw) as [[[? ?] ?] ?]. }
  rewrite Hmax. unfold boot_view. rewrite (proj2 (Z.ltb_ge _ 0)); [by rewrite andb_false_r|]. destruct (Z.leb_spec KERNEL_VMA v); dlia.
Qed.
(** ** Witnesses: a small kernel file and a memory map *)
Definition demo_image : loader_image :=
  mkLoaderImage 0x4000000 0x4001000 0x4002000 0x4003000 0x400B000 0x4100000 0x4013000 0x4020000.
Definition demo_file : list Z :=
  [0x7f; 69; 76; 70; 2; 1; 1; 0] ++ replicate 8 0 ++ to_le 2 2 ++ to_le 2 62 ++ to_le 4 1 ++ to_le 8 (KERNEL_VMA + 0x100004) ++ to_le 8 64 ++ to_le 8 0 ++
  to_le 4 0 ++ to_le 2 64 ++ to_le 2 56 ++ to_le 2 2 ++ to_le 2 0 ++ to_le 2 0 ++ to_le 2 0 ++
  (to_le 4 1 ++ to_le 4 7 ++ to_le 8 176 ++ to_le 8 (KERNEL_VMA + 0x100000) ++ to_le 8 0x100000 ++ to_le 8 8 ++ to_le 8 16 ++ to_le 8 4096) ++
  (to_le 4 4 ++ to_le 4 0 ++ to_le 8 0 ++ to_le 8 0 ++ to_le 8 0 ++ to_le 8 0 ++ to_le 8 0 ++ to_le 8 0) ++ [1; 2; 3; 4; 0xF4; 0xEB; 0xFD; 0x90].
Definition demo_descriptors : list EfiMemoryDescriptor :=
  [mkDescriptor 7 0 0 0xA0 15; mkDescriptor 7 0x100000 0 0x3F00 15; mkDescriptor 2 0x4000000 0 0x1000 15; mkDescriptor 11 0xFEC00000 0 1 1].
Definition demo_map : map_answer :=
  mkMapAnswer 0 (Z.of_nat (length (encode_descriptors 48 demo_descriptors ++ []))) 77 48 ((encode_descriptors 48 demo_descriptors ++ []) ++ replicate 64 0).
Definition no_map : map_answer := mkMapAnswer 0x8000000000000005 0 0 48 [].
Definition demo_firmware (first : map_answer) : firmware :=
  mkFirmware 0 (0x80000000, 0x300000, 1024, 768) first (mkMapAnswer 0 192 78 48 []) demo_map
    [mkConfigTable EFI_ACPI_TABLE_GUID 0x7F000; mkConfigTable EFI_ACPI_20_TABLE_GUID 0x7E000] 0 0 0 0 demo_file (λ key, if key =? 77 then 0 else 1).

Lemma demo_loader_ok : loader_ok demo_image.
Proof.
  split.
  - intros a Ha. rewrite !elem_of_cons, elem_of_nil in Ha.
    destruct Ha as [->|[->|[->|[->|[->|[]]]]]]; (split; [apply Z.mod_divide; [lia|reflexivity]|cbn; lia]).
  - vm_compute. rewrite !list.NoDup_cons, !elem_of_cons, !elem_of_nil. repeat split; [intros [?|[?|[]]]; discriminate|intros [?|[]]; discriminate|tauto|apply NoDup_nil_2].
  - left. cbn. lia.
  - intros a b Ha Hb. left. rewrite !elem_of_cons, elem_of_nil in Ha. rewrite !elem_of_cons, elem_of_nil in Hb. destruct Ha as [->|[->|[->|[]]]], Hb as [->|[->|[]]]; reflexivity.
Qed.
Lemma demo_phdrs : phdrs demo_file = [mkPhdr 1 176 (KERNEL_VMA + 0x100000) 0x100000 8 16; mkPhdr 4 0 0 0 0 0].
Proof. vm_compute. reflexivity. Qed.
Lemma demo_elf_ok : elf_ok demo_image demo_file.
Proof.
  split.
  - apply Forall_forall. intros b Hb. assert (H : forallb (λ b, (0 <=? b) && (b <? 256)) demo_file = true) by (vm_compute; reflexivity).
    rewrite forallb_forall in H. specialize (H b Hb). apply andb_true_iff in H as [?%Z.leb_le ?%Z.ltb_lt]. unfold is_byte. lia.
  - vm_compute. split; discriminate.
  - split; [reflexivity|cbn; lia].
  - vm_compute. reflexivity.
  - vm_compute. split; [reflexivity|discriminate].
  - rewrite demo_phdrs. intros ph Hph Hl. rewrite !elem_of_cons, elem_of_nil in Hph. destruct Hph as [->|[->|[]]]; [|discriminate].
    split; cbn; unfold KERNEL_VMA; [vm_compute; discriminate|lia|left; lia|lia].
  - vm_compute. discriminate.
Qed.
Lemma demo_machine first : machine_ok demo_image (demo_firmware first) demo_file.
Proof.
  split.
  - reflexivity.
  - repeat split; reflexivity.
  - reflexivity.
  - exact demo_elf_ok.
  - split; vm_compute; reflexivity.
  - split; [vm_compute; discriminate|reflexivity].
  - vm_compute. reflexivity.
Qed.
Lemma demo_descriptors_ok : Forall descriptor_ok demo_descriptors ∧ Forall fits demo_descriptors.
Proof. split; repeat constructor; vm_compute; try discriminate; reflexivity. Qed.

Lemma boot_paging_correct_witness : ∃ s', setup_initial_page_tables demo_image 0x5000000 boot_tables_new = Some (0x4000000, s') ∧
  walk (loader_table demo_image s') 0x4000000 (KERNEL_VMA + 0x123456) = Some (mkMapping 0x123456 true false false) ∧
  walk (loader_table demo_image s') 0x4000000 0x5200000 = None.
Proof.
  destruct (boot_paging_correct demo_image 0x5000000 demo_loader_ok ltac:(lia)) as [H _]. destruct (H ltac:(lia)) as (s' & Hrun & Hw).
  exists s'. split; [exact Hrun|]. split; [apply (Hw (KERNEL_VMA + 0x123456)); unfold KERNEL_VMA; lia|apply (Hw 0x5200000); lia].
Defined.
Lemma memory_map_correct_witness : ∃ b', copy_memory_map 0x4020000 (ma_buffer demo_map) (ma_size demo_map) 48 BootInfo_new = Some (tt, b') ∧
  memory_map_count b' = 4 ∧ memory_map b' !! 1%nat = Some (mkRegion 0x100000 0x3F00000 7).
Proof.
  destruct demo_descriptors_ok as [H1 H2].
  destruct (memory_map_correct 0x4020000 48 demo_descriptors [] (replicate 64 0) BootInfo_new eq_refl ltac:(lia) eq_refl H1 H2 ltac:(cbn; lia) ltac:(cbn; lia))
    as (b' & Hrun & Hc & Hm & _).
  exists b'. split; [exact Hrun|]. split; [exact Hc|]. apply (Hm 1%nat (mkDescriptor 7 0x100000 0 0x3F00 15)); [reflexivity|apply Nat.ltb_lt; vm_compute; reflexivity].
Defined.
Lemma load_elf_correct_witness : let m := fill_buffer demo_image demo_file (λ _, 0xAA) in
  ∃ m', load_elf demo_image m = Some (0x100004, m') ∧ m' 0x100004 = 0xF4 ∧ m' 0x10000A = 0 ∧ m' 0x100010 = m 0x100010.
Proof.
  intros m. destruct (load_elf_correct demo_image demo_file m demo_elf_ok (read_file_holds _ _ demo_elf_ok _)) as [(m' & Hrun & Hrest & Hseg) _].
  rewrite demo_phdrs in Hrest, Hseg. set (seg := mkPhdr 1 176 (KERNEL_VMA + 0x100000) 0x100000 8 16) in *.
  assert (Hap : ForallOrdPairs apart [seg; mkPhdr 4 0 0 0 0 0]).
  { constructor; [constructor; [|constructor]|constructor; [constructor|constructor]]. intros _ H. discriminate. }
  assert (He : entry_of demo_file = 0x100004) by (vm_compute; reflexivity). rewrite He in Hrun.
  exists m'. split; [exact Hrun|]. split; [|split].
  - rewrite (Hseg Hap seg 0x100004); [vm_compute; reflexivity|by left|reflexivity|vm_compute; split; [discriminate|reflexivity]].
  - rewrite (Hseg Hap seg 0x10000A); [vm_compute; reflexivity|by left|reflexivity|vm_compute; split; [discriminate|reflexivity]].
  - apply Hrest. intros ph Hph Hl. rewrite !elem_of_cons, elem_of_nil in Hph. destruct Hph as [->|[->|[]]]; [right; vm_compute; discriminate|discriminate].
Defined.
Lemma efi_main_correct_witness : ∃ s', efi_main demo_image (demo_firmware demo_map) (boot_start (λ _, 0)) = Some (Jump (KERNEL_VMA + 0x100004) 0x4013000, s') ∧
  rsdp_address (b_info s') = 0x7E000 ∧ walk (loader_table demo_image (b_tables s')) (b_cr3 s') (KERNEL_VMA + 0x100004) = Some (mkMapping 0x100004 true false false).
Proof.
  destruct demo_descriptors_ok as [H1 H2].
  destruct (efi_main_correct demo_image (demo_firmware demo_map) demo_file (demo_machine _) demo_loader_ok (λ _, 0) demo_descriptors) as (s' & Hrun & Hho & _ & Hw).
  - split; [reflexivity|]. split; [reflexivity|]. split; [exact H1|]. split; [exact H2|]. exists 48%nat, [], (replicate 64 0).
    split; [lia|]. split; [reflexivity|]. split; [cbn; lia|]. split; [cbn; lia|]. split; [reflexivity|]. split; reflexivity.
  - vm_compute. reflexivity.
  - assert (He : entry_of demo_file = 0x100004) by (vm_compute; reflexivity). rewrite He in *. exists s'. split; [exact Hrun|]. split.
    + rewrite (ho_info _ _ _ _ _ Hho). reflexivity.
    + apply Hw; vm_compute; reflexivity.
Defined.
(** Witness: a refused first map still jumps; a kernel file that is no ELF file halts. *)
Definition text_firmware : firmware :=
  mkFirmware 0 (0x80000000, 0x300000, 1024, 768) demo_map (mkMapAnswer 0 192 78 48 []) demo_map [] 0 0 0 0 (replicate 24 0x20 ++ to_le 8 0x100004 ++ replicate 32 0) (λ _, 0).
Lemma efi_main_errors_witness :
  (∃ s', efi_main demo_image (demo_firmware no_map) (boot_start (λ _, 0)) = Some (Jump (KERNEL_VMA + 0x100004) 0x4013000, s') ∧
    walk (loader_table demo_image (b_tables s')) (b_cr3 s') (KERNEL_VMA + 0x100004) = None) ∧
  ∃ s', efi_main demo_image text_firmware (boot_start (λ _, 0)) = Some (Halted NoKernel, s') ∧ b_cr3 s' = 0.
Proof.
  assert (He : entry_of demo_file = 0x100004) by (vm_compute; reflexivity). destruct demo_descriptors_ok as [Hd1 Hd2]. split.
  - destruct (efi_main_errors demo_image (demo_firmware no_map) (λ _, 0) [] demo_loader_ok) as [(s' & Hrun & Hend) _].
    + right. split; [discriminate|reflexivity].
    + intros _. left. exact demo_elf_ok.
    + cbn. lia.
    + vm_compute. reflexivity.
    + change (kernel_file (demo_firmware no_map)) with demo_file. rewrite He. unfold KERNEL_VMA. lia.
    + assert (Hv : verdict (demo_firmware no_map) = None) by (vm_compute; reflexivity). rewrite Hv in *. change (kernel_file (demo_firmware no_map)) with demo_file in Hrun. rewrite He in Hrun.
      exists s'. split; [exact Hrun|]. apply Hend; [discriminate|unfold KERNEL_VMA; lia].
  - destruct (efi_main_errors demo_image text_firmware (λ _, 0) demo_descriptors demo_loader_ok) as [(s' & Hrun & Hend) _].
    + left. split; [reflexivity|]. split; [reflexivity|]. split; [exact Hd1|]. split; [exact Hd2|]. exists 48%nat, [], (replicate 64 0).
      split; [lia|]. split; [reflexivity|]. split; [cbn; lia|]. split; [cbn; lia|]. split; [reflexivity|]. split; reflexivity.
    + intros _. right. split_and!; [reflexivity|vm_compute; lia|vm_compute; discriminate|reflexivity|cbn; lia].
    + cbn. lia.
    + vm_compute. reflexivity.
    + vm_compute. split; [discriminate|reflexivity].
    + assert (Hv : verdict text_firmware = Some NoKernel) by (vm_compute; reflexivity). rewrite Hv in *. exists s'. split; [exact Hrun|]. apply Hend.
Defined.
