(* ===== verification/Cpu.v ===== *)
(** * The processor: registers, segments and interrupts.

    The specification of x86-64 that the descriptor tables and the interrupt
    handlers are proved against: loading a segment register reads a descriptor
    from the GDT in memory, LTR wants an available TSS and marks it busy, an
    interrupt reads its gate from the IDT, may take its stack from the TSS and
    pushes a frame that IRETQ takes off.  [None] is an exception the instruction
    raises.  The kernel has no user mode, so a change of privilege is not here.
    Memory is bytes; [writable] is the translation's answer for a write, and only
    the stack is checked against it. *)
From S2P Require Import Prelude X86.
Set Default Goal Selector "!".

Inductive reg := RAX | RCX | RDX | RBX | RSP | RBP | RSI | RDI | R8 | R9 | R10 | R11 | R12 | R13 | R14 | R15.
Inductive sreg := DS | ES | FS | GS | SS.
#[export] Instance reg_eq_dec : EqDecision reg.
Proof. solve_decision. Defined.
#[export] Instance sreg_eq_dec : EqDecision sreg.
Proof. solve_decision. Defined.

Definition bytemem : Type := Z → Z.
Record mach := mkMach {
  rg : reg → Z; rip : Z; rflags : Z; cs : Z; sr : sreg → Z;
  gdtr_limit : Z; gdtr_base : Z; idtr_limit : Z; idtr_base : Z; tr : Z; tss_base : Z; cr2 : Z;
  writable : Z → bool; bytes : bytemem }.

(** ** Memory *)
Definition ld (n : nat) (m : bytemem) (a : Z) : Z := from_le (m <$> seqZ a (Z.of_nat n)).
(** The bytes [bs] from [a] on. *)
Definition put_bytes (a : Z) (bs : list Z) (m : bytemem) : bytemem := λ x,
  if (a <=? x) && (x <? a + Z.of_nat (length bs)) then nth (Z.to_nat (x - a)) bs 0 else m x.
Definition st (n : nat) (a v : Z) (m : bytemem) : bytemem := put_bytes a (to_le n v) m.

(** ** Updates *)
Definition set_rg (r : reg) (v : Z) (s : mach) : mach :=
  mkMach (λ r', if decide (r = r') then v else rg s r') (rip s) (rflags s) (cs s) (sr s) (gdtr_limit s) (gdtr_base s) (idtr_limit s) (idtr_base s) (tr s) (tss_base s) (cr2 s) (writable s) (bytes s).
Definition set_sr (r : sreg) (v : Z) (s : mach) : mach :=
  mkMach (rg s) (rip s) (rflags s) (cs s) (λ r', if decide (r = r') then v else sr s r') (gdtr_limit s) (gdtr_base s) (idtr_limit s) (idtr_base s) (tr s) (tss_base s) (cr2 s) (writable s) (bytes s).
Definition set_bytes (m : bytemem) (s : mach) : mach :=
  mkMach (rg s) (rip s) (rflags s) (cs s) (sr s) (gdtr_limit s) (gdtr_base s) (idtr_limit s) (idtr_base s) (tr s) (tss_base s) (cr2 s) (writable s) m.
Definition set_flow (ip fl sel : Z) (s : mach) : mach :=
  mkMach (rg s) ip fl sel (sr s) (gdtr_limit s) (gdtr_base s) (idtr_limit s) (idtr_base s) (tr s) (tss_base s) (cr2 s) (writable s) (bytes s).
Definition set_gdtr (limit base : Z) (s : mach) : mach :=
  mkMach (rg s) (rip s) (rflags s) (cs s) (sr s) limit base (idtr_limit s) (idtr_base s) (tr s) (tss_base s) (cr2 s) (writable s) (bytes s).
Definition set_idtr (limit base : Z) (s : mach) : mach :=
  mkMach (rg s) (rip s) (rflags s) (cs s) (sr s) (gdtr_limit s) (gdtr_base s) limit base (tr s) (tss_base s) (cr2 s) (writable s) (bytes s).
Definition set_tr (sel base : Z) (s : mach) : mach :=
  mkMach (rg s) (rip s) (rflags s) (cs s) (sr s) (gdtr_limit s) (gdtr_base s) (idtr_limit s) (idtr_base s) sel base (cr2 s) (writable s) (bytes s).
Definition set_cr2 (a : Z) (s : mach) : mach :=
  mkMach (rg s) (rip s) (rflags s) (cs s) (sr s) (gdtr_limit s) (gdtr_base s) (idtr_limit s) (idtr_base s) (tr s) (tss_base s) a (writable s) (bytes s).
Definition write_mem (a : Z) (bs : list Z) : M mach unit := modify (λ s, set_bytes (put_bytes a bs (bytes s)) s).

(** ** Descriptors *)
Definition cpl (s : mach) : Z := cs s mod 4.
(** The access byte and the flags of the descriptor a selector names. *)
Definition d_access (s : mach) (sel : Z) : Z := bytes s (gdtr_base s + sel / 8 * 8 + 5).
Definition d_flags (s : mach) (sel : Z) : Z := bytes s (gdtr_base s + sel / 8 * 8 + 6).
Definition d_level (s : mach) (sel : Z) : Z := d_access s sel / 32 mod 4.
(** In the GDT (bit 2 is the LDT's), not the null selector, within the limit, present. *)
Definition in_gdt (s : mach) (sel size : Z) : bool :=
  negb (Z.testbit sel 2) && (0 <? sel / 8) && (sel / 8 * 8 + size - 1 <=? gdtr_limit s) && Z.testbit (d_access s sel) 7.
(** A 64-bit, non-conforming code segment of the current level. *)
Definition code_ok (s : mach) (sel : Z) : bool :=
  in_gdt s sel 8 && Z.testbit (d_access s sel) 4 && Z.testbit (d_access s sel) 3 && negb (Z.testbit (d_access s sel) 2) &&
  Z.testbit (d_flags s sel) 5 && negb (Z.testbit (d_flags s sel) 6) && (d_level s sel =? cpl s).
(** A data segment, or a readable code segment, that may be used from the level asked for. *)
Definition data_ok (s : mach) (sel : Z) : bool :=
  in_gdt s sel 8 && Z.testbit (d_access s sel) 4 && (negb (Z.testbit (d_access s sel) 3) || Z.testbit (d_access s sel) 1) &&
  (Z.max (cpl s) (sel mod 4) <=? d_level s sel).
Definition stack_ok (s : mach) (sel : Z) : bool :=
  in_gdt s sel 8 && Z.testbit (d_access s sel) 4 && negb (Z.testbit (d_access s sel) 3) && Z.testbit (d_access s sel) 1 &&
  (d_level s sel =? cpl s) && (sel mod 4 =? cpl s).
(** The base of a 16-byte system descriptor. *)
Definition system_base (m : bytemem) (a : Z) : Z :=
  ld 2 m (a + 2) + 2 ^ 16 * m (a + 4) + 2 ^ 24 * m (a + 7) + 2 ^ 32 * ld 4 m (a + 8).

(** ** Instructions *)
(** Eight bytes on the stack: both ends must be writable. *)
Definition slot_ok (s : mach) (a : Z) : bool := writable s a && writable s (a + 7).
Definition push (w : Z) : M mach unit :=
  s ← gets id;
  assert_ (slot_ok s (rg s RSP - 8)) ;;
  write_mem (rg s RSP - 8) (to_le 8 w) ;;
  modify (set_rg RSP (rg s RSP - 8)).
Definition pop : M mach Z :=
  s ← gets id; modify (set_rg RSP (rg s RSP + 8)) ;; mret (ld 8 (bytes s) (rg s RSP)).
Definition lgdt (limit base : Z) : M mach unit := modify (set_gdtr limit base).
Definition lidt (limit base : Z) : M mach unit := modify (set_idtr limit base).
(** RETFQ to the same level. *)
Definition retfq : M mach unit :=
  ip ← pop; sel ← pop;
  s ← gets id;
  assert_ (code_ok s sel && (sel mod 4 =? cpl s)) ;;
  modify (set_flow ip (rflags s) sel).
Definition mov_sreg (r : sreg) (sel : Z) : M mach unit :=
  s ← gets id;
  assert_ (match r with SS => stack_ok s sel | _ => (sel / 4 =? 0) || data_ok s sel end) ;;
  modify (set_sr r sel).
(** LTR takes an available 64-bit TSS (type 9) and marks it busy (type 11). *)
Definition ltr (sel : Z) : M mach unit :=
  s ← gets id;
  let a := gdtr_base s + sel / 8 * 8 in
  assert_ (in_gdt s sel 16 && (d_access s sel mod 32 =? 9) && (Z.land (ld 4 (bytes s) (a + 12)) 0x1F00 =? 0)) ;;
  modify (set_tr sel (system_base (bytes s) a)) ;;
  write_mem (a + 5) [Z.lor (d_access s sel) 2].

(** ** Interrupts *)
Record gate := mkGate { g_offset : Z; g_selector : Z; g_ist : Z; g_attributes : Z }.
Definition gate_at (m : bytemem) (a : Z) : gate :=
  mkGate (ld 2 m a + 2 ^ 16 * ld 2 m (a + 6) + 2 ^ 32 * ld 4 m (a + 8)) (ld 2 m (a + 2)) (m (a + 4) mod 8) (m (a + 5)).
(** Present, an interrupt gate (type 14), a usable target. *)
Definition gate_ok (s : mach) (g : gate) : bool :=
  Z.testbit (g_attributes g) 7 && (g_attributes g mod 32 =? 14) && code_ok s (g_selector g) && canonical (g_offset g).
(** The stack: the interrupted one, or entry [ist] of the TSS's table. *)
Definition interrupt_stack (s : mach) (ist : Z) : Z :=
  (if ist =? 0 then rg s RSP else ld 8 (bytes s) (tss_base s + 36 + 8 * (ist - 1))) / 16 * 16.
Definition frame_words (s : mach) (error : option Z) : list Z :=
  [sr s SS; rg s RSP; rflags s; cs s; rip s] ++ match error with Some e => [e] | None => [] end.
(** The words in their slots, from the top down. *)
Definition slots (top : Z) (ws : list Z) : list (Z * Z) := imap (λ i w, (top - 8 * (Z.of_nat i + 1), w)) ws.
Definition put_slots (xs : list (Z * Z)) (m : bytemem) : bytemem := foldl (λ m x, put_bytes x.1 (to_le 8 x.2) m) m xs.
(** An interrupt gate clears TF, IF, NT, RF and VM. *)
Definition gate_flags (f : Z) : Z := Z.land f (Z.lnot 0x34300).

Inductive delivery := Entered (s : mach) | StackFault (a : Z) | Refused.
Definition deliver (v : Z) (error : option Z) (s : mach) : delivery :=
  if negb (16 * v + 15 <=? idtr_limit s) then Refused else
  let g := gate_at (bytes s) (idtr_base s + 16 * v) in
  if negb (gate_ok s g) then Refused else
  let top := interrupt_stack s (g_ist g) in
  let xs := slots top (frame_words s error) in
  match list_find (λ x, slot_ok s x.1 = false) xs with
  | Some (_, x) => StackFault x.1
  | None =>
      Entered (set_flow (g_offset g) (gate_flags (rflags s)) (g_selector g / 4 * 4 + cpl s)
        (set_rg RSP (top - 8 * Z.of_nat (length xs)) (set_bytes (put_slots xs (bytes s)) s)))
  end.
(** A page fault at [addr]; one during its delivery is a double fault, one during
    that a shutdown ([None]). *)
Definition double_fault (s : mach) : option mach := match deliver 8 (Some 0) s with Entered s' => Some s' | _ => None end.
Definition page_fault (addr error : Z) (s : mach) : option mach :=
  let s := set_cr2 addr s in
  match deliver 14 (Some error) s with
  | Entered s' => Some s'
  | StackFault a => double_fault (set_cr2 a s)
  | Refused => double_fault s
  end.
(** IRETQ to the same level. *)
Definition iretq : M mach unit :=
  ip ← pop; sel ← pop; fl ← pop; sp ← pop; stack ← pop;
  s ← gets id;
  assert_ (code_ok s sel && (sel mod 4 =? cpl s) && ((stack / 4 =? 0) || stack_ok s stack)) ;;
  modify (set_flow ip fl sel) ;;
  modify (set_rg RSP sp) ;;
  modify (set_sr SS stack).

(** ** Bytes in memory *)
Definition holds_at (m : bytemem) (a : Z) (bs : list Z) : Prop := ∀ i b, bs !! i = Some b → m (a + Z.of_nat i) = b.
Lemma put_bytes_out a bs m x : x < a ∨ a + Z.of_nat (length bs) ≤ x → put_bytes a bs m x = m x.
Proof.
  intros H. unfold put_bytes. destruct (Z.leb_spec a x), (Z.ltb_spec x (a + Z.of_nat (length bs))); cbn [andb]; done || lia.
Qed.
Lemma put_bytes_in a bs m i b : bs !! i = Some b → put_bytes a bs m (a + Z.of_nat i) = b.
Proof.
  intros H. pose proof (lookup_lt_Some _ _ _ H). unfold put_bytes. rewrite (proj2 (Z.leb_le _ _)), (proj2 (Z.ltb_lt _ _)) by lia. cbn [andb].
  replace (Z.to_nat (a + Z.of_nat i - a)) with i by lia. by apply nth_lookup_Some.
Qed.
Lemma holds_put a bs m : holds_at (put_bytes a bs m) a bs.
Proof. intros i b. apply put_bytes_in. Qed.
Lemma holds_at_ext m m' a bs : holds_at m a bs → (∀ x, a ≤ x < a + Z.of_nat (length bs) → m' x = m x) → holds_at m' a bs.
Proof. intros H E i b Hi. rewrite E; [by apply H|]. apply lookup_lt_Some in Hi. lia. Qed.
Lemma ld_ext n m m' a : (∀ x, a ≤ x < a + Z.of_nat n → m' x = m x) → ld n m' a = ld n m a.
Proof.
  intros H. unfold ld. f_equal. apply list_fmap_ext. intros i x Hx. apply lookup_seqZ in Hx as [-> Hi]. apply H. lia.
Qed.
Lemma ld_holds n m a bs k : holds_at m a bs → (k + n ≤ length bs)%nat → ld n m (a + Z.of_nat k) = from_le (take n (drop k bs)).
Proof.
  intros H Hk. unfold ld. f_equal. apply list_eq. intros i. rewrite list_lookup_fmap.
  destruct (decide (i < n)%nat).
  - rewrite lookup_seqZ_lt by lia. rewrite lookup_take_lt, lookup_drop by done. cbn [fmap option_fmap option_map].
    destruct (lookup_lt_is_Some_2 bs (k + i)) as [b Hb]; [lia|]. rewrite Hb. f_equal. rewrite <-(H _ _ Hb). f_equal. lia.
  - rewrite lookup_seqZ_ge, lookup_take_ge by lia. done.
Qed.
Lemma holds_byte m a bs k b : holds_at m a bs → bs !! k = Some b → m (a + Z.of_nat k) = b.
Proof. intros H. apply H. Qed.
Lemma from_le_mod n v : from_le (to_le n v) = v mod 2 ^ (8 * Z.of_nat n).
Proof.
  revert v. induction n as [|n IH]; intros v; cbn [to_le from_le]; [change (2 ^ _) with 1; by rewrite Z.mod_1_r|]. rewrite IH.
  replace (8 * Z.of_nat (S n)) with (8 + 8 * Z.of_nat n) by lia. rewrite Z.pow_add_r by lia. change (2 ^ 8) with 256.
  rewrite (Z.mul_comm 256 (2 ^ _)), (Z.mul_comm 256 (_ mod _)). symmetry. rewrite (Z.mul_comm (2 ^ _) 256). rewrite Z.rem_mul_r by lia. lia.
Qed.
Lemma ld_put_word a v m : 0 ≤ v < 2 ^ 64 → ld 8 (put_bytes a (to_le 8 v) m) a = v.
Proof.
  intros Hv. pose proof (ld_holds 8 _ a _ 0 (holds_put a (to_le 8 v) m)) as H. cbn [Z.of_nat] in H. rewrite Z.add_0_r in H.
  rewrite H by (by rewrite length_to_le). rewrite drop_0, take_ge by (by rewrite length_to_le). by apply from_le_to_le.
Qed.

(** ** Words on the stack *)
Fixpoint put_words (top : Z) (ws : list Z) (m : bytemem) : bytemem :=
  match ws with [] => m | w :: ws => put_words (top - 8) ws (put_bytes (top - 8) (to_le 8 w) m) end.
Definition word (w : Z) : Prop := 0 ≤ w < 2 ^ 64.
Definition stacked (m : bytemem) (top : Z) (ws : list Z) : Prop := ∀ i w, ws !! i = Some w → ld 8 m (top - 8 * (Z.of_nat i + 1)) = w.
Lemma put_words_out top ws m x : x < top - 8 * Z.of_nat (length ws) ∨ top ≤ x → put_words top ws m x = m x.
Proof.
  revert top m. induction ws as [|w ws IH]; intros top m H; [done|]. cbn [put_words length] in *. rewrite IH by lia.
  apply put_bytes_out. rewrite length_to_le. lia.
Qed.
Lemma put_words_app top ws1 ws2 m : put_words top (ws1 ++ ws2) m = put_words (top - 8 * Z.of_nat (length ws1)) ws2 (put_words top ws1 m).
Proof.
  revert top m. induction ws1 as [|w ws1 IH]; intros top m; cbn [put_words app length]; [f_equal; lia|]. rewrite IH. f_equal. lia.
Qed.
Lemma put_words_stacked top ws m : Forall word ws → stacked (put_words top ws m) top ws.
Proof.
  revert top m. induction ws as [|w ws IH]; intros top m Hw i x Hi; [done|]. inversion_clear Hw as [|? ? Hw1 Hw2]. cbn [put_words]. destruct i as [|i].
  - injection Hi as ->. replace (top - 8 * (Z.of_nat 0 + 1)) with (top - 8) by lia.
    etrans; [|by apply (ld_put_word (top - 8) x m)]. apply ld_ext. intros y Hy. apply put_words_out. lia.
  - replace (top - 8 * (Z.of_nat (S i) + 1)) with (top - 8 - 8 * (Z.of_nat i + 1)) by lia. by apply IH.
Qed.
Lemma stacked_ext m m' top ws : stacked m top ws → (∀ x, top - 8 * Z.of_nat (length ws) ≤ x < top → m' x = m x) → stacked m' top ws.
Proof. intros H E i w Hi. pose proof (lookup_lt_Some _ _ _ Hi). rewrite (ld_ext 8 m); [by apply H|]. intros x Hx. apply E. lia. Qed.
Lemma put_slots_words top ws m : put_slots (slots top ws) m = put_words top ws m.
Proof.
  unfold put_slots, slots. revert top m. induction ws as [|w ws IH]; intros top m; [done|]. cbn [imap foldl put_words fst snd].
  rewrite <-IH. replace (top - 8 * (Z.of_nat 0 + 1)) with (top - 8) by lia. f_equal.
  apply imap_ext. intros i x _. cbn [compose]. f_equal. lia.
Qed.
Lemma length_slots top ws : length (slots top ws) = length ws.
Proof. apply length_imap. Qed.
Lemma slots_writable s top ws : (∀ i, (i < length ws)%nat → slot_ok s (top - 8 * (Z.of_nat i + 1)) = true) →
  list_find (λ x, slot_ok s x.1 = false) (slots top ws) = None.
Proof.
  intros H. apply list_find_None, Forall_lookup_2. intros i [a w] Hi. unfold slots in Hi. rewrite list_lookup_imap in Hi.
  destruct (ws !! i) as [w'|] eqn:E; [|done]. injection Hi as <- <-. apply lookup_lt_Some in E. cbn. by rewrite H.
Qed.

(** ** What a step leaves alone *)
(** The descriptor-table registers, the level and the translation. *)
Record same_sys (s s' : mach) : Prop := {
  ss_cs : cs s' = cs s; ss_gdtr : gdtr_limit s' = gdtr_limit s ∧ gdtr_base s' = gdtr_base s;
  ss_writable : ∀ a, writable s' a = writable s a }.
Lemma same_sys_trans s1 s2 s3 : same_sys s1 s2 → same_sys s2 s3 → same_sys s1 s3.
Proof. intros [A [B1 B2] C] [D [E1 E2] F]. split; [congruence|split; congruence|]. intros a. by rewrite F. Qed.
(** The GDT as the processor reads it, and with it every answer about selectors. *)
Definition same_gdt (s s' : mach) : Prop := ∀ a, gdtr_base s ≤ a ≤ gdtr_base s + gdtr_limit s → bytes s' a = bytes s a.
Lemma in_gdt_access s sel n : in_gdt s sel n = true → 8 ≤ n → 0 < sel / 8 ∧ sel / 8 * 8 + 7 ≤ gdtr_limit s.
Proof. unfold in_gdt. rewrite !andb_true_iff, Z.ltb_lt, Z.leb_le. lia. Qed.
Lemma same_desc s s' sel : same_sys s s' → same_gdt s s' → 0 < sel / 8 → sel / 8 * 8 + 7 ≤ gdtr_limit s →
  d_access s' sel = d_access s sel ∧ d_flags s' sel = d_flags s sel.
Proof. intros [_ [_ Hb] _] Hg H1 H2. unfold d_access, d_flags. rewrite Hb. split; apply Hg; lia. Qed.
Lemma code_ok_same s s' sel : same_sys s s' → same_gdt s s' → code_ok s sel = true → code_ok s' sel = true.
Proof.
  intros Hs Hg H. assert (Hin : in_gdt s sel 8 = true) by (unfold code_ok in H; by rewrite !andb_true_iff in H; tauto).
  destruct (in_gdt_access _ _ _ Hin ltac:(lia)) as [H1 H2]. destruct (same_desc s s' sel Hs Hg H1 H2) as [Ea Ef].
  unfold code_ok, in_gdt, d_level, cpl in *. destruct Hs as [Hc [Hl _] _]. by rewrite Ea, Ef, Hc, Hl.
Qed.
Lemma stack_ok_same s s' sel : same_sys s s' → same_gdt s s' → stack_ok s sel = true → stack_ok s' sel = true.
Proof.
  intros Hs Hg H. assert (Hin : in_gdt s sel 8 = true) by (unfold stack_ok in H; by rewrite !andb_true_iff in H; tauto).
  destruct (in_gdt_access _ _ _ Hin ltac:(lia)) as [H1 H2]. destruct (same_desc s s' sel Hs Hg H1 H2) as [Ea Ef].
  unfold stack_ok, in_gdt, d_level, cpl in *. destruct Hs as [Hc [Hl _] _]. by rewrite Ea, Hc, Hl.
Qed.

(** ** Instructions *)
Definition pushed (w : Z) (s : mach) : mach := set_rg RSP (rg s RSP - 8) (set_bytes (put_bytes (rg s RSP - 8) (to_le 8 w) (bytes s)) s).
Lemma push_run w s : slot_ok s (rg s RSP - 8) = true → push w s = Some (tt, pushed w s).
Proof. intros H. unfold push, mbind, M_bind, gets, assert_, id. by rewrite H. Qed.
Definition popped (s : mach) : mach := set_rg RSP (rg s RSP + 8) s.
Lemma pop_run s : pop s = Some (ld 8 (bytes s) (rg s RSP), popped s).
Proof. done. Qed.
Lemma rg_set r v s r' : rg (set_rg r v s) r' = if decide (r = r') then v else rg s r'.
Proof. done. Qed.
