(* ===== verification/Gdt.v ===== *)
(** * The global descriptor table and the task state segment ([kernel/src/gdt.rs]).

    The structures are [repr(C, packed)]: [..._bytes] is their layout in memory. *)
From S2P Require Import Prelude Cpu.
Set Default Goal Selector "!".

Inductive GdtError := InitFailed | InvalidAddress.

Record TaskStateSegment := mkTss {
  reserved_1 : Z; rsp0 : Z; rsp1 : Z; rsp2 : Z; reserved_2 : Z;
  ist1 : Z; ist2 : Z; ist3 : Z; ist4 : Z; ist5 : Z; ist6 : Z; ist7 : Z;
  reserved_3 : Z; reserved_4 : Z; iomap_base : Z }.
Definition TaskStateSegment_new : TaskStateSegment := mkTss 0 0 0 0 0 0 0 0 0 0 0 0 0 0 0x68.
Definition tss_bytes (t : TaskStateSegment) : list Z :=
  to_le 4 (reserved_1 t) ++ to_le 8 (rsp0 t) ++ to_le 8 (rsp1 t) ++ to_le 8 (rsp2 t) ++ to_le 8 (reserved_2 t) ++
  to_le 8 (ist1 t) ++ to_le 8 (ist2 t) ++ to_le 8 (ist3 t) ++ to_le 8 (ist4 t) ++ to_le 8 (ist5 t) ++ to_le 8 (ist6 t) ++ to_le 8 (ist7 t) ++
  to_le 8 (reserved_3 t) ++ to_le 2 (reserved_4 t) ++ to_le 2 (iomap_base t).
Definition TSS_SIZE : Z := 104.
Definition ist1_offset : Z := 36.

Record GdtEntry := mkGdtEntry { limit_low : Z; base_low : Z; base_middle : Z; access : Z; granularity : Z; base_high : Z }.
Definition null : GdtEntry := mkGdtEntry 0 0 0 0 0 0.
Definition code_segment (dpl : Z) : GdtEntry := mkGdtEntry 0 0 0 (Z.lor 0x9A (Z.shiftl (Z.land dpl 3) 5)) 0x20 0.
Definition data_segment (dpl : Z) : GdtEntry := mkGdtEntry 0 0 0 (Z.lor 0x92 (Z.shiftl (Z.land dpl 3) 5)) 0 0.
Definition entry_bytes (e : GdtEntry) : list Z :=
  to_le 2 (limit_low e) ++ to_le 2 (base_low e) ++ to_le 1 (base_middle e) ++ to_le 1 (access e) ++ to_le 1 (granularity e) ++ to_le 1 (base_high e).

Record TssDescriptor := mkTssDescriptor { low : GdtEntry; high : GdtEntry }.
Definition TssDescriptor_new (tss_addr : Z) : TssDescriptor :=
  let limit := TSS_SIZE - 1 in
  mkTssDescriptor
    (mkGdtEntry (Z.land limit 0xFFFF) (Z.land tss_addr 0xFFFF) (Z.land (Z.shiftr tss_addr 16) 0xFF) 0x89
       (Z.land (Z.shiftr limit 16) 0x0F) (Z.land (Z.shiftr tss_addr 24) 0xFF))
    (mkGdtEntry (Z.land (Z.shiftr tss_addr 32) 0xFFFF) (Z.land (Z.shiftr tss_addr 48) 0xFFFF) 0 0 0 0).
Definition descriptor_bytes (d : TssDescriptor) : list Z := entry_bytes (low d) ++ entry_bytes (high d).

Record Gdt := mkGdt { gdt_null : GdtEntry; kernel_code : GdtEntry; kernel_data : GdtEntry; user_code : GdtEntry; user_data : GdtEntry; tss : TssDescriptor }.
Definition Gdt_new : Gdt :=
  mkGdt null (code_segment 0) (data_segment 0) (code_segment 3) (data_segment 3) (TssDescriptor_new 0).
Definition segments_bytes (g : Gdt) : list Z :=
  entry_bytes (gdt_null g) ++ entry_bytes (kernel_code g) ++ entry_bytes (kernel_data g) ++ entry_bytes (user_code g) ++ entry_bytes (user_data g).
Definition gdt_bytes (g : Gdt) : list Z := segments_bytes g ++ descriptor_bytes (tss g).
Definition tss_offset : Z := 0x28.
(** [size_of::<Gdt>()]: 56 bytes, rounded to the alignment of 16. *)
Definition GDT_SIZE : Z := 64.

Definition KERNEL_CODE : Z := 0x08.
Definition KERNEL_DATA : Z := 0x10.
Definition USER_CODE : Z := Z.lor 0x18 3.
Definition USER_DATA : Z := Z.lor 0x20 3.
Definition TSS : Z := 0x28.
Definition DOUBLE_FAULT_IST_INDEX : Z := 1.
Definition DOUBLE_FAULT_STACK_SIZE : Z := 16384.

(** Where the linker puts the statics, and the label after the far return. *)
Record gdt_image := mkGdtImage { gdt_at : Z; tss_at : Z; double_fault_stack_at : Z; reload_label : Z }.

Definition gdt_init (img : gdt_image) : M mach (result unit GdtError) :=
  double_fault_stack_top ← lift (cadd 64 (double_fault_stack_at img) DOUBLE_FAULT_STACK_SIZE);
  write_mem (tss_at img + ist1_offset) (to_le 8 double_fault_stack_top) ;;
  write_mem (gdt_at img + tss_offset) (descriptor_bytes (TssDescriptor_new (tss_at img))) ;;
  lgdt (GDT_SIZE - 1) (gdt_at img) ;;
  push KERNEL_CODE ;;
  push (reload_label img) ;;
  retfq ;;
  mov_sreg DS KERNEL_DATA ;;
  mov_sreg ES KERNEL_DATA ;;
  mov_sreg FS KERNEL_DATA ;;
  mov_sreg GS KERNEL_DATA ;;
  mov_sreg SS KERNEL_DATA ;;
  ltr TSS ;;
  mret (Ok tt).
