(* ===== verification/GdtThms.v ===== *)
(** * The descriptor tables: what [gdt::init] leaves. *)
From S2P Require Import Prelude X86 Cpu Gdt.
Set Default Goal Selector "!".

Definition apart (a n b k : Z) : Prop := a + n ≤ b ∨ b + k ≤ a.
(** Where [init] may run: in ring 0, its segments in the static GDT, the statics
    and the two words of stack it uses apart. *)
Record gdt_ready (img : gdt_image) (s : mach) : Prop := {
  gr_segments : holds_at (bytes s) (gdt_at img) (segments_bytes Gdt_new);
  gr_ring : cpl s = 0;
  gr_words : word (tss_at img) ∧ word (reload_label img) ∧ 0 ≤ double_fault_stack_at img ∧ double_fault_stack_at img + DOUBLE_FAULT_STACK_SIZE < 2 ^ 64;
  gr_apart : apart (gdt_at img) GDT_SIZE (tss_at img) TSS_SIZE ∧ apart (rg s RSP - 16) 16 (gdt_at img) GDT_SIZE ∧ apart (rg s RSP - 16) 16 (tss_at img) TSS_SIZE;
  gr_stack : slot_ok s (rg s RSP - 8) = true ∧ slot_ok s (rg s RSP - 16) = true;
}.
(** The processor's registers and the memory they lead to. *)
Record gdt_loaded (img : gdt_image) (s : mach) : Prop := {
  gl_gdtr : gdtr_limit s = GDT_SIZE - 1 ∧ gdtr_base s = gdt_at img;
  gl_segments : holds_at (bytes s) (gdt_at img) (segments_bytes Gdt_new);
  gl_cs : cs s = KERNEL_CODE;
  gl_sr : ∀ r, sr s r = KERNEL_DATA;
  gl_tr : tr s = TSS ∧ tss_base s = tss_at img;
  gl_ist1 : ld 8 (bytes s) (tss_at img + 36) = double_fault_stack_at img + DOUBLE_FAULT_STACK_SIZE;
}.

Lemma segments_facts img s : gdtr_base s = gdt_at img → holds_at (bytes s) (gdt_at img) (segments_bytes Gdt_new) →
  d_access s KERNEL_CODE = 0x9A ∧ d_flags s KERNEL_CODE = 0x20 ∧ d_access s KERNEL_DATA = 0x92.
Proof.
  intros Hb H. unfold d_access, d_flags, KERNEL_CODE, KERNEL_DATA. rewrite Hb.
  change (8 / 8 * 8) with 8. change (16 / 8 * 8) with 16. rewrite <-!Z.add_assoc. change (8 + 5) with (Z.of_nat 13). change (8 + 6) with (Z.of_nat 14). change (16 + 5) with (Z.of_nat 21).
  split; [|split]; apply H; vm_compute; reflexivity.
Qed.
Section selectors.
Context (img : gdt_image) (s : mach) (Hl : GDT_SIZE - 1 ≤ gdtr_limit s) (Hb : gdtr_base s = gdt_at img)
  (Hm : holds_at (bytes s) (gdt_at img) (segments_bytes Gdt_new)) (Hring : cpl s = 0).
Lemma kernel_code_ok : code_ok s KERNEL_CODE = true.
Proof.
  destruct (segments_facts img s Hb Hm) as (Ea & Ef & _). unfold code_ok, in_gdt, d_level. rewrite Ea, Ef, Hring.
  unfold GDT_SIZE in Hl. rewrite (proj2 (Z.leb_le (KERNEL_CODE / 8 * 8 + 8 - 1) _)) by (change (KERNEL_CODE / 8 * 8) with 8; lia). vm_compute. reflexivity.
Qed.
Lemma kernel_stack_ok : stack_ok s KERNEL_DATA = true.
Proof.
  destruct (segments_facts img s Hb Hm) as (_ & _ & Ea). unfold stack_ok, in_gdt, d_level. rewrite Ea, Hring.
  unfold GDT_SIZE in Hl. rewrite (proj2 (Z.leb_le (KERNEL_DATA / 8 * 8 + 8 - 1) _)) by (change (KERNEL_DATA / 8 * 8) with 16; lia). vm_compute. reflexivity.
Qed.
Lemma kernel_data_ok : data_ok s KERNEL_DATA = true.
Proof.
  destruct (segments_facts img s Hb Hm) as (_ & _ & Ea). unfold data_ok, in_gdt, d_level. rewrite Ea, Hring.
  unfold GDT_SIZE in Hl. rewrite (proj2 (Z.leb_le (KERNEL_DATA / 8 * 8 + 8 - 1) _)) by (change (KERNEL_DATA / 8 * 8) with 16; lia). vm_compute. reflexivity.
Qed.
End selectors.

(** ** Instructions as rules *)
Lemma wp_write_mem a bs s Q : Q tt (set_bytes (put_bytes a bs (bytes s)) s) → wp (write_mem a bs) Q s.
Proof. done. Qed.
Lemma wp_cpu_push w s Q : slot_ok s (rg s RSP - 8) = true → Q tt (pushed w s) → wp (push w) Q s.
Proof. intros H HQ. unfold wp. by rewrite push_run. Qed.
Lemma wp_mov_sreg r s Q : stack_ok s KERNEL_DATA = true → data_ok s KERNEL_DATA = true → Q tt (set_sr r KERNEL_DATA s) → wp (mov_sreg r KERNEL_DATA) Q s.
Proof.
  intros H1 H2 HQ. unfold mov_sreg. wp_step. wp_step. wp_step. wp_step; [unfold id; destruct r; rewrite ?H1, ?H2, ?orb_true_r; done|]. by wp_step.
Qed.

(** ** The TSS descriptor *)
Abbreviation tss_descriptor tss_addr := (descriptor_bytes (TssDescriptor_new tss_addr)).
Lemma tss_descriptor_length a : length (tss_descriptor a) = 16%nat.
Proof. reflexivity. Qed.
Lemma land_byte x : Z.land x 0xFF = x mod 2 ^ 8.
Proof. apply (Z.land_ones x 8). lia. Qed.
Lemma land_half x : Z.land x 0xFFFF = x mod 2 ^ 16.
Proof. apply (Z.land_ones x 16). lia. Qed.
Lemma land_dword x : Z.land x 0xFFFFFFFF = x mod 2 ^ 32.
Proof. apply (Z.land_ones x 32). lia. Qed.
Lemma descriptor_base m a v : word v → holds_at m a (tss_descriptor v) → system_base m a = v.
Proof.
  intros Hv Hm. unfold word in Hv. unfold system_base.
  change (a + 2) with (a + Z.of_nat 2). rewrite (ld_holds 2 m a _ 2 Hm) by (rewrite tss_descriptor_length; lia).
  change (a + 8) with (a + Z.of_nat 8). rewrite (ld_holds 4 m a _ 8 Hm) by (rewrite tss_descriptor_length; lia).
  change (take 2 (drop 2 (tss_descriptor v))) with (to_le 2 (Z.land v 0xFFFF)).
  change (take 4 (drop 8 (tss_descriptor v))) with (to_le 2 (Z.land (Z.shiftr v 32) 0xFFFF) ++ to_le 2 (Z.land (Z.shiftr v 48) 0xFFFF)).
  change (a + 4) with (a + Z.of_nat 4). rewrite (Hm 4%nat (Z.land (Z.shiftr v 16) 0xFF mod 256) eq_refl).
  change (a + 7) with (a + Z.of_nat 7). rewrite (Hm 7%nat (Z.land (Z.shiftr v 24) 0xFF mod 256) eq_refl).
  rewrite !land_half, !land_byte, !Z.shiftr_div_pow2 by lia. cbn [to_le app from_le]. dlia.
Qed.
Lemma descriptor_available m a v : holds_at m a (tss_descriptor v) → m (a + 5) = 0x89 ∧ Z.land (ld 4 m (a + 12)) 0x1F00 = 0.
Proof.
  intros Hm. split; [apply (Hm 5%nat); reflexivity|].
  change (a + 12) with (a + Z.of_nat 12). rewrite (ld_holds 4 m a _ 12 Hm) by (rewrite tss_descriptor_length; lia). reflexivity.
Qed.

(** The memory after the stores of [init]. *)
Lemma init_memory m G T D R lab : holds_at m G (segments_bytes Gdt_new) → word D → word lab →
  G + 64 ≤ T ∨ T + 104 ≤ G → R - 16 + 16 ≤ G ∨ G + 64 ≤ R - 16 → R - 16 + 16 ≤ T ∨ T + 104 ≤ R - 16 →
  let m4 := put_bytes (R - 8 - 8) (to_le 8 lab) (put_bytes (R - 8) (to_le 8 KERNEL_CODE)
    (put_bytes (G + tss_offset) (tss_descriptor T) (put_bytes (T + ist1_offset) (to_le 8 D) m))) in
  holds_at m4 G (segments_bytes Gdt_new) ∧ holds_at m4 (G + 0x28) (tss_descriptor T) ∧ ld 8 m4 (T + 36) = D ∧
  ld 8 m4 (R - 8 - 8) = lab ∧ ld 8 m4 (R - 8) = KERNEL_CODE ∧
  ∀ x, ¬ (T + 36 ≤ x < T + 44 ∨ G + 0x28 ≤ x < G + 0x38 ∨ R - 16 ≤ x < R) → m4 x = m x.
Proof.
  intros Hm HD Hlab A1 A2 A3 m4. unfold tss_offset, ist1_offset in m4. set (m1 := put_bytes (T + 36) _ m) in m4. set (m2 := put_bytes (G + 0x28) _ m1) in m4.
  assert (H4 : ∀ x, x < R - 16 ∨ R ≤ x → m4 x = m2 x) by (intros x Hx; unfold m4; rewrite !put_bytes_out by (rewrite length_to_le; lia); done).
  assert (H2 : ∀ x, x < G + 0x28 ∨ G + 0x38 ≤ x → m2 x = m1 x) by (intros x Hx; apply put_bytes_out; rewrite tss_descriptor_length; lia).
  assert (H1 : ∀ x, x < T + 36 ∨ T + 44 ≤ x → m1 x = m x) by (intros x Hx; apply put_bytes_out; rewrite length_to_le; lia).
  split; [|split; [|split; [|split; [|split]]]].
  - apply (holds_at_ext m); [done|]. change (Z.of_nat (length (segments_bytes Gdt_new))) with 40. intros x Hx. by rewrite H4, H2, H1 by lia.
  - apply (holds_at_ext m2); [apply holds_put|]. rewrite tss_descriptor_length. intros x Hx. apply H4. lia.
  - rewrite (ld_ext 8 m1); [by apply ld_put_word|]. intros x Hx. by rewrite H4, H2 by lia.
  - by apply ld_put_word.
  - rewrite (ld_ext 8 (put_bytes (R - 8) (to_le 8 KERNEL_CODE) m2)); [by apply ld_put_word|]. intros x Hx. apply put_bytes_out. rewrite length_to_le. lia.
  - intros x Hx. by rewrite H4, H2, H1 by lia.
Qed.

Lemma wp_cpu_pop s Q : Q (ld 8 (bytes s) (rg s RSP)) (popped s) → wp pop Q s.
Proof. done. Qed.
(** The state after the far return, the segment registers and LTR. *)
Definition reloaded (lab T : Z) (s : mach) : mach :=
  let s := set_flow lab (rflags s) KERNEL_CODE (popped (popped s)) in
  let s := set_sr SS KERNEL_DATA (set_sr GS KERNEL_DATA (set_sr FS KERNEL_DATA (set_sr ES KERNEL_DATA (set_sr DS KERNEL_DATA s)))) in
  set_bytes (put_bytes (gdtr_base s + 0x2D) [0x8B] (bytes s)) (set_tr TSS T s).
Lemma reload_spec img s lab (Q : result unit GdtError → mach → Prop) :
  gdtr_limit s = GDT_SIZE - 1 → gdtr_base s = gdt_at img → cpl s = 0 → word (tss_at img) →
  holds_at (bytes s) (gdt_at img) (segments_bytes Gdt_new) → holds_at (bytes s) (gdt_at img + 0x28) (tss_descriptor (tss_at img)) →
  ld 8 (bytes s) (rg s RSP) = lab → ld 8 (bytes s) (rg s RSP + 8) = KERNEL_CODE → Q (Ok tt) (reloaded lab (tss_at img) s) →
  wp (retfq ;; mov_sreg DS KERNEL_DATA ;; mov_sreg ES KERNEL_DATA ;; mov_sreg FS KERNEL_DATA ;; mov_sreg GS KERNEL_DATA ;; mov_sreg SS KERNEL_DATA ;;
      ltr TSS ;; mret (Ok tt)) Q s.
Proof.
  intros Hl Hb Hring Ht Hm Hd Hlab Hsel HQ. assert (Hl' : GDT_SIZE - 1 ≤ gdtr_limit s) by lia.
  wp_step. unfold retfq. wp_step. apply wp_cpu_pop. rewrite Hlab. wp_step. apply wp_cpu_pop.
  change (ld 8 (bytes (popped s)) (rg (popped s) RSP)) with (ld 8 (bytes s) (rg s RSP + 8)). rewrite Hsel.
  wp_step. wp_step. wp_step. wp_step.
  { unfold id. rewrite (kernel_code_ok img (popped (popped s))) by done. change (cpl (popped (popped s))) with (cpl s). by rewrite Hring. }
  wp_step. cbv beta. set (s1 := set_flow _ _ _ _).
  assert (Hs : stack_ok s1 KERNEL_DATA = true) by (by apply (kernel_stack_ok img)).
  assert (Hda : data_ok s1 KERNEL_DATA = true) by (by apply (kernel_data_ok img)).
  do 5 (wp_step; apply wp_mov_sreg; [exact Hs|exact Hda|]). wp_step. unfold ltr. wp_step. wp_step.
  unfold id. set (s6 := set_sr SS _ _). destruct (descriptor_available (bytes s) (gdt_at img + 0x28) (tss_at img) Hd) as [Ha Hz].
  assert (Hacc : d_access s6 TSS = 0x89).
  { change (d_access s6 TSS) with (bytes s (gdtr_base s + 40 + 5)). by rewrite Hb. }
  wp_step. wp_step.
  { unfold in_gdt. rewrite Hacc. change (gdtr_limit s6) with (gdtr_limit s). rewrite Hl. change (gdtr_base s6 + TSS / 8 * 8 + 12) with (gdtr_base s + 40 + 12).
    change (bytes s6) with (bytes s). rewrite Hb, Hz. reflexivity. }
  wp_step. wp_step. apply wp_write_mem. wp_step. rewrite Hacc. change (Z.lor 137 2) with 0x8B.
  replace (gdtr_base s6 + TSS / 8 * 8 + 5) with (gdtr_base s + 0x2D) by (change (gdtr_base s6 + TSS / 8 * 8) with (gdtr_base s + 40); lia).
  change (gdtr_base s6 + TSS / 8 * 8) with (gdtr_base s + 40). change (bytes s6) with (bytes s).
  rewrite (descriptor_base (bytes s) (gdtr_base s + 40) (tss_at img)) by (done || by rewrite Hb). exact HQ.
Qed.

(** The areas [init] writes to. *)
Definition gdt_touched (img : gdt_image) (s : mach) (x : Z) : Prop :=
  tss_at img + 36 ≤ x < tss_at img + 44 ∨ gdt_at img + 0x28 ≤ x < gdt_at img + 0x38 ∨ rg s RSP - 16 ≤ x < rg s RSP.
Definition init_bytes (img : gdt_image) (s : mach) : bytemem :=
  put_bytes (rg s RSP - 8 - 8) (to_le 8 (reload_label img)) (put_bytes (rg s RSP - 8) (to_le 8 KERNEL_CODE)
    (put_bytes (gdt_at img + tss_offset) (tss_descriptor (tss_at img))
      (put_bytes (tss_at img + ist1_offset) (to_le 8 (double_fault_stack_at img + DOUBLE_FAULT_STACK_SIZE)) (bytes s)))).
(** The registers [init] has set before the far return. *)
Record preloaded (img : gdt_image) (s s4 : mach) : Prop := {
  pl_bytes : bytes s4 = init_bytes img s; pl_gdtr : gdtr_limit s4 = GDT_SIZE - 1 ∧ gdtr_base s4 = gdt_at img;
  pl_same : cs s4 = cs s ∧ rflags s4 = rflags s ∧ idtr_limit s4 = idtr_limit s ∧ idtr_base s4 = idtr_base s ∧ writable s4 = writable s;
  pl_rsp : rg s4 RSP = rg s RSP - 8 - 8; pl_rg : ∀ q, q ≠ RSP → rg s4 q = rg s q }.
Lemma gdt_init_prefix img s Q : gdt_ready img s →
  (∀ s4, preloaded img s s4 →
     wp (retfq ;; mov_sreg DS KERNEL_DATA ;; mov_sreg ES KERNEL_DATA ;; mov_sreg FS KERNEL_DATA ;; mov_sreg GS KERNEL_DATA ;; mov_sreg SS KERNEL_DATA ;;
       ltr TSS ;; mret (Ok tt)) Q s4) → wp (gdt_init img) Q s.
Proof.
  intros [_ _ (_ & _ & Hdf0 & Hdf) _ [S1 S2]] HQ. replace (rg s RSP - 16) with (rg s RSP - 8 - 8) in S2 by lia.
  unfold gdt_init. wp_step. wp_step; [by apply cadd_some|]. wp_step. apply wp_write_mem. wp_step. apply wp_write_mem.
  wp_step. unfold lgdt. wp_step. wp_step. apply wp_cpu_push; [exact S1|]. wp_step. apply wp_cpu_push; [exact S2|]. apply HQ.
  split; [reflexivity|split; reflexivity|repeat split|reflexivity|by intros []].
Qed.
Lemma reloaded_fields lab T s : let s' := reloaded lab T s in
  gdtr_limit s' = gdtr_limit s ∧ gdtr_base s' = gdtr_base s ∧ cs s' = KERNEL_CODE ∧ (∀ r, sr s' r = KERNEL_DATA) ∧ tr s' = TSS ∧ tss_base s' = T ∧
  rip s' = lab ∧ rflags s' = rflags s ∧ idtr_limit s' = idtr_limit s ∧ idtr_base s' = idtr_base s ∧ writable s' = writable s ∧
  bytes s' = put_bytes (gdtr_base s + 0x2D) [0x8B] (bytes s) ∧ rg s' RSP = rg s RSP + 8 + 8 ∧ ∀ q, q ≠ RSP → rg s' q = rg s q.
Proof. repeat split; by intros []. Qed.
Lemma gdt_init_spec img s : gdt_ready img s →
  wp (gdt_init img) (λ r s', r = Ok tt ∧ gdt_loaded img s' ∧ rip s' = reload_label img ∧ rflags s' = rflags s ∧ (∀ q, rg s' q = rg s q) ∧
     idtr_limit s' = idtr_limit s ∧ idtr_base s' = idtr_base s ∧ (∀ a, writable s' a = writable s a) ∧
     bytes s' (gdt_at img + 0x2D) = 0x8B ∧ ∀ x, ¬ gdt_touched img s x → bytes s' x = bytes s x) s.
Proof.
  intros Hrd. apply gdt_init_prefix; [done|]. intros s4 [Eb [El Eg] (Ec & Efl & Ei1 & Ei2 & Ew) Er Erg].
  destruct Hrd as [Hm Hring (Ht & Hlab & Hdf0 & Hdf) (A1 & A2 & A3) _]. unfold apart, GDT_SIZE, TSS_SIZE in A1, A2, A3.
  destruct (init_memory (bytes s) (gdt_at img) (tss_at img) (double_fault_stack_at img + DOUBLE_FAULT_STACK_SIZE) (rg s RSP) (reload_label img))
    as (F1 & F2 & F3 & F4 & F5 & F6); [done|unfold word, DOUBLE_FAULT_STACK_SIZE in *; lia|done|done|done|done|].
  fold (init_bytes img s) in F1, F2, F3, F4, F5, F6. rewrite <-Eb in F1, F2, F3, F4, F5, F6.
  assert (Hring4 : cpl s4 = 0) by (unfold cpl; by rewrite Ec).
  apply (reload_spec img s4 (reload_label img)); [done|done|done|done|done|done|by rewrite Er|rewrite Er; by replace (rg s RSP - 8 - 8 + 8) with (rg s RSP - 8) by lia|].
  destruct (reloaded_fields (reload_label img) (tss_at img) s4) as (R1 & R2 & R3 & R4 & R5 & R6 & R7 & R8 & R9 & R10 & R11 & R12 & R13 & R14).
  set (s' := reloaded _ _ _) in *. clearbody s'. rewrite Eg in R12.
  assert (Hout : ∀ x, x ≠ gdt_at img + 0x2D → bytes s' x = bytes s4 x) by (intros x Hx; rewrite R12; apply put_bytes_out; cbn [length]; lia).
  split; [done|]. split; [|split; [done|split; [congruence|split; [|split; [congruence|split; [congruence|split; [by intros a; rewrite R11, Ew|split]]]]]]].
  - split; [split; congruence| |done|done|done|].
    + apply (holds_at_ext (bytes s4)); [exact F1|]. change (Z.of_nat (length (segments_bytes Gdt_new))) with 40. intros x Hx. apply Hout. lia.
    + etrans; [|exact F3]. apply ld_ext. intros x Hx. apply Hout. lia.
  - intros q. destruct (decide (q = RSP)) as [->|Hq]; [rewrite R13, Er; lia|]. by rewrite R14, Erg.
  - rewrite R12. pose proof (put_bytes_in (gdt_at img + 0x2D) [0x8B] (bytes s4) 0 0x8B eq_refl) as H. cbn [Z.of_nat] in H. by rewrite Z.add_0_r in H.
  - unfold gdt_touched. intros x Hx. rewrite Hout by lia. apply F6. lia.
Qed.
