(* ===== verification/Idt.v ===== *)
(** * The interrupt descriptor table and the handlers ([kernel/src/idt.rs]).

    The handlers are the naked functions, one [instr] per instruction; what they
    call is Rust, compiled to the System V convention ([run]).  The exception
    handlers only print: their text is a [report]. *)
From S2P Require Import Prelude X86 Addr Paging Apic Cpu Gdt.
Set Default Goal Selector "!".

(** ** Entries *)
Record IdtEntry := mkIdtEntry {
  offset_low : Z; selector : Z; ist : Z; attributes : Z; offset_middle : Z; offset_high : Z; reserved : Z }.
Definition IdtEntry_null : IdtEntry := mkIdtEntry 0 0 0 0 0 0 0.
Definition IdtEntry_new (handler selector dpl : Z) : IdtEntry :=
  mkIdtEntry (Z.land handler 0xFFFF) selector 0 (Z.lor (Z.lor 0x80 (Z.shiftl (Z.land dpl 3) 5)) 0x0E)
    (Z.land (Z.shiftr handler 16) 0xFFFF) (Z.land (Z.shiftr handler 32) 0xFFFFFFFF) 0.
Definition IdtEntry_new_with_ist (handler selector dpl ist_index : Z) : IdtEntry :=
  mkIdtEntry (Z.land handler 0xFFFF) selector (Z.land ist_index 7) (Z.lor (Z.lor 0x80 (Z.shiftl (Z.land dpl 3) 5)) 0x0E)
    (Z.land (Z.shiftr handler 16) 0xFFFF) (Z.land (Z.shiftr handler 32) 0xFFFFFFFF) 0.
Definition idt_entry_bytes (e : IdtEntry) : list Z :=
  to_le 2 (offset_low e) ++ to_le 2 (selector e) ++ to_le 1 (ist e) ++ to_le 1 (attributes e) ++
  to_le 2 (offset_middle e) ++ to_le 4 (offset_high e) ++ to_le 4 (reserved e).
Definition Idt_new : list IdtEntry := replicate 256 IdtEntry_null.
Definition idt_bytes (entries : list IdtEntry) : list Z := concat (idt_entry_bytes <$> entries).
Definition IDT_SIZE : Z := 4096.

(** ** Handlers *)
Inductive callee :=
  | divide_error_inner | debug_exception_inner | breakpoint_inner | invalid_opcode_inner
  | double_fault_inner | general_protection_fault_inner | page_fault_inner
  | timer_inner | check_resched.
Inductive instr := Push (r : reg) | Pop (r : reg) | Call (f : callee) | Iretq.

Definition exception_handler (inner : callee) : list instr :=
  [Push RAX; Push RCX; Push RDX; Push RSI; Push RDI; Push R8; Push R9; Push R10; Push R11;
   Call inner;
   Pop R11; Pop R10; Pop R9; Pop R8; Pop RDI; Pop RSI; Pop RDX; Pop RCX; Pop RAX; Iretq].
Definition exception_handler_with_error_code (inner : callee) : list instr :=
  [Pop RDI;
   Push RAX; Push RCX; Push RDX; Push RSI; Push R8; Push R9; Push R10; Push R11;
   Call inner;
   Pop R11; Pop R10; Pop R9; Pop R8; Pop RSI; Pop RDX; Pop RCX; Pop RAX; Iretq].

Inductive handler :=
  | divide_error_handler | debug_exception_handler | breakpoint_handler | invalid_opcode_handler
  | double_fault_handler | general_protection_fault_handler | page_fault_handler
  | timer_interrupt_handler | default_handler.
Definition timer_interrupt_code : list instr :=
  [Push RAX; Push RCX; Push RDX; Push RSI; Push RDI; Push R8; Push R9; Push R10; Push R11;
   Call timer_inner; Call check_resched;
   Pop R11; Pop R10; Pop R9; Pop R8; Pop RDI; Pop RSI; Pop RDX; Pop RCX; Pop RAX; Iretq].
Definition code (h : handler) : list instr :=
  match h with
  | divide_error_handler => exception_handler divide_error_inner
  | debug_exception_handler => exception_handler debug_exception_inner
  | breakpoint_handler => exception_handler breakpoint_inner
  | invalid_opcode_handler => exception_handler invalid_opcode_inner
  | double_fault_handler => exception_handler_with_error_code double_fault_inner
  | general_protection_fault_handler => exception_handler_with_error_code general_protection_fault_inner
  | page_fault_handler => exception_handler_with_error_code page_fault_inner
  | timer_interrupt_handler => timer_interrupt_code
  | default_handler => [Iretq]
  end.

(** A call that does not come back ([run] is [None]) stops the handler inside it. *)
Inductive stop := Returned (s : mach) | Inside (f : callee) (s : mach).
Fixpoint exec (run : callee → mach → option mach) (return_address : Z) (prog : list instr) (s : mach) : option stop :=
  match prog with
  | [] => None
  | Push r :: prog => match push (rg s r) s with Some (_, s) => exec run return_address prog s | None => None end
  | Pop r :: prog => match pop s with Some (w, s) => exec run return_address prog (set_rg r w s) | None => None end
  | Call f :: prog =>
      match push return_address s with
      | Some (_, s) => match run f s with Some s => exec run return_address prog s | None => Some (Inside f s) end
      | None => None
      end
  | Iretq :: _ => match iretq s with Some (_, s) => Some (Returned s) | None => None end
  end.

(** ** What the exception handlers print *)
Inductive table_kind := TableGdt | TableIdt | TableLdt.
Inductive report :=
  | DivideError | DebugException | Breakpoint | InvalidOpcode
  | StackOverflow (guard_page fault_addr error_code : Z)
  | DoubleFault (error_code fault_addr : Z)
  | GeneralProtectionFault (error_code : Z) (details : option (bool * table_kind * Z))
  | PageFault (fault_addr error_code : Z) (present write user reserved instruction : bool).
Definition double_fault_handler_inner (img : kernel_image) (error_code fault_addr : Z) : report :=
  if is_guard_page_fault img fault_addr
  then StackOverflow (default 0 (guard_page_address img)) fault_addr error_code
  else DoubleFault error_code fault_addr.
Definition general_protection_fault_handler_inner (error_code : Z) : report :=
  GeneralProtectionFault error_code
    (if negb (error_code =? 0) then
       let external := negb (Z.land error_code 0x01 =? 0) in
       let table := Z.land (Z.shiftr error_code 1) 0x03 in
       let index := Z.land (Z.shiftr error_code 3) 0x1FFF in
       Some (external, if table =? 0 then TableGdt else if table =? 1 then TableIdt else if table =? 2 then TableLdt else TableIdt, index)
     else None).
Definition page_fault_handler_inner (error_code fault_addr : Z) : report :=
  PageFault fault_addr error_code (negb (Z.land error_code 0x01 =? 0)) (negb (Z.land error_code 0x02 =? 0))
    (negb (Z.land error_code 0x04 =? 0)) (negb (Z.land error_code 0x08 =? 0)) (negb (Z.land error_code 0x10 =? 0)).
(** By the function entered: RDI is the first argument, CR2 is read. *)
Definition reported (img : kernel_image) (f : callee) (s : mach) : option report :=
  match f with
  | divide_error_inner => Some DivideError
  | debug_exception_inner => Some DebugException
  | breakpoint_inner => Some Breakpoint
  | invalid_opcode_inner => Some InvalidOpcode
  | double_fault_inner => Some (double_fault_handler_inner img (rg s RDI) (cr2 s))
  | general_protection_fault_inner => Some (general_protection_fault_handler_inner (rg s RDI))
  | page_fault_inner => Some (page_fault_handler_inner (rg s RDI) (cr2 s))
  | timer_inner | check_resched => None
  end.
(** The handlers that end in an endless loop. *)
Definition halts (f : callee) : bool := match f with breakpoint_inner | timer_inner | check_resched => false | _ => true end.

(** ** The table *)
Definition set_idt_entry (idt_at vector handler : Z) : M mach unit :=
  write_mem (idt_at + 16 * vector) (idt_entry_bytes (IdtEntry_new handler KERNEL_CODE 0)).
Definition set_idt_entry_with_ist (idt_at vector handler ist_index : Z) : M mach unit :=
  write_mem (idt_at + 16 * vector) (idt_entry_bytes (IdtEntry_new_with_ist handler KERNEL_CODE 0 ist_index)).

Inductive IdtError := IdtInitFailed | IdtInvalidAddress.
(** [address] is the linker's; the table [idt_at] is made by [lazy_static] on first use. *)
Definition idt_init (idt_at : Z) (address : handler → Z) : M mach (result unit IdtError) :=
  set_idt_entry idt_at 0 (address divide_error_handler) ;;
  set_idt_entry idt_at 1 (address debug_exception_handler) ;;
  set_idt_entry idt_at 3 (address breakpoint_handler) ;;
  set_idt_entry idt_at 6 (address invalid_opcode_handler) ;;
  set_idt_entry_with_ist idt_at 8 (address double_fault_handler) DOUBLE_FAULT_IST_INDEX ;;
  set_idt_entry idt_at 13 (address general_protection_fault_handler) ;;
  set_idt_entry idt_at 14 (address page_fault_handler) ;;
  set_idt_entry idt_at TIMER_INTERRUPT_VECTOR (address timer_interrupt_handler) ;;
  lidt (IDT_SIZE - 1) idt_at ;;
  mret (Ok tt).
