(* ===== verification/IdtThms.v ===== *)
(** * Interrupts: the table [idt::init] makes, and the handlers' code.

    [exec_pushes], [exec_call] and [exec_pops] are the rules of the handlers'
    instructions; [abi_call] is what the System V convention promises of the
    functions they call. *)
From S2P Require Import Prelude X86 Addr Paging Apic Cpu Gdt GdtThms Idt.
Set Default Goal Selector "!".

(** ** The table *)
Definition vectors : list (Z * handler * Z) :=
  [(0, divide_error_handler, 0); (1, debug_exception_handler, 0); (3, breakpoint_handler, 0); (6, invalid_opcode_handler, 0);
   (8, double_fault_handler, 1); (13, general_protection_fault_handler, 0); (14, page_fault_handler, 0); (32, timer_interrupt_handler, 0)].
Record idt_loaded (idt_at : Z) (address : handler → Z) (s : mach) : Prop := {
  il_idtr : idtr_limit s = IDT_SIZE - 1 ∧ idtr_base s = idt_at;
  il_gate : ∀ v h i, (v, h, i) ∈ vectors → gate_at (bytes s) (idt_at + 16 * v) = mkGate (address h) KERNEL_CODE i 0x8E;
  il_other : ∀ v, 0 ≤ v < 256 → v ∉ ((λ x, x.1.1) <$> vectors) → g_attributes (gate_at (bytes s) (idt_at + 16 * v)) = 0 }.

Lemma length_entry e : length (idt_entry_bytes e) = 16%nat.
Proof. reflexivity. Qed.
Lemma gate_of_entry m a h i : word h → 0 ≤ i < 8 → holds_at m a (idt_entry_bytes (IdtEntry_new_with_ist h KERNEL_CODE 0 i)) →
  gate_at m a = mkGate h KERNEL_CODE i 0x8E.
Proof.
  intros Hh Hi Hm. unfold gate_at. assert (Hl : ∀ e, length (idt_entry_bytes e) = 16%nat) by done.
  pose proof (ld_holds 2 m a _ 0 Hm ltac:(rewrite Hl; lia)) as H0. cbn [Z.of_nat] in H0. rewrite Z.add_0_r in H0. rewrite H0.
  change (a + 6) with (a + Z.of_nat 6). rewrite (ld_holds 2 m a _ 6 Hm) by (rewrite Hl; lia).
  change (a + 8) with (a + Z.of_nat 8). rewrite (ld_holds 4 m a _ 8 Hm) by (rewrite Hl; lia).
  change (a + 2) with (a + Z.of_nat 2). rewrite (ld_holds 2 m a _ 2 Hm) by (rewrite Hl; lia).
  change (a + 4) with (a + Z.of_nat 4). rewrite (Hm 4%nat (Z.land i 7 mod 256) eq_refl).
  change (a + 5) with (a + Z.of_nat 5). rewrite (Hm 5%nat 0x8E eq_refl).
  assert (Hi' : Z.land i 7 mod 256 mod 8 = i) by (change 7 with (Z.ones 3); rewrite Z.land_ones by lia; change (2 ^ 3) with 8; rewrite !(Z.mod_small i) by lia; done). rewrite Hi'.
  cbn [idt_entry_bytes IdtEntry_new_with_ist offset_low selector offset_middle offset_high ist attributes reserved take drop to_le app].
  f_equal. rewrite !land_half, land_dword, !Z.shiftr_div_pow2 by lia. unfold word in Hh. cbn [from_le]. dlia.
Qed.
Lemma entry_new_ist h : IdtEntry_new h KERNEL_CODE 0 = IdtEntry_new_with_ist h KERNEL_CODE 0 0.
Proof. reflexivity. Qed.
(** A run of [set_idt_entry]s, as a list. *)
Definition put_entries (idt_at : Z) (es : list (Z * Z * Z)) (m : bytemem) : bytemem :=
  foldl (λ m e, put_bytes (idt_at + 16 * e.1.1) (idt_entry_bytes (IdtEntry_new_with_ist e.1.2 KERNEL_CODE 0 e.2)) m) m es.
Lemma put_entries_spec idt_at es m : NoDup ((λ e, e.1.1) <$> es) → Forall (λ e, 0 ≤ e.1.1 < 256 ∧ word e.1.2 ∧ 0 ≤ e.2 < 8) es →
  (∀ v h i, (v, h, i) ∈ es → gate_at (put_entries idt_at es m) (idt_at + 16 * v) = mkGate h KERNEL_CODE i 0x8E) ∧
  (∀ x, (∀ e, e ∈ es → x < idt_at + 16 * e.1.1 ∨ idt_at + 16 * e.1.1 + 16 ≤ x) → put_entries idt_at es m x = m x).
Proof.
  induction es as [|e es IH] using rev_ind; intros Hnd Hok; [split; [intros v h i []%elem_of_nil|done]|].
  rewrite fmap_app in Hnd. apply list.NoDup_app in Hnd as (Hnd & Hfresh & _). apply Forall_app in Hok as [Hok He].
  apply Forall_inv in He as (He & Hw & Hi). specialize (IH Hnd Hok) as [IH1 IH2]. unfold put_entries in *. rewrite foldl_app. cbn [foldl].
  set (m' := foldl _ m es) in *. split.
  - intros v h i Hin. apply elem_of_app in Hin as [Hin|Hin].
    + rewrite <-(IH1 v h i Hin). assert (Hne : v ≠ e.1.1).
      { intros ->. apply (Hfresh e.1.1); [apply list_elem_of_fmap; by exists (e.1.1, h, i)|by left]. }
      assert (Hb : ∀ x, idt_at + 16 * v ≤ x < idt_at + 16 * v + 16 → put_bytes (idt_at + 16 * e.1.1) (idt_entry_bytes (IdtEntry_new_with_ist e.1.2 KERNEL_CODE 0 e.2)) m' x = m' x).
      { intros x Hx. apply put_bytes_out. rewrite length_entry. lia. }
      unfold gate_at. rewrite !Hb by lia. f_equal; [f_equal; [f_equal|]|]; rewrite ?(ld_ext _ m') by (intros x Hx; apply Hb; lia); done.
    + apply list_elem_of_singleton in Hin as <-. apply gate_of_entry; [done|done|apply holds_put].
  - intros x Hx. rewrite put_bytes_out; [apply IH2; intros f Hf; apply Hx, elem_of_app; by left|].
    rewrite length_entry. apply Hx, elem_of_app. right. by left.
Qed.

Definition entries_of (address : handler → Z) : list (Z * Z * Z) := (λ x, (x.1.1, address x.1.2, x.2)) <$> vectors.
Lemma vectors_nodup : NoDup ((λ x, x.1.1) <$> vectors).
Proof. apply (bool_decide_unpack _). vm_compute. exact I. Qed.
Lemma idt_init_spec idt_at address s : (∀ h, word (address h)) → (∀ x, idt_at ≤ x < idt_at + IDT_SIZE → bytes s x = 0) →
  wp (idt_init idt_at address) (λ r s', r = Ok tt ∧ idt_loaded idt_at address s' ∧
     s' = set_idtr (IDT_SIZE - 1) idt_at (set_bytes (bytes s') s) ∧
     ∀ x, ¬ idt_at ≤ x < idt_at + IDT_SIZE → bytes s' x = bytes s x) s.
Proof.
  intros Hw Hz. set (m := put_entries idt_at (entries_of address) (bytes s)).
  assert (Hrun : idt_init idt_at address s = Some (Ok tt, set_idtr (IDT_SIZE - 1) idt_at (set_bytes m s))) by reflexivity.
  unfold wp. rewrite Hrun. clear Hrun. split; [done|].
  destruct (put_entries_spec idt_at (entries_of address) (bytes s)) as [Hg Ho].
  { unfold entries_of. rewrite <-list_fmap_compose. exact vectors_nodup. }
  { unfold entries_of, vectors. repeat constructor; cbn; (lia || apply Hw). }
  fold m in Hg, Ho. unfold IDT_SIZE in *. split; [split; [done| |]|split; [reflexivity|]]; cbn [bytes set_idtr set_bytes].
  - intros v h i Hin. apply Hg. unfold entries_of. apply list_elem_of_fmap. by exists (v, h, i).
  - intros v Hv Hn. change (m (idt_at + 16 * v + 5) = 0). rewrite Ho; [apply Hz; lia|].
    intros e He. unfold entries_of in He. apply list_elem_of_fmap in He as (x & -> & Hx). cbn [fst snd].
    assert (x.1.1 ≠ v) by (intros <-; apply Hn, list_elem_of_fmap; by exists x). lia.
  - intros x Hx. apply Ho. intros e He. unfold entries_of in He. apply list_elem_of_fmap in He as (y & -> & Hy). cbn [fst snd].
    assert (0 ≤ y.1.1 < 256); [|lia]. unfold vectors in Hy. rewrite !elem_of_cons, elem_of_nil in Hy.
    destruct Hy as [->|[->|[->|[->|[->|[->|[->|[->|[]]]]]]]]]; cbn; lia.
Qed.

(** ** The handlers' instructions *)
Section exec.
Context (run : callee → mach → option mach) (ra : Z).
Definition caller_saved : list reg := [RAX; RCX; RDX; RSI; RDI; R8; R9; R10; R11].
Definition callee_saved : list reg := [RBX; RBP; R12; R13; R14; R15].

(** From [s], after storing [ws] on the stack. *)
Record after_pushes (ws : list Z) (s s' : mach) : Prop := {
  ap_bytes : bytes s' = put_words (rg s RSP) ws (bytes s);
  ap_rsp : rg s' RSP = rg s RSP - 8 * Z.of_nat (length ws);
  ap_rg : ∀ q, q ≠ RSP → rg s' q = rg s q;
  ap_sys : same_sys s s' ∧ cr2 s' = cr2 s ∧ sr s' = sr s }.
Lemma same_sys_refl s : same_sys s s.
Proof. done. Qed.
Lemma slot_ok_same s s' a : same_sys s s' → slot_ok s' a = slot_ok s a.
Proof. intros [_ _ Hw]. unfold slot_ok. by rewrite !Hw. Qed.
Lemma exec_push r k s : r ≠ RSP → slot_ok s (rg s RSP - 8) = true →
  ∃ s', exec run ra (Push r :: k) s = exec run ra k s' ∧ after_pushes [rg s r] s s'.
Proof.
  intros Hr Hs. exists (pushed (rg s r) s). cbn [exec]. rewrite push_run by done. split; [done|].
  split; [done|by cbn [length]|by intros []|done].
Qed.
Lemma exec_pushes rs k s : RSP ∉ rs → (∀ i, (i < length rs)%nat → slot_ok s (rg s RSP - 8 * (Z.of_nat i + 1)) = true) →
  ∃ s', exec run ra ((Push <$> rs) ++ k) s = exec run ra k s' ∧ after_pushes (rg s <$> rs) s s'.
Proof.
  revert s. induction rs as [|r rs IH]; intros s Hn Hs.
  - exists s. split; [done|]. split; [done|cbn; lia|done|done].
  - apply not_elem_of_cons in Hn as [Hr Hn]. cbn [fmap list_fmap app].
    destruct (exec_push r ((Push <$> rs) ++ k) s) as (s1 & -> & [B1 R1 G1 (Y1 & C1 & D1)]); [done|by specialize (Hs 0%nat ltac:(cbn; lia))|].
    cbn [length] in R1. destruct (IH s1 Hn) as (s2 & -> & [B2 R2 G2 (Y2 & C2 & D2)]).
    { intros i Hi. rewrite (slot_ok_same s), R1 by done. specialize (Hs (S i) ltac:(cbn; lia)). rewrite <-Hs. f_equal. lia. }
    assert (Ers : rg s1 <$> rs = rg s <$> rs) by (apply list_fmap_ext; intros i q Hq; apply G1; intros ->; apply Hn; by apply list_elem_of_lookup_2 in Hq).
    rewrite Ers in B2, R2. exists s2. split; [done|]. split.
    + rewrite B2, B1, R1. cbn [put_words]. f_equal.
    + rewrite R2, R1. cbn [length]. lia.
    + intros q Hq. by rewrite G2, G1.
    + split; [by eapply same_sys_trans|split; congruence].
Qed.

(** From [s], after taking words off the stack into [rs]. *)
Record after_pops (rs : list reg) (s s' : mach) : Prop := {
  po_bytes : bytes s' = bytes s;
  po_rsp : rg s' RSP = rg s RSP + 8 * Z.of_nat (length rs);
  po_got : ∀ i r, rs !! i = Some r → rg s' r = ld 8 (bytes s) (rg s RSP + 8 * Z.of_nat i);
  po_rg : ∀ q, q ≠ RSP → q ∉ rs → rg s' q = rg s q;
  po_sys : same_sys s s' ∧ cr2 s' = cr2 s }.
Lemma exec_pops rs k s : RSP ∉ rs → NoDup rs →
  ∃ s', exec run ra ((Pop <$> rs) ++ k) s = exec run ra k s' ∧ after_pops rs s s'.
Proof.
  revert s. induction rs as [|r rs IH]; intros s Hn Hd.
  - exists s. split; [done|]. split; [done|cbn; lia|done|done|done].
  - apply not_elem_of_cons in Hn as [Hr Hn]. apply list.NoDup_cons in Hd as [Hfresh Hd]. cbn [fmap list_fmap app exec]. rewrite pop_run.
    set (s1 := set_rg r _ (popped s)).
    assert (R1 : rg s1 RSP = rg s RSP + 8) by (unfold s1; rewrite rg_set, decide_False by done; done).
    assert (G1 : ∀ q, q ≠ RSP → q ≠ r → rg s1 q = rg s q).
    { intros q Hq Hqr. unfold s1, popped. rewrite !rg_set, !decide_False by done. done. }
    assert (V1 : rg s1 r = ld 8 (bytes s) (rg s RSP)) by (unfold s1; rewrite rg_set, decide_True by done; done).
    destruct (IH s1 Hn Hd) as (s2 & -> & [B2 R2 V2 G2 (Y2 & C2)]). change (bytes s1) with (bytes s) in *. exists s2. split; [done|]. split.
    + done.
    + rewrite R2, R1. cbn [length]. lia.
    + intros [|i] q Hq; [injection Hq as <-; rewrite G2, V1 by done; f_equal; lia|]. rewrite (V2 i q Hq), R1. f_equal. lia.
    + intros q Hq Hq'. apply not_elem_of_cons in Hq' as [? ?]. by rewrite G2, G1.
    + split; [by apply (same_sys_trans s s1 s2)|exact C2].
Qed.

Lemma rsp_not_saved : RSP ∉ callee_saved ∧ RSP ∉ caller_saved.
Proof. split; apply (bool_decide_unpack _); exact I. Qed.
Lemma saved_disjoint q : q ∈ callee_saved → q ∉ reverse caller_saved.
Proof.
  assert (H : Forall (λ q, q ∉ reverse caller_saved) callee_saved) by (apply (bool_decide_unpack _); exact I). rewrite list.Forall_forall in H. apply H.
Qed.
(** What a callee of the System V convention may do: entered at [s] with the
    return address on the stack, it comes back at [s'].  Its caller's frame is the
    112 bytes the handler and the processor pushed.  The descriptor tables are left alone. *)
Record abi_call (s s' : mach) : Prop := {
  ab_rsp : rg s' RSP = rg s RSP + 8;
  ab_saved : ∀ r, r ∈ callee_saved → rg s' r = rg s r;
  ab_frame : ∀ a, rg s RSP + 8 ≤ a < rg s RSP + 120 → bytes s' a = bytes s a;
  ab_sys : same_sys s s';
  ab_gdt : same_gdt s s' }.
Context (Habi : ∀ f s s', run f s = Some s' → abi_call s s').
(** A call of a function that comes back, from [s]. *)
Record after_call (s s' : mach) : Prop := {
  ac_rsp : rg s' RSP = rg s RSP;
  ac_saved : ∀ r, r ∈ callee_saved → rg s' r = rg s r;
  ac_frame : ∀ a, rg s RSP ≤ a < rg s RSP + 112 → bytes s' a = bytes s a;
  ac_sys : same_sys s s';
  ac_gdt : same_gdt s s' }.
Definition below_apart (s : mach) : Prop := apart (rg s RSP - 8) 8 (gdtr_base s) (gdtr_limit s + 1).
Lemma exec_call f k s : slot_ok s (rg s RSP - 8) = true → below_apart s → (∀ s, is_Some (run f s)) →
  ∃ s', exec run ra (Call f :: k) s = exec run ra k s' ∧ after_call s s'.
Proof.
  intros Hs Hap Hret. destruct (Hret (pushed ra s)) as [s' Hs']. exists s'. cbn [exec]. rewrite push_run by done. rewrite Hs'. split; [done|].
  destruct (Habi _ _ _ Hs') as [B1 B2 B3 B4 B5]. change (rg (pushed ra s) RSP) with (rg s RSP - 8) in *. unfold below_apart, apart in Hap.
  assert (Hout : ∀ a, a < rg s RSP - 8 ∨ rg s RSP ≤ a → bytes (pushed ra s) a = bytes s a) by (intros a Ha; apply put_bytes_out; rewrite length_to_le; lia).
  split.
  - lia.
  - intros r Hr. rewrite B2 by done. unfold pushed. rewrite rg_set, decide_False; [done|]. intros <-. by apply (proj1 rsp_not_saved).
  - intros a Ha. rewrite B3 by lia. apply Hout. lia.
  - apply (same_sys_trans s (pushed ra s)); [done|exact B4].
  - intros a Ha. rewrite B5; [apply Hout; lia|exact Ha].
Qed.
Lemma after_call_trans s1 s2 s3 : after_call s1 s2 → after_call s2 s3 → after_call s1 s3.
Proof.
  intros [A1 A2 A3 A4 A5] [B1 B2 B3 B4 B5]. split; [congruence|intros r Hr; by rewrite B2, A2| |by eapply same_sys_trans|].
  - intros a Ha. rewrite B3 by (rewrite A1; lia). by apply A3.
  - intros a Ha. destruct A4 as [_ [El Eb] _]. rewrite B5 by (rewrite El, Eb; lia). by apply A5.
Qed.
Lemma exec_calls fs k s : slot_ok s (rg s RSP - 8) = true → below_apart s → (∀ f s, f ∈ fs → is_Some (run f s)) →
  ∃ s', exec run ra ((Call <$> fs) ++ k) s = exec run ra k s' ∧ after_call s s'.
Proof.
  revert s. induction fs as [|f fs IH]; intros s Hs Hap Hret; [by exists s|]. cbn [fmap list_fmap app].
  destruct (exec_call f ((Call <$> fs) ++ k) s Hs Hap) as (s1 & -> & H1); [intros s1; apply Hret; by left|].
  destruct H1 as [R1 S1 F1 Y1 G1]. destruct (IH s1) as (s2 & -> & H2).
  - by rewrite (slot_ok_same s), R1.
  - unfold below_apart. destruct Y1 as [_ [-> ->] _]. by rewrite R1.
  - intros g s' Hg. apply Hret. by right.
  - exists s2. split; [done|]. eapply after_call_trans; [|exact H2]. by split.
Qed.

(** IRETQ with a frame of this level. *)
Record after_iretq (ip sel fl sp stack : Z) (s s' : mach) : Prop := {
  ai_flow : rip s' = ip ∧ cs s' = sel ∧ rflags s' = fl;
  ai_stack : rg s' RSP = sp ∧ sr s' SS = stack;
  ai_rg : ∀ q, q ≠ RSP → rg s' q = rg s q;
  ai_bytes : bytes s' = bytes s }.
Lemma iretq_run s ip sel fl sp stack : ld 8 (bytes s) (rg s RSP) = ip → ld 8 (bytes s) (rg s RSP + 8) = sel →
  ld 8 (bytes s) (rg s RSP + 16) = fl → ld 8 (bytes s) (rg s RSP + 24) = sp → ld 8 (bytes s) (rg s RSP + 32) = stack →
  code_ok s sel = true → sel mod 4 = cpl s → stack_ok s stack = true →
  ∃ s', iretq s = Some (tt, s') ∧ after_iretq ip sel fl sp stack s s'.
Proof.
  intros H1 H2 H3 H4 H5 Hc Hl Hst. set (s5 := popped (popped (popped (popped (popped s))))).
  exists (set_sr SS stack (set_rg RSP sp (set_flow ip fl sel s5))). split; [|split; [done|done|by intros []|done]].
  unfold iretq. do 5 (apply run_bind, wp_cpu_pop). fold (popped (popped (popped (popped (popped s))))). fold s5.
  rewrite H1. change (ld 8 (bytes (popped s)) (rg (popped s) RSP)) with (ld 8 (bytes s) (rg s RSP + 8)). rewrite H2.
  change (ld 8 (bytes (popped (popped s))) (rg (popped (popped s)) RSP)) with (ld 8 (bytes s) (rg s RSP + 8 + 8)).
  change (ld 8 (bytes (popped (popped (popped s)))) (rg (popped (popped (popped s))) RSP)) with (ld 8 (bytes s) (rg s RSP + 8 + 8 + 8)).
  change (ld 8 (bytes (popped (popped (popped (popped s))))) (rg (popped (popped (popped (popped s)))) RSP)) with (ld 8 (bytes s) (rg s RSP + 8 + 8 + 8 + 8)).
  replace (rg s RSP + 8 + 8 + 8 + 8) with (rg s RSP + 32) by lia. replace (rg s RSP + 8 + 8 + 8) with (rg s RSP + 24) by lia. replace (rg s RSP + 8 + 8) with (rg s RSP + 16) by lia.
  rewrite H3, H4, H5. apply run_bind, wp_gets. apply run_bind, wp_assert; [|reflexivity].
  unfold id. change (code_ok s5 sel) with (code_ok s sel). change (cpl s5) with (cpl s). change (stack_ok s5 stack) with (stack_ok s stack).
  by rewrite Hc, Hl, Hst, Z.eqb_refl, orb_true_r.
Qed.
End exec.

(** ** Entering a handler *)
Record entered (top : Z) (error : option Z) (target : Z) (s s1 : mach) : Prop := {
  en_rip : rip s1 = target;
  en_flags : rflags s1 = gate_flags (rflags s);
  en_bytes : bytes s1 = put_words top (frame_words s error) (bytes s);
  en_rsp : rg s1 RSP = top - 8 * Z.of_nat (length (frame_words s error));
  en_rg : ∀ q, q ≠ RSP → rg s1 q = rg s q;
  en_sys : same_sys s s1 ∧ cr2 s1 = cr2 s }.
Section tables.
Context (img : gdt_image) (idt_at : Z) (address : handler → Z) (s : mach) (Hg : gdt_loaded img s) (Hi : idt_loaded idt_at address s)
  (Hcan : ∀ h, canonical (address h) = true).
Lemma ring_0 : cpl s = 0.
Proof. unfold cpl. by rewrite (gl_cs _ _ Hg). Qed.
Lemma gate_open v h i : (v, h, i) ∈ vectors → gate_ok s (gate_at (bytes s) (idt_at + 16 * v)) = true.
Proof.
  intros Hv. rewrite (il_gate _ _ _ Hi v h i Hv). unfold gate_ok. cbn [g_attributes g_selector g_offset]. rewrite Hcan.
  destruct (gl_gdtr _ _ Hg) as [Hl Hb]. rewrite (kernel_code_ok img s) by (done || lia || exact (gl_segments _ _ Hg) || exact ring_0). reflexivity.
Qed.
Lemma vector_bounds v h i : (v, h, i) ∈ vectors → 0 ≤ v < 256.
Proof.
  intros Hv. unfold vectors in Hv. rewrite !elem_of_cons, elem_of_nil in Hv.
  destruct Hv as [[= -> -> ->]|[[= -> -> ->]|[[= -> -> ->]|[[= -> -> ->]|[[= -> -> ->]|[[= -> -> ->]|[[= -> -> ->]|[[= -> -> ->]|[]]]]]]]]]; lia.
Qed.
Lemma deliver_entered v h i error : (v, h, i) ∈ vectors →
  (∀ k, (k < length (frame_words s error))%nat → slot_ok s (interrupt_stack s i - 8 * (Z.of_nat k + 1)) = true) →
  ∃ s1, deliver v error s = Entered s1 ∧ entered (interrupt_stack s i) error (address h) s s1.
Proof.
  intros Hv Hs. unfold deliver. destruct (il_idtr _ _ _ Hi) as [El Eb]. pose proof (vector_bounds v h i Hv). rewrite El, Eb. unfold IDT_SIZE.
  rewrite (proj2 (Z.leb_le _ _)) by lia. cbn [negb]. rewrite (gate_open v h i Hv). cbn [negb]. rewrite (il_gate _ _ _ Hi v h i Hv). cbn [g_ist g_offset g_selector].
  rewrite slots_writable by exact Hs. eexists. split; [reflexivity|]. rewrite length_slots, ring_0, put_slots_words.
  split; cbn [rip rflags bytes rg set_flow set_rg set_bytes]; [done|done|done|by rewrite decide_True by done|intros q Hq; by rewrite decide_False by done|].
  split; [|done]. split; [|done|done]. cbn [cs set_flow set_rg set_bytes]. rewrite (gl_cs _ _ Hg). reflexivity.
Qed.
(** A vector without an entry is refused. *)
Lemma deliver_other v error : 0 ≤ v < 256 → v ∉ ((λ x, x.1.1) <$> vectors) → deliver v error s = Refused.
Proof.
  intros Hv Hn. unfold deliver. destruct (il_idtr _ _ _ Hi) as [El Eb]. rewrite El, Eb. unfold IDT_SIZE.
  rewrite (proj2 (Z.leb_le _ _)) by lia. cbn [negb]. unfold gate_ok. by rewrite (il_other _ _ _ Hi v Hv Hn).
Qed.
End tables.
