(* ===== verification/Interrupts.v ===== *)
(** * Interrupts: handlers from entry to return, and the stack overflow. *)
From S2P Require Import Prelude Addr BootInfo X86 Paging PagingSpec PagingWalk PagingMmio PagingInit PagingProps Apic Cpu Gdt GdtThms Idt IdtThms.
Set Default Goal Selector "!".

(** ** Handlers without an error code *)
Definition calls (h : handler) : list callee :=
  match h with
  | divide_error_handler => [divide_error_inner] | debug_exception_handler => [debug_exception_inner]
  | breakpoint_handler => [breakpoint_inner] | invalid_opcode_handler => [invalid_opcode_inner]
  | timer_interrupt_handler => [timer_inner; check_resched]
  | double_fault_handler => [double_fault_inner] | general_protection_fault_handler => [general_protection_fault_inner]
  | page_fault_handler => [page_fault_inner] | default_handler => []
  end.
Definition has_error_code (h : handler) : bool :=
  match h with double_fault_handler | general_protection_fault_handler | page_fault_handler => true | _ => false end.
Lemma code_plain v h i : (v, h, i) ∈ vectors → has_error_code h = false →
  i = 0 ∧ code h = (Push <$> caller_saved) ++ ((Call <$> calls h) ++ ((Pop <$> reverse caller_saved) ++ [Iretq])).
Proof.
  intros Hv He. unfold vectors in Hv. rewrite !elem_of_cons, elem_of_nil in Hv.
  destruct Hv as [[= -> -> ->]|[[= -> -> ->]|[[= -> -> ->]|[[= -> -> ->]|[[= -> -> ->]|[[= -> -> ->]|[[= -> -> ->]|[[= -> -> ->]|[]]]]]]]]]; done.
Qed.

(** Both tables loaded, and registers of 64 bits. *)
Record running (img : gdt_image) (idt_at : Z) (address : handler → Z) (s : mach) : Prop := {
  ru_gdt : gdt_loaded img s;
  ru_idt : idt_loaded idt_at address s;
  ru_address : ∀ h, canonical (address h) = true;
  ru_words : (∀ q, word (rg s q)) ∧ word (rip s) ∧ word (rflags s) }.
(** Room for the frame, the saved registers and a return address. *)
Record room (img : gdt_image) (s : mach) (top : Z) : Prop := {
  rm_slots : ∀ k, (k < 15)%nat → slot_ok s (top - 8 * (Z.of_nat k + 1)) = true;
  rm_apart : apart (top - 120) 120 (gdt_at img) GDT_SIZE }.

Section interrupts.
Context (img : gdt_image) (idt_at : Z) (address : handler → Z) (s : mach) (Hrun : running img idt_at address s).
Context (run : callee → mach → option mach) (ra : Z).
Lemma frame_words_ok error : match error with Some e => word e | None => True end → Forall word (frame_words s error).
Proof.
  destruct Hrun as [Hg _ _ (Hw & Hip & Hfl)]. intros He. unfold frame_words. rewrite (gl_cs _ _ Hg), (gl_sr _ _ Hg).
  destruct error; repeat (apply Forall_nil_2 || apply Forall_cons_2); try done.
Qed.

(** Entered, and the registers saved: the stack holds the frame and the registers. *)
Lemma entered_saved v h rs k : (v, h, 0) ∈ vectors → room img s (interrupt_stack s 0) → RSP ∉ rs → (length rs ≤ 9)%nat →
  code h = (Push <$> rs) ++ k →
  ∃ s1 s2, deliver v None s = Entered s1 ∧ entered (interrupt_stack s 0) None (address h) s s1 ∧ exec run ra (code h) s1 = exec run ra k s2 ∧
    bytes s2 = put_words (interrupt_stack s 0) (frame_words s None ++ (rg s <$> rs)) (bytes s) ∧ rg s2 RSP = interrupt_stack s 0 - 40 - 8 * Z.of_nat (length rs) ∧
    (∀ q, q ≠ RSP → rg s2 q = rg s q) ∧ same_sys s s2 ∧ cr2 s2 = cr2 s.
Proof.
  intros Hv [Hs Hap] Hn Hl Hc. set (al := interrupt_stack s 0) in *. destruct Hrun as [Hg Hi Ha _].
  destruct (deliver_entered img idt_at address s Hg Hi Ha v h 0 None Hv) as (s1 & Hd & He); [intros i Hk; apply Hs; cbn in Hk; lia|].
  pose proof He as [_ _ B1 R1 G1 [Y1 C1]]. fold al in B1, R1. cbn [frame_words length app] in R1.
  destruct (exec_pushes run ra rs k s1 Hn) as (s2 & Hx & [B2 R2 G2 (Y2 & C2 & _)]).
  { intros i Hk. rewrite (slot_ok_same s), R1 by done. specialize (Hs (5 + i)%nat ltac:(lia)). rewrite <-Hs. f_equal. lia. }
  exists s1, s2. split; [done|]. split; [done|]. split; [by rewrite Hc|].
  assert (Ers : rg s1 <$> rs = rg s <$> rs) by (apply list_fmap_ext; intros i q Hq; apply G1; intros ->; apply Hn; by apply list_elem_of_lookup_2 in Hq).
  rewrite Ers in B2. split; [|split; [|split; [|split]]].
  - rewrite B2, B1, R1, put_words_app. f_equal.
  - rewrite R2, R1, length_fmap. lia.
  - intros q Hq. by rewrite G2, G1.
  - by eapply same_sys_trans.
  - congruence.
Qed.

(** The registers come back from where they were saved. *)
Lemma registers_back m top i r s4 s3 : stacked m top (frame_words s None ++ (rg s <$> caller_saved)) →
  (∀ x, top - 112 ≤ x < top → bytes s3 x = m x) → rg s3 RSP = top - 112 → after_pops (reverse caller_saved) s3 s4 →
  reverse caller_saved !! i = Some r → rg s4 r = rg s r.
Proof.
  intros Hst Hb Hr [_ _ Hgot _ _] Hi. rewrite (Hgot i r Hi), Hr. pose proof (lookup_lt_Some _ _ _ Hi) as Hlt. change (length (reverse caller_saved)) with 9%nat in Hlt.
  rewrite (ld_ext 8 m) by (intros x Hx; apply Hb; lia). replace (top - 112 + 8 * Z.of_nat i) with (top - 8 * (Z.of_nat (13 - i) + 1)) by lia.
  apply Hst. rewrite lookup_app_r by (cbn; lia). change (length (frame_words s None)) with 5%nat. rewrite list_lookup_fmap.
  apply list.reverse_lookup_Some in Hi as [Hi _]. change (length caller_saved) with 9%nat in Hi.
  replace (13 - i - 5)%nat with (9 - S i)%nat by lia. by rewrite Hi.
Qed.
Lemma saved_cases q : q = RSP ∨ q ∈ callee_saved ∨ ∃ i, reverse caller_saved !! i = Some q.
Proof.
  destruct q; try (by left); try (right; left; apply (bool_decide_unpack _); exact I); right; right;
    [by exists 8%nat|by exists 7%nat|by exists 6%nat|by exists 5%nat|by exists 4%nat|by exists 3%nat|by exists 2%nat|by exists 1%nat|by exists 0%nat].
Qed.
(** The end of a handler: registers off the stack, then IRETQ. *)
Lemma handler_exit s2 s3 : let top := interrupt_stack s 0 in
  bytes s2 = put_words top (frame_words s None ++ (rg s <$> caller_saved)) (bytes s) → rg s2 RSP = top - 112 → (∀ q, q ≠ RSP → rg s2 q = rg s q) →
  same_sys s s2 → room img s top → after_call s2 s3 →
  ∃ s5, exec run ra ((Pop <$> reverse caller_saved) ++ [Iretq]) s3 = Some (Returned s5) ∧
    (∀ q, rg s5 q = rg s q) ∧ rip s5 = rip s ∧ cs s5 = cs s ∧ rflags s5 = rflags s ∧ sr s5 SS = sr s SS ∧ bytes s5 = bytes s3.
Proof.
  intros top B2 R2 G2 Y2 [_ Hap] [R3 S3 F3 Y3 D3]. destruct Hrun as [Hg _ _ (Hw & Hip & Hfl)].
  assert (Hst : stacked (bytes s2) top (frame_words s None ++ (rg s <$> caller_saved))).
  { rewrite B2. apply put_words_stacked. apply Forall_app. split; [by apply frame_words_ok|]. apply Forall_fmap, Forall_true. intros q. apply Hw. }
  destruct (exec_pops run ra (reverse caller_saved) [Iretq] s3) as (s4 & Hx & Hp).
  { apply (bool_decide_unpack _). exact I. } { apply (bool_decide_unpack _). exact I. }
  pose proof Hp as [B4 R4 _ G4 [Y4 _]]. change (length (reverse caller_saved)) with 9%nat in R4. rewrite Hx. rewrite R3, R2 in R4.
  assert (Hb : ∀ x, top - 112 ≤ x < top → bytes s4 x = bytes s2 x) by (intros x Hx'; rewrite B4; apply F3; lia).
  assert (Hld : ∀ i w, frame_words s None !! i = Some w → ld 8 (bytes s4) (top - 8 * (Z.of_nat i + 1)) = w).
  { intros i w Hi. pose proof (lookup_lt_Some _ _ _ Hi) as Hlt. change (length (frame_words s None)) with 5%nat in Hlt.
    rewrite (ld_ext 8 (bytes s2)) by (intros x Hx'; apply Hb; lia). apply Hst. by rewrite lookup_app_l. }
  assert (Y : same_sys s s4) by (eapply same_sys_trans; [exact Y2|by eapply same_sys_trans]).
  assert (HG : same_gdt s s4).
  { intros a Ha. destruct Y2 as [_ [El Eb] _], (gl_gdtr _ _ Hg) as [Hl Hbs]. unfold apart, GDT_SIZE in *. rewrite B4, D3 by (rewrite El, Eb; exact Ha). rewrite B2, Hbs, Hl in *.
    apply put_words_out. rewrite length_app, length_fmap. change (length caller_saved) with 9%nat. change (length (frame_words s None)) with 5%nat. lia. }
  assert (Hring : cpl s4 = 0) by (unfold cpl; destruct Y as [-> _ _]; by rewrite (gl_cs _ _ Hg)).
  assert (Hl : GDT_SIZE - 1 ≤ gdtr_limit s ∧ gdtr_base s = gdt_at img) by (destruct (gl_gdtr _ _ Hg); lia).
  destruct (iretq_run s4 (rip s) (cs s) (rflags s) (rg s RSP) (sr s SS)) as (s5 & Hi5 & [(I1 & I2 & I3) [I4 I5] I6 I7]).
  { replace (rg s4 RSP) with (top - 8 * (Z.of_nat 4 + 1)) by lia. by apply Hld. }
  { replace (rg s4 RSP + 8) with (top - 8 * (Z.of_nat 3 + 1)) by lia. by apply Hld. }
  { replace (rg s4 RSP + 16) with (top - 8 * (Z.of_nat 2 + 1)) by lia. by apply Hld. }
  { replace (rg s4 RSP + 24) with (top - 8 * (Z.of_nat 1 + 1)) by lia. by apply Hld. }
  { replace (rg s4 RSP + 32) with (top - 8 * (Z.of_nat 0 + 1)) by lia. by apply Hld. }
  { apply (code_ok_same s); [done|done|]. rewrite (gl_cs _ _ Hg). apply (kernel_code_ok img); try tauto; [exact (gl_segments _ _ Hg)|unfold cpl; by rewrite (gl_cs _ _ Hg)]. }
  { rewrite Hring. by rewrite (gl_cs _ _ Hg). }
  { apply (stack_ok_same s); [done|done|]. rewrite (gl_sr _ _ Hg). apply (kernel_stack_ok img); try tauto; [exact (gl_segments _ _ Hg)|unfold cpl; by rewrite (gl_cs _ _ Hg)]. }
  exists s5. cbn [exec]. rewrite Hi5. split; [done|]. split; [|split; [done|split; [done|split; [done|split; [done|congruence]]]]].
  intros q. destruct (saved_cases q) as [->|[Hq|[i Hi]]]; [done| |].
  - assert (q ≠ RSP) by (intros ->; by apply (proj1 rsp_not_saved)). pose proof (saved_disjoint q Hq). rewrite I6, G4 by assumption.
    rewrite S3, G2 by done. done.
  - assert (q ≠ RSP) by (intros ->; apply (proj2 rsp_not_saved), elem_of_reverse; by eapply list_elem_of_lookup_2).
    rewrite I6 by done. eapply (registers_back (bytes s2) top i q s4 s3); [done|intros x Hx'; apply F3; lia|lia|done|done].
Qed.
End interrupts.

(** ** Exceptions that end in a report *)
Definition error_saved : list reg := [RAX; RCX; RDX; RSI; R8; R9; R10; R11].
Lemma code_error v h i : (v, h, i) ∈ vectors → has_error_code h = true →
  ∃ f rest, calls h = [f] ∧ halts f = true ∧ code h = Pop RDI :: (Push <$> error_saved) ++ Call f :: rest.
Proof.
  intros Hv He. unfold vectors in Hv. rewrite !elem_of_cons, elem_of_nil in Hv.
  destruct Hv as [[= -> -> ->]|[[= -> -> ->]|[[= -> -> ->]|[[= -> -> ->]|[[= -> -> ->]|[[= -> -> ->]|[[= -> -> ->]|[[= -> -> ->]|[]]]]]]]]]; try done; by eexists _, _.
Qed.
Lemma exec_stuck run ra f k s : slot_ok s (rg s RSP - 8) = true → (∀ s, run f s = None) → exec run ra (Call f :: k) s = Some (Inside f (pushed ra s)).
Proof. intros Hs Hr. cbn [exec]. by rewrite push_run, Hr. Qed.
Lemma error_handler_run run ra f rest s s1 top e target : entered top (Some e) target s s1 → Forall word (frame_words s (Some e)) →
  (∀ k, (k < 15)%nat → slot_ok s (top - 8 * (Z.of_nat k + 1)) = true) → (∀ s, run f s = None) →
  ∃ s2, exec run ra (Pop RDI :: (Push <$> error_saved) ++ Call f :: rest) s1 = Some (Inside f s2) ∧
    rg s2 RDI = e ∧ rg s2 RSP = top - 112 ∧ cr2 s2 = cr2 s ∧ (∀ q, q ≠ RSP → q ≠ RDI → rg s2 q = rg s q).
Proof.
  intros [_ _ B1 R1 G1 [Y1 C1]] Hw Hs Hr. change (length (frame_words s (Some e))) with 6%nat in R1. cbn [exec]. rewrite pop_run.
  assert (He : ld 8 (bytes s1) (rg s1 RSP) = e).
  { rewrite B1, R1. replace (top - 8 * Z.of_nat 6) with (top - 8 * (Z.of_nat 5 + 1)) by lia. by apply (put_words_stacked top (frame_words s (Some e))). }
  rewrite He. set (s2 := set_rg RDI e (popped s1)).
  assert (R2 : rg s2 RSP = top - 40) by (change (rg s1 RSP + 8 = top - 40); lia).
  assert (Y2 : same_sys s s2) by (by apply (same_sys_trans s s1)). assert (Hn : RSP ∉ error_saved) by (apply (bool_decide_unpack _); exact I).
  destruct (exec_pushes run ra error_saved (Call f :: rest) s2 Hn) as (s3 & Hx & [_ R3 G3 (Y3 & C3 & _)]).
  { intros k Hk. change (length error_saved) with 8%nat in Hk. rewrite (slot_ok_same s), R2 by done. rewrite <-(Hs (5 + k)%nat) by lia. f_equal. lia. }
  rewrite length_fmap in R3. change (length error_saved) with 8%nat in R3. rewrite Hx.
  assert (Y : same_sys s s3) by (by eapply same_sys_trans).
  rewrite exec_stuck; [|rewrite (slot_ok_same s), R3, R2 by done; rewrite <-(Hs 13%nat) by lia; f_equal; lia|done].
  assert (G : ∀ q, q ≠ RSP → rg (pushed ra s3) q = rg s3 q) by (by intros []).
  exists (pushed ra s3). split; [done|]. split; [rewrite G, G3 by done; done|]. split; [change (rg s3 RSP - 8 = top - 112); lia|]. split.
  - change (cr2 s3 = cr2 s). rewrite C3. exact C1.
  - intros q Hq Hq'. rewrite G, G3 by done. unfold s2, popped. rewrite !rg_set, !decide_False by done. by apply G1.
Qed.

Lemma land_bit e n : 0 ≤ n → negb (Z.land e (2 ^ n) =? 0) = Z.testbit e n.
Proof.
  intros Hn. destruct (Z.testbit e n) eqn:E.
  - apply negb_true_iff, Z.eqb_neq. intros H. assert (Hb : Z.testbit (Z.land e (2 ^ n)) n = false) by (by rewrite H, Z.bits_0).
    rewrite Z.land_spec, E, Z.pow2_bits_true in Hb by done. done.
  - apply negb_false_iff, Z.eqb_eq. apply Z.bits_inj'. intros k Hk. rewrite Z.land_spec, Z.bits_0, Z.pow2_bits_eqb by done.
    destruct (Z.eqb_spec n k) as [<-|]; [by rewrite E|apply andb_false_r].
Qed.
Lemma page_fault_decoded e a : page_fault_handler_inner e a =
  PageFault a e (Z.testbit e 0) (Z.testbit e 1) (Z.testbit e 2) (Z.testbit e 3) (Z.testbit e 4).
Proof. unfold page_fault_handler_inner. by rewrite <-!(land_bit e) by lia. Qed.
Lemma protection_fault_decoded e : word e → general_protection_fault_handler_inner e =
  GeneralProtectionFault e (if e =? 0 then None else
    Some (Z.testbit e 0, match e / 2 mod 4 with 0 => TableGdt | 2 => TableLdt | _ => TableIdt end, e / 8 mod 2 ^ 13)).
Proof.
  intros He. unfold general_protection_fault_handler_inner. destruct (Z.eqb_spec e 0); [done|]. cbn [negb]. rewrite <-(land_bit e 0) by lia.
  change (Z.land (Z.shiftr e 1) 3) with (Z.land (Z.shiftr e 1) (Z.ones 2)). change 0x1FFF with (Z.ones 13). rewrite !Z.land_ones, !Z.shiftr_div_pow2 by lia. change (2 ^ 1) with 2. change (2 ^ 2) with 4. change (2 ^ 3) with 8.
  pose proof (Z.mod_pos_bound (e / 2) 4 ltac:(lia)).
  assert (E : e / 2 mod 4 = 0 ∨ e / 2 mod 4 = 1 ∨ e / 2 mod 4 = 2 ∨ e / 2 mod 4 = 3) by lia. by destruct E as [E|[E|[E|E]]]; rewrite E.
Qed.


(** ** A stack overflow *)
Lemma guard_absent kimg bi p : image_ok kimg → phys_of (stack_guard_ kimg) ≤ p < phys_of (stack_guard_ kimg) + 4096 → expected kimg bi p = None.
Proof.
  intros Him Hp. destruct (layout kimg Him) as (L1 & L2 & L3 & L4 & L5 & _ & _ & _ & Lg & _). pose proof (page_phys _ Lg) as [g Eg].
  assert (Ep : p / 4096 * 4096 = phys_of (stack_guard_ kimg)) by (rewrite Eg in *; dlia). unfold expected. rewrite Ep. unfold within, phys_of in *.
  rewrite (proj2 (Z.ltb_ge _ (text_end_ kimg - KERNEL_VIRTUAL_BASE))), (proj2 (Z.ltb_ge _ (rodata_end_ kimg - KERNEL_VIRTUAL_BASE))),
    (proj2 (Z.ltb_ge _ (bss_end_ kimg - KERNEL_VIRTUAL_BASE))) by lia. by rewrite !andb_false_r, Z.eqb_refl.
Qed.
Lemma data_writable kimg bi p : image_ok kimg → phys_of (data_start_ kimg) ≤ p < phys_of (bss_end_ kimg) → expected kimg bi p = Some (mkMapping p true true false).
Proof.
  intros Him Hp. destruct (layout kimg Him) as (L1 & L2 & L3 & L4 & L5 & _ & _ & Ld & _). pose proof (page_phys _ Ld) as [d Ed].
  unfold expected, within, phys_of in *. assert (Hlow : d * 4096 ≤ p / 4096 * 4096 ≤ p) by dlia.
  rewrite (proj2 (Z.ltb_ge _ (text_end_ kimg - KERNEL_VIRTUAL_BASE))), (proj2 (Z.ltb_ge _ (rodata_end_ kimg - KERNEL_VIRTUAL_BASE))) by lia.
  rewrite !andb_false_r. by rewrite (proj2 (Z.leb_le _ _)), (proj2 (Z.ltb_lt _ _)) by lia.
Qed.
(** The processor writes through the kernel's page tables. *)
Definition through (kimg : kernel_image) (ps : pstate) (s : mach) : Prop :=
  ∀ a, writable s a = match translate kimg ps a with Some m => m_writable m | None => false end.
(** The first push that a frame of [n] words, put at [top], cannot make. *)
Lemma first_fault s g top ws : (∀ a, g ≤ a < g + 4096 → writable s a = false) → (∀ a, g + 4096 ≤ a < g + 8192 → writable s a = true) →
  (8 | top - g) → g + 8 ≤ top ≤ g + 4096 + 8 * (Z.of_nat (length ws) - 1) → (0 < length ws ≤ 6)%nat →
  ∃ k x, list_find (λ x, slot_ok s x.1 = false) (slots top ws) = Some (k, x) ∧ g ≤ x.1 < g + 4096.
Proof.
  intros Hg Hs [t Et] Htop Hlen.
  assert (Hslot : ∀ i x, slots top ws !! i = Some x → x.1 = top - 8 * (Z.of_nat i + 1) ∧ (i < length ws)%nat).
  { intros i x Hi. unfold slots in Hi. rewrite list_lookup_imap in Hi. destruct (ws !! i) eqn:E; [|done]. injection Hi as <-. by apply lookup_lt_Some in E. }
  assert (Hno : ∀ a, g ≤ a < g + 4096 → slot_ok s a = false) by (intros a Ha; unfold slot_ok; by rewrite Hg).
  set (k0 := Z.to_nat (Z.max 0 ((top - g - 4096) / 8))).
  assert (Hk0 : (k0 < length ws)%nat ∧ g ≤ top - 8 * (Z.of_nat k0 + 1) < g + 4096) by (unfold k0; replace ((top - g - 4096) / 8) with (t - 512) by dlia; lia).
  destruct (list_find (λ x, slot_ok s x.1 = false) (slots top ws)) as [[k x]|] eqn:Ef.
  - exists k, x. split; [done|]. apply list_find_Some in Ef as (Hx & Hbad & Hprev). destruct (Hslot _ _ Hx) as [E Hk].
    assert (Hkk : (k ≤ k0)%nat).
    { destruct (decide (k ≤ k0)%nat); [done|]. destruct (lookup_lt_is_Some_2 (slots top ws) k0) as [y Hy]; [rewrite length_slots; lia|].
      exfalso. apply (Hprev k0 y Hy); [lia|]. destruct (Hslot _ _ Hy) as [Ey _]. rewrite Ey. apply Hno. lia. }
    rewrite E in *. split; [lia|]. destruct (decide (top - 8 * (Z.of_nat k + 1) < g + 4096)); [done|]. unfold slot_ok in Hbad. rewrite !Hs in Hbad by lia. done.
  - apply list_find_None in Ef. rewrite Forall_lookup in Ef. destruct (lookup_lt_is_Some_2 (slots top ws) k0) as [y Hy]; [rewrite length_slots; lia|].
    exfalso. apply (Ef k0 y Hy). destruct (Hslot _ _ Hy) as [Ey _]. rewrite Ey. apply Hno. lia.
Qed.
(** What the processor sees of the direct map after [paging::init]. *)
Lemma kernel_view kimg bi ps0 ps : image_ok kimg → pshape ps0 → 0 ≤ max_physical_address bi → mmio_map_ok (regions_of bi) →
  stack_guard_ kimg + 4096 ≤ KERNEL_VIRTUAL_BASE + actual_max bi → init kimg bi ps0 = Some (Ok tt, ps) →
  ∀ s a, through kimg ps s → KERNEL_VIRTUAL_BASE ≤ a < KERNEL_VIRTUAL_BASE + 2 ^ 39 →
    writable s a = match expected kimg bi (a - KERNEL_VIRTUAL_BASE) with Some m => m_writable m | None => false end.
Proof.
  intros Himg Hshape Hmax Hmmio Hfits Hinit s a Hthrough Ha.
  destruct (init_links kimg bi ps0 Himg Hmax Hmmio Hshape Hfits) as (ps' & Hinit' & Hpi & _ & _ & _ & Hres & _).
  rewrite Hinit in Hinit'. injection Hinit' as <-. rewrite Hthrough.
  replace a with (KERNEL_VIRTUAL_BASE + (a - KERNEL_VIRTUAL_BASE)) at 1 by lia. by rewrite walk_resolve, Hres by (done || lia).
Qed.
(** A page fault whose frame does not fit is a double fault. *)
Lemma page_fault_doubled img idt_at address s addr error k x : running img idt_at address s →
  list_find (λ x, slot_ok s x.1 = false) (slots (interrupt_stack s 0) (frame_words s (Some error))) = Some (k, x) →
  page_fault addr error s = double_fault (set_cr2 x.1 (set_cr2 addr s)).
Proof.
  intros [Hgl Hil Hca _] Hfind. assert (E14 : (14, page_fault_handler, 0) ∈ vectors) by (do 6 right; left).
  unfold page_fault, deliver. set (s' := set_cr2 addr s). change (idtr_limit s') with (idtr_limit s). change (idtr_base s') with (idtr_base s). change (bytes s') with (bytes s).
  destruct (il_idtr _ _ _ Hil) as [-> ->]. change (16 * 14 + 15 <=? IDT_SIZE - 1) with true. cbn [negb].
  change (gate_ok s' ?g) with (gate_ok s g). rewrite (gate_open img idt_at address s Hgl Hil Hca _ _ _ E14). cbn [negb]. rewrite (il_gate _ _ _ Hil _ _ _ E14). cbn [g_ist].
  change (interrupt_stack s' 0) with (interrupt_stack s 0). change (frame_words s' (Some error)) with (frame_words s (Some error)).
  assert (Hfind' : list_find (λ x, slot_ok s' x.1 = false) (slots (interrupt_stack s 0) (frame_words s (Some error))) = Some (k, x)) by exact Hfind.
  by rewrite Hfind'.
Qed.
Lemma running_cr2 img idt_at address s a : running img idt_at address s → running img idt_at address (set_cr2 a s).
Proof. intros [[] [] ? ?]. split; [split; assumption|split; assumption|assumption|done]. Qed.

(** ** Loading the tables *)
Lemma tables_init img idt_at address s (Hready : gdt_ready img s) (Hzero : ∀ x, idt_at ≤ x < idt_at + IDT_SIZE → bytes s x = 0)
  (Haddr : ∀ h, word (address h) ∧ canonical (address h) = true)
  (Hapart : apart idt_at IDT_SIZE (gdt_at img) GDT_SIZE ∧ apart idt_at IDT_SIZE (tss_at img) TSS_SIZE ∧ apart idt_at IDT_SIZE (rg s RSP - 16) 16) :
  ∃ s1 s2 s3, gdt_init img s = Some (Ok tt, s1) ∧ gdt_init img s1 = Some (Ok tt, s2) ∧ idt_init idt_at address s2 = Some (Ok tt, s3) ∧
    gdt_loaded img s3 ∧ idt_loaded idt_at address s3 ∧ (∀ q, rg s3 q = rg s q) ∧ rflags s3 = rflags s ∧ rip s3 = reload_label img ∧ (∀ a, writable s3 a = writable s a) ∧
    interrupt_stack s3 1 = (double_fault_stack_at img + DOUBLE_FAULT_STACK_SIZE) / 16 * 16 ∧
    (∀ v h i, (v, h, i) ∈ vectors → gate_ok s3 (gate_at (bytes s3) (idt_at + 16 * v)) = true ∧ g_offset (gate_at (bytes s3) (idt_at + 16 * v)) = address h) ∧
    (∀ v error, 0 ≤ v < 256 → v ∉ ((λ x, x.1.1) <$> vectors) → deliver v error s3 = Refused).
Proof.
  assert (Hcan : ∀ h, canonical (address h) = true) by (intros h; apply Haddr). destruct Hapart as (P1 & P2 & P3). unfold apart, IDT_SIZE, GDT_SIZE, TSS_SIZE in P1, P2, P3.
  destruct (proj1 (wp_run _ _ _) (gdt_init_spec img s Hready)) as (r1 & s1 & Hr1 & -> & L1 & _ & F1 & G1 & _ & _ & W1 & _ & M1).
  assert (Hready1 : gdt_ready img s1).
  { destruct Hready as [_ _ Hw Ha [S1 S2]]. split; [exact (gl_segments _ _ L1)|exact (ring_0 img s1 L1)|done|by rewrite !G1|]. unfold slot_ok. by rewrite !G1, !W1. }
  destruct (proj1 (wp_run _ _ _) (gdt_init_spec img s1 Hready1)) as (r2 & s2 & Hr2 & -> & L2 & I2 & F2 & G2 & _ & _ & W2 & _ & M2).
  assert (Hzero2 : ∀ x, idt_at ≤ x < idt_at + IDT_SIZE → bytes s2 x = 0).
  { unfold IDT_SIZE. intros x Hx. rewrite M2, M1; [by apply Hzero| |]; unfold gdt_touched; rewrite ?G1; lia. }
  destruct (proj1 (wp_run _ _ _) (idt_init_spec idt_at address s2 (λ h, proj1 (Haddr h)) Hzero2)) as (r3 & s3 & Hr3 & -> & L3 & E3 & M3).
  set (m3 := bytes s3) in *. unfold IDT_SIZE in M3.
  assert (L : gdt_loaded img s3).
  { destruct L2 as [A B C D E F]. rewrite E3. split; cbn [bytes set_idtr set_bytes]; [exact A| |exact C|exact D|exact E|].
    - apply (holds_at_ext (bytes s2)); [done|]. change (Z.of_nat (length (segments_bytes Gdt_new))) with 40. intros x Hx. apply M3. lia.
    - rewrite <-F. apply ld_ext. intros x Hx. apply M3. lia. }
  exists s1, s2, s3. split; [done|]. split; [done|]. split; [done|]. split; [done|]. split; [done|]. split; [|split; [|split; [|split; [|split; [|split]]]]].
  - intros q. rewrite E3. change (rg s2 q = rg s q). by rewrite G2, G1.
  - rewrite E3. change (rflags s2 = rflags s). congruence.
  - rewrite E3. exact I2.
  - intros a. rewrite E3. change (writable s2 a = writable s a). by rewrite W2, W1.
  - unfold interrupt_stack. change (1 =? 0) with false. cbv iota. destruct L as [_ _ _ _ [_ ->] Hi]. replace (tss_at img + 36 + 8 * (1 - 1)) with (tss_at img + 36) by lia. by rewrite Hi.
  - intros v h i Hv. split; [by eapply (gate_open img)|]. by rewrite (il_gate _ _ _ L3 v h i Hv).
  - intros v error Hv Hn. by eapply (deliver_other idt_at address).
Qed.
