(* ===== verification/IdtProps.v ===== *)
(** * The descriptor tables and interrupts: the theorems. *)
From S2P Require Import Prelude Addr BootInfo X86 Paging PagingSpec PagingWalk PagingMmio PagingInit PagingProps Apic Cpu Gdt GdtThms Idt IdtThms Interrupts.
Set Default Goal Selector "!".

(** C8: Transparency of every interrupt whose handler comes back: with the tables
    loaded and room on the stack, the processor enters the handler of the vector
    with interrupts off, and whatever the functions it calls do within the calling
    convention, the handler ends with IRETQ and the interrupted code goes on with
    all sixteen registers, the instruction pointer, the flags and the segments it
    had. *)
Theorem interrupt_transparent img idt_at address s run ra v h (Hrun : running img idt_at address s) (Hroom : room img s (interrupt_stack s 0))
  (Hv : (v, h, 0) ∈ vectors) (Hh : has_error_code h = false) (Habi : ∀ f s s', run f s = Some s' → abi_call s s')
  (Hret : ∀ f s, f ∈ calls h → is_Some (run f s)) :
  ∃ s1 s2, deliver v None s = Entered s1 ∧ rip s1 = address h ∧ Z.testbit (rflags s1) 9 = false ∧
    exec run ra (code h) s1 = Some (Returned s2) ∧
    (∀ q, rg s2 q = rg s q) ∧ rip s2 = rip s ∧ cs s2 = cs s ∧ rflags s2 = rflags s ∧ sr s2 SS = sr s SS.
Proof.
  destruct (code_plain v h 0 Hv Hh) as [_ Hc]. pose proof Hroom as [Hs Hap]. set (top := interrupt_stack s 0) in *.
  destruct (entered_saved img idt_at address s Hrun run ra v h caller_saved _ Hv Hroom (proj2 rsp_not_saved) ltac:(cbn; lia) Hc)
    as (s1 & s2 & Hd & [E1 E2 _ _ _ _] & Hx & B2 & R2 & G2 & Y2 & _). fold top in B2, R2. change (length caller_saved) with 9%nat in R2.
  destruct (exec_calls run ra Habi (calls h) ((Pop <$> reverse caller_saved) ++ [Iretq]) s2) as (s3 & Hx3 & Hcall).
  - rewrite (slot_ok_same s), R2 by done. rewrite <-(Hs 14%nat) by lia. f_equal. lia.
  - unfold below_apart. destruct Y2 as [_ [-> ->] _]. destruct (ru_gdt _ _ _ _ Hrun) as [[-> ->] _ _ _ _ _]. unfold apart, GDT_SIZE in *. lia.
  - intros f s' Hf. by apply Hret.
  - destruct (handler_exit img idt_at address s Hrun run ra s2 s3 B2 ltac:(fold top; lia) G2 Y2 Hroom Hcall) as (s5 & Hx5 & H1 & H2 & H3 & H4 & H5 & _).
    exists s1, s5. split; [exact Hd|]. split; [exact E1|]. split; [rewrite E2; unfold gate_flags; rewrite Z.land_spec, Z.lnot_spec by lia; change (Z.testbit 0x34300 9) with true; apply andb_false_r|].
    split; [by rewrite Hx, Hx3|]. split; [exact H1|]. split; [exact H2|]. split; [exact H3|]. split; [exact H4|exact H5].
Qed.

(** C10: The two runs of [gdt::init] that the kernel makes and the one of
    [idt::init] succeed: the second LTR finds the descriptor available again.
    The processor then runs in the kernel's segments, each of the eight vectors
    leads to its handler through a present interrupt gate, the double fault's on
    the stack of its own; every other vector, the APIC's spurious one included, is
    refused; registers are as before. *)
Theorem descriptor_tables_correct img idt_at address s (Hready : gdt_ready img s) (Hzero : ∀ x, idt_at ≤ x < idt_at + IDT_SIZE → bytes s x = 0)
  (Haddr : ∀ h, word (address h) ∧ canonical (address h) = true)
  (Hapart : apart idt_at IDT_SIZE (gdt_at img) GDT_SIZE ∧ apart idt_at IDT_SIZE (tss_at img) TSS_SIZE ∧ apart idt_at IDT_SIZE (rg s RSP - 16) 16) :
  ∃ s1 s2 s3, gdt_init img s = Some (Ok tt, s1) ∧ gdt_init img s1 = Some (Ok tt, s2) ∧ idt_init idt_at address s2 = Some (Ok tt, s3) ∧
    gdt_loaded img s3 ∧ idt_loaded idt_at address s3 ∧ (∀ q, rg s3 q = rg s q) ∧ rflags s3 = rflags s ∧ rip s3 = reload_label img ∧ (∀ a, writable s3 a = writable s a) ∧
    interrupt_stack s3 1 = (double_fault_stack_at img + DOUBLE_FAULT_STACK_SIZE) / 16 * 16 ∧
    (∀ v h i, (v, h, i) ∈ vectors → gate_ok s3 (gate_at (bytes s3) (idt_at + 16 * v)) = true ∧ g_offset (gate_at (bytes s3) (idt_at + 16 * v)) = address h) ∧
    (∀ v error, 0 ≤ v < 256 → v ∉ ((λ x, x.1.1) <$> vectors) → deliver v error s3 = Refused).
Proof. by apply tables_init. Qed.

(** C37: Every exception that stops the kernel reaches the function that reports
    it: without an error code, with the interrupted registers and an aligned
    stack; with one, with the code in RDI and the report decoded from its bits and
    CR2.  There the interrupted RDI is lost and the stack is 8 bytes off the
    calling convention's alignment. *)
Theorem exceptions_reported img idt_at address s run ra v h i f kimg (Hrun : running img idt_at address s) (Hroom : room img s (interrupt_stack s i))
  (Hv : (v, h, i) ∈ vectors) (Hf : calls h = [f]) (Hhalts : ∀ g s, halts g = true → run g s = None) (Hstops : halts f = true) :
  (has_error_code h = false → ∃ s1 s2, deliver v None s = Entered s1 ∧ exec run ra (code h) s1 = Some (Inside f s2) ∧
     (∀ q, q ≠ RSP → rg s2 q = rg s q) ∧ (rg s2 RSP + 8) mod 16 = 0) ∧
  (has_error_code h = true → ∀ e, word e → ∃ s1 s2, deliver v (Some e) s = Entered s1 ∧ rip s1 = address h ∧ exec run ra (code h) s1 = Some (Inside f s2) ∧
     rg s2 RDI = e ∧ (∀ q, q ≠ RSP → q ≠ RDI → rg s2 q = rg s q) ∧ (rg s2 RSP + 8) mod 16 = 8 ∧
     (h = page_fault_handler → reported kimg f s2 =
        Some (PageFault (cr2 s) e (Z.testbit e 0) (Z.testbit e 1) (Z.testbit e 2) (Z.testbit e 3) (Z.testbit e 4))) ∧
     (h = general_protection_fault_handler → reported kimg f s2 =
        Some (GeneralProtectionFault e (if e =? 0 then None else
          Some (Z.testbit e 0, match e / 2 mod 4 with 0 => TableGdt | 2 => TableLdt | _ => TableIdt end, e / 8 mod 2 ^ 13)))) ∧
     (h = double_fault_handler → reported kimg f s2 =
        Some (if is_guard_page_fault kimg (cr2 s) then StackOverflow (stack_guard_ kimg) (cr2 s) e else DoubleFault e (cr2 s)))).
Proof.
  pose proof Hrun as [Hg Hi Ha _]. pose proof Hroom as [Hs _]. assert (Hr : ∀ s, run f s = None) by (intros s'; by apply Hhalts). split.
  - intros He. destruct (code_plain v h i Hv He) as [-> Hc]. rewrite Hf in Hc. cbn [fmap list_fmap app] in Hc.
    destruct (entered_saved img idt_at address s Hrun run ra v h caller_saved _ Hv Hroom (proj2 rsp_not_saved) ltac:(cbn; lia) Hc)
      as (s1 & s2 & Hd & _ & Hx & _ & R2 & G2 & Y2 & _). change (length caller_saved) with 9%nat in R2. set (top := interrupt_stack s 0) in *.
    rewrite exec_stuck in Hx; [|rewrite (slot_ok_same s), R2 by done; rewrite <-(Hs 14%nat) by lia; f_equal; lia|done].
    exists s1, (pushed ra s2). split; [exact Hd|]. split; [exact Hx|]. split; [intros q Hq; rewrite <-G2 by done; by destruct q|].
    change ((rg s2 RSP - 8 + 8) mod 16 = 0). rewrite R2. unfold top, interrupt_stack. change (0 =? 0) with true. cbv iota. dlia.
  - intros He e Hw. destruct (code_error v h i Hv He) as (g & rest & Hg' & _ & Hc). rewrite Hf in Hg'. injection Hg' as <-.
    destruct (deliver_entered img idt_at address s Hg Hi Ha v h i (Some e) Hv) as (s1 & Hd & Hen); [intros k Hk; apply Hs; cbn in Hk; lia|].
    destruct (error_handler_run run ra f rest s s1 _ e _ Hen) as (s2 & Hx & Hrdi & Hrsp & Hcr & Hregs); [by eapply frame_words_ok|exact Hs|done|].
    exists s1, s2. split; [exact Hd|]. split; [apply Hen|]. split; [by rewrite Hc|]. split; [exact Hrdi|]. split; [exact Hregs|].
    split; [rewrite Hrsp; unfold interrupt_stack; dlia|]. split; [|split]; intros ->; injection Hf as <-; cbn [reported]; rewrite Hrdi, ?Hcr.
    + by rewrite page_fault_decoded.
    + by rewrite protection_fault_decoded.
    + reflexivity.
Qed.

(** C9: A stack overflow is reported as one.  When the kernel's page tables are
    those of [paging::init] and the stack pointer has come down so far that the
    frame of a page fault no longer fits above the guard page, the processor's page
    fault becomes a double fault; its handler runs on the stack of its own, and
    what it prints is the stack overflow, with the guard page and an address in it. *)
Theorem stack_overflow_reported kimg bi ps0 ps img idt_at address s run ra addr error
  (Himg : image_ok kimg) (Hshape : pshape ps0) (Hmax : 0 ≤ max_physical_address bi) (Hmmio : mmio_map_ok (regions_of bi))
  (Hfits : stack_guard_ kimg + 4096 ≤ KERNEL_VIRTUAL_BASE + actual_max bi) (Hinit : init kimg bi ps0 = Some (Ok tt, ps))
  (Hrun : running img idt_at address s) (Hthrough : through kimg ps s)
  (Hdf : data_start_ kimg ≤ double_fault_stack_at img ∧ double_fault_stack_at img + DOUBLE_FAULT_STACK_SIZE ≤ bss_end_ kimg)
  (Hstack : ∀ a, stack_guard_ kimg + 4096 ≤ a < stack_guard_ kimg + 8192 → writable s a = true)
  (Hover : stack_guard_ kimg + 8 ≤ interrupt_stack s 0 ≤ stack_guard_ kimg + 4096 + 40) (Hhalts : ∀ f s, halts f = true → run f s = None) :
  ∃ s1 s2 a, page_fault addr error s = Some s1 ∧ rip s1 = address double_fault_handler ∧
    exec run ra (code double_fault_handler) s1 = Some (Inside double_fault_inner s2) ∧
    double_fault_stack_at img ≤ rg s2 RSP < double_fault_stack_at img + DOUBLE_FAULT_STACK_SIZE ∧
    stack_guard_ kimg ≤ a < stack_guard_ kimg + 4096 ∧
    reported kimg double_fault_inner s2 = Some (StackOverflow (stack_guard_ kimg) a 0).
Proof.
  pose proof (kernel_view kimg bi ps0 ps Himg Hshape Hmax Hmmio Hfits Hinit s) as Hview.
  destruct (layout kimg Himg) as (L1 & L2 & L3 & L4 & L5 & _ & _ & _ & [g Lg] & _ & _ & G3). set (G := stack_guard_ kimg) in *.
  unfold DOUBLE_FAULT_STACK_SIZE in *. set (D := double_fault_stack_at img) in *. pose proof Hrun as [Hgl _ Hca _].
  assert (Hguard : ∀ a, G ≤ a < G + 4096 → writable s a = false).
  { intros a Ha. rewrite Hview by (done || lia). rewrite (guard_absent kimg bi); [done|done|]. unfold phys_of. fold G. lia. }
  assert (Hdata : ∀ a, D ≤ a < D + 16384 → writable s a = true).
  { intros a Ha. rewrite Hview by (done || lia). rewrite (data_writable kimg bi); [done|done|]. unfold phys_of. lia. }
  destruct (first_fault s G (interrupt_stack s 0) (frame_words s (Some error)) Hguard Hstack) as (k & x & Hfind & Hx).
  { unfold interrupt_stack. change (0 =? 0) with true. cbv iota. exists (rg s RSP / 16 * 2 - g * 512). lia. }
  { cbn. lia. } { cbn. lia. }
  set (s'' := set_cr2 x.1 (set_cr2 addr s)). assert (Hrun'' : running img idt_at address s'') by (by do 2 apply running_cr2).
  assert (Htop : interrupt_stack s'' 1 = (D + 16384) / 16 * 16).
  { unfold interrupt_stack. change (1 =? 0) with false. cbv iota. change (tss_base s'') with (tss_base s). destruct (gl_tr _ _ Hgl) as [_ ->].
    replace (tss_at img + 36 + 8 * (1 - 1)) with (tss_at img + 36) by lia. change (bytes s'') with (bytes s). by rewrite (gl_ist1 _ _ Hgl). }
  assert (Hslots : ∀ k, (k < 15)%nat → slot_ok s'' ((D + 16384) / 16 * 16 - 8 * (Z.of_nat k + 1)) = true).
  { intros j Hj. unfold slot_ok. change (writable s'') with (writable s). rewrite !Hdata by dlia. done. }
  destruct (deliver_entered img idt_at address s'' (ru_gdt _ _ _ _ Hrun'') (ru_idt _ _ _ _ Hrun'') Hca 8 double_fault_handler 1 (Some 0) ltac:(do 4 right; left)) as (s1 & Hd & Hen).
  { rewrite Htop. intros j Hj. apply Hslots. cbn in Hj. lia. }
  destruct (error_handler_run run ra double_fault_inner ((Pop <$> reverse error_saved) ++ [Iretq]) s'' s1 _ 0 _ Hen ltac:(by eapply frame_words_ok) ltac:(by rewrite Htop) ltac:(intros; by apply Hhalts))
    as (s2 & Hxx & Hrdi & Hrsp & Hcr & _).
  exists s1, s2, x.1. split; [rewrite (page_fault_doubled img idt_at address s addr error k x Hrun Hfind); unfold double_fault; fold s''; by rewrite Hd|].
  split; [apply Hen|]. split; [exact Hxx|]. split; [rewrite Hrsp, Htop; dlia|]. split; [exact Hx|].
  cbn [reported]. rewrite Hrdi, Hcr. unfold double_fault_handler_inner, is_guard_page_fault, guard_page_address.
  change (cr2 s'') with (x.1). fold G. unfold PAGE_SIZE. by rewrite (proj2 (Z.leb_le _ _)), (proj2 (Z.ltb_lt _ _)) by lia.
Qed.

(** ** Witnesses: the tables in the data of the 512 MiB machine's kernel *)
Definition demo_gdt : gdt_image := mkGdtImage (KERNEL_VIRTUAL_BASE + 0x300000) (KERNEL_VIRTUAL_BASE + 0x300100) (KERNEL_VIRTUAL_BASE + 0x301000) (KERNEL_VIRTUAL_BASE + 0x100100).
Definition demo_idt : Z := KERNEL_VIRTUAL_BASE + 0x310000.
Definition demo_address (h : handler) : Z := KERNEL_VIRTUAL_BASE + 0x110000 + match h with
  | divide_error_handler => 0 | debug_exception_handler => 0x100 | breakpoint_handler => 0x200 | invalid_opcode_handler => 0x300
  | double_fault_handler => 0x400 | general_protection_fault_handler => 0x500 | page_fault_handler => 0x600
  | timer_interrupt_handler => 0x700 | default_handler => 0x800 end.
Definition demo_cpu (w : Z → bool) : mach :=
  mkMach (λ r, match r with RSP => KERNEL_VIRTUAL_BASE + 0x320000 | RDI => 0x1234 | _ => 7 end) (KERNEL_VIRTUAL_BASE + 0x100000) 0x202 8 (λ _, 0x10)
    0 0 0 0 0 0 0 w (put_bytes (KERNEL_VIRTUAL_BASE + 0x300000) (gdt_bytes Gdt_new) (λ _, 0)).
Definition demo_callee (f : callee) (s : mach) : option mach := if halts f then None else Some (set_rg RAX 99 (popped s)).
Lemma gdt_demo_ready w : (∀ a, KERNEL_VIRTUAL_BASE + 0x300000 ≤ a < KERNEL_VIRTUAL_BASE + 0x320000 → w a = true) → gdt_ready demo_gdt (demo_cpu w).
Proof.
  intros Hw. split.
  - intros i b Hi. cbn [bytes demo_cpu gdt_at demo_gdt]. apply put_bytes_in. unfold gdt_bytes. rewrite lookup_app_l; [done|]. by apply lookup_lt_Some in Hi.
  - reflexivity.
  - vm_compute. repeat split; discriminate.
  - unfold apart. vm_compute. repeat split; by (left + right).
  - unfold slot_ok. cbn [writable demo_cpu rg]. unfold KERNEL_VIRTUAL_BASE in *. by rewrite !Hw by lia.
Qed.
Lemma demo_address_ok h : word (demo_address h) ∧ canonical (demo_address h) = true.
Proof. destruct h; vm_compute; repeat split; discriminate. Qed.
Lemma demo_zero w x : demo_idt ≤ x < demo_idt + IDT_SIZE → bytes (demo_cpu w) x = 0.
Proof. intros Hx. cbn [bytes demo_cpu]. apply put_bytes_out. right. change (length (gdt_bytes Gdt_new)) with 56%nat. unfold demo_idt in Hx. lia. Qed.
Lemma demo_apart w : apart demo_idt IDT_SIZE (gdt_at demo_gdt) GDT_SIZE ∧ apart demo_idt IDT_SIZE (tss_at demo_gdt) TSS_SIZE ∧ apart demo_idt IDT_SIZE (rg (demo_cpu w) RSP - 16) 16.
Proof. unfold apart. vm_compute. repeat split; by (left + right). Qed.
Lemma demo_running w : (∀ a, KERNEL_VIRTUAL_BASE + 0x300000 ≤ a < KERNEL_VIRTUAL_BASE + 0x320000 → w a = true) →
  ∃ s, running demo_gdt demo_idt demo_address s ∧ (∀ q, rg s q = rg (demo_cpu w) q) ∧ ∀ a, writable s a = w a.
Proof.
  intros Hw. destruct (tables_init demo_gdt demo_idt demo_address (demo_cpu w) (gdt_demo_ready w Hw) (demo_zero w) demo_address_ok (demo_apart w))
    as (s1 & s2 & s3 & _ & _ & _ & Hg & Hi & Hr & Hf & Hip & Hwr & _).
  exists s3. split; [|by split]. split; [done|done|intros h; apply demo_address_ok|]. split; [intros q; rewrite Hr; by destruct q|]. rewrite Hf, Hip. done.
Qed.
Lemma demo_abi f s s' : demo_callee f s = Some s' → abi_call s s'.
Proof.
  unfold demo_callee. destruct (halts f); [done|]. intros [= <-]. split; [done| |done|done|by intros a _].
  intros r Hr. unfold popped. rewrite !rg_set, !decide_False; [done| |]; intros <-; revert Hr; apply (bool_decide_unpack _); exact I.
Qed.
Lemma demo_room (s : mach) w top : (∀ a, writable s a = w a) → (∀ a, KERNEL_VIRTUAL_BASE + 0x300000 ≤ a < KERNEL_VIRTUAL_BASE + 0x320000 → w a = true) →
  KERNEL_VIRTUAL_BASE + 0x300000 + 200 ≤ top ≤ KERNEL_VIRTUAL_BASE + 0x320000 → room demo_gdt s top.
Proof.
  intros Hs Hw Ht. split; [|right; cbn [gdt_at demo_gdt]; unfold GDT_SIZE; lia]. intros k Hk. unfold slot_ok. by rewrite !Hs, !Hw by lia.
Qed.

Lemma descriptor_tables_correct_witness : ∃ s1 s2 s3, gdt_init demo_gdt (demo_cpu (λ _, true)) = Some (Ok tt, s1) ∧ gdt_init demo_gdt s1 = Some (Ok tt, s2) ∧
  idt_init demo_idt demo_address s2 = Some (Ok tt, s3) ∧ deliver 255 None s3 = Refused.
Proof.
  destruct (descriptor_tables_correct demo_gdt demo_idt demo_address (demo_cpu (λ _, true)) (gdt_demo_ready _ (λ _ _, eq_refl)) (demo_zero _) demo_address_ok (demo_apart _))
    as (s1 & s2 & s3 & H1 & H2 & H3 & _ & _ & _ & _ & _ & _ & _ & _ & Ho).
  exists s1, s2, s3. split; [exact H1|]. split; [exact H2|]. split; [exact H3|]. apply Ho; [lia|]. apply (bool_decide_unpack _). exact I.
Defined.
Lemma interrupt_transparent_witness : ∃ s s1 s2, deliver 32 None s = Entered s1 ∧ exec demo_callee 5 timer_interrupt_code s1 = Some (Returned s2) ∧ rg s2 RAX = 7 ∧ rflags s2 = rflags s.
Proof.
  destruct (demo_running (λ _, true) (λ _ _, eq_refl)) as (s & Hrun & Hr & Hw).
  destruct (interrupt_transparent demo_gdt demo_idt demo_address s demo_callee 5 32 timer_interrupt_handler Hrun) as (s1 & s2 & Hd & _ & _ & Hx & Hregs & _ & _ & Hfl & _).
  - apply (demo_room s (λ _, true)); [exact Hw|done|]. unfold interrupt_stack. change (0 =? 0) with true. cbv iota. rewrite Hr. cbn [rg demo_cpu]. unfold KERNEL_VIRTUAL_BASE. dlia.
  - do 7 right. left.
  - reflexivity.
  - exact demo_abi.
  - intros f s' Hf. cbn [calls] in Hf. rewrite !elem_of_cons, elem_of_nil in Hf. destruct Hf as [->|[->|[]]]; by eexists.
  - exists s, s1, s2. split; [exact Hd|]. split; [exact Hx|]. split; [rewrite Hregs, Hr; reflexivity|exact Hfl].
Defined.
Lemma exceptions_reported_witness : ∃ s s1 s2, deliver 14 (Some 2) s = Entered s1 ∧ exec demo_callee 5 (code page_fault_handler) s1 = Some (Inside page_fault_inner s2) ∧
  reported demo_img page_fault_inner s2 = Some (PageFault (cr2 s) 2 false true false false false).
Proof.
  destruct (demo_running (λ _, true) (λ _ _, eq_refl)) as (s & Hrun & Hr & Hw).
  destruct (exceptions_reported demo_gdt demo_idt demo_address s demo_callee 5 14 page_fault_handler 0 page_fault_inner demo_img Hrun) as [_ H].
  - apply (demo_room s (λ _, true)); [exact Hw|done|]. unfold interrupt_stack. change (0 =? 0) with true. cbv iota. rewrite Hr. cbn [rg demo_cpu]. unfold KERNEL_VIRTUAL_BASE. dlia.
  - do 6 right. left.
  - reflexivity.
  - intros g s' Hg. unfold demo_callee. by rewrite Hg.
  - reflexivity.
  - destruct (H eq_refl 2 ltac:(split; [lia|reflexivity])) as (s1 & s2 & Hd & _ & Hx & _ & _ & _ & Hp & _). exists s, s1, s2.
    split; [exact Hd|]. split; [exact Hx|]. exact (Hp eq_refl).
Defined.
Lemma running_rsp img idt_at address s v : word v → running img idt_at address s → running img idt_at address (set_rg RSP v s).
Proof.
  intros Hv [[] [] ? (Hw & ?)]. split; [split; assumption|split; assumption|assumption|]. split; [|assumption].
  intros q. rewrite rg_set. destruct (decide (RSP = q)); [done|apply Hw].
Qed.
Lemma stack_overflow_reported_witness : ∃ s s1 s2 a, page_fault (KERNEL_VIRTUAL_BASE + 0x1500FF8) 2 s = Some s1 ∧
  exec demo_callee 5 (code double_fault_handler) s1 = Some (Inside double_fault_inner s2) ∧
  reported demo_img double_fault_inner s2 = Some (StackOverflow (KERNEL_VIRTUAL_BASE + 0x1500000) a 0).
Proof.
  destruct (init_links demo_img demo_bi demo_pages demo_img_ok demo_max demo_mmio_ok demo_pages_shape demo_fits) as (ps & Hinit & _).
  set (w := λ a, match translate demo_img ps a with Some m => m_writable m | None => false end).
  assert (Hview : ∀ a, KERNEL_VIRTUAL_BASE ≤ a < KERNEL_VIRTUAL_BASE + 2 ^ 39 → w a = match expected demo_img demo_bi (a - KERNEL_VIRTUAL_BASE) with Some m => m_writable m | None => false end).
  { intros a Ha. refine (kernel_view demo_img demo_bi demo_pages ps demo_img_ok demo_pages_shape demo_max demo_mmio_ok demo_fits Hinit (demo_cpu w) a _ Ha). intros b. reflexivity. }
  assert (Hdata : ∀ a, KERNEL_VIRTUAL_BASE + 0x300000 ≤ a < KERNEL_VIRTUAL_BASE + 0x320000 → w a = true).
  { intros a Ha. rewrite Hview by lia. rewrite (data_writable demo_img demo_bi); [done|exact demo_img_ok|]. unfold phys_of. cbn [data_start_ bss_end_ demo_img]. lia. }
  destruct (demo_running w Hdata) as (s & Hrun & Hr & Hw).
  destruct (stack_overflow_reported demo_img demo_bi demo_pages ps demo_gdt demo_idt demo_address (set_rg RSP (KERNEL_VIRTUAL_BASE + 0x1501018) s) demo_callee 5
    (KERNEL_VIRTUAL_BASE + 0x1500FF8) 2 demo_img_ok demo_pages_shape demo_max demo_mmio_ok demo_fits Hinit) as (s1 & s2 & a & Hp & _ & Hx & _ & _ & Hrep).
  - apply running_rsp; [by split|exact Hrun].
  - intros a. exact (Hw a).
  - cbn [data_start_ bss_end_ demo_img double_fault_stack_at demo_gdt]. unfold DOUBLE_FAULT_STACK_SIZE. lia.
  - intros a Ha. change (stack_guard_ demo_img) with (KERNEL_VIRTUAL_BASE + 0x1500000) in Ha. change (writable s a = true). rewrite Hw, Hview by lia.
    assert (Hpage : (a - KERNEL_VIRTUAL_BASE) / 4096 * 4096 = 0x1501000) by (clear -Ha; unfold KERNEL_VIRTUAL_BASE in *; dlia). unfold expected. rewrite Hpage. vm_compute. reflexivity.
  - unfold interrupt_stack. change (0 =? 0) with true. cbv iota. rewrite rg_set, decide_True by done. change (stack_guard_ demo_img) with (KERNEL_VIRTUAL_BASE + 0x1500000). clear; unfold KERNEL_VIRTUAL_BASE; dlia.
  - intros f s' Hf. unfold demo_callee. by rewrite Hf.
  - exists (set_rg RSP (KERNEL_VIRTUAL_BASE + 0x1501018) s), s1, s2, a. split; [exact Hp|]. split; [exact Hx|exact Hrep].
Defined.
