(* ===== verification/Serial.v ===== *)
(** * The serial port ([kernel/src/serial.rs], the byte accesses of [io.rs]) and
    the test runner that reports through it ([test_runner.rs]).

    The machine is the list of the port accesses made so far and a sequence of
    the values that reads will answer, which no operation chooses.  A 16550 is
    the specification the list is measured with: what it was programmed to and
    which bytes it was given to send. *)
From S2P Require Import Prelude.
Set Default Goal Selector "!".

Inductive access := In (port value : Z) | Out (port value : Z).
Record ports := mkPorts { answers : nat → Z; reads : nat; accesses : list access }.
Definition port_write_u8 (port value : Z) : M ports unit :=
  modify (λ s, mkPorts (answers s) (reads s) (accesses s ++ [Out port value])).
Definition port_read_u8 (port : Z) : M ports Z :=
  s ← gets id;
  let value := answers s (reads s) in
  modify (λ s, mkPorts (answers s) (S (reads s)) (accesses s ++ [In port value])) ;; mret value.

(** ** The driver *)
Definition COM1 : Z := 0x3F8.
Record SerialPort := SerialPort_new { base : Z }.
(** [port_write_u8(self.base + offset, value)]. *)
Definition write_reg (p : SerialPort) (offset value : Z) : M ports unit :=
  port ← lift (cadd 16 (base p) offset); port_write_u8 port value.
Definition SerialPort_init (p : SerialPort) : M ports unit :=
  write_reg p 1 0x00 ;;
  write_reg p 3 0x80 ;;
  write_reg p 0 0x03 ;;
  write_reg p 1 0x00 ;;
  write_reg p 3 0x03 ;;
  write_reg p 2 0xC7 ;;
  write_reg p 4 0x0B.
(** The loop polls without a limit; [fuel] is how often it may. *)
Fixpoint wait_for_transmit (fuel : nat) (p : SerialPort) : M ports unit :=
  match fuel with
  | O => panic
  | S fuel =>
      port ← lift (cadd 16 (base p) 5); value ← port_read_u8 port;
      if Z.land value 0x20 =? 0 then wait_for_transmit fuel p else mret tt
  end.
Definition write_byte (fuel : nat) (p : SerialPort) (byte : Z) : M ports unit :=
  wait_for_transmit fuel p ;; port_write_u8 (base p) byte.
Definition write_str (fuel : nat) (p : SerialPort) (s : list Z) : M ports unit := for_each s (write_byte fuel p).
Definition init : M ports unit := SerialPort_init (SerialPort_new COM1).

(** ** The macros

    [args] are the pieces [core::fmt] passes to [write_str], in order; the
    literal text around the placeholder is a piece of its own. *)
Definition bytes_of (s : string) : list Z := (λ c, Z.of_N (Ascii.N_of_ascii c)) <$> String.list_ascii_of_string s.
Definition nl : list Z := [10].
Definition ESC (s : string) : list Z := 27 :: bytes_of s.
Definition write_fmt (fuel : nat) (p : SerialPort) (args : list (list Z)) : M ports unit := for_each args (write_str fuel p).
Definition _print (fuel : nat) (args : list (list Z)) : M ports unit := write_fmt fuel (SerialPort_new COM1) args.
Definition println (fuel : nat) (args : list (list Z)) : M ports unit := write_fmt fuel (SerialPort_new 0x3F8) (args ++ [nl]).
Definition INFO : list Z := bytes_of "[INFO] ".
Definition WARN : list Z := ESC "[33m[WARN]" ++ ESC "[0m ".
Definition ERROR : list Z := ESC "[31m[ERROR]" ++ ESC "[0m ".
Definition info (fuel : nat) (args : list (list Z)) : M ports unit := write_fmt fuel (SerialPort_new 0x3F8) (INFO :: args ++ [nl]).
Definition warn (fuel : nat) (args : list (list Z)) : M ports unit := write_fmt fuel (SerialPort_new 0x3F8) (WARN :: args ++ [nl]).
Definition error (fuel : nat) (args : list (list Z)) : M ports unit := write_fmt fuel (SerialPort_new 0x3F8) (ERROR :: args ++ [nl]).
Definition serial_println (fuel : nat) (args : list (list Z)) : M ports unit := _print fuel (args ++ [nl]).

(** ** The test runner

    A test is its type's name and its body.  [exit_qemu] does not come back: the
    machine ends with the write, or halts. *)
Inductive QemuExitCode := Success | Failed.
Definition exit_code (code : QemuExitCode) : Z := match code with Success => 0x10 | Failed => 0x11 end.
Definition exit_qemu (code : QemuExitCode) : M ports unit := port_write_u8 0xf4 (exit_code code).
Record Testable := mkTest { type_name : list Z; test_body : M ports unit }.
Definition run_test (fuel : nat) (t : Testable) : M ports unit :=
  _print fuel [type_name t; bytes_of "..." ++ [9]] ;; test_body t ;; serial_println fuel [bytes_of "[ok]"].
(** [count] is the number of tests as [core::fmt] prints it. *)
Definition runner (fuel : nat) (count : list Z) (tests : list Testable) : M ports unit :=
  serial_println fuel [bytes_of "Running "; count; bytes_of " tests"] ;;
  for_each tests (run_test fuel) ;;
  exit_qemu Success.

(** ** The device: a 16550 at [b] *)
Record uart := mkUart { divisor : Z; ier : Z; fcr : Z; lcr : Z; mcr : Z; sent : list Z }.
Definition dlab (u : uart) : bool := Z.testbit (lcr u) 7.
Definition uart_step (b : Z) (u : uart) (a : access) : uart :=
  match a with
  | In _ _ => u
  | Out port v =>
      if port =? b then
        if dlab u then mkUart (divisor u / 256 * 256 + v) (ier u) (fcr u) (lcr u) (mcr u) (sent u)
        else mkUart (divisor u) (ier u) (fcr u) (lcr u) (mcr u) (sent u ++ [v])
      else if port =? b + 1 then
        if dlab u then mkUart (divisor u mod 256 + 256 * v) (ier u) (fcr u) (lcr u) (mcr u) (sent u)
        else mkUart (divisor u) v (fcr u) (lcr u) (mcr u) (sent u)
      else if port =? b + 2 then mkUart (divisor u) (ier u) v (lcr u) (mcr u) (sent u)
      else if port =? b + 3 then mkUart (divisor u) (ier u) (fcr u) v (mcr u) (sent u)
      else if port =? b + 4 then mkUart (divisor u) (ier u) (fcr u) (lcr u) v (sent u)
      else u
  end.
Definition uart_run (b : Z) (log : list access) (u : uart) : uart := foldl (uart_step b) u log.

(** What the settings mean. *)
Definition baud (u : uart) : Z := 115200 / divisor u.
Definition data_bits (u : uart) : Z := 5 + Z.land (lcr u) 3.
Definition parity (u : uart) : bool := Z.testbit (lcr u) 3.
Definition stop_bits (u : uart) : Z := if Z.testbit (lcr u) 2 then 2 else 1.
Definition fifo_on (u : uart) : bool := Z.testbit (fcr u) 0.
Definition fifo_threshold (u : uart) : Z := match Z.shiftr (fcr u) 6 with 0 => 1 | 1 => 4 | 2 => 8 | _ => 14 end.

(** ** What is sent *)
Definition ready (status : Z) : bool := Z.testbit status 5.
(** Every byte is written once, after reads of the status of which the last, and
    only the last, says that there is room. *)
Inductive sends (b : Z) : list Z → list access → Prop :=
  | sends_nothing : sends b [] []
  | sends_byte v vs busy r log : Forall (λ x, ready x = false) busy → ready r = true → sends b vs log →
      sends b (v :: vs) (map (In (b + 5)) (busy ++ [r]) ++ Out b v :: log).
Definition ready_within (n : nat) (s : ports) : Prop := ∀ k, (reads s ≤ k)%nat → ∃ j, (j < n)%nat ∧ ready (answers s (k + j)) = true.
(** How many of the [n] answers from the [k]th on say that there is room. *)
Fixpoint readies (a : nat → Z) (k n : nat) : nat :=
  match n with O => 0 | S n => (if ready (a k) then 1 else 0) + readies a (S k) n end%nat.

Lemma not_ready v : (Z.land v 0x20 =? 0) = negb (ready v).
Proof.
  unfold ready. destruct (Z.testbit v 5) eqn:Hb; cbn [negb].
  - apply Z.eqb_neq. intros H. apply (f_equal (λ x, Z.testbit x 5)) in H. rewrite Z.land_spec, Hb in H. done.
  - apply Z.eqb_eq. apply Z.bits_inj'. intros i Hi. rewrite Z.land_spec, Z.bits_0. change 0x20 with (2 ^ 5). rewrite testbit_pow2 by lia.
    destruct (Z.eqb_spec 5 i) as [<-|_]; [by rewrite Hb|by rewrite andb_false_r].
Qed.

Section line.
Context (p : SerialPort) (Hp : 0 ≤ base p ∧ base p + 5 < 2 ^ 16).

Lemma wait_runs n : ∀ s, (∃ j, (j < n)%nat ∧ ready (answers s (reads s + j)) = true) →
  ∃ busy r, Forall (λ x, ready x = false) busy ∧ ready r = true ∧
    wait_for_transmit n p s = Some (tt, mkPorts (answers s) (reads s + length (busy ++ [r])) (accesses s ++ map (In (base p + 5)) (busy ++ [r]))).
Proof.
  induction n as [|n IH]; intros s (j & Hj & Hr); [lia|]. cbn [wait_for_transmit]. rewrite cadd_some by lia.
  unfold port_read_u8, mbind, M_bind, lift, gets, modify, mret, M_ret. rewrite not_ready. cbn [id].
  destruct (ready (answers s (reads s))) eqn:H0; cbn [negb].
  - exists [], (answers s (reads s)). split_and!; [done|done|]. cbn. by rewrite Nat.add_1_r.
  - destruct j as [|j]; [rewrite Nat.add_0_r in Hr; congruence|].
    destruct (IH (mkPorts (answers s) (S (reads s)) (accesses s ++ [In (base p + 5) (answers s (reads s))]))) as (busy & r & Hb & Hr' & ->).
    { exists j. split; [lia|]. cbn. by rewrite <-plus_n_Sm in Hr. }
    exists (answers s (reads s) :: busy), r. split_and!; [by constructor|done|]. cbn. by rewrite <-plus_n_Sm, <-app_assoc.
Qed.
Lemma wait_inv n : ∀ s s', wait_for_transmit n p s = Some (tt, s') →
  ∃ busy r, Forall (λ x, ready x = false) busy ∧ ready r = true ∧ readies (answers s) (reads s) (length busy) = 0%nat ∧ readies (answers s) (reads s) (S (length busy)) = 1%nat ∧
    s' = mkPorts (answers s) (reads s + S (length busy)) (accesses s ++ map (In (base p + 5)) (busy ++ [r])).
Proof.
  induction n as [|n IH]; intros s s'; [done|]. cbn [wait_for_transmit]. rewrite cadd_some by lia.
  unfold port_read_u8, mbind, M_bind, lift, gets, modify, mret, M_ret. rewrite not_ready. cbn [id].
  destruct (ready (answers s (reads s))) eqn:H0; cbn [negb].
  - intros [= <-]. exists [], (answers s (reads s)). cbn [length readies app map]. rewrite H0, Nat.add_1_r. by split_and!.
  - intros (busy & r & Hb & Hr & Hz & Hn & ->)%IH. cbn [answers reads accesses] in *. exists (answers s (reads s) :: busy), r. split_and!; [by constructor|done| | |].
    + cbn [length readies]. by rewrite H0, Hz.
    + cbn [length]. change (readies (answers s) (reads s) (S (S (length busy)))) with ((if ready (answers s (reads s)) then 1 else 0) + readies (answers s) (S (reads s)) (S (length busy)))%nat. by rewrite H0, Hn.
    + cbn [length app map]. rewrite <-app_assoc. f_equal. lia.
Qed.
Lemma readies_add a m n k : (readies a k (m + n) = readies a k m + readies a (k + m) n)%nat.
Proof. revert k. induction m as [|m IH]; intros k; cbn [readies Nat.add]; [by rewrite Nat.add_0_r|]. rewrite IH, <-plus_n_Sm. cbn. lia. Qed.
Lemma readies_ready a n k : (1 ≤ readies a k n)%nat → ∃ j, (j < n)%nat ∧ ready (a (k + j)%nat) = true.
Proof.
  revert k. induction n as [|n IH]; intros k; cbn [readies]; [lia|]. destruct (ready (a k)) eqn:Hk; intros H.
  - exists 0%nat. split; [lia|by rewrite Nat.add_0_r].
  - destruct (IH (S k) H) as (j & Hj & Hr). exists (S j). split; [lia|by rewrite <-plus_n_Sm].
Qed.
Lemma for_each_concat {S A} (f : A → M S unit) xss s : for_each xss (λ xs, for_each xs f) s = for_each (concat xss) f s.
Proof.
  revert s. induction xss as [|xs xss IH]; intros s; cbn [for_each concat]; [done|]. revert s. induction xs as [|x xs IHx]; intros s; cbn [for_each app].
  - apply IH.
  - specialize (IHx). unfold mbind, M_bind in *. destruct (f x s) as [[[] s1]|]; [apply IHx|done].
Qed.

(** The port after the bytes [vs]: nothing but the log and the reads changed. *)
Definition emitted (vs : list Z) (s s' : ports) : Prop :=
  answers s' = answers s ∧ (reads s ≤ reads s')%nat ∧ ∃ log, accesses s' = accesses s ++ log ∧ sends (base p) vs log.
Lemma sends_app b vs ws l1 l2 : sends b vs l1 → sends b ws l2 → sends b (vs ++ ws) (l1 ++ l2).
Proof. induction 1; intros Hw; [done|]. rewrite <-app_assoc. cbn. constructor; auto. Qed.
Lemma emitted_nil s : emitted [] s s.
Proof. split; [done|]. split; [done|]. exists []. by rewrite app_nil_r; split; [|constructor]. Qed.
Lemma emitted_app vs ws s s1 s2 : emitted vs s s1 → emitted ws s1 s2 → emitted (vs ++ ws) s s2.
Proof.
  intros (A1 & R1 & l1 & L1 & H1) (A2 & R2 & l2 & L2 & H2). split; [congruence|]. split; [lia|].
  exists (l1 ++ l2). split; [by rewrite L2, L1, app_assoc|by apply sends_app].
Qed.
Lemma ready_within_later n s s' vs : emitted vs s s' → ready_within n s → ready_within n s'.
Proof. intros (A & R & _) H k Hk. rewrite A. apply H. lia. Qed.

Lemma write_byte_runs n s v : ready_within n s → ∃ s', write_byte n p v s = Some (tt, s') ∧ emitted [v] s s'.
Proof.
  intros Hr. destruct (wait_runs n s (Hr (reads s) (le_n _))) as (busy & r & Hb & Hr' & Hw).
  eexists. split; [unfold write_byte, mbind, M_bind; by rewrite Hw|].
  split; [done|]. split; [cbn; lia|]. eexists. cbn [accesses]. rewrite <-app_assoc. split; [done|]. constructor; [done|done|constructor].
Qed.
Lemma write_each n {A} (f : A → M ports unit) (out : A → list Z) xs : ∀ s,
  (∀ x s, x ∈ xs → ready_within n s → ∃ s', f x s = Some (tt, s') ∧ emitted (out x) s s') →
  ready_within n s → ∃ s', for_each xs f s = Some (tt, s') ∧ emitted (concat (map out xs)) s s'.
Proof.
  induction xs as [|x xs IH]; intros s Hf Hr; cbn [for_each map concat]; [exists s; split; [done|apply emitted_nil]|].
  destruct (Hf x s ltac:(left) Hr) as (s1 & H1 & E1).
  destruct (IH s1 (λ y s Hy, Hf y s ltac:(by right)) (ready_within_later _ _ _ _ E1 Hr)) as (s2 & H2 & E2).
  exists s2. split; [unfold mbind, M_bind; by rewrite H1|by eapply emitted_app].
Qed.
Lemma write_fmt_runs n s args : ready_within n s → ∃ s', write_fmt n p args s = Some (tt, s') ∧ emitted (concat args) s s'.
Proof.
  intros Hr. destruct (write_each n (write_str n p) (λ x, x) args s) as (s' & H & E); [|done|exists s'; by rewrite map_id in E].
  intros vs t _ Ht. destruct (write_each n (write_byte n p) (λ v, [v]) vs t) as (s' & H & E); [|done|exists s'; split; [done|]].
  { intros v s' _ Hs. by apply write_byte_runs. }
  replace vs with (concat (map (λ v, [v]) vs)); [done|]. clear. induction vs; cbn; congruence.
Qed.

(** What the device was given to send, when its divisor latch is closed. *)
Lemma uart_polls b vs u : uart_run b (map (In (b + 5)) vs) u = u.
Proof. induction vs; [done|done]. Qed.
Lemma uart_sends vs log u : sends (base p) vs log → dlab u = false →
  uart_run (base p) log u = mkUart (divisor u) (ier u) (fcr u) (lcr u) (mcr u) (sent u ++ vs).
Proof.
  intros Hs. revert u. induction Hs as [|v vs busy r log _ _ _ IH]; intros u Hd; [rewrite app_nil_r; by destruct u|].
  unfold uart_run in *. rewrite foldl_app. fold (uart_run (base p) (map (In (base p + 5)) (busy ++ [r])) u). rewrite uart_polls.
  cbn [foldl uart_step]. rewrite Z.eqb_refl, Hd. rewrite IH by done. cbn. by rewrite <-app_assoc.
Qed.
End line.

Lemma write_byte_eq fuel p v s : write_byte fuel p v s = match wait_for_transmit fuel p s with Some (_, s') => port_write_u8 (base p) v s' | None => None end.
Proof. reflexivity. Qed.
(** Printing byte by byte: how far the status was read. *)
Lemma bytes_inv p (Hp : 0 ≤ base p ∧ base p + 5 < 2 ^ 16) fuel vs : ∀ s s', for_each vs (write_byte fuel p) s = Some (tt, s') →
  emitted p vs s s' ∧ ∃ n, readies (answers s) (reads s) n = length vs ∧ reads s' = (reads s + n)%nat.
Proof.
  induction vs as [|v vs IH]; intros s s'; cbn [for_each].
  - intros [= <-]. split; [apply emitted_nil|]. exists 0%nat. split; [done|lia].
  - unfold mbind, M_bind. rewrite write_byte_eq. destruct (wait_for_transmit fuel p s) as [[[] s1]|] eqn:Hw; [|done].
    apply (wait_inv p Hp) in Hw as (busy & r & Hb & Hr & _ & Hn & ->). unfold port_write_u8, modify. cbn [answers reads accesses]. rewrite <-app_assoc.
    intros [He (n & Hvs & Hrd)]%IH. cbn [answers reads accesses] in *. split.
    + eapply (emitted_app p [v] vs s _ s'); [|exact He]. split; [reflexivity|]. split; [cbn [reads]; lia|].
      exists (map (In (base p + 5)) (busy ++ [r]) ++ [Out (base p) v]). split; [reflexivity|]. by repeat constructor.
    + exists (S (length busy) + n)%nat. rewrite readies_add, Hn, Hvs, Hrd. cbn [length]. lia.
Qed.
Lemma bytes_run p (Hp : 0 ≤ base p ∧ base p + 5 < 2 ^ 16) fuel vs : ∀ s n, (n ≤ fuel)%nat → (length vs ≤ readies (answers s) (reads s) n)%nat →
  ∃ s', for_each vs (write_byte fuel p) s = Some (tt, s').
Proof.
  induction vs as [|v vs IH]; intros s n Hf Hn; cbn [for_each length] in *; [by exists s|].
  destruct (readies_ready (answers s) n (reads s) ltac:(lia)) as (j & Hj & Hr). destruct (wait_runs p Hp fuel s ltac:(exists j; split; [lia|done])) as (busy & r & _ & _ & Hw).
  pose proof Hw as Hw'. apply (wait_inv p Hp) in Hw' as (busy' & r' & _ & _ & H0 & H1 & E). unfold mbind, M_bind. rewrite write_byte_eq, Hw, E. unfold port_write_u8, modify. cbn [answers reads accesses].
  assert (Hle : (length busy' ≤ j)%nat).
  { destruct (decide (length busy' ≤ j)%nat) as [|Hgt]; [done|]. exfalso. replace (length busy') with (j + S (length busy' - S j))%nat in H0 by lia.
    rewrite readies_add in H0. cbn [readies] in H0. rewrite Hr in H0. lia. }
  apply (IH _ (n - S (length busy'))%nat); [lia|]. cbn [answers reads]. replace n with (S (length busy') + (n - S (length busy')))%nat in Hn by lia. rewrite readies_add, H1 in Hn. lia.
Qed.

(** C39: Printing to the port, for every sequence of the answers its status will
    give: it ends if and only if, from where the reads stand, at least as many
    of them say that there is room as there are bytes to print; otherwise it
    polls for ever, however far the line was got before it went dead.  When it
    ends, the log shows every byte written once and in order, each after the
    one read that said there is room, and a device whose divisor latch is closed
    was given exactly those bytes and keeps its settings.  On a line that is
    ready at least once in every [n] reads, [n] polls for each byte are enough. *)
Theorem serial_output_correct (p : SerialPort) (s : ports) (args : list (list Z)) (Hp : 0 ≤ base p ∧ base p + 5 < 2 ^ 16) :
  ((∃ fuel s', write_fmt fuel p args s = Some (tt, s')) ↔ ∃ n, (length (concat args) ≤ readies (answers s) (reads s) n)%nat) ∧
  (∀ fuel s', write_fmt fuel p args s = Some (tt, s') →
    ∃ log, accesses s' = accesses s ++ log ∧ sends (base p) (concat args) log ∧
      ∀ u, dlab u = false → uart_run (base p) log u = mkUart (divisor u) (ier u) (fcr u) (lcr u) (mcr u) (sent u ++ concat args)) ∧
  (∀ n, ready_within n s → ∃ s', write_fmt n p args s = Some (tt, s')).
Proof.
  assert (Hflat : ∀ fuel, write_fmt fuel p args s = for_each (concat args) (write_byte fuel p) s) by (intros fuel; apply for_each_concat).
  split; [|split].
  - split.
    + intros (fuel & s' & Hrun). rewrite Hflat in Hrun. apply (bytes_inv p Hp) in Hrun as [_ (n & Hn & _)]. exists n. by rewrite Hn.
    + intros (n & Hn). exists n. rewrite Hflat. by apply (bytes_run p Hp n _ s n).
  - intros fuel s' Hrun. rewrite Hflat in Hrun. apply (bytes_inv p Hp) in Hrun as [(_ & _ & log & Hl & Hs) _].
    exists log. split_and!; [done|done|]. intros u Hd. by apply uart_sends.
  - intros n Hr. destruct (write_fmt_runs p Hp n s args Hr) as (s' & H & _). by exists s'.
Qed.

Lemma write_reg_run p off v s : base p + off < 2 ^ 16 →
  write_reg p off v s = Some (tt, mkPorts (answers s) (reads s) (accesses s ++ [Out (base p + off) v])).
Proof. intros H. unfold write_reg. by rewrite cadd_some by lia. Qed.

Lemma uart_step_at b u k v : uart_step b u (Out (b + k) v) = uart_step 0 u (Out k v).
Proof.
  cbn [uart_step]. replace (b + k =? b) with (k =? 0) by lia. replace (b + k =? b + 1) with (k =? 0 + 1) by lia.
  replace (b + k =? b + 2) with (k =? 0 + 2) by lia. replace (b + k =? b + 3) with (k =? 0 + 3) by lia. by replace (b + k =? b + 4) with (k =? 0 + 4) by lia.
Qed.
Lemma step_ier d i f l m se : ∃ d', uart_step 0 (mkUart d i f l m se) (Out 1 0) = mkUart d' (if Z.testbit l 7 then i else 0) f l m se.
Proof. cbn [uart_step]. unfold dlab. cbn [lcr]. destruct (Z.testbit l 7); by eexists. Qed.
Lemma latched x : (x / 256 * 256 + 3) mod 256 + 256 * 0 = 3.
Proof. dlia. Qed.

(** Initialising leaves a line of 38400 baud, eight data bits, one stop bit,
    no parity, FIFOs on with a threshold of 14 and the divisor latch closed,
    whatever the device was set to before, and sends nothing.  Interrupts are off
    when the latch was closed before: the first write goes to the latch otherwise. *)
Theorem serial_init_correct (p : SerialPort) (s : ports) (u : uart) (Hp : 0 ≤ base p ∧ base p + 4 < 2 ^ 16) :
  ∃ log, SerialPort_init p s = Some (tt, mkPorts (answers s) (reads s) (accesses s ++ log)) ∧
    (let u' := uart_run (base p) log u in
     baud u' = 38400 ∧ data_bits u' = 8 ∧ stop_bits u' = 1 ∧ parity u' = false ∧
     fifo_on u' = true ∧ fifo_threshold u' = 14 ∧ ier u' = (if dlab u then ier u else 0) ∧ dlab u' = false ∧ sent u' = sent u).
Proof.
  unfold SerialPort_init. eexists. split.
  - do 6 (eapply run_bind, wp_run; do 2 eexists; split; [apply write_reg_run; lia|]). rewrite write_reg_run by lia.
    cbn [answers reads accesses]. rewrite <-!app_assoc. cbn [app]. reflexivity.
  - unfold uart_run. cbn [foldl]. rewrite !uart_step_at. destruct u as [d i f l m se]. destruct (step_ier d i f l m se) as (d1 & ->). set (i1 := if Z.testbit l 7 then i else 0).
    change (uart_step 0 (mkUart d1 i1 f l m se) (Out 3 0x80)) with (mkUart d1 i1 f 0x80 m se).
    change (uart_step 0 (mkUart d1 i1 f 0x80 m se) (Out 0 3)) with (mkUart (d1 / 256 * 256 + 3) i1 f 0x80 m se).
    set (d2 := d1 / 256 * 256 + 3). change (uart_step 0 (mkUart d2 i1 f 0x80 m se) (Out 1 0)) with (mkUart (d2 mod 256 + 256 * 0) i1 f 0x80 m se).
    rewrite (latched d1 : d2 mod 256 + 256 * 0 = 3).
    change (uart_step 0 (mkUart 3 i1 f 0x80 m se) (Out 3 3)) with (mkUart 3 i1 f 3 m se).
    change (uart_step 0 (mkUart 3 i1 f 3 m se) (Out 2 0xC7)) with (mkUart 3 i1 0xC7 3 m se).
    change (uart_step 0 (mkUart 3 i1 0xC7 3 m se) (Out 4 0x0B)) with (mkUart 3 i1 0xC7 3 0x0B se). cbv zeta.
    by split_and!.
Qed.

(** The runner: its report, then the exit code of success as the last access,
    when every test's body ends; [out] is what the bodies print. *)
Lemma runner_reports n count tests out s : ready_within n s →
  (∀ t s, t ∈ tests → ready_within n s → ∃ s', test_body t s = Some (tt, s') ∧ emitted (SerialPort_new COM1) (out t) s s') →
  ∃ s' text, runner n count tests s = Some (tt, mkPorts (answers s') (reads s') (accesses s' ++ [Out 0xf4 0x10])) ∧ emitted (SerialPort_new COM1) text s s' ∧
    text = bytes_of "Running " ++ count ++ bytes_of " tests" ++ nl ++
      concat (map (λ t, type_name t ++ bytes_of "..." ++ [9] ++ out t ++ bytes_of "[ok]" ++ nl) tests).
Proof.
  intros Hr Hb. assert (Hp : 0 ≤ base (SerialPort_new COM1) ∧ base (SerialPort_new COM1) + 5 < 2 ^ 16) by (cbn; unfold COM1; lia).
  destruct (write_fmt_runs _ Hp n s ([bytes_of "Running "; count; bytes_of " tests"] ++ [nl]) Hr) as (s1 & H1 & E1).
  destruct (write_each (SerialPort_new COM1) n (run_test n) (λ t, type_name t ++ bytes_of "..." ++ [9] ++ out t ++ bytes_of "[ok]" ++ nl) tests s1) as (s2 & H2 & E2).
  - intros t s' Ht Hs'. destruct (write_fmt_runs _ Hp n s' [type_name t; bytes_of "..." ++ [9]] Hs') as (t1 & T1 & F1).
    pose proof (ready_within_later _ _ _ _ _ F1 Hs') as Hr1. destruct (Hb t t1 Ht Hr1) as (t2 & T2 & F2). pose proof (ready_within_later _ _ _ _ _ F2 Hr1) as Hr2.
    destruct (write_fmt_runs _ Hp n t2 ([bytes_of "[ok]"] ++ [nl]) Hr2) as (t3 & T3 & F3). exists t3. split.
    + eapply run_bind, wp_run. do 2 eexists. split; [exact T1|]. eapply run_bind, wp_run. do 2 eexists. split; [exact T2|exact T3].
    + pose proof (emitted_app _ _ _ _ _ _ (emitted_app _ _ _ _ _ _ F1 F2) F3) as F. cbn [concat app] in F. by rewrite !app_nil_r, <-!app_assoc in F.
  - by eapply ready_within_later.
  - exists s2. eexists. split; [|split; [exact (emitted_app _ _ _ _ _ _ E1 E2)|cbn [concat app]; by rewrite !app_nil_r, <-!app_assoc]].
    eapply run_bind, wp_run. do 2 eexists. split; [exact H1|]. eapply run_bind, wp_run. do 2 eexists. split; [exact H2|done].
Qed.

(** ** Examples: the kernel's port, polled twice for each byte *)
Definition demo_ports : ports := mkPorts (λ k, if Nat.even k then 0 else 0x60) 0 [].
Definition demo_uart : uart := mkUart 12 0 0 0x83 0 [].
Lemma demo_ready_within : ready_within 2 demo_ports.
Proof.
  intros k _. destruct (Nat.even k) eqn:Hk; [exists 1%nat|exists 0%nat]; (split; [lia|]); cbn [answers demo_ports].
  - by rewrite Nat.add_1_r, Nat.even_succ, <-Nat.negb_even, Hk.
  - by rewrite Nat.add_0_r, Hk.
Qed.

(** Witness: a line ready every second time prints; one that goes dead after its first byte does not. *)
Lemma serial_output_correct_witness :
  (∃ s' log, write_fmt 2 (SerialPort_new COM1) [INFO; bytes_of "ok"; nl] demo_ports = Some (tt, s') ∧
    accesses s' = accesses demo_ports ++ log ∧ sends COM1 (bytes_of "[INFO] ok" ++ nl) log ∧
    sent (uart_run COM1 log (mkUart 3 0 0xC7 3 0x0B [])) = bytes_of "[INFO] ok" ++ nl) ∧
  ¬ ∃ fuel s', write_fmt fuel (SerialPort_new COM1) [INFO] (mkPorts (λ k, if Nat.eqb k 0 then 0x60 else 0) 0 []) = Some (tt, s').
Proof.
  assert (Hp : 0 ≤ base (SerialPort_new COM1) ∧ base (SerialPort_new COM1) + 5 < 2 ^ 16) by (cbn; unfold COM1; lia). split.
  - destruct (serial_output_correct (SerialPort_new COM1) demo_ports [INFO; bytes_of "ok"; nl] Hp) as (_ & Hlog & Hrun).
    destruct (Hrun 2%nat demo_ready_within) as (s' & H1). destruct (Hlog 2%nat s' H1) as (log & H2 & H3 & H4). exists s', log. split_and!; [exact H1|exact H2|exact H3|].
    change COM1 with (base (SerialPort_new COM1)). rewrite H4 by reflexivity. reflexivity.
  - intros Hrun. apply (serial_output_correct (SerialPort_new COM1) (mkPorts (λ k, if Nat.eqb k 0 then 0x60 else 0) 0 []) [INFO] Hp) in Hrun as (n & Hn).
    assert (H0 : ∀ k n, readies (λ k, if Nat.eqb k 0 then 0x60 else 0) (S k) n = 0%nat) by (intros k m; revert k; induction m as [|m IH]; intros k; cbn [readies Nat.eqb]; [done|apply IH]).
    cbn [answers reads] in Hn. destruct n as [|n]; [cbn in Hn; lia|]. cbn [readies] in Hn. rewrite H0 in Hn. cbn in Hn. lia.
Defined.

Lemma serial_init_correct_witness :
  ∃ log, init demo_ports = Some (tt, mkPorts (answers demo_ports) 0 log) ∧ length log = 7%nat ∧
    baud (uart_run COM1 log demo_uart) = 38400 ∧ dlab (uart_run COM1 log demo_uart) = false.
Proof.
  destruct (serial_init_correct (SerialPort_new COM1) demo_ports demo_uart) as (log & H1 & H2 & _ & _ & _ & _ & _ & _ & H3 & _); [cbn; unfold COM1; lia|].
  exists log. split; [exact H1|]. split; [|by split]. vm_compute in H1. injection H1 as <-. reflexivity.
Defined.
