(* ===== verification/Mtrr.v ===== *)
(** * Model specific registers and memory types ([kernel/src/msr.rs],
    [kernel/src/mtrr.rs]).

    The registers are a map, a register the processor does not have raises an
    exception (a failure).  [dump] prints; its lines are values here, a number in
    place of its digits. *)
From S2P Require Import Prelude.
Set Default Goal Selector "!".

(** ** The instructions and their wrappers *)
Inductive MemoryType := Uncacheable | WriteCombining | WriteThrough | WriteProtected | WriteBack | UncacheableMinus | Unknown.
Inductive line :=
  | Heading (text : string)
  | Mtrrcap (vcnt : Z) (fix_supported wc_supported : bool)
  | DefType (default_type : string) (mtrr_enabled fixed_enabled : bool)
  | Raw (i base mask : Z)
  | Range (first last mb : Z) (mem_type : string)
  | PatRegister (pat : Z)
  | PatEntry (i : Z) (mem_type : string).
Record machine := mkMachine { msrs : gmap Z Z; printed : list line }.
(** RDMSR: ([EAX], [EDX]). *)
Definition rdmsr (ecx : Z) : M machine (Z * Z) :=
  s ← gets id; v ← lift (msrs s !! ecx); mret (wrap 32 v, v / 2 ^ 32).
Definition wrmsr (ecx eax edx : Z) : M machine unit :=
  s ← gets id; _ ← lift (msrs s !! ecx); modify (λ s, mkMachine (<[ecx := edx * 2 ^ 32 + eax]> (msrs s)) (printed s)).
Definition info (l : line) : M machine unit := modify (λ s, mkMachine (msrs s) (printed s ++ [l])).

Definition IA32_MTRRCAP : Z := 0xFE.
Definition IA32_MTRR_DEF_TYPE : Z := 0x2FF.
Definition IA32_MTRR_PHYSBASE0 : Z := 0x200.
Definition IA32_MTRR_PHYSMASK0 : Z := 0x201.
Definition IA32_PAT : Z := 0x277.
Definition read (msr : Z) : M machine Z :=
  r ← rdmsr msr;
  let '(low, high) := r in
  mret (Z.lor (wrap 64 (Z.shiftl high 32)) low).
Definition write (msr value : Z) : M machine unit :=
  let low := wrap 32 (Z.land value 0xFFFFFFFF) in
  let high := wrap 32 (Z.land (Z.shiftr value 32) 0xFFFFFFFF) in
  wrmsr msr low high.

(** ** The report *)
Definition from_u8 (value : Z) : MemoryType :=
  match value with
  | 0 => Uncacheable | 1 => WriteCombining | 4 => WriteThrough | 5 => WriteProtected | 6 => WriteBack | 7 => UncacheableMinus
  | _ => Unknown
  end.
Definition as_str (t : MemoryType) : string :=
  match t with
  | Uncacheable => "UC (Uncacheable)"
  | WriteCombining => "WC (Write-Combining)"
  | WriteThrough => "WT (Write-Through)"
  | WriteProtected => "WP (Write-Protected)"
  | WriteBack => "WB (Write-Back)"
  | UncacheableMinus => "UC- (Uncacheable Minus)"
  | Unknown => "Unknown"
  end.
Definition bit_set (v n : Z) : bool := negb (Z.land (Z.shiftr v n) 1 =? 0).
Definition PAGE_BITS : Z := 0xFFFFFFFFFFFFF000.
(** The body of the loop over the variable ranges. *)
Definition dump_range (i : Z) : M machine unit :=
  let base_msr := IA32_MTRR_PHYSBASE0 + i * 2 in
  let mask_msr := IA32_MTRR_PHYSMASK0 + i * 2 in
  base ← read base_msr;
  mask ← read mask_msr;
  let valid := bit_set mask 11 in
  if valid then
    let mem_type := from_u8 (Z.land base 0xFF) in
    let base_addr := Z.land base PAGE_BITS in
    let mask_bits := Z.land mask PAGE_BITS in
    let size := Z.land mask_bits (wrap 64 (- mask_bits)) in
    info (Raw i base mask) ;;
    info (Range base_addr (wrap 64 (wrap 64 (base_addr + size) - 1)) (size / (1024 * 1024)) (as_str mem_type))
  else mret tt.
Definition dump_pat (pat i : Z) : M machine unit :=
  let entry := Z.land (Z.shiftr pat (i * 8)) 0xFF in
  info (PatEntry i (as_str (from_u8 entry))).
Definition dump : M machine unit :=
  info (Heading "=== MTRR Configuration ===") ;;
  mtrrcap ← read IA32_MTRRCAP;
  let vcnt := Z.land mtrrcap 0xFF in
  info (Mtrrcap vcnt (bit_set mtrrcap 8) (bit_set mtrrcap 10)) ;;
  def_type ← read IA32_MTRR_DEF_TYPE;
  let default_type := from_u8 (Z.land def_type 0xFF) in
  info (DefType (as_str default_type) (bit_set def_type 11) (bit_set def_type 10)) ;;
  info (Heading "Variable Range MTRRs:") ;;
  for_each (seqZ 0 (Z.min vcnt 8)) dump_range ;;
  pat ← read IA32_PAT;
  info (PatRegister pat) ;;
  info (Heading "PAT Entries:") ;;
  for_each (seqZ 0 8) (dump_pat pat).

(** ** What a variable range covers *)
(** The processor compares the address with the base where the mask has ones. *)
Definition covers (base mask a : Z) : Prop := Z.land a (Z.land mask PAGE_BITS) = Z.land base (Z.land mask PAGE_BITS).
(** A mask as the manuals want it, for [pw] physical address bits and a range of
    [2 ^ k] bytes. *)
Definition range_mask (pw k mask : Z) : Prop := 12 ≤ k < pw ∧ pw ≤ 52 ∧ Z.land mask PAGE_BITS = 2 ^ pw - 2 ^ k.

Lemma land_opp_odd m : Z.land (2 * m + 1) (- (2 * m + 1)) = 1.
Proof.
  replace (- (2 * m + 1)) with (Z.lnot (2 * m)) by (unfold Z.lnot; lia).
  apply Z.bits_inj'. intros i Hi. rewrite Z.land_spec, Z.lnot_spec by lia. destruct (Z.eq_dec i 0) as [->|Hn].
  - rewrite Z.testbit_odd_0, Z.testbit_even_0. done.
  - replace i with (Z.succ (i - 1)) by lia. rewrite Z.testbit_odd_succ, Z.testbit_even_succ by lia.
    rewrite (Z.bits_above_log2 1) by (cbn; lia). by destruct (Z.testbit m (i - 1)).
Qed.
(** The lowest set bit. *)
Lemma lowest_bit pw k : 0 ≤ k < pw → pw ≤ 64 → Z.land (2 ^ pw - 2 ^ k) (wrap 64 (- (2 ^ pw - 2 ^ k))) = 2 ^ k.
Proof.
  intros Hk Hpw. set (x := 2 ^ pw - 2 ^ k). assert (Hx : 0 ≤ x < 2 ^ 64).
  { pose proof (Z.pow_le_mono_r 2 k pw ltac:(lia) ltac:(lia)). pose proof (Z.pow_le_mono_r 2 pw 64 ltac:(lia) ltac:(lia)). pose proof (Z.pow_pos_nonneg 2 k ltac:(lia) ltac:(lia)). unfold x. lia. }
  unfold wrap. rewrite <-Z.land_ones, (Z.land_comm (- x)), Z.land_assoc, Z.land_ones, Z.mod_small by lia.
  set (m := 2 ^ (pw - k - 1) - 1). assert (Hm : x = (2 * m + 1) * 2 ^ k).
  { unfold x, m. replace pw with (1 + (pw - k - 1) + k) at 1 by lia. rewrite !Z.pow_add_r by lia. lia. }
  rewrite Hm. replace (- ((2 * m + 1) * 2 ^ k)) with (- (2 * m + 1) * 2 ^ k) by lia. rewrite <-!Z.shiftl_mul_pow2, <-Z.shiftl_land by lia.
  rewrite land_opp_odd, Z.shiftl_mul_pow2 by lia. lia.
Qed.
Lemma page_bits_mask x : 0 ≤ x < 2 ^ 64 → Z.land x PAGE_BITS = x / 2 ^ 12 * 2 ^ 12.
Proof. intros Hx. by rewrite <-(land_not_mask 64 12) by lia. Qed.
(** A valid range whose base is a multiple of its size: the addresses it covers. *)
Lemma covers_range pw k base mask a : range_mask pw k mask → is_u64 base →
  (2 ^ k | Z.land base PAGE_BITS) → Z.land base PAGE_BITS < 2 ^ pw → 0 ≤ a < 2 ^ pw →
  covers base mask a ↔ Z.land base PAGE_BITS ≤ a < Z.land base PAGE_BITS + 2 ^ k.
Proof.
  intros ([Hk Hkp] & Hpw & Hm) Hb Hal Hbp Ha. unfold covers. rewrite Hm.
  assert (Hp : 2 ^ pw - 2 ^ k = bnot pw (2 ^ k - 1)).
  { rewrite bnot_lnot; [lia|lia|]. pose proof (Z.pow_lt_mono_r 2 k pw ltac:(lia) ltac:(lia) ltac:(lia)). pose proof (Z.pow_pos_nonneg 2 k ltac:(lia) ltac:(lia)). lia. }
  assert (Hbb : Z.land base (2 ^ pw - 2 ^ k) = Z.land (Z.land base PAGE_BITS) (2 ^ pw - 2 ^ k)).
  { rewrite <-Hm. rewrite <-Z.land_assoc. f_equal. rewrite (Z.land_comm mask), Z.land_assoc, Z.land_diag. done. }
  set (b := Z.land base PAGE_BITS) in *. assert (0 ≤ b) by (apply Z.land_nonneg; left; apply Hb).
  rewrite Hbb, Hp, !land_not_mask by lia. assert (Hz : 0 < 2 ^ k) by (apply Z.pow_pos_nonneg; lia).
  destruct Hal as [q ->]. rewrite Z.div_mul by lia. set (z := 2 ^ k) in *. clearbody z. clear -Hz.
  pose proof (Z.div_mod a z ltac:(lia)). pose proof (Z.mod_pos_bound a z Hz). split; intros H1; [nia|].
  assert (a / z = q) as ->; [|done]. symmetry. apply (Z.div_unique_pos _ _ _ (a - q * z)); lia.
Qed.

Lemma read_run msr s v : msrs s !! msr = Some v → is_u64 v → read msr s = Some (v, s).
Proof.
  intros Hv Hw. unfold read, rdmsr, mbind, M_bind, gets, lift, id. rewrite Hv. unfold mret, M_ret. f_equal. f_equal. unfold wrap.
  rewrite Z.shiftl_mul_pow2, (Z.mod_small (v / 2 ^ 32 * 2 ^ 32)) by (clear -Hw; unfold is_u64 in Hw; dlia).
  rewrite <-(Z.land_ones v), <-Z.shiftl_mul_pow2, <-Z.shiftr_div_pow2 by lia. symmetry. apply Z.bits_inj'. intros i Hi.
  rewrite Z.lor_spec, Z.shiftl_spec, Z.land_spec by lia. destruct (Z.ltb_spec i 32).
  - rewrite Z.ones_spec_low, (Z.testbit_neg_r _ (i - 32)) by lia. by rewrite andb_true_r.
  - rewrite Z.ones_spec_high, Z.shiftr_spec by lia. rewrite andb_false_r, orb_false_r. f_equal. lia.
Qed.
(** A value written to a register is the value read back, and no other
    register changes: the two halves the instructions move are put together as
    they were taken apart. *)
Theorem msr_write_read (msr value old : Z) (s : machine) (Hv : is_u64 value) (Hold : msrs s !! msr = Some old) :
  ∃ s', write msr value s = Some (tt, s') ∧ read msr s' = Some (value, s') ∧ printed s' = printed s ∧
    (∀ other, other ≠ msr → msrs s' !! other = msrs s !! other).
Proof.
  assert (Hw : wrap 32 (Z.land (Z.shiftr value 32) 0xFFFFFFFF) * 2 ^ 32 + wrap 32 (Z.land value 0xFFFFFFFF) = value).
  { change 0xFFFFFFFF with (Z.ones 32). unfold wrap. rewrite !Z.land_ones, !Z.mod_mod, Z.shiftr_div_pow2 by lia. clear -Hv. unfold is_u64 in Hv. dlia. }
  eexists. split_and!.
  - unfold write, wrmsr, mbind, M_bind, gets, lift, id, modify. rewrite Hold. cbv zeta. rewrite Hw. reflexivity.
  - apply read_run; [|done]. cbn [msrs]. by rewrite lookup_insert_eq.
  - done.
  - intros other Ho. cbn [msrs]. by rewrite lookup_insert_ne.
Qed.

Section report.
Context (regs : gmap Z Z) (cap def pat : Z) (bases masks : Z → Z).
Definition vcount : Z := Z.min (Z.land cap 0xFF) 8.
(** The registers [dump] reads, each of 64 bits. *)
Record mtrr_regs : Prop := {
  mr_cap : regs !! IA32_MTRRCAP = Some cap ∧ is_u64 cap;
  mr_def : regs !! IA32_MTRR_DEF_TYPE = Some def ∧ is_u64 def;
  mr_pat : regs !! IA32_PAT = Some pat ∧ is_u64 pat;
  mr_base : ∀ i, 0 ≤ i < vcount → regs !! (IA32_MTRR_PHYSBASE0 + i * 2) = Some (bases i) ∧ is_u64 (bases i);
  mr_mask : ∀ i, 0 ≤ i < vcount → regs !! (IA32_MTRR_PHYSMASK0 + i * 2) = Some (masks i) ∧ is_u64 (masks i) }.
(** What is printed for register [i]. *)
Definition range_lines (i : Z) : list line :=
  if bit_set (masks i) 11 then
    let base_addr := Z.land (bases i) PAGE_BITS in
    let mask_bits := Z.land (masks i) PAGE_BITS in
    let size := Z.land mask_bits (wrap 64 (- mask_bits)) in
    [Raw i (bases i) (masks i);
     Range base_addr (wrap 64 (wrap 64 (base_addr + size) - 1)) (size / (1024 * 1024)) (as_str (from_u8 (Z.land (bases i) 0xFF)))]
  else [].
Definition pat_line (i : Z) : line := PatEntry i (as_str (from_u8 (Z.land (Z.shiftr pat (i * 8)) 0xFF))).

Lemma print_each (f : Z → M machine unit) (out : Z → list line) ids : ∀ ls,
  (∀ i ls, i ∈ ids → f i (mkMachine regs ls) = Some (tt, mkMachine regs (ls ++ out i))) →
  for_each ids f (mkMachine regs ls) = Some (tt, mkMachine regs (ls ++ concat (map out ids))).
Proof.
  induction ids as [|i ids IH]; intros ls Hf; cbn [for_each map concat]; [by rewrite app_nil_r|].
  apply run_bind. unfold wp. rewrite Hf by left. rewrite IH by (intros j js Hj; apply Hf; by right). by rewrite app_assoc.
Qed.
Lemma reg_run msr v ls : regs !! msr = Some v ∧ is_u64 v → read msr (mkMachine regs ls) = Some (v, mkMachine regs ls).
Proof. intros [Hv Hw]. by apply (read_run msr (mkMachine regs ls)). Qed.
Lemma dump_range_run i ls : mtrr_regs → 0 ≤ i < vcount → dump_range i (mkMachine regs ls) = Some (tt, mkMachine regs (ls ++ range_lines i)).
Proof.
  intros R Hi. unfold dump_range, range_lines.
  apply run_bind. unfold wp. rewrite (reg_run _ _ _ (mr_base R i Hi)). apply run_bind. unfold wp. rewrite (reg_run _ _ _ (mr_mask R i Hi)).
  destruct (bit_set (masks i) 11); [|by rewrite app_nil_r]. apply run_bind. unfold wp, info, modify. cbn [msrs printed]. by rewrite <-app_assoc.
Qed.
(** The range of a well-formed register: printed are its first and last address
    and its type. *)
Lemma range_lines_covers i pw k : is_u64 (bases i) → bit_set (masks i) 11 = true → range_mask pw k (masks i) →
  (2 ^ k | Z.land (bases i) PAGE_BITS) → Z.land (bases i) PAGE_BITS < 2 ^ pw →
  ∃ first last, range_lines i = [Raw i (bases i) (masks i); Range first last (2 ^ k / 2 ^ 20) (as_str (from_u8 (Z.land (bases i) 0xFF)))] ∧
    ∀ a, 0 ≤ a < 2 ^ pw → covers (bases i) (masks i) a ↔ first ≤ a ≤ last.
Proof.
  intros Hb Hv Hr Hal Hbp. unfold range_lines. rewrite Hv. pose proof Hr as (Hk & Hpw & Hm). rewrite Hm, lowest_bit by lia.
  set (b := Z.land (bases i) PAGE_BITS) in *. assert (0 ≤ b) by (apply Z.land_nonneg; left; apply Hb).
  pose proof (Z.pow_lt_mono_r 2 k pw ltac:(lia) ltac:(lia) ltac:(lia)). pose proof (Z.pow_le_mono_r 2 pw 52 ltac:(lia) ltac:(lia)).
  assert (0 < 2 ^ k) by (apply Z.pow_pos_nonneg; lia). unfold wrap. rewrite (Z.mod_small (b + 2 ^ k)), Z.mod_small by lia.
  do 2 eexists. split; [reflexivity|]. intros a Ha. rewrite (covers_range pw k) by done. fold b. lia.
Qed.
End report.

Lemma dump_run (regs : gmap Z Z) (cap def pat : Z) (bases masks : Z → Z) (out : list line)
  (R : mtrr_regs regs cap def pat bases masks) :
  ∃ range, dump (mkMachine regs out) = Some (tt, mkMachine regs (out ++
      [Heading "=== MTRR Configuration ==="; Mtrrcap (Z.land cap 0xFF) (bit_set cap 8) (bit_set cap 10);
       DefType (as_str (from_u8 (Z.land def 0xFF))) (bit_set def 11) (bit_set def 10); Heading "Variable Range MTRRs:"] ++
      concat (map range (seqZ 0 (vcount cap))) ++ [PatRegister pat; Heading "PAT Entries:"] ++ map (pat_line pat) (seqZ 0 8))) ∧
    (∀ i, 0 ≤ i < vcount cap →
      (bit_set (masks i) 11 = false → range i = []) ∧
      (∀ pw k, bit_set (masks i) 11 = true → range_mask pw k (masks i) → (2 ^ k | Z.land (bases i) PAGE_BITS) → Z.land (bases i) PAGE_BITS < 2 ^ pw →
        ∃ first last, range i = [Raw i (bases i) (masks i); Range first last (2 ^ k / 2 ^ 20) (as_str (from_u8 (Z.land (bases i) 0xFF)))] ∧
          ∀ a, 0 ≤ a < 2 ^ pw → covers (bases i) (masks i) a ↔ first ≤ a ≤ last) ∧
      (bit_set (masks i) 11 = true → Z.land (masks i) PAGE_BITS = 0 →
        (∀ a, covers (bases i) (masks i) a) ∧ ∃ first last t, range i = [Raw i (bases i) (masks i); Range first last 0 t] ∧ (0 < first → last < first))).
Proof.
  exists (range_lines bases masks). split.
  - unfold dump. apply run_bind. unfold wp, info at 1, modify at 1. cbn [msrs printed].
    apply run_bind. unfold wp. rewrite (reg_run _ _ _ _ (mr_cap _ _ _ _ _ _ R)). apply run_bind. unfold wp, info at 1, modify at 1. cbn [msrs printed].
    apply run_bind. unfold wp. rewrite (reg_run _ _ _ _ (mr_def _ _ _ _ _ _ R)). do 2 (apply run_bind; unfold wp, info at 1, modify at 1; cbn [msrs printed]).
    apply run_bind. unfold wp. change (Z.min (Z.land cap 255) 8) with (vcount cap).
    rewrite (print_each regs dump_range (range_lines bases masks)) by (intros i ls Hi; apply (dump_range_run regs cap def pat); [done|apply elem_of_seqZ in Hi; lia]).
    apply run_bind. unfold wp. rewrite (reg_run _ _ _ _ (mr_pat _ _ _ _ _ _ R)). do 2 (apply run_bind; unfold wp, info at 1, modify at 1; cbn [msrs printed]).
    rewrite (print_each regs (dump_pat pat) (λ i, [pat_line pat i])) by done.
    rewrite <-!app_assoc. do 2 f_equal.
  - intros i Hi. destruct (mr_base _ _ _ _ _ _ R i Hi) as [_ Wb]. split_and!.
    + intros Hv. unfold range_lines. by rewrite Hv.
    + intros pw k Hv Hr Hal Hbp. by apply range_lines_covers.
    + intros Hv Hm. unfold covers, range_lines. rewrite Hv, Hm. split; [intros a; by rewrite !Z.land_0_r|].
      do 3 eexists. split; [reflexivity|]. change (Z.land 0 (wrap 64 (-0))) with 0. rewrite Z.add_0_r.
      assert (0 ≤ Z.land (bases i) PAGE_BITS < 2 ^ 64) by (rewrite page_bits_mask by done; clear -Wb; unfold is_u64 in Wb; dlia).
      unfold wrap. intros Hf. rewrite (Z.mod_small (Z.land _ _)), Z.mod_small by lia. lia.
Qed.

(** The report reads without changing any register and prints, in order, the
    capabilities, the default type, every valid variable range and the eight
    entries of the page attribute table.  For a range set up as the processor
    wants it, the printed interval is exactly the set of addresses it covers.
    With an empty mask, which covers every address, the printed one is empty. *)
Theorem mtrr_dump_correct (regs : gmap Z Z) (cap def pat : Z) (bases masks : Z → Z) (out : list line)
  (R : mtrr_regs regs cap def pat bases masks) :
  ∃ range, dump (mkMachine regs out) = Some (tt, mkMachine regs (out ++
      [Heading "=== MTRR Configuration ==="; Mtrrcap (Z.land cap 0xFF) (bit_set cap 8) (bit_set cap 10);
       DefType (as_str (from_u8 (Z.land def 0xFF))) (bit_set def 11) (bit_set def 10); Heading "Variable Range MTRRs:"] ++
      concat (map range (seqZ 0 (vcount cap))) ++ [PatRegister pat; Heading "PAT Entries:"] ++ map (pat_line pat) (seqZ 0 8))) ∧
    (∀ i, 0 ≤ i < vcount cap →
      (bit_set (masks i) 11 = false → range i = []) ∧
      (∀ pw k, bit_set (masks i) 11 = true → range_mask pw k (masks i) → (2 ^ k | Z.land (bases i) PAGE_BITS) → Z.land (bases i) PAGE_BITS < 2 ^ pw →
        ∃ first last, range i = [Raw i (bases i) (masks i); Range first last (2 ^ k / 2 ^ 20) (as_str (from_u8 (Z.land (bases i) 0xFF)))] ∧
          ∀ a, 0 ≤ a < 2 ^ pw → covers (bases i) (masks i) a ↔ first ≤ a ≤ last) ∧
      (bit_set (masks i) 11 = true → Z.land (masks i) PAGE_BITS = 0 →
        (∀ a, covers (bases i) (masks i) a) ∧ ∃ first last t, range i = [Raw i (bases i) (masks i); Range first last 0 t] ∧ (0 < first → last < first))).
Proof. by apply dump_run. Qed.

(** ** Example: one range of 2 GB at 2 GB, uncached, 40 address bits *)
Definition demo_msrs : gmap Z Z := list_to_map
  [(IA32_MTRRCAP, 0x502); (IA32_MTRR_DEF_TYPE, 0xC06); (IA32_PAT, 0x0007040600070406); (0x200, 0x80000000); (0x201, 0xFF80000800); (0x202, 0); (0x203, 0)].
Definition demo_bases (i : Z) : Z := if i =? 0 then 0x80000000 else 0.
Definition demo_masks (i : Z) : Z := if i =? 0 then 0xFF80000800 else 0.
Lemma demo_mtrr_regs : mtrr_regs demo_msrs 0x502 0xC06 0x0007040600070406 demo_bases demo_masks.
Proof.
  split; unfold is_u64; try (split; [reflexivity|lia]).
  all: intros i Hi; change (vcount 0x502) with 2 in Hi; assert (i = 0 ∨ i = 1) as [-> | ->] by lia; (split; [reflexivity|cbn; lia]).
Qed.

Lemma mtrr_dump_correct_witness :
  ∃ ls, dump (mkMachine demo_msrs []) = Some (tt, mkMachine demo_msrs ls) ∧
    ∃ first last, Range first last 2048 "UC (Uncacheable)" ∈ ls ∧ ∀ a, 0 ≤ a < 2 ^ 40 → covers 0x80000000 0xFF80000800 a ↔ first ≤ a ≤ last.
Proof.
  destruct (mtrr_dump_correct demo_msrs _ _ _ _ _ [] demo_mtrr_regs) as (range & H & Hr). eexists. split; [exact H|].
  destruct (Hr 0) as (_ & H1 & _); [by vm_compute|]. destruct (H1 40 31) as (first & last & He & Hc);
    [reflexivity|split; [lia|split; [lia|reflexivity]]|exists 1; reflexivity|reflexivity|].
  exists first, last. split; [|exact Hc]. change (concat (map range (seqZ 0 (vcount 0x502)))) with (range 0 ++ range 1 ++ []). rewrite He.
  do 5 right. left.
Defined.

Lemma msr_write_read_witness :
  ∃ s', write IA32_PAT 0x0007010600070406 (mkMachine demo_msrs []) = Some (tt, s') ∧ read IA32_PAT s' = Some (0x0007010600070406, s').
Proof.
  destruct (msr_write_read IA32_PAT 0x0007010600070406 0x0007040600070406 (mkMachine demo_msrs [])) as (s' & H1 & H2 & _);
    [unfold is_u64; lia|reflexivity|]. exists s'. by split.
Defined.
