(* ===== verification/Main.v ===== *)
(** * The kernel's start ([kernel/src/main.rs]).

    [kernel_main_inner] runs the initialisation of every part of the kernel in
    order, on one state that has the parts' states as fields; [on_..] runs a
    part's code on its fields.  It finds the largest free region of the memory
    map, gives all of it to the allocator, starts the timer and the compositor,
    makes the tasks and calls the scheduler.  What the main task and the others
    do when they run is in [Apps]. *)
From S2P Require Import Prelude Addr BootInfo Paging Buddy KernelAlloc.
From S2P Require Cpu Gdt Idt TimerDevice Apic Pci Acpi Mtrr Context Task Sched Timer Graphics Writer.
Set Default Goal Selector "!".

(** The loop over the regions: the start and size of the largest so far. *)
Definition larger (largest : Z * Z) (region : MemoryRegion) : Z * Z :=
  let '(largest_start_phys, largest_size) := largest in
  if (r_type region =? EFI_CONVENTIONAL_MEMORY) && (largest_size <? r_size region) then (r_start region, r_size region) else largest.
Definition find_heap (boot_info : BootInfo) : Z * Z :=
  let safe_count := Z.min (memory_map_count boot_info) (Z.of_nat (length (memory_map boot_info))) in
  foldl larger (0, 0) (take (Z.to_nat safe_count) (memory_map boot_info)).

(** [None]: no usable memory; otherwise the heap's virtual address and size. *)
Definition init_kernel_heap (boot_info : BootInfo) : M kstate (option (Z * Z)) :=
  let '(largest_start_phys, largest_size) := find_heap boot_info in
  if 0 <? largest_size then
    r ← lift (phys_to_virt largest_start_phys);
    match r with
    | Err _ => panic
    | Ok largest_start_virt => kinit largest_start_virt largest_size ;; mret (Some (largest_start_virt, largest_size))
    end
  else mret None.

(** The frame buffer: width, height and the product with 4 are 32-bit. *)
Definition map_kernel_framebuffer (boot_info : BootInfo) : M pstate Z :=
  let fb := framebuffer boot_info in
  pixels ← lift (cmul 32 (fb_width fb) (fb_height fb));
  fb_size ← lift (cmul 32 pixels 4);
  r ← map_framebuffer_huge (fb_base fb) fb_size;
  match r with Ok fb_virt_base => mret fb_virt_base | Err _ => panic end.

(** ** The state of the whole kernel

    The identifiers of tasks and the page tables are each one static that two
    parts use; the zooms below hand the same field to both.  RFLAGS.IF is off
    until the first call of [schedule]; the page tables' state has it in its copy
    of RFLAGS, the scheduler's in its flag. *)
Record CompositorConfig := mkConfig { cc_fb_base : Z; cc_fb_width : Z; cc_fb_height : Z; refresh_interval_ticks : Z }.
(** [buffers] of the compositor, each with the flag of its mutex. *)
Record Compositor := mkCompositor { cc_config : CompositorConfig; cc_buffers : list (bool * Graphics.WriterBuffer) }.
Definition Compositor_new (config : CompositorConfig) : Compositor := mkCompositor config [].

Record system (X H : Type) := mkSystem {
  y_cpu : Cpu.mach; y_paging : pstate; y_firmware : Z → option Z; y_lapic : Z; y_pci : Pci.pci; y_hpet : TimerDevice.hpet; y_pit : TimerDevice.pit;
  y_apic : Apic.apic; y_msrs : Mtrr.machine; y_screen : Graphics.pixels; y_heap : kstate; y_kernel : Timer.kernel X H; y_stacks : Context.cmem;
  SCREEN : Z * Z; COMPOSITOR : option Compositor }.
Arguments mkSystem {X H}.
Arguments y_cpu {X H}.
Arguments y_paging {X H}.
Arguments y_firmware {X H}.
Arguments y_lapic {X H}.
Arguments y_pci {X H}.
Arguments y_hpet {X H}.
Arguments y_pit {X H}.
Arguments y_apic {X H}.
Arguments y_msrs {X H}.
Arguments y_screen {X H}.
Arguments y_heap {X H}.
Arguments y_kernel {X H}.
Arguments y_stacks {X H}.
Arguments SCREEN {X H}.
Arguments COMPOSITOR {X H}.

(** Where the linker put the tables and the entry points. *)
Record main_image := mkMainImage {
  mi_gdt : Gdt.gdt_image; mi_idt : Z; mi_handlers : Idt.handler → Z; mi_kernel : kernel_image;
  compositor_task : Z; idle_task : Z; task1 : Z; task2 : Z; task3 : Z; debug_overlay_task : Z }.

Section main.
Context {X H : Type} `{!Timer.Heap (Timer.Timer X) H Timer.expires_at}.
Abbreviation sys := (system X H).

Definition on_cpu {A} (m : M Cpu.mach A) : M sys A := zoom y_cpu (λ c y,
  mkSystem c (y_paging y) (y_firmware y) (y_lapic y) (y_pci y) (y_hpet y) (y_pit y) (y_apic y) (y_msrs y) (y_screen y) (y_heap y) (y_kernel y) (y_stacks y) (SCREEN y) (COMPOSITOR y)) m.
Definition on_paging {A} (m : M pstate A) : M sys A := zoom y_paging (λ p y,
  mkSystem (y_cpu y) p (y_firmware y) (y_lapic y) (y_pci y) (y_hpet y) (y_pit y) (y_apic y) (y_msrs y) (y_screen y) (y_heap y) (y_kernel y) (y_stacks y) (SCREEN y) (COMPOSITOR y)) m.
Definition on_acpi {A} (m : M Acpi.acpi A) : M sys A :=
  zoom (λ y, Acpi.mkAcpi (y_firmware y) (y_lapic y) (y_pci y) (TimerDevice.mkHpetSys (y_paging y) (y_hpet y))) (λ a y,
  mkSystem (y_cpu y) (TimerDevice.hs_paging (Acpi.ac_hpet a)) (Acpi.mem a) (Acpi.LOCAL_APIC_ADDRESS a) (Acpi.ac_pci a) (TimerDevice.hs_hpet (Acpi.ac_hpet a)) (y_pit y)
    (y_apic y) (y_msrs y) (y_screen y) (y_heap y) (y_kernel y) (y_stacks y) (SCREEN y) (COMPOSITOR y)) m.
(** The scan prints the devices it finds; the list starts empty. *)
Definition on_scan {A} (m : M Pci.scan A) : M sys A := zoom (λ y, Pci.mkScan (y_pci y) []) (λ c y,
  mkSystem (y_cpu y) (y_paging y) (y_firmware y) (y_lapic y) (Pci.sc_pci c) (y_hpet y) (y_pit y) (y_apic y) (y_msrs y) (y_screen y) (y_heap y) (y_kernel y) (y_stacks y) (SCREEN y) (COMPOSITOR y)) m.
Definition on_apic_sys {A} (m : M Apic.apic_sys A) : M sys A :=
  zoom (λ y, Apic.mkApicSys (y_paging y) (y_hpet y) (y_pit y) (y_apic y)) (λ a y,
  mkSystem (y_cpu y) (Apic.as_paging a) (y_firmware y) (y_lapic y) (y_pci y) (Apic.as_hpet a) (Apic.as_pit a) (Apic.as_apic a) (y_msrs y) (y_screen y) (y_heap y) (y_kernel y)
    (y_stacks y) (SCREEN y) (COMPOSITOR y)) m.
Definition on_msrs {A} (m : M Mtrr.machine A) : M sys A := zoom y_msrs (λ r y,
  mkSystem (y_cpu y) (y_paging y) (y_firmware y) (y_lapic y) (y_pci y) (y_hpet y) (y_pit y) (y_apic y) r (y_screen y) (y_heap y) (y_kernel y) (y_stacks y) (SCREEN y) (COMPOSITOR y)) m.
(** A console of its own for the call; what remains of it is the screen. *)
Definition on_console {A} (width height color : Z) (m : M Graphics.FramebufferWriter A) : M sys A :=
  zoom (λ y, Graphics.FramebufferWriter_new (y_screen y) width height color) (λ f y,
  mkSystem (y_cpu y) (y_paging y) (y_firmware y) (y_lapic y) (y_pci y) (y_hpet y) (y_pit y) (y_apic y) (y_msrs y) (Graphics.fb f) (y_heap y) (y_kernel y) (y_stacks y) (SCREEN y) (COMPOSITOR y)) m.
Definition on_heap {A} (m : M kstate A) : M sys A := zoom y_heap (λ k y,
  mkSystem (y_cpu y) (y_paging y) (y_firmware y) (y_lapic y) (y_pci y) (y_hpet y) (y_pit y) (y_apic y) (y_msrs y) (y_screen y) k (y_kernel y) (y_stacks y) (SCREEN y) (COMPOSITOR y)) m.
Definition on_kernel {A} (m : M (Timer.kernel X H) A) : M sys A := zoom y_kernel (λ k y,
  mkSystem (y_cpu y) (y_paging y) (y_firmware y) (y_lapic y) (y_pci y) (y_hpet y) (y_pit y) (y_apic y) (y_msrs y) (y_screen y) (y_heap y) k (y_stacks y) (SCREEN y) (COMPOSITOR y)) m.
Definition on_tasks {A} (m : M Task.tstate A) : M sys A :=
  zoom (λ y, Task.mkT (Sched.NEXT_TASK_ID (Timer.sc (y_kernel y))) (y_stacks y)) (λ t y,
  mkSystem (y_cpu y) (y_paging y) (y_firmware y) (y_lapic y) (y_pci y) (y_hpet y) (y_pit y) (y_apic y) (y_msrs y) (y_screen y) (y_heap y)
    (Timer.mkKernel (Timer.tm (y_kernel y)) (Sched.set_next_id (Task.NEXT_ID t) (Timer.sc (y_kernel y)))) (Task.stacks t) (SCREEN y) (COMPOSITOR y)) m.
Definition set_compositor (size : Z * Z) (c : option Compositor) (y : sys) : sys :=
  mkSystem (y_cpu y) (y_paging y) (y_firmware y) (y_lapic y) (y_pci y) (y_hpet y) (y_pit y) (y_apic y) (y_msrs y) (y_screen y) (y_heap y) (y_kernel y) (y_stacks y) size c.

(** ** The compositor's statics ([graphics/compositor.rs]) *)
Definition init_compositor (config : CompositorConfig) : M sys unit :=
  modify (λ y, set_compositor (cc_fb_width config, cc_fb_height config) (COMPOSITOR y) y) ;;
  modify (λ y, set_compositor (SCREEN y) (Some (Compositor_new config)) y).
Definition screen_size : M sys (Z * Z) := gets SCREEN.
Definition register_writer (region : Graphics.Region) : M sys (option nat) :=
  _ ← on_kernel (Timer.on_sc Sched.current_task_id);
  y ← gets id;
  match COMPOSITOR y with
  | Some c =>
      modify (set_compositor (SCREEN y) (Some (mkCompositor (cc_config c) (cc_buffers c ++ [(false, Graphics.WriterBuffer_new region)])))) ;;
      mret (Some (length (cc_buffers c)))
  | None => mret None
  end.

(** ** kernel_main_inner

    [bases] are the addresses the heap answers for the tasks' stacks; [fuel]
    bounds the loops over ACPI entries and the polling of the HPET. *)
Definition TIMER_FREQUENCY_HZ : Z := 250.
Definition spawn (m : M Task.tstate (result Task.Task Context.TaskError)) : M sys unit :=
  task ← TimerDevice.expect (on_tasks m); on_kernel (Timer.on_sc (Sched.add_task task)).
Definition start_tasks (img : main_image) (base : nat → Z) : M sys (option (Sched.ctx_ptr * Sched.ctx_ptr)) :=
  spawn (Task.Task_new_realtime "Compositor" Task.rt_MAX (compositor_task img) (base 0%nat)) ;;
  spawn (Task.Task_new_idle "Idle" (idle_task img) (base 1%nat)) ;;
  spawn (Task.Task_new "Task1" (Task.nice_DEFAULT - 5) (task1 img) (base 2%nat)) ;;
  spawn (Task.Task_new "Task2" Task.nice_DEFAULT (task2 img) (base 3%nat)) ;;
  spawn (Task.Task_new "Task3" Task.nice_MAX (task3 img) (base 4%nat)) ;;
  spawn (Task.Task_new "DebugOverlay" Task.nice_DEFAULT (debug_overlay_task img) (base 5%nat)) ;;
  kernel_main ← TimerDevice.expect (on_tasks (Task.Task_new "KernelMain" Task.nice_DEFAULT (idle_task img) (base 6%nat)));
  on_kernel (Timer.on_sc (Sched.set_current_task kernel_main)) ;;
  on_kernel (Timer.on_sc Sched.schedule).
(** From the descriptor tables to the cleared screen: the frame buffer's address. *)
Definition start_hardware (img : main_image) (fuel : nat) (boot_info : BootInfo) : M sys Z :=
  TimerDevice.expect (on_cpu (Gdt.gdt_init (mi_gdt img))) ;;
  TimerDevice.expect (on_paging (Paging.init (mi_kernel img) boot_info)) ;;
  TimerDevice.expect (on_cpu (Gdt.gdt_init (mi_gdt img))) ;;
  TimerDevice.expect (on_cpu (Idt.idt_init (mi_idt img) (mi_handlers img))) ;;
  _ ← on_acpi (Acpi.acpi_init fuel (rsdp_address boot_info));
  on_scan Pci.scan_pci_bus ;;
  apic_base ← on_acpi (gets Acpi.get_local_apic_address);
  TimerDevice.expect (on_apic_sys (Apic.apic_init apic_base)) ;;
  TimerDevice.expect (on_apic_sys (Apic.calibrate_timer fuel)) ;;
  on_msrs Mtrr.dump ;;
  fb_virt_base ← on_paging (map_kernel_framebuffer boot_info);
  on_console (fb_width (framebuffer boot_info)) (fb_height (framebuffer boot_info)) 0xFFFFFFFF (Graphics.clear_screen 0) ;;
  mret fb_virt_base.
(** [None] as a whole: a panic.  An answer of [None]: no usable memory, or the
    scheduler had nothing to switch to. *)
Definition kernel_main_inner (img : main_image) (base : nat → Z) (fuel : nat) (boot_info : BootInfo) : M sys (option (Sched.ctx_ptr * Sched.ctx_ptr)) :=
  fb_virt_base ← start_hardware img fuel boot_info;
  heap ← on_heap (init_kernel_heap boot_info);
  match heap with
  | None => mret None
  | Some _ =>
      on_kernel (Timer.timer_init TIMER_FREQUENCY_HZ) ;;
      TimerDevice.expect (on_apic_sys (Apic.on_apic (Apic.init_timer TIMER_FREQUENCY_HZ))) ;;
      init_compositor (mkConfig fb_virt_base (fb_width (framebuffer boot_info)) (fb_height (framebuffer boot_info)) 10) ;;
      start_tasks img base
  end.
End main.
