(* ===== verification/MainProps.v ===== *)
(** * The kernel's start: the theorems on the heap. *)
From S2P Require Import Prelude Addr BootInfo X86 Paging Buddy KernelAlloc KernelSpec BuddyInit KernelInit Boot BootTables BootThms BootProps Main.
From S2P Require PagingSpec PagingWalk PagingMmio PagingOps PagingInit PagingMap PagingProps Cpu Gdt GdtThms Idt IdtThms Interrupts IdtProps TimerDevice Apic ClockThms ClockProps.
From S2P Require Pci PciThms PciProps Acpi AcpiThms AcpiProps Mtrr Context ContextProps Task Sched SchedSpec Timer Graphics GraphicsSpec GraphicsThms.
Set Default Goal Selector "!".

(** What makes a region the one to take: the first of the largest free ones. *)
Record largest_free (regions : list MemoryRegion) (i : nat) (r : MemoryRegion) : Prop := {
  lf_here : regions !! i = Some r;
  lf_free : r_type r = EFI_CONVENTIONAL_MEMORY ∧ 0 < r_size r;
  lf_largest : ∀ j q, regions !! j = Some q → r_type q = EFI_CONVENTIONAL_MEMORY → r_size q ≤ r_size r ∧ ((j < i)%nat → r_size q < r_size r);
}.
Definition no_free (regions : list MemoryRegion) : Prop := ∀ j q, regions !! j = Some q → r_type q = EFI_CONVENTIONAL_MEMORY → r_size q ≤ 0.
Lemma fold_larger regions : foldl larger (0, 0) regions = (0, 0) ∧ no_free regions ∨
  ∃ i r, foldl larger (0, 0) regions = (r_start r, r_size r) ∧ largest_free regions i r.
Proof.
  induction regions as [|q regions IH] using rev_ind; [left; split; [done|by intros j q]|]. rewrite foldl_app. cbn [foldl].
  assert (Hlast : (regions ++ [q]) !! length regions = Some q) by (by rewrite lookup_app_r, Nat.sub_diag by lia).
  assert (Hcase : ∀ j p, (regions ++ [q]) !! j = Some p → regions !! j = Some p ∧ (j < length regions)%nat ∨ j = length regions ∧ p = q).
  { intros j p Hj. destruct (decide (j < length regions)%nat); [rewrite lookup_app_l in Hj by done; by left|].
    pose proof (lookup_lt_Some _ _ _ Hj) as Hl. rewrite length_app in Hl. cbn in Hl. assert (j = length regions) as -> by lia. rewrite Hlast in Hj. injection Hj as <-. by right. }
  destruct IH as [[-> Hno]|(i & r & -> & [Hi [Ht Hpos] Hmax])]; unfold larger.
  - destruct (Z.eqb_spec (r_type q) EFI_CONVENTIONAL_MEMORY) as [Hq|Hq], (Z.ltb_spec 0 (r_size q)); cbn [andb].
    + right. exists (length regions), q. split; [done|]. split; [exact Hlast|done|]. intros j p [[Hj Hl]|[-> ->]]%Hcase Hp; [specialize (Hno j p Hj Hp); lia|lia].
    + left. split; [done|]. intros j p [[Hj _]|[-> ->]]%Hcase Hp; [by eapply Hno|done].
    + left. split; [done|]. intros j p [[Hj _]|[-> ->]]%Hcase Hp; [by eapply Hno|done].
    + left. split; [done|]. intros j p [[Hj _]|[-> ->]]%Hcase Hp; [by eapply Hno|done].
  - pose proof (lookup_lt_Some _ _ _ Hi) as Hil.
    assert (Hkeep : r_type q ≠ EFI_CONVENTIONAL_MEMORY ∨ r_size q ≤ r_size r → largest_free (regions ++ [q]) i r).
    { intros Hor. split; [by rewrite lookup_app_l|done|]. intros j p [[Hj Hl]|[-> ->]]%Hcase Hp; [by apply Hmax|]. destruct Hor; [done|]. split; [done|lia]. }
    destruct (Z.eqb_spec (r_type q) EFI_CONVENTIONAL_MEMORY) as [Hq|Hq], (Z.ltb_spec (r_size r) (r_size q)); cbn [andb].
    + right. exists (length regions), q. split; [done|]. split; [exact Hlast|split; [done|lia]|].
      intros j p [[Hj Hl]|[-> ->]]%Hcase Hp; [destruct (Hmax j p Hj Hp); lia|lia].
    + right. exists i, r. split; [done|]. apply Hkeep. by right.
    + right. exists i, r. split; [done|]. apply Hkeep. by left.
    + right. exists i, r. split; [done|]. apply Hkeep. by left.
Qed.
(** The regions the kernel looks at. *)
Definition seen (bi : BootInfo) : list MemoryRegion := take (Z.to_nat (Z.min (memory_map_count bi) (Z.of_nat (length (memory_map bi))))) (memory_map bi).

Lemma kernel_heap_run (bi : BootInfo) (m : memory) :
  (no_free (seen bi) ∧ init_kernel_heap bi (knew m) = Some (None, knew m)) ∨
  (∃ i r, largest_free (seen bi) i r ∧
    (r_start r = 0 → init_kernel_heap bi (knew m) = None) ∧
    (let hs := r_start r + KERNEL_VIRTUAL_BASE in let size := r_size r in
     0 < r_start r → (8 | r_start r) → hs + size + 4096 < 2 ^ 64 → region_down (hs + size) - region_up (hs + size / 2) ≤ 2 ^ 30 →
     ∃ k SL FL, init_kernel_heap bi (knew m) = Some (Some (hs, size), k) ∧
       kinv (ranges_of hs (size / 2)) (region_up (hs + size / 2)) (Z.max 0 (region_down (hs + size) - region_up (hs + size / 2))) SL FL k ∧
       (∀ p, kcovers SL FL p → hs ≤ p < hs + size) ∧
       (∀ p, ¬ hs ≤ p < hs + size → kmem k !! p = m !! p))).
Proof.
  unfold init_kernel_heap, find_heap. fold (seen bi).
  destruct (fold_larger (seen bi)) as [[-> Hno]|(i & r & -> & Hl)]; [left; by split|right]. exists i, r. split; [done|].
  pose proof Hl as [_ [_ Hpos] _]. rewrite (proj2 (Z.ltb_lt 0 (r_size r)) Hpos). split.
  { intros ->. reflexivity. }
  set (hs := r_start r + KERNEL_VIRTUAL_BASE). set (size := r_size r) in *. intros Hstart Hal Hend Hcap.
  assert (Hp : phys_to_virt (r_start r) = Some (Ok hs)).
  { unfold phys_to_virt. destruct (Z.eqb_spec (r_start r) 0); [lia|]. rewrite cadd_some; [done|]. subst hs size. unfold KERNEL_VIRTUAL_BASE in *. lia. }
  assert (Hhs : 0 < hs) by (unfold hs, KERNEL_VIRTUAL_BASE; lia).
  assert (Hal' : (8 | hs)) by (apply Z.divide_add_r; [exact Hal|by exists 0x1FFFF00000000000]).
  destruct (proj1 (wp_run _ _ _) (kinit_spec m hs size Hhs Hal' ltac:(lia) Hend Hcap)) as ([] & k & Hk & SL & FL & Hinv & Hcov & Hmem).
  exists k, SL, FL. split.
  - apply run_bind. eapply wp_lift; [exact Hp|]. cbv beta iota. apply run_bind, wp_run. by exists tt, k.
  - split; [exact Hinv|]. split; [|exact Hmem]. intros p [Hp'|Hp']%Hcov.
    + pose proof (start_last hs (size / 2) ltac:(apply Z.div_pos; lia)). pose proof (Z.mul_div_le size 2 ltac:(lia)). lia.
    + pose proof (Z.div_pos size 2 ltac:(lia) ltac:(lia)). unfold region_up, region_down in Hp'.
      pose proof (Z.mul_div_le (hs + size) 4096 ltac:(lia)).
      pose proof (Z.div_mod (hs + size / 2 + 4095) 4096 ltac:(lia)). pose proof (Z.mod_pos_bound (hs + size / 2 + 4095) 4096 ltac:(lia)). lia.
Qed.

(** The kernel takes the first of the largest free regions among those the
    map says are valid, and the allocator it starts on it owns exactly the two
    parts of that region and touches nothing outside; without a free region the
    allocator is not started; a largest region at address zero is a panic. *)
Theorem kernel_heap_correct (bi : BootInfo) (m : memory) :
  (no_free (seen bi) ∧ init_kernel_heap bi (knew m) = Some (None, knew m)) ∨
  (∃ i r, largest_free (seen bi) i r ∧
    (r_start r = 0 → init_kernel_heap bi (knew m) = None) ∧
    (let hs := r_start r + KERNEL_VIRTUAL_BASE in let size := r_size r in
     0 < r_start r → (8 | r_start r) → hs + size + 4096 < 2 ^ 64 → region_down (hs + size) - region_up (hs + size / 2) ≤ 2 ^ 30 →
     ∃ k SL FL, init_kernel_heap bi (knew m) = Some (Some (hs, size), k) ∧
       kinv (ranges_of hs (size / 2)) (region_up (hs + size / 2)) (Z.max 0 (region_down (hs + size) - region_up (hs + size / 2))) SL FL k ∧
       (∀ p, kcovers SL FL p → hs ≤ p < hs + size) ∧
       (∀ p, ¬ hs ≤ p < hs + size → kmem k !! p = m !! p))).
Proof. apply kernel_heap_run. Qed.

(** Witness: a map whose largest free region is its second one. *)
Definition demo_map : BootInfo :=
  mkBootInfo (mkFb 0 0 0 0 0) [mkRegion 0x8000 0x1000 EFI_CONVENTIONAL_MEMORY; mkRegion 0x100000 0x40000 EFI_CONVENTIONAL_MEMORY] 2 0 0.
Lemma kernel_heap_correct_witness : ∃ k, init_kernel_heap demo_map (knew ∅) = Some (Some (0xFFFF800000100000, 0x40000), k).
Proof.
  destruct (kernel_heap_correct demo_map ∅) as [[Hno _]|(i & r & [Hi [Ht Hpos] Hmax] & _ & Hok)].
  - specialize (Hno 1%nat (mkRegion 0x100000 0x40000 EFI_CONVENTIONAL_MEMORY) eq_refl eq_refl). cbn in Hno. lia.
  - destruct i as [|[|i]]; [assert (r = mkRegion 0x8000 0x1000 EFI_CONVENTIONAL_MEMORY) as -> by (by injection Hi); destruct (Hmax 1%nat (mkRegion 0x100000 0x40000 EFI_CONVENTIONAL_MEMORY) eq_refl eq_refl) as [Hm _]; cbn in Hm; lia| |destruct i; discriminate].
    assert (r = mkRegion 0x100000 0x40000 EFI_CONVENTIONAL_MEMORY) as -> by (by injection Hi).
    destruct Hok as (k & SL & FL & Hrun & _); [cbn; lia|by exists 0x20000|reflexivity|vm_compute; discriminate|].
    exists k. exact Hrun.
Defined.



Section start.
Context {X H : Type} `{!Timer.Heap (Timer.Timer X) H Timer.expires_at}.
Context (img : main_image) (fuel : nat) (bi : BootInfo).
Context (lapic : Z) (pci : Pci.pci) (hb : option Z) (cap def pat : Z) (bases masks : Z → Z).
Implicit Types (y : system X H).






End start.

(** ** The tasks *)
Section tasks.
Context {X H : Type} `{!Timer.Heap (Timer.Timer X) H Timer.expires_at}.
Context (img : main_image) (base : nat → Z).
Implicit Types (y : system X H).
Import Context ContextProps Task Sched.





End tasks.

(** ** The whole start *)
Section whole.
Context {X H : Type} `{!Timer.Heap (Timer.Timer X) H Timer.expires_at}.
Context (img : main_image) (base : nat → Z) (fuel : nat) (bi : BootInfo) (lapic : Z) (pci : Pci.pci) (hb : option Z) (cap def pat : Z) (bases masks : Z → Z).
Implicit Types (y : system X H).


End whole.

(** ** Witness: a machine of 4 GiB with 256 KiB free and the frame buffer at
    2 GiB, whose firmware has [listed] an APIC and an HPET or has no tables *)
Section demo.
Import PagingProps.
#[local] Existing Instance Timer.list_heap_heap.
End demo.
