(* ===== verification/Apps.v ===== *)
(** * The kernel's own tasks: the counters of [kernel/src/main.rs], the debug
    overlay ([debug_overlay.rs]), what the main task does when it runs again, and
    the compositor's loop ([graphics/compositor.rs]).

    A task's loop is its start and one round, which ends in [sleep_ms]; the answer
    is the switch the sleep asked for.  They share the compositor's buffers, the
    screen, the timers and the scheduler, and the HPET's clock. *)
From S2P Require Import Prelude Font Graphics GraphicsSpec GraphicsThms Writer WriterThms GraphicsProps.
From S2P Require BootInfo TimerDevice Sched Timer.
Set Default Goal Selector "!".

(** ** [write!] and [writeln!]

    [core::fmt] passes the literal parts and the digits to [write_str] in order. *)
Fixpoint digits (base : Z) (fuel : nat) (n : Z) (acc : list Z) : list Z :=
  match fuel with
  | O => acc
  | S fuel =>
      let d := n mod base in let acc := (if d <? 10 then 48 + d else 55 + d) :: acc in
      if n <? base then acc else digits base fuel (n / base) acc
  end.
Definition dec (n : Z) : list Z := digits 10 20 n [].
Definition hex (n : Z) : list Z := digits 16 16 n [].
Definition text (s : string) : list Z := (λ c, Z.of_N (Ascii.N_of_ascii c)) <$> String.list_ascii_of_string s.
Definition nl : list Z := [10].
Definition write_fmt (args : list (list Z)) (t : TaskWriter) : option TaskWriter := '(_, t') ← for_each args write_str t; Some t'.

(** ** What the tasks share *)
Record desk (X H : Type) := mkDesk { dk_comp : compositor; dk_kernel : Timer.kernel X H; dk_hpet : TimerDevice.hpet; dk_size : Z * Z }.
Arguments mkDesk {X H}.
Arguments dk_comp {X H}.
Arguments dk_kernel {X H}.
Arguments dk_hpet {X H}.
Arguments dk_size {X H}.
Abbreviation switch := (option (Sched.ctx_ptr * Sched.ctx_ptr)).

Section apps.
Context {X H : Type} `{!Timer.Heap (Timer.Timer X) H Timer.expires_at}.
Abbreviation dsk := (desk X H).
Definition on_desk {A} (m : M compositor A) : M dsk A := zoom dk_comp (λ c d, mkDesk c (dk_kernel d) (dk_hpet d) (dk_size d)) m.
Definition on_kernel {A} (m : M (Timer.kernel X H) A) : M dsk A := zoom dk_kernel (λ k d, mkDesk (dk_comp d) k (dk_hpet d) (dk_size d)) m.
Definition on_hpet {A} (m : M TimerDevice.hpet A) : M dsk A := zoom dk_hpet (λ h d, mkDesk (dk_comp d) (dk_kernel d) h (dk_size d)) m.
Definition flushed (t : TaskWriter) : M dsk TaskWriter :=
  on_desk (λ c, '(_, g) ← flush (mkDrawing t c); Some (writer g, comp g)).

(** [register_writer] names the calling task; then [TaskWriter::new]. *)
Definition new_writer (r : Region) (color : Z) : M dsk TaskWriter :=
  _ ← on_kernel (Timer.on_sc Sched.current_task_id);
  buffer ← on_desk (register_writer r);
  on_desk (TaskWriter_new buffer color).

(** ** The counters *)
Definition task1_start : M dsk TaskWriter := new_writer (mkRegion 400 500 350 20) 0xFFFFFFFF.
Definition task1_round (counter : Z) (t : TaskWriter) : M dsk (Z * TaskWriter * switch) :=
  let t := clear 0 t in
  tick ← on_kernel Timer.current_tick;
  t ← lift (write_fmt [text "[Task1] Count:"; dec counter; text " Tick:"; dec tick] t);
  t ← flushed t;
  r ← on_kernel (Timer.sleep_ms 16);
  counter ← lift (cadd 64 counter 1);
  mret (counter, t, r).
Definition task2_start : M dsk TaskWriter := new_writer (mkRegion 400 520 300 20) 0xFFFFFFFF.
Definition task2_round (counter : Z) (t : TaskWriter) : M dsk (Z * TaskWriter * switch) :=
  let t := clear 0 t in
  t ← lift (write_fmt [text "[Task2 Med ] Count: "; dec counter] t);
  t ← flushed t;
  r ← on_kernel (Timer.sleep_ms 16);
  counter ← lift (cadd 64 counter 1);
  mret (counter, t, r).
Definition task3_start : M dsk TaskWriter := new_writer (mkRegion 400 540 300 20) 0xFFFFFFFF.
Definition task3_round (counter : Z) (t : TaskWriter) : M dsk (Z * TaskWriter * switch) :=
  let t := clear 0 t in
  t ← lift (write_fmt [text "[Task3 Low ] Count: "; dec counter] t);
  t ← flushed t;
  r ← on_kernel (Timer.sleep_ms 16);
  counter ← lift (cadd 64 counter 1);
  mret (counter, t, r).

(** ** The debug overlay *)
Definition OVERLAY_WIDTH : Z := 160.
Definition OVERLAY_HEIGHT : Z := 60.
Definition MARGIN : Z := 10.
Definition UPDATE_INTERVAL_MS : Z := 1000.
(** The writer, the time and the number of frames at the start. *)
Definition debug_overlay_start : M dsk (TaskWriter * Z * Z) :=
  size ← gets dk_size;
  x ← lift (csub size.1 OVERLAY_WIDTH); x ← lift (csub x MARGIN);
  t ← new_writer (mkRegion x MARGIN OVERLAY_WIDTH OVERLAY_HEIGHT) 0xFFFFFFFF;
  last_time_ms ← on_hpet TimerDevice.elapsed_ms;
  last_frame_count ← on_desk (gets FRAME_COUNT);
  mret (t, last_time_ms, last_frame_count).
Definition debug_overlay_round (last_time_ms last_frame_count : Z) (t : TaskWriter) : M dsk (TaskWriter * Z * Z * switch) :=
  current_time_ms ← on_hpet TimerDevice.elapsed_ms;
  current_frame_count ← on_desk (gets FRAME_COUNT);
  let time_delta_ms := Z.max 0 (current_time_ms - last_time_ms) in
  let frame_delta := Z.max 0 (current_frame_count - last_frame_count) in
  fps ← (if 0 <? time_delta_ms then p ← lift (cmul 64 frame_delta 1000); mret (p / time_delta_ms) else mret 0);
  uptime_secs ← on_hpet TimerDevice.elapsed_secs;
  let t := clear 0 t in
  t ← lift (write_fmt [text "vitrOS Debug"; nl] t);
  t ← lift (write_fmt [text "-----------"; nl] t);
  t ← lift (write_fmt [text "FPS: "; dec fps; nl] t);
  t ← lift (write_fmt [text "Uptime: "; dec uptime_secs; text "s"; nl] t);
  t ← flushed t;
  r ← on_kernel (Timer.sleep_ms UPDATE_INTERVAL_MS);
  mret (t, current_time_ms, current_frame_count, r).

(** ** The compositor's loop *)
Definition compositor_task_round : M dsk (bool * switch) :=
  blitted ← on_desk compositor_frame;
  r ← on_kernel (Timer.sleep_ms 16);
  mret (blitted, r).

(** ** The main task, after the first switch back to it

    The messages the test timers print are the callbacks [note 1] to [note 3]. *)
Context (note : Z → X).
Definition main_report (boot_info : BootInfo.BootInfo) (largest_start_phys largest_start_virt largest_size : Z) (t : TaskWriter) : option TaskWriter :=
  let f := BootInfo.framebuffer boot_info in
  t ← write_fmt [text "Framebuffer: 0x"; hex (BootInfo.fb_base f); text ", "; dec (BootInfo.fb_width f); text "x"; dec (BootInfo.fb_height f); nl] t;
  t ← write_fmt [text "Memory regions: "; dec (BootInfo.memory_map_count boot_info); nl] t;
  largest_end ← cadd 64 largest_start_virt largest_size;
  t ← write_fmt [text "Largest usable memory: phys=0x"; hex largest_start_phys; text " virt=0x"; hex largest_start_virt; text " - 0x"; hex largest_end;
    text " ("; dec (largest_size / 1024 / 1024); text " MB)"; nl] t;
  t ← write_fmt [text "Heap initialized: "; dec (largest_size / 1024); text " KB"; nl] t;
  t ← write_fmt [nl] t;
  t ← write_fmt [text "Kernel running..."; nl] t;
  write_fmt [text "System ready."; nl] t.
Definition kernel_main_resumed (boot_info : BootInfo.BootInfo) (largest_start_phys largest_start_virt largest_size : Z) : M dsk TaskWriter :=
  on_kernel (Timer.on_sc Sched.sti) ;;
  t ← new_writer (mkRegion 10 350 700 80) 0xFFFFFFFF;
  t ← lift (main_report boot_info largest_start_phys largest_start_virt largest_size t);
  t ← flushed t;
  ticks ← on_kernel (Timer.seconds_to_ticks 1); on_kernel (Timer.register_timer ticks (Timer.Other (note 1))) ;;
  ticks ← on_kernel (Timer.seconds_to_ticks 2); on_kernel (Timer.register_timer ticks (Timer.Other (note 2))) ;;
  ticks ← on_kernel (Timer.seconds_to_ticks 3); on_kernel (Timer.register_timer ticks (Timer.Other (note 3))) ;;
  mret t.
(** A round of its last loop. *)
Definition main_loop_round : M dsk switch := on_kernel (Timer.on_sc Sched.block_current_task).
End apps.

(** ** Where text goes

    Cells of 8 by 10 pixels: [cols] characters to a row of the region, a line goes
    on in the row below. *)
Abbreviation cell := (Z * Z * Z)%type.
Fixpoint line_cells (cols k y : Z) (line : list Z) : list cell :=
  match line with
  | [] => []
  | ch :: line => (8 * (k mod cols), y + 10 * (k / cols), ch) :: line_cells cols (k + 1) y line
  end.
Definition rows (cols : Z) (line : list Z) : Z := Z.max 1 ((Z.of_nat (length line) + cols - 1) / cols).
Fixpoint text_cells (cols y : Z) (lines : list (list Z)) : list cell :=
  match lines with [] => [] | line :: lines => line_cells cols 0 y line ++ text_cells cols (y + 10 * rows cols line) lines end.
Definition text_rows (cols : Z) (lines : list (list Z)) : Z := foldr (λ line n, rows cols line + n) 0 lines.
Definition cols_of (r : Region) : Z := rwidth r / 8.
(** Pixel [i] of a screen [w] wide has ink of some cell. *)
Definition has_ink (w : Z) (r : Region) (cells : list cell) (i : Z) : bool :=
  existsb (λ '(x, y, ch), bool_decide (in_rect w (rx r + x) (ry r + y) 8 8 i) && (32 <=? ch) && (ch <=? 126) && inked ch (i mod w - (rx r + x)) (i / w - (ry r + y))) cells.
(** The region shows the lines, on a black ground if it was cleared and else on
    what the screen [b0] showed there. *)
Definition shown (w : Z) (r : Region) (c : Z) (lines : list (list Z)) (cleared : bool) (b0 b : pixels) : Prop :=
  ∀ i, in_region w r i → is_Some (b !! i) →
    b !! i = if has_ink w r (text_cells (cols_of r) 0 lines) i then Some c else if cleared then Some 0 else b0 !! i.

Section layout.
Implicit Types (r : Region) (c : Z).
Definition draws (c : Z) (cells : list cell) : list DrawCommand := (λ '(x, y, ch), DrawChar x y ch c) <$> cells.

Lemma line_cells_snoc cols y line ch : ∀ k, line_cells cols k y (line ++ [ch]) =
  line_cells cols k y line ++ [(8 * ((k + Z.of_nat (length line)) mod cols), y + 10 * ((k + Z.of_nat (length line)) / cols), ch)].
Proof.
  induction line as [|c0 line IH]; intros k; cbn [app line_cells length].
  - by rewrite Z.add_0_r.
  - rewrite IH. by replace (k + 1 + Z.of_nat (length line)) with (k + Z.of_nat (S (length line))) by lia.
Qed.

(** One line: after [k] characters the next goes to cell [k]. *)
Lemma line_layout r c y cmds line : 8 ≤ rwidth r → 0 ≤ y → (∀ ch, ch ∈ line → ch ≠ 10) → y + 10 * (rows (cols_of r) line - 1) + 8 ≤ rheight r →
  let k := Z.of_nat (length line) in let st := foldl (ref_byte r c) (cmds, 0, y) line in
  ref_wrap r st = (cmds ++ draws c (line_cells (cols_of r) 0 y line), 8 * (k mod cols_of r), y + 10 * (k / cols_of r)) ∧
  st.1.1 = cmds ++ draws c (line_cells (cols_of r) 0 y line) ∧ st.2 = y + 10 * (rows (cols_of r) line - 1).
Proof.
  intros Hr Hy. set (cols := cols_of r). assert (Hcols : 1 ≤ cols ∧ 8 * cols ≤ rwidth r < 8 * cols + 8) by (unfold cols, cols_of; clear -Hr; dlia).
  induction line as [|ch line IH] using rev_ind; intros Hch Hfit; cbv zeta in *.
  { cbn. rewrite app_nil_r. rewrite (proj2 (Z.ltb_ge _ _)) by lia. rewrite Z.mod_0_l, Z.div_0_l by lia. unfold rows. cbn [length].
    rewrite Z.add_0_l, Z.div_small by lia. rewrite Z.mul_0_r, Z.add_0_r. split; [done|]. split; [done|lia]. }
  set (n := Z.of_nat (length line)) in *. rewrite length_app in *. cbn [length] in *. rewrite Nat2Z.inj_add in *. change (Z.of_nat 1) with 1 in *. fold n in Hfit |- *.
  assert (Hrows : rows cols (line ++ [ch]) = n / cols + 1).
  { unfold rows. rewrite length_app. cbn [length]. rewrite Nat2Z.inj_add. fold n. change (Z.of_nat 1) with 1.
    replace (n + 1 + cols - 1) with (n + 1 * cols) by lia. rewrite Z.div_add by lia. pose proof (Z.div_pos n cols). lia. }
  assert (Hrows' : rows cols line ≤ rows cols (line ++ [ch])).
  { rewrite Hrows. unfold rows. fold n. pose proof (Z.div_pos n cols). assert ((n + cols - 1) / cols ≤ (n + 1 * cols) / cols) by (apply Z.div_le_mono; lia).
    rewrite Z.div_add in * by lia. lia. }
  destruct IH as (Hw & Hc & Hy'); [intros; apply Hch, elem_of_app; by left|lia|].
  rewrite foldl_app. cbn [foldl]. set (st := foldl _ _ line) in *. unfold ref_byte at 1 2 3. rewrite (proj2 (Z.eqb_neq ch 10)) by (apply Hch, elem_of_app; right; by left).
  fold n in Hw. rewrite Hw. unfold ref_scroll, ref_place. rewrite Hrows in *. rewrite (proj2 (Z.ltb_ge _ _)) by lia.
  rewrite line_cells_snoc. fold n. rewrite Z.add_0_l. unfold draws. rewrite fmap_app, app_assoc. cbn [fmap list_fmap]. fold (draws c (line_cells cols 0 y line)).
  split; [|split; [done|cbn [snd]; lia]]. unfold ref_wrap.
  pose proof (Z.div_mod n cols ltac:(lia)). pose proof (Z.mod_pos_bound n cols ltac:(lia)).
  destruct (Z.eq_dec (n mod cols + 1) cols) as [He|Hne].
  - rewrite (proj2 (Z.ltb_lt _ _)) by lia. assert ((n + 1) / cols = n / cols + 1 ∧ (n + 1) mod cols = 0) as [-> ->].
    { split; [symmetry; apply Z.div_unique with (r := 0)|symmetry; apply Z.mod_unique with (q := n / cols + 1)]; nia. }
    f_equal; (lia || (f_equal; lia)).
  - rewrite (proj2 (Z.ltb_ge _ _)) by lia. assert ((n + 1) / cols = n / cols ∧ (n + 1) mod cols = n mod cols + 1) as [-> ->].
    { split; [symmetry; apply Z.div_unique with (r := n mod cols + 1)|symmetry; apply Z.mod_unique with (q := n / cols)]; nia. }
    f_equal; (lia || (f_equal; lia)).
Qed.

(** Lines that each end in a newline. *)
Definition joined (lines : list (list Z)) : list Z := mjoin ((λ line, line ++ [10]) <$> lines).
Lemma rows_pos cols line : 1 ≤ rows cols line.
Proof. unfold rows. lia. Qed.
Lemma text_rows_pos cols lines : 0 ≤ text_rows cols lines.
Proof. induction lines as [|line lines IH]; cbn; [lia|]. fold (text_rows cols lines). pose proof (rows_pos cols line). lia. Qed.
Lemma text_layout r c lines : ∀ cmds y, 8 ≤ rwidth r → 0 ≤ y → (∀ line ch, line ∈ lines → ch ∈ line → ch ≠ 10) → y + 10 * text_rows (cols_of r) lines - 2 ≤ rheight r →
  foldl (ref_byte r c) (cmds, 0, y) (joined lines) = (cmds ++ draws c (text_cells (cols_of r) y lines), 0, y + 10 * text_rows (cols_of r) lines).
Proof.
  induction lines as [|line lines IH]; intros cmds y Hr Hy Hch Hfit; cbn [joined text_cells text_rows foldr fmap list_fmap mjoin list_join] in *.
  { unfold joined. cbn. rewrite app_nil_r. f_equal; lia. }
  fold (text_rows (cols_of r) lines) in *. pose proof (text_rows_pos (cols_of r) lines). unfold joined. cbn [fmap list_fmap mjoin list_join].
  rewrite foldl_app, foldl_app. destruct (line_layout r c y cmds line Hr Hy) as (_ & Hc & Hyl); [intros; by eapply Hch; [left|]|lia|].
  set (st := foldl _ _ line) in *. destruct st as [[cmds1 x1] y1]. cbn [fst snd] in Hc, Hyl. subst cmds1 y1. cbn [foldl]. unfold ref_byte at 2. cbn [Z.eqb Pos.eqb].
  replace (y + 10 * (rows (cols_of r) line - 1) + 10) with (y + 10 * rows (cols_of r) line) by lia. pose proof (rows_pos (cols_of r) line).
  change (mjoin _) with (joined lines). rewrite IH; [|done|lia|intros; by eapply Hch; [right|]|lia].
  unfold draws. rewrite fmap_app, app_assoc. f_equal. lia.
Qed.

(** Cells lie in the region. *)
Definition cell_inside r (e : cell) : Prop := 0 ≤ e.1.1 ∧ 0 ≤ e.1.2 ∧ e.1.1 + 8 ≤ rwidth r ∧ e.1.2 + 8 ≤ rheight r.
Lemma line_cells_inside r line : ∀ k y, 8 ≤ rwidth r → 0 ≤ k → 0 ≤ y → y + 10 * ((k + Z.of_nat (length line) - 1) / cols_of r) + 8 ≤ rheight r →
  ∀ e, e ∈ line_cells (cols_of r) k y line → cell_inside r e.
Proof.
  induction line as [|ch line IH]; intros k y Hr Hk Hy Hfit e; cbn [line_cells length] in *; [by intros ?%elem_of_nil|].
  assert (Hcols : 1 ≤ cols_of r ∧ 8 * cols_of r ≤ rwidth r) by (unfold cols_of; clear -Hr; dlia).
  rewrite elem_of_cons. intros [->|He].
  - unfold cell_inside. cbn [fst snd]. pose proof (Z.mod_pos_bound k (cols_of r) ltac:(lia)). pose proof (Z.div_pos k (cols_of r) Hk ltac:(lia)).
    assert (k / cols_of r ≤ (k + Z.of_nat (S (length line)) - 1) / cols_of r) by (apply Z.div_le_mono; lia). lia.
  - apply (IH (k + 1) y); [done|lia|done| |done]. by replace (k + 1 + Z.of_nat (length line)) with (k + Z.of_nat (S (length line))) by lia.
Qed.
Lemma rows_last cols line : 1 ≤ cols → (0 + Z.of_nat (length line) - 1) / cols ≤ rows cols line - 1.
Proof.
  intros Hc. unfold rows. replace (Z.of_nat (length line) + cols - 1) with (Z.of_nat (length line) - 1 + 1 * cols) by lia. rewrite Z.div_add by lia. rewrite Z.add_0_l. lia.
Qed.
Lemma text_cells_inside r lines : ∀ y, 8 ≤ rwidth r → 0 ≤ y → y + 10 * text_rows (cols_of r) lines - 2 ≤ rheight r →
  ∀ e, e ∈ text_cells (cols_of r) y lines → cell_inside r e.
Proof.
  induction lines as [|line lines IH]; intros y Hr Hy Hfit e; cbn [text_cells text_rows foldr] in *; [by intros ?%elem_of_nil|].
  fold (text_rows (cols_of r) lines) in *. pose proof (text_rows_pos (cols_of r) lines). pose proof (rows_pos (cols_of r) line).
  assert (Hcols : 1 ≤ cols_of r) by (unfold cols_of; clear -Hr; dlia). pose proof (rows_last (cols_of r) line Hcols).
  rewrite elem_of_app. intros [He|He]; [eapply (line_cells_inside r line 0 y); [done|lia|done|lia|done]|apply (IH (y + 10 * rows (cols_of r) line)); [done|lia|lia|exact He]].
Qed.

(** What the cells paint. *)
Lemma cells_painted w h r c cells b : full w h b → 0 < w < 2 ^ 32 → 0 ≤ h < 2 ^ 32 → region_on_screen w h r → (∀ e, e ∈ cells → cell_inside r e) →
  wp (for_each (draws c cells) (draw_direct w r)) (λ _ b', painted (λ i, has_ink w r cells i = true) c b b') b.
Proof.
  intros Hf Hw Hh Hr Hin. pose proof Hr as ((?&?&?&?&?&?) & ? & ?). assert (w * h < 2 ^ 64) by nia.
  revert b Hf. induction cells as [|[[x y] ch] cells IH]; intros b Hf; cbn [draws fmap list_fmap for_each].
  { apply wp_ret. intros i. by rewrite decide_False by (by intros []). }
  destruct (Hin (x, y, ch)) as (?&?&?&?); [by left|]. cbn [fst snd] in *. cbn [draw_direct]. wp_step.
  eapply wp_mono; [apply (draw_char_spec w h); (done || lia)|]. intros [] b1 Hp1.
  eapply wp_mono; [apply IH; [intros; apply Hin; by right|eapply only_full; [by eapply painted_only|done]]|]. intros [] b2 Hp2.
  eapply painted_trans; [exact Hp1|exact Hp2|]. intros i _. cbn [has_ink existsb]. rewrite orb_true_iff. fold (has_ink w r cells i).
  rewrite !andb_true_iff, bool_decide_eq_true, !Z.leb_le. unfold in_glyph. tauto.
Qed.
Definition ground (cleared : bool) : list DrawCommand := if cleared then [Clear 0] else [].
Lemma ground_drawn w h r (cleared : bool) b : full w h b → 0 < w < 2 ^ 32 → 0 ≤ h < 2 ^ 32 → region_on_screen w h r →
  wp (for_each (ground cleared) (draw_direct w r)) (λ _ b', full w h b' ∧ ∀ i, in_region w r i → is_Some (b !! i) → b' !! i = if cleared then Some 0 else b !! i) b.
Proof.
  intros Hf Hw Hh ((?&?&?&?&?&?) & ? & ?). destruct cleared; cbn [ground for_each draw_direct]; [|by apply wp_ret].
  wp_step. eapply wp_mono; [apply (draw_rect_spec w h); (done || nia)|]. intros [] b1 Hp1. apply wp_ret.
  split; [eapply only_full; [by eapply painted_only|done]|]. intros i Hi Hs. rewrite (Hp1 i). by rewrite decide_True.
Qed.
Lemma text_drawn w h r c lines cleared b : full w h b → 0 < w < 2 ^ 32 → 0 ≤ h < 2 ^ 32 → region_on_screen w h r → 8 ≤ rwidth r →
  10 * text_rows (cols_of r) lines - 2 ≤ rheight r →
  wp (for_each (ground cleared ++ draws c (text_cells (cols_of r) 0 lines)) (draw_direct w r)) (λ _ b', full w h b' ∧ shown w r c lines cleared b b') b.
Proof.
  intros Hf Hw Hh Hr Hr8 Hfit. eapply wp_eq; [apply for_each_app|]. wp_step. eapply wp_mono; [by apply (ground_drawn w h)|]. intros [] b1 [Hf1 Hg].
  eapply wp_mono; [apply (cells_painted w h); [done|done|done|done|apply text_cells_inside; lia]|]. intros [] b2 Hp2.
  pose proof (only_full _ _ _ _ _ (painted_only _ _ _ _ Hp2) Hf1) as Hf2. split; [done|]. intros i Hi Hs.
  assert (Hs1 : is_Some (b1 !! i)) by (apply Hf1, Hf2, Hs). assert (Hs0 : is_Some (b !! i)) by (apply Hf, Hf2, Hs).
  rewrite (Hp2 i). destruct (has_ink w r _ i) eqn:Hink; [by rewrite decide_True|]. rewrite decide_False by (by intros []). by apply Hg.
Qed.
End layout.

(** ** A round of a task and the next frame *)
Section round.
Implicit Types (c : compositor) (t : TaskWriter) (r : Region).

(** Digits are characters. *)
Lemma digits_chars base fuel : 2 ≤ base ≤ 36 → ∀ n acc, 0 ≤ n → (∀ ch, ch ∈ acc → 48 ≤ ch < 128) → ∀ ch, ch ∈ digits base fuel n acc → 48 ≤ ch < 128.
Proof.
  intros Hb. induction fuel as [|fuel IH]; intros n acc Hn Hacc ch; cbn [digits]; [apply Hacc|].
  pose proof (Z.mod_pos_bound n base ltac:(lia)). pose proof (Z.div_pos n base Hn ltac:(lia)). set (d := n mod base) in *.
  assert (Hacc' : ∀ x, x ∈ (if d <? 10 then 48 + d else 55 + d) :: acc → 48 ≤ x < 128).
  { intros x [->|Hx]%elem_of_cons; [destruct (Z.ltb_spec d 10); lia|by apply Hacc]. }
  destruct (n <? base); [by apply Hacc'|]. by apply IH.
Qed.
Lemma digits_length base fuel : ∀ n acc, (length (digits base fuel n acc) ≤ fuel + length acc)%nat.
Proof.
  induction fuel as [|fuel IH]; intros n acc; cbn [digits]; [lia|]. destruct (n <? base); [cbn; lia|].
  specialize (IH (n / base) ((if n mod base <? 10 then 48 + n mod base else 55 + n mod base) :: acc)). cbn [length] in IH. lia.
Qed.
(** Reading the digits back. *)
Definition value (base : Z) (ds : list Z) : Z := foldl (λ v ch, v * base + (if ch <? 65 then ch - 48 else ch - 55)) 0 ds.
Lemma digits_value base fuel : 2 ≤ base ≤ 36 → ∀ n acc, 0 ≤ n < base ^ Z.of_nat fuel →
  foldl (λ v ch, v * base + (if ch <? 65 then ch - 48 else ch - 55)) 0 (digits base fuel n acc) =
  foldl (λ v ch, v * base + (if ch <? 65 then ch - 48 else ch - 55)) n acc.
Proof.
  intros Hb. induction fuel as [|fuel IH]; intros n acc Hn; cbn [digits]; [change (base ^ Z.of_nat 0) with 1 in Hn; by replace n with 0 by lia|].
  pose proof (Z.div_mod n base ltac:(lia)). pose proof (Z.mod_pos_bound n base ltac:(lia)). set (d := n mod base) in *.
  assert (Hd : (if (if d <? 10 then 48 + d else 55 + d) <? 65 then (if d <? 10 then 48 + d else 55 + d) - 48 else (if d <? 10 then 48 + d else 55 + d) - 55) = d).
  { destruct (Z.ltb_spec d 10); [rewrite (proj2 (Z.ltb_lt _ _)) by lia|rewrite (proj2 (Z.ltb_ge _ _)) by lia]; lia. }
  destruct (Z.ltb_spec n base).
  - cbn [foldl]. rewrite Hd. f_equal. rewrite Z.div_small in * by lia. lia.
  - rewrite IH; [cbn [foldl]; rewrite Hd; f_equal; lia|]. rewrite Nat2Z.inj_succ, Z.pow_succ_r in Hn by lia.
    split; [apply Z.div_pos; lia|]. apply Z.div_lt_upper_bound; lia.
Qed.

(** A writer between two rounds, its buffer drawn; every other buffer has its own
    part of the screen. *)
Record resting c t : Prop := {
  rs_ready : frame_ready c;
  rs_writer : writer_ok t;
  rs_idle : local_commands t = [] ∧ pending_text t = [];
  rs_buffer : ∃ d, buffers c !! wbuffer t = Some (false, mkWriter [] d (region t));
  rs_inside : ∀ l buf, (l, buf) ∈ buffers c → region_on_screen (swidth (shadow (scr c))) (sheight (shadow (scr c))) (wregion buf) ∧
    ∀ cmd, cmd ∈ commands buf → cmd_inside (wregion buf) cmd;
  rs_apart : ∀ k l buf, buffers c !! k = Some (l, buf) → k ≠ wbuffer t →
    ∀ i, in_region (swidth (shadow (scr c))) (wregion buf) i → ¬ in_region (swidth (shadow (scr c))) (region t) i;
}.

(** Something is to be drawn. *)
Definition drawn t : Prop := local_commands t ≠ [] ∨ pending_text t ≠ [].
Lemma commit_drawn t : drawn t → local_commands (commit_pending_text t) ≠ [].
Proof.
  unfold drawn, commit_pending_text. destruct (pending_text t) as [|ch s]; [by intros [?|?]|]. intros _. cbn. by destruct (local_commands t).
Qed.
Lemma newline_drawn : keeps drawn (modify commit_pending_text ;; t ← gets id; y ← lift (cadd 32 (cursor_y t) 10); modify (set_cursor 0 y)).
Proof.
  apply keeps_bind; [apply keeps_modify; intros t Ht; left; by apply commit_drawn|intros _]. apply keeps_bind; [apply keeps_get|intros t].
  apply keeps_bind; [apply keeps_lift|intros y]. by apply keeps_modify.
Qed.
Lemma char_bytes_ne ch : char_bytes ch ≠ [].
Proof. unfold char_bytes. by destruct (ch <? 128). Qed.
(** Any character but a newline leaves something to draw, and so does a newline
    after something. *)
Lemma write_byte_drawn ch t t' : write_byte ch t = Some (tt, t') → drawn t ∨ ch ≠ 10 → drawn t'.
Proof.
  unfold write_byte. intros Hrun Hd. destruct (Z.eqb_spec ch 10) as [->|Hne].
  { destruct Hd as [Hd|]; [|done]. by eapply newline_drawn. }
  right. clear Hd. revert Hrun.
  match goal with |- ?m t = _ → _ => enough (He : ends (λ s, pending_text s ≠ []) m) by (intros Hrun; exact (He _ _ _ Hrun)) end. do 5 (apply ends_bind; intros ?).
  do 2 (apply ends_bind; intros _). apply ends_then.
  - intros s. cbn. intros [_ ?]%app_eq_nil. by eapply char_bytes_ne.
  - apply keeps_bind; [apply keeps_get|intros t1]. apply keeps_bind; [apply keeps_lift|intros x]. by apply keeps_modify.
Qed.
Lemma write_str_drawn str t t' : write_str str t = Some (tt, t') → drawn t ∨ (∃ ch rest, str = ch :: rest ∧ ch ≠ 10) → drawn t'.
Proof.
  unfold write_str. assert (Hkeep : ∀ l s s', for_each l write_byte s = Some (tt, s') → drawn s → drawn s').
  { intros l s s'. apply for_each_keeps. intros ch s1 s2 Hr Hd. eapply write_byte_drawn; [exact Hr|by left]. }
  intros Hrun [Hd|(ch & rest & -> & Hne)]; [by eapply Hkeep|]. cbn [for_each] in Hrun. unfold mbind, M_bind in Hrun.
  destruct (write_byte ch t) as [[[] t1]|] eqn:Hb; [|done]. eapply Hkeep; [exact Hrun|]. eapply write_byte_drawn; [exact Hb|by right].
Qed.

(** [write!] with several parts is one [write_str] of all of them. *)
Lemma write_parts args : ∀ t, for_each args write_str t = write_str (mjoin args) t.
Proof.
  induction args as [|a args IH]; intros t; cbn [for_each mjoin list_join]; [done|]. unfold write_str at 3. rewrite for_each_app.
  unfold mbind, M_bind. fold (write_str a t). destruct (write_str a t) as [[[] t1]|]; [apply IH|done].
Qed.
Lemma write_fmt_app a b t : write_fmt (a ++ b) t = (t1 ← write_fmt a t; write_fmt b t1).
Proof.
  unfold write_fmt. rewrite for_each_app. unfold mbind at 1 2, M_bind, option_bind. destruct (for_each a write_str t) as [[[] t1]|]; [|done]. done.
Qed.

(** The text a task wrote is in its buffer after the flush. *)
Definition begun (cleared : bool) t : TaskWriter := if cleared then clear 0 t else t.
Lemma write_and_flush c t cleared args lines : resting c t → cursor_x t = 0 ∧ cursor_y t = 0 ∨ cleared = true → (∀ ch, ch ∈ mjoin args → 0 ≤ ch < 128) →
  10 * Z.of_nat (length (mjoin args)) + 10 < 2 ^ 32 → (∃ ch rest, mjoin args = ch :: rest ∧ ch ≠ 10) →
  (foldl (ref_byte (region t) (color t)) (ground cleared, 0, 0) (mjoin args)).1.1 = ground cleared ++ draws (color t) (text_cells (cols_of (region t)) 0 lines) →
  ∃ t1 t2 cmds, write_fmt args (begun cleared t) = Some t1 ∧
    flush (mkDrawing t1 c) = Some (tt, mkDrawing t2 (mkComp (<[wbuffer t := (false, mkWriter cmds true (region t))]> (buffers c)) (scr c) (FRAME_COUNT c))) ∧
    writer_ok t2 ∧ local_commands t2 = [] ∧ pending_text t2 = [] ∧ region t2 = region t ∧ wbuffer t2 = wbuffer t ∧ color t2 = color t ∧
    (∀ cmd, cmd ∈ cmds → cmd_inside (region t) cmd) ∧ same_drawing (region t) cmds (ground cleared ++ draws (color t) (text_cells (cols_of (region t)) 0 lines)).
Proof.
  intros R Hcur Hch Hlen Hfirst Hlay. destruct (rs_idle _ _ R) as [Hl Hp], (rs_buffer _ _ R) as [d Hb]. set (t0 := begun cleared t).
  assert (Hok : writer_ok t0) by (unfold t0; destruct cleared; [apply clear_ok|]; apply (rs_writer _ _ R)).
  assert (H0 : region t0 = region t ∧ wbuffer t0 = wbuffer t ∧ color t0 = color t ∧ cursor_y t0 = 0 ∧ shows t0 (ground cleared, 0, 0)).
  { unfold t0, begun, ground, shows, committed, clear, commit_pending_text. rewrite Hp. destruct cleared.
    - unfold push_local, set_cursor. cbn. by rewrite Hl, Hp.
    - destruct Hcur as [[Hx Hy]|]; [|done]. cbn. rewrite Hp, Hl. by split_and!. }
  destruct H0 as (Hr0 & Hb0 & Hc0 & Hy0 & Hs0). clearbody t0.
  assert (Hwp : wp (write_str (mjoin args)) (λ _ t1, writer_ok t1 ∧ region t1 = region t ∧ wbuffer t1 = wbuffer t ∧ color t1 = color t ∧
    same_drawing (region t) (committed t1) (ground cleared ++ draws (color t) (text_cells (cols_of (region t)) 0 lines))) t0).
  { apply (write_str_spec _ _ (ground cleared, 0, 0)); [exact Hok|exact Hch|lia|exact Hs0|].
    intros t1 Hok1 Hr1 Hb1 Hc1 Hs1. rewrite Hr0, Hc0 in *. rewrite Hb0 in *.
    split; [done|]. split; [done|]. split; [done|]. split; [done|]. revert Hs1 Hlay. destruct (foldl _ _ (mjoin args)) as [[cmds x] y]. cbn [fst]. unfold shows.
    intros (Hs & _) ->. by rewrite Hr1 in Hs. }
  apply wp_run in Hwp as ([] & t1 & Hrun & Hok1 & Hr1 & Hb1 & Hc1 & Hs1).
  destruct (commit_ok t1 Hok1) as (Hok2 & Hp2 & Hr2 & _ & _ & Hb2 & Hc2). pose proof (commit_drawn _ (write_str_drawn _ _ _ Hrun (or_intror Hfirst))) as Hne2.
  set (t2 := commit_pending_text t1) in *. exists t1, (set_local [] t2), (local_commands t2). split.
  { unfold write_fmt. rewrite write_parts, Hrun. done. }
  split.
  { unfold flush. apply run_bind, wp_modify. cbn [writer comp]. fold t2. apply run_bind, wp_gets. unfold id. cbn [writer comp].
    destruct (local_commands t2) as [|c0 cs] eqn:Hlc; [done|]. rewrite <-Hlc. apply run_bind. eapply wp_lift; [rewrite Hb2, Hb1; exact Hb|].
    apply run_bind, wp_assert; [done|]. unfold modify. cbn [writer comp]. unfold extend_commands. cbn [commands dirty wregion app length].
    rewrite Hb2, Hb1, Hlc. done. }
  split; [destruct Hok2 as [W1 W2 W3 _]; split; [exact W1|exact W2|exact W3|by intros cmd Hc%elem_of_nil]|]. cbn [set_local local_commands pending_text region wbuffer color].
  split; [done|]. split; [done|]. split; [congruence|]. split; [congruence|]. split; [congruence|].
  split; [|exact Hs1]. intros cmd Hc. rewrite <-Hr1, <-Hr2. by apply (wo_local _ Hok2).
Qed.

(** The next frame draws it, whatever the other buffers hold. *)
Lemma frame_shows c t cmds col cleared lines : resting c t → (∀ cmd, cmd ∈ cmds → cmd_inside (region t) cmd) →
  same_drawing (region t) cmds (ground cleared ++ draws col (text_cells (cols_of (region t)) 0 lines)) → 10 * text_rows (cols_of (region t)) lines - 2 ≤ rheight (region t) →
  let c1 := mkComp (<[wbuffer t := (false, mkWriter cmds true (region t))]> (buffers c)) (scr c) (FRAME_COUNT c) in
  ∃ bl c2, compositor_frame c1 = Some (bl, c2) ∧ shown (swidth (shadow (scr c))) (region t) col lines cleared (hw (scr c)) (hw (scr c2)) ∧ FRAME_COUNT c2 = wrap 64 (FRAME_COUNT c + 1) ∧
    ∀ t2, writer_ok t2 → local_commands t2 = [] → pending_text t2 = [] → region t2 = region t → wbuffer t2 = wbuffer t → resting c2 t2.
Proof.
  intros R Hcmds Hsame Hfit c1. destruct R as [Hready Ht _ [d Hb] Hin Hapart]. pose proof Hready as [[Hf Hw Hh Hd] Hclean Hhw Hall].
  set (w := swidth (shadow (scr c))) in *. set (h := sheight (shadow (scr c))) in *. set (r := region t) in *. set (k := wbuffer t) in *.
  destruct (Hin false (mkWriter [] d r)) as [Hr _]; [by eapply list_elem_of_lookup_2|]. cbn [wregion] in Hr. destruct (wo_region _ Ht) as (_ & Hr8 & _). fold r in Hr8.
  assert (Hin1 : ∀ l buf, (l, buf) ∈ buffers c1 → region_on_screen w h (wregion buf) ∧ ∀ cmd, cmd ∈ commands buf → cmd_inside (wregion buf) cmd).
  { intros l buf Hel. apply list_elem_of_lookup_1 in Hel as [j Hj]. unfold c1 in Hj. cbn [buffers] in Hj.
    apply list_lookup_insert_Some in Hj as [(<- & [= <- <-] & _)|[_ Hj]]; [by split|]. apply (Hin l). by eapply list_elem_of_lookup_2. }
  assert (Hready1 : frame_ready c1).
  { split; [by split|done|done|]. intros l buf cmd Hel Hc. destruct (Hin1 l buf Hel) as [? Hi]. eapply cmd_inside_ok; [done|by apply Hi]. }
  destruct (frame_effect c1 Hready1) as (bl & c2 & Hrun & Hready2 & Hspec & Hbs & Hcount & Hw2 & Hh2 & _).
  change (scr c1) with (scr c) in *. fold w in Hspec, Hw2. fold h in Hh2. exists bl, c2. split; [done|].
  assert (Hk : (k < length (buffers c))%nat) by (by eapply lookup_lt_Some).
  assert (Hsplit : buffers c1 = take k (buffers c) ++ (false, mkWriter cmds true r) :: drop (S k) (buffers c)) by (apply insert_take_drop; done).
  split.
  - assert (Hwp : wp (frame_spec w (buffers c1)) (λ _ b, shown w r col lines cleared (hw (scr c)) b) (hw (scr c))).
    { rewrite Hsplit. unfold frame_spec. eapply wp_eq; [apply for_each_app|]. wp_step. cbn [for_each]. set (P := λ i, ¬ in_region w r i).
      assert (Hother : ∀ j l buf, buffers c !! j = Some (l, buf) → j ≠ k → region_on_screen w h (wregion buf) ∧ (∀ cmd, cmd ∈ commands buf → cmd_inside (wregion buf) cmd) ∧ ∀ i, in_region w (wregion buf) i → P i).
      { intros j l buf Hj Hne. destruct (Hin l buf) as [? ?]; [by eapply list_elem_of_lookup_2|]. split; [done|]. split; [done|]. intros i Hi. by eapply Hapart. }
      eapply wp_mono; [apply (frame_inside P w h); [by rewrite Hhw|done|done|]|].
      { intros l buf [j [Hj Hlt]%lookup_take_Some]%list_elem_of_lookup_1. eapply Hother; [done|lia]. }
      intros [] b1 Ho1. assert (Hf1 : full w h b1) by (eapply only_full; [exact Ho1|by rewrite Hhw]). wp_step. unfold buffer_spec at 1. cbn [fst snd negb andb dirty commands wregion].
      eapply wp_eq; [apply Hsame|]. eapply wp_mono; [apply (text_drawn w h r col lines cleared); (done || lia)|]. intros [] b2 [Hf2 Hsh].
      eapply wp_mono; [apply (frame_inside P w h); [done|done|done|]|].
      { intros l buf [j Hj]%list_elem_of_lookup_1. rewrite lookup_drop in Hj. eapply Hother; [done|lia]. }
      intros [] b3 [Hs3 Ho3] i Hi Hs. rewrite Ho3 by (unfold P; tauto). rewrite Hsh by (done || by apply Hs3).
      destruct Ho1 as [_ Ho1]. rewrite (Ho1 i); [done|]. unfold P. tauto. }
    exact (wp_elim _ _ _ _ _ Hwp Hspec).
  - split; [exact Hcount|]. intros t2 Ht2 Hl2 Hp2 Hr2 Hb2.
    assert (Hback : ∀ l buf, (l, buf) ∈ buffers c2 → ∃ buf0, (l, buf0) ∈ buffers c1 ∧ wregion buf = wregion buf0 ∧ ∀ cmd, cmd ∈ commands buf → cmd ∈ commands buf0).
    { intros l buf. rewrite Hbs. intros ([l0 buf0] & He & Hel)%list_elem_of_fmap. unfold after_frame in He. cbn [fst snd] in He.
      exists buf0. destruct (negb l0 && dirty buf0); injection He as -> ->; (split; [done|]); (split; [done|]); [|done]. by intros cmd Hc%elem_of_nil. }
    split; rewrite ?Hw2, ?Hh2; [done|done|done| | |].
    + exists false. rewrite Hb2, Hbs, list_lookup_fmap. unfold c1. cbn [buffers]. rewrite list_lookup_insert_eq by done. cbn. by rewrite Hr2.
    + intros l buf Hel. destruct (Hback l buf Hel) as (buf0 & Hel0 & -> & Hc). destruct (Hin1 l buf0 Hel0) as [? Hi]. split; [done|]. auto.
    + rewrite Hr2, Hb2. fold r k w. intros j l buf Hj Hne i Hi. rewrite Hbs, list_lookup_fmap in Hj.
      unfold c1 in Hj. cbn [buffers] in Hj. rewrite list_lookup_insert_ne in Hj by done. destruct (buffers c !! j) as [[l0 buf0]|] eqn:Hj0; [|done]. cbn in Hj.
      apply (Hapart j l0 buf0); [done|done|]. unfold after_frame in Hj. cbn [fst snd] in Hj. destruct (negb l0 && dirty buf0); injection Hj as -> <-; exact Hi.
Qed.

(** Characters other than the newline. *)
Definition plain (l : list Z) : bool := forallb (λ ch, (0 <=? ch) && (ch <? 128) && negb (ch =? 10)) l.
Lemma plain_char l ch : plain l = true → ch ∈ l → (0 ≤ ch < 128) ∧ ch ≠ 10.
Proof.
  unfold plain. rewrite forallb_forall. intros Hl Hin. apply list_elem_of_In in Hin. specialize (Hl ch Hin). rewrite !andb_true_iff, negb_true_iff in Hl.
  destruct Hl as [[?%Z.leb_le ?%Z.ltb_lt] ?%Z.eqb_neq]. done.
Qed.
Lemma plain_app l1 l2 : plain (l1 ++ l2) = plain l1 && plain l2.
Proof. apply forallb_app. Qed.
Lemma plain_digits base fuel n : 2 ≤ base ≤ 36 → 0 ≤ n → plain (digits base fuel n []) = true.
Proof.
  intros Hb Hn. unfold plain. apply forallb_forall. intros ch Hch%list_elem_of_In.
  apply digits_chars in Hch; [|done|done|by intros x Hx%elem_of_nil]. rewrite !andb_true_iff, negb_true_iff, Z.leb_le, Z.ltb_lt, Z.eqb_neq. lia.
Qed.
Lemma dec_length n : (length (dec n) ≤ 20)%nat.
Proof. pose proof (digits_length 10 20 n []) as H. exact H. Qed.
Lemma plain_dec n : 0 ≤ n → plain (dec n) = true.
Proof. intros. apply plain_digits; lia. Qed.
Lemma rows_most cols line q : 1 ≤ cols → 1 ≤ q → Z.of_nat (length line) ≤ q * cols → rows cols line ≤ q.
Proof.
  intros Hc Hq Hl. unfold rows. assert ((Z.of_nat (length line) + cols - 1) / cols < q + 1) by (apply Z.div_lt_upper_bound; lia). lia.
Qed.
(** A single line without a newline. *)
Lemma one_line r (c : Z) cmds line : 8 ≤ rwidth r → plain line = true → 10 * (rows (cols_of r) line - 1) + 8 ≤ rheight r →
  (foldl (ref_byte r c) (cmds, 0, 0) line).1.1 = cmds ++ draws c (text_cells (cols_of r) 0 [line]).
Proof.
  intros Hr Hp Hfit. destruct (line_layout r c 0 cmds line Hr ltac:(lia)) as (_ & -> & _); [intros ch Hch; by eapply plain_char|lia|].
  cbn [text_cells]. by rewrite app_nil_r.
Qed.
End round.

Section programs.
Context {X H : Type} `{!Timer.Heap (Timer.Timer X) H Timer.expires_at}.
Implicit Types (d : desk X H) (t : TaskWriter).

(** A round that ends in a sleep of [ms], after which the next frame shows the
    lines, and the writer rests again. *)
Definition round_shows {A} (m : M (desk X H) A) (ans : TaskWriter → switch → A) (ms : Z) (hp : TimerDevice.hpet) (lines : list (list Z)) d t : Prop :=
  ∃ c1 t2 bl c2, m d = match Timer.sleep_ms ms (dk_kernel d) with Some (sw, k') => Some (ans t2 sw, mkDesk c1 k' hp (dk_size d)) | None => None end ∧
    compositor_frame c1 = Some (bl, c2) ∧ shown (swidth (shadow (scr (dk_comp d)))) (region t) (color t) lines true (hw (scr (dk_comp d))) (hw (scr c2)) ∧
    FRAME_COUNT c2 = wrap 64 (FRAME_COUNT (dk_comp d) + 1) ∧
    resting c2 t2 ∧ region t2 = region t ∧ color t2 = color t ∧ wbuffer t2 = wbuffer t.

Lemma round_tail {A} (m : M (desk X H) A) (fin : TaskWriter → switch → M (desk X H) A) (ans : TaskWriter → switch → A) args lines ms hp d t :
  resting (dk_comp d) t → (∀ ch, ch ∈ mjoin args → 0 ≤ ch < 128) → 10 * Z.of_nat (length (mjoin args)) + 10 < 2 ^ 32 →
  (∃ ch rest, mjoin args = ch :: rest ∧ ch ≠ 10) →
  (foldl (ref_byte (region t) (color t)) (ground true, 0, 0) (mjoin args)).1.1 = ground true ++ draws (color t) (text_cells (cols_of (region t)) 0 lines) →
  10 * text_rows (cols_of (region t)) lines - 2 ≤ rheight (region t) → (∀ t2 sw s, fin t2 sw s = Some (ans t2 sw, s)) →
  m d = (t1 ← lift (write_fmt args (clear 0 t)); t2 ← flushed t1; r ← on_kernel (Timer.sleep_ms ms); fin t2 r) (mkDesk (dk_comp d) (dk_kernel d) hp (dk_size d)) →
  round_shows m ans ms hp lines d t.
Proof.
  intros R Hch Hlen Hfirst Hlay Hfit Hfin Hm.
  destruct (write_and_flush _ _ true _ _ R (or_intror eq_refl) Hch Hlen Hfirst Hlay) as (t1 & t2 & cmds & Hw & Hfl & Hok2 & Hl2 & Hp2 & Hr2 & Hb2 & Hc2 & Hins & Hsame).
  destruct (frame_shows _ _ _ _ _ _ R Hins Hsame Hfit) as (bl & c2 & Hframe & Hshown & Hcount & Hrest).
  eexists. exists t2, bl, c2. split; [|split; [exact Hframe|split; [exact Hshown|split; [exact Hcount|split; [by apply Hrest|done]]]]].
  rewrite Hm. apply run_bind. eapply wp_lift; [exact Hw|]. apply run_bind. unfold flushed, on_desk. apply wp_zoom. cbn [dk_comp dk_kernel dk_hpet dk_size].
  unfold wp. rewrite Hfl. cbn. unfold on_kernel, zoom, mbind, M_bind. cbn [dk_comp dk_kernel dk_hpet dk_size].
  destruct (Timer.sleep_ms ms (dk_kernel d)) as [[sw k']|]; [|done]. apply Hfin.
Qed.
Lemma counter_round {A} (m : M (desk X H) A) (fin : TaskWriter → switch → M (desk X H) A) (ans : TaskWriter → switch → A) args ms d t :
  resting (dk_comp d) t → plain (mjoin args) = true → mjoin args ≠ [] → Z.of_nat (length (mjoin args)) ≤ 2 * cols_of (region t) → 20 ≤ rheight (region t) → rwidth (region t) < 1000 →
  (∀ t2 sw s, fin t2 sw s = Some (ans t2 sw, s)) →
  m d = (t1 ← lift (write_fmt args (clear 0 t)); t2 ← flushed t1; r ← on_kernel (Timer.sleep_ms ms); fin t2 r) d →
  round_shows m ans ms (dk_hpet d) [mjoin args] d t.
Proof.
  intros R Hp Hne Hlen Hh Hw Hfin Hm. destruct (wo_region _ (rs_writer _ _ R)) as (_ & Hr8 & _).
  assert (Hcols : 1 ≤ cols_of (region t) ∧ 8 * cols_of (region t) ≤ rwidth (region t)) by (unfold cols_of; clear -Hr8; dlia).
  assert (Hc10 : cols_of (region t) < 1000) by lia. assert (Hrows : rows (cols_of (region t)) (mjoin args) ≤ 2) by (apply rows_most; [apply Hcols|done|exact Hlen]).
  apply (round_tail m fin ans args); [done| | | | | |done|by destruct d].
  - intros ch Hch. by apply (plain_char _ _ Hp).
  - lia.
  - destruct (mjoin args) as [|ch rest]; [done|]. exists ch, rest. split; [done|]. apply (plain_char _ ch Hp). by left.
  - apply one_line; [lia|done|lia].
  - cbn. lia.
Qed.

(** The registered regions. *)
Definition region1 : Region := mkRegion 400 500 350 20.
Definition region2 : Region := mkRegion 400 520 300 20.
Definition region3 : Region := mkRegion 400 540 300 20.
Definition overlay_region (screen_width : Z) : Region := mkRegion (screen_width - 170) 10 160 60.
Definition frames_per_second (frames ms : Z) : Z := if 0 <? ms then frames * 1000 / ms else 0.

Lemma counters_run d t n (Hn : 0 ≤ n < 2 ^ 64 - 1) (Htick : 0 ≤ Timer.TICK_COUNT (Timer.tm (dk_kernel d))) : resting (dk_comp d) t →
  let ans t2 (sw : switch) := (n + 1, t2, sw) in
  (region t = region1 → round_shows (task1_round n t) ans 16 (dk_hpet d) [text "[Task1] Count:" ++ dec n ++ text " Tick:" ++ dec (Timer.TICK_COUNT (Timer.tm (dk_kernel d)))] d t) ∧
  (region t = region2 → round_shows (task2_round n t) ans 16 (dk_hpet d) [text "[Task2 Med ] Count: " ++ dec n] d t) ∧
  (region t = region3 → round_shows (task3_round n t) ans 16 (dk_hpet d) [text "[Task3 Low ] Count: " ++ dec n] d t).
Proof.
  intros R ans. set (tick := Timer.TICK_COUNT _) in *. pose proof (dec_length n). pose proof (dec_length tick).
  set (fin := λ t2 (sw : switch), counter ← lift (cadd 64 n 1); mret (counter, t2, sw) : M (desk X H) (Z * TaskWriter * switch)).
  assert (Hfin : ∀ t2 sw s, fin t2 sw s = Some (ans t2 sw, s)) by (intros t2 sw s; unfold fin; by rewrite cadd_some by lia).
  assert (Hone : ∀ a b : list Z, mjoin [a; b] = a ++ b) by (intros; cbn; by rewrite app_nil_r).
  split; [|split]; intros Hr.
  - assert (Hfour : ∀ a b c e : list Z, mjoin [a; b; c; e] = a ++ b ++ c ++ e) by (intros; cbn; by rewrite app_nil_r). rewrite <-Hfour.
    apply (counter_round _ fin); [done| |done| |by rewrite Hr|by rewrite Hr|exact Hfin|].
    + rewrite Hfour, !plain_app, !plain_dec by lia. reflexivity.
    + rewrite Hfour, !length_app, Hr. change (length (text "[Task1] Count:")) with 14%nat. change (length (text " Tick:")) with 6%nat. change (cols_of region1) with 43. lia.
    + unfold task1_round. apply run_bind. unfold on_kernel, zoom. cbn. by destruct d.
  - rewrite <-Hone. apply (counter_round _ fin); [done| |done| |by rewrite Hr|by rewrite Hr|exact Hfin|reflexivity].
    + rewrite Hone, !plain_app, !plain_dec by lia. reflexivity.
    + rewrite Hone, !length_app, Hr. change (length (text "[Task2 Med ] Count: ")) with 20%nat. change (cols_of region2) with 37. lia.
  - rewrite <-Hone. apply (counter_round _ fin); [done| |done| |by rewrite Hr|by rewrite Hr|exact Hfin|reflexivity].
    + rewrite Hone, !plain_app, !plain_dec by lia. reflexivity.
    + rewrite Hone, !length_app, Hr. change (length (text "[Task3 Low ] Count: ")) with 20%nat. change (cols_of region3) with 37. lia.
Qed.
Lemma overlay_run d t last_ms last_frames ms h1 secs h2 : resting (dk_comp d) t → (∃ w, region t = overlay_region w) →
  TimerDevice.elapsed_ms (dk_hpet d) = Some (ms, h1) → TimerDevice.elapsed_secs h1 = Some (secs, h2) → 0 ≤ secs →
  let frames := Z.max 0 (FRAME_COUNT (dk_comp d) - last_frames) in frames * 1000 < 2 ^ 64 →
  round_shows (debug_overlay_round last_ms last_frames t) (λ t2 sw, (t2, ms, FRAME_COUNT (dk_comp d), sw)) 1000 h2
    [text "vitrOS Debug"; text "-----------"; text "FPS: " ++ dec (frames_per_second frames (Z.max 0 (ms - last_ms))); text "Uptime: " ++ dec secs ++ text "s"] d t.
Proof.
  intros R [w Hr] Hms Hsecs Hs0 frames Hfr. set (fps := frames_per_second _ _).
  assert (Hfps : 0 ≤ fps) by (unfold fps, frames_per_second; destruct (Z.ltb_spec 0 (Z.max 0 (ms - last_ms))); [apply Z.div_pos; lia|lia]).
  set (lines := [_; _; _; _]). set (args := [text "vitrOS Debug"; nl] ++ [text "-----------"; nl] ++ [text "FPS: "; dec fps; nl] ++ [text "Uptime: "; dec secs; text "s"; nl]).
  assert (Hargs : mjoin args = joined lines).
  { unfold args, lines, joined, nl. cbn [app mjoin list_join fmap list_fmap]. by rewrite ?app_nil_r, <-?app_assoc. }
  assert (Hplain : ∀ line, line ∈ lines → plain line = true).
  { intros line. unfold lines. rewrite !elem_of_cons, elem_of_nil. intros [->|[->|[->|[->|[]]]]]; [reflexivity|reflexivity| |]; rewrite !plain_app, !plain_dec by lia; reflexivity. }
  pose proof (dec_length fps) as Hl1. pose proof (dec_length secs) as Hl2.
  assert (Hrows : text_rows 20 lines ≤ 6).
  { unfold lines. cbn [text_rows foldr]. change (rows 20 (text "vitrOS Debug")) with 1. change (rows 20 (text "-----------")) with 1.
    assert (rows 20 (text "FPS: " ++ dec fps) ≤ 2) by (apply rows_most; [lia|lia|rewrite length_app; change (length (text "FPS: ")) with 5%nat; lia]).
    assert (rows 20 (text "Uptime: " ++ dec secs ++ text "s") ≤ 2).
    { apply rows_most; [lia|lia|]. rewrite !length_app. change (length (text "Uptime: ")) with 8%nat. change (length (text "s")) with 1%nat. lia. }
    lia. }
  assert (Hlen : 10 * Z.of_nat (length (mjoin args)) + 10 < 2 ^ 32).
  { rewrite Hargs. unfold lines, joined. cbn [fmap list_fmap mjoin list_join]. rewrite !length_app.
    change (length (text "vitrOS Debug")) with 12%nat. change (length (text "-----------")) with 11%nat. change (length (text "FPS: ")) with 5%nat.
    change (length (text "Uptime: ")) with 8%nat. change (length (text "s")) with 1%nat. cbn [length]. lia. }
  eapply (round_tail _ (λ t2 sw, mret (t2, ms, FRAME_COUNT (dk_comp d), sw)) _ args); [done| |exact Hlen|by eexists _, _| | |done|].
  - intros ch. rewrite Hargs. unfold joined. intros (line & Hch & (l & -> & Hl)%list_elem_of_fmap)%list_elem_of_join.
    apply elem_of_app in Hch as [Hch| ->%list_elem_of_singleton]; [by apply (plain_char l _ (Hplain l Hl))|lia].
  - rewrite Hargs, Hr. change (cols_of (overlay_region w)) with 20. rewrite text_layout; [reflexivity|cbn; lia|lia| |].
    + intros line ch Hl Hch. by apply (plain_char line _ (Hplain line Hl)).
    + change (cols_of (overlay_region w)) with 20. cbn [overlay_region rheight]. lia.
  - rewrite Hr. change (cols_of (overlay_region w)) with 20. cbn [overlay_region rheight]. lia.
  - unfold debug_overlay_round. apply run_bind. unfold on_hpet. apply wp_zoom. unfold wp at 1. rewrite Hms.
    apply run_bind. unfold on_desk. apply wp_zoom. apply wp_gets. cbn [dk_comp dk_hpet dk_kernel dk_size].
    apply run_bind. fold frames. assert (Hf : ∀ s : desk X H, wp (if 0 <? Z.max 0 (ms - last_ms) then p ← lift (cmul 64 frames 1000); mret (p / Z.max 0 (ms - last_ms)) else mret 0) (λ r s', r = fps ∧ s' = s) s).
    { intros s. unfold fps, frames_per_second. destruct (0 <? Z.max 0 (ms - last_ms)); [|done]. apply wp_bind. eapply wp_lift; [by apply cmul_some|]. done. }
    eapply wp_mono; [apply Hf|]. intros ? ? [-> ->]. apply run_bind, wp_zoom. cbn [dk_hpet]. unfold wp at 1. rewrite Hsecs. cbn [dk_comp dk_hpet dk_kernel dk_size].
    unfold args. rewrite !write_fmt_app. unfold lift, mbind, M_bind, option_bind.
    destruct (write_fmt [text "vitrOS Debug"; nl] (clear 0 t)) as [ta|]; [|done]. rewrite !write_fmt_app. unfold mbind, option_bind.
    destruct (write_fmt [text "-----------"; nl] ta) as [tb|]; [|done]. rewrite write_fmt_app. unfold mbind, option_bind.
    destruct (write_fmt [text "FPS: "; dec fps; nl] tb) as [tc|]; [|done]. reflexivity.
Qed.

(** ** Registering *)
Definition main_region : Region := mkRegion 10 350 700 80.
Definition all_regions (screen_width : Z) : list Region := [region1; region2; region3; overlay_region screen_width; main_region].
Lemma all_regions_apart w r r' i : 170 ≤ w → r ∈ all_regions w → r' ∈ all_regions w → r ≠ r' → in_region w r i → ¬ in_region w r' i.
Proof.
  intros Hw. unfold all_regions. rewrite !elem_of_cons, !elem_of_nil. unfold in_region, in_rect.
  intros [->|[->|[->|[->|[->|[]]]]]] [->|[->|[->|[->|[->|[]]]]]] Hne; try done; cbn [region1 region2 region3 overlay_region main_region rx ry rwidth rheight]; lia.
Qed.
Lemma all_regions_on_screen w h r : 750 ≤ w < 2 ^ 32 → 560 ≤ h → r ∈ all_regions w → region_on_screen w h r ∧ 8 ≤ rwidth r < 2 ^ 32 - 8 ∧ 8 ≤ rheight r.
Proof.
  intros Hw Hh. unfold all_regions. rewrite !elem_of_cons, !elem_of_nil. unfold region_on_screen, rect_ok.
  intros [->|[->|[->|[->|[->|[]]]]]]; cbn [region1 region2 region3 overlay_region main_region rx ry rwidth rheight]; lia.
Qed.
(** The screen holds all five, each task that has registered has its own. *)
Record desk_ok (c : compositor) : Prop := {
  dk_ready : frame_ready c;
  dk_width : 750 ≤ swidth (shadow (scr c)) < 2 ^ 32;
  dk_height : 560 ≤ sheight (shadow (scr c)) < 2 ^ 32;
  dk_regions : ∀ l buf, (l, buf) ∈ buffers c → wregion buf ∈ all_regions (swidth (shadow (scr c))) ∧ ∀ cmd, cmd ∈ commands buf → cmd_inside (wregion buf) cmd;
}.
Lemma current_task_id_run d (x : Task.Task) : Sched.CURRENT_TASK (Timer.sc (dk_kernel d)) = Some x →
  on_kernel (Timer.on_sc Sched.current_task_id) d = Some (Task.id x, d).
Proof.
  intros Hc. unfold on_kernel, Timer.on_sc, zoom. assert (Hrun : Sched.current_task_id (Timer.sc (dk_kernel d)) = Some (Task.id x, Timer.sc (dk_kernel d))); [|rewrite Hrun; by destruct d as [c [k s] h z]].
  destruct (Timer.sc (dk_kernel d)) as [a b e f g cur bl wk nx [|]]; cbn in Hc; subst cur; reflexivity.
Qed.
Definition fresh (k : nat) (r : Region) (color : Z) : TaskWriter := mkTask k [] r 0 0 color [] 0 0.
Lemma new_writer_run r color d (x : Task.Task) : desk_ok (dk_comp d) → r ∈ all_regions (swidth (shadow (scr (dk_comp d)))) →
  (∀ l buf, (l, buf) ∈ buffers (dk_comp d) → wregion buf ≠ r) → Sched.CURRENT_TASK (Timer.sc (dk_kernel d)) = Some x →
  let c' := mkComp (buffers (dk_comp d) ++ [(false, WriterBuffer_new r)]) (scr (dk_comp d)) (FRAME_COUNT (dk_comp d)) in let t := fresh (length (buffers (dk_comp d))) r color in
  new_writer r color d = Some (t, mkDesk c' (dk_kernel d) (dk_hpet d) (dk_size d)) ∧ resting c' t ∧ desk_ok c'.
Proof.
  intros [Hready Hw Hh Hregs] Hr Hown Hcur c' t. set (w := swidth (shadow (scr (dk_comp d)))) in *. set (h := sheight (shadow (scr (dk_comp d)))) in *.
  destruct (all_regions_on_screen w h r Hw ltac:(lia) Hr) as (Hon & Hr8 & Hr8'). pose proof Hready as [Hsh Hclean Hhw Hcmds].
  assert (Hregs' : ∀ l buf, (l, buf) ∈ buffers c' → wregion buf ∈ all_regions w ∧ ∀ cmd, cmd ∈ commands buf → cmd_inside (wregion buf) cmd).
  { intros l buf. unfold c'. cbn [buffers]. rewrite elem_of_app, list_elem_of_singleton. intros [Hin|[= -> ->]]; [by apply (Hregs l)|]. split; [done|]. by intros cmd Hc%elem_of_nil. }
  assert (Hin' : ∀ l buf, (l, buf) ∈ buffers c' → region_on_screen w h (wregion buf) ∧ ∀ cmd, cmd ∈ commands buf → cmd_inside (wregion buf) cmd).
  { intros l buf Hel. destruct (Hregs' l buf Hel) as [Hb Hc]. split; [|done]. by apply all_regions_on_screen; [|lia|]. }
  assert (Hready' : frame_ready c').
  { split; [exact Hsh|exact Hclean|exact Hhw|]. intros l buf cmd Hel Hc. destruct (Hin' l buf Hel) as [? Hi]. eapply cmd_inside_ok; [done|by apply Hi]. }
  split; [|split; [split|by split]].
  - unfold new_writer. apply run_bind. unfold wp at 1. rewrite (current_task_id_run d x Hcur). apply run_bind. unfold on_desk, register_writer. apply wp_zoom.
    apply wp_bind, wp_gets, wp_bind, wp_modify, wp_ret. unfold id. cbn [dk_comp dk_kernel dk_hpet dk_size]. fold c'.
    unfold TaskWriter_new, zoom, gets, lift, mbind, M_bind. cbn [dk_comp dk_kernel dk_hpet dk_size].
    assert (Hl : buffers (id c') !! length (buffers (dk_comp d)) = Some (false, WriterBuffer_new r)) by (unfold c', id; cbn [buffers]; by apply list_lookup_middle).
    by rewrite Hl.
  - exact Hready'.
  - split; cbn; [by destruct Hon|lia|done|]. by intros cmd Hc%elem_of_nil.
  - done.
  - exists false. unfold c'. cbn [buffers wbuffer fresh t region]. by apply list_lookup_middle.
  - exact Hin'.
  - intros k l buf Hk Hne i Hi. change (scr c') with (scr (dk_comp d)) in *. fold w in Hi |- *. unfold c' in Hk. cbn [buffers] in Hk. apply lookup_app_Some in Hk as [Hk|[Hge Hk]].
    + assert (Hel : (l, buf) ∈ buffers (dk_comp d)) by (by eapply list_elem_of_lookup_2). destruct (Hregs l buf Hel) as [Hb _].
      eapply all_regions_apart; [|exact Hb|exact Hr|by eapply Hown|exact Hi]. lia.
    + apply list_lookup_singleton_Some in Hk as [Hk _]. cbn [t fresh wbuffer] in Hne. lia.
Qed.

Lemma desk_ok_rest c t : desk_ok c → resting c t → region t ∈ all_regions (swidth (shadow (scr c))).
Proof. intros Hd R. destruct (rs_buffer _ _ R) as [e Hb]. by destruct (dk_regions _ Hd false (mkWriter [] e (region t))) as [? _]; [eapply list_elem_of_lookup_2|]. Qed.

(** C38: The counters.  Each task's start gives it a writer on its own part of
    the screen; every later round, whatever the other tasks have in their buffers,
    ends in a sleep of 16 ms, and the next frame shows exactly the line with the
    count (and the tick) there, wrapped to a second row when it is long, never
    scrolled away; then the writer rests again, so this goes on up to the last
    count before 2^64. *)
Theorem task_rounds_shown d (x : Task.Task) n (Hd : desk_ok (dk_comp d)) (Hx : Sched.CURRENT_TASK (Timer.sc (dk_kernel d)) = Some x)
  (Hn : 0 ≤ n < 2 ^ 64 - 1) (Htick : 0 ≤ Timer.TICK_COUNT (Timer.tm (dk_kernel d))) :
  (∀ r start, (r, start) ∈ [(region1, task1_start); (region2, task2_start); (region3, task3_start)] → (∀ l buf, (l, buf) ∈ buffers (dk_comp d) → wregion buf ≠ r) →
    ∃ t c', start d = Some (t, mkDesk c' (dk_kernel d) (dk_hpet d) (dk_size d)) ∧ region t = r ∧ resting c' t ∧ desk_ok c') ∧
  (∀ t, resting (dk_comp d) t → let ans t2 (sw : switch) := (n + 1, t2, sw) in
    (region t = region1 → round_shows (task1_round n t) ans 16 (dk_hpet d) [text "[Task1] Count:" ++ dec n ++ text " Tick:" ++ dec (Timer.TICK_COUNT (Timer.tm (dk_kernel d)))] d t) ∧
    (region t = region2 → round_shows (task2_round n t) ans 16 (dk_hpet d) [text "[Task2 Med ] Count: " ++ dec n] d t) ∧
    (region t = region3 → round_shows (task3_round n t) ans 16 (dk_hpet d) [text "[Task3 Low ] Count: " ++ dec n] d t)).
Proof.
  split; [|intros t R; by apply counters_run]. intros r start Hin Hfree.
  assert (Hr : r ∈ all_regions (swidth (shadow (scr (dk_comp d)))) ∧ start = new_writer r 0xFFFFFFFF).
  { unfold all_regions. revert Hin. rewrite !elem_of_cons, !elem_of_nil. intros [[= -> ->]|[[= -> ->]|[[= -> ->]|[]]]]; (split; [tauto|done]). }
  destruct Hr as [Hr ->]. destruct (new_writer_run r 0xFFFFFFFF d x Hd Hr Hfree Hx) as (Hnew & R & Hd'). by eexists _, _.
Qed.

(** The debug overlay.  On a screen narrower than 170 pixels its start
    panics; otherwise it has a writer at the right edge.  Every round shows, after
    the next frame, its four lines in at most six rows: the frames since the last
    round times 1000 over the milliseconds since then (0 when the clock has not
    moved, as it never does without a HPET), and the seconds of the HPET. *)
Theorem debug_overlay_correct d (x : Task.Task) last_ms last_frames ms h1 secs h2 (Hd : desk_ok (dk_comp d)) (Hx : Sched.CURRENT_TASK (Timer.sc (dk_kernel d)) = Some x)
  (Hms : TimerDevice.elapsed_ms (dk_hpet d) = Some (ms, h1)) (Hsecs : TimerDevice.elapsed_secs h1 = Some (secs, h2)) (Hs0 : 0 ≤ secs) :
  ((dk_size d).1 < 170 → debug_overlay_start d = None) ∧
  ((dk_size d).1 = swidth (shadow (scr (dk_comp d))) → (∀ l buf, (l, buf) ∈ buffers (dk_comp d) → wregion buf ≠ overlay_region (dk_size d).1) →
    ∃ t c', debug_overlay_start d = Some (t, ms, FRAME_COUNT (dk_comp d), mkDesk c' (dk_kernel d) h1 (dk_size d)) ∧ region t = overlay_region (dk_size d).1 ∧ resting c' t ∧ desk_ok c') ∧
  (∀ t, resting (dk_comp d) t → (∃ w, region t = overlay_region w) → let frames := Z.max 0 (FRAME_COUNT (dk_comp d) - last_frames) in frames * 1000 < 2 ^ 64 →
    round_shows (debug_overlay_round last_ms last_frames t) (λ t2 sw, (t2, ms, FRAME_COUNT (dk_comp d), sw)) 1000 h2
      [text "vitrOS Debug"; text "-----------"; text "FPS: " ++ dec (frames_per_second frames (Z.max 0 (ms - last_ms))); text "Uptime: " ++ dec secs ++ text "s"] d t).
Proof.
  split; [|split; [|intros t R Hw frames Hfr; by apply (overlay_run d t last_ms last_frames ms h1)]].
  - intros Hw. unfold debug_overlay_start, gets, lift, mbind, M_bind, csub, OVERLAY_WIDTH, MARGIN. destruct (Z.leb_spec 160 (dk_size d).1); [|done].
    by rewrite (proj2 (Z.leb_gt _ _)) by lia.
  - intros Hw Hfree. pose proof (dk_width _ Hd). assert (Hr : overlay_region (dk_size d).1 ∈ all_regions (swidth (shadow (scr (dk_comp d))))) by (rewrite <-Hw; unfold all_regions; rewrite !elem_of_cons; eauto 10).
    destruct (new_writer_run (overlay_region (dk_size d).1) 0xFFFFFFFF d x Hd Hr Hfree Hx) as (Hnew & R & Hd'). eexists _, _. split; [|split; [|split; [exact R|exact Hd']]; reflexivity].
    unfold debug_overlay_start. apply run_bind, wp_gets. apply run_bind. eapply wp_lift; [apply csub_some; unfold OVERLAY_WIDTH; lia|].
    apply run_bind. eapply wp_lift; [apply csub_some; unfold OVERLAY_WIDTH, MARGIN; lia|]. apply run_bind.
    replace ((dk_size d).1 - OVERLAY_WIDTH - MARGIN) with ((dk_size d).1 - 170) by (unfold OVERLAY_WIDTH, MARGIN; lia). change (mkRegion _ _ _ _) with (overlay_region (dk_size d).1).
    unfold wp at 1. rewrite Hnew. apply run_bind. unfold on_hpet. apply wp_zoom. cbn [dk_hpet]. unfold wp at 1. rewrite Hms. apply run_bind. unfold on_desk. apply wp_zoom, wp_gets. done.
Qed.

(** ** The main task again *)
(** The state after registering a timer. *)
Definition with_timer (delay : Z) (c : Timer.callback X) (k : Timer.kernel X H) : Timer.kernel X H :=
  let t := Timer.tm k in
  Timer.mkKernel (Timer.mkTimers (Timer.TICK_COUNT t) (wrap 64 (Timer.TIMER_ID_COUNTER t + 1)) (Timer.TIMER_FREQUENCY_HZ t) (Timer.SOFTIRQ_PENDING t) (Timer.IN_SOFTIRQ t)
    (Timer.heap_push (Timer.mkTimer (Timer.TIMER_ID_COUNTER t) (Timer.TICK_COUNT t + delay) (Some c)) (Timer.TIMER_QUEUE t)) (Timer.PENDING_QUEUE t)) (Timer.sc k).
Lemma register_timer_run delay c k : Timer.TICK_COUNT (Timer.tm k) + delay < 2 ^ 64 →
  Timer.register_timer delay c k = Some (Timer.TIMER_ID_COUNTER (Timer.tm k), with_timer delay c k).
Proof.
  intros Ht. unfold Timer.register_timer, Timer.Timer_new, Timer.current_tick, Timer.tm_without_interrupts, Timer.on_sc, zoom, gets, modify, lift, mbind, M_bind.
  destruct k as [[tick i f so ins q p] [a b e g h cur bl wk nx iff]]. cbn in Ht. cbn. rewrite cadd_some by done. cbn. by destruct iff.
Qed.
Definition main_lines (bi : BootInfo.BootInfo) (phys virt size : Z) : list (list Z) :=
  let f := BootInfo.framebuffer bi in
  [text "Framebuffer: 0x" ++ hex (BootInfo.fb_base f) ++ text ", " ++ dec (BootInfo.fb_width f) ++ text "x" ++ dec (BootInfo.fb_height f);
   text "Memory regions: " ++ dec (BootInfo.memory_map_count bi);
   text "Largest usable memory: phys=0x" ++ hex phys ++ text " virt=0x" ++ hex virt ++ text " - 0x" ++ hex (virt + size) ++ text " (" ++ dec (size / 1024 / 1024) ++ text " MB)";
   text "Heap initialized: " ++ dec (size / 1024) ++ text " KB"; []; text "Kernel running..."; text "System ready."].
Lemma hex_length n : (length (hex n) ≤ 16)%nat.
Proof. pose proof (digits_length 16 16 n []) as Hl. exact Hl. Qed.
Lemma plain_hex n : 0 ≤ n → plain (hex n) = true.
Proof. intros. apply plain_digits; lia. Qed.
#[local] Opaque dec hex.
(** At most eight rows: the third line may take two. *)
Lemma main_lines_fit bi phys virt size : 0 ≤ BootInfo.fb_base (BootInfo.framebuffer bi) → 0 ≤ BootInfo.fb_width (BootInfo.framebuffer bi) → 0 ≤ BootInfo.fb_height (BootInfo.framebuffer bi) →
  0 ≤ BootInfo.memory_map_count bi → 0 ≤ phys → 0 ≤ virt → 0 ≤ size →
  text_rows 87 (main_lines bi phys virt size) ≤ 8 ∧ (∀ line, line ∈ main_lines bi phys virt size → plain line = true) ∧ (length (joined (main_lines bi phys virt size)) ≤ 1000)%nat.
Proof.
  intros H1 H2 H3 H4 H5 H6 H7. pose proof (Z.div_pos size 1024 H7 ltac:(lia)) as Hk. pose proof (Z.div_pos _ 1024 Hk ltac:(lia)) as Hm. unfold main_lines. set (f := BootInfo.framebuffer bi) in *.
  pose proof (hex_length (BootInfo.fb_base f)). pose proof (dec_length (BootInfo.fb_width f)). pose proof (dec_length (BootInfo.fb_height f)).
  pose proof (dec_length (BootInfo.memory_map_count bi)). pose proof (hex_length phys). pose proof (hex_length virt). pose proof (hex_length (virt + size)).
  pose proof (dec_length (size / 1024 / 1024)). pose proof (dec_length (size / 1024)). unfold joined. cbn [fmap list_fmap mjoin list_join text_rows foldr].
  change (rows 87 []) with 1. change (rows 87 (text "Kernel running...")) with 1. change (rows 87 (text "System ready.")) with 1. split; [|split].
  - assert (Hr : ∀ q line, 1 ≤ q → Z.of_nat (length line) ≤ q * 87 → rows 87 line ≤ q) by (intros; by apply rows_most).
    match goal with |- rows 87 ?a + (rows 87 ?b + (rows 87 ?c + (rows 87 ?d + _))) ≤ _ =>
      assert (rows 87 a ≤ 1); [|assert (rows 87 b ≤ 1); [|assert (rows 87 c ≤ 2); [|assert (rows 87 d ≤ 1); [|lia]]]] end;
      (apply Hr; [lia|]; rewrite !length_app; cbn; lia).
  - intros line. rewrite !elem_of_cons, elem_of_nil.
    intros [->|[->|[->|[->|[->|[->|[->|[]]]]]]]]; rewrite ?plain_app, ?plain_dec, ?plain_hex by lia; reflexivity.
  - rewrite !length_app. cbn. lia.
Qed.

Context (note : Z → X).
Definition timed (k : Timer.kernel X H) : Timer.kernel X H :=
  let f := Timer.TIMER_FREQUENCY_HZ (Timer.tm k) in
  with_timer (3 * f) (Timer.Other (note 3)) (with_timer (2 * f) (Timer.Other (note 2)) (with_timer (1 * f) (Timer.Other (note 1)) k)).
(** The whole text as one list of parts. *)
Definition main_args (bi : BootInfo.BootInfo) (phys virt size : Z) : list (list Z) :=
  let f := BootInfo.framebuffer bi in
  [text "Framebuffer: 0x"; hex (BootInfo.fb_base f); text ", "; dec (BootInfo.fb_width f); text "x"; dec (BootInfo.fb_height f); nl] ++
  [text "Memory regions: "; dec (BootInfo.memory_map_count bi); nl] ++
  [text "Largest usable memory: phys=0x"; hex phys; text " virt=0x"; hex virt; text " - 0x"; hex (virt + size); text " ("; dec (size / 1024 / 1024); text " MB)"; nl] ++
  [text "Heap initialized: "; dec (size / 1024); text " KB"; nl] ++ [nl] ++ [text "Kernel running..."; nl] ++ [text "System ready."; nl].
Lemma main_args_joined bi phys virt size : mjoin (main_args bi phys virt size) = joined (main_lines bi phys virt size).
Proof. unfold main_args, main_lines, joined, nl. cbn [app mjoin list_join fmap list_fmap]. by rewrite ?app_nil_r, <-?app_assoc. Qed.

Lemma main_report_parts bi phys virt size t : virt + size < 2 ^ 64 → main_report bi phys virt size t = write_fmt (main_args bi phys virt size) t.
Proof.
  intros Hs. unfold main_report, main_args. rewrite (cadd_some 64 virt size Hs).
  do 6 (rewrite write_fmt_app; match goal with |- _ = write_fmt ?a ?t0 ≫= _ => destruct (write_fmt a t0) as [?|]; [cbn [mbind option_bind]|done] end). done.
Qed.

Lemma timers_run f d : f = Timer.TIMER_FREQUENCY_HZ (Timer.tm (dk_kernel d)) → 0 ≤ f → Timer.TICK_COUNT (Timer.tm (dk_kernel d)) + 3 * f < 2 ^ 64 → 0 ≤ Timer.TICK_COUNT (Timer.tm (dk_kernel d)) → ∀ t : TaskWriter,
  (ticks ← on_kernel (Timer.seconds_to_ticks 1); on_kernel (Timer.register_timer ticks (Timer.Other (note 1))) ;;
   ticks ← on_kernel (Timer.seconds_to_ticks 2); on_kernel (Timer.register_timer ticks (Timer.Other (note 2))) ;;
   ticks ← on_kernel (Timer.seconds_to_ticks 3); on_kernel (Timer.register_timer ticks (Timer.Other (note 3))) ;; mret t) d =
  Some (t, mkDesk (dk_comp d) (timed (dk_kernel d)) (dk_hpet d) (dk_size d)).
Proof.
  intros -> Hf Ht Ht0 t. unfold timed. set (f := Timer.TIMER_FREQUENCY_HZ (Timer.tm (dk_kernel d))) in *.
  assert (Hsec : ∀ n d', Timer.TIMER_FREQUENCY_HZ (Timer.tm (dk_kernel d')) = f → 0 ≤ n ≤ 3 → on_kernel (Timer.seconds_to_ticks n) d' = Some (n * f, d')).
  { intros n d' Hf' Hn. unfold on_kernel, Timer.seconds_to_ticks, zoom, gets, lift, mbind, M_bind. rewrite Hf', cmul_some by nia. by destruct d'. }
  assert (Hreg : ∀ n c d', Timer.TICK_COUNT (Timer.tm (dk_kernel d')) + n * f < 2 ^ 64 →
    on_kernel (Timer.register_timer (n * f) c) d' = Some (Timer.TIMER_ID_COUNTER (Timer.tm (dk_kernel d')), mkDesk (dk_comp d') (with_timer (n * f) c (dk_kernel d')) (dk_hpet d') (dk_size d'))).
  { intros n c d' Hlt. unfold on_kernel, zoom. by rewrite register_timer_run. }
  apply run_bind. unfold wp at 1. rewrite Hsec by (done || lia). apply run_bind. unfold wp at 1. rewrite Hreg by nia.
  apply run_bind. unfold wp at 1. rewrite Hsec by (done || lia). apply run_bind. unfold wp at 1. rewrite Hreg by (cbn; nia).
  apply run_bind. unfold wp at 1. rewrite Hsec by (done || lia). apply run_bind. unfold wp at 1. rewrite Hreg by (cbn; nia). reflexivity.
Qed.

(** What the main task does when it runs again: interrupts on; its report is
    in its region after the next frame, no line scrolled away (the longest line
    takes two rows, the region has eight); three timers are due after one, two and
    three seconds; nothing else changes. *)
Theorem kernel_main_resumed_correct d (x : Task.Task) (bi : BootInfo.BootInfo) phys virt size
  (Hd : desk_ok (dk_comp d)) (Hfree : ∀ l buf, (l, buf) ∈ buffers (dk_comp d) → wregion buf ≠ main_region) (Hx : Sched.CURRENT_TASK (Timer.sc (dk_kernel d)) = Some x)
  (Hbi : 0 ≤ BootInfo.fb_base (BootInfo.framebuffer bi) ∧ 0 ≤ BootInfo.fb_width (BootInfo.framebuffer bi) ∧ 0 ≤ BootInfo.fb_height (BootInfo.framebuffer bi) ∧ 0 ≤ BootInfo.memory_map_count bi)
  (Hheap : 0 ≤ phys ∧ 0 ≤ virt ∧ 0 ≤ size ∧ virt + size < 2 ^ 64) (Hf : 0 ≤ Timer.TIMER_FREQUENCY_HZ (Timer.tm (dk_kernel d)))
  (Ht : 0 ≤ Timer.TICK_COUNT (Timer.tm (dk_kernel d)) ∧ Timer.TICK_COUNT (Timer.tm (dk_kernel d)) + 3 * Timer.TIMER_FREQUENCY_HZ (Timer.tm (dk_kernel d)) < 2 ^ 64) :
  ∃ t c1 bl c2, let k := Timer.mkKernel (Timer.tm (dk_kernel d)) (Sched.set_if true (Timer.sc (dk_kernel d))) in
    kernel_main_resumed note bi phys virt size d = Some (t, mkDesk c1 (timed k) (dk_hpet d) (dk_size d)) ∧
    compositor_frame c1 = Some (bl, c2) ∧
    shown (swidth (shadow (scr (dk_comp d)))) main_region 0xFFFFFFFF (main_lines bi phys virt size) false (hw (scr (dk_comp d))) (hw (scr c2)) ∧ resting c2 t.
Proof.
  set (k := Timer.mkKernel (Timer.tm (dk_kernel d)) (Sched.set_if true (Timer.sc (dk_kernel d)))). set (d1 := mkDesk (dk_comp d) k (dk_hpet d) (dk_size d)).
  destruct Hbi as (B1 & B2 & B3 & B4), Hheap as (P1 & P2 & P3 & P4), Ht as [T1 T2].
  destruct (new_writer_run main_region 0xFFFFFFFF d1 x Hd) as (Hnew & R & _); [unfold all_regions; set_solver|exact Hfree|done|].
  set (c' := mkComp _ _ _) in *. set (t := fresh _ _ _) in *.
  destruct (main_lines_fit bi phys virt size) as (Hrows & Hplain & Hlen); [done..|]. set (lines := main_lines bi phys virt size) in *.
  change (cols_of main_region) with 87 in *.
  destruct (write_and_flush c' t false (main_args bi phys virt size) lines R (or_introl (conj eq_refl eq_refl))) as (t1 & t2 & cmds & Hw & Hfl & Hok2 & Hl2 & Hp2 & Hr2 & Hb2 & Hc2 & Hins & Hsame).
  { intros ch. rewrite main_args_joined. fold lines. unfold joined. intros (line & Hch & (l & -> & Hl)%list_elem_of_fmap)%list_elem_of_join.
    apply elem_of_app in Hch as [Hch| ->%list_elem_of_singleton]; [by apply (plain_char l _ (Hplain l Hl))|lia]. }
  { rewrite main_args_joined. fold lines. lia. }
  { by eexists _, _. }
  { rewrite main_args_joined. fold lines. rewrite text_layout; [reflexivity|cbn; lia|lia| |change (cols_of (region t)) with 87; change (rheight (region t)) with 80; lia].
    intros line ch Hl Hch. by apply (plain_char line _ (Hplain line Hl)). }
  destruct (frame_shows c' t cmds 0xFFFFFFFF false lines R Hins Hsame) as (bl & c2 & Hframe & Hshown & _ & Hrest); [change (cols_of (region t)) with 87; change (rheight (region t)) with 80; lia|].
  exists t2. eexists. exists bl, c2. cbv zeta. split; [|split; [exact Hframe|split; [exact Hshown|by apply Hrest]]].
  unfold kernel_main_resumed. apply run_bind. unfold on_kernel at 1. apply wp_zoom. unfold Timer.on_sc. apply wp_zoom. unfold Sched.sti. apply wp_modify.
  cbv beta. match goal with |- ?m ?s = _ => change s with d1 end. apply run_bind. change (mkRegion 10 350 700 80) with main_region. unfold wp at 1. rewrite Hnew. apply run_bind. eapply wp_lift; [rewrite main_report_parts by done; exact Hw|].
  apply run_bind. unfold flushed, on_desk. apply wp_zoom. cbn [dk_comp dk_kernel dk_hpet dk_size d1]. unfold wp at 1. rewrite Hfl. cbn [mbind option_bind writer comp].
  refine (timers_run _ (mkDesk _ k (dk_hpet d) (dk_size d)) eq_refl Hf T2 T1 t2).
Qed.
End programs.

(** ** Witnesses: a black screen of 800 by 600 and the first task *)
Section demo.
#[local] Existing Instance Timer.list_heap_heap.
#[local] Opaque black.
Definition demo_shadow : ShadowBuffer := mkShadow (black (800 * 600)) 800 600 None.
Definition demo_comp : compositor := mkComp [] (mkScreen demo_shadow (black (800 * 600))) 0.
Definition demo_task : Task.Task := Task.mkTask 1 "Task1" Task.Normal 0 0 1024 0 0 Task.Running 0.
Definition demo_timers : Timer.timers Z (@Timer.list_heap Z) := Timer.mkTimers 250 0 250 false false (exist Timer.ordered [] I) [].
Definition demo_desk : desk Z (@Timer.list_heap Z) :=
  mkDesk demo_comp (Timer.mkKernel demo_timers (Sched.mkSched false 0 [] [] [] (Some demo_task) ∅ ∅ 2 true)) (TimerDevice.mkHpet false 0 0 0 0 (TimerDevice.mkDev 0 0 0 (λ _, 0) 0)) (800, 600).
Lemma demo_desk_ok : desk_ok demo_comp.
Proof.
  split; [split; [split; [apply black_full|cbn; lia|cbn; lia|done]|done|done|]|cbn; lia|cbn; lia|]; cbn [demo_comp buffers]; by intros l buf ?%elem_of_nil || by intros l buf cmd ?%elem_of_nil.
Qed.
Lemma task_rounds_shown_witness : ∃ t d', task1_start demo_desk = Some (t, d') ∧ region t = region1.
Proof.
  destruct (task_rounds_shown demo_desk demo_task 0 demo_desk_ok eq_refl ltac:(lia) ltac:(done)) as [Hs _].
  destruct (Hs region1 task1_start) as (t & c' & Hrun & Hr & _); [by left|by intros l buf ?%elem_of_nil|]. by eexists t, _.
Defined.
Lemma debug_overlay_correct_witness : ∃ t d', debug_overlay_start demo_desk = Some (t, 0, 0, d') ∧ region t = mkRegion 630 10 160 60.
Proof.
  destruct (debug_overlay_correct demo_desk demo_task 0 0 0 (dk_hpet demo_desk) 0 (dk_hpet demo_desk) demo_desk_ok eq_refl eq_refl eq_refl ltac:(done)) as (_ & Hs & _).
  destruct Hs as (t & c' & Hrun & Hr & _); [done|by intros l buf ?%elem_of_nil|]. by eexists t, _.
Defined.
Lemma kernel_main_resumed_correct_witness : ∃ t d', kernel_main_resumed id (BootInfo.mkBootInfo (BootInfo.mkFb 0x80000000 0 800 600 800) [] 0 0 0) 0x100000 0xFFFF800000100000 0x40000 demo_desk = Some (t, d').
Proof.
  destruct (kernel_main_resumed_correct id demo_desk demo_task (BootInfo.mkBootInfo (BootInfo.mkFb 0x80000000 0 800 600 800) [] 0 0 0) 0x100000 0xFFFF800000100000 0x40000 demo_desk_ok) as (t & c1 & bl & c2 & Hrun & _);
    [by intros l buf ?%elem_of_nil|done|cbn; lia|lia|cbn; lia|cbn; lia|]. by eexists t, _.
Defined.
End demo.
