(* ===== verification/Visual.v ===== *)
(** * The pipeline visualisation ([kernel/src/pipeline_visualization.rs],
    [graphics/compositor_observer.rs], the hook of [graphics/writer.rs]).

    With the feature on, the compositor draws the commands into a miniature and
    waits for animations that another task, the user interface, moves on.  This
    file is the state they share and the compositor's side; the drawing of the
    user interface is [VisualUI].

    [others] are the tasks that run while the compositor sleeps: for each state of the
    world and each length the events that happen before it goes on.  The two spin
    locks are taken with interrupts on, and a task may be switched away holding one.  Positions of animations are the source's
    [f32], computed with the standard library's [SpecFloat]. *)
From Stdlib Require Import SpecFloat.
From S2P Require Import Prelude Font Graphics.
Set Default Goal Selector "!".

(** ** Single precision *)
Definition f32 : Type := spec_float.
Definition f32_of (z : Z) : f32 := binary_normalize 24 128 z 0 false.
Definition fadd : f32 → f32 → f32 := SFadd 24 128.
Definition fsub : f32 → f32 → f32 := SFsub 24 128.
Definition fmul : f32 → f32 → f32 := SFmul 24 128.
Definition fdiv : f32 → f32 → f32 := SFdiv 24 128.
(** A decimal literal is the correctly rounded quotient. *)
Definition decimal (n d : Z) : f32 := fdiv (f32_of n) (f32_of d).
Definition fle : f32 → f32 → bool := SFleb.
Definition flt : f32 → f32 → bool := SFltb.
(** [as]: towards zero, saturating. *)
Definition magnitude (m : positive) (e : Z) : Z := if 0 <=? e then Z.pos m * 2 ^ e else Z.pos m / 2 ^ (- e).
Definition as_isize (x : f32) : Z :=
  match x with
  | S754_finite s m e => let a := magnitude m e in Z.max (- 2 ^ 63) (Z.min (2 ^ 63 - 1) (if s then - a else a))
  | S754_infinity s => if s then - 2 ^ 63 else 2 ^ 63 - 1
  | _ => 0
  end.
Definition as_usize (x : f32) : Z :=
  match x with
  | S754_finite s m e => let a := magnitude m e in if s then 0 else Z.min (2 ^ 64 - 1) a
  | S754_infinity s => if s then 0 else 2 ^ 64 - 1
  | _ => 0
  end.

Definition ANIM_SPEED_PIPE_COMMAND : f32 := decimal 6 100.
Definition ANIM_SPEED_BLIT : f32 := decimal 8 100.
Definition ANIM_SPEED_BUFFER_COPY : f32 := decimal 12 100.

(** ** The miniature buffers *)
(** A loop that the body may leave early. *)
Fixpoint for_break {S A} (xs : list A) (body : A → M S bool) : M S unit :=
  match xs with
  | [] => mret tt
  | x :: xs => go_on ← body x; if go_on : bool then for_break xs body else mret tt
  end.
Definition MINI_WIDTH : Z := 400.
Definition MINI_HEIGHT : Z := 300.
Record MiniBuffer := mkMini { mbuffer : pixels; mwidth : Z; mheight : Z }.
Definition MiniBuffer_new (width height : Z) : MiniBuffer := mkMini (black (width * height)) width height.
Definition on_mini {A} (m : M pixels A) : M MiniBuffer A := zoom mbuffer (λ b s, mkMini b (mwidth s) (mheight s)) m.
Definition mini_clear (color : Z) : M MiniBuffer unit := modify (λ s, mkMini ((λ _, color) <$> mbuffer s) (mwidth s) (mheight s)).
Definition mini_draw_rect (x y w h color : Z) : M MiniBuffer unit :=
  s ← gets id;
  for_break (seqZ 0 h) (λ dy,
    py ← lift (cadd 64 y dy);
    if mheight s <=? py then mret false else
    for_break (seqZ 0 w) (λ dx,
      px ← lift (cadd 64 x dx);
      if mwidth s <=? px then mret false else on_mini (put (py * mwidth s + px) color) ;; mret true) ;;
    mret true).
Definition mini_draw_char (x y ch color : Z) : M MiniBuffer unit :=
  if (ch <? 32) || (126 <? ch) then mret tt else
  s ← gets id;
  glyph ← lift (FONT_8X8 !! Z.to_nat (ch - 32));
  for_break (seqZ 0 8) (λ row,
    py ← lift (cadd 64 y row);
    if mheight s <=? py then mret false else
    glyph_row ← lift (glyph !! Z.to_nat row);
    for_break (seqZ 0 8) (λ col,
      px ← lift (cadd 64 x col);
      if mwidth s <=? px then mret false else
      (if Z.land (Z.shiftr glyph_row col) 1 =? 1 then on_mini (put (py * mwidth s + px) color) else mret tt) ;; mret true) ;;
    mret true).
Fixpoint mini_draw_string (cur_x y : Z) (s : list Z) (color : Z) : M MiniBuffer unit :=
  match s with
  | [] => mret tt
  | ch :: s =>
      mini_draw_char cur_x y ch color ;;
      cur_x ← lift (cadd 64 cur_x 8);
      w ← gets mwidth;
      if w <=? cur_x then mret tt else mini_draw_string cur_x y s color
  end.
(** [copy_from_slice] wants the lengths equal. *)
Definition mini_blit_to (src dest : MiniBuffer) : option MiniBuffer :=
  if (mwidth src =? mwidth dest) && (mheight src =? mheight dest) then Some (mkMini (mbuffer src) (mwidth dest) (mheight dest)) else None.
Definition blit_to_fb (mini : MiniBuffer) (fb_width fb_height dest_x dest_y : Z) : M pixels unit :=
  for_break (seqZ 0 (mheight mini)) (λ y,
    let dest_row := dest_y + y in
    if fb_height <=? dest_row then mret false else
    for_break (seqZ 0 (mwidth mini)) (λ x,
      if fb_width <=? dest_x + x then mret false else
      v ← lift (mbuffer mini !! (y * mwidth mini + x)); put (dest_row * fb_width + dest_x + x) v ;; mret true) ;;
    mret true).

Definition scale (v mini screen : Z) : option Z := if screen =? 0 then None else p ← cmul 64 v mini; Some (p / screen).
Definition scale_size (v mini screen : Z) : option Z := q ← scale v mini screen; Some (Z.max q 1).
(** The answer is the dirty rectangle. *)
Definition mini_render_command (region : Region) (cmd : DrawCommand) (screen_width screen_height : Z) : M MiniBuffer (Z * Z * Z * Z) :=
  s ← gets id;
  let scale_x v := scale v (mwidth s) screen_width in let scale_y v := scale v (mheight s) screen_height in
  let scale_w v := scale_size v (mwidth s) screen_width in let scale_h v := scale_size v (mheight s) screen_height in
  match cmd with
  | Clear color =>
      x ← lift (scale_x (rx region)); y ← lift (scale_y (ry region)); w ← lift (scale_w (rwidth region)); h ← lift (scale_h (rheight region));
      mini_draw_rect x y w h color ;; mret (wrap 32 x, wrap 32 y, wrap 32 w, wrap 32 h)
  | FillRect x y width height color =>
      global_x ← lift (cadd 32 (rx region) x); global_y ← lift (cadd 32 (ry region) y);
      sx ← lift (scale_x global_x); sy ← lift (scale_y global_y); sw ← lift (scale_w width); sh ← lift (scale_h height);
      mini_draw_rect sx sy sw sh color ;; mret (wrap 32 sx, wrap 32 sy, wrap 32 sw, wrap 32 sh)
  | DrawString x y text color =>
      global_x ← lift (cadd 32 (rx region) x); global_y ← lift (cadd 32 (ry region) y);
      sx ← lift (scale_x global_x); sy ← lift (scale_y global_y);
      text_width ← lift (cmul 32 (wrap 32 (Z.of_nat (length text))) 8);
      sw ← lift (scale_w text_width);
      let sw := Z.max sw 2 in
      mini_draw_rect sx sy sw 2 color ;; mret (wrap 32 sx, wrap 32 sy, wrap 32 sw, 2)
  | DrawChar x y ch color =>
      global_x ← lift (cadd 32 (rx region) x); global_y ← lift (cadd 32 (ry region) y);
      sx ← lift (scale_x global_x); sy ← lift (scale_y global_y);
      mini_draw_rect sx sy 2 2 color ;; mret (wrap 32 sx, wrap 32 sy, 2, 2)
  end.

(** ** The shared state *)
Inductive PipelinePhase := Idle | Snapshot | Rendering | Blit.
Record CommandInfo := mkInfo { command_type : string; region_x : Z; region_y : Z }.
Record BufferQueueInfo := mkQueue {
  name : string; pending_commands : Z; command_types : list (option string); compositor_commands : list (option string);
  anim_start_tick : Z; is_processing : bool; processed_count : Z; total_commands : Z }.
Record FlowingCommand := mkFlowing { buffer_index : nat; cmd_type : string; position : f32; arrived : bool }.
Record BlitAnimation := mkBlit { dirty_x : Z; dirty_y : Z; dirty_w : Z; dirty_h : Z; progress : f32; pending_blit : bool }.
Record BufferCopyAnimation := mkCopy { source_buffer_index : nat; copied_commands : Z; copy_progress : f32 }.
Record MiniVisualizationState := mkVis {
  mini_shadow : MiniBuffer; mini_fb : MiniBuffer; phase : PipelinePhase; current_command : option CommandInfo;
  buffer_queues : list BufferQueueInfo; buffer_count : nat; flowing_commands : list (option FlowingCommand);
  blit_animation : option BlitAnimation; buffer_copy_animation : option BufferCopyAnimation; cumulative_dirty : option (Z * Z * Z * Z);
  animation_tick : Z; add_cooldown : Z; command_count : Z; frame_count : Z }.
Definition none5 : list (option string) := replicate 5 None.
Definition queue_new : BufferQueueInfo := mkQueue "" 0 none5 none5 0 false 0 0.
Definition MiniVisualizationState_new : MiniVisualizationState :=
  mkVis (MiniBuffer_new MINI_WIDTH MINI_HEIGHT) (MiniBuffer_new MINI_WIDTH MINI_HEIGHT) Idle None (replicate 4 queue_new) 0 (replicate 8 None) None None None 0 0 0 0.

Section fields.
Implicit Types (v : MiniVisualizationState).
Definition set_shadow b v := mkVis b (mini_fb v) (phase v) (current_command v) (buffer_queues v) (buffer_count v) (flowing_commands v) (blit_animation v) (buffer_copy_animation v) (cumulative_dirty v) (animation_tick v) (add_cooldown v) (command_count v) (frame_count v).
Definition set_mini_fb b v := mkVis (mini_shadow v) b (phase v) (current_command v) (buffer_queues v) (buffer_count v) (flowing_commands v) (blit_animation v) (buffer_copy_animation v) (cumulative_dirty v) (animation_tick v) (add_cooldown v) (command_count v) (frame_count v).
Definition set_phase p v := mkVis (mini_shadow v) (mini_fb v) p (current_command v) (buffer_queues v) (buffer_count v) (flowing_commands v) (blit_animation v) (buffer_copy_animation v) (cumulative_dirty v) (animation_tick v) (add_cooldown v) (command_count v) (frame_count v).
Definition set_current c v := mkVis (mini_shadow v) (mini_fb v) (phase v) c (buffer_queues v) (buffer_count v) (flowing_commands v) (blit_animation v) (buffer_copy_animation v) (cumulative_dirty v) (animation_tick v) (add_cooldown v) (command_count v) (frame_count v).
Definition set_queues q v := mkVis (mini_shadow v) (mini_fb v) (phase v) (current_command v) q (buffer_count v) (flowing_commands v) (blit_animation v) (buffer_copy_animation v) (cumulative_dirty v) (animation_tick v) (add_cooldown v) (command_count v) (frame_count v).
Definition set_count n v := mkVis (mini_shadow v) (mini_fb v) (phase v) (current_command v) (buffer_queues v) n (flowing_commands v) (blit_animation v) (buffer_copy_animation v) (cumulative_dirty v) (animation_tick v) (add_cooldown v) (command_count v) (frame_count v).
Definition set_flowing l v := mkVis (mini_shadow v) (mini_fb v) (phase v) (current_command v) (buffer_queues v) (buffer_count v) l (blit_animation v) (buffer_copy_animation v) (cumulative_dirty v) (animation_tick v) (add_cooldown v) (command_count v) (frame_count v).
Definition set_blit a v := mkVis (mini_shadow v) (mini_fb v) (phase v) (current_command v) (buffer_queues v) (buffer_count v) (flowing_commands v) a (buffer_copy_animation v) (cumulative_dirty v) (animation_tick v) (add_cooldown v) (command_count v) (frame_count v).
Definition set_copy a v := mkVis (mini_shadow v) (mini_fb v) (phase v) (current_command v) (buffer_queues v) (buffer_count v) (flowing_commands v) (blit_animation v) a (cumulative_dirty v) (animation_tick v) (add_cooldown v) (command_count v) (frame_count v).
Definition set_cumulative d v := mkVis (mini_shadow v) (mini_fb v) (phase v) (current_command v) (buffer_queues v) (buffer_count v) (flowing_commands v) (blit_animation v) (buffer_copy_animation v) d (animation_tick v) (add_cooldown v) (command_count v) (frame_count v).
Definition set_ticks t c v := mkVis (mini_shadow v) (mini_fb v) (phase v) (current_command v) (buffer_queues v) (buffer_count v) (flowing_commands v) (blit_animation v) (buffer_copy_animation v) (cumulative_dirty v) t c (command_count v) (frame_count v).
Definition set_command_count n v := mkVis (mini_shadow v) (mini_fb v) (phase v) (current_command v) (buffer_queues v) (buffer_count v) (flowing_commands v) (blit_animation v) (buffer_copy_animation v) (cumulative_dirty v) (animation_tick v) (add_cooldown v) n (frame_count v).
Definition set_frame_count n v := mkVis (mini_shadow v) (mini_fb v) (phase v) (current_command v) (buffer_queues v) (buffer_count v) (flowing_commands v) (blit_animation v) (buffer_copy_animation v) (cumulative_dirty v) (animation_tick v) (add_cooldown v) (command_count v) n.
End fields.

(** ** The methods of the state *)
Definition start_buffer_copy_animation (i : nat) (n : Z) : M MiniVisualizationState unit := modify (set_copy (Some (mkCopy i n (f32_of 0)))).
Definition start_blit_animation_from_cumulative : M MiniVisualizationState unit :=
  v ← gets id;
  match cumulative_dirty v with
  | Some (x, y, w, h) => modify (set_cumulative None) ;; modify (set_blit (Some (mkBlit x y w h (f32_of 0) true)))
  | None => mret tt
  end.
Definition expand_dirty (x y w h : Z) : M MiniVisualizationState unit :=
  v ← gets id;
  match cumulative_dirty v with
  | Some (cx, cy, cw, ch) =>
      let min_x := Z.min cx x in let min_y := Z.min cy y in
      cr ← lift (cadd 32 cx cw); r ← lift (cadd 32 x w);
      let max_x := Z.max cr r in
      cb ← lift (cadd 32 cy ch); b ← lift (cadd 32 y h);
      let max_y := Z.max cb b in
      modify (set_cumulative (Some (min_x, min_y, max_x - min_x, max_y - min_y)))
  | None => modify (set_cumulative (Some (x, y, w, h)))
  end.
Definition update_queue (i : nat) (f : BufferQueueInfo → BufferQueueInfo) : M MiniVisualizationState unit :=
  modify (λ v, set_queues (alter f i (buffer_queues v)) v).
Definition update_buffer_queue (i : nat) (nm : string) (cmds : list string) : M MiniVisualizationState unit :=
  if (4 <=? i)%nat then mret tt else
  update_queue i (λ q, mkQueue nm (Z.of_nat (length cmds)) ((λ j, cmds !! j) <$> seq 0 5) (compositor_commands q) (anim_start_tick q) (is_processing q) (processed_count q) (total_commands q)) ;;
  modify (λ v, if (buffer_count v <=? i)%nat then set_count (S i) v else v).
(** The first free slot; a command for which there is none is not shown. *)
Fixpoint place (cmd : FlowingCommand) (slots : list (option FlowingCommand)) : list (option FlowingCommand) :=
  match slots with
  | [] => []
  | None :: slots => Some cmd :: slots
  | Some c :: slots => Some c :: place cmd slots
  end.
Definition add_command_to_pipe (i : nat) (ty : string) : M MiniVisualizationState unit :=
  modify (λ v, set_flowing (place (mkFlowing i ty (f32_of 1) false) (flowing_commands v)) v).
Definition arrived_for (i : nat) (slot : option FlowingCommand) : bool :=
  match slot with Some cmd => (buffer_index cmd =? i)%nat && arrived cmd | None => false end.
Definition is_command_arrived (i : nat) (v : MiniVisualizationState) : bool := existsb (arrived_for i) (flowing_commands v).
Fixpoint remove_first (i : nat) (slots : list (option FlowingCommand)) : list (option FlowingCommand) :=
  match slots with [] => [] | s :: slots => if arrived_for i s then None :: slots else s :: remove_first i slots end.
Definition remove_arrived_command (i : nat) : M MiniVisualizationState unit := modify (λ v, set_flowing (remove_first i (flowing_commands v)) v).

Definition tick_flowing (cmd : FlowingCommand) : FlowingCommand :=
  if arrived cmd then cmd else
  let p := fsub (position cmd) ANIM_SPEED_PIPE_COMMAND in
  if fle p (f32_of 0) then mkFlowing (buffer_index cmd) (cmd_type cmd) (f32_of 0) true
  else mkFlowing (buffer_index cmd) (cmd_type cmd) p false.
Definition tick_slot (slot : option FlowingCommand) : option FlowingCommand := tick_flowing <$> slot.
(** The answer: which animation came to its end, the transfer's and the copy's. *)
Definition tick_blit : M MiniVisualizationState bool :=
  v ← gets id;
  match blit_animation v with
  | None => mret false
  | Some a =>
      let p := fadd (progress a) ANIM_SPEED_BLIT in
      if fle (f32_of 1) p then
        (if pending_blit a then
           fb ← lift (mini_blit_to (mini_shadow v) (mini_fb v)); modify (set_mini_fb fb) ;;
           n ← lift (cadd 64 (frame_count v) 1); modify (set_frame_count n)
         else mret tt) ;;
        modify (set_blit None) ;; mret true
      else modify (set_blit (Some (mkBlit (dirty_x a) (dirty_y a) (dirty_w a) (dirty_h a) p (pending_blit a)))) ;; mret false
  end.
Definition tick_copy : M MiniVisualizationState bool :=
  v ← gets id;
  match buffer_copy_animation v with
  | None => mret false
  | Some a =>
      let p := fadd (copy_progress a) ANIM_SPEED_BUFFER_COPY in
      if fle (f32_of 1) p then modify (set_copy None) ;; mret true
      else modify (set_copy (Some (mkCopy (source_buffer_index a) (copied_commands a) p))) ;; mret false
  end.
Definition tick_animation : M MiniVisualizationState (bool * bool) :=
  modify (λ v, set_ticks (wrap 32 (animation_tick v + 1)) (if 0 <? add_cooldown v then add_cooldown v - 1 else add_cooldown v) v) ;;
  modify (λ v, set_flowing (tick_slot <$> flowing_commands v) v) ;;
  blitted ← tick_blit;
  copied ← tick_copy;
  mret (blitted, copied).

(** ** The statics *)
(** The two spin locks are the flags [STATE_LOCKED] and [TRACKING_LOCKED]: set while
    a task that was switched away is inside a section. *)
Record statics := mkStatics {
  BUFFER_TRACKING : list (option Z * option nat); FB_BASE : Z; BUFFER_COUNT : nat; MINI_VIS_STATE : option MiniVisualizationState;
  BUFFER_COPY_ANIM_IN_PROGRESS : bool; BLIT_ANIM_IN_PROGRESS : bool; STATE_LOCKED : bool; TRACKING_LOCKED : bool }.
Definition statics_new : statics := mkStatics (replicate 4 (None, None)) 0 0 None false false false false.
Definition set_tracking t s := mkStatics t (FB_BASE s) (BUFFER_COUNT s) (MINI_VIS_STATE s) (BUFFER_COPY_ANIM_IN_PROGRESS s) (BLIT_ANIM_IN_PROGRESS s) (STATE_LOCKED s) (TRACKING_LOCKED s).
Definition set_fb_base b s := mkStatics (BUFFER_TRACKING s) b (BUFFER_COUNT s) (MINI_VIS_STATE s) (BUFFER_COPY_ANIM_IN_PROGRESS s) (BLIT_ANIM_IN_PROGRESS s) (STATE_LOCKED s) (TRACKING_LOCKED s).
Definition set_buffer_count n s := mkStatics (BUFFER_TRACKING s) (FB_BASE s) n (MINI_VIS_STATE s) (BUFFER_COPY_ANIM_IN_PROGRESS s) (BLIT_ANIM_IN_PROGRESS s) (STATE_LOCKED s) (TRACKING_LOCKED s).
Definition set_state v s := mkStatics (BUFFER_TRACKING s) (FB_BASE s) (BUFFER_COUNT s) v (BUFFER_COPY_ANIM_IN_PROGRESS s) (BLIT_ANIM_IN_PROGRESS s) (STATE_LOCKED s) (TRACKING_LOCKED s).
Definition set_copying b s := mkStatics (BUFFER_TRACKING s) (FB_BASE s) (BUFFER_COUNT s) (MINI_VIS_STATE s) b (BLIT_ANIM_IN_PROGRESS s) (STATE_LOCKED s) (TRACKING_LOCKED s).
Definition set_blitting b s := mkStatics (BUFFER_TRACKING s) (FB_BASE s) (BUFFER_COUNT s) (MINI_VIS_STATE s) (BUFFER_COPY_ANIM_IN_PROGRESS s) b (STATE_LOCKED s) (TRACKING_LOCKED s).
Definition set_locks b t s := mkStatics (BUFFER_TRACKING s) (FB_BASE s) (BUFFER_COUNT s) (MINI_VIS_STATE s) (BUFFER_COPY_ANIM_IN_PROGRESS s) (BLIT_ANIM_IN_PROGRESS s) b t.
(** [MINI_VIS_STATE.lock()] and [BUFFER_TRACKING.lock()] around a section.  The locks
    are taken with interrupts on and spin: on the one processor a holder that was
    switched away does not get on while the compositor, a realtime task, polls its lock,
    so for it a held lock is a loop without end, [None].  A section that nobody
    interrupts leaves the flag as it found it, not set. *)
Definition in_state {A} (m : M statics A) : M statics A := s ← gets (λ s, s); if STATE_LOCKED s then panic else m.
Definition in_tracking {A} (m : M statics A) : M statics A := s ← gets (λ s, s); if TRACKING_LOCKED s then panic else m.
(** [if let Some(ref mut state) = *MINI_VIS_STATE.lock()]. *)
Definition with_state {A} (m : M MiniVisualizationState A) : M statics (option A) := in_state (λ s,
  match MINI_VIS_STATE s with
  | Some v => match m v with Some (a, v') => Some (Some a, set_state (Some v') s) | None => None end
  | None => Some (None, s)
  end).
Definition init_visualization_state : M statics unit := in_state (modify (set_state (Some MiniVisualizationState_new))).
Definition is_visualization_mode : M statics bool := in_state (gets (λ s, bool_decide (is_Some (MINI_VIS_STATE s)))).
Definition update_buffer_count (n : nat) : M statics unit := with_state (modify (set_count (Nat.min n 4))) ;; mret tt.
Definition ui_tick : M statics unit :=
  r ← with_state tick_animation;
  match r with
  | Some (blitted, copied) =>
      (if blitted : bool then modify (set_blitting false) else mret tt) ;; (if copied : bool then modify (set_copying false) else mret tt)
  | None => mret tt
  end.
Definition buffer_name (i : nat) : string := match i with 0 => "Buffer0" | 1 => "Buffer1" | 2 => "Buffer2" | _ => "Buffer3" end%nat.
Definition update_buffer_on_flush (i : nat) (n : Z) (types : list (option string)) : M statics unit :=
  with_state (if (i <? 4)%nat then
      update_queue i (λ q, mkQueue (buffer_name i) n types (compositor_commands q) (anim_start_tick q) (is_processing q) (processed_count q) (total_commands q)) ;;
      modify (λ v, if (buffer_count v <=? i)%nat then set_count (S i) v else v)
    else mret tt) ;; mret tt.
Definition get_owner_task_id (i : nat) : M statics (option Z) :=
  if (i <? 4)%nat then in_tracking (s ← gets id; e ← lift (BUFFER_TRACKING s !! i); mret (e : option Z * option nat).1) else mret None.
Definition fb_base : M statics Z := gets FB_BASE.
Definition get_buffer_index_for (current_task_id : Z) (s : statics) : option nat :=
  fst <$> list_find (λ e, e.1 = Some current_task_id) (BUFFER_TRACKING s).

(** ** The observer ([compositor_observer.rs]) *)
Class CompositorObserver (O S : Type) := {
  on_init : O → Z → M S unit;
  on_buffer_registered : O → nat → Z → M S unit;
  on_frame_start : O → M S unit;
  on_blit_complete : O → M S unit }.
(** The trait's default methods. *)
Inductive NoOpObserver := TheNoOpObserver.
#[export] Instance NoOp_observer {S} : CompositorObserver NoOpObserver S :=
  {| on_init _ _ := mret tt; on_buffer_registered _ _ _ := mret tt; on_frame_start _ := mret tt; on_blit_complete _ := mret tt |}.
Definition set_phase_idle : M statics unit := with_state (modify (set_phase Idle)) ;; mret tt.
Inductive PipelineVisualizationObserver := ThePipelineObserver.
#[export] Instance Pipeline_observer : CompositorObserver PipelineVisualizationObserver statics := {|
  on_init _ base := modify (set_fb_base base);
  on_buffer_registered _ i task_id :=
    (if (i <? 4)%nat then
       in_tracking (
         modify (λ s, set_tracking (<[i := (Some task_id, Some i)]> (BUFFER_TRACKING s)) s) ;;
         modify (λ s, if (BUFFER_COUNT s <=? i)%nat then set_buffer_count (S i) s else s))
     else mret tt) ;;
    with_state (if (i <? 4)%nat then
      update_queue i (λ q, mkQueue (buffer_name i) (pending_commands q) (command_types q) (compositor_commands q) (anim_start_tick q) (is_processing q) (processed_count q) (total_commands q)) ;;
      modify (λ v, set_count (Nat.max (buffer_count v) (S i)) v)
    else mret tt) ;; mret tt;
  on_frame_start _ := mret tt;
  on_blit_complete _ := set_phase_idle |}.

(** ** The compositor's side *)
Definition start_buffer_processing (i : nat) (n : Z) : M statics unit :=
  modify (set_copying true) ;;
  with_state (if (i <? 4)%nat then
      v ← gets id;
      update_queue i (λ q, mkQueue (name q) (pending_commands q) (command_types q) (compositor_commands q) (animation_tick v) true 0 n) ;;
      start_buffer_copy_animation i n
    else mret tt) ;; mret tt.
Definition complete_buffer_copy (i : nat) : M statics unit :=
  with_state (if (i <? 4)%nat then
      update_queue i (λ q, mkQueue (name q) 0 none5 (command_types q) (anim_start_tick q) (is_processing q) (processed_count q) (total_commands q))
    else mret tt) ;; mret tt.
Definition command_name (cmd : DrawCommand) : string :=
  match cmd with Clear _ => "Clear" | FillRect _ _ _ _ _ => "FillRect" | DrawString _ _ _ _ => "DrawString" | DrawChar _ _ _ _ => "DrawChar" end.
Definition on_shadow {A} (m : M MiniBuffer A) : M MiniVisualizationState A := zoom mini_shadow set_shadow m.
Definition process_command_visualization (i : nat) (cmd_idx : Z) (region : Region) (cmd : DrawCommand) (screen_width screen_height : Z) : M statics string :=
  with_state (
    modify (set_phase Rendering) ;;
    d ← on_shadow (mini_render_command region cmd screen_width screen_height);
    let '(dx, dy, dw, dh) := d in
    expand_dirty dx dy dw dh ;;
    modify (set_current (Some (mkInfo (command_name cmd) (rx region) (ry region)))) ;;
    v ← gets id; n ← lift (cadd 64 (command_count v) 1); modify (set_command_count n) ;;
    (if (i <? 4)%nat then
       update_queue i (λ q, mkQueue (name q) (pending_commands q) (command_types q) (compositor_commands q) (anim_start_tick q) (is_processing q) (cmd_idx + 1) (total_commands q))
     else mret tt)) ;;
  mret (command_name cmd).
Definition complete_buffer_processing (i : nat) : M statics unit :=
  with_state (if (i <? 4)%nat then
      update_queue i (λ q, mkQueue (name q) (pending_commands q) (command_types q) none5 (anim_start_tick q) false 0 0)
    else mret tt) ;; mret tt.
Definition start_blit_animation : M statics unit :=
  r ← with_state (modify (set_phase Blit) ;; start_blit_animation_from_cumulative ;; gets blit_animation);
  match r with Some (Some _) => modify (set_blitting true) | _ => mret tt end.

(** The compositor's buffers, each with the flag of its lock; the tasks it has
    woken, and how often it has slept. *)
Record world := mkWorld { vs : statics; shared : list (bool * WriterBuffer); woken : list Z; sleeps : nat }.
Definition on_vs {A} (m : M statics A) : M world A := zoom vs (λ s w, mkWorld s (shared w) (woken w) (sleeps w)) m.
Definition set_shared (l : list (bool * WriterBuffer)) (w : world) : world := mkWorld (vs w) l (woken w) (sleeps w).

(** What other tasks do: a round of the user interface; a task [id] flushes its
    commands to buffer [i] (it gets there when the lock is free) and the hook of
    [writer.rs] notes it; a task is preempted holding the lock of a buffer, or lets it go;
    a task registers a buffer; a task is switched away inside a section of the state's or the
    tracking's lock, or gets on and leaves it.  A section that comes to its end is listed
    where it ends. *)
Inductive event :=
  | UiRound | Flushes (id : Z) (i : nat) (cmds : list DrawCommand) | Holds (i : nat) (locked : bool) | Registers (id : Z) (region : Region)
  | InState (inside : bool) | InTracking (inside : bool).
Definition short_name (cmd : DrawCommand) : string :=
  match cmd with Clear _ => "Clear" | FillRect _ _ _ _ _ => "FillRect" | DrawString _ _ _ _ => "String" | DrawChar _ _ _ _ => "Char" end.
Definition notify_flush (id : Z) (buf : WriterBuffer) : M statics unit :=
  s ← in_tracking (gets (λ s, s));
  match get_buffer_index_for id s with
  | Some i =>
      let types := (λ j, short_name <$> commands buf !! j) <$> seq 0 5 in
      update_buffer_on_flush i (Z.of_nat (length (commands buf))) types
  | None => mret tt
  end.
Definition run_event (e : event) : M world unit :=
  match e with
  | UiRound => on_vs ui_tick
  | Flushes id i cmds =>
      w ← gets (λ w, w);
      match shared w !! i with
      | Some (false, buf) => modify (set_shared (<[i := (false, extend_commands cmds buf)]> (shared w))) ;; on_vs (notify_flush id (extend_commands cmds buf))
      | _ => mret tt
      end
  | Holds i b => modify (λ w, set_shared (alter (λ e, (b, e.2)) i (shared w)) w)
  | InState b => on_vs (modify (λ s, set_locks b (TRACKING_LOCKED s) s))
  | InTracking b => on_vs (modify (λ s, set_locks (STATE_LOCKED s) b s))
  | Registers id region =>
      w ← gets (λ w, w);
      modify (set_shared (shared w ++ [(false, WriterBuffer_new region)])) ;; on_vs (on_buffer_registered ThePipelineObserver (length (shared w)) id)
  end.

Section compositor.
Context (others : world → Z → list event).
Definition sleep_ms (ms : Z) : M world unit :=
  w ← gets (λ w, w);
  modify (λ w, mkWorld (vs w) (shared w) (woken w) (S (sleeps w))) ;; for_each (others w ms) run_event.
(** The loops poll a flag without a limit; [fuel] is how often they may. *)
Fixpoint wait_while (fuel : nat) (flag : statics → bool) : M world unit :=
  match fuel with
  | O => panic
  | S fuel => w ← gets (λ w, w); if flag (vs w) then sleep_ms 16 ;; wait_while fuel flag else mret tt
  end.
Definition wait_for_buffer_copy_animation (fuel : nat) : M world unit := wait_while fuel BUFFER_COPY_ANIM_IN_PROGRESS.
Definition wait_for_blit_animation (fuel : nat) : M world unit := wait_while fuel BLIT_ANIM_IN_PROGRESS.

Definition process_buffer (fuel : nat) (screen_width screen_height : Z) (i : nat) : M world unit :=
  w ← gets (λ w, w);
  e ← lift (shared w !! i);
  let '(locked, buf) := (e : bool * WriterBuffer) in
  if locked then mret tt else
  if dirty buf then
    let region := wregion buf in let commands_copy := commands buf in
    on_vs (start_buffer_processing i (Z.of_nat (length commands_copy))) ;;
    wait_for_buffer_copy_animation fuel ;;
    on_vs (complete_buffer_copy i) ;;
    sleep_ms 500 ;;
    for_each (zip (seqZ 0 (Z.of_nat (length commands_copy))) commands_copy) (λ '(cmd_idx, cmd),
      on_vs (process_command_visualization i cmd_idx region cmd screen_width screen_height) ;; sleep_ms 500) ;;
    on_vs (complete_buffer_processing i) ;;
    w ← gets (λ w, w);
    e ← lift (shared w !! i);
    let '(locked, buf) := (e : bool * WriterBuffer) in
    (if locked then mret tt else modify (λ w, set_shared (<[i := (false, clear_commands buf)]> (shared w)) w)) ;;
    owner ← on_vs (get_owner_task_id i);
    match owner with Some id => modify (λ w, mkWorld (vs w) (shared w) (woken w ++ [id]) (sleeps w)) | None => mret tt end
  else mret tt.
Definition process_frame_visualization_internal (fuel : nat) (screen_width screen_height : Z) : M world bool :=
  snapshot ← gets (λ w, length (shared w));
  on_vs (update_buffer_count snapshot) ;;
  for_each (seq 0 snapshot) (process_buffer fuel screen_width screen_height) ;;
  on_vs start_blit_animation ;;
  wait_for_blit_animation fuel ;;
  on_vs set_phase_idle ;;
  mret true.
Definition process_frame_if_visualization (fuel : nat) (screen_width screen_height : Z) : M world bool :=
  on_ ← on_vs is_visualization_mode;
  if negb on_ then mret false else process_frame_visualization_internal fuel screen_width screen_height.
End compositor.
