(* ===== verification/VisualUI.v ===== *)
(** * The pipeline visualisation's user interface
    ([kernel/src/pipeline_visualization.rs]).

    A round of the task copies the shared state, moves the animations on, draws
    everything into a back buffer and copies that to the screen.  The back buffer
    is [pixels]: a write outside it is a failure. *)
From Stdlib Require Import SpecFloat.
From S2P Require Import Prelude Font Graphics Writer Visual.
From S2P Require Task Context Timer TimerDevice Sched Main Apps.
Set Default Goal Selector "!".

(** ** Colours and layout *)
Definition COLOR_BACKGROUND : Z := 0x001020.
Definition COLOR_TITLE : Z := 0xFFFF00.
Definition COLOR_QUEUE_BORDER : Z := 0x6060FF.
Definition COLOR_SHADOW_BORDER : Z := 0x60FF60.
Definition COLOR_FB_BORDER : Z := 0xFF6060.
Definition COLOR_TEXT : Z := 0xFFFFFF.
Definition COLOR_HIGHLIGHT : Z := 0x00FFFF.
Definition COLOR_ARROW : Z := 0xFFFF00.
Definition COLOR_COMPOSITOR_BORDER : Z := 0xAA60AA.
Definition TITLE_X : Z := 10.
Definition TITLE_Y : Z := 8.
Definition FB_PANEL_X : Z := 30.
Definition FB_PANEL_Y : Z := 30.
Definition FB_PANEL_WIDTH : Z := MINI_WIDTH + 20.
Definition FB_PANEL_HEIGHT : Z := MINI_HEIGHT + 30.
Definition SHADOW_PANEL_X : Z := 520.
Definition SHADOW_PANEL_Y : Z := 30.
Definition LOWER_AREA_Y : Z := 380.
Definition TASK_BOX_X : Z := 280.
Definition TASK_BOX_Y_START : Z := LOWER_AREA_Y + 10.
Definition TASK_BOX_WIDTH : Z := 180.
Definition TASK_BOX_HEIGHT : Z := 55.
Definition TASK_BOX_SPACING : Z := 65.
Definition BUFFER_INNER_X : Z := 5.
Definition BUFFER_INNER_Y : Z := 18.
Definition BUFFER_INNER_WIDTH : Z := 170.
Definition BUFFER_INNER_HEIGHT : Z := 30.
Definition COMPOSITOR_X : Z := 620.
Definition COMPOSITOR_Y : Z := LOWER_AREA_Y + 5.
Definition COMPOSITOR_WIDTH : Z := 220.
Definition COMPOSITOR_HEIGHT : Z := 130.
Definition COMP_BUFFER_X : Z := 10.
Definition COMP_BUFFER_Y : Z := 35.
Definition COMP_BUFFER_WIDTH : Z := 200.
Definition COMP_BUFFER_HEIGHT : Z := 35.
Definition STEP_INFO_X : Z := 50.
Definition STEP_INFO_Y : Z := 700.

Abbreviation text := Apps.text.
Definition len (s : list Z) : Z := Z.of_nat (length s).
(** The first byte of a command's name. *)
Definition initial (ty : string) : Z := match text ty with ch :: _ => ch | [] => 63 end.
Definition is_rendering (p : PipelinePhase) : bool := match p with Rendering => true | _ => false end.
Definition is_blit (p : PipelinePhase) : bool := match p with Blit => true | _ => false end.

(** ** The parts of the picture *)
Definition draw_panel_with_mini (fb_width fb_height x y : Z) (label : list Z) (border_color : Z) (mini : MiniBuffer) (highlight : bool) : M pixels unit :=
  let color := if highlight then COLOR_HIGHLIGHT else border_color in
  let panel_width := mwidth mini + 20 in
  let panel_height := mheight mini + 30 in
  draw_rect_outline fb_width x y panel_width panel_height color ;;
  d ← lift (csub panel_width (len label * 8));
  let label_x := x + d / 2 in
  draw_string fb_width label_x (y + 5) label COLOR_TEXT ;;
  let mini_x := x + (panel_width - mwidth mini) / 2 in
  blit_to_fb mini fb_width fb_height mini_x (y + 22).

Definition phase_text (p : PipelinePhase) : list Z :=
  match p with Idle => text "Idle" | Snapshot => text "Snapshot" | Rendering => text "RENDER" | Blit => text "Blit" end.
(** The block of command [j] in the compositor's box. *)
Definition draw_compositor_command (fb_width cmd_start_x cmd_y : Z) (info : BufferQueueInfo) (j : nat) : M pixels unit :=
  let cmd_block_w := 32 in
  let cmd_block_h := 18 in
  let cmd_x := cmd_start_x + Z.of_nat j * (cmd_block_w + 4) in
  slot ← lift (compositor_commands info !! j);
  match slot with
  | Some ty =>
      let is_processed := Z.of_nat j <? processed_count info in
      let is_current := Z.of_nat j =? processed_count info in
      let block_color := if is_processed then 0x303030 else if is_current then 0x60A060 else 0x404080 in
      let text_color := if is_processed then 0x606060 else COLOR_TEXT in
      draw_rect fb_width cmd_x cmd_y cmd_block_w cmd_block_h block_color ;;
      draw_char fb_width (cmd_x + 12) (cmd_y + 5) (initial ty) text_color ;;
      if is_current then draw_char fb_width (cmd_x + 2) (cmd_y + 5) 62 COLOR_HIGHLIGHT
      else if is_processed then draw_char fb_width (cmd_x + 2) (cmd_y + 5) 42 0x505050
      else mret tt
  | None => draw_rect_outline fb_width cmd_x cmd_y cmd_block_w cmd_block_h 0x303030
  end.
Definition draw_compositor_indicator (fb_width x y : Z) (phase : PipelinePhase) (queues : list BufferQueueInfo) (buffer_count : nat) (copy_in_progress : bool) : M pixels unit :=
  let highlight := is_rendering phase in
  let color := if highlight then COLOR_HIGHLIGHT else COLOR_COMPOSITOR_BORDER in
  draw_rect_outline fb_width x y COMPOSITOR_WIDTH COMPOSITOR_HEIGHT color ;;
  let label := text "Compositor" in
  let label_x := x + (COMPOSITOR_WIDTH - len label * 8) / 2 in
  draw_string fb_width label_x (y + 5) label COLOR_TEXT ;;
  let phase_x := x + (COMPOSITOR_WIDTH - len (phase_text phase) * 8) / 2 in
  draw_string fb_width phase_x (y + 18) (phase_text phase) (if highlight then COLOR_HIGHLIGHT else COLOR_TEXT) ;;
  let buf_x := x + COMP_BUFFER_X in
  let buf_y := y + COMP_BUFFER_Y in
  draw_rect_outline fb_width buf_x buf_y COMP_BUFFER_WIDTH COMP_BUFFER_HEIGHT (if highlight then COLOR_QUEUE_BORDER else 0x404040) ;;
  (if copy_in_progress then draw_string fb_width (buf_x + 50) (buf_y + 12) (text "(copying...)") COLOR_HIGHLIGHT
   else
     match list_find (λ q, is_processing q = true) (take (Nat.min buffer_count 4) queues) with
     | Some (_, info) =>
         let progress_text := text "< " ++ text (name info) ++ text " (" ++ Apps.dec (processed_count info) ++ text "/" ++ Apps.dec (total_commands info) ++ text ")" in
         draw_string fb_width (buf_x + 3) (buf_y + 3) progress_text 0x808080 ;;
         for_each (seq 0 5) (draw_compositor_command fb_width (buf_x + 5) (buf_y + 14) info)
     | None => draw_string fb_width (buf_x + 50) (buf_y + 12) (text "(empty)") 0x606060
     end) ;;
  let arrow_x := x + COMPOSITOR_WIDTH / 2 - 20 in
  draw_string fb_width arrow_x (y + COMP_BUFFER_Y + COMP_BUFFER_HEIGHT + 8) (text "-> Shadow") 0x808080.

Definition draw_flow_arrows (fb_width : Z) (current_phase : PipelinePhase) : M pixels unit :=
  let comp_to_shadow_x := COMPOSITOR_X + COMPOSITOR_WIDTH / 2 in
  let comp_to_shadow_y_start := COMPOSITOR_Y - 5 in
  let comp_to_shadow_y_end := FB_PANEL_Y + FB_PANEL_HEIGHT + 10 in
  let arrow_height := comp_to_shadow_y_start - comp_to_shadow_y_end in
  let comp_color := if is_rendering current_phase then COLOR_HIGHLIGHT else COLOR_ARROW in
  draw_rect fb_width comp_to_shadow_x comp_to_shadow_y_end 2 arrow_height comp_color ;;
  draw_char fb_width (comp_to_shadow_x - 3) (comp_to_shadow_y_end - 8) 94 comp_color ;;
  let shadow_to_fb_x := FB_PANEL_X + FB_PANEL_WIDTH + 5 in
  let shadow_to_fb_y := FB_PANEL_Y + FB_PANEL_HEIGHT / 2 in
  let arrow_width := SHADOW_PANEL_X - shadow_to_fb_x - 5 in
  let blit_color := if is_blit current_phase then COLOR_HIGHLIGHT else COLOR_ARROW in
  draw_rect fb_width shadow_to_fb_x shadow_to_fb_y arrow_width 2 blit_color ;;
  draw_char fb_width (shadow_to_fb_x - 8) (shadow_to_fb_y - 3) 60 blit_color.

(** A point of the way from [a] to [b]. *)
Definition between (a b : Z) (p : f32) : f32 := fadd (f32_of a) (fmul (fsub (f32_of b) (f32_of a)) p).
Definition draw_blit_animation (fb_width : Z) (a : BlitAnimation) : M pixels unit :=
  let shadow_mini_x := SHADOW_PANEL_X + 10 in
  let shadow_mini_y := SHADOW_PANEL_Y + 22 in
  let fb_mini_x := FB_PANEL_X + 10 in
  let fb_mini_y := FB_PANEL_Y + 22 in
  let current_x := between (shadow_mini_x + dirty_x a) (fb_mini_x + dirty_x a) (progress a) in
  let current_y := between (shadow_mini_y + dirty_y a) (fb_mini_y + dirty_y a) (progress a) in
  let color := 0xFFFF00 in
  let outer_x := Z.max (as_isize current_x - 3) 0 in
  let outer_y := Z.max (as_isize current_y - 3) 0 in
  draw_rect_outline fb_width outer_x outer_y (dirty_w a + 6) (dirty_h a + 6) color ;;
  let inner_x := Z.max (as_isize current_x - 1) 0 in
  let inner_y := Z.max (as_isize current_y - 1) 0 in
  draw_rect_outline fb_width inner_x inner_y (dirty_w a + 2) (dirty_h a + 2) color.

Definition draw_default_box (fb_width : Z) (i : nat) (nm : list Z) : M pixels unit :=
  let y := TASK_BOX_Y_START + Z.of_nat i * TASK_BOX_SPACING in
  draw_rect_outline fb_width TASK_BOX_X y TASK_BOX_WIDTH TASK_BOX_HEIGHT COLOR_TEXT ;;
  draw_string fb_width (TASK_BOX_X + 5) (y + 3) nm COLOR_TEXT ;;
  draw_rect_outline fb_width (TASK_BOX_X + BUFFER_INNER_X) (y + BUFFER_INNER_Y) BUFFER_INNER_WIDTH BUFFER_INNER_HEIGHT 0x606060 ;;
  draw_string fb_width (TASK_BOX_X + BUFFER_INNER_X + 3) (y + BUFFER_INNER_Y + 10) (text "Buffer") 0x808080.
Definition draw_task_command (fb_width cmd_start_x cmd_y : Z) (info : BufferQueueInfo) (j : nat) : M pixels unit :=
  let cmd_block_width := 28 in
  let cmd_block_height := 18 in
  let cmd_x := cmd_start_x + Z.of_nat j * (cmd_block_width + 3) in
  slot ← lift (command_types info !! j);
  match slot with
  | Some ty =>
      draw_rect fb_width cmd_x cmd_y cmd_block_width cmd_block_height 0x404080 ;;
      draw_char fb_width (cmd_x + 10) (cmd_y + 5) (initial ty) COLOR_TEXT
  | None => draw_rect_outline fb_width cmd_x cmd_y cmd_block_width cmd_block_height 0x303030
  end.
Definition draw_task_box (fb_width : Z) (queues : list BufferQueueInfo) (i : nat) : M pixels unit :=
  info ← lift (queues !! i);
  let y := TASK_BOX_Y_START + Z.of_nat i * TASK_BOX_SPACING in
  let task_border_color := if is_processing info then COLOR_HIGHLIGHT else COLOR_TEXT in
  let buffer_border_color := if 0 <? pending_commands info then COLOR_QUEUE_BORDER else 0x404040 in
  draw_rect_outline fb_width TASK_BOX_X y TASK_BOX_WIDTH TASK_BOX_HEIGHT task_border_color ;;
  draw_string fb_width (TASK_BOX_X + 5) (y + 3) (text (name info)) COLOR_TEXT ;;
  draw_rect_outline fb_width (TASK_BOX_X + BUFFER_INNER_X) (y + BUFFER_INNER_Y) BUFFER_INNER_WIDTH BUFFER_INNER_HEIGHT buffer_border_color ;;
  for_each (seq 0 5) (draw_task_command fb_width (TASK_BOX_X + BUFFER_INNER_X + 5) (y + BUFFER_INNER_Y + 6) info).
Definition draw_task_boxes_with_queues (fb_width : Z) (queues : list BufferQueueInfo) (buffer_count : nat) : M pixels unit :=
  match Nat.min buffer_count 4 with
  | O => draw_default_box fb_width 0 (text "Task 1") ;; draw_default_box fb_width 1 (text "Task 2") ;; draw_default_box fb_width 2 (text "Task 3")
  | count => for_each (seq 0 count) (draw_task_box fb_width queues)
  end.

Definition draw_buffer_copy_animation (fb_width : Z) (a : BufferCopyAnimation) : M pixels unit :=
  let idx := source_buffer_index a in
  if (4 <=? idx)%nat then mret tt else
  let task_buf_x := TASK_BOX_X + BUFFER_INNER_X in
  let task_buf_y := TASK_BOX_Y_START + Z.of_nat idx * TASK_BOX_SPACING + BUFFER_INNER_Y in
  let comp_buf_x := COMPOSITOR_X + COMP_BUFFER_X in
  let comp_buf_y := COMPOSITOR_Y + COMP_BUFFER_Y in
  let p := copy_progress a in
  let current_x := between task_buf_x comp_buf_x p in
  let current_y := between task_buf_y comp_buf_y p in
  let current_w := between BUFFER_INNER_WIDTH COMP_BUFFER_WIDTH p in
  let current_h := between BUFFER_INNER_HEIGHT COMP_BUFFER_HEIGHT p in
  let color := 0x40FFFF in
  draw_rect_outline fb_width (as_usize current_x) (as_usize current_y) (as_usize current_w) (as_usize current_h) color ;;
  (if flt (f32_of 8) current_w && flt (f32_of 8) current_h then
     draw_rect_outline fb_width (as_usize current_x + 2) (as_usize current_y + 2) (as_usize (fsub current_w (f32_of 4))) (as_usize (fsub current_h (f32_of 4))) color
   else mret tt) ;;
  let count_text := Apps.dec (copied_commands a) ++ text " cmds" in
  draw_string fb_width (as_usize current_x + 5) (as_usize current_y + as_usize (fsub (fdiv current_h (f32_of 2)) (f32_of 4))) count_text COLOR_TEXT.

(** ** A round of the task *)
Record ui := mkUi {
  local_shadow : MiniBuffer; local_fb : MiniBuffer; local_buffer_queues : list BufferQueueInfo;
  local_blit_anim : option BlitAnimation; local_buffer_copy_anim : option BufferCopyAnimation; back_buffer : pixels }.
Definition ui_new (screen_width screen_height : Z) : ui :=
  mkUi (MiniBuffer_new MINI_WIDTH MINI_HEIGHT) (MiniBuffer_new MINI_WIDTH MINI_HEIGHT) (replicate 4 queue_new) None None (black (screen_width * screen_height)).
(** What the round reads: phase, command, both counts, the number of buffers. *)
Definition snapshot_of (v : MiniVisualizationState) (u : ui) : option (ui * (PipelinePhase * option CommandInfo * Z * Z * nat)) :=
  sh ← mini_blit_to (mini_shadow v) (local_shadow u); fb ← mini_blit_to (mini_fb v) (local_fb u);
  Some (mkUi sh fb (buffer_queues v) (blit_animation v) (buffer_copy_animation v) (back_buffer u),
    (phase v, current_command v, command_count v, frame_count v, buffer_count v)).
Definition debug_name (p : PipelinePhase) : string :=
  match p with Idle => "Idle" | Snapshot => "Snapshot" | Rendering => "Rendering" | Blit => "Blit" end.
Definition draw_ui (screen_width screen_height : Z) (u : ui) (seen : PipelinePhase * option CommandInfo * Z * Z * nat) : M pixels unit :=
  let '(phase, cmd_info, cmd_count, frame_count, buffer_count) := seen in
  draw_rect screen_width 0 0 screen_width screen_height COLOR_BACKGROUND ;;
  draw_string screen_width TITLE_X TITLE_Y (text "Compositor Pipeline Visualization (LIVE)") COLOR_TITLE ;;
  draw_panel_with_mini screen_width screen_height FB_PANEL_X FB_PANEL_Y (text "Frame Buffer") COLOR_FB_BORDER (local_fb u) (is_blit phase) ;;
  draw_panel_with_mini screen_width screen_height SHADOW_PANEL_X SHADOW_PANEL_Y (text "Shadow Buffer") COLOR_SHADOW_BORDER (local_shadow u) (is_rendering phase) ;;
  draw_compositor_indicator screen_width COMPOSITOR_X COMPOSITOR_Y phase (local_buffer_queues u) buffer_count (bool_decide (is_Some (local_buffer_copy_anim u))) ;;
  draw_task_boxes_with_queues screen_width (local_buffer_queues u) buffer_count ;;
  let stats := text "Frame:" ++ Apps.dec frame_count ++ text " Cmds:" ++ Apps.dec cmd_count ++ text " Bufs:" ++ Apps.dec (Z.of_nat buffer_count) ++ text " " ++ text (debug_name phase) in
  draw_string screen_width STEP_INFO_X STEP_INFO_Y stats COLOR_TEXT ;;
  (match cmd_info with
   | Some info =>
       let cmd_text := text "Last: " ++ text (command_type info) ++ text " at (" ++ Apps.dec (region_x info) ++ text ", " ++ Apps.dec (region_y info) ++ text ")" in
       draw_string screen_width STEP_INFO_X (STEP_INFO_Y + 15) cmd_text COLOR_HIGHLIGHT
   | None => mret tt
   end) ;;
  draw_flow_arrows screen_width phase ;;
  (match local_blit_anim u with Some a => draw_blit_animation screen_width a | None => mret tt end) ;;
  match local_buffer_copy_anim u with Some a => draw_buffer_copy_animation screen_width a | None => mret tt end.

(** The statics, the task's own state and the screen. *)
Record stage := mkStage { st_statics : statics; st_ui : ui; st_screen : pixels }.
(** The tick and the copies are one section of the state's lock. *)
Definition ui_round (screen_width screen_height : Z) : M stage unit :=
  zoom st_statics (λ s x, mkStage s (st_ui x) (st_screen x)) ui_tick ;;
  x ← gets (λ x, x);
  seen ← lift (match MINI_VIS_STATE (st_statics x) with
    | Some v => snapshot_of v (st_ui x)
    | None => let u := st_ui x in
        Some (mkUi (local_shadow u) (local_fb u) (local_buffer_queues u) None None (back_buffer u), (Idle, None, 0, 0, 0%nat))
    end);
  let '(u, what) := (seen : ui * (PipelinePhase * option CommandInfo * Z * Z * nat)) in
  b ← lift (r ← draw_ui screen_width screen_height u what (back_buffer u); Some r.2);
  modify (λ x, mkStage (st_statics x) (mkUi (local_shadow u) (local_fb u) (local_buffer_queues u) (local_blit_anim u) (local_buffer_copy_anim u) b) b).

(** ** The tasks of the demonstration

    They run on a desk as the kernel's own tasks do ([Apps]), and on the statics: with the
    feature on, registering a writer and flushing it tell the observer. *)
Record demo (X H : Type) := mkDemo { dm_desk : Apps.desk X H; dm_vs : statics }.
Arguments mkDemo {X H}.
Arguments dm_desk {X H}.
Arguments dm_vs {X H}.
Section demo.
Context {X H : Type} `{!Timer.Heap (Timer.Timer X) H Timer.expires_at}.
Abbreviation dm := (demo X H).
Definition at_desk {A} (m : M (Apps.desk X H) A) : M dm A := zoom dm_desk (λ d x, mkDemo d (dm_vs x)) m.
Definition at_vs {A} (m : M statics A) : M dm A := zoom dm_vs (λ s x, mkDemo (dm_desk x) s) m.
Definition demo_writer (r : Region) (color : Z) : M dm TaskWriter :=
  task_id ← at_desk (Apps.on_kernel (Timer.on_sc Sched.current_task_id));
  buffer ← at_desk (Apps.on_desk (register_writer r));
  at_vs (on_buffer_registered ThePipelineObserver buffer task_id) ;;
  at_desk (Apps.on_desk (TaskWriter_new buffer color)).
(** Nothing to flush, nothing to tell. *)
Definition demo_flushed (t : TaskWriter) : M dm TaskWriter :=
  let nothing := bool_decide (local_commands (commit_pending_text t) = []) in
  t ← at_desk (Apps.flushed t);
  if nothing then mret t else
  id ← at_desk (Apps.on_kernel (Timer.on_sc Sched.current_task_id));
  d ← gets dm_desk;
  e ← lift (buffers (Apps.dk_comp d) !! wbuffer t);
  at_vs (notify_flush id (e : bool * WriterBuffer).2) ;; mret t.
Definition COLORS : list Z := [0xFF5555; 0x55FF55; 0x5555FF; 0xFFFF55; 0xFF55FF; 0x55FFFF].
Definition get_demo_color : M dm Z :=
  tick ← at_desk (Apps.on_kernel Timer.current_tick); lift (COLORS !! Z.to_nat (tick mod 6)).
(** The end of a round: until the compositor has drawn. *)
Definition demo_block : M dm (option (Sched.ctx_ptr * Sched.ctx_ptr)) := at_desk (Apps.on_kernel (Timer.on_sc Sched.block_current_task)).

Definition demo_task1_start : M dm TaskWriter := demo_writer (mkRegion 400 500 350 20) 0xFFFFFFFF.
Definition demo_task1_round (counter : Z) (t : TaskWriter) : M dm (Z * TaskWriter * option (Sched.ctx_ptr * Sched.ctx_ptr)) :=
  c ← get_demo_color;
  let t := clear 0 (set_color c t) in
  tick ← at_desk (Apps.on_kernel Timer.current_tick);
  t ← lift (Apps.write_fmt [text "[Task1] Count:"; Apps.dec counter; text " Tick:"; Apps.dec tick] t);
  t ← demo_flushed t;
  r ← demo_block;
  counter ← lift (cadd 64 counter 1);
  mret (counter, t, r).
Definition demo_task2_start : M dm TaskWriter := demo_writer (mkRegion 400 520 300 20) 0xFFFFFFFF.
Definition demo_task2_round (counter : Z) (t : TaskWriter) : M dm (Z * TaskWriter * option (Sched.ctx_ptr * Sched.ctx_ptr)) :=
  c ← get_demo_color;
  let t := clear 0 (set_color c t) in
  t ← lift (Apps.write_fmt [text "[Task2 Med ] Count: "; Apps.dec counter] t);
  t ← demo_flushed t;
  r ← demo_block;
  counter ← lift (cadd 64 counter 1);
  mret (counter, t, r).
Definition demo_task3_start : M dm TaskWriter := demo_writer (mkRegion 400 540 300 20) 0xFFFFFFFF.
Definition demo_task3_round (counter : Z) (t : TaskWriter) : M dm (Z * TaskWriter * option (Sched.ctx_ptr * Sched.ctx_ptr)) :=
  c ← get_demo_color;
  let t := clear 0 (set_color c t) in
  t ← lift (Apps.write_fmt [text "[Task3 Low ] Count: "; Apps.dec counter] t);
  t ← demo_flushed t;
  r ← demo_block;
  counter ← lift (cadd 64 counter 1);
  mret (counter, t, r).

(** ** How it starts, in place of the kernel's own tasks

    [entry] and [base] are the tasks' entry points and the addresses of their stacks. *)
Definition start_visualization (entry base : Z) : M (statics * Main.system X H) (option (Sched.ctx_ptr * Sched.ctx_ptr)) :=
  zoom fst (λ s x, (s, x.2)) init_visualization_state ;;
  zoom snd (λ y x, (x.1, y)) (Main.spawn (Task.Task_new "VisualizationUI" Task.nice_MIN entry base)) ;;
  zoom snd (λ y x, (x.1, y)) (Main.on_kernel (Timer.on_sc Sched.schedule)).
Definition register_demo_tasks (entry base : nat → Z) : M (Main.system X H) unit :=
  Main.spawn (Task.Task_new "DemoTask1" (Task.nice_DEFAULT - 5) (entry 0%nat) (base 0%nat)) ;;
  Main.spawn (Task.Task_new "DemoTask2" Task.nice_DEFAULT (entry 1%nat) (base 1%nat)) ;;
  Main.spawn (Task.Task_new "DemoTask3" Task.nice_MAX (entry 2%nat) (base 2%nat)).
(** After its first sleep the task takes its buffers, or gives up for good when
    the observer was not told of the screen: then it sleeps a second at a time. *)
Definition ui_start (screen : Z * Z) : M statics (option ui) :=
  base ← fb_base; mret (if base =? 0 then None else Some (ui_new screen.1 screen.2)).
End demo.
