(* ===== verification/VisualProps.v ===== *)
(** * The pipeline visualisation: the theorems.

    Rendering into the miniature, the animations' ends, a frame of the compositor
    among other tasks, and the picture of the user interface. *)
From Stdlib Require Import SpecFloat.
From S2P Require Import Prelude Font Graphics GraphicsSpec GraphicsThms WriterThms GraphicsProps Visual VisualUI.
From S2P Require Apps.
Set Default Goal Selector "!".

(** ** Loops that may be left early *)
Lemma wp_for_break {S} (n : Z) (body : Z → M S bool) (I : Z → S → Prop) (Q : S → Prop) s : 0 ≤ n → I 0 s →
  (∀ i s', 0 ≤ i < n → I i s' → wp (body i) (λ (go_on : bool) s'', if go_on then I (i + 1) s'' else Q s'') s') →
  (∀ s', I n s' → Q s') → wp (for_break (seqZ 0 n) body) (λ _ s', Q s') s.
Proof.
  intros Hn H0 Hstep Hend.
  assert (Hgen : ∀ m k s', 0 ≤ k → k + Z.of_nat m = n → I k s' → wp (for_break (seqZ k (Z.of_nat m)) body) (λ _ s', Q s') s').
  { induction m as [|m IH]; intros k s' Hk Hm HI.
    - cbn. apply wp_ret, Hend. by replace n with k by lia.
    - rewrite seqZ_cons by lia. cbn [for_break]. wp_step. eapply wp_mono; [apply Hstep; [lia|done]|]. intros [|] s'' HI'; [|by apply wp_ret].
      replace (Z.pred (Z.of_nat (Datatypes.S m))) with (Z.of_nat m) by lia. apply IH; [lia|lia|]. by rewrite <-Z.add_1_r. }
  specialize (Hgen (Z.to_nat n) 0 s). rewrite Z2Nat.id in Hgen by done. by apply Hgen.
Qed.

(** ** The miniature *)
Record mini_ok (m : MiniBuffer) : Prop := { mo_full : full (mwidth m) (mheight m) (mbuffer m); mo_dims : 0 < mwidth m < 2 ^ 32 ∧ 0 < mheight m < 2 ^ 32 }.
Definition same_size (m m' : MiniBuffer) : Prop := mwidth m' = mwidth m ∧ mheight m' = mheight m.
(** [m'] is [m] with the rectangle painted. *)
Definition mini_painted (x y w h c : Z) (m m' : MiniBuffer) : Prop :=
  same_size m m' ∧ painted (in_rect (mwidth m) x y w h) c (mbuffer m) (mbuffer m').
Lemma mini_painted_ok x y w h c m m' : mini_ok m → mini_painted x y w h c m m' → mini_ok m'.
Proof.
  intros [Hf Hd] [[Hw Hh] Hp]. split; rewrite Hw, Hh; [|done]. eapply only_full; [by eapply painted_only|done].
Qed.

Lemma mini_row_spec x w py c m : mini_ok m → 0 ≤ x → 0 ≤ w → x + w < 2 ^ 64 → 0 ≤ py < mheight m →
  wp (for_break (seqZ 0 w) (λ dx, px ← lift (cadd 64 x dx); if mwidth m <=? px then mret false else on_mini (put (py * mwidth m + px) c) ;; mret true))
    (λ _ m', mini_painted x py w 1 c m m') m.
Proof.
  intros [Hf [Hd _]] Hx Hw Hxw Hpy.
  apply (wp_for_break w _ (λ k m', same_size m m' ∧ painted (in_rect (mwidth m) x py k 1) c (mbuffer m) (mbuffer m'))).
  - done.
  - split; [done|]. intros i. rewrite decide_False; [done|]. unfold in_rect. lia.
  - intros k m' Hk [[Hw' Hh'] Hp]. wp_step. wp_step; [apply cadd_some; lia|].
    pose proof (only_full _ _ _ _ _ (painted_only _ _ _ _ Hp) Hf) as Hf'.
    destruct (Z.leb_spec (mwidth m) (x + k)).
    + wp_step. split; [done|]. intros i. rewrite (Hp i). apply decide_ext. split; intros [Hi Hs]; (split; [|done]); unfold in_rect in *; pose proof (Z.mod_pos_bound i (mwidth m)); lia.
    + wp_step. unfold on_mini. apply wp_zoom. apply wp_put; [by apply (full_index (mwidth m) (mheight m)); [|lia|]|]. wp_step. split; [done|]. cbn [mbuffer].
      intros i. destruct (decide (py * mwidth m + (x + k) = i)) as [<-|Hne].
      * rewrite lookup_insert_eq. destruct (pixel_index (mwidth m) (x + k) py ltac:(lia)) as [He1 He2].
        rewrite decide_True; [done|]. split; [unfold in_rect; lia|]. by apply (full_index (mwidth m) (mheight m)); [|lia|].
      * rewrite lookup_insert_ne by done. rewrite (Hp i). apply decide_ext. split; intros [Hi Hs]; (split; [|done]); unfold in_rect in *; [lia|].
        assert (i mod mwidth m ≠ x + k); [|lia]. intros He. apply Hne. pose proof (Z.div_mod i (mwidth m) ltac:(lia)). assert (i / mwidth m = py) by lia. nia.
  - done.
Qed.
Lemma mini_draw_rect_spec x y w h c m : mini_ok m → 0 ≤ x → 0 ≤ y → 0 ≤ w → 0 ≤ h → x + w < 2 ^ 64 → y + h < 2 ^ 64 →
  wp (mini_draw_rect x y w h c) (λ _ m', mini_painted x y w h c m m') m.
Proof.
  intros Hok Hx Hy Hw Hh Hxw Hyh. pose proof Hok as [Hf [Hd Hd']]. unfold mini_draw_rect. wp_step. wp_step. unfold id.
  apply (wp_for_break h _ (λ k m', mini_painted x y w k c m m')).
  - done.
  - split; [done|]. intros i. rewrite decide_False; [done|]. unfold in_rect. lia.
  - intros k m' Hk HI. pose proof (mini_painted_ok _ _ _ _ _ _ _ Hok HI) as Hok'. destruct HI as [[Hw' Hh'] Hp]. wp_step. wp_step; [apply cadd_some; lia|].
    destruct (Z.leb_spec (mheight m) (y + k)).
    + wp_step. split; [done|]. intros i. rewrite (Hp i). apply decide_ext. split; intros [Hi Hs]; (split; [|done]); unfold in_rect in *; [lia|].
      apply Hf in Hs. assert (i / mwidth m < mheight m) by (apply Z.div_lt_upper_bound; lia). lia.
    + wp_step. rewrite <-Hw'. eapply wp_mono; [apply (mini_row_spec x w (y + k) c m'); (done || lia)|]. intros [] m'' [[Hw'' Hh''] Hp']. wp_step.
      split; [split; congruence|]. rewrite Hw' in Hp'. eapply painted_trans; [exact Hp|exact Hp'|]. intros i _. unfold in_rect. lia.
  - done.
Qed.

(** ** Commands in the miniature *)
(** The rectangle that stands for a command. *)
Definition scaled (v mini screen : Z) : Z := v * mini / screen.
Definition scaled_rect (mw mh sw sh : Z) (region : Region) (cmd : DrawCommand) : Z * Z * Z * Z :=
  let X v := scaled v mw sw in let Y v := scaled v mh sh in
  match cmd with
  | Clear _ => (X (rx region), Y (ry region), Z.max (X (rwidth region)) 1, Z.max (Y (rheight region)) 1)
  | FillRect x y w h _ => (X (rx region + x), Y (ry region + y), Z.max (X w) 1, Z.max (Y h) 1)
  | DrawString x y text _ => (X (rx region + x), Y (ry region + y), Z.max (X (Z.of_nat (length text) * 8)) 2, 2)
  | DrawChar x y _ _ => (X (rx region + x), Y (ry region + y), 2, 2)
  end.
Definition color_of (cmd : DrawCommand) : Z :=
  match cmd with Clear c => c | FillRect _ _ _ _ c => c | DrawString _ _ _ c => c | DrawChar _ _ _ c => c end.
(** Coordinates that stay in 32 bits. *)
Definition moderate (z : Z) : Prop := 0 ≤ z < 2 ^ 30.
Definition region_small (r : Region) : Prop := moderate (rx r) ∧ moderate (ry r) ∧ moderate (rwidth r) ∧ moderate (rheight r).
Definition cmd_small (cmd : DrawCommand) : Prop :=
  match cmd with
  | Clear _ => True
  | FillRect x y w h _ => moderate x ∧ moderate y ∧ moderate w ∧ moderate h
  | DrawString x y text _ => moderate x ∧ moderate y ∧ Z.of_nat (length text) < 2 ^ 27
  | DrawChar x y _ _ => moderate x ∧ moderate y
  end.
Definition paint_rect (r : Z * Z * Z * Z) (c : Z) (m : MiniBuffer) : MiniBuffer :=
  let '(x, y, w, h) := r in
  mkMini (map_imap (λ i v, Some (if decide (in_rect (mwidth m) x y w h i) then c else v)) (mbuffer m)) (mwidth m) (mheight m).
Definition paint_command (sw sh : Z) (region : Region) (m : MiniBuffer) (cmd : DrawCommand) : MiniBuffer :=
  paint_rect (scaled_rect (mwidth m) (mheight m) sw sh region cmd) (color_of cmd) m.

Lemma painted_paint x y w h c m m' : mini_painted x y w h c m m' → m' = paint_rect (x, y, w, h) c m.
Proof.
  intros [[Hw Hh] Hp]. destruct m' as [b' w' h']. cbn in *. subst. unfold paint_rect. f_equal.
  apply map_eq. intros i. rewrite (Hp i), map_lookup_imap. destruct (mbuffer m !! i) as [v|] eqn:Hv; cbn.
  - destruct (decide (in_rect (mwidth m) x y w h i)) as [Hi|Hi].
    + rewrite decide_True; [done|]. split; [done|]. eauto.
    + rewrite decide_False; [done|]. tauto.
  - rewrite decide_False; [done|]. intros [_ [? [=]]].
Qed.
Lemma paint_ok r c m : mini_ok m → mini_ok (paint_rect r c m).
Proof.
  intros [Hf Hd]. destruct r as [[[x y] w] h]. split; [|done]. intros i. cbn. rewrite map_lookup_imap, <-(Hf i).
  destruct (mbuffer m !! i); cbn; split; [eauto|eauto|intros []; done|intros []; done].
Qed.

Lemma scaled_le v mini screen : 0 ≤ v → 0 < mini ≤ screen → 0 ≤ scaled v mini screen ≤ v.
Proof. intros Hv Hm. unfold scaled. split; [apply Z.div_pos; nia|]. apply Z.div_le_upper_bound; nia. Qed.
Lemma scale_some v mini screen : 0 ≤ v < 2 ^ 32 → 0 < mini ≤ screen → mini < 2 ^ 32 → scale v mini screen = Some (scaled v mini screen).
Proof.
  intros Hv Hm Hs. unfold scale. destruct (Z.eqb_spec screen 0); [lia|]. rewrite cmul_some by nia. done.
Qed.
Lemma scale_size_some v mini screen : 0 ≤ v < 2 ^ 32 → 0 < mini ≤ screen → mini < 2 ^ 32 → scale_size v mini screen = Some (Z.max (scaled v mini screen) 1).
Proof. intros. unfold scale_size. by rewrite scale_some. Qed.
(** Where a rectangle may lie for its sums to stay in 32 bits. *)
Definition box_ok (r : Z * Z * Z * Z) : Prop := let '(x, y, w, h) := r in 0 ≤ x < 2 ^ 31 ∧ 0 ≤ y < 2 ^ 31 ∧ 0 ≤ w ∧ 0 ≤ h ∧ x + w < 2 ^ 32 ∧ y + h < 2 ^ 32.
(** A bound operation that succeeds. *)
Ltac wp_op t := wp_step; wp_step; [t|].
Ltac scaled_bounds :=
  repeat match goal with |- context [scaled ?v ?m ?s] =>
    let H := fresh in assert (H : 0 ≤ scaled v m s ≤ v) by (apply scaled_le; lia); revert H; generalize (scaled v m s); intros ? H
  end.
Section fits.
Context (mw mh sw sh : Z).
Definition fits : Prop := 0 < mw ≤ sw ∧ 0 < mh ≤ sh ∧ mw < 2 ^ 32 ∧ mh < 2 ^ 32.
Lemma scaled_rect_box region cmd : fits → region_small region → cmd_small cmd → box_ok (scaled_rect mw mh sw sh region cmd).
Proof.
  intros (Hw & Hh & _) Hr Hc. unfold region_small, moderate in Hr. destruct cmd; unfold cmd_small, moderate in Hc; cbn; scaled_bounds; lia.
Qed.
End fits.
Lemma mini_render_command_spec sw sh region cmd m : mini_ok m → fits (mwidth m) (mheight m) sw sh → region_small region → cmd_small cmd →
  wp (mini_render_command region cmd sw sh) (λ r m', r = scaled_rect (mwidth m) (mheight m) sw sh region cmd ∧ m' = paint_command sw sh region m cmd) m.
Proof.
  intros Hok Hf Hr Hc. pose proof (scaled_rect_box _ _ _ _ region cmd Hf Hr Hc) as Hb. destruct Hf as (Hw & Hh & Hw' & Hh').
  unfold region_small, moderate in Hr. unfold mini_render_command, paint_command. wp_step. wp_step. unfold id.
  destruct cmd as [x y ch color|x y text color|x y w h color|color]; unfold cmd_small, moderate in Hc; cbn [scaled_rect color_of] in *; unfold box_ok in Hb.
  - wp_op ltac:(apply cadd_some; lia). wp_op ltac:(apply cadd_some; lia). do 2 wp_op ltac:(apply scale_some; lia).
    wp_step. eapply wp_mono; [apply mini_draw_rect_spec; (done || lia)|]. intros [] m' Hp. wp_step. unfold wrap; rewrite !Z.mod_small by lia. split; [done|]. by apply painted_paint.
  - wp_op ltac:(apply cadd_some; lia). wp_op ltac:(apply cadd_some; lia). do 2 wp_op ltac:(apply scale_some; lia).
    wp_op ltac:(unfold wrap; rewrite Z.mod_small by lia; apply cmul_some; lia). wp_op ltac:(apply scale_size_some; lia).
    replace (Z.max (Z.max (scaled (Z.of_nat (length text) * 8) (mwidth m) sw) 1) 2) with (Z.max (scaled (Z.of_nat (length text) * 8) (mwidth m) sw) 2) by lia.
    wp_step. eapply wp_mono; [apply mini_draw_rect_spec; (done || lia)|]. intros [] m' Hp. wp_step. unfold wrap; rewrite !Z.mod_small by lia. split; [done|]. by apply painted_paint.
  - wp_op ltac:(apply cadd_some; lia). wp_op ltac:(apply cadd_some; lia). do 2 wp_op ltac:(apply scale_some; lia). do 2 wp_op ltac:(apply scale_size_some; lia).
    wp_step. eapply wp_mono; [apply mini_draw_rect_spec; (done || lia)|]. intros [] m' Hp. wp_step. unfold wrap; rewrite !Z.mod_small by lia. split; [done|]. by apply painted_paint.
  - do 2 wp_op ltac:(apply scale_some; lia). do 2 wp_op ltac:(apply scale_size_some; lia).
    wp_step. eapply wp_mono; [apply mini_draw_rect_spec; (done || lia)|]. intros [] m' Hp. wp_step. unfold wrap; rewrite !Z.mod_small by lia. split; [done|]. by apply painted_paint.
Qed.

(** ** The ends of the animations *)
Definition at_tick (speed : f32) (k : nat) : f32 := Nat.iter k (λ p, fadd p speed) (f32_of 0).
Definition BLIT_TICKS : nat := 13.
Definition COPY_TICKS : nat := 9.
(** Whether the next tick is the last. *)
Lemma blit_end k : (k < BLIT_TICKS)%nat → fle (f32_of 1) (at_tick ANIM_SPEED_BLIT (S k)) = (S k =? BLIT_TICKS)%nat.
Proof. intros H. do 13 (destruct k as [|k]; [vm_compute; reflexivity|]). exfalso. unfold BLIT_TICKS in H. lia. Qed.
Lemma copy_end k : (k < COPY_TICKS)%nat → fle (f32_of 1) (at_tick ANIM_SPEED_BUFFER_COPY (S k)) = (S k =? COPY_TICKS)%nat.
Proof. intros H. do 9 (destruct k as [|k]; [vm_compute; reflexivity|]). exfalso. unfold COPY_TICKS in H. lia. Qed.
(** An animation has [n] ticks to go. *)
Definition copying_at (n : nat) (a : option BufferCopyAnimation) : Prop :=
  match a with None => n = 0%nat | Some a => (0 < n ≤ COPY_TICKS)%nat ∧ copy_progress a = at_tick ANIM_SPEED_BUFFER_COPY (COPY_TICKS - n) end.
Definition blitting_at (n : nat) (a : option BlitAnimation) : Prop :=
  match a with None => n = 0%nat | Some a => (0 < n ≤ BLIT_TICKS)%nat ∧ progress a = at_tick ANIM_SPEED_BLIT (BLIT_TICKS - n) ∧ pending_blit a = true end.

#[local] Opaque at_tick fle fadd f32_of.

(** ** The state in order: [nc] ticks of the copy and [nb] of the transfer to go *)
Definition mini_std (m : MiniBuffer) : Prop := mini_ok m ∧ mwidth m = MINI_WIDTH ∧ mheight m = MINI_HEIGHT.
Record vis_ok (nc nb : nat) (v : MiniVisualizationState) : Prop := {
  vo_shadow : mini_std (mini_shadow v); vo_fb : mini_std (mini_fb v); vo_queues : length (buffer_queues v) = 4%nat;
  vo_copy : copying_at nc (buffer_copy_animation v); vo_blit : blitting_at nb (blit_animation v);
  vo_frames : 0 ≤ frame_count v ∧ frame_count v + match blit_animation v with Some _ => 1 | None => 0 end < 2 ^ 64;
  vo_dirty : match cumulative_dirty v with Some r => box_ok r | None => True end }.
(** What the ticks leave: the transfer alone changes the miniature of the screen,
    when it ends. *)
Record ticked (v v' : MiniVisualizationState) : Prop := {
  tk_shadow : mini_shadow v' = mini_shadow v; tk_dirty : cumulative_dirty v' = cumulative_dirty v;
  tk_commands : command_count v' = command_count v;
  tk_blit : match blit_animation v, blit_animation v' with
    | None, a => a = None ∧ mini_fb v' = mini_fb v ∧ frame_count v' = frame_count v
    | Some _, None => mini_fb v' = mini_shadow v ∧ frame_count v' = frame_count v + 1
    | Some _, Some _ => mini_fb v' = mini_fb v ∧ frame_count v' = frame_count v
    end }.
#[export] Instance ticked_preorder : PreOrder ticked.
Proof.
  split.
  - intros v. split; try done. destruct (blit_animation v); done.
  - intros v1 v2 v3 [S1 D1 C1 B1] [S2 D2 C2 B2]. split; [congruence..|].
    destruct (blit_animation v1), (blit_animation v2), (blit_animation v3); intuition congruence.
Qed.

Lemma mini_blit_std m m' : mini_std m → mini_std m' → mini_blit_to m m' = Some m.
Proof. intros (_ & Hw & Hh) (_ & Hw' & Hh'). unfold mini_blit_to. rewrite Hw', Hh', <-Hw, <-Hh, !Z.eqb_refl. by destruct m. Qed.
Lemma tick_blit_spec nc nb v : vis_ok nc nb v → wp tick_blit (λ b v', vis_ok nc (pred nb) v' ∧ ticked v v' ∧ b = bool_decide (nb = 1%nat)) v.
Proof.
  intros [Hs Hf Hq Hc Hb Hn Hd]. unfold tick_blit. wp_step. wp_step. unfold id. destruct (blit_animation v) as [a|] eqn:Ea.
  - destruct Hb as (Hlt & Hp & Hpb). assert (Hk : (BLIT_TICKS - nb < BLIT_TICKS)%nat) by (unfold BLIT_TICKS; lia). pose proof (blit_end _ Hk) as He.
    rewrite Hp. change (fadd (at_tick _ ?k) _) with (at_tick ANIM_SPEED_BLIT (S k)). rewrite He.
    clear He. destruct (Nat.eqb_spec (S (BLIT_TICKS - nb)) BLIT_TICKS) as [E|E].
    + assert (nb = 1%nat) as -> by lia. rewrite Hpb. wp_step. wp_op ltac:(by apply mini_blit_std). wp_step. wp_step. wp_op ltac:(apply cadd_some; cbn [frame_count set_mini_fb]; lia).
      do 4 wp_step. clear E Hk Hp. split_and!.
      * split; cbn. 1:done. 1: done. 1: done. 1: done. 1: done. 1:lia. done.
      * split; cbn; try done; by rewrite Ea.
      * done.
    + assert (nb ≠ 1%nat) by lia. wp_step. wp_step. wp_step. split_and!; [split; cbn; try done|split; try done; cbn; by rewrite Ea|by rewrite bool_decide_false].
      split_and!; [lia|lia| |done]. f_equal. unfold BLIT_TICKS in *. lia.
  - wp_step. cbn in Hb. subst. split_and!; [split; cbn; try done; by rewrite Ea|done|done].
Qed.
Lemma tick_copy_spec nc nb v : vis_ok nc nb v → wp tick_copy (λ b v', vis_ok (pred nc) nb v' ∧ ticked v v' ∧ b = bool_decide (nc = 1%nat)) v.
Proof.
  intros [Hs Hf Hq Hc Hb Hn Hd]. unfold tick_copy. wp_step. wp_step. unfold id. destruct (buffer_copy_animation v) as [a|] eqn:Ea.
  - destruct Hc as (Hlt & Hp). assert (Hk : (COPY_TICKS - nc < COPY_TICKS)%nat) by (unfold COPY_TICKS; lia). pose proof (copy_end _ Hk) as He.
    rewrite Hp. change (fadd (at_tick _ ?k) _) with (at_tick ANIM_SPEED_BUFFER_COPY (S k)). rewrite He.
    assert (Hset : ∀ c, ticked v (set_copy c v)) by (intros c; split; try done; cbn; by destruct (blit_animation v)).
    clear He. destruct (Nat.eqb_spec (S (COPY_TICKS - nc)) COPY_TICKS) as [E|E]; wp_step; wp_step; wp_step.
    + assert (nc = 1%nat) as -> by lia. split_and!; [by split|apply Hset|done].
    + assert (nc ≠ 1%nat) by lia. split_and!; [split; cbn; try done|apply Hset|by rewrite bool_decide_false].
      split_and!; [lia|lia|]. f_equal. unfold COPY_TICKS in *. lia.
  - wp_step. cbn in Hc. subst. split_and!; [split; cbn; try done; by rewrite Ea|done|done].
Qed.
Lemma tick_animation_spec nc nb v : vis_ok nc nb v →
  wp tick_animation (λ r v', vis_ok (pred nc) (pred nb) v' ∧ ticked v v' ∧ r = (bool_decide (nb = 1%nat), bool_decide (nc = 1%nat))) v.
Proof.
  intros [Hs Hf Hq Hc Hb Hn Hd]. unfold tick_animation. do 2 (wp_step; wp_step). set (v0 := set_flowing _ _).
  assert (H0 : vis_ok nc nb v0) by done. assert (Ht : ticked v v0) by (split; try done; cbn; by destruct (blit_animation v)). clearbody v0.
  wp_step. eapply wp_mono; [by apply tick_blit_spec|]. cbn beta. intros b v1 (H1 & Ht1 & ->).
  wp_step. eapply wp_mono; [by apply tick_copy_spec|]. cbn beta. intros c v2 (H2 & Ht2 & ->). wp_step.
  split_and!; [done|by do 2 (etrans; [eassumption|])|done].
Qed.

(** ** The world in order *)
(** No task is inside a section of one of the two locks. *)
Definition free (s : statics) : Prop := STATE_LOCKED s = false ∧ TRACKING_LOCKED s = false.
Lemma wp_in_state {A} (m : M statics A) Q s : STATE_LOCKED s = false → wp m Q s → wp (in_state m) Q s.
Proof. intros Hf Hm. unfold in_state. do 2 wp_step. by rewrite Hf. Qed.
Lemma wp_in_tracking {A} (m : M statics A) Q s : TRACKING_LOCKED s = false → wp m Q s → wp (in_tracking m) Q s.
Proof. intros Hf Hm. unfold in_tracking. do 2 wp_step. by rewrite Hf. Qed.
Lemma wp_with_state {A} (m : M MiniVisualizationState A) (Q : option A → statics → Prop) s v : MINI_VIS_STATE s = Some v → free s →
  wp m (λ a v', Q (Some a) (set_state (Some v') s)) v → wp (with_state m) Q s.
Proof. intros Hv [Hf _] Hm. apply wp_in_state; [done|]. unfold wp in *. rewrite Hv. by destruct (m v) as [[a v']|]. Qed.
Lemma with_state_inv {A} (m : M MiniVisualizationState A) s r s' v : with_state m s = Some (r, s') → MINI_VIS_STATE s = Some v →
  ∃ a v', m v = Some (a, v') ∧ r = Some a ∧ s' = set_state (Some v') s.
Proof.
  unfold with_state, in_state, mbind, M_bind, gets. intros Hr Hv. destruct (STATE_LOCKED s); [done|]. rewrite Hv in Hr. destruct (m v) as [[a v']|]; [|done].
  injection Hr as <- <-. by exists a, v'.
Qed.
Record statics_ok (nc nb : nat) (s : statics) (v : MiniVisualizationState) : Prop := {
  so_state : MINI_VIS_STATE s = Some v; so_vis : vis_ok nc nb v;
  so_copying : BUFFER_COPY_ANIM_IN_PROGRESS s = negb (nc =? 0)%nat; so_blitting : BLIT_ANIM_IN_PROGRESS s = negb (nb =? 0)%nat;
  so_tracking : length (BUFFER_TRACKING s) = 4%nat; so_free : free s }.
(** More commands than a vector of the kernel can hold. *)
Definition COMMANDS_MAX : Z := 2 ^ 60.
Definition buffer_small (e : bool * WriterBuffer) : Prop :=
  region_small (wregion e.2) ∧ Forall cmd_small (commands e.2) ∧ Z.of_nat (length (commands e.2)) ≤ COMMANDS_MAX.
Definition world_ok (nc nb : nat) (w : world) (v : MiniVisualizationState) : Prop := statics_ok nc nb (vs w) v ∧ Forall buffer_small (shared w).
(** What may happen in a sleep: sections come to their end while nobody is inside
    one, and nobody is inside one when the compositor goes on. *)
Definition event_ok (w : world) (e : event) : Prop :=
  match e with
  | UiRound => free (vs w)
  | Holds _ _ | InState _ | InTracking _ => True
  | Flushes _ i cmds => free (vs w) ∧ Forall cmd_small cmds ∧
      match shared w !! i with Some (_, buf) => Z.of_nat (length (commands buf) + length cmds) ≤ COMMANDS_MAX | None => True end
  | Registers _ region => free (vs w) ∧ region_small region
  end.
Fixpoint events_ok (w : world) (es : list event) : Prop :=
  match es with
  | [] => free (vs w)
  | e :: es => event_ok w e ∧ match run_event e w with Some (_, w') => events_ok w' es | None => True end
  end.
Definition freed (w : world) : world := mkWorld (set_locks false false (vs w)) (shared w) (woken w) (sleeps w).
Lemma freed_free w : free (vs w) → freed w = w.
Proof. unfold freed. intros [H1 H2]. destruct w as [[] ? ? ?]. cbn in *. by subst. Qed.
(** What goes by while the compositor sleeps. *)
Definition meanwhile (w : world) (v : MiniVisualizationState) (w' : world) (v' : MiniVisualizationState) : Prop :=
  ticked v v' ∧ woken w' = woken w ∧ (length (shared w) ≤ length (shared w'))%nat.
Definition quietly (w w' : world) : Prop := shared w' = shared w ∧ BUFFER_TRACKING (vs w') = BUFFER_TRACKING (vs w).

Lemma meanwhile_trans w1 v1 w2 v2 w3 v3 : meanwhile w1 v1 w2 v2 → meanwhile w2 v2 w3 v3 → meanwhile w1 v1 w3 v3.
Proof. intros (T1 & W1 & L1) (T2 & W2 & L2). split_and!; [by etrans|congruence|lia]. Qed.
Lemma quietly_trans w1 w2 w3 : quietly w1 w2 → quietly w2 w3 → quietly w1 w3.
Proof. intros [] []. split; congruence. Qed.
(** What leaves the animations, the miniatures and the counts alone. *)
Definition benign {A} (m : M MiniVisualizationState A) : Prop := ∀ nc nb v, vis_ok nc nb v → wp m (λ _ v', vis_ok nc nb v' ∧ ticked v v') v.
Lemma benign_bind {A B} (m : M MiniVisualizationState A) (k : A → M MiniVisualizationState B) : benign m → (∀ a, benign (k a)) → benign (a ← m; k a).
Proof.
  intros Hm Hk nc nb v H. wp_step. eapply wp_mono; [by apply Hm|]. cbn beta. intros a v' [H' Ht].
  eapply wp_mono; [by apply Hk|]. cbn beta. intros b v'' [H'' Ht']. split; [done|]. by etrans.
Qed.
Lemma benign_ret {A} (a : A) : benign (mret a).
Proof. intros nc nb v H. by wp_step. Qed.
Lemma benign_gets {A} (f : MiniVisualizationState → A) : benign (gets f).
Proof. intros nc nb v H. by wp_step. Qed.
Lemma benign_modify f : (∀ v, mini_shadow (f v) = mini_shadow v ∧ mini_fb (f v) = mini_fb v ∧ length (buffer_queues (f v)) = length (buffer_queues v) ∧
  buffer_copy_animation (f v) = buffer_copy_animation v ∧ blit_animation (f v) = blit_animation v ∧ frame_count (f v) = frame_count v ∧
  cumulative_dirty (f v) = cumulative_dirty v ∧ command_count (f v) = command_count v) → benign (modify f).
Proof.
  intros Hf nc nb v []. wp_step. destruct (Hf v) as (E1 & E2 & E3 & E4 & E5 & E6 & E7 & E8).
  split; split; rewrite ?E1, ?E2, ?E3, ?E4, ?E5, ?E6, ?E7, ?E8; try done. by destruct (blit_animation v).
Qed.
Lemma benign_queue i f : benign (update_queue i f).
Proof. apply benign_modify. intros v. cbn. by rewrite length_alter. Qed.
Ltac benign := repeat first
  [ progress intros | apply benign_bind | apply benign_ret | apply benign_gets | apply benign_queue
  | match goal with |- benign (if ?b then _ else _) => destruct b end
  | apply benign_modify; intros; repeat split; (done || (case_match; done)) ].
Lemma with_benign {A} (m : M MiniVisualizationState A) nc nb s v : benign m → statics_ok nc nb s v →
  wp (with_state m) (λ _ s', ∃ v', statics_ok nc nb s' v' ∧ ticked v v' ∧ BUFFER_TRACKING s' = BUFFER_TRACKING s) s.
Proof.
  intros Hm [Hv Hok ????]. eapply wp_with_state; [done|done|]. eapply wp_mono; [by apply Hm|]. cbn beta. intros a v' [Hok' Ht]. by exists v'.
Qed.

Lemma ui_tick_spec nc nb s v : statics_ok nc nb s v → wp ui_tick (λ _ s', ∃ v', statics_ok (pred nc) (pred nb) s' v' ∧ ticked v v' ∧ BUFFER_TRACKING s' = BUFFER_TRACKING s) s.
Proof.
  intros [Hv Hok Hc Hb Ht Hfr]. unfold ui_tick. wp_step. eapply wp_with_state; [done|done|].
  eapply wp_mono; [by apply tick_animation_spec|]. cbn beta. intros r v' (Hok' & Htk & ->). cbv beta iota. wp_step.
  eapply (wp_mono _ (λ _ s', s' = set_state (Some v') (if bool_decide (nb = 1%nat) then set_blitting false s else s))).
  - destruct (bool_decide _); wp_step; done.
  - intros [] ? ->. apply (wp_mono _ (λ _ s', s' = (if bool_decide (nc = 1%nat) then set_copying false else id) (set_state (Some v') (if bool_decide (nb = 1%nat) then set_blitting false s else s)))).
    + destruct (bool_decide (nc = 1%nat)); wp_step; done.
    + intros [] ? ->. exists v'.
      assert (Hn : ∀ n, n ≠ 1%nat → negb (n =? 0)%nat = negb (pred n =? 0)%nat) by (by intros [|[|]]).
      destruct (bool_decide_reflect (nb = 1%nat)), (bool_decide_reflect (nc = 1%nat)); subst; (split_and!; [split; cbn; try done|done|done]); rewrite ?Hc, ?Hb; by apply Hn.
Qed.

Lemma notify_flush_spec id buf nc nb s v : statics_ok nc nb s v → wp (notify_flush id buf) (λ _ s', ∃ v', statics_ok nc nb s' v' ∧ ticked v v') s.
Proof.
  intros H. unfold notify_flush. wp_step. apply wp_in_tracking; [apply (so_free _ _ _ _ H)|]. wp_step. destruct (get_buffer_index_for id s) as [i|]; [|by wp_step; exists v].
  cbv zeta. unfold update_buffer_on_flush. wp_step. eapply wp_mono; [apply with_benign; [|done]; benign|].
  cbn beta. intros _ s' (v' & H' & Ht & _). wp_step. by exists v'.
Qed.
Lemma registered_spec i id nc nb s v : statics_ok nc nb s v →
  wp (on_buffer_registered ThePipelineObserver i id) (λ _ s', ∃ v', statics_ok nc nb s' v' ∧ ticked v v') s.
Proof.
  intros H. cbn [on_buffer_registered Pipeline_observer]. wp_step.
  apply (wp_mono _ (λ _ s', statics_ok nc nb s' v)).
  - destruct (i <? 4)%nat; [|by wp_step]. apply wp_in_tracking; [apply (so_free _ _ _ _ H)|]. do 3 wp_step. destruct H as [???? Htr Hfr]. case_match; (split; [done..| |done]); cbn; by rewrite length_insert.
  - intros _ s1 H1. wp_step. eapply wp_mono; [apply with_benign; [|done]; benign|].
    cbn beta. intros _ s' (v' & H' & Ht & _). wp_step. by exists v'.
Qed.
Definition is_section (e : event) : bool := match e with InState _ | InTracking _ => false | _ => true end.
Lemma section_spec nc nb w v e : world_ok nc nb w v → event_ok w e → is_section e → wp (run_event e) (λ _ w', ∃ v',
  world_ok (if e is UiRound then pred nc else nc) (if e is UiRound then pred nb else nb) w' v' ∧ meanwhile w v w' v' ∧ (e = UiRound → quietly w w')) w.
Proof.
  intros [Hs Hb] He Hsec. destruct e as [|id i cmds|i b|id region|b|b]; [..|done|done]; cbn [run_event].
  - apply wp_zoom. eapply wp_mono; [by apply ui_tick_spec|]. cbn beta. intros [] s' (v' & H' & Ht & Etr). by exists v'.
  - wp_step. wp_step. destruct (shared w !! i) as [[[|] buf]|] eqn:Hi; try (wp_step; by exists v). wp_step. wp_step.
    apply wp_zoom. eapply wp_mono; [by apply notify_flush_spec|]. cbn beta. intros [] s' (v' & H' & Ht). exists v'.
    split_and!; [|split_and!; [done|done|cbn; by rewrite length_insert]|done]. split; [done|]. cbn.
    apply Forall_insert; [done|]. destruct He as (_ & Hc & Hl). rewrite Hi in Hl. rewrite Forall_lookup in Hb. destruct (Hb _ _ Hi) as (Hr & Hcs & _).
    split_and!; [done| |]; cbn; [by apply Forall_app|]. by rewrite length_app.
  - wp_step. exists v. split_and!; [|split_and!; [done|done|cbn; by rewrite length_alter]|done]. split; [done|]. cbn.
    rewrite Forall_lookup in *. intros j e. destruct (decide (i = j)) as [<-|]; [|rewrite list_lookup_alter_ne by done; apply Hb].
    rewrite list_lookup_alter_eq. intros ([l buf] & Hl & ->)%fmap_Some. by apply (Hb _ _ Hl).
  - do 4 wp_step. apply wp_zoom. eapply wp_mono; [by apply registered_spec|]. cbn beta. intros [] s' (v' & H' & Ht). exists v'.
    split_and!; [|split_and!; [done|done|cbn; rewrite length_app; cbn; lia]|done]. split; [done|]. cbn. apply Forall_app. split; [done|].
    apply Forall_singleton. split_and!; [apply He|by cbn|cbn; unfold COMMANDS_MAX; lia].
Qed.
(** Being inside a section changes nothing but the flags. *)
Lemma vis_event_spec nc nb w v e : world_ok nc nb (freed w) v → event_ok w e → wp (run_event e) (λ _ w', ∃ v',
  world_ok (if e is UiRound then pred nc else nc) (if e is UiRound then pred nb else nb) (freed w') v' ∧ meanwhile w v w' v' ∧ (e = UiRound → quietly w w')) w.
Proof.
  intros Hw He.
  assert (Hsec : is_section e → free (vs w) → wp (run_event e) (λ _ w', ∃ v',
    world_ok (if e is UiRound then pred nc else nc) (if e is UiRound then pred nb else nb) (freed w') v' ∧ meanwhile w v w' v' ∧ (e = UiRound → quietly w w')) w).
  { intros Hsec Hf. rewrite (freed_free _ Hf) in Hw. eapply wp_mono; [by apply section_spec|]. cbn beta. intros _ w' (v' & Hw' & Hr). exists v'.
    by rewrite (freed_free _ (so_free _ _ _ _ (proj1 Hw'))). }
  destruct e as [|id i cmds|i b|id region|b|b].
  - by apply Hsec.
  - by apply Hsec, He.
  - cbn [run_event]. wp_step. pose proof (section_spec _ _ _ _ (Holds i b) Hw I I) as Hh. cbn [run_event] in Hh. apply wp_run in Hh as ([] & w1 & [= <-] & v' & H1 & H2 & _). by exists v'.
  - by apply Hsec, He.
  - cbn [run_event]. apply wp_zoom. wp_step. by exists v.
  - cbn [run_event]. apply wp_zoom. wp_step. by exists v.
Qed.

(** ** Drawing into the miniature *)
Section drawing.
Context (sw sh : Z).
Definition paint_run (m : MiniBuffer) (r : Region * DrawCommand) : MiniBuffer := paint_command sw sh r.1 m r.2.
(** [ran]: the commands drawn, with the regions of their buffers. *)
Record drew (ran : list (Region * DrawCommand)) (v v' : MiniVisualizationState) : Prop := {
  dr_shadow : mini_shadow v' = foldl paint_run (mini_shadow v) ran;
  dr_fb : mini_fb v' = mini_fb v; dr_frames : frame_count v' = frame_count v;
  dr_commands : command_count v' = command_count v + Z.of_nat (length ran);
  dr_dirty : cumulative_dirty v' = None ↔ cumulative_dirty v = None ∧ ran = [] }.
Lemma drew_refl v : drew [] v v.
Proof. split; try done; [cbn; lia|tauto]. Qed.
Lemma drew_trans ran ran' v1 v2 v3 : drew ran v1 v2 → drew ran' v2 v3 → drew (ran ++ ran') v1 v3.
Proof.
  intros [S1 F1 N1 C1 D1] [S2 F2 N2 C2 D2]. split; try congruence.
  - by rewrite S2, S1, foldl_app.
  - rewrite C2, C1, length_app. lia.
  - rewrite D2, D1. split; [intros [[? ->] ->]; done|intros [? [-> ->]%app_nil]; done].
Qed.
Lemma ticked_drew nc v v' : vis_ok nc 0 v → ticked v v' → drew [] v v'.
Proof.
  intros H [S D C B]. pose proof (vo_blit _ _ _ H) as Hb. unfold blitting_at in Hb. destruct (blit_animation v); [lia|]. destruct B as (_ & Bf & Bn).
  split; try done; [cbn; lia|by rewrite D; naive_solver].
Qed.
Lemma expand_dirty_spec x y w h v : box_ok (x, y, w, h) → match cumulative_dirty v with Some r => box_ok r | None => True end →
  wp (expand_dirty x y w h) (λ _ v', ∃ r, box_ok r ∧ v' = set_cumulative (Some r) v) v.
Proof.
  intros Hr Hd. unfold expand_dirty. wp_step. wp_step. unfold id. destruct (cumulative_dirty v) as [[[[cx cy] cw] ch]|].
  - unfold box_ok in *. cbv zeta. do 2 wp_op ltac:(apply cadd_some; lia). do 2 wp_op ltac:(apply cadd_some; lia). wp_step. eexists; split; [|done]. unfold box_ok. lia.
  - wp_step. by eexists.
Qed.
Lemma paint_command_std region cmd m : mini_std m → mini_std (paint_command sw sh region m cmd).
Proof. intros (Hok & Hw & Hh). unfold paint_command. destruct (scaled_rect _ _ _ _ _ _) as [[[x y] w] h]. split; [by apply paint_ok|done]. Qed.
Lemma process_command_spec i k region cmd nc s v : MINI_WIDTH ≤ sw → MINI_HEIGHT ≤ sh → statics_ok nc 0 s v → region_small region → cmd_small cmd →
  command_count v + 1 < 2 ^ 64 → wp (process_command_visualization i k region cmd sw sh) (λ _ s', ∃ v',
    statics_ok nc 0 s' v' ∧ drew [(region, cmd)] v v' ∧ BUFFER_TRACKING s' = BUFFER_TRACKING s) s.
Proof.
  intros Hsw Hsh [Hv [Hs Hf Hq Hc Hb Hn Hd] Hfc Hfb Htr Hfree] Hr Hcmd Hcount. unfold process_command_visualization. wp_step. eapply wp_with_state; [done|done|].
  pose proof Hs as (Hso & Hw & Hh). unfold MINI_WIDTH, MINI_HEIGHT in *.
  do 3 wp_step. apply wp_zoom. cbn [mini_shadow set_phase]. eapply wp_mono; [apply mini_render_command_spec; [done|unfold fits; lia|done|done]|].
  cbn beta. intros _ m [-> ->]. pose proof (scaled_rect_box (mwidth (mini_shadow v)) (mheight (mini_shadow v)) sw sh region cmd ltac:(unfold fits; lia) Hr Hcmd) as Hbox.
  pose proof (paint_command_std region cmd _ Hs) as Hps.
  destruct (scaled_rect _ _ _ _ _ _) as [[[x y] w] h]. wp_step. eapply wp_mono; [by apply expand_dirty_spec|]. cbn beta. intros [] ? (r & Hrok & ->).
  do 4 wp_step. wp_op ltac:(apply cadd_some; cbn; lia). do 2 wp_step. set (v1 := set_command_count _ _).
  assert (H1 : vis_ok nc 0 v1 ∧ drew [(region, cmd)] v v1).
  { split; split; try done. split; [done|intros [_ [=]]]. }
  clearbody v1. destruct H1 as [H1 D1]. eapply (wp_mono _ (λ _ v', vis_ok nc 0 v' ∧ ticked v1 v')).
  - destruct (i <? 4)%nat; [by apply benign_queue|by wp_step].
  - cbn beta. intros _ v' [H' Ht]. wp_step. exists v'. split_and!; [by split| |done]. rewrite <-(app_nil_r [_]). eapply drew_trans; [done|by eapply ticked_drew].
Qed.
End drawing.

(** ** The compositor among the others *)
Definition is_ui (e : event) : bool := match e with UiRound => true | _ => false end.
Definition slept (w : world) : world := mkWorld (vs w) (shared w) (woken w) (S (sleeps w)).
Section among.
Context (others : world → Z → list event).
(** The user interface runs in every sleep; whatever else the others do is in order,
    and no task is inside a section when the compositor goes on. *)
Record fair : Prop := {
  fr_ui : ∀ w ms, existsb is_ui (others w ms) = true;
  fr_ok : ∀ nc nb w v ms, world_ok nc nb w v → events_ok (slept w) (others w ms) }.
Definition quiet : Prop := ∀ w ms, Forall (eq UiRound) (others w ms).

Lemma run_events_spec es : ∀ nc nb w v, world_ok nc nb (freed w) v → events_ok w es → wp (for_each es run_event) (λ _ w', ∃ nc' nb' v',
  (nc' ≤ if existsb is_ui es then pred nc else nc)%nat ∧ (nb' ≤ if existsb is_ui es then pred nb else nb)%nat ∧
  world_ok nc' nb' w' v' ∧ meanwhile w v w' v' ∧ (Forall (eq UiRound) es → quietly w w')) w.
Proof.
  induction es as [|e es IH]; intros nc nb w v H He.
  - cbn [for_each]. wp_step. exists nc, nb, v. rewrite (freed_free _ He) in H. by split_and!.
  - destruct He as [He Hes]. cbn [for_each]. wp_step. pose proof (vis_event_spec _ _ _ _ _ H He) as Hr. unfold wp in Hr |- *.
    destruct (run_event e w) as [[[] w1]|]; [|done]. destruct Hr as (v1 & H1 & M1 & Q1).
    pose proof (IH _ _ _ _ H1 Hes) as Hr. unfold wp in Hr. destruct (for_each es run_event w1) as [[[] w2]|]; [|done].
    destruct Hr as (nc2 & nb2 & v2 & Hc & Hb & H2 & M2 & Q2). exists nc2, nb2, v2. split_and!.
    + destruct e; cbn [existsb is_ui orb] in *; destruct (existsb is_ui es); lia.
    + destruct e; cbn [existsb is_ui orb] in *; destruct (existsb is_ui es); lia.
    + done.
    + by eapply meanwhile_trans.
    + intros [Heq HF]%Forall_cons_1. eapply quietly_trans; [by apply Q1; symmetry|by apply Q2].
Qed.
Lemma sleep_ms_spec ms nc nb w v : fair → world_ok nc nb w v → wp (sleep_ms others ms) (λ _ w', ∃ nc' nb' v',
  (nc' ≤ pred nc)%nat ∧ (nb' ≤ pred nb)%nat ∧ world_ok nc' nb' w' v' ∧ meanwhile w v w' v' ∧ (quiet → quietly w w')) w.
Proof.
  intros [Hui Hok] H. unfold sleep_ms. do 4 wp_step. cbn.
  eapply wp_mono; [apply (run_events_spec _ nc nb _ v)|].
  - rewrite freed_free; [done|apply (so_free _ _ _ _ (proj1 H))].
  - by apply Hok with nc nb v.
  - cbn beta. intros [] w' (nc' & nb' & v' & Hc & Hb & H' & M & Q). rewrite Hui in Hc, Hb.
    exists nc', nb', v'. split_and!; try done. intros Hq. apply Q, Hq.
Qed.
(** A wait ends: every poll lets the animation go on by a tick at least. *)
Lemma wait_while_spec (flag : statics → bool) (left : nat → nat → nat) fuel : (∀ nc nb s v, statics_ok nc nb s v → flag s = negb (left nc nb =? 0)%nat) →
  (∀ nc nb nc' nb', (nc' ≤ pred nc)%nat → (nb' ≤ pred nb)%nat → (left nc' nb' ≤ pred (left nc nb))%nat) → fair →
  ∀ nc nb w v, world_ok nc nb w v → (left nc nb < fuel)%nat → wp (wait_while others fuel flag) (λ _ w', ∃ nc' nb' v',
    (nc' ≤ nc)%nat ∧ (nb' ≤ nb)%nat ∧ left nc' nb' = 0%nat ∧ world_ok nc' nb' w' v' ∧ meanwhile w v w' v' ∧ (quiet → quietly w w')) w.
Proof.
  intros Hflag Hleft Hfair. induction fuel as [|fuel IH]; intros nc nb w v H Hlt; [lia|]. cbn [wait_while]. wp_step. wp_step.
  rewrite (Hflag _ _ _ _ (proj1 H)). destruct (Nat.eqb_spec (left nc nb) 0) as [E|E]; cbn [negb].
  - wp_step. exists nc, nb, v. by split_and!.
  - wp_step. eapply wp_mono; [by apply sleep_ms_spec|]. cbn beta. intros [] w1 (nc1 & nb1 & v1 & Hc1 & Hb1 & H1 & M1 & Q1).
    pose proof (Hleft _ _ _ _ Hc1 Hb1). eapply wp_mono; [apply (IH _ _ _ _ H1); lia|]. cbn beta.
    intros [] w2 (nc2 & nb2 & v2 & Hc2 & Hb2 & E2 & H2 & M2 & Q2). exists nc2, nb2, v2. split_and!; [lia|lia|done|done|by eapply meanwhile_trans|].
    intros Hq. by eapply quietly_trans; [apply Q1|apply Q2].
Qed.

Lemma start_processing_spec i n s v : (i < 4)%nat → statics_ok 0 0 s v → wp (start_buffer_processing i n) (λ _ s', ∃ v',
  statics_ok COPY_TICKS 0 s' v' ∧ ticked v v' ∧ BUFFER_TRACKING s' = BUFFER_TRACKING s) s.
Proof.
  intros Hi [Hv Hok Hc Hb Ht Hfree]. unfold start_buffer_processing. do 3 wp_step. eapply wp_with_state; [done|done|].
  rewrite (proj2 (Nat.ltb_lt _ _) Hi). do 3 wp_step. eapply wp_mono; [by eapply benign_queue|]. cbn beta. intros [] v1 [H1 T1].
  unfold start_buffer_copy_animation. wp_step. wp_step. eexists. split_and!; [split; [done| |done..]|etrans; [exact T1|]|done].
  - destruct H1. split; try done. cbn. unfold COPY_TICKS. split; [lia|done].
  - split; try done. cbn. by destruct (blit_animation v1).
Qed.
Lemma copy_done_spec i s v : statics_ok 0 0 s v → wp (complete_buffer_copy i) (λ _ s', ∃ v', statics_ok 0 0 s' v' ∧ ticked v v' ∧ BUFFER_TRACKING s' = BUFFER_TRACKING s) s.
Proof.
  intros H. unfold complete_buffer_copy. wp_step. eapply wp_mono; [apply with_benign; [|done]; benign|]. cbn beta. intros _ s' H'. by wp_step.
Qed.
Lemma processing_done_spec i s v : statics_ok 0 0 s v → wp (complete_buffer_processing i) (λ _ s', ∃ v', statics_ok 0 0 s' v' ∧ ticked v v' ∧ BUFFER_TRACKING s' = BUFFER_TRACKING s) s.
Proof.
  intros H. unfold complete_buffer_processing. wp_step. eapply wp_mono; [apply with_benign; [|done]; benign|]. cbn beta. intros _ s' H'. by wp_step.
Qed.
Lemma owner_spec i s : length (BUFFER_TRACKING s) = 4%nat → free s →
  wp (get_owner_task_id i) (λ o s', s' = s ∧ o = BUFFER_TRACKING s !! i ≫= fst) s.
Proof.
  intros Hl Hfr. unfold get_owner_task_id. destruct (Nat.ltb_spec i 4) as [Hi|Hi].
  - apply wp_in_tracking; [apply Hfr|]. wp_step. wp_step. unfold id. destruct (lookup_lt_is_Some_2 (BUFFER_TRACKING s) i) as [e He]; [lia|]. wp_op ltac:(done). wp_step. by rewrite He.
  - wp_step. by rewrite lookup_ge_None_2 by lia.
Qed.

(** A stretch of the frame in which [ran] is drawn. *)
Context (sw sh : Z) (Hsw : MINI_WIDTH ≤ sw) (Hsh : MINI_HEIGHT ≤ sh) (fuel : nat) (Hfuel : (BLIT_TICKS < fuel)%nat) (Hfair : fair).
Definition stretch (ran : list (Region * DrawCommand)) (w : world) (v : MiniVisualizationState) (w' : world) (v' : MiniVisualizationState) : Prop :=
  drew sw sh ran v v' ∧ woken w' = woken w ∧ (length (shared w) ≤ length (shared w'))%nat ∧ (quiet → quietly w w').
Lemma stretch_trans ran ran' w1 v1 w2 v2 w3 v3 : stretch ran w1 v1 w2 v2 → stretch ran' w2 v2 w3 v3 → stretch (ran ++ ran') w1 v1 w3 v3.
Proof.
  intros (D1 & W1 & L1 & Q1) (D2 & W2 & L2 & Q2). split_and!; [by eapply drew_trans|congruence|lia|]. intros Hq. eapply quietly_trans; [by apply Q1|by apply Q2].
Qed.
Lemma stretch_refl w v : stretch [] w v w v.
Proof. split_and!; [apply drew_refl|done|done|done]. Qed.
Lemma stretch_meanwhile nc w v w' v' : vis_ok nc 0 v → meanwhile w v w' v' → (quiet → quietly w w') → stretch [] w v w' v'.
Proof. intros H (T & W & L) Q. split_and!; try done. by eapply ticked_drew. Qed.
Lemma on_vs_spec {A} (m : M statics A) nc ran w v : world_ok nc 0 w v →
  (∀ s, statics_ok nc 0 s v → wp m (λ _ s', ∃ v', statics_ok nc 0 s' v' ∧ drew sw sh ran v v' ∧ BUFFER_TRACKING s' = BUFFER_TRACKING s) s) →
  wp (on_vs m) (λ _ w', ∃ v', world_ok nc 0 w' v' ∧ stretch ran w v w' v') w.
Proof.
  intros [Hs Hb] Hm. apply wp_zoom. eapply wp_mono; [by apply Hm|]. cbn beta. intros a s' (v' & H' & D & E). exists v'. split; [done|]. by split_and!.
Qed.
Lemma sleep_zero_spec ms w v : world_ok 0 0 w v → wp (sleep_ms others ms) (λ _ w', ∃ v', world_ok 0 0 w' v' ∧ stretch [] w v w' v') w.
Proof.
  intros H. eapply wp_mono; [by apply sleep_ms_spec|]. cbn beta. intros [] w' (nc & nb & v' & Hc & Hb & H' & M & Q).
  assert (nc = 0 ∧ nb = 0)%nat as [-> ->] by lia. exists v'. split; [done|]. eapply stretch_meanwhile; [apply H|done|done].
Qed.
Lemma copy_wait_spec w v : world_ok COPY_TICKS 0 w v → wp (wait_for_buffer_copy_animation others fuel) (λ _ w', ∃ v', world_ok 0 0 w' v' ∧ stretch [] w v w' v') w.
Proof.
  intros H. eapply wp_mono; [eapply (wait_while_spec _ (λ nc _, nc)); [by intros ???? []|lia|done|exact H|unfold BLIT_TICKS, COPY_TICKS in *; lia]|]. cbn beta.
  intros [] w' (nc & nb & v' & Hc & Hb & -> & H' & M & Q). assert (nb = 0%nat) as -> by lia. exists v'. split; [done|]. eapply stretch_meanwhile; [apply H|done|done].
Qed.
Lemma commands_spec i region cmds : region_small region → Forall cmd_small cmds → ∀ k w v, world_ok 0 0 w v → command_count v + Z.of_nat (length cmds) < 2 ^ 64 →
  wp (for_each (zip (seqZ k (Z.of_nat (length cmds))) cmds) (λ '(cmd_idx, cmd),
      on_vs (process_command_visualization i cmd_idx region cmd sw sh) ;; sleep_ms others 500))
    (λ _ w', ∃ v', world_ok 0 0 w' v' ∧ stretch ((region,.) <$> cmds) w v w' v') w.
Proof.
  intros Hr. induction 1 as [|cmd cmds Hc Hcs IH]; intros k w v H Hn.
  - cbn. apply wp_ret. exists v. split; [done|apply stretch_refl].
  - cbn [length] in *. rewrite seqZ_cons by lia. cbn [zip for_each]. cbn [zip_with for_each]. wp_step. wp_step.
    eapply wp_mono; [apply (on_vs_spec _ 0 [(region, cmd)] _ v H); intros s Hs; apply process_command_spec; (done || lia)|].
    cbn beta. intros _ w1 (v1 & H1 & S1). eapply wp_mono; [by apply sleep_zero_spec|]. cbn beta. intros [] w2 (v2 & H2 & S2).
    replace (Z.pred (Z.of_nat (S (length cmds)))) with (Z.of_nat (length cmds)) by lia.
    pose proof (stretch_trans _ _ _ _ _ _ _ _ S1 S2) as S12. rewrite app_nil_r in S12.
    eapply wp_mono; [apply (IH _ _ v2 H2)|].
    + destruct S12 as [D _]. rewrite (dr_commands _ _ _ _ _ D). cbn [length]. lia.
    + cbn beta. intros [] w3 (v3 & H3 & S3). exists v3. split; [done|]. by apply (stretch_trans _ _ _ _ _ _ _ _ S12 S3).
Qed.

(** What is drawn of a buffer, and whom that wakes. *)
Definition run_of (e : bool * WriterBuffer) : list (Region * DrawCommand) := if negb e.1 && dirty e.2 then (wregion e.2,.) <$> commands e.2 else [].
Definition owner_of (t : list (option Z * option nat)) (i : nat) (e : bool * WriterBuffer) : list Z :=
  if negb e.1 && dirty e.2 then match t !! i ≫= fst with Some id => [id] | None => [] end else [].
(** A stretch in which buffer [i], found as [e], has its turn. *)
Definition turn (i : nat) (e : bool * WriterBuffer) (w : world) (v : MiniVisualizationState) (w' : world) (v' : MiniVisualizationState) : Prop :=
  drew sw sh (run_of e) v v' ∧ (length (shared w) ≤ length (shared w'))%nat ∧
  (quiet → shared w' = <[i := after_frame e]> (shared w) ∧ BUFFER_TRACKING (vs w') = BUFFER_TRACKING (vs w) ∧
     woken w' = woken w ++ owner_of (BUFFER_TRACKING (vs w)) i e).
Lemma clear_small e : buffer_small e → buffer_small (false, clear_commands e.2).
Proof. intros (Hr & _). split_and!; [done|by cbn|cbn; unfold COMMANDS_MAX; lia]. Qed.
(** Emptied, unless a preempted task holds the lock by now; then the owner is woken. *)
Lemma turn_end_spec i w v : world_ok 0 0 w v → (i < length (shared w))%nat →
  wp (w ← gets (λ w, w); e ← lift (shared w !! i);
      let '(locked, buf) := (e : bool * WriterBuffer) in
      (if locked then mret tt else modify (λ w, set_shared (<[i := (false, clear_commands buf)]> (shared w)) w)) ;;
      owner ← on_vs (get_owner_task_id i);
      match owner with Some id => modify (λ w, mkWorld (vs w) (shared w) (woken w ++ [id]) (sleeps w)) | None => mret tt end)
    (λ _ w', world_ok 0 0 w' v ∧ vs w' = vs w ∧ length (shared w') = length (shared w) ∧
       ∀ buf, shared w !! i = Some (false, buf) → shared w' = <[i := (false, clear_commands buf)]> (shared w) ∧
         woken w' = woken w ++ match BUFFER_TRACKING (vs w) !! i ≫= fst with Some id => [id] | None => [] end) w.
Proof.
  intros [Hs Hb] Hi. wp_step. wp_step. destruct (lookup_lt_is_Some_2 _ _ Hi) as [[locked buf] He]. wp_op ltac:(done). cbv beta iota. wp_step.
  set (w1 := if locked then w else set_shared (<[i := (false, clear_commands buf)]> (shared w)) w).
  assert (H1 : vs w1 = vs w ∧ woken w1 = woken w ∧ length (shared w1) = length (shared w) ∧ Forall buffer_small (shared w1)).
  { destruct locked; [done|]. split_and!; try done; cbn; [by rewrite length_insert|]. apply Forall_insert; [done|].
    rewrite Forall_lookup in Hb. apply (clear_small (false, buf)), (Hb _ _ He). }
  eapply (wp_mono _ (λ _ w', w' = w1)); [destruct locked; by wp_step|]. intros [] ? ->. destruct H1 as (Ev & Ew & El & HF). wp_step. apply wp_zoom.
  eapply wp_mono; [apply owner_spec; rewrite Ev; apply Hs|]. cbn beta. intros o s' [-> ->]. rewrite Ev.
  destruct (BUFFER_TRACKING (vs w) !! i ≫= fst) as [id|]; wp_step; (split_and!; [by split|done|done|]);
    intros b; rewrite He; intros [= -> ->]; cbn; by rewrite ?app_nil_r.
Qed.
Lemma process_buffer_spec i e w v : (i < 4)%nat → world_ok 0 0 w v → shared w !! i = Some e → command_count v + COMMANDS_MAX < 2 ^ 64 →
  wp (process_buffer others fuel sw sh i) (λ _ w', ∃ v', world_ok 0 0 w' v' ∧ turn i e w v w' v') w.
Proof.
  intros Hi H He Hn. unfold process_buffer. wp_step. wp_step. wp_op ltac:(done). destruct e as [locked buf]. unfold turn, run_of, owner_of, after_frame. cbn [fst snd].
  assert (Hskip : ∃ v', world_ok 0 0 w v' ∧ drew sw sh [] v v' ∧ (length (shared w) ≤ length (shared w))%nat ∧
    (quiet → shared w = <[i := (locked, buf)]> (shared w) ∧ BUFFER_TRACKING (vs w) = BUFFER_TRACKING (vs w) ∧ woken w = woken w ++ [])).
  { exists v. split_and!; [done..|apply drew_refl|done|]. intros _. by rewrite app_nil_r, list_insert_id. }
  destruct locked; [by wp_step|]. cbn [negb andb]. destruct (dirty buf); [|by wp_step]. clear Hskip. cbv zeta.
  pose proof (proj2 H) as Hb. rewrite Forall_lookup in Hb. destruct (Hb _ _ He) as (Hr & Hcs & Hlen). cbn [snd] in *. clear Hb.
  assert (Hi' : (i < length (shared w))%nat) by (by eapply lookup_lt_Some).
  wp_step. apply wp_zoom. eapply wp_mono; [by apply start_processing_spec, H|]. cbn beta. intros [] s1 (v1 & H1 & T1 & E1).
  set (w1 := mkWorld s1 _ _ _). assert (W1 : world_ok COPY_TICKS 0 w1 v1) by (split; [done|apply H]).
  assert (S1 : stretch [] w v w1 v1) by (eapply stretch_meanwhile; [apply H|by split_and!|done]). clearbody w1.
  wp_step. eapply wp_mono; [by apply copy_wait_spec|]. cbn beta. intros [] w2 (v2 & W2 & S2). wp_step.
  eapply wp_mono; [apply (on_vs_spec _ 0 [] _ v2 W2); intros s Hs; eapply wp_mono; [by apply copy_done_spec|]|].
  { cbn beta. intros [] s' (v' & Hs' & T & E). exists v'. split_and!; [done|by eapply ticked_drew; [apply Hs|]|done]. }
  cbn beta. intros [] w3 (v3 & W3 & S3). wp_step. eapply wp_mono; [by apply sleep_zero_spec|]. cbn beta. intros [] w4 (v4 & W4 & S4). wp_step.
  pose proof (stretch_trans _ _ _ _ _ _ _ _ (stretch_trans _ _ _ _ _ _ _ _ S1 S2) (stretch_trans _ _ _ _ _ _ _ _ S3 S4)) as S04. cbn [app] in S04.
  eapply wp_mono; [apply (commands_spec i _ _ Hr Hcs 0 w4 v4 W4)|].
  { destruct S04 as [D _]. rewrite (dr_commands _ _ _ _ _ D). cbn. unfold COMMANDS_MAX in *. lia. }
  cbn beta. intros [] w5 (v5 & W5 & S5). wp_step.
  eapply wp_mono; [apply (on_vs_spec _ 0 [] _ v5 W5); intros s Hs; eapply wp_mono; [by apply processing_done_spec|]|].
  { cbn beta. intros [] s' (v' & Hs' & T & E). exists v'. split_and!; [done|by eapply ticked_drew; [apply Hs|]|done]. }
  cbn beta. intros [] w6 (v6 & W6 & S6).
  pose proof (stretch_trans _ _ _ _ _ _ _ _ (stretch_trans _ _ _ _ _ _ _ _ S04 S5) S6) as (D & Wk & Lk & Q). rewrite app_nil_r in D. cbn [app] in D.
  eapply wp_mono; [apply (turn_end_spec i w6 v6 W6); lia|]. cbn beta. intros [] w7 (W7 & E7 & L7 & Q7). exists v6. split_and!; [done|done|lia|].
  intros Hq. destruct (Q Hq) as [Es Et]. destruct (Q7 buf) as [E8 E9]; [by rewrite Es|]. rewrite E8, E9, E7, Es, Et, Wk. done.
Qed.

(** The buffers, one after the other; [es]: what each turn found. *)
Definition turns (w : world) (v : MiniVisualizationState) (k : nat) (es : list (bool * WriterBuffer)) (w' : world) (v' : MiniVisualizationState) : Prop :=
  length es = k ∧ world_ok 0 0 w' v' ∧ Forall buffer_small es ∧ drew sw sh (concat (run_of <$> es)) v v' ∧ (length (shared w) ≤ length (shared w'))%nat ∧
  (quiet → es = take k (shared w) ∧ shared w' = (after_frame <$> take k (shared w)) ++ drop k (shared w) ∧
     BUFFER_TRACKING (vs w') = BUFFER_TRACKING (vs w) ∧ woken w' = woken w ++ concat (imap (owner_of (BUFFER_TRACKING (vs w))) es)).
Lemma run_of_bound e : buffer_small e → Z.of_nat (length (run_of e)) ≤ COMMANDS_MAX.
Proof. intros (_ & _ & H). unfold run_of. destruct (negb e.1 && dirty e.2); [by rewrite length_fmap|cbn; unfold COMMANDS_MAX; lia]. Qed.
Lemma runs_bound es : Forall buffer_small es → Z.of_nat (length (concat (run_of <$> es))) ≤ Z.of_nat (length es) * COMMANDS_MAX.
Proof.
  induction 1 as [|e es He _ IH]; cbn; [lia|]. rewrite length_app. pose proof (run_of_bound e He). cbn in IH. lia.
Qed.
Lemma turns_step w v k es w' v' : (k < length (shared w))%nat → (k < 4)%nat → command_count v + 4 * COMMANDS_MAX < 2 ^ 64 → turns w v k es w' v' →
  wp (process_buffer others fuel sw sh k) (λ _ w'', ∃ e v'', turns w v (S k) (es ++ [e]) w'' v'') w'.
Proof.
  intros Hk H4 Hn (Hl & W' & Hes & D & L & Q). destruct (lookup_lt_is_Some_2 (shared w') k) as [e He]; [lia|].
  assert (Hsmall : buffer_small e) by (destruct W' as [_ HF]; rewrite Forall_lookup in HF; by eapply HF).
  eapply wp_mono; [apply (process_buffer_spec k e w' v' H4 W' He)|].
  { rewrite (dr_commands _ _ _ _ _ D). pose proof (runs_bound es Hes). unfold COMMANDS_MAX in *. lia. }
  cbn beta. intros [] w'' (v'' & W'' & D2 & L2 & Q2). exists e, v''. split_and!; [rewrite length_app; cbn; lia|done|by apply Forall_app; split; [|by constructor]| |lia|].
  - rewrite fmap_app, concat_app. cbn. rewrite app_nil_r. by eapply drew_trans.
  - intros Hq. destruct (Q Hq) as (-> & Es & Et & Ew), (Q2 Hq) as (Es2 & Et2 & Ew2). rewrite Et2, Ew2, Es2, Es, Et, Ew.
    assert (Hlk : length (after_frame <$> take k (shared w)) = k) by (rewrite length_fmap, length_take; lia).
    assert (Hle : shared w !! k = Some e) by (rewrite Es, lookup_app_r, Hlk, Nat.sub_diag, lookup_drop, Nat.add_0_r in He by lia; done).
    split_and!; [by rewrite (take_S_r _ _ _ Hle)| |done|].
    + rewrite (take_S_r _ _ _ Hle), fmap_app, <-app_assoc, (drop_S _ _ _ Hle), insert_app_r_alt, Hlk, Nat.sub_diag by lia. done.
    + rewrite imap_app, concat_app, app_assoc, Hl. cbn. by rewrite Nat.add_0_r, app_nil_r.
Qed.
Lemma turns_all w0 v0 : world_ok 0 0 w0 v0 → (length (shared w0) ≤ 4)%nat → command_count v0 + 4 * COMMANDS_MAX < 2 ^ 64 →
  wp (for_each (seq 0 (length (shared w0))) (process_buffer others fuel sw sh)) (λ _ w', ∃ es v', turns w0 v0 (length (shared w0)) es w' v') w0.
Proof.
  intros W0 H4 Hn. eapply wp_mono; [apply (wp_for_each _ (λ dn w', ∃ es v', turns w0 v0 (length dn) es w' v'))|].
  - exists [], v0. split_and!; [done|done|by constructor|apply drew_refl|done|]. intros _. cbn. by rewrite app_nil_r.
  - intros dn i todo w' Heq (es & v' & HT).
    assert (Hi : seq 0 (length (shared w0)) !! length dn = Some i) by (by rewrite Heq, list_lookup_middle).
    apply lookup_seq in Hi as [-> Hlt]. cbn [Nat.add]. eapply wp_mono; [apply (turns_step _ _ _ _ _ _ Hlt ltac:(lia) Hn HT)|].
    cbn beta. intros [] w'' (e & v'' & HT'). exists (es ++ [e]), v''. by rewrite length_app, Nat.add_1_r.
  - intros [] w'. by rewrite length_seq.
Qed.
Lemma start_blit_spec s v : statics_ok 0 0 s v → frame_count v + 1 < 2 ^ 64 → wp start_blit_animation (λ _ s', ∃ v' nb,
  statics_ok 0 nb s' v' ∧ BUFFER_TRACKING s' = BUFFER_TRACKING s ∧ cumulative_dirty v' = None ∧ mini_shadow v' = mini_shadow v ∧ mini_fb v' = mini_fb v ∧
  frame_count v' = frame_count v ∧ command_count v' = command_count v ∧ (is_Some (blit_animation v') ↔ cumulative_dirty v ≠ None)) s.
Proof.
  intros [Hv [Hs Hf Hq Hc Hb Hfr Hd] Hfc Hfb Ht Hfree] Hn. unfold start_blit_animation. wp_step. eapply wp_with_state; [done|done|]. do 2 wp_step.
  pose proof Hb as Hb'. unfold blitting_at in Hb'. destruct (blit_animation v) eqn:Eb; [lia|]. clear Hb'.
  unfold start_blit_animation_from_cumulative. do 3 wp_step. cbn. destruct (cumulative_dirty v) as [[[[x y] w] h]|] eqn:Ed.
  - do 3 wp_step. cbn [blit_animation set_blit]. wp_step. eexists _, BLIT_TICKS. split_and!; [split; [done| |done..]|done..|cbn; split; [done|by eexists]].
    split; try done; cbn. 2: lia. unfold BLIT_TICKS. split_and!; [lia|lia|done|done].
  - wp_step. cbn [blit_animation set_phase]. rewrite Eb. wp_step. eexists _, 0%nat. split_and!; [split; [done| |done..]|done..|cbn; rewrite Eb; split; [by intros []|done]].
    split; cbn; rewrite ?Ed, ?Eb; (done || (cbn; lia)).
Qed.

(** Between frames: nothing to transfer, and the miniatures agree. *)
Definition resting (v : MiniVisualizationState) : Prop := phase v = Idle ∧ cumulative_dirty v = None ∧ mini_fb v = mini_shadow v.
(** The transfer and its wait. *)
Lemma blit_phase_spec w v : world_ok 0 0 w v → frame_count v + 1 < 2 ^ 64 →
  wp (on_vs start_blit_animation) (λ _ w1, wp (wait_for_blit_animation others fuel) (λ _ w2, wp (on_vs set_phase_idle) (λ _ w', ∃ v',
    world_ok 0 0 w' v' ∧ phase v' = Idle ∧ cumulative_dirty v' = None ∧ mini_shadow v' = mini_shadow v ∧ command_count v' = command_count v ∧
    match cumulative_dirty v with
    | Some _ => mini_fb v' = mini_shadow v ∧ frame_count v' = frame_count v + 1
    | None => mini_fb v' = mini_fb v ∧ frame_count v' = frame_count v
    end ∧ (length (shared w) ≤ length (shared w'))%nat ∧ woken w' = woken w ∧ (quiet → shared w' = shared w)) w2) w1) w.
Proof.
  intros [Hs HF] Hn. apply wp_zoom. eapply wp_mono; [by apply start_blit_spec|]. cbn beta.
  intros [] s1 (v1 & nb & H1 & E1 & D1 & Sh1 & Fb1 & N1 & C1 & B1).
  set (w1 := mkWorld s1 _ _ _). assert (W1 : world_ok 0 nb w1 v1) by done.
  eapply wp_mono; [eapply (wait_while_spec _ (λ _ nb, nb)); [by intros ???? []|lia|done|exact W1|]|].
  { pose proof (vo_blit _ _ _ (so_vis _ _ _ _ H1)) as Hb. unfold blitting_at in Hb. destruct (blit_animation v1); unfold BLIT_TICKS in *; lia. }
  cbn beta. intros [] w2 (nc2 & nb2 & v2 & Hc2 & _ & -> & W2 & ([Sh2 D2 C2 B2] & Wk2 & L2) & Q2). assert (nc2 = 0%nat) as -> by lia.
  unfold set_phase_idle. apply wp_zoom. wp_step. destruct W2 as [[Hv2 Hok2 ????] HF2]. eapply wp_with_state; [done|done|]. do 2 wp_step. exists (set_phase Idle v2).
  assert (Hb2 : blit_animation v2 = None) by (pose proof (vo_blit _ _ _ Hok2) as Hb; unfold blitting_at in Hb; destruct (blit_animation v2); [lia|done]).
  split_and!; [split; [by split; try done; destruct Hok2; split|done]|done|by cbn; rewrite D2|by cbn; congruence|by cbn; congruence| |done|done|].
  - cbn. rewrite Hb2 in B2. destruct (cumulative_dirty v) as [r|], (blit_animation v1) as [a|].
    + destruct B2. split; [congruence|lia].
    + destruct (proj2 B1); [done|done].
    + exfalso. apply (proj1 B1); [by eexists|done].
    + destruct B2 as (_ & ? & ?). split; congruence.
  - intros Hq. by destruct (Q2 Hq).
Qed.
Lemma visualised_frame_run w v : world_ok 0 0 w v → resting v → (length (shared w) ≤ 4)%nat → command_count v + 4 * COMMANDS_MAX < 2 ^ 64 → frame_count v + 1 < 2 ^ 64 →
  wp (process_frame_if_visualization others fuel sw sh) (λ r w', ∃ v' es, r = true ∧ world_ok 0 0 w' v' ∧ resting v' ∧ length es = length (shared w) ∧
    let ran := concat (run_of <$> es) in
    mini_shadow v' = foldl (paint_run sw sh) (mini_shadow v) ran ∧ command_count v' = command_count v + Z.of_nat (length ran) ∧
    frame_count v' = frame_count v + (if ran is [] then 0 else 1) ∧
    (quiet → es = shared w ∧ shared w' = after_frame <$> shared w ∧
       woken w' = woken w ++ concat (imap (owner_of (BUFFER_TRACKING (vs w))) (shared w)))) w.
Proof.
  intros W (_ & Hcum & Hfb) H4 Hn Hfr. unfold process_frame_if_visualization. wp_step. apply wp_zoom. unfold is_visualization_mode. apply wp_in_state; [apply (so_free _ _ _ _ (proj1 W))|]. wp_step.
  rewrite (so_state _ _ _ _ (proj1 W)), bool_decide_true by by eexists. cbn [negb]. unfold process_frame_visualization_internal. wp_step. wp_step. wp_step.
  replace (mkWorld _ _ _ _) with w by (by destruct w).
  unfold update_buffer_count. apply wp_zoom. wp_step. eapply wp_mono; [apply with_benign; [benign|apply W]|]. cbn beta. intros _ s1 (v1 & Hs1 & T1 & E1). wp_step.
  pose proof (ticked_drew sw sh _ _ _ (so_vis _ _ _ _ (proj1 W)) T1) as D1. set (w1 := mkWorld s1 _ _ _). assert (W1 : world_ok 0 0 w1 v1) by (by split; [|apply W]).
  wp_step. eapply wp_mono; [apply (turns_all w1 v1 W1 H4)|].
  { rewrite (dr_commands _ _ _ _ _ D1). cbn. lia. }
  cbn beta. intros [] w2 (es & v2 & Hl & W2 & _ & D2 & _ & Q2). pose proof (drew_trans _ _ _ _ _ _ _ D1 D2) as [Sh Fb Nf Cm Cd]. cbn [app] in *.
  assert (Hcd : cumulative_dirty v2 = None ↔ concat (run_of <$> es) = []) by (rewrite Cd; naive_solver).
  wp_step. eapply wp_mono; [apply (blit_phase_spec w2 v2 W2); rewrite Nf, (dr_frames _ _ _ _ _ D1) || idtac; lia|]. cbn beta. intros [] w3 H3.
  wp_step. eapply wp_mono; [exact H3|]. cbn beta. clear w3 H3. intros [] w3 H3. wp_step. eapply wp_mono; [exact H3|]. cbn beta. clear w3 H3.
  intros [] w3 (v3 & W3 & Hp & Hc3 & Sh3 & C3 & B3 & L3 & Wk3 & Q3). wp_step. exists v3, es.
  split; [done|]. split; [done|]. split; [split; [done|split; [done|]]|split; [done|split; [congruence|split; [congruence|split]]]].
  - destruct (cumulative_dirty v2) eqn:E; destruct B3 as [-> _]; [by rewrite Sh3|]. rewrite Fb, Hfb, Sh3, Sh, (proj1 Hcd eq_refl). done.
  - destruct (cumulative_dirty v2) eqn:E; destruct B3 as [_ ->]; rewrite Nf; destruct (concat _); try done; try lia; by destruct Hcd as [Hcd1 Hcd2]; (specialize (Hcd1 eq_refl) || specialize (Hcd2 eq_refl)).
  - intros Hq. destruct (Q2 Hq) as (He & Es & _ & Ew). cbn [shared vs woken w1] in *. rewrite firstn_all in He, Es. rewrite drop_all, app_nil_r in Es.
    rewrite (Q3 Hq), Wk3, Ew, Es, E1, He. done.
Qed.
End among.

(** ** A task inside a section *)
(** Others among which a task is inside a section of the state's lock whenever the
    compositor goes on. *)
Definition switched_inside (others : world → Z → list event) : Prop := ∀ ms w w', sleep_ms others ms w = Some (tt, w') → STATE_LOCKED (vs w') = true.
Lemma wait_inside others fuel flag w w' : switched_inside others → flag (vs w) = true → wait_while others fuel flag w = Some (tt, w') → STATE_LOCKED (vs w') = true.
Proof.
  intros Hin. revert w. induction fuel as [|fuel IH]; intros w Hf; [done|]. cbn [wait_while]. unfold mbind, M_bind, gets. rewrite Hf.
  destruct (sleep_ms others 16 w) as [[[] w1]|] eqn:E; [|done]. apply Hin in E. intros Hr. destruct (flag (vs w1)) eqn:F; [by apply (IH w1)|].
  destruct fuel as [|fuel]; [done|]. cbn [wait_while] in Hr. unfold mbind, M_bind, gets in Hr. rewrite F in Hr. by injection Hr as <-.
Qed.
Lemma with_state_copying {A} (m : M MiniVisualizationState A) s r s' : with_state m s = Some (r, s') → BUFFER_COPY_ANIM_IN_PROGRESS s' = BUFFER_COPY_ANIM_IN_PROGRESS s.
Proof.
  unfold with_state, in_state, mbind, M_bind, gets. destruct (STATE_LOCKED s); [done|]. destruct (MINI_VIS_STATE s) as [v|]; [|by intros [= _ <-]].
  destruct (m v) as [[a v']|]; [by intros [= _ <-]|done].
Qed.
(** The turn of a buffer with commands waits, and then takes the lock. *)
Lemma turn_inside others fuel sw sh i buf w : switched_inside others → shared w !! i = Some (false, buf) → dirty buf = true → process_buffer others fuel sw sh i w = None.
Proof.
  intros Hin He Hd. unfold process_buffer. unfold mbind at 1 2, M_bind at 1 2, gets at 1. rewrite He. cbn [lift]. rewrite Hd. cbv zeta.
  apply fails_next. intros [] w1 H1. assert (Hf : BUFFER_COPY_ANIM_IN_PROGRESS (vs w1) = true).
  { revert H1. unfold on_vs, zoom, start_buffer_processing, mbind, M_bind, modify. destruct (with_state _ _) as [[r s']|] eqn:E; [|done]. intros [= <-]. cbn [vs].
    by rewrite (with_state_copying _ _ _ _ E). }
  apply fails_next. intros [] w2 H2. apply wait_inside in H2; [|done|done]. apply fails_bind.
  unfold complete_buffer_copy, on_vs, zoom, with_state, in_state, mbind, M_bind, gets. by rewrite H2.
Qed.
Lemma turns_inside others fuel sw sh i buf l : ∀ w, switched_inside others → i ∈ l → shared w !! i = Some (false, buf) → dirty buf = true →
  for_each l (process_buffer others fuel sw sh) w = None.
Proof.
  induction l as [|j l IH]; intros w Hin Hl He Hd; [by apply elem_of_nil in Hl|]. cbn [for_each]. apply fails_next. intros [] w1 H1.
  apply elem_of_cons in Hl as [->|Hl]; [by rewrite (turn_inside others fuel sw sh j buf w) in H1|].
  assert (w1 = w) as ->; [|by apply IH]. destruct (shared w !! j) as [[locked b]|] eqn:Hj.
  - destruct (locked || negb (dirty b)) eqn:Hs.
    + revert H1. unfold process_buffer, mbind, M_bind, gets, lift. rewrite Hj. destruct locked; [by intros [= <-]|]. cbn [orb] in Hs. apply negb_true_iff in Hs. rewrite Hs. by intros [= <-].
    + apply orb_false_iff in Hs as [-> Hs]. apply negb_false_iff in Hs. by rewrite (turn_inside others fuel sw sh j b w) in H1.
  - revert H1. unfold process_buffer, mbind, M_bind, gets, lift. by rewrite Hj.
Qed.
Lemma frame_never_ends others fuel sw sh i buf w : switched_inside others → MINI_VIS_STATE (vs w) ≠ None → shared w !! i = Some (false, buf) → dirty buf = true →
  process_frame_if_visualization others fuel sw sh w = None.
Proof.
  intros Hin Hv He Hd. unfold process_frame_if_visualization. apply fails_next. intros on_ w1 H1.
  assert (Hw1 : on_ = true ∧ w1 = w).
  { revert H1. unfold on_vs, zoom, is_visualization_mode, in_state, mbind, M_bind, gets. destruct (STATE_LOCKED (vs w)); [done|]. intros [= <- <-].
    split; [|by destruct w]. apply bool_decide_true. by destruct (MINI_VIS_STATE (vs w)) eqn:E; [eexists|]. }
  destruct Hw1 as [-> ->]. cbn [negb]. unfold process_frame_visualization_internal. apply fails_next. intros n w1 [= <- <-].
  apply fails_next. intros [] w1 H2. assert (Hs : shared w1 = shared w).
  { revert H2. unfold on_vs, zoom. destruct (update_buffer_count _ _) as [[? ?]|]; [|done]. intros E. by injection E as _ <-. }
  apply fails_bind, (turns_inside _ _ _ _ i buf); [done| |by rewrite Hs|done]. apply elem_of_seq. apply lookup_lt_Some in He. lia.
Qed.

(** ** A frame *)
(** C19: a frame of the compositor with the visualisation on, among other tasks that do
    whatever they like as long as the user interface runs in every sleep and no task is
    inside a section of the two spin locks when the compositor goes on: with at most
    four buffers the frame never fails, and every wait ends, after at most thirteen
    polls.  It draws what each buffer held when its turn came into the miniature, in
    order, each command as the rectangle it covers scaled down; it counts them; the
    miniature of the screen then equals the shadow miniature, and everything is ready for
    the next frame.  If the user interface alone runs, it is exactly the buffers of the start
    that are drawn and emptied, and their owners are the tasks that are woken.
    The locks are taken with interrupts on, so a task can be switched away inside a section:
    if that is so whenever the compositor goes on, a frame with a command to show, of a
    buffer nobody holds, never ends, with any number of polls. *)
Theorem visualised_frame_correct others sw sh fuel w v : MINI_WIDTH ≤ sw → MINI_HEIGHT ≤ sh → (BLIT_TICKS < fuel)%nat → fair others →
  world_ok 0 0 w v → resting v → (length (shared w) ≤ 4)%nat → command_count v + 4 * COMMANDS_MAX < 2 ^ 64 → frame_count v + 1 < 2 ^ 64 →
  (∃ w' v' es, process_frame_if_visualization others fuel sw sh w = Some (true, w') ∧ world_ok 0 0 w' v' ∧ resting v' ∧ length es = length (shared w) ∧
    let ran := concat (run_of <$> es) in
    mini_shadow v' = foldl (paint_run sw sh) (mini_shadow v) ran ∧ command_count v' = command_count v + Z.of_nat (length ran) ∧
    frame_count v' = frame_count v + (if ran is [] then 0 else 1) ∧
    (quiet others → es = shared w ∧ shared w' = after_frame <$> shared w ∧
       woken w' = woken w ++ concat (imap (owner_of (BUFFER_TRACKING (vs w))) (shared w)))) ∧
  ∀ others' fuel' i buf, switched_inside others' → shared w !! i = Some (false, buf) → dirty buf = true →
    process_frame_if_visualization others' fuel' sw sh w = None.
Proof.
  intros Hw Hh Hf Hfair W R H4 Hn Hfr. split.
  - destruct (proj1 (wp_run _ _ _) (visualised_frame_run others sw sh Hw Hh fuel Hf Hfair w v W R H4 Hn Hfr)) as (r & w' & E & v' & es & -> & H). by exists w', v', es.
  - intros others' fuel' i buf Hin. apply frame_never_ends; [done|]. by rewrite (so_state _ _ _ _ (proj1 W)).
Qed.

#[local] Opaque black.
(** The user interface alone. *)
Definition only_ui : world → Z → list event := λ _ _, [UiRound].
Lemma only_ui_fair : fair only_ui.
Proof.
  split; [done|]. intros nc nb w v ms H. cbn. split; [apply (so_free _ _ _ _ (proj1 H))|]. pose proof (ui_tick_spec _ _ _ _ (proj1 H)) as Ht.
  apply wp_run in Ht as ([] & s' & E & v' & Hs' & _). unfold on_vs, zoom. cbn [vs slept]. rewrite E. apply (so_free _ _ _ _ Hs').
Qed.
(** The user interface, preempted inside its section at the end of every sleep. *)
Definition ui_inside : world → Z → list event := λ _ _, [InState false; UiRound; InState true].
Lemma ui_switched_inside : switched_inside ui_inside.
Proof.
  intros ms w w'. unfold sleep_ms, ui_inside, mbind, M_bind, gets, modify. cbn [for_each run_event]. unfold mbind, M_bind.
  destruct (on_vs _ _) as [[[] w1]|]; [|done]. destruct (on_vs ui_tick w1) as [[[] w2]|]; [|done]. unfold on_vs, zoom, modify, mret, M_ret. by intros [= <-].
Qed.
Lemma MiniBuffer_new_std : mini_std (MiniBuffer_new MINI_WIDTH MINI_HEIGHT).
Proof. split; [|done]. split; [apply black_full|by cbn; unfold MINI_WIDTH, MINI_HEIGHT]. Qed.
Lemma MiniVisualizationState_new_ok : vis_ok 0 0 MiniVisualizationState_new ∧ resting MiniVisualizationState_new.
Proof. split; [|done]. split; [exact MiniBuffer_new_std|exact MiniBuffer_new_std|done..]. Qed.
Definition demo_statics : statics := set_tracking [(Some 7, Some 0%nat); (Some 9, Some 1%nat); (None, None); (None, None)] (set_state (Some MiniVisualizationState_new) statics_new).
Definition demo_buffer (cmds : list DrawCommand) : bool * WriterBuffer := (false, mkWriter cmds true (mkRegion 400 500 350 20)).
Definition demo_world : world := mkWorld demo_statics [demo_buffer [Clear 0; DrawString 0 0 [72; 105] 255]; (true, mkWriter [Clear 1] true (mkRegion 400 520 300 20))] [] 0.
Lemma demo_world_ok : world_ok 0 0 demo_world MiniVisualizationState_new.
Proof.
  split; [split; [done|apply MiniVisualizationState_new_ok|done..]|]. repeat constructor; cbn; unfold moderate, COMMANDS_MAX; lia.
Qed.
(** One owner is woken: the other buffer was locked. *)
Lemma visualised_frame_correct_witness : (∃ w' v', process_frame_if_visualization only_ui 14 1024 768 demo_world = Some (true, w') ∧
    resting v' ∧ command_count v' = 2 ∧ frame_count v' = 1 ∧ woken w' = [7] ∧
    mini_shadow v' = foldl (paint_run 1024 768) (MiniBuffer_new MINI_WIDTH MINI_HEIGHT) [(mkRegion 400 500 350 20, Clear 0); (mkRegion 400 500 350 20, DrawString 0 0 [72; 105] 255)]) ∧
  ∀ fuel, process_frame_if_visualization ui_inside fuel 1024 768 demo_world = None.
Proof.
  destruct (visualised_frame_correct only_ui 1024 768 14 demo_world MiniVisualizationState_new) as [(w' & v' & es & E & _ & R & _ & S & C & N & Q) Hin].
  - done.
  - done.
  - unfold BLIT_TICKS. lia.
  - apply only_ui_fair.
  - apply demo_world_ok.
  - apply MiniVisualizationState_new_ok.
  - cbn. lia.
  - cbn. unfold COMMANDS_MAX. lia.
  - done.
  - split; [|intros fuel; by apply (Hin ui_inside fuel 0%nat (mkWriter [Clear 0; DrawString 0 0 [72; 105] 255] true (mkRegion 400 500 350 20)) ui_switched_inside)].
    destruct Q as (-> & _ & Wk); [by repeat constructor|]. exists w', v'. split; [exact E|]. split; [exact R|]. split; [exact C|]. split; [exact N|]. split; [exact Wk|exact S].
Defined.

(** ** The fifth buffer *)
(** The copy's flag is up, and there is no copy to bring it down. *)
Definition no_copy (v : MiniVisualizationState) : Prop := buffer_copy_animation v = None.
Definition stuck (s : statics) : Prop := BUFFER_COPY_ANIM_IN_PROGRESS s = true ∧ ∃ v, MINI_VIS_STATE s = Some v ∧ no_copy v.
Lemma no_copy_blit : keeps no_copy tick_blit.
Proof.
  unfold tick_blit. apply keeps_bind; [apply keeps_get|]. intros v. destruct (blit_animation v) as [a|]; [|apply keeps_ret].
  cbv zeta. destruct (fle _ _); (apply keeps_bind; [|intros []; try apply keeps_ret; (apply keeps_bind; [by apply keeps_modify|intros; apply keeps_ret])]); [|by apply keeps_modify].
  destruct (pending_blit a); [|apply keeps_ret]. apply keeps_bind; [apply keeps_lift|]. intros fb. apply keeps_bind; [by apply keeps_modify|]. intros [].
  apply keeps_bind; [apply keeps_lift|]. intros n. by apply keeps_modify.
Qed.
Lemma no_copy_tick v r v' : tick_animation v = Some (r, v') → no_copy v → r.2 = false ∧ no_copy v'.
Proof.
  unfold tick_animation. unfold mbind, M_bind, modify. intros Hr Hv. set (v1 := set_flowing _ _) in Hr. assert (H1 : no_copy v1) by done. clearbody v1.
  destruct (tick_blit v1) as [[b v2]|] eqn:E; [|done]. pose proof (no_copy_blit _ _ _ E H1) as H2. revert Hr. unfold tick_copy, mbind, M_bind, gets, id. rewrite H2.
  intros [= <- <-]. done.
Qed.
Lemma with_state_stuck {A} (m : M MiniVisualizationState A) : keeps no_copy m → keeps stuck (with_state m).
Proof.
  intros Hm s a s' Hs [Hf (v & Hv & Hn)]. apply (with_state_inv _ _ _ _ v) in Hs as (b & v' & E & _ & ->); [|done].
  split; [done|]. exists v'. split; [done|]. by apply (Hm _ _ _ E).
Qed.
Lemma queue_stuck i f : keeps no_copy (update_queue i f).
Proof. by apply keeps_modify. Qed.
Lemma ui_tick_stuck : keeps stuck ui_tick.
Proof.
  intros s [] s'. unfold ui_tick, mbind, M_bind. intros Hs [Hf (v & Hv & Hn)]. destruct (with_state tick_animation s) as [[r s1]|] eqn:Ew; [|done].
  apply (with_state_inv _ _ _ _ v) in Ew as ([b c] & v' & E & -> & ->); [|done].
  apply no_copy_tick in E as [Hc Hn']; [|done]. cbn in Hc. subst c. destruct b; injection Hs as <-; (split; [done|by exists v']).
Qed.
Lemma in_tracking_stuck {A} (m : M statics A) : keeps stuck m → keeps stuck (in_tracking m).
Proof. intros Hm. apply keeps_bind; [apply keeps_get|]. intros s. by destruct (TRACKING_LOCKED s). Qed.
Lemma notify_flush_stuck id buf : keeps stuck (notify_flush id buf).
Proof.
  apply keeps_bind; [apply in_tracking_stuck, keeps_get|]. intros s. destruct (get_buffer_index_for id s) as [i|]; [|apply keeps_ret]. apply keeps_bind; [|intros; apply keeps_ret].
  apply with_state_stuck. destruct (i <? 4)%nat; [|apply keeps_ret]. apply keeps_bind; [apply queue_stuck|]. intros []. apply keeps_modify. intros v Hv. by case_match.
Qed.
Lemma registered_stuck i id : keeps stuck (on_buffer_registered ThePipelineObserver i id).
Proof.
  apply keeps_bind.
  - destruct (i <? 4)%nat; [|apply keeps_ret]. apply in_tracking_stuck, keeps_bind; [by apply keeps_modify|]. intros []. apply keeps_modify. intros s Hs. by case_match.
  - intros []. apply keeps_bind; [|intros; apply keeps_ret]. apply with_state_stuck. destruct (i <? 4)%nat; [|apply keeps_ret].
    apply keeps_bind; [apply queue_stuck|]. intros []. by apply keeps_modify.
Qed.
Lemma on_vs_stuck {A} (m : M statics A) : keeps stuck m → keeps (λ w, stuck (vs w)) (on_vs m).
Proof. intros Hm w a w'. unfold on_vs, zoom. destruct (m (vs w)) as [[b s']|] eqn:E; [|done]. intros [= <- <-] Hw. by apply (Hm _ _ _ E). Qed.
Lemma event_stuck e : keeps (λ w, stuck (vs w)) (run_event e).
Proof.
  destruct e as [|id i cmds|i b|id region|b|b]; cbn [run_event]; try by (apply on_vs_stuck; apply keeps_modify).
  - apply on_vs_stuck, ui_tick_stuck.
  - apply keeps_bind; [apply keeps_get|]. intros w. destruct (shared w !! i) as [[[|] buf]|]; [apply keeps_ret| |apply keeps_ret].
    apply keeps_bind; [by apply keeps_modify|]. intros []. apply on_vs_stuck, notify_flush_stuck.
  - by apply keeps_modify.
  - apply keeps_bind; [apply keeps_get|]. intros w. apply keeps_bind; [by apply keeps_modify|]. intros []. apply on_vs_stuck, registered_stuck.
Qed.
Lemma wait_stuck others fuel w : stuck (vs w) → wait_for_buffer_copy_animation others fuel w = None.
Proof.
  unfold wait_for_buffer_copy_animation. revert w. induction fuel as [|fuel IH]; intros w Hw; [done|]. cbn [wait_while]. unfold mbind, M_bind, gets. rewrite (proj1 Hw).
  destruct (sleep_ms others 16 w) as [[[] w']|] eqn:E; [|done]. apply IH. revert E. unfold sleep_ms, mbind, M_bind, gets, modify.
  intros E. eapply (for_each_keeps (λ w, stuck (vs w))); [|exact E|done]. intros e w1 w2 E1. by apply (event_stuck e _ _ _ E1).
Qed.
(** With the user interface alone the polls themselves never fail. *)
Lemma poll_stuck n : ∀ nb w v, stuck (vs w) → STATE_LOCKED (vs w) = false → MINI_VIS_STATE (vs w) = Some v → vis_ok 0 nb v →
  wp (for_each (replicate n 16) (sleep_ms only_ui)) (λ _ w', BUFFER_COPY_ANIM_IN_PROGRESS (vs w') = true) w.
Proof.
  induction n as [|n IH]; intros nb w v Hw Hl Hv Hok; cbn [replicate for_each]; [wp_step; apply Hw|]. wp_step.
  unfold sleep_ms, only_ui. do 4 wp_step. cbn [for_each run_event]. wp_step. apply wp_zoom. cbn [vs].
  assert (Hs : wp ui_tick (λ _ s', ∃ v', MINI_VIS_STATE s' = Some v' ∧ vis_ok 0 (pred nb) v' ∧ STATE_LOCKED s' = false) (vs w)).
  { unfold ui_tick. wp_step. apply wp_in_state; [done|]. unfold wp at 1. rewrite Hv. pose proof (tick_animation_spec _ _ _ Hok) as Ht. apply wp_run in Ht as (r & v' & E & Hok' & _ & ->). rewrite E. cbv beta iota.
    wp_step. destruct (bool_decide (nb = 1%nat)); repeat wp_step; by exists v'. }
  apply wp_run in Hs as ([] & s' & E & v' & Hv' & Hok' & Hl'). unfold wp. rewrite E. apply wp_ret. apply (IH (pred nb) _ v'); [|done..].
  by apply (ui_tick_stuck _ _ _ E).
Qed.

(** C40: the visualisation cannot show a fifth buffer, and does not survive one: the flag
    that says a copy is running is set before the index is looked at, so with a dirty
    buffer of index four or more the compositor waits for a copy that never starts.
    Whatever the other tasks do, however often it polls, the buffer's turn does not come to an
    end; and with the user interface alone, from a state whose lock is free, no poll
    fails: it polls forever. *)
Theorem fifth_buffer_never_ends sw sh i w buf nb v : (4 ≤ i)%nat → shared w !! i = Some (false, buf) → dirty buf = true →
  MINI_VIS_STATE (vs w) = Some v → vis_ok 0 nb v →
  (∀ others fuel, process_buffer others fuel sw sh i w = None) ∧
  (STATE_LOCKED (vs w) = false → ∀ n, ∃ w', (on_vs (start_buffer_processing i (Z.of_nat (length (commands buf)))) ;; for_each (replicate n 16) (sleep_ms only_ui)) w = Some (tt, w') ∧
    BUFFER_COPY_ANIM_IN_PROGRESS (vs w') = true).
Proof.
  intros Hi He Hd Hv Hok. set (w1 := mkWorld (set_state (Some v) (set_copying true (vs w))) (shared w) (woken w) (sleeps w)).
  assert (E : ∀ n, on_vs (start_buffer_processing i n) w = if STATE_LOCKED (vs w) then None else Some (tt, w1)).
  { intros n. unfold start_buffer_processing. rewrite (proj2 (Nat.ltb_ge _ _) Hi). unfold on_vs, zoom, with_state, in_state, mbind, M_bind, gets, modify. cbn.
    destruct (STATE_LOCKED (vs w)); [done|]. cbn. by rewrite Hv. }
  assert (Hs : stuck (vs w1)) by (split; [done|exists v; split; [done|]; apply (vo_copy _ _ _) in Hok; unfold copying_at in Hok; unfold no_copy; destruct (buffer_copy_animation v); [lia|done]]).
  split.
  - intros others fuel. unfold process_buffer. unfold mbind at 1 2, M_bind at 1 2, gets at 1. rewrite He. cbn [lift]. rewrite Hd. cbv zeta.
    unfold mbind at 1, M_bind at 1. rewrite E. destruct (STATE_LOCKED (vs w)); [done|]. unfold mbind at 1, M_bind at 1. by rewrite wait_stuck.
  - intros Hl n. unfold mbind, M_bind. rewrite E, Hl. destruct (proj1 (wp_run _ _ _) (poll_stuck n nb w1 v Hs Hl eq_refl Hok)) as ([] & w' & Hr & Hf). by exists w'.
Qed.
Lemma fifth_buffer_never_ends_witness :
  process_buffer only_ui 1000 1024 768 4 (mkWorld demo_statics (replicate 5 (demo_buffer [Clear 0])) [] 0) = None.
Proof.
  by apply (fifth_buffer_never_ends 1024 768 4 _ (mkWriter [Clear 0] true (mkRegion 400 500 350 20)) 0 MiniVisualizationState_new); [lia|..|apply MiniVisualizationState_new_ok].
Defined.
