(* ===== verification/VisualUIProps.v ===== *)
(** * The pipeline visualisation: the picture of the user interface.

    Every part draws inside the back buffer, whatever the state it shows, and
    leaves the two miniatures as they were copied. *)
From Stdlib Require Import SpecFloat.
From S2P Require Import Prelude Font Graphics GraphicsSpec GraphicsThms Writer Visual VisualUI VisualProps.
From S2P Require Apps.
Set Default Goal Selector "!".
#[local] Opaque fle fadd f32_of fsub fmul fdiv as_usize as_isize.

(** ** Outlines: clipped at the right edge, not at the bottom *)
Lemma put_at_spec w h x y c b : full w h b → w * h < 2 ^ 64 → 0 ≤ x < w → 0 ≤ y < h →
  wp (put_at w x y c) (λ _ b', only (λ i, i = y * w + x) b b') b.
Proof.
  intros Hf Hsz Hx Hy. unfold put_at. rewrite cmul_some by nia. cbn. rewrite cadd_some by nia.
  apply wp_put; [by apply (full_index w h)|]. split.
  - intros i. rewrite lookup_insert_is_Some'. split; [intros [<-|?]; [by apply (full_index w h)|done]|by right].
  - intros i Hi. by rewrite lookup_insert_ne.
Qed.
Lemma at_pixel w x y col row i : 0 ≤ col < w → x ≤ col → y ≤ row → i = row * w + col → ∀ rw rh, col < x + rw → row < y + rh → in_rect w x y rw rh i.
Proof. intros Hc Hx Hy -> rw rh ??. destruct (pixel_index w col row Hc) as [E1 E2]. unfold in_rect. lia. Qed.
Lemma draw_rect_outline_spec w h x y rw rh c b : full w h b → 0 < w → w * h < 2 ^ 64 → 0 ≤ x → 0 ≤ rw → 0 ≤ y → 0 ≤ rh → y + rh ≤ h →
  wp (draw_rect_outline w x y rw rh c) (λ _ b', only (in_rect w x y rw rh) b b') b.
Proof.
  intros Hf Hw Hsz Hx Hrw Hy Hrh Hfit. unfold draw_rect_outline. destruct ((rw =? 0) || (rh =? 0)) eqn:E0; [by wp_step|]. apply orb_false_iff in E0 as [?%Z.eqb_neq ?%Z.eqb_neq].
  assert (Hput : ∀ col row b1, full w h b1 → x ≤ col < w → col < x + rw → y ≤ row < y + rh → wp (put_at w col row c) (λ _ b', only (in_rect w x y rw rh) b1 b') b1).
  { intros col row b1 Hf1 Hx1 Hx2 Hy1. eapply wp_mono; [apply (put_at_spec w h); (done || lia)|]. cbn beta. intros [] b2. apply only_weaken. intros i Hi.
    eapply at_pixel; [|..|exact Hi|lia|lia]; lia. }
  wp_step. eapply wp_mono; [apply (wp_for_range rw _ (λ k b', only (in_rect w x y rw rh) b b')); [lia|done|]|].
  - intros k b' Hk HI. pose proof (only_full _ _ _ _ _ HI Hf) as Hf'. unfold cadd at 1. destruct (x + k <? 2 ^ 64) eqn:E; [|by wp_step].
    destruct (Z.ltb_spec (x + k) w); [|by wp_step]. wp_step. eapply wp_mono; [apply (Hput _ _ _ Hf'); lia|]. cbn beta. intros [] b1 Hb1.
    pose proof (only_trans _ _ _ _ HI Hb1) as HI1. rewrite cadd_some by nia. eapply wp_mono; [apply (Hput _ _ _ (only_full _ _ _ _ _ HI1 Hf)); lia|].
    cbn beta. intros [] b2 Hb2. by eapply only_trans.
  - cbn beta. intros [] b1 Hb1. eapply wp_mono; [apply (wp_for_range rh _ (λ k b', only (in_rect w x y rw rh) b b')); [lia|done|]|done].
    intros k b' Hk HI. pose proof (only_full _ _ _ _ _ HI Hf) as Hf'. rewrite (cadd_some 64 y k) by nia. wp_step.
    eapply (wp_mono _ (λ _ b', only (in_rect w x y rw rh) b b')).
    + destruct (Z.ltb_spec x w); [|by wp_step]. eapply wp_mono; [apply (Hput _ _ _ Hf'); lia|]. cbn beta. intros [] b2 Hb2. by eapply only_trans.
    + cbn beta. intros [] b2 Hb2. unfold cadd at 1. destruct (x + (rw - 1) <? 2 ^ 64) eqn:E; [|by wp_step]. destruct (Z.ltb_spec (x + (rw - 1)) w); [|by wp_step].
      eapply wp_mono; [apply (Hput _ _ _ (only_full _ _ _ _ _ Hb2 Hf)); lia|]. cbn beta. intros [] b3 Hb3. by eapply only_trans.
Qed.

(** ** A miniature on the picture *)
(** [b'] is [b] with the pixels of [f] where [P] holds. *)
Definition copied (P : Z → Prop) `{∀ i, Decision (P i)} (f : Z → option Z) (b b' : pixels) : Prop :=
  ∀ i, b' !! i = if decide (P i ∧ is_Some (b !! i)) then f i else b !! i.
Definition mini_pixel (mini : MiniBuffer) (w dx dy i : Z) : option Z := mbuffer mini !! ((i / w - dy) * mwidth mini + (i mod w - dx)).
Lemma mini_pixel_some mini w dx dy i : mini_ok mini → in_rect w dx dy (mwidth mini) (mheight mini) i → is_Some (mini_pixel mini w dx dy i).
Proof. intros [Hf _] [Hx Hy]. apply (full_index (mwidth mini) (mheight mini)); [done|lia|lia]. Qed.
Lemma copied_only P `{∀ i, Decision (P i)} f b b' : (∀ i, P i → is_Some (f i)) → copied P f b b' → only P b b'.
Proof.
  intros Hs Hc. split; intros i.
  - rewrite (Hc i). case_decide as E; [|done]. split; [by destruct E|intros _; apply Hs; by destruct E].
  - intros Hn. rewrite (Hc i). rewrite decide_False; [done|]. tauto.
Qed.
Lemma copied_ext P P' `{∀ i, Decision (P i)} `{∀ i, Decision (P' i)} f b b' : (∀ i, is_Some (b !! i) → (P i ↔ P' i)) → copied P f b b' → copied P' f b b'.
Proof. intros HP Hc i. rewrite (Hc i). specialize (HP i). apply decide_ext. tauto. Qed.
Lemma copied_put P P' `{∀ i, Decision (P i)} `{∀ i, Decision (P' i)} f b b' j v : copied P f b b' → is_Some (b !! j) → f j = Some v →
  (∀ i, is_Some (b !! i) → (P' i ↔ P i ∨ i = j)) → copied P' f b (<[j := v]> b').
Proof.
  intros Hc Hj Hv HP i. destruct (decide (j = i)) as [<-|Hne].
  - rewrite lookup_insert_eq, decide_True; [done|]. split; [|done]. apply HP; [done|by right].
  - rewrite lookup_insert_ne by done. rewrite (Hc i). apply decide_ext. specialize (HP i). naive_solver.
Qed.
Lemma copied_trans P1 P2 P3 `{∀ i, Decision (P1 i)} `{∀ i, Decision (P2 i)} `{∀ i, Decision (P3 i)} f b b' b'' :
  (∀ i, P1 i → is_Some (f i)) → copied P1 f b b' → copied P2 f b' b'' → (∀ i, is_Some (b !! i) → (P3 i ↔ P1 i ∨ P2 i)) → copied P3 f b b''.
Proof.
  intros Hs Hc1 Hc2 HP i. pose proof (proj1 (copied_only _ _ _ _ Hs Hc1) i) as Hi. specialize (HP i). rewrite (Hc2 i).
  destruct (decide (P2 i ∧ is_Some (b' !! i))) as [E|E].
  - symmetry. apply decide_True. tauto.
  - rewrite (Hc1 i). apply decide_ext. tauto.
Qed.
Section blit.
Context (mini : MiniBuffer) (w h dx dy : Z) (Hm : mini_ok mini) (Hw : 0 < w) (Hsz : w * h < 2 ^ 64) (Hdx : 0 ≤ dx) (Hdy : 0 ≤ dy).
Abbreviation f := (mini_pixel mini w dx dy).
Lemma blit_row_spec y b : full w h b → 0 ≤ y < mheight mini → dy + y < h →
  wp (for_break (seqZ 0 (mwidth mini)) (λ x, if w <=? dx + x then mret false else
      v ← lift (mbuffer mini !! (y * mwidth mini + x)); put ((dy + y) * w + dx + x) v ;; mret true))
    (λ _ b', copied (in_rect w dx (dy + y) (mwidth mini) 1) f b b') b.
Proof.
  intros Hf Hy Hfit. pose proof (mo_dims _ Hm) as [Hmw _].
  apply (wp_for_break (mwidth mini) _ (λ k b', copied (in_rect w dx (dy + y) k 1) f b b')); [lia| | |done].
  - intros i. rewrite decide_False; [done|]. unfold in_rect. lia.
  - intros k b' Hk HI. destruct (Z.leb_spec w (dx + k)) as [Hle|Hlt].
    + wp_step. eapply copied_ext; [|exact HI]. intros i _. unfold in_rect. pose proof (Z.mod_pos_bound i w Hw). lia.
    + destruct (pixel_index w (dx + k) (dy + y) ltac:(lia)) as [E1 E2]. rewrite Z.add_assoc in E1, E2.
      destruct (full_index (mwidth mini) (mheight mini) (mbuffer mini) y k (mo_full _ Hm) Hk Hy) as [v Hv]. wp_op ltac:(exact Hv). wp_step.
      assert (Hj : is_Some (b !! ((dy + y) * w + dx + k))) by (rewrite <-Z.add_assoc; apply (full_index w h); [done|lia|lia]).
      apply wp_put; [|wp_step; eapply copied_put; [exact HI|exact Hj| |]].
      * rewrite (HI _). case_decide as E; [|done]. apply mini_pixel_some; [done|]. unfold in_rect in *. lia.
      * unfold mini_pixel. rewrite E1, E2. rewrite <-Hv. f_equal. lia.
      * intros i _. unfold in_rect. split; [|intros [?| ->]; [lia|rewrite E1, E2; lia]]. intros Hi. destruct (decide (i mod w = dx + k)) as [E|E]; [|left; lia].
        right. pose proof (Z.div_mod i w ltac:(lia)). assert (i / w = dy + y) by lia. nia.
Qed.
Lemma blit_to_fb_spec b : full w h b → wp (blit_to_fb mini w h dx dy) (λ _ b', copied (in_rect w dx dy (mwidth mini) (mheight mini)) f b b') b.
Proof.
  intros Hf. pose proof (mo_dims _ Hm) as [_ Hmh]. unfold blit_to_fb.
  assert (Hs : ∀ k i, k ≤ mheight mini → in_rect w dx dy (mwidth mini) k i → is_Some (f i)) by (intros k i Hk Hi; apply mini_pixel_some; [done|]; unfold in_rect in *; lia).
  apply (wp_for_break (mheight mini) _ (λ k b', copied (in_rect w dx dy (mwidth mini) k) f b b')); [lia| | |done].
  - intros i. rewrite decide_False; [done|]. unfold in_rect. lia.
  - intros k b' Hk HI. cbv zeta. destruct (Z.leb_spec h (dy + k)) as [Hle|Hlt].
    + wp_step. eapply copied_ext; [|exact HI]. intros i Hi%Hf. unfold in_rect. assert (i / w < h) by (apply Z.div_lt_upper_bound; lia). lia.
    + assert (Hf' : full w h b') by (eapply only_full; [eapply copied_only; [|exact HI]; intros i; apply (Hs k); lia|done]).
      wp_step. eapply wp_mono; [by apply blit_row_spec|]. cbn beta. intros [] b'' H'. wp_step.
      eapply copied_trans; [|exact HI|exact H'|]; [intros i; apply (Hs k); lia|]. intros i _. unfold in_rect. lia.
Qed.
End blit.

(** ** Drawing off the miniatures *)
Definition short (s : list Z) : Prop := Z.of_nat (length s) < 2 ^ 40.
Lemma short_app s s' : Z.of_nat (length s) < 2 ^ 39 → Z.of_nat (length s') < 2 ^ 39 → short (s ++ s').
Proof. unfold short. rewrite length_app. lia. Qed.
Section picture.
Context (W H : Z) (HW : 1024 ≤ W < 2 ^ 32) (HH : 768 ≤ H < 2 ^ 32).
Lemma size_ok : 0 < W ∧ W * H < 2 ^ 64.
Proof. nia. Qed.
Definition in_fb (i : Z) : Prop := in_rect W (FB_PANEL_X + 10) (FB_PANEL_Y + 22) MINI_WIDTH MINI_HEIGHT i.
Definition in_shadow (i : Z) : Prop := in_rect W (SHADOW_PANEL_X + 10) (SHADOW_PANEL_Y + 22) MINI_WIDTH MINI_HEIGHT i.
Definition off (i : Z) : Prop := ¬ in_fb i ∧ ¬ in_shadow i.
Definition anywhere (i : Z) : Prop := True.
(** Code that draws where [P] says, and never outside the buffer. *)
Definition draws {A} (P : Z → Prop) (m : M pixels A) : Prop := ∀ b, full W H b → wp m (λ _ b', only P b b') b.
Lemma draws_bind {A B} P (m : M pixels A) (k : A → M pixels B) : draws P m → (∀ a, draws P (k a)) → draws P (a ← m; k a).
Proof.
  intros Hm Hk b Hf. wp_step. eapply wp_mono; [by apply Hm|]. cbn beta. intros a b' Hb. eapply wp_mono; [apply Hk; by eapply only_full|].
  cbn beta. intros c b'' Hb'. by eapply only_trans.
Qed.
Lemma draws_ret {A} P (a : A) : draws P (mret a).
Proof. intros b Hf. by wp_step. Qed.
Lemma draws_lift {A B} P (o : option A) a (k : A → M pixels B) : o = Some a → draws P (k a) → draws P (a ← lift o; k a).
Proof. intros -> Hk b Hf. wp_op ltac:(done). by apply Hk. Qed.
Lemma draws_weaken {A} (P P' : Z → Prop) (m : M pixels A) : (∀ i, P i → P' i) → draws P m → draws P' m.
Proof. intros HP Hm b Hf. eapply wp_mono; [by apply Hm|]. cbn beta. intros a b'. by apply only_weaken. Qed.
Lemma draws_for_each {A} P (l : list A) (body : A → M pixels unit) : (∀ x, x ∈ l → draws P (body x)) → draws P (for_each l body).
Proof.
  induction l as [|x l IH]; intros Hb; cbn [for_each]; [apply draws_ret|]. apply draws_bind; [apply Hb, list_elem_of_here|]. intros _. apply IH. intros y Hy. by apply Hb, list_elem_of_further.
Qed.
(** A rectangle beside, below or between the miniatures. *)
Definition beside (x y w h : Z) : Prop := 0 ≤ x ∧ 0 ≤ y ∧ 0 ≤ w ∧ 0 ≤ h ∧ y + h ≤ 768 ∧ (y + h ≤ 52 ∨ 352 ≤ y ∨ 440 ≤ x ∧ x + w ≤ 530).
Lemma beside_off x y w h i : beside x y w h → in_rect W x y w h i → off i.
Proof.
  intros Hb Hi. unfold off, in_fb, in_shadow, in_rect, beside in *.
  change (FB_PANEL_X + 10) with 40. change (FB_PANEL_Y + 22) with 52. change (SHADOW_PANEL_X + 10) with 530. change (SHADOW_PANEL_Y + 22) with 52.
  change MINI_WIDTH with 400. change MINI_HEIGHT with 300. lia.
Qed.
Lemma draws_rect x y w h c : beside x y w h → x < 2 ^ 62 → w < 2 ^ 62 → draws off (draw_rect W x y w h c).
Proof.
  intros Hb Hx Hw b Hf. pose proof size_ok. eapply wp_mono; [apply (draw_rect_spec W H); unfold beside in Hb; (done || lia)|]. cbn beta. intros [] b' Hp.
  eapply only_weaken; [|by eapply painted_only]. intros i. by apply beside_off.
Qed.
Lemma draws_outline x y w h c : beside x y w h → draws off (draw_rect_outline W x y w h c).
Proof.
  intros Hb b Hf. pose proof size_ok. eapply wp_mono; [apply (draw_rect_outline_spec W H); unfold beside in Hb; (done || lia)|]. cbn beta. intros [] b'.
  apply only_weaken. intros i. by apply beside_off.
Qed.
Lemma draws_anywhere x y w h c : 0 ≤ x → 0 ≤ w → 0 ≤ y → 0 ≤ h → y + h ≤ H → draws anywhere (draw_rect_outline W x y w h c).
Proof.
  intros Hx Hw Hy Hh Hfit b Hf. pose proof size_ok. eapply wp_mono; [apply (draw_rect_outline_spec W H); (done || lia)|]. cbn beta. intros [] b'.
  by apply only_weaken.
Qed.
(** Strings below or above the miniatures. *)
Lemma draws_string x y s c : short s → 0 ≤ x < 2 ^ 62 → 0 ≤ y → (y + 8 ≤ 52 ∨ 352 ≤ y) → y + 8 ≤ 768 → draws off (draw_string W x y s c).
Proof.
  intros Hs Hx Hy Hr Hfit b Hf. pose proof size_ok. unfold short in Hs. eapply wp_mono; [apply (draw_string_spec W H); (done || lia)|]. cbn beta. intros [] b'.
  apply only_weaken. intros i. apply beside_off. unfold beside. lia.
Qed.
Lemma draws_char x y ch c : beside x y 8 8 → x < 2 ^ 62 → draws off (draw_char W x y ch c).
Proof.
  intros Hb Hx b Hf. pose proof size_ok. eapply wp_mono; [apply (draw_char_spec W H); unfold beside in Hb; (done || lia)|]. cbn beta. intros [] b' Hp.
  eapply only_weaken; [|by eapply painted_only]. intros i [_ [Hi _]]. eapply beside_off; [exact Hb|exact Hi].
Qed.

(** ** The parts of the picture *)
Ltac layout := unfold beside, short, len, FB_PANEL_X, FB_PANEL_Y, FB_PANEL_WIDTH, FB_PANEL_HEIGHT, SHADOW_PANEL_X, SHADOW_PANEL_Y, TITLE_X, TITLE_Y, STEP_INFO_X, STEP_INFO_Y,
  TASK_BOX_X, TASK_BOX_Y_START, TASK_BOX_WIDTH, TASK_BOX_HEIGHT, TASK_BOX_SPACING, BUFFER_INNER_X, BUFFER_INNER_Y, BUFFER_INNER_WIDTH, BUFFER_INNER_HEIGHT,
  COMPOSITOR_X, COMPOSITOR_Y, COMPOSITOR_WIDTH, COMPOSITOR_HEIGHT, COMP_BUFFER_X, COMP_BUFFER_Y, COMP_BUFFER_WIDTH, COMP_BUFFER_HEIGHT, LOWER_AREA_Y, MINI_WIDTH, MINI_HEIGHT in *;
  cbn [length app]; rewrite ?length_app; lia.
Ltac drawing := repeat match goal with
  | |- draws _ (mbind _ _) => apply draws_bind; [|intros []]
  | |- draws _ (mret _) => apply draws_ret
  | |- draws _ (draw_rect _ _ _ _ _ _) => apply draws_rect
  | |- draws _ (draw_rect_outline _ _ _ _ _ _) => apply draws_outline
  | |- draws _ (draw_string _ _ _ _ _) => apply draws_string
  | |- draws _ (draw_char _ _ _ _ _) => apply draws_char
  | |- draws _ (if ?c then _ else _) => destruct c
  end.
Lemma text_short s : (String.length s < 1000)%nat → Z.of_nat (length (text s)) < 2 ^ 39.
Proof.
  intros Hs. assert (E : length (text s) = String.length s); [|rewrite E; lia]. unfold Apps.text. rewrite length_fmap. clear. induction s as [|c s IH]; cbn; [done|by rewrite IH].
Qed.
Lemma dec_short n : Z.of_nat (length (Apps.dec n)) < 2 ^ 30.
Proof. pose proof (Apps.dec_length n). lia. Qed.
#[local] Opaque Apps.dec.
(** A queue as the kernel keeps it: five slots a side. *)
Definition queue_ok (q : BufferQueueInfo) : Prop :=
  length (command_types q) = 5%nat ∧ length (compositor_commands q) = 5%nat ∧ Z.of_nat (length (text (name q))) < 2 ^ 30.
Lemma short_text s : (String.length s < 1000)%nat → short (text s).
Proof. intros Hs%text_short. unfold short. lia. Qed.
Ltac side := first [done | apply short_text; cbn; lia | layout].
Lemma draws_compositor_command info j : (j < 5)%nat → queue_ok info → draws off (draw_compositor_command W (COMPOSITOR_X + COMP_BUFFER_X + 5) (COMPOSITOR_Y + COMP_BUFFER_Y + 14) info j).
Proof.
  intros Hj (_ & Hq & _). unfold draw_compositor_command. destruct (lookup_lt_is_Some_2 (compositor_commands info) j ltac:(lia)) as [slot Hs].
  eapply draws_lift; [exact Hs|]. destruct slot as [ty|]; cbv zeta; drawing; layout.
Qed.
Lemma draws_indicator phase queues n copying : Forall queue_ok queues → draws off (draw_compositor_indicator W COMPOSITOR_X COMPOSITOR_Y phase queues n copying).
Proof.
  intros Hq. unfold draw_compositor_indicator. cbv zeta. change (len (text "Compositor")) with 10.
  assert (Hp : 4 ≤ len (phase_text phase) ≤ 8) by (destruct phase; cbn; unfold len; cbn; lia). assert (Hs : short (phase_text phase)) by (unfold short, len in *; lia).
  assert (Hd : 0 ≤ (COMPOSITOR_WIDTH - len (phase_text phase) * 8) / 2 ≤ 100) by (unfold COMPOSITOR_WIDTH; dlia). revert Hd. generalize ((COMPOSITOR_WIDTH - len (phase_text phase) * 8) / 2). intros px Hd.
  change ((COMPOSITOR_WIDTH - 10 * 8) / 2) with 70. change (COMPOSITOR_WIDTH / 2) with 110. drawing; try side.
  destruct (list_find _ _) as [[k info]|] eqn:E; [|drawing; side].
  assert (Hi : queue_ok info) by (apply list_find_Some in E as (E & _); eapply Forall_lookup_1; [by apply Forall_take|exact E]).
  drawing; try side.
  - destruct Hi as (_ & _ & Hn). pose proof (dec_short (processed_count info)). pose proof (dec_short (total_commands info)). unfold short. rewrite !length_app.
    change (length (text "< ")) with 2%nat. change (length (text " (")) with 2%nat. change (length (text "/")) with 1%nat. change (length (text ")")) with 1%nat. lia.
  - apply draws_for_each. intros j Hj%elem_of_seq. apply draws_compositor_command; [lia|done].
Qed.
Lemma draws_flow_arrows phase : draws off (draw_flow_arrows W phase).
Proof.
  unfold draw_flow_arrows. cbv zeta. change (COMPOSITOR_WIDTH / 2) with 110. change (FB_PANEL_HEIGHT / 2) with 165.
  generalize (if is_rendering phase then COLOR_HIGHLIGHT else COLOR_ARROW) (if is_blit phase then COLOR_HIGHLIGHT else COLOR_ARROW). intros c1 c2. drawing; side.
Qed.
Lemma draws_default_box i nm : (i < 3)%nat → short nm → draws off (draw_default_box W i nm).
Proof. intros Hi Hn. unfold draw_default_box. cbv zeta. drawing; side. Qed.
Lemma draws_task_command info i j : (i < 4)%nat → (j < 5)%nat → queue_ok info →
  draws off (draw_task_command W (TASK_BOX_X + BUFFER_INNER_X + 5) (TASK_BOX_Y_START + Z.of_nat i * TASK_BOX_SPACING + BUFFER_INNER_Y + 6) info j).
Proof.
  intros Hi Hj (Hq & _). unfold draw_task_command. destruct (lookup_lt_is_Some_2 (command_types info) j ltac:(lia)) as [slot Hs].
  eapply draws_lift; [exact Hs|]. destruct slot as [ty|]; cbv zeta; drawing; side.
Qed.
Lemma draws_task_box queues i : length queues = 4%nat → Forall queue_ok queues → (i < 4)%nat → draws off (draw_task_box W queues i).
Proof.
  intros Hl Hq Hi. unfold draw_task_box. destruct (lookup_lt_is_Some_2 queues i ltac:(lia)) as [info Hs]. pose proof (Forall_lookup_1 _ _ _ _ Hq Hs) as Hok.
  eapply draws_lift; [exact Hs|]. cbv zeta. drawing; try side.
  - destruct Hok as (_ & _ & Hn). unfold short. lia.
  - apply draws_for_each. intros j Hj%elem_of_seq. apply draws_task_command; [done|lia|done].
Qed.
Lemma draws_task_boxes queues n : length queues = 4%nat → Forall queue_ok queues → draws off (draw_task_boxes_with_queues W queues n).
Proof.
  intros Hl Hq. unfold draw_task_boxes_with_queues. destruct (Nat.min n 4) as [|k] eqn:E.
  - apply draws_bind; [|intros []; apply draws_bind; [|intros []]]; apply draws_default_box; (lia || (apply short_text; cbn; lia)).
  - apply draws_for_each. intros i Hi%elem_of_seq. apply draws_task_box; [done|done|lia].
Qed.

(** ** The animations *)
(** The copy: its four sources, at each of its ticks. *)
Definition copy_frame_ok (idx k : nat) : bool :=
  let p := at_tick ANIM_SPEED_BUFFER_COPY k in
  let x := as_usize (between (TASK_BOX_X + BUFFER_INNER_X) (COMPOSITOR_X + COMP_BUFFER_X) p) in
  let y := as_usize (between (TASK_BOX_Y_START + Z.of_nat idx * TASK_BOX_SPACING + BUFFER_INNER_Y) (COMPOSITOR_Y + COMP_BUFFER_Y) p) in
  let cw := between BUFFER_INNER_WIDTH COMP_BUFFER_WIDTH p in let ch := between BUFFER_INNER_HEIGHT COMP_BUFFER_HEIGHT p in
  let w := as_usize cw in let h := as_usize ch in let w' := as_usize (fsub cw (f32_of 4)) in let h' := as_usize (fsub ch (f32_of 4)) in
  let t := as_usize (fsub (fdiv ch (f32_of 2)) (f32_of 4)) in
  (0 <=? x) && (x <? 1000) && (352 <=? y) && (0 <=? w) && (0 <=? h) && (y + h <=? 768) && (0 <=? w') && (0 <=? h') && (y + 2 + h' <=? 768) && (0 <=? t) && (y + t + 8 <=? 768).
Lemma copy_frames_ok : forallb (λ idx, forallb (copy_frame_ok idx) (seq 0 COPY_TICKS)) (seq 0 4) = true.
Proof. vm_compute. reflexivity. Qed.
(** The transfer keeps its height: its box does not sink below where it started. *)
Definition blit_frame_ok (d : Z) (k : nat) : bool := as_isize (between (52 + d) (52 + d) (at_tick ANIM_SPEED_BLIT k)) <=? 52 + d.
Lemma blit_frames_ok : forallb (λ d, forallb (blit_frame_ok d) (seq 0 BLIT_TICKS)) (seqZ 0 303) = true.
Proof. vm_compute. reflexivity. Qed.
Lemma draws_copy n a : copying_at n (Some a) → draws off (draw_buffer_copy_animation W a).
Proof.
  intros [Hn Hp]. unfold draw_buffer_copy_animation. cbv zeta. destruct (Nat.leb_spec 4 (source_buffer_index a)) as [|Hi]; [apply draws_ret|].
  pose proof copy_frames_ok as Hall. rewrite forallb_forall in Hall. specialize (Hall (source_buffer_index a) ltac:(apply in_seq; lia)). rewrite forallb_forall in Hall.
  specialize (Hall (COPY_TICKS - n)%nat ltac:(apply in_seq; unfold COPY_TICKS in *; lia)). unfold copy_frame_ok in Hall. cbv zeta in Hall. rewrite <-Hp in Hall. clear Hp.
  revert Hall. repeat match goal with |- context [between ?a ?b ?p] => generalize (between a b p); intro end. intros Hall.
  rewrite !andb_true_iff, !Z.leb_le, Z.ltb_lt in Hall. assert (Hs : short (Apps.dec (copied_commands a) ++ text " cmds")).
  { pose proof (dec_short (copied_commands a)). unfold short. rewrite length_app. change (length (text " cmds")) with 5%nat. lia. }
  drawing; unfold beside; lia || exact Hs.
Qed.
Lemma draws_blit n a : blitting_at n (Some a) → 0 ≤ dirty_w a → 0 ≤ dirty_y a → 0 ≤ dirty_h a → dirty_y a + dirty_h a ≤ 302 → draws anywhere (draw_blit_animation W a).
Proof.
  intros (Hn & Hp & _) Hw Hy Hh Hfit. unfold draw_blit_animation. cbv zeta. pose proof blit_frames_ok as Hall. rewrite forallb_forall in Hall.
  specialize (Hall (dirty_y a) ltac:(apply list_elem_of_In, elem_of_seqZ; lia)). rewrite forallb_forall in Hall.
  specialize (Hall (BLIT_TICKS - n)%nat ltac:(apply in_seq; unfold BLIT_TICKS in *; lia)). unfold blit_frame_ok in Hall. rewrite <-Hp, Z.leb_le in Hall.
  change (SHADOW_PANEL_Y + 22) with 52. change (FB_PANEL_Y + 22) with 52.
  apply draws_bind; [|intros []]; apply draws_anywhere; lia.
Qed.

(** ** The panels *)
Lemma draws_panel x y label c mini hl b : mini_std mini → full W H b → 0 ≤ x < 1000 → 0 ≤ y → y + 330 ≤ 768 → (length label ≤ 20)%nat →
  wp (draw_panel_with_mini W H x y label c mini hl) (λ _ b', only (in_rect W x y 420 330) b b' ∧
    ∀ i, in_rect W (x + 10) (y + 22) MINI_WIDTH MINI_HEIGHT i → is_Some (b !! i) → b' !! i = mini_pixel mini W (x + 10) (y + 22) i) b.
Proof.
  intros (Hm & Hmw & Hmh) Hf Hx Hy Hfit Hl. pose proof size_ok as [HW0 Hsz]. unfold draw_panel_with_mini. cbv zeta. rewrite Hmw, Hmh. change (MINI_WIDTH + 20) with 420. change (MINI_HEIGHT + 30) with 330.
  wp_step. eapply wp_mono; [apply (draw_rect_outline_spec W H); (done || lia)|]. cbn beta. intros [] b1 O1. pose proof (only_full _ _ _ _ _ O1 Hf) as F1.
  wp_op ltac:(apply csub_some; unfold len; lia). change ((420 - MINI_WIDTH) / 2) with 10.
  assert (Hd : 0 ≤ (420 - len label * 8) / 2 ≤ 210 ∧ (420 - len label * 8) / 2 + len label * 8 ≤ 420) by (unfold len; clear -Hl; dlia).
  wp_step. eapply wp_mono; [apply (draw_string_spec W H); (done || (unfold len in *; lia))|]. cbn beta. intros [] b2 O2. pose proof (only_full _ _ _ _ _ O2 F1) as F2.
  eapply wp_mono; [apply (blit_to_fb_spec mini W H (x + 10) (y + 22)); (done || lia)|]. cbn beta. intros [] b3 C3. split.
  - apply (only_trans _ _ _ _ O1). eapply only_trans.
    + eapply only_weaken; [|exact O2]. intros i. unfold in_rect, len in *. lia.
    + eapply only_weaken; [|eapply copied_only; [intros i; by apply mini_pixel_some|exact C3]]. intros i. rewrite Hmw, Hmh. unfold in_rect, MINI_WIDTH, MINI_HEIGHT. lia.
  - intros i Hi Hb. rewrite (C3 i), Hmw, Hmh. rewrite decide_True; [done|]. split; [done|]. by rewrite (proj1 O2 i), (proj1 O1 i).
Qed.

(** ** The whole picture *)
Definition box_inside (a : BlitAnimation) : Prop := 0 ≤ dirty_w a ∧ 0 ≤ dirty_y a ∧ 0 ≤ dirty_h a ∧ dirty_y a + dirty_h a ≤ 302.
Definition info_ok (c : option CommandInfo) : Prop := match c with Some info => Z.of_nat (length (text (command_type info))) < 2 ^ 30 | None => True end.
(** What the user interface holds of the state, and its buffer. *)
Record ui_ok (u : ui) : Prop := {
  uo_shadow : mini_std (local_shadow u); uo_fb : mini_std (local_fb u);
  uo_queues : length (local_buffer_queues u) = 4%nat ∧ Forall queue_ok (local_buffer_queues u);
  uo_back : full W H (back_buffer u) }.
Record animated (u : ui) : Prop := {
  an_copy : ∃ n, copying_at n (local_buffer_copy_anim u); an_blit : ∃ n, blitting_at n (local_blit_anim u);
  an_box : match local_blit_anim u with Some a => box_inside a | None => True end }.
(** Both miniatures, pixel by pixel. *)
Definition shows (fb shadow : MiniBuffer) (b : pixels) : Prop :=
  (∀ i, in_fb i → is_Some (b !! i) → b !! i = mini_pixel fb W (FB_PANEL_X + 10) (FB_PANEL_Y + 22) i) ∧
  (∀ i, in_shadow i → is_Some (b !! i) → b !! i = mini_pixel shadow W (SHADOW_PANEL_X + 10) (SHADOW_PANEL_Y + 22) i).
Lemma shows_off fb shadow b b' : only off b b' → shows fb shadow b → shows fb shadow b'.
Proof.
  intros [Hs Ho] [Hf Hsh]. split; intros i Hi Hb; rewrite (Ho i) in * by (intros [? ?]; done); [by apply Hf|by apply Hsh].
Qed.
Lemma draws_stats fc cc n phase :
  draws off (draw_string W STEP_INFO_X STEP_INFO_Y (text "Frame:" ++ Apps.dec fc ++ text " Cmds:" ++ Apps.dec cc ++ text " Bufs:" ++ Apps.dec n ++ text " " ++ text (debug_name phase)) COLOR_TEXT).
Proof.
  pose proof dec_short as Hd. drawing; try side.
  pose proof (Hd fc). pose proof (Hd cc). pose proof (Hd n). pose proof (text_short (debug_name phase) ltac:(destruct phase; cbn; lia)). unfold short. rewrite !length_app.
  change (length (text "Frame:")) with 6%nat. change (length (text " Cmds:")) with 6%nat. change (length (text " Bufs:")) with 6%nat. change (length (text " ")) with 1%nat. lia.
Qed.
Lemma draws_last info : info_ok info →
  draws off (match info with
    | Some info => draw_string W STEP_INFO_X (STEP_INFO_Y + 15)
        (text "Last: " ++ text (command_type info) ++ text " at (" ++ Apps.dec (region_x info) ++ text ", " ++ Apps.dec (region_y info) ++ text ")") COLOR_HIGHLIGHT
    | None => mret tt
    end).
Proof.
  intros Hinfo. pose proof dec_short as Hd. destruct info as [info|]; drawing; try side. pose proof (Hd (region_x info)). pose proof (Hd (region_y info)). cbn in Hinfo. unfold short.
  rewrite !length_app. change (length (text "Last: ")) with 6%nat. change (length (text " at (")) with 5%nat. change (length (text ", ")) with 2%nat. change (length (text ")")) with 1%nat. lia.
Qed.
Lemma draw_ui_spec u phase info cc fc n b : ui_ok u → animated u → info_ok info → full W H b →
  wp (draw_ui W H u (phase, info, cc, fc, n)) (λ _ b', full W H b' ∧ (local_blit_anim u = None → shows (local_fb u) (local_shadow u) b')) b.
Proof.
  intros [Hs Hfb [Hql Hq] _] [[nc Hc] [nb Hb] Hbox] Hinfo Hf. pose proof size_ok as [HW0 Hsz]. unfold draw_ui. cbv zeta.
  wp_step. eapply wp_mono; [apply (draw_rect_spec W H); (done || lia)|]. cbn beta. intros [] b1 P1. pose proof (only_full _ _ _ _ _ (painted_only _ _ _ _ P1) Hf) as F1.
  wp_step. eapply wp_mono; [apply (draws_string TITLE_X TITLE_Y _ COLOR_TITLE); [apply short_text; cbn; lia|unfold TITLE_X, TITLE_Y; lia..|exact F1]|]. cbn beta. intros [] b2 O2. pose proof (only_full _ _ _ _ _ O2 F1) as F2.
  wp_step. eapply wp_mono; [apply (draws_panel FB_PANEL_X FB_PANEL_Y); [done|done|unfold FB_PANEL_X, FB_PANEL_Y; lia..|cbn; lia]|]. cbn beta. intros [] b3 [O3 S3]. pose proof (only_full _ _ _ _ _ O3 F2) as F3.
  wp_step. eapply wp_mono; [apply (draws_panel SHADOW_PANEL_X SHADOW_PANEL_Y); [done|done|unfold SHADOW_PANEL_X, SHADOW_PANEL_Y; lia..|cbn; lia]|]. cbn beta. intros [] b4 [O4 S4]. pose proof (only_full _ _ _ _ _ O4 F3) as F4.
  assert (H4 : shows (local_fb u) (local_shadow u) b4).
  { split; intros i Hi Hbi; [|apply S4; [done|by apply (proj1 O4)]]. rewrite (proj2 O4 i).
    - apply S3; [done|]. apply (proj1 O3), (proj1 O4), Hbi.
    - revert Hi. unfold in_fb, in_rect, FB_PANEL_X, FB_PANEL_Y, SHADOW_PANEL_X, SHADOW_PANEL_Y, MINI_WIDTH, MINI_HEIGHT. lia. }
  wp_step. eapply wp_mono; [by apply draws_indicator|]. cbn beta. intros [] b5 O5. pose proof (only_full _ _ _ _ _ O5 F4) as F5.
  wp_step. eapply wp_mono; [by apply draws_task_boxes|]. cbn beta. intros [] b6 O6. pose proof (only_full _ _ _ _ _ O6 F5) as F6.
  wp_step. eapply wp_mono; [by apply draws_stats|]. cbn beta. intros [] b7 O7. pose proof (only_full _ _ _ _ _ O7 F6) as F7.
  wp_step. eapply wp_mono; [by apply draws_last|]. cbn beta. intros [] b8 O8. pose proof (only_full _ _ _ _ _ O8 F7) as F8.
  wp_step. eapply wp_mono; [by apply draws_flow_arrows|]. cbn beta. intros [] b9 O9. pose proof (only_full _ _ _ _ _ O9 F8) as F9.
  assert (H9 : shows (local_fb u) (local_shadow u) b9) by (repeat (eapply shows_off; [eassumption|]); exact H4).
  wp_step. eapply (wp_mono _ (λ _ b', full W H b' ∧ (local_blit_anim u = None → shows (local_fb u) (local_shadow u) b'))).
  - destruct (local_blit_anim u) as [a|]; [|by wp_step]. destruct Hbox as (Hbw & Hby & Hbh & Hbf).
    eapply wp_mono; [by eapply draws_blit|]. cbn beta. intros [] b10 O10. split; [by eapply only_full|done].
  - cbn beta. intros [] b10 [F10 H10]. destruct (local_buffer_copy_anim u) as [a|]; [|by wp_step].
    eapply wp_mono; [by eapply draws_copy|]. cbn beta. intros [] b11 O11. split; [by eapply only_full|]. intros Ha. eapply shows_off; [exact O11|by apply H10].
Qed.

(** ** A round *)
(** What the picture needs of the state beside its order. *)
Record shown_ok (v : MiniVisualizationState) : Prop := {
  sh_queues : Forall queue_ok (buffer_queues v); sh_box : match blit_animation v with Some a => box_inside a | None => True end; sh_info : info_ok (current_command v) }.
Lemma tick_shown : keeps shown_ok tick_animation.
Proof.
  unfold tick_animation. do 2 (apply keeps_bind; [apply keeps_modify; by intros v []|intros []]).
  apply keeps_bind; [|intros blitted; apply keeps_bind; [|intros; apply keeps_ret]].
  - intros v b v'. unfold tick_blit, mbind, M_bind, gets, modify, id. intros Hr [Hq Hb Hi]. destruct (blit_animation v) as [a|] eqn:Ea; [|by injection Hr as <- <-; split; rewrite ?Ea].
    destruct (fle _ _); [|by injection Hr as <- <-]. destruct (pending_blit a); [|by injection Hr as <- <-].
    unfold lift in Hr. destruct (mini_blit_to _ _); [|done]. destruct (cadd _ _ _); [|done]. by injection Hr as <- <-.
  - intros v b v'. unfold tick_copy, mbind, M_bind, gets, modify, id. intros Hr [Hq Hb Hi]. destruct (buffer_copy_animation v) as [a|]; [|by injection Hr as <- <-].
    destruct (fle _ _); by injection Hr as <- <-.
Qed.
Lemma ui_tick_shown s s' v v' : ui_tick s = Some (tt, s') → MINI_VIS_STATE s = Some v → MINI_VIS_STATE s' = Some v' → shown_ok v → shown_ok v'.
Proof.
  unfold ui_tick, mbind, M_bind. intros Hr Hv Hv' Hok. destruct (with_state tick_animation s) as [[r s1]|] eqn:Ew; [|done].
  apply (with_state_inv _ _ _ _ v) in Ew as ([b c] & v1 & E & -> & ->); [|done].
  assert (v1 = v') as <-; [|by eapply tick_shown]. destruct b, c; injection Hr as <-; by injection Hv' as <-.
Qed.
End picture.

(** The screen in coordinates: the miniature at [(x, y)]. *)
Definition displays (W : Z) (screen : pixels) (x y : Z) (mini : MiniBuffer) : Prop :=
  ∀ col row, 0 ≤ col < MINI_WIDTH → 0 ≤ row < MINI_HEIGHT → screen !! ((y + row) * W + (x + col)) = mbuffer mini !! (row * MINI_WIDTH + col).
Lemma shows_displays W H x y mini b : full W H b → 0 ≤ x → x + MINI_WIDTH ≤ W → 0 ≤ y → y + MINI_HEIGHT ≤ H → mwidth mini = MINI_WIDTH →
  (∀ i, in_rect W x y MINI_WIDTH MINI_HEIGHT i → is_Some (b !! i) → b !! i = mini_pixel mini W x y i) → displays W b x y mini.
Proof.
  intros Hf Hx Hxw Hy Hyh Hw Hs col row Hc Hr. destruct (pixel_index W (x + col) (y + row) ltac:(lia)) as [E1 E2].
  rewrite Hs; [|unfold in_rect; lia|apply (full_index W H); [done|lia|lia]]. unfold mini_pixel. rewrite E1, E2, Hw. f_equal. lia.
Qed.
Lemma ui_round_run W H x nc nb v : 1024 ≤ W < 2 ^ 32 → 768 ≤ H < 2 ^ 32 → statics_ok nc nb (st_statics x) v → shown_ok v → ui_ok W H (st_ui x) →
  wp (ui_round W H) (λ _ x', ∃ v', statics_ok (pred nc) (pred nb) (st_statics x') v' ∧ ticked v v' ∧ shown_ok v' ∧ ui_ok W H (st_ui x') ∧
    st_screen x' = back_buffer (st_ui x') ∧ (blit_animation v' = None → shows W (mini_fb v') (mini_shadow v') (st_screen x'))) x.
Proof.
  intros HW HH Hs Hsh Hu. unfold ui_round. wp_step. apply wp_zoom. pose proof (ui_tick_spec _ _ _ _ Hs) as Ht. apply wp_run in Ht as ([] & s' & Et & v' & Hs' & Htk & _).
  pose proof (ui_tick_shown _ _ _ _ Et (so_state _ _ _ _ Hs) (so_state _ _ _ _ Hs') Hsh) as Hsh'. unfold wp at 1. rewrite Et. cbv beta iota.
  wp_step. wp_step. cbn [st_statics st_ui]. rewrite (so_state _ _ _ _ Hs'). pose proof (so_vis _ _ _ _ Hs') as Hv'. destruct Hu as [Us Uf Uq Ub].
  assert (E : snapshot_of v' (st_ui x) = Some (mkUi (mini_shadow v') (mini_fb v') (buffer_queues v') (blit_animation v') (buffer_copy_animation v') (back_buffer (st_ui x)),
    (phase v', current_command v', command_count v', frame_count v', buffer_count v'))).
  { unfold snapshot_of. rewrite (mini_blit_std (mini_shadow v')), (mini_blit_std (mini_fb v')); [done|apply Hv'|done|apply Hv'|done]. }
  wp_op ltac:(exact E). cbv beta iota. set (u := mkUi _ _ _ _ _ _).
  assert (Hu : ui_ok W H u) by (split; cbn; [apply Hv'|apply Hv'|split; [apply Hv'|apply Hsh']|done]).
  assert (Ha : animated u) by (split; cbn; [exists (pred nc); apply Hv'|exists (pred nb); apply Hv'|apply Hsh']).
  pose proof (draw_ui_spec W H HW HH u (phase v') (current_command v') (command_count v') (frame_count v') (buffer_count v') (back_buffer u) Hu Ha (sh_info _ Hsh') Ub) as Hd.
  apply wp_run in Hd as ([] & b & Ed & Fb & Sb). wp_op ltac:(rewrite Ed; reflexivity). wp_step. exists v'. cbn. split_and!; try done.
  - destruct Hu. split; done.
Qed.

(** C20: a round of the visualisation's user interface on a screen of at least 1024 by 768:
    it draws the whole picture (panels, boxes, arrows, texts, and the animations at
    any of their ticks) without an access outside the back buffer, which is then the
    screen; the animations move on by one tick and nothing else of the shared state changes
    but what they leave.  Unless a transfer is running, whose frame is drawn over them, both
    miniatures are on the screen pixel by pixel. *)
Theorem ui_round_correct W H x nc nb v : 1024 ≤ W < 2 ^ 32 → 768 ≤ H < 2 ^ 32 → statics_ok nc nb (st_statics x) v → shown_ok v → ui_ok W H (st_ui x) →
  ∃ x' v', ui_round W H x = Some (tt, x') ∧ statics_ok (pred nc) (pred nb) (st_statics x') v' ∧ ticked v v' ∧ shown_ok v' ∧ ui_ok W H (st_ui x') ∧
    st_screen x' = back_buffer (st_ui x') ∧ full W H (st_screen x') ∧
    ((nb ≤ 1)%nat → displays W (st_screen x') 40 52 (mini_fb v') ∧ displays W (st_screen x') 530 52 (mini_shadow v')).
Proof.
  intros HW HH Hs Hsh Hu. destruct (proj1 (wp_run _ _ _) (ui_round_run W H x nc nb v HW HH Hs Hsh Hu)) as ([] & x' & E & v' & Hs' & Ht & Hsh' & Hu' & Hsc & Hd).
  exists x', v'. assert (Hf : full W H (st_screen x')) by (rewrite Hsc; apply Hu'). split_and!; try done. intros Hnb. pose proof (so_vis _ _ _ _ Hs') as Hv'.
  assert (Hb : blit_animation v' = None) by (pose proof (vo_blit _ _ _ Hv') as Hb; unfold blitting_at in Hb; destruct (blit_animation v'); [lia|done]).
  destruct (Hd Hb) as [H1 H2]. destruct (vo_fb _ _ _ Hv') as (_ & Hw1 & _), (vo_shadow _ _ _ Hv') as (_ & Hw2 & _).
  split; eapply shows_displays; try done; unfold MINI_WIDTH, MINI_HEIGHT; lia.
Qed.
Definition demo_stage : stage := mkStage demo_statics (ui_new 1024 768) (black (1024 * 768)).
Lemma queue_new_ok : queue_ok queue_new.
Proof. done. Qed.
Lemma ui_round_correct_witness : ∃ x' v', ui_round 1024 768 demo_stage = Some (tt, x') ∧ full 1024 768 (st_screen x') ∧ displays 1024 (st_screen x') 40 52 (mini_fb v').
Proof.
  destruct (ui_round_correct 1024 768 demo_stage 0 0 MiniVisualizationState_new) as (x' & v' & E & _ & _ & _ & _ & _ & F & D).
  - lia.
  - lia.
  - apply demo_world_ok.
  - split; [|done|done]. apply Forall_replicate, queue_new_ok.
  - split; [exact MiniBuffer_new_std|exact MiniBuffer_new_std|split; [done|apply Forall_replicate, queue_new_ok]|apply black_full].
  - exists x', v'. split; [exact E|]. split; [exact F|]. apply D. lia.
Defined.
