(* ===== verification/AllocVisual.v ===== *)
(** * The allocator's visualisation ([kernel/src/allocator_visualization.rs]).

    A feature of the build: hooks in the allocator count the blocks in use of each
    size class, and a demonstration draws them as grids while it allocates and
    frees vectors.  First the component, then its theorems.

    The strings the drawing formats live within one round of its loop; that they
    come from the same heap is not modelled.  Nor are the elements of the vectors. *)
From S2P Require Import Prelude Font Graphics GraphicsSpec Buddy BuddyBlocks BuddyRepr BuddySpec BuddyInit KernelAlloc KernelSpec KernelInit.
From S2P Require TimerDevice ClockThms Apps.
Set Default Goal Selector "!".

(** The heap, the counts, what [on_framebuffer_init_hook] notes, the screen, the clock. *)
Record avis := mkAvis { av_heap : kstate; USED_COUNTS : list Z; FB_BASE : Z; SCREEN_WIDTH : Z; SCREEN_HEIGHT : Z; av_screen : pixels; av_hpet : TimerDevice.hpet }.
Definition set_counts (l : list Z) (s : avis) : avis := mkAvis (av_heap s) l (FB_BASE s) (SCREEN_WIDTH s) (SCREEN_HEIGHT s) (av_screen s) (av_hpet s).
Definition on_heap {A} (m : M kstate A) : M avis A := zoom av_heap (λ k s, mkAvis k (USED_COUNTS s) (FB_BASE s) (SCREEN_WIDTH s) (SCREEN_HEIGHT s) (av_screen s) (av_hpet s)) m.
Definition on_pixels {A} (m : M pixels A) : M avis A := zoom av_screen (λ b s, mkAvis (av_heap s) (USED_COUNTS s) (FB_BASE s) (SCREEN_WIDTH s) (SCREEN_HEIGHT s) b (av_hpet s)) m.
Definition on_clock {A} (m : M TimerDevice.hpet A) : M avis A := zoom av_hpet (λ h s, mkAvis (av_heap s) (USED_COUNTS s) (FB_BASE s) (SCREEN_WIDTH s) (SCREEN_HEIGHT s) (av_screen s) h) m.

(** ** The hooks *)
Definition on_allocate_hook (class_idx : nat) : M avis unit :=
  if (class_idx <? 10)%nat then modify (λ s, set_counts (alter (λ u, wrap 64 (u + 1)) class_idx (USED_COUNTS s)) s) else mret tt.
Definition on_deallocate_hook (class_idx : nat) : M avis unit :=
  if (class_idx <? 10)%nat then
    s ← gets id;
    current ← lift (USED_COUNTS s !! class_idx);
    assert_ (0 <? current) ;; modify (set_counts (<[class_idx := current - 1]> (USED_COUNTS s)))
  else mret tt.
Definition count_free_blocks (class_idx : nat) (total_blocks : Z) : M avis Z :=
  s ← gets id; used ← lift (USED_COUNTS s !! class_idx); mret (saturating_sub total_blocks used).
Definition on_framebuffer_init_hook (fb_base width height : Z) : M avis unit :=
  modify (λ s, mkAvis (av_heap s) (USED_COUNTS s) fb_base width height (av_screen s) (av_hpet s)).
Definition screen_size : M avis (Z * Z) := gets (λ s, (wrap 32 (SCREEN_WIDTH s), wrap 32 (SCREEN_HEIGHT s))).

(** [GlobalAlloc] with the feature on. *)
Definition alloc_hooked (layout : Layout) : M avis Z :=
  let size := Z.max (lsize layout) (lalign layout) in
  let fallback : M avis Z := p ← on_heap (on_buddy (Buddy.allocate layout)); mret (default 0 p) in
  match size_to_class size with
  | Some class_idx =>
      p ← on_heap (slab_allocate class_idx);
      match p with
      | Some a => on_allocate_hook class_idx ;; mret a
      | None => fallback
      end
  | None => fallback
  end.
Definition dealloc_hooked (p : Z) (layout : Layout) : M avis unit :=
  if lsize layout =? 0 then mret tt else
  s ← gets av_heap;
  let buddy_start := region_start (kbuddy s) in
  if buddy_start <=? p then on_heap (on_buddy (Buddy.deallocate p layout))
  else let size := Z.max (lsize layout) (lalign layout) in
       match size_to_class size with
       | Some class_idx => on_deallocate_hook class_idx ;; on_heap (slab_deallocate class_idx p)
       | None => mret tt
       end.

(** ** Drawing, once the frame buffer is known *)
Definition at_screen (m : Z → M pixels unit) : M avis unit :=
  fb_base ← gets FB_BASE; size ← screen_size;
  if fb_base =? 0 then panic else on_pixels (m size.1).
Definition draw_code_snippet (code_lines : list (list Z)) : M avis unit :=
  at_screen (λ w,
    draw_rect w 0 280 400 320 0x000000 ;;
    draw_string w 10 290 (Apps.text "Code:") 0xFFFF00 ;;
    for_each (imap pair code_lines) (λ '(i, line), draw_string w 10 (305 + Z.of_nat i * 10) line 0x00FFFF)).

Definition grid_cols_per_class : Z := 20.
Definition cell_size : Z := 3.
Definition grid_pixel_size : Z := grid_cols_per_class * (cell_size + 1).
Definition start_x : Z := 410.
Definition start_y : Z := 310.
Definition total_blocks (size : Z) : Z :=
  let heap_size := 256 * 1024 in
  let slab_size := heap_size / 2 / Z.of_nat (length SIZE_CLASSES) in
  align_down slab_size size / size.
Definition grid_x (class_idx : Z) : Z := start_x + class_idx mod 3 * (grid_pixel_size + 20).
Definition grid_y (class_idx : Z) : Z := start_y + class_idx / 3 * (grid_pixel_size + 35).
(** Cell [i] of a grid. *)
Definition draw_cell (w class_idx used_count i : Z) : M pixels unit :=
  let grid_row := i / grid_cols_per_class in
  let grid_col := i mod grid_cols_per_class in
  let x := grid_x class_idx + grid_col * (cell_size + 1) in
  let y := grid_y class_idx + grid_row * (cell_size + 1) in
  let color := if i <? used_count then 0xFF0000 else 0x00FF00 in
  draw_rect w x y cell_size cell_size color.
Definition draw_class (w class_idx size total free_count : Z) : M pixels unit :=
  let used_count := saturating_sub total free_count in
  draw_string w (grid_x class_idx) (grid_y class_idx - 12) (Apps.dec size ++ Apps.text "B") 0xFFFFFF ;;
  let max_display := Z.min (grid_cols_per_class * grid_cols_per_class) total in
  for_each (seqZ 0 max_display) (draw_cell w class_idx used_count) ;;
  let usage_pct := if 0 <? total then used_count * 100 / total else 0 in
  draw_string w (grid_x class_idx + 25) (grid_y class_idx + grid_pixel_size + 3) (Apps.dec usage_pct ++ Apps.text "%") 0xAAAAAA.
Definition draw_legend (w : Z) : M pixels unit :=
  let legend_y := start_y + 2 * (grid_pixel_size + 35) + 5 in
  draw_rect w start_x legend_y 8 8 0xFF0000 ;; draw_string w (start_x + 12) legend_y (Apps.text "Used") 0xFFFFFF ;;
  draw_rect w (start_x + 60) legend_y 8 8 0x00FF00 ;; draw_string w (start_x + 72) legend_y (Apps.text "Free") 0xFFFFFF.
Definition draw_memory_grids_multi (title : list Z) : M avis unit :=
  at_screen (λ w, draw_rect w 400 280 624 320 0x000000 ;; draw_string w 410 290 title 0xFFFF00) ;;
  let classes_to_show := Z.min 6 (Z.of_nat (length SIZE_CLASSES)) in
  for_each (seqZ 0 classes_to_show) (λ class_idx,
    size ← lift (SIZE_CLASSES !! Z.to_nat class_idx);
    let total := total_blocks size in
    free_count ← count_free_blocks (Z.to_nat class_idx) total;
    at_screen (λ w, draw_class w class_idx size total free_count)) ;;
  at_screen draw_legend.

(** ** The demonstration *)
(** [(0..n).collect()] into a [Vec]: room for exactly [n] elements. *)
Definition vec (n elem : Z) : M avis (Z * Layout) :=
  let layout := mkLayout (n * elem) elem in
  p ← alloc_hooked layout; if p =? 0 then panic else mret (p, layout).
Definition drop (v : Z * Layout) : M avis unit := dealloc_hooked v.1 v.2.
Definition show (lines : list string) (title : string) (fuel : nat) : M avis unit :=
  draw_code_snippet (Apps.text <$> lines) ;; draw_memory_grids_multi (Apps.text title) ;; on_clock (TimerDevice.hpet_delay_ms fuel 5000).
(** Up to the loop of [hlt] that it ends in. *)
Definition run_visualization_tests (fuel : nat) : M avis unit :=
  show ["// Initial state"; "// No allocations yet"] "Initial State" fuel ;;
  vec1 ← vec 12 1;
  show ["let vec1: Vec<u8>"; "  = (0..12).collect();"; ""; "// 12 x u8 = 12B"; "// -> 16B size class"] "After 16B alloc" fuel ;;
  vec2 ← vec 50 1;
  show ["let vec2: Vec<u8>"; "  = (0..50).collect();"; ""; "// 50 x u8 = 50B"; "// -> 64B size class"] "After 16B + 64B" fuel ;;
  vec3 ← vec 10 8;
  show ["let vec3: Vec<u64>"; "  = (0..10).collect();"; ""; "// 10 x u64 = 80B"; "// -> 128B size class"] "16B+64B+128B" fuel ;;
  vec4 ← vec 25 1;
  show ["let vec4: Vec<u64>"; "  = (0..25).collect();"; ""; "// 25 x u64 = 200B"; "// -> 256B size class"] "8B+16B+64B+128B" fuel ;;
  vec5 ← vec 8 1;
  show ["let vec5: Vec<u8>"; "  = (0..8).collect();"; ""; "// 8 x u8 = 8B"; "// -> 8B size class"] "All 5 sizes" fuel ;;
  drop vec2 ;; drop vec4 ;;
  show ["drop(vec2);"; "drop(vec4);"; ""; "// Freed 64B and 256B"; "// 8B + 16B + 128B remain"] "After freeing 2" fuel ;;
  drop vec1 ;; drop vec3 ;; drop vec5 ;;
  show ["drop(vec1);"; "drop(vec3);"; "drop(vec5);"; ""; "// All freed!"] "All freed" fuel.

(** [kernel_main] with the feature on, where it sets the heap up. *)
Definition start_allocator_visualization (fuel : nat) (heap_start largest_size fb_virt_base width height : Z) : M avis unit :=
  let heap_size := Z.min largest_size (256 * 1024) in
  on_heap (kinit heap_start heap_size) ;;
  on_framebuffer_init_hook fb_virt_base width height ;; run_visualization_tests fuel.

(** ** The grids *)
Lemma digits_bound k : ∀ fuel n acc, 0 ≤ n < 10 ^ Z.of_nat k → (1 ≤ k)%nat → (length (Apps.digits 10 fuel n acc) ≤ k + length acc)%nat.
Proof.
  induction k as [|k IH]; intros fuel n acc Hn Hk; [lia|]. destruct fuel as [|fuel]; cbn [Apps.digits]; [lia|].
  destruct (Z.ltb_spec n 10); [cbn; lia|]. destruct k as [|k]; [change (10 ^ Z.of_nat 1) with 10 in Hn; lia|].
  etrans; [apply IH; [|lia]|cbn; lia]. rewrite Nat2Z.inj_succ, Z.pow_succ_r in Hn by lia. split; [apply Z.div_pos; lia|apply Z.div_lt_upper_bound; lia].
Qed.
Lemma dec_bound n : 0 ≤ n < 10000 → (length (Apps.dec n) ≤ 4)%nat.
Proof. intros Hn. apply (digits_bound 4 20 n []); [done|lia]. Qed.
Section grids.
Context (W H : Z) (HW : 1024 ≤ W < 2 ^ 32) (HH : 768 ≤ H < 2 ^ 32).
Definition cell_at (k i dx dy : Z) : Z := (grid_y k + i / 20 * 4 + dy) * W + (grid_x k + i mod 20 * 4 + dx).
(** The first [n] cells of grid [k]: [u] of them red, the others green. *)
Definition cells_shown (k u n : Z) (b : pixels) : Prop := ∀ i dx dy, 0 ≤ i < n → 0 ≤ dx < 3 → 0 ≤ dy < 3 →
  b !! cell_at k i dx dy = Some (if i <? u then 0xFF0000 else 0x00FF00).
Definition class_box (k : Z) (i : Z) : Prop := in_rect W (grid_x k) (grid_y k - 12) 100 103 i.
Lemma grid_bounds k : 0 ≤ k < 6 → 410 ≤ grid_x k ≤ 610 ∧ 310 ≤ grid_y k ≤ 425.
Proof. intros Hk. unfold grid_x, grid_y. change grid_pixel_size with 80. change start_x with 410. change start_y with 310. dlia. Qed.
Lemma cell_coords k i dx dy : 0 ≤ k < 6 → 0 ≤ i → 0 ≤ dx < 3 → 0 ≤ dy < 3 →
  cell_at k i dx dy / W = grid_y k + i / 20 * 4 + dy ∧ cell_at k i dx dy mod W = grid_x k + i mod 20 * 4 + dx.
Proof. intros Hk Hi Hx Hy. pose proof (grid_bounds k Hk). pose proof (Z.mod_pos_bound i 20 ltac:(lia)). apply pixel_index. lia. Qed.
Lemma cell_full k i dx dy b : full W H b → 0 ≤ k < 6 → 0 ≤ i < 400 → 0 ≤ dx < 3 → 0 ≤ dy < 3 → is_Some (b !! cell_at k i dx dy).
Proof.
  intros Hf Hk Hi Hx Hy. pose proof (grid_bounds k Hk). pose proof (Z.mod_pos_bound i 20 ltac:(lia)). assert (0 ≤ i / 20 < 20) by dlia. apply (full_index W H); [done|lia|lia].
Qed.
Lemma draw_cell_spec k u i b : full W H b → 0 ≤ k < 6 → 0 ≤ i < 400 →
  wp (draw_cell W k u i) (λ _ b', painted (in_rect W (grid_x k + i mod 20 * 4) (grid_y k + i / 20 * 4) 3 3) (if i <? u then 0xFF0000 else 0x00FF00) b b') b.
Proof.
  intros Hf Hk Hi. pose proof (grid_bounds k Hk). pose proof (Z.mod_pos_bound i 20 ltac:(lia)). assert (0 ≤ i / 20 < 20) by dlia.
  apply (draw_rect_spec W H); [done|lia|nia|lia..].
Qed.
Lemma cells_spec k u n b : full W H b → 0 ≤ k < 6 → 0 ≤ n ≤ 400 →
  wp (for_each (seqZ 0 n) (draw_cell W k u)) (λ _ b', only (class_box k) b b' ∧ cells_shown k u n b') b.
Proof.
  intros Hf Hk Hn. apply (wp_for_range n _ (λ m b', only (class_box k) b b' ∧ cells_shown k u m b')); [lia|split; [done|intros i; lia]|].
  intros m b' Hm [Ho Hs]. pose proof (only_full _ _ _ _ _ Ho Hf) as Hf'. eapply wp_mono; [by apply draw_cell_spec; lia || idtac|]. cbn beta. intros [] b'' Hp. split.
  - eapply only_trans; [exact Ho|]. eapply only_weaken; [|exact (painted_only _ _ _ _ Hp)]. intros p. unfold class_box, in_rect.
    pose proof (Z.mod_pos_bound m 20 ltac:(lia)). assert (0 ≤ m / 20 < 20) by dlia. lia.
  - intros i dx dy Hi Hx Hy. destruct (cell_coords k i dx dy Hk ltac:(lia) Hx Hy) as [E1 E2]. rewrite (Hp _). destruct (decide (i = m)) as [->|Hne].
    + rewrite decide_True; [done|]. split; [unfold in_rect; lia|]. apply cell_full; (done || lia).
    + rewrite decide_False; [apply Hs; lia|]. intros [Hr _]. unfold in_rect in Hr. rewrite E1, E2 in Hr. apply Hne.
      assert (i / 20 = m / 20 ∧ i mod 20 = m mod 20) as [? ?] by lia. rewrite (Z.div_mod i 20), (Z.div_mod m 20) by lia. congruence.
Qed.
Lemma draw_class_spec k size total free b : full W H b → 0 ≤ k < 6 → 0 ≤ size < 10000 → 0 ≤ total → 0 ≤ free →
  wp (draw_class W k size total free) (λ _ b', only (class_box k) b b' ∧ cells_shown k (saturating_sub total free) (Z.min 400 total) b') b.
Proof.
  intros Hf Hk Hsize Ht Hfree. pose proof (grid_bounds k Hk). assert (HW0 : 0 < W) by lia. assert (Hsz : W * H < 2 ^ 64) by nia. unfold draw_class. cbv zeta.
  change (grid_cols_per_class * grid_cols_per_class) with 400. change grid_pixel_size with 80. set (u := saturating_sub total free).
  assert (Hpct : 0 ≤ (if 0 <? total then u * 100 / total else 0) < 10000).
  { destruct (Z.ltb_spec 0 total); [|lia]. assert (0 ≤ u ≤ total) by (unfold u, saturating_sub; lia). split; [apply Z.div_pos; lia|apply Z.div_lt_upper_bound; lia]. }
  revert Hpct. generalize (if 0 <? total then u * 100 / total else 0). intros pct Hpct.
  assert (Hl1 : (length (Apps.dec size ++ Apps.text "B") ≤ 5)%nat) by (rewrite length_app; pose proof (dec_bound size Hsize); change (length (Apps.text "B")) with 1%nat; lia).
  assert (Hl2 : (length (Apps.dec pct ++ Apps.text "%") ≤ 5)%nat) by (rewrite length_app; pose proof (dec_bound pct Hpct); change (length (Apps.text "%")) with 1%nat; lia).
  revert Hl1 Hl2. generalize (Apps.dec size ++ Apps.text "B") (Apps.dec pct ++ Apps.text "%"). intros s1 s2 Hl1 Hl2.
  wp_step. eapply wp_mono; [apply (draw_string_spec W H); (done || lia)|]. cbn beta. intros [] b1 O1. pose proof (only_full _ _ _ _ _ O1 Hf) as F1.
  wp_step. eapply wp_mono; [apply (cells_spec k u (Z.min 400 total) b1 F1 Hk); lia|]. cbn beta. intros [] b2 [O2 S2]. pose proof (only_full _ _ _ _ _ O2 F1) as F2.
  eapply wp_mono; [apply (draw_string_spec W H); (done || lia)|]. cbn beta. intros [] b3 O3. split.
  - eapply only_trans; [|eapply only_trans; [exact O2|]]; (eapply only_weaken; [|eassumption]); intros i; unfold class_box, in_rect; lia.
  - intros i dx dy Hi Hx Hy. rewrite (proj2 O3); [by apply S2|]. destruct (cell_coords k i dx dy Hk ltac:(lia) Hx Hy) as [E1 E2]. unfold in_rect. rewrite E1.
    assert (0 ≤ i / 20 < 20) by (clear -Hi; dlia). lia.
Qed.
End grids.

(** ** A whole picture *)
Section pictures.
Context (W H : Z) (HW : 1024 ≤ W < 2 ^ 32) (HH : 768 ≤ H < 2 ^ 32).
Definition with_screen (b : pixels) (s : avis) : avis := mkAvis (av_heap s) (USED_COUNTS s) (FB_BASE s) (SCREEN_WIDTH s) (SCREEN_HEIGHT s) b (av_hpet s).
Record screen_ok (s : avis) : Prop := {
  sc_base : FB_BASE s ≠ 0; sc_size : SCREEN_WIDTH s = W ∧ SCREEN_HEIGHT s = H; sc_full : full W H (av_screen s);
  sc_counts : length (USED_COUNTS s) = 10%nat ∧ Forall (λ u, 0 ≤ u) (USED_COUNTS s) }.
(** The cells of the six grids say what is in use. *)
Definition grids_shown (counts : list Z) (b : pixels) : Prop := ∀ k size u, 0 ≤ k < 6 →
  SIZE_CLASSES !! Z.to_nat k = Some size → counts !! Z.to_nat k = Some u → cells_shown W k u (Z.min 400 (total_blocks size)) b.
Lemma at_screen_spec (m : Z → M pixels unit) Q s : screen_ok s → wp (m W) (λ _ b', Q tt (with_screen b' s)) (av_screen s) → wp (at_screen m) Q s.
Proof.
  intros [Hb [Hw _] _ _] Hm. unfold at_screen, screen_size. do 4 wp_step. rewrite (proj2 (Z.eqb_neq _ _) Hb). cbn [fst]. unfold wrap. rewrite Hw, Z.mod_small by lia.
  apply wp_zoom. eapply wp_mono; [exact Hm|]. by intros [] b'.
Qed.
Lemma with_screen_ok s b : screen_ok s → full W H b → screen_ok (with_screen b s).
Proof. by intros [] Hb; split. Qed.
Lemma cells_frame k j u n b b' : 0 ≤ k < 6 → 0 ≤ j < 6 → k ≠ j → n ≤ 400 → only (class_box W j) b b' → cells_shown W k u n b → cells_shown W k u n b'.
Proof.
  intros Hk Hj Hne Hn Ho Hs i dx dy Hi Hx Hy. rewrite (proj2 Ho); [by apply Hs|]. destruct (cell_coords W HW k i dx dy Hk ltac:(lia) Hx Hy) as [E1 E2].
  unfold class_box, in_rect. rewrite E1, E2. assert (0 ≤ i / 20 < 20) by (clear -Hi Hn; dlia). pose proof (Z.mod_pos_bound i 20 ltac:(lia)).
  unfold grid_x, grid_y. change grid_pixel_size with 80. change start_x with 410. change start_y with 310.
  assert (k mod 3 ≠ j mod 3 ∨ k / 3 ≠ j / 3) by (clear -Hk Hj Hne; dlia). assert (0 ≤ k mod 3 < 3 ∧ 0 ≤ j mod 3 < 3) by (clear; split; apply Z.mod_pos_bound; lia). lia.
Qed.
Lemma class_sizes k : 0 ≤ k < 6 → ∃ size, SIZE_CLASSES !! Z.to_nat k = Some size ∧ 0 ≤ size < 10000 ∧ 0 ≤ total_blocks size.
Proof.
  intros Hk. assert (k = 0 ∨ k = 1 ∨ k = 2 ∨ k = 3 ∨ k = 4 ∨ k = 5) as [->|[->|[->|[->|[->| ->]]]]] by lia; (eexists; split; [reflexivity|]; split; [lia|by vm_compute]).
Qed.
Lemma count_free_spec k total s : screen_ok s → 0 ≤ k < 6 → wp (count_free_blocks (Z.to_nat k) total) (λ f s', s' = s ∧ 0 ≤ f ∧ ∃ u, USED_COUNTS s !! Z.to_nat k = Some u ∧ 0 ≤ u ∧ f = saturating_sub total u) s.
Proof.
  intros [_ _ _ [Hl Hp]] Hk. unfold count_free_blocks. wp_step. wp_step. unfold id. destruct (lookup_lt_is_Some_2 (USED_COUNTS s) (Z.to_nat k) ltac:(lia)) as [u Hu].
  wp_step. wp_step; [exact Hu|]. wp_step. pose proof (Forall_lookup_1 _ _ _ _ Hp Hu). split_and!; [done|unfold saturating_sub; lia|]. by exists u.
Qed.
Lemma grids_multi_spec title s : screen_ok s → (length title < 1000)%nat →
  wp (draw_memory_grids_multi title) (λ _ s', ∃ b', s' = with_screen b' s ∧ full W H b' ∧ grids_shown (USED_COUNTS s) b') s.
Proof.
  intros Hs Ht. assert (HW0 : 0 < W) by lia. assert (Hsz : W * H < 2 ^ 64) by nia. unfold draw_memory_grids_multi. cbv zeta. wp_step. apply at_screen_spec; [done|]. wp_step.
  eapply wp_mono; [apply (draw_rect_spec W H); (exact (sc_full _ Hs) || lia)|]. cbn beta. intros [] b1 O1%painted_only. pose proof (only_full _ _ _ _ _ O1 (sc_full _ Hs)) as F1.
  eapply wp_mono; [apply (draw_string_spec W H); (done || lia)|]. cbn beta. intros [] b2 O2. pose proof (only_full _ _ _ _ _ O2 F1) as F2.
  change (Z.min 6 (Z.of_nat (length SIZE_CLASSES))) with 6. wp_step.
  eapply wp_mono; [apply (wp_for_range 6 _ (λ k s', ∃ b', s' = with_screen b' s ∧ full W H b' ∧ ∀ j size u, 0 ≤ j < k →
    SIZE_CLASSES !! Z.to_nat j = Some size → USED_COUNTS s !! Z.to_nat j = Some u → cells_shown W j u (Z.min 400 (total_blocks size)) b')); [lia| |]|].
  - exists b2. split_and!; [done|done|lia].
  - intros k s' Hk (b & -> & Fb & Sb). destruct (class_sizes k Hk) as (size & Hsz0 & Hsz1 & Htot). wp_step. wp_step; [exact Hsz0|]. wp_step.
    assert (Hs' : screen_ok (with_screen b s)) by by apply with_screen_ok. eapply wp_mono; [by apply count_free_spec|]. cbn beta. intros f ? (-> & Hf & u & Hu & Hu0 & ->).
    apply at_screen_spec; [done|]. eapply wp_mono; [apply (draw_class_spec W H); done|]. cbn beta. intros [] b' [Ob Cb]. exists b'. split_and!; [done|by eapply only_full|].
    intros j size' u' Hj Hj1 Hj2. destruct (decide (j = k)) as [->|Hne]; [|eapply cells_frame; [| |exact Hne| |exact Ob|]; [lia|lia|lia|apply Sb; (done || lia)]].
    rewrite Hsz0 in Hj1. injection Hj1 as <-. cbn [USED_COUNTS with_screen] in Hu. rewrite Hu in Hj2. injection Hj2 as <-. intros i dx dy Hi Hx Hy. rewrite Cb by done.
    destruct (Z.ltb_spec i u), (Z.ltb_spec i (saturating_sub (total_blocks size) (saturating_sub (total_blocks size) u))); unfold saturating_sub in *; (done || lia).
  - cbn beta. intros [] ? (b & -> & Fb & Sb). apply at_screen_spec; [by apply with_screen_ok|]. unfold draw_legend. cbn [av_screen with_screen].
    change (start_y + 2 * (grid_pixel_size + 35) + 5) with 545. change start_x with 410.
    wp_step. eapply wp_mono; [apply (draw_rect_spec W H); (done || lia)|]. cbn beta. intros [] b3 O3%painted_only. pose proof (only_full _ _ _ _ _ O3 Fb) as F3.
    wp_step. eapply wp_mono; [apply (draw_string_spec W H); (done || cbn; lia)|]. cbn beta. intros [] b4 O4. pose proof (only_full _ _ _ _ _ O4 F3) as F4.
    wp_step. eapply wp_mono; [apply (draw_rect_spec W H); (done || lia)|]. cbn beta. intros [] b5 O5%painted_only. pose proof (only_full _ _ _ _ _ O5 F4) as F5.
    eapply wp_mono; [apply (draw_string_spec W H); (done || cbn; lia)|]. cbn beta. intros [] b6 O6. pose proof (only_full _ _ _ _ _ O6 F5) as F6.
    exists b6. split_and!; [done|done|]. intros k size u Hk Hk1 Hk2 i dx dy Hi Hx Hy. destruct (cell_coords W HW k i dx dy Hk ltac:(lia) Hx Hy) as [E1 E2].
    pose proof (grid_bounds k Hk). assert (0 ≤ i / 20 < 20) by (clear -Hi; dlia).
    rewrite (proj2 O6), (proj2 O5), (proj2 O4), (proj2 O3); [by apply (Sb k size u)|..]; unfold in_rect; rewrite E1; lia.
Qed.
End pictures.

(** ** The counts *)
(** The blocks of a class, and how many lists of different ones can hold. *)
Definition blocks (R : ranges) (c : nat) : Z := (en R c - st R c) / csize c.
Lemma blocks_bound R c l : NoDup l → (∀ a, a ∈ l → slab_block R c a) → Z.of_nat (length l) ≤ Z.max 0 (blocks R c).
Proof.
  intros Hnd Hb. pose proof (csize_pos c) as Hc. set (idx := λ a, (a - st R c) / csize c).
  assert (Hidx : ∀ a, a ∈ l → a = st R c + idx a * csize c ∧ 0 ≤ idx a < blocks R c).
  { intros a Ha. destruct (Hb a Ha) as (_ & Hst & [i Hi] & Hen). unfold idx, blocks. rewrite Hi, Z.div_mul by lia. split; [lia|]. split; [nia|].
    assert (i + 1 ≤ (en R c - st R c) / csize c) by (apply Z.div_le_lower_bound; nia). lia. }
  assert (Hsub : (idx <$> l) ⊆+ seqZ 0 (blocks R c)).
  { apply NoDup_submseteq.
    - apply NoDup_fmap_2_strong; [|done]. intros a a' Ha Ha' He. destruct (Hidx a Ha) as [E _], (Hidx a' Ha') as [E' _]. rewrite E, E', He. done.
    - intros x (a & -> & Ha)%list_elem_of_fmap. apply elem_of_seqZ. destruct (Hidx a Ha). lia. }
  apply submseteq_length in Hsub. rewrite length_fmap, length_seqZ in Hsub. lia.
Qed.
Section run.
Context (R : ranges) (rs sz : Z) (W H : Z) (HW : 1024 ≤ W < 2 ^ 32) (HH : 768 ≤ H < 2 ^ 32).
Implicit Types (SL FL : nat → list Z).
(** The heap is in order, and each count is the number of the class's blocks that are
    not in its list. *)
Record heap_ok SL FL (s : avis) : Prop := {
  ho_inv : kinv R rs sz SL FL (av_heap s);
  ho_blocks : ∀ c, (c < 10)%nat → 0 ≤ blocks R c < 2 ^ 64;
  ho_counts : length (USED_COUNTS s) = 10%nat ∧ ∀ c, (c < 10)%nat → USED_COUNTS s !! c = Some (blocks R c - Z.of_nat (length (SL c))) }.
Definition same_screen (s s' : avis) : Prop :=
  FB_BASE s' = FB_BASE s ∧ SCREEN_WIDTH s' = SCREEN_WIDTH s ∧ SCREEN_HEIGHT s' = SCREEN_HEIGHT s ∧ av_screen s' = av_screen s ∧ av_hpet s' = av_hpet s.
Lemma kinv_pop SL FL k k' c a l : kinv R rs sz SL FL k → SL c = a :: l → sinv R (<[c:=l]> SL) k' → kmem k' = kmem k → kbuddy k' = kbuddy k → kinv R rs sz (<[c:=l]> SL) FL k'.
Proof. intros Hk HSL Hs Hm Hb. eapply kinv_slab_step; [done|done|done|]. intros p _. by rewrite Hm. Qed.
Lemma heap_counts_pop SL c a l counts : (c < 10)%nat → SL c = a :: l → length counts = 10%nat → 0 ≤ blocks R c < 2 ^ 64 → Z.of_nat (length (SL c)) ≤ blocks R c →
  (∀ d, (d < 10)%nat → counts !! d = Some (blocks R d - Z.of_nat (length (SL d)))) →
  ∀ d, (d < 10)%nat → alter (λ u, wrap 64 (u + 1)) c counts !! d = Some (blocks R d - Z.of_nat (length (<[c:=l]> SL d))).
Proof.
  intros Hc HSL Hl Hb Hle Hcs d Hd. destruct (decide (c = d)) as [<-|Hne].
  - rewrite list_lookup_alter_eq, (Hcs c Hc), fn_lookup_insert, HSL. cbn [fmap option_fmap option_map length]. rewrite HSL in Hle. cbn [length] in Hle. unfold wrap. rewrite Z.mod_small by lia. f_equal. lia.
  - rewrite list_lookup_alter_ne, fn_lookup_insert_ne by done. by apply Hcs.
Qed.
Lemma slab_length SL FL s c : heap_ok SL FL s → (c < 10)%nat → Z.of_nat (length (SL c)) ≤ blocks R c.
Proof.
  intros Hs Hc. pose proof (ki_slab _ _ _ _ _ _ (ho_inv _ _ _ Hs)) as Hsl. pose proof (ho_blocks _ _ _ Hs c Hc).
  pose proof (blocks_bound R c (SL c) (si_nodup _ _ _ Hsl c Hc) (λ a, si_blocks _ _ _ Hsl c a Hc)). lia.
Qed.
Lemma alloc_hooked_slab layout c a l SL FL s : heap_ok SL FL s → 0 ≤ request layout → size_to_class (request layout) = Some c → SL c = a :: l →
  wp (alloc_hooked layout) (λ r s', r = a ∧ heap_ok (<[c:=l]> SL) FL s' ∧ same_screen s s') s.
Proof.
  intros Hs H0 Hc HSL. destruct (size_to_class_spec _ _ H0 Hc) as (Hlt & _). assert (Hc10 : (c < 10)%nat) by exact Hlt.
  pose proof (ki_slab _ _ _ _ _ _ (ho_inv _ _ _ Hs)) as Hsl. pose proof (slab_length _ _ _ _ Hs Hc10) as Hlen.
  unfold alloc_hooked. fold (request layout). rewrite Hc. wp_step. apply wp_zoom. eapply slab_allocate_spec; [done|done|]. rewrite HSL.
  intros k' Hk' Hm Hbd. unfold on_allocate_hook. rewrite (proj2 (Nat.ltb_lt c 10) Hc10). wp_step. wp_step. wp_step.
  split_and!; [done| |done]. split; cbn; [by eapply kinv_pop; [apply Hs|done..]|apply Hs|].
  destruct (ho_counts _ _ _ Hs) as [Hl Hcs]. split; [by rewrite length_alter|]. eapply heap_counts_pop; [done|done|done|by apply Hs|done|done].
Qed.
Lemma fallback_hooked layout SL FL s : heap_ok SL FL s → 0 ≤ lsize layout →
  wp (p ← on_heap (on_buddy (Buddy.allocate layout)); mret (default 0 p)) (λ _ s', ∃ FL', heap_ok SL FL' s' ∧ same_screen s s') s.
Proof.
  intros Hs Hsz. pose proof (ho_inv _ _ _ Hs) as Hk. pose proof (ki_buddy _ _ _ _ _ _ Hk) as Hb. wp_step. apply wp_zoom, wp_zoom.
  eapply wp_mono; [eapply (allocate_spec rs sz); [apply Hb|exact Hb]|]. intros p b' Hpost. wp_step. enough (∃ FL', kinv R rs sz SL FL' (with_buddy_part b' (av_heap s))) as [FL' ?].
  { exists FL'. split; [|done]. split; [done|apply Hs..]. }
  destruct p as [a|]; [|destruct Hpost as [-> _]; exists FL; unfold with_buddy_part, buddy_part; by destruct (av_heap s)].
  destruct Hpost as (FL' & Hb' & _ & _ & Hf). exists FL'. eapply kinv_buddy_step; [done|done|]. intros p Hp. apply Hf. intros Hc. apply (covers_above rs sz) in Hc; [lia|apply Hb].
Qed.
(** Neither hook loses count, whichever part of the allocator serves the request. *)
Lemma alloc_hooked_spec layout SL FL s : heap_ok SL FL s → 0 ≤ lsize layout →
  wp (alloc_hooked layout) (λ _ s', ∃ SL' FL', heap_ok SL' FL' s' ∧ same_screen s s') s.
Proof.
  intros Hs Hsz. assert (H0 : 0 ≤ request layout) by (unfold request; lia).
  pose proof (fallback_hooked layout SL FL s Hs Hsz) as Hfb. destruct (size_to_class (request layout)) as [c|] eqn:Hc; [destruct (SL c) as [|a l] eqn:HSL|].
  - destruct (size_to_class_spec _ _ H0 Hc) as (Hlt & _). unfold alloc_hooked. fold (request layout). rewrite Hc. wp_step. apply wp_zoom.
    eapply slab_allocate_spec; [apply (ki_slab _ _ _ _ _ _ (ho_inv _ _ _ Hs))|done|]. rewrite HSL. replace (mkAvis _ _ _ _ _ _ _) with s by (by destruct s).
    eapply wp_mono; [exact Hfb|]. intros r s' (FL' & ?). by exists SL, FL'.
  - eapply wp_mono; [by eapply alloc_hooked_slab|]. intros r s' (_ & ?). by exists (<[c:=l]> SL), FL.
  - unfold alloc_hooked. fold (request layout). rewrite Hc. eapply wp_mono; [exact Hfb|]. intros r s' (FL' & ?). by exists SL, FL'.
Qed.
Lemma vec_spec n elem c a l SL FL s : heap_ok SL FL s → 0 ≤ Z.max (n * elem) elem → size_to_class (Z.max (n * elem) elem) = Some c → SL c = a :: l →
  wp (vec n elem) (λ r s', r = (a, mkLayout (n * elem) elem) ∧ heap_ok (<[c:=l]> SL) FL s' ∧ same_screen s s') s.
Proof.
  intros Hs H0 Hc HSL. destruct (size_to_class_spec _ _ H0 Hc) as (Hlt & _). pose proof (ki_slab _ _ _ _ _ _ (ho_inv _ _ _ Hs)) as Hsl.
  assert (Ha : 0 < a) by (apply (slab_block_ptr_ok R c a (si_geo _ _ _ Hsl)), (si_blocks _ _ _ Hsl); [done|rewrite HSL; by left]).
  unfold vec. cbv zeta. wp_step. eapply wp_mono; [by eapply (alloc_hooked_slab (mkLayout (n * elem) elem) c)|]. cbn beta. intros r s' (-> & Hh & Hsame).
  rewrite (proj2 (Z.eqb_neq a 0)) by lia. wp_step. by split_and!.
Qed.
Lemma drop_spec a layout c SL FL s : heap_ok SL FL s → 0 < lsize layout → size_to_class (Z.max (lsize layout) (lalign layout)) = Some c → (c < 10)%nat →
  slab_block R c a → a ∉ SL c → wp (drop (a, layout)) (λ _ s', heap_ok (<[c:=a :: SL c]> SL) FL s' ∧ same_screen s s') s.
Proof.
  intros Hs Hz Hc Hc10 Hblk Hnin. pose proof (ho_inv _ _ _ Hs) as Hk. pose proof (ki_slab _ _ _ _ _ _ Hk) as Hsl.
  assert (Ha : a < rs) by (pose proof (ki_below _ _ _ _ _ _ Hk c Hc10); destruct Hblk as (_ & _ & _ & ?); pose proof (csize_pos c); lia).
  assert (Hlen : Z.of_nat (S (length (SL c))) ≤ blocks R c).
  { pose proof (blocks_bound R c (a :: SL c)) as Hbb. cbn [length] in Hbb. pose proof (ho_blocks _ _ _ Hs c Hc10). etrans; [apply Hbb|lia].
    - apply list.NoDup_cons. split; [done|by apply Hsl].
    - intros x. rewrite elem_of_cons. intros [->|Hx]; [done|by apply (si_blocks _ _ _ Hsl)]. }
  unfold drop, dealloc_hooked. cbn [fst snd]. rewrite (proj2 (Z.eqb_neq _ 0)) by lia. wp_step. wp_step. cbv zeta.
  rewrite (br_start _ _ _ _ (bi_repr _ _ _ _ (ki_buddy _ _ _ _ _ _ Hk)) : region_start (kbuddy (av_heap s)) = rs), (proj2 (Z.leb_gt _ _)), Hc by done.
  destruct (ho_counts _ _ _ Hs) as [Hl Hcs]. unfold on_deallocate_hook. rewrite (proj2 (Nat.ltb_lt c 10) Hc10). wp_step. wp_step. wp_step. unfold id.
  wp_step. wp_step; [by apply Hcs|]. wp_step. wp_step; [apply Z.ltb_lt; lia|]. wp_step. apply wp_zoom.
  eapply slab_deallocate_spec; [exact Hsl|done|done|]. intros k' Hk' Hbd Hm. split; [|done]. split; cbn; [|apply Hs|].
  - eapply kinv_slab_step; [exact Hk|exact Hk'|done|]. intros p Hp. apply Hm. lia.
  - split; [by rewrite length_insert|]. intros d Hd. destruct (decide (c = d)) as [<-|Hne].
    + rewrite list_lookup_insert_eq by lia. rewrite fn_lookup_insert. cbn [length]. f_equal. lia.
    + rewrite list_lookup_insert_ne, fn_lookup_insert_ne by done. by apply Hcs.
Qed.

Lemma dealloc_hooked_spec a layout SL FL s : heap_ok SL FL s → owned R rs sz SL FL a layout → 0 < lsize layout →
  wp (dealloc_hooked a layout) (λ _ s', ∃ SL' FL', heap_ok SL' FL' s' ∧ same_screen s s') s.
Proof.
  intros Hs [[Ha Hh]|[Ha (c & Hc & Hblk & Hnin)]] Hz.
  - pose proof (ho_inv _ _ _ Hs) as Hk. pose proof (ki_buddy _ _ _ _ _ _ Hk) as Hb. unfold dealloc_hooked. rewrite (proj2 (Z.eqb_neq _ 0)) by lia. wp_step. wp_step. cbv zeta.
    rewrite (br_start _ _ _ _ (bi_repr _ _ _ _ Hb) : region_start (kbuddy (av_heap s)) = rs), (proj2 (Z.leb_le _ _)) by done.
    apply wp_zoom, wp_zoom. eapply wp_mono; [apply (deallocate_spec rs sz (bi_geo _ _ _ _ Hb) FL); done|]. cbn beta. intros [] b' (FL' & Hb' & _ & Hf). exists SL, FL'. split; [|done].
    split; [|apply Hs..]. eapply kinv_buddy_step; [done|done|]. intros p Hp. apply Hf. unfold in_block. intros [Hco|Hco]; [apply (covers_above rs sz) in Hco; [lia|apply Hb]|lia].
  - eapply wp_mono; [eapply (drop_spec a layout c); [done|done|done|apply Hblk|done|done]|]. intros [] s' ?. by exists (<[c:=a :: SL c]> SL), FL.
Qed.
(** To the heap the hooks make no difference. *)
Lemma alloc_hooked_heap layout s r s' : alloc_hooked layout s = Some (r, s') → alloc layout (av_heap s) = Some (r, av_heap s').
Proof.
  unfold alloc_hooked, alloc, on_heap, zoom, mbind, M_bind. destruct (size_to_class _) as [c|].
  - destruct (slab_allocate c (av_heap s)) as [[[a|] k]|]; [| |done].
    + unfold on_allocate_hook. destruct (_ <? _)%nat; cbn; by intros [= <- <-].
    + cbn. destruct (on_buddy _ k) as [[p k']|]; [|done]. cbn. by intros [= <- <-].
  - destruct (on_buddy _ _) as [[p k']|]; [|done]. cbn. by intros [= <- <-].
Qed.
Lemma dealloc_hooked_heap p layout s r s' : dealloc_hooked p layout s = Some (r, s') → dealloc p layout (av_heap s) = Some (r, av_heap s').
Proof.
  unfold dealloc_hooked, dealloc, on_heap, zoom, mbind, M_bind, gets. destruct (_ =? 0); [by intros [= <- <-]|]. destruct (_ <=? p).
  - destruct (on_buddy _ _) as [[? ?]|]; [|done]. cbn. by intros [= <- <-].
  - destruct (size_to_class _) as [c|]; [|by intros [= <- <-]].
    assert (Hh : ∀ s1, on_deallocate_hook c s = Some (tt, s1) → av_heap s1 = av_heap s).
    { intros s1. unfold on_deallocate_hook, mbind, M_bind, gets, lift, id, assert_. destruct (_ <? _)%nat; [|by intros [= <-]]. destruct (_ !! c); [|done]. destruct (0 <? _); [|done]. by intros [= <-]. }
    destruct (on_deallocate_hook c s) as [[[] s1]|]; [|done]. rewrite (Hh s1 eq_refl). destruct (slab_deallocate c p _) as [[? ?]|]; [|done]. cbn. by intros [= <- <-].
Qed.

(** ** The demonstration *)
(** The clock's delays end. *)
Context (fuel : nat) (clock_ok : TimerDevice.hpet → Prop).
Context (Hclock : ∀ h, clock_ok h → wp (TimerDevice.hpet_delay_ms fuel 5000) (λ _ h', clock_ok h') h).
Record alive SL FL (s : avis) : Prop := {
  al_heap : heap_ok SL FL s; al_screen : FB_BASE s ≠ 0 ∧ SCREEN_WIDTH s = W ∧ SCREEN_HEIGHT s = H ∧ full W H (av_screen s); al_clock : clock_ok (av_hpet s) }.
Lemma alive_screen SL FL s : alive SL FL s → screen_ok W H s.
Proof.
  intros [Hh (Hb & Hw & Hhh & Hf) _]. split; [done|done|done|]. destruct (ho_counts _ _ _ Hh) as [Hl Hc]. split; [done|]. apply Forall_lookup. intros c u Hu.
  pose proof (lookup_lt_Some _ _ _ Hu). rewrite Hc in Hu by lia. injection Hu as <-. pose proof (slab_length _ _ _ c Hh ltac:(lia)). lia.
Qed.
Lemma alive_step SL FL SL' s s' : alive SL FL s → heap_ok SL' FL s' → same_screen s s' → alive SL' FL s'.
Proof. intros [_ Hs Hc] Hh (E1 & E2 & E3 & E4 & E5). split; [done|by rewrite E1, E2, E3, E4|by rewrite E5]. Qed.
Definition lines_ok (lines : list (list Z)) : Prop := (length lines ≤ 40)%nat ∧ Forall (λ l, (length l < 1000)%nat) lines.
Lemma snippet_spec lines s : screen_ok W H s → lines_ok lines → wp (draw_code_snippet lines) (λ _ s', ∃ b', s' = with_screen b' s ∧ full W H b') s.
Proof.
  intros Hs [Hl Hls]. assert (HW0 : 0 < W) by lia. assert (Hsz : W * H < 2 ^ 64) by nia. unfold draw_code_snippet. apply (at_screen_spec W H HW); [done|].
  wp_step. eapply wp_mono; [apply (draw_rect_spec W H); (exact (sc_full _ _ _ Hs) || lia)|]. cbn beta. intros [] b1 O1%painted_only. pose proof (only_full _ _ _ _ _ O1 (sc_full _ _ _ Hs)) as F1.
  wp_step. eapply wp_mono; [apply (draw_string_spec W H); (done || cbn; lia)|]. cbn beta. intros [] b2 O2. pose proof (only_full _ _ _ _ _ O2 F1) as F2.
  eapply wp_mono; [apply (wp_for_each _ (λ _ b', full W H b'))|]; [done| |intros [] b' Hb'; by exists b'].
  intros dn [i line] todo b' Heq Hb'. assert (Hi : imap pair lines !! length dn = Some (i, line)) by (by rewrite Heq, list_lookup_middle).
  rewrite list_lookup_imap in Hi. destruct (lines !! length dn) as [ln|] eqn:E; [|done]. injection Hi as <- <-.
  pose proof (lookup_lt_Some _ _ _ E). pose proof (Forall_lookup_1 _ _ _ _ Hls E) as Hln. cbn beta in Hln.
  eapply wp_mono; [apply (draw_string_spec W H); (done || lia)|]. cbn beta. intros [] b'' O. by eapply only_full.
Qed.
Lemma show_run lines title SL FL s : alive SL FL s → lines_ok (Apps.text <$> lines) → (length (Apps.text title) < 1000)%nat →
  wp (show lines title fuel) (λ _ s', alive SL FL s' ∧ av_heap s' = av_heap s ∧ USED_COUNTS s' = USED_COUNTS s ∧ grids_shown W (USED_COUNTS s) (av_screen s')) s.
Proof.
  intros Ha Hl Ht. pose proof (alive_screen _ _ _ Ha) as Hs. destruct Ha as [Hh (Hb & Hw & Hhh & Hf) Hc]. unfold show. wp_step.
  eapply wp_mono; [by apply snippet_spec|]. cbn beta. intros [] ? (b1 & -> & F1). wp_step.
  eapply wp_mono; [apply (grids_multi_spec W H HW HH); [by apply with_screen_ok|done]|]. cbn beta. intros [] ? (b2 & -> & F2 & G2).
  apply wp_zoom. eapply wp_mono; [by apply Hclock|]. cbn beta. intros [] h' Hc'. split_and!; [|done|done|exact G2]. split; [|done|done]. destruct Hh. by split.
Qed.
Lemma heap_ok_ext SL SL' FL s : (∀ c, (c < 10)%nat → SL c = SL' c) → heap_ok SL FL s → heap_ok SL' FL s.
Proof.
  intros He [[[Hg Hc Hs Hb Hn] Hbu Hbe] Hbl [Hl Hcs]]. split; [split; [split|done|done]|done|split; [done|]].
  - done.
  - intros c Hlt. rewrite <-He by exact Hlt. by apply Hc.
  - intros c Hlt. rewrite <-He by exact Hlt. by apply Hs.
  - intros c a Hlt. rewrite <-He by exact Hlt. by apply Hb.
  - intros c Hlt. rewrite <-He by exact Hlt. by apply Hn.
  - intros c Hlt. rewrite <-He by done. by apply Hcs.
Qed.
Lemma lines_fit lines : ((length lines <=? 40)%nat && forallb (λ l, (String.length l <? 1000)%nat) lines) = true → lines_ok (Apps.text <$> lines).
Proof.
  intros [Hl%Nat.leb_le Hf]%andb_true_iff. split; [by rewrite length_fmap|]. apply Forall_fmap, Forall_forall. intros l Hin. cbn.
  rewrite forallb_forall in Hf. specialize (Hf l ltac:(first [exact Hin | by apply list_elem_of_In])). apply Nat.ltb_lt in Hf. unfold Apps.text. rewrite length_fmap.
  clear -Hf. enough (E : ∀ s, length (String.list_ascii_of_string s) = String.length s) by (by rewrite E). induction s as [|c s IH]; cbn; [done|by rewrite IH].
Qed.
(** A vector is made and the picture drawn. *)
Lemma vec_show n elem c a l lines title SL FL s (k : Z * Layout → M avis unit) Q : alive SL FL s → 0 ≤ Z.max (n * elem) elem → size_to_class (Z.max (n * elem) elem) = Some c → SL c = a :: l →
  lines_ok (Apps.text <$> lines) → (length (Apps.text title) < 1000)%nat → (∀ s', alive (<[c:=l]> SL) FL s' → wp (k (a, mkLayout (n * elem) elem)) Q s') →
  wp (v ← vec n elem; show lines title fuel ;; k v) Q s.
Proof.
  intros Ha H0 Hc HSL Hl Ht Hk. wp_step. eapply wp_mono; [by eapply vec_spec; [apply Ha|..]|]. cbn beta. intros r s1 (-> & Hh & Hsame). wp_step.
  eapply wp_mono; [apply show_run; [by eapply alive_step|done|done]|]. cbn beta. intros [] s2 (Ha2 & _). by apply Hk.
Qed.
Lemma drop_alive a n elem c SL FL s : alive SL FL s → 0 < n * elem → size_to_class (Z.max (n * elem) elem) = Some c → (c < 10)%nat → slab_block R c a → a ∉ SL c →
  wp (drop (a, mkLayout (n * elem) elem)) (λ _ s', alive (<[c:=a :: SL c]> SL) FL s') s.
Proof.
  intros Ha Hz Hc Hc10 Hb Hn. eapply wp_mono; [by eapply drop_spec; [apply Ha|..]|]. cbn beta. intros [] s' [Hh Hs]. by eapply alive_step.
Qed.
Lemma tests_run SL FL s : alive SL FL s → (∀ c, (c < 5)%nat → SL c ≠ []) →
  wp (run_visualization_tests fuel) (λ _ s', alive SL FL s' ∧ grids_shown W (USED_COUNTS s') (av_screen s')) s.
Proof.
  intros Ha Hne. assert (Hhd : ∀ c, (c < 5)%nat → ∃ a l, SL c = a :: l ∧ slab_block R c a ∧ a ∉ l).
  { intros c Hc. pose proof (ki_slab _ _ _ _ _ _ (ho_inv _ _ _ (al_heap _ _ _ Ha))) as Hsl. assert (Hc' : (c < NUM_SIZE_CLASSES)%nat) by (change NUM_SIZE_CLASSES with 10%nat; lia).
    pose proof (si_nodup _ _ _ Hsl c Hc') as Hnd. pose proof (si_blocks _ _ _ Hsl c) as Hb. specialize (Hne c Hc). destruct (SL c) as [|a l]; [done|].
    exists a, l. split_and!; [done|apply Hb; [done|by left]|by apply list.NoDup_cons in Hnd as []]. }
  destruct (Hhd 0%nat ltac:(lia)) as (a0 & l0 & E0 & B0 & N0). destruct (Hhd 1%nat ltac:(lia)) as (a1 & l1 & E1 & B1 & N1). destruct (Hhd 2%nat ltac:(lia)) as (a2 & l2 & E2 & B2 & N2).
  destruct (Hhd 3%nat ltac:(lia)) as (a3 & l3 & E3 & B3 & N3). destruct (Hhd 4%nat ltac:(lia)) as (a4 & l4 & E4 & B4 & N4). clear Hhd Hne.
  unfold run_visualization_tests. wp_step. eapply wp_mono; [apply show_run; [exact Ha|by apply lines_fit|cbn; lia]|]. cbn beta. intros [] t (Ht & _). clear Ha s. rename t into s, Ht into Ha.
  eapply vec_show; [exact Ha|lia|reflexivity|exact E1|by apply lines_fit|cbn; lia|]. clear Ha s. intros s Ha.
  eapply vec_show; [exact Ha|lia|reflexivity|exact E3|by apply lines_fit|cbn; lia|]. clear Ha s. intros s Ha.
  eapply vec_show; [exact Ha|lia|reflexivity|exact E4|by apply lines_fit|cbn; lia|]. clear Ha s. intros s Ha.
  eapply vec_show; [exact Ha|lia|reflexivity|exact E2|by apply lines_fit|cbn; lia|]. clear Ha s. intros s Ha.
  eapply vec_show; [exact Ha|lia|reflexivity|exact E0|by apply lines_fit|cbn; lia|]. clear Ha s. intros s Ha.
  wp_step. eapply wp_mono; [eapply (drop_alive a3 50 1 3); [exact Ha|lia|reflexivity|lia|exact B3|exact N3]|]. cbn beta. clear Ha s. intros [] s Ha.
  wp_step. eapply wp_mono; [eapply (drop_alive a2 25 1 2); [exact Ha|lia|reflexivity|lia|exact B2|exact N2]|]. cbn beta. clear Ha s. intros [] s Ha.
  wp_step. eapply wp_mono; [apply show_run; [exact Ha|by apply lines_fit|cbn; lia]|]. cbn beta. intros [] t (Ht & _). clear Ha s. rename t into s, Ht into Ha.
  wp_step. eapply wp_mono; [eapply (drop_alive a1 12 1 1); [exact Ha|lia|reflexivity|lia|exact B1|exact N1]|]. cbn beta. clear Ha s. intros [] s Ha.
  wp_step. eapply wp_mono; [eapply (drop_alive a4 10 8 4); [exact Ha|lia|reflexivity|lia|exact B4|exact N4]|]. cbn beta. clear Ha s. intros [] s Ha.
  wp_step. eapply wp_mono; [eapply (drop_alive a0 8 1 0); [exact Ha|lia|reflexivity|lia|exact B0|exact N0]|]. cbn beta. clear Ha s. intros [] s Ha.
  eapply wp_mono; [apply show_run; [exact Ha|by apply lines_fit|cbn; lia]|]. cbn beta. intros [] t ([Hh Hs Hc] & _ & -> & G). split; [|exact G]. split; [|done|done].
  eapply heap_ok_ext; [|exact Hh]. intros c Hc10. do 5 (destruct c as [|c]; [vm_compute; congruence|]). reflexivity.
Qed.
End run.

(** ** A fresh heap *)
(** Right after [kinit] every block is in its list. *)
Lemma full_list hs region rs sz SL FL k c : 0 < hs → (8 | hs) → 0 ≤ region → kinv (ranges_of hs region) rs sz SL FL k →
  (∀ p, hs ≤ p < slab_start hs region NUM_SIZE_CLASSES → kcovers SL FL p) → (c < NUM_SIZE_CLASSES)%nat →
  blocks (ranges_of hs region) c = region / 10 / csize c ∧ Z.of_nat (length (SL c)) = region / 10 / csize c.
Proof.
  intros Hhs Hal Hreg Hk Hcov Hc. pose proof (csize_pos c) as Hpos. pose proof (ki_slab _ _ _ _ _ _ Hk) as Hs. set (q := region / 10 / csize c).
  assert (Hq : 0 ≤ q) by (apply Z.div_pos; [apply Z.div_pos; lia|lia]).
  assert (Hen : slab_start hs region (S c) = slab_start hs region c + q * csize c) by done.
  assert (Hb : blocks (ranges_of hs region) c = q) by (unfold blocks; cbn [en st ranges_of]; rewrite Hen, Z.add_simpl_l, Z.div_mul by lia; done).
  split; [exact Hb|]. apply Z.le_antisymm; [pose proof (blocks_bound _ c (SL c) (si_nodup _ _ _ Hs c Hc) (λ a, si_blocks _ _ _ Hs c a Hc)); lia|].
  set (l := (λ i, slab_start hs region c + i * csize c) <$> seqZ 0 q). replace q with (Z.of_nat (length l)) by (unfold l; rewrite length_fmap, length_seqZ; lia).
  apply inj_le, submseteq_length, NoDup_submseteq; [apply NoDup_fmap_2_strong; [|apply NoDup_seqZ]; intros x y _ _ ?; nia|].
  intros a (i & -> & Hi%elem_of_seqZ)%list_elem_of_fmap. pose proof (start_mono hs region Hreg 0 c ltac:(lia)) as H0. cbn in H0.
  pose proof (start_mono hs region Hreg (S c) NUM_SIZE_CLASSES ltac:(lia)) as HL. set (a := slab_start hs region c + i * csize c).
  assert (Hin : a + csize c ≤ slab_start hs region (S c)) by (rewrite Hen; unfold a; nia). assert (Hge : slab_start hs region c ≤ a) by (unfold a; nia).
  assert (Hblk : slab_block (ranges_of hs region) c a) by (split; [done|]; cbn [en st ranges_of]; split; [done|]; split; [exists i; unfold a; lia|done]).
  destruct (Hcov a ltac:(lia)) as [(c' & a' & Hc' & Ha' & Hin')|Hco].
  - pose proof (si_blocks _ _ _ Hs c' a' Hc' Ha') as Hblk'. unfold in_slab_block in Hin'. pose proof (csize_pos c').
    destruct (slab_blocks_disjoint _ c c' a a' (si_geo _ _ _ Hs) Hblk Hblk') as [[-> ->]|[?|?]]; [done|lia|lia].
  - pose proof (covers_above _ _ _ _ (bi_wf _ _ _ _ (ki_buddy _ _ _ _ _ _ Hk)) Hco). pose proof (ki_below _ _ _ _ _ _ Hk c Hc) as Hbe. cbn [en ranges_of] in Hbe. lia.
Qed.
Lemma full_total region c : region = 0x20000 → (c < 10)%nat → region / 10 / csize c = total_blocks (csize c).
Proof. intros -> Hc. do 10 (destruct c as [|c]; [reflexivity|]). lia. Qed.

(** ** The clock *)
(** It is off, or it ticks and [fuel] reads see five seconds pass. *)
Definition clock_ends (fuel : nat) (h : TimerDevice.hpet) : Prop := TimerDevice.HPET_AVAILABLE h = false ∨
  ∃ t D, ClockThms.hpet_ready h ∧ 0 < TimerDevice.HPET_PERIOD_FS h ∧ ClockThms.ticking h t D ∧ 0 < D ∧
    5 * 10 ^ 15 / TimerDevice.HPET_PERIOD_FS h + D ≤ 2 ^ 64 ∧ 5 * 10 ^ 15 / TimerDevice.HPET_PERIOD_FS h < Z.of_nat fuel.
Lemma clock_ends_run fuel h : clock_ends fuel h → wp (TimerDevice.hpet_delay_ms fuel 5000) (λ _ h', clock_ends fuel h') h.
Proof.
  intros [Hoff|(t & D & Hr & Hp & Ht & HD & Hfit & Hfuel)]; unfold TimerDevice.hpet_delay_ms; wp_step; (wp_step; [reflexivity|]).
  - apply wp_run. exists tt, h. split; [|by left]. unfold TimerDevice.hpet_delay_ns, TimerDevice.hpet_is_available, mbind, M_bind, gets. by rewrite Hoff.
  - destruct (ClockThms.hpet_delay_run h t D (5000 * 1000000) fuel Hr Hp Ht HD ltac:(lia) ltac:(lia) Hfit Hfuel) as (k & Hrun & _).
    apply wp_run. exists tt, (ClockThms.read_n (2 + k) h). split; [exact Hrun|]. right. exists t, D. split_and!; try done. by apply ClockThms.read_n_ready.
Qed.

(** ** The theorems *)
(** The fresh heap, seen by the hooks. *)
Lemma fresh_alive m hs size fb W H fuel s : 0 < hs → (8 | hs) → 0x40000 ≤ size → hs + 0x41000 < 2 ^ 64 → av_heap s = knew m → USED_COUNTS s = replicate 10 0 →
  fb ≠ 0 → full W H (av_screen s) → clock_ends fuel (av_hpet s) →
  wp (on_heap (kinit hs (Z.min size (256 * 1024))) ;; on_framebuffer_init_hook fb W H) (λ _ s', ∃ SL FL rs sz, alive (ranges_of hs 0x20000) rs sz W H (clock_ends fuel) SL FL s' ∧
    ∀ c, (c < 10)%nat → blocks (ranges_of hs 0x20000) c = total_blocks (csize c) ∧ Z.of_nat (length (SL c)) = total_blocks (csize c) ∧ SL c ≠ []) s.
Proof.
  intros Hhs Hal Hsize Hend Hh Hc Hfb Hf Hclk. rewrite Z.min_r by lia. wp_step. apply wp_zoom. rewrite Hh.
  eapply wp_mono; [apply kinit_spec; [done|done|lia|lia|]|].
  { unfold region_down, region_up. change (256 * 1024) with 0x40000. change (0x40000 / 2) with 0x20000. clear -Hhs. dlia. }
  cbn beta. intros [] k (SL & FL & Hk & Hcov & _). change (256 * 1024 / 2) with 0x20000 in *.
  assert (Hfull : ∀ c, (c < 10)%nat → blocks (ranges_of hs 0x20000) c = total_blocks (csize c) ∧ Z.of_nat (length (SL c)) = total_blocks (csize c)).
  { intros c Hc10. rewrite <-(full_total 0x20000 c eq_refl Hc10). eapply full_list; [done|done|lia|exact Hk| |done]. intros p Hp. apply Hcov. by left. }
  assert (Htb : ∀ c, (c < 10)%nat → 0 < total_blocks (csize c) < 2 ^ 64) by (intros c Hc10; do 10 (destruct c as [|c]; [vm_compute; by split|]); lia).
  unfold on_framebuffer_init_hook. wp_step. exists SL, FL, (region_up (hs + 0x20000)), (Z.max 0 (region_down (hs + 256 * 1024) - region_up (hs + 0x20000))). split.
  - split; [|done|done]. split; [exact Hk| |].
    + intros c Hc10. rewrite (proj1 (Hfull c Hc10)). specialize (Htb c Hc10). lia.
    + cbn. rewrite Hc. split; [done|]. intros c Hc10. rewrite lookup_replicate_2 by done. destruct (Hfull c Hc10) as [-> ->]. f_equal. lia.
  - intros c Hc10. destruct (Hfull c Hc10) as [E' E]. split_and!; [exact E'|exact E|]. specialize (Htb c Hc10). intros Hnil. rewrite Hnil in E. cbn in E. lia.
Qed.
Lemma counts_zero R rs sz SL FL s : heap_ok R rs sz SL FL s → (∀ c, (c < 10)%nat → Z.of_nat (length (SL c)) = blocks R c) → USED_COUNTS s = replicate 10 0.
Proof.
  intros Hs Hf. destruct (ho_counts _ _ _ _ _ _ Hs) as [Hl Hc]. apply list_eq. intros c. destruct (decide (c < 10)%nat) as [Hlt|Hge].
  - rewrite lookup_replicate_2, Hc, Hf by done. f_equal. lia.
  - rewrite !lookup_ge_None_2; [done|rewrite length_replicate; lia|lia].
Qed.
Lemma wp_seq {S A B C} (a : M S A) (b : M S B) (c : M S C) Q s : wp (a ;; b) (λ _ s', wp c Q s') s → wp (a ;; b ;; c) Q s.
Proof. unfold wp, mbind, M_bind. destruct (a s) as [[? s1]|]; [|done]. by destruct (b s1) as [[? ?]|]. Qed.

(** C21: The counts of the hooks are exact, and so are the pictures drawn of them.
    On a heap in order, with each count the number of its class's blocks that are not
    in the free list, an allocation with the hooks does to the heap what it does
    without them, and giving back what is owned never trips the assertion against
    underflow; both leave the counts exact, also when the buddy allocator serves the
    request and neither hook is called.  A picture changes neither heap nor counts:
    in the grid of each of the first six classes the cells up to the blocks in use are
    red and the others, as far as the grid reaches, green. *)
Theorem allocator_hooks_correct (R : ranges) (rs sz W H : Z) (fuel : nat) (SL FL : nat → list Z) (s : avis) (layout : Layout)
    (HW : 1024 ≤ W < 2 ^ 32) (HH : 768 ≤ H < 2 ^ 32) (Hs : alive R rs sz W H (clock_ends fuel) SL FL s) (Hsize : 0 ≤ lsize layout) :
  (∃ r s' SL' FL', alloc_hooked layout s = Some (r, s') ∧ alloc layout (av_heap s) = Some (r, av_heap s') ∧ heap_ok R rs sz SL' FL' s') ∧
  (∀ a, owned R rs sz SL FL a layout → 0 < lsize layout →
     ∃ s' SL' FL', dealloc_hooked a layout s = Some (tt, s') ∧ dealloc a layout (av_heap s) = Some (tt, av_heap s') ∧ heap_ok R rs sz SL' FL' s') ∧
  (∀ title, (length (Apps.text title) < 1000)%nat → ∃ s', draw_memory_grids_multi (Apps.text title) s = Some (tt, s') ∧ av_heap s' = av_heap s ∧ USED_COUNTS s' = USED_COUNTS s ∧
     ∀ k size i dx dy, 0 ≤ k < 6 → SIZE_CLASSES !! Z.to_nat k = Some size → 0 ≤ i < Z.min 400 (total_blocks size) → 0 ≤ dx < 3 → 0 ≤ dy < 3 →
       av_screen s' !! cell_at W k i dx dy = Some (if i <? blocks R (Z.to_nat k) - Z.of_nat (length (SL (Z.to_nat k))) then 0xFF0000 else 0x00FF00)).
Proof.
  pose proof (al_heap _ _ _ _ _ _ _ _ _ Hs) as Hh. split_and!.
  - destruct (proj1 (wp_run _ _ _) (alloc_hooked_spec R rs sz layout SL FL s Hh Hsize)) as (r & s' & Hr & SL' & FL' & Hh' & _).
    exists r, s', SL', FL'. split_and!; [done|by apply alloc_hooked_heap|done].
  - intros a Ho Hz. destruct (proj1 (wp_run _ _ _) (dealloc_hooked_spec R rs sz a layout SL FL s Hh Ho Hz)) as ([] & s' & Hr & SL' & FL' & Hh' & _).
    exists s', SL', FL'. split_and!; [done|by apply dealloc_hooked_heap|done].
  - intros title Ht. destruct (proj1 (wp_run _ _ _) (grids_multi_spec W H HW HH (Apps.text title) s (alive_screen _ _ _ _ _ _ _ _ _ Hs) Ht)) as ([] & s' & Hr & b & -> & _ & G).
    exists (with_screen b s). split_and!; [done..|]. intros k size i dx dy Hk Hc Hi Hx Hy. apply (G k size _ Hk Hc); [|done..].
    apply (ho_counts _ _ _ _ _ _ Hh). lia.
Qed.

(** C22: The demonstration of the allocator runs to its end and gives everything back:
    on a fresh heap of 256 KiB or more (of which it takes 256), with a screen of at
    least 1024 by 768 and a clock that is off or ticks, every allocation is served by
    a slab, every drawing stays on the screen, every delay ends;
    at the end all counts are zero, all blocks are in their lists again and every cell
    of every grid is green. *)
Theorem allocator_demo_correct (m : memory) (hs size fb W H : Z) (fuel : nat) (s : avis)
    (Hhs : 0 < hs) (Hal : (8 | hs)) (Hsize : 0x40000 ≤ size) (Hend : hs + 0x41000 < 2 ^ 64) (Hheap : av_heap s = knew m) (Hcounts : USED_COUNTS s = replicate 10 0)
    (Hfb : fb ≠ 0) (HW : 1024 ≤ W < 2 ^ 32) (HH : 768 ≤ H < 2 ^ 32) (Hf : full W H (av_screen s)) (Hclock : clock_ends fuel (av_hpet s)) :
  ∃ s' rs sz SL FL, start_allocator_visualization fuel hs size fb W H s = Some (tt, s') ∧ USED_COUNTS s' = replicate 10 0 ∧
    kinv (ranges_of hs 0x20000) rs sz SL FL (av_heap s') ∧ (∀ c, (c < 10)%nat → Z.of_nat (length (SL c)) = total_blocks (csize c)) ∧
    ∀ k class i dx dy, 0 ≤ k < 6 → SIZE_CLASSES !! Z.to_nat k = Some class → 0 ≤ i < Z.min 400 (total_blocks class) → 0 ≤ dx < 3 → 0 ≤ dy < 3 →
      av_screen s' !! cell_at W k i dx dy = Some 0x00FF00.
Proof.
  assert (Hwp : wp (start_allocator_visualization fuel hs size fb W H) (λ _ s', ∃ SL FL rs sz, alive (ranges_of hs 0x20000) rs sz W H (clock_ends fuel) SL FL s' ∧
    grids_shown W (USED_COUNTS s') (av_screen s') ∧ ∀ c, (c < 10)%nat → blocks (ranges_of hs 0x20000) c = total_blocks (csize c) ∧ Z.of_nat (length (SL c)) = total_blocks (csize c)) s).
  { unfold start_allocator_visualization. cbv zeta. apply wp_seq. eapply wp_mono; [by eapply (fresh_alive m hs size fb W H)|]. cbn beta. intros [] s1 (SL & FL & rs & sz & Ha & Hfull).
    eapply wp_mono; [apply (tests_run _ rs sz W H HW HH fuel _ (clock_ends_run fuel) SL FL s1 Ha)|].
    - intros c Hc. apply Hfull. lia.
    - cbn beta. intros [] s' [Ha' G]. exists SL, FL, rs, sz. split_and!; [done|done|]. intros c Hc. destruct (Hfull c Hc) as (? & ? & _). done. }
  destruct (proj1 (wp_run _ _ _) Hwp) as ([] & s' & Hrun & SL & FL & rs & sz & Ha & G & Hfull). exists s', rs, sz, SL, FL. pose proof (al_heap _ _ _ _ _ _ _ _ _ Ha) as Hh.
  assert (Hz : USED_COUNTS s' = replicate 10 0) by (eapply counts_zero; [done|]; intros c Hc; destruct (Hfull c Hc); congruence).
  split_and!; [done|done|apply Hh|intros c Hc; by apply Hfull|]. intros k class i dx dy Hk Hc Hi Hx Hy. rewrite Hz in G.
  rewrite (G k class 0 Hk Hc (lookup_replicate_2 10 0 (Z.to_nat k) ltac:(lia)) i dx dy Hi Hx Hy). by rewrite (proj2 (Z.ltb_ge i 0)) by lia.
Qed.

(** Witness: a heap of one megabyte at 16 MiB, a clock of 100 MHz that ticks fifty
    times between two reads. *)
Definition demo_clock : TimerDevice.hpet :=
  TimerDevice.mkHpet true 0xFFFF8000FED00000 100000000 10000000 0 (TimerDevice.mkDev 0xFFFF8000FED00000 (10000000 * 2 ^ 32) 1 (λ n, wrap 64 (50 * Z.of_nat n)) 0).
Definition demo_avis : avis := mkAvis (knew ∅) (replicate 10 0) 0 0 0 (black (1024 * 768)) demo_clock.
Definition demo_polls : nat := Z.to_nat 1000000000.
#[local] Opaque black.
Lemma demo_clock_ends : clock_ends demo_polls demo_clock.
Proof.
  right. exists (λ n, 50 * Z.of_nat n), 50. change (5 * 10 ^ 15 / TimerDevice.HPET_PERIOD_FS demo_clock) with 500000000. split_and!; [split; cbn; lia|cbn; lia|split; [done|intros n; lia]|lia|lia|].
  unfold demo_polls. rewrite Z2Nat.id by lia. lia.
Qed.
Lemma allocator_demo_correct_witness : ∃ s', start_allocator_visualization demo_polls 0xFFFF800001000000 0x100000 0xFFFF8000C0000000 1024 768 demo_avis = Some (tt, s') ∧ USED_COUNTS s' = replicate 10 0.
Proof.
  destruct (allocator_demo_correct ∅ 0xFFFF800001000000 0x100000 0xFFFF8000C0000000 1024 768 demo_polls demo_avis) as (s' & _ & _ & _ & _ & Hrun & Hz & _).
  - lia.
  - exists 0x1FFFF00000200000. reflexivity.
  - lia.
  - lia.
  - reflexivity.
  - reflexivity.
  - lia.
  - lia.
  - lia.
  - exact (black_full 1024 768).
  - exact demo_clock_ends.
  - exists s'. split; [exact Hrun|exact Hz].
Defined.
(** Witness: the fresh heap of the demonstration; a request of the 16-byte class. *)
Lemma fresh_demo_avis : ∃ s SL FL rs sz, alive (ranges_of 0x1000000 0x20000) rs sz 1024 768 (clock_ends demo_polls) SL FL s.
Proof.
  assert (Hwp : wp (on_heap (kinit 0x1000000 (Z.min 0x40000 (256 * 1024))) ;; on_framebuffer_init_hook 0xFFFF8000C0000000 1024 768) (λ _ s, ∃ SL FL rs sz,
    alive (ranges_of 0x1000000 0x20000) rs sz 1024 768 (clock_ends demo_polls) SL FL s) demo_avis).
  { eapply wp_mono; [apply (fresh_alive ∅ 0x1000000 0x40000 0xFFFF8000C0000000 1024 768 demo_polls demo_avis)|].
    - lia.
    - by exists 0x200000.
    - lia.
    - lia.
    - reflexivity.
    - reflexivity.
    - lia.
    - exact (black_full 1024 768).
    - exact demo_clock_ends.
    - intros r s (SL & FL & rs & sz & Ha & _). by exists SL, FL, rs, sz. }
  destruct (proj1 (wp_run _ _ _) Hwp) as (_ & s & _ & SL & FL & rs & sz & Ha). exists s, SL, FL, rs, sz. exact Ha.
Qed.
Lemma allocator_hooks_correct_witness : ∃ s r s1 s2, alloc_hooked (mkLayout 12 1) s = Some (r, s1) ∧ draw_memory_grids_multi (Apps.text "After 16B alloc") s = Some (tt, s2).
Proof.
  destruct fresh_demo_avis as (s & SL & FL & rs & sz & Ha).
  destruct (allocator_hooks_correct _ rs sz 1024 768 demo_polls SL FL s (mkLayout 12 1) ltac:(lia) ltac:(lia) Ha ltac:(cbn; lia)) as ((r & s1 & _ & _ & H1 & _) & _ & H3).
  destruct (H3 "After 16B alloc"%string) as (s2 & H2 & _); [cbn; lia|]. exists s, r, s1, s2. split; [exact H1|exact H2].
Defined.
